(* ===== verification/_CoqProject ===== *)
-Q . S2P
Prelude.v
Errors.v
Usage.v
Sse.v
SseStream.v
SseBounds.v
SseFraming.v
Domain.v
Images.v
Structured.v
Collector.v
CollectorSpec.v
Pipeline.v
ChatWire.v
Schema.v
SchemaSpec.v
SchemaCompile.v
Options.v
ToolCalls.v
ChatMachine.v
ChatSim.v
ChatSpec.v
Messages.v
MessagesSim.v
MessagesSpec.v
Reliability.v
RetryAfter.v
Runner.v
RunnerSpec.v
RunnerTrace.v
History.v
HistorySpec.v
Request.v
RequestSpec.v
Headers.v
HeadersSpec.v
Serialize.v
Contract.v
Catalog.v
CatalogSpec.v
ChatRequest.v
ChatRequestSpec.v
MessagesRequest.v
MessagesRequestSpec.v
Plan.v
PlanSpec.v
Endpoint.v
EndpointSpec.v
Response.v
ResponseSpec.v
Network.v
NetworkSpec.v
Auth.v
Credentials.v
CredentialsSpec.v
Attempt.v
AttemptSpec.v
Definitions.v
Profiles.v
DefinitionsSpec.v
Registry.v
RegistrySpec.v
Config.v
ConfigSpec.v
Presets.v
PresetsSpec.v
Builders.v
Client.v
Observe.v
Inert.v
ClientSpec.v
NetworkCall.v
