(* ===== verification/Prelude.v ===== *)
(** * Verification of the philo SDK core

    philo is a Rust SDK for streaming language-model APIs.  This library is a
    shallow embedding of the code a request runs through, with the theorems
    that make it correct.  Paths below are relative to [src/src/]; the two
    crates around the core are [src/crates/philo-config/] and
    [src/crates/philo-presets/].

    ** The program and its parts

    A caller hands a request ([domain/request.rs], [domain/tools.rs]) to the
    client ([client/lifecycle.rs]).  The planner ([execution/planner.rs])
    resolves it against a provider's runtime ([provider/runtime.rs]): the
    capabilities of the model ([provider/capability.rs], [provider/catalog/]),
    the contract of the protocol ([provider/protocol_contract/]) and the limits
    ([plan/]); it validates the request and normalizes its history for the
    target ([domain/history/]).  A protocol driver ([protocol/openai_chat/] or
    [protocol/anthropic_messages/]) encodes the plan into a JSON body.  The
    client tightens its policies with the request's, resolves
    idempotency and asks the request runner ([execution/request_runner.rs]) for
    a stream.  The runner opens attempts, and after a failure consults the
    retry decision, the wait calculation and the server's retry hints
    ([execution/reliability/], [provider/rate_limit.rs],
    [provider/idempotency.rs]).  The executor ([execution/executor.rs]) runs an
    attempt: it resolves the endpoint ([provider/endpoint/]), the credential
    ([provider/auth.rs], [provider/auth/], with a cache shared by all requests)
    and the headers ([provider/headers.rs], [provider/headers/]), sends the
    request through the transport ([transport/network.rs],
    [transport/reqwest.rs]) and admits the response ([protocol/response.rs]).
    What a runtime is made of is declared in a provider's definition
    ([provider/definition.rs]), kept in a registry ([provider/registry.rs]),
    written out for the official providers ([provider/profiles/]) and the
    presets, and assembled from configuration layers.  An open attempt is a byte
    stream, decoded into
    server-sent events ([transport/sse.rs]), which a driver
    ([protocol/response_stream.rs]) feeds to a protocol state machine
    ([protocol/openai_chat/response/], [protocol/anthropic_messages/response/]).
    The machine's events reach the caller through [AssistantStream], and a
    collector ([domain/event.rs]) assembles them into a message, whose text may
    have to satisfy a structured-output format ([domain/structured.rs]) with a
    schema ([domain/schema/]).

    ** The files

    - [Prelude]: results, the state-and-error monad [M] (an error keeps the
      state, as a [&mut self] method does) with its weakest-precondition rules
      [wp], machine integers as [Z] with explicit ranges, strings as bytes with
      UTF-8 validity and Unicode trimming, JSON values, number printing and
      parsing.
    - [Errors]: [error.rs] and the observations of [provider/rate_limit.rs].
    - [Usage]: [domain/usage.rs].  The merge of snapshots is the join of the
      information order; rounding is half-up; the estimate bills every class
      of tokens once.
    - [Sse], [SseStream], [SseBounds], [SseFraming]: the decoder and its
      theorems: polling equals a one-pass denotation, chunk boundaries are
      invisible, memory is bounded in every reachable state, framing round
      trip.
    - [Domain], [Images]: ids, limits, content and messages of [domain/]; image
      constructors with media types, magic bytes and data URLs.
    - [Structured]: [domain/structured.rs] and
      [protocol/structured_terminal.rs].
    - [Collector], [CollectorSpec]: the collector of [domain/event.rs], and
      the specification [describes] of a message by its transcript, written
      without the collector's state.
    - [Pipeline]: the driver, over any instance of the class
      [SseEventMachine].
    - [ChatWire], [ToolCalls], [ChatMachine]: the Chat responses: wire values
      and compatibility, the tool-call accumulator, the state machine.
      [ChatSim] relates machine and collector by a simulation (every event the
      machine emits is one the collector accepts in the related state), and
      [ChatSpec] closes it into a theorem on whole responses.
    - [Messages], [MessagesSim], [MessagesSpec]: the same for the Anthropic
      machine, the second instance of [SseEventMachine].
    - [Schema], [SchemaSpec], [SchemaCompile]: [domain/schema/]: the validator
      against a declarative reading of schemas, and the compiler with its
      reference graph.
    - [Reliability]: retry, wait and timeout policies, idempotency and the
      execution state, as complete operations and as the atomic steps of which
      concurrent callers interleave.
    - [RetryAfter]: server-declared delays, HTTP dates and rate-limit
      metadata.
    - [Runner], [RunnerSpec]: the runner, the client and the returned stream,
      over the class [World], with bounds, the delivery boundary and the
      single end of a stream for every world.
    - [History], [HistorySpec]: the normalization pass, and the specification
      [normal_history] of the histories a target accepts: the pass yields
      exactly those, leaves them alone, and is idempotent.
    - [Options]: [protocol_options/] and [protected.rs]: raw body extensions
      against a budgeted specification, and the tables of protected names.
    - [Request], [RequestSpec]: requests, tools and their validation, with the
      specification [well_formed_request] of what is accepted.
    - [Headers], [HeadersSpec]: header layers, ownership and client identity.
    - [Serialize]: what serde gives for the request records: JSON trees with
      omitted fields, their printing, and the body with its raw extension.
    - [Contract], [Catalog], [CatalogSpec]: capabilities, protocol contracts
      and bindings, and the model catalog with its layered merge.
    - [ChatRequest], [ChatRequestSpec], [MessagesRequest],
      [MessagesRequestSpec]: the two request encoders, each with a meaning of
      conversations that the written JSON is read back to or planned into.
    - [Plan], [PlanSpec]: limits, policies, plans, the planner, the drivers'
      [prepare] and the dispatch between them.
    - [Endpoint], [EndpointSpec]: [provider/endpoint/]: templates, query plans,
      origins, network policy, redirects and credential bindings, against
      percent-decoding and a declarative reading of public hosts.
    - [Response], [ResponseSpec]: admission of a response: header limits, the
      bounded and redacted error body, and the dispatch by status
      ([protocol/response.rs], parts of [execution/executor.rs],
      [transport/mod.rs] and [error.rs]).
    - [Network], [NetworkSpec]: [transport/network.rs] and the SDK's part of
      [transport/reqwest.rs]: resolver, redirects, client configuration and body
      stream.
    - [Auth]: [provider/auth.rs] and [provider/auth/providers.rs]; the trait
      [AuthProvider] is a record of operations, with the laws [LawfulAuth] its
      implementations are shown to satisfy.
    - [Credentials], [CredentialsSpec]: [provider/auth/dynamic.rs] and
      [provider/auth/cache.rs]: the single-flight cache as one operation and,
      in the module [Tasks], as the atomic steps of many callers, any of which
      may be dropped where it awaits.
    - [Attempt], [AttemptSpec]: dynamic headers, profiles, the runtime's build
      and its header resolution, and the executor.
    - [Definitions], [Profiles], [DefinitionsSpec]: definitions, deployments,
      secrets, the factory and the official profiles.
    - [Registry], [RegistrySpec]: [provider/registry.rs], reached by the step
      relation [registry_step].
    - [Config], [ConfigSpec]: the crate [philo-config].
    - [Presets], [PresetsSpec]: the crate [philo-presets].
    - [Builders]: the setters of options, limits and capability profiles.
    - [RunnerTrace]: what a run keeps and reads, for any invariant of the
      world: the class [Kept] of invariants the operations of a [World] keep,
      and the class [Itemised] of handles that are a list of items.
    - [Client], [ClientSpec]: the client of [client/lifecycle.rs] with its
      controls, [complete], and one call as a [World]: each field is the
      component that stands behind it ([call_plan], [call_prepare],
      [call_open], [call_next]); the theorems on whole calls are instances of
      those of [RunnerTrace] and [RunnerSpec].
    - [Observe]: [observability/]: events, observers that may panic, and the
      tracing adapter.
    - [Inert]: two runs that differ in being observed, as a simulation over
      the class [Oblivious] of worlds that cannot tell.
    - [NetworkCall]: [ReqwestTransport::execute] and calls over it.

    ** Parameters

    Code outside the repository is an argument of the definitions that use it:
    [JsonSyntax] ([serde_json::from_str] to a value), [ChunkSyntax] and
    [MessagesSyntax] (the same to the response types of the two protocols),
    [JsonPrinter] ([serde_json::to_vec] and [to_string]; [printer_total] is the
    hypothesis that a tree without a non-finite number can be printed),
    [JsonValues] (number conversions and equality of JSON values), [Base64] and
    its laws, [Urls], [HttpHeaders] and [HttpValues] (the header map and the
    bytes of a header value), [HeaderText] and [HeaderFields] (its text and the
    order of fields), [UrlParts] (the parts and setters of a URL, with the laws
    [UrlLaws]), [ErrorEnvelopeSyntax] and [DocumentSyntax] (serde's reading of
    an error body and of a configuration document), [CredentialWorld] and
    [HeaderSourceWorld] (the caller's callbacks), name lookup, certificate
    readers, the environment, the transport ([reqwest]'s send), the wait for the
    next item of a body, the insertion into a header map and the system clock
    where they are used, [SecretResolver], and [World] (clock, cancellation, races of
    futures, randomness, attempts and their streams).  Theorems hold for all
    instances, and witnesses give concrete ones.  [SchemaEngine] is the
    interface of the schema component to its clients.

    ** Fuel

    Asynchronous loops recurse on fuel and answer [None] when it runs out; the
    theorems show that it never does.  [Sse.poll_next] and [Pipeline] take
    their fuel from a measure of the poll (bytes left in the chunk and budget
    left); [SseStream.drain_spec] and [Pipeline.stream_drain_spec] give the
    fuel that reads a stream to its end.  The runner uses [RUN_FUEL], the
    largest number of attempts a [RetryPolicy] can allow;
    [RunnerSpec.request_bounded] shows that the answer is never [None].  A
    complete call takes fuel for the items it collects;
    [ClientSpec.client_completes] shows that two polls more than the items of a
    response it opened are enough for every call, and that more changes nothing.  The
    recursions of [Schema] take their fuel from the size of the schema, the
    instance and the reference budget; [SchemaCompile.compile_total] and
    [SchemaSpec.validation_exact] show that it is enough.

    ** The theorems

    - Whole calls (C1 to C5, C20): over every world, however transport,
      callbacks, clock and cancellation behave: what a call sends is safe, its
      message comes from one answer, it completes, a good answer is delivered,
      its connections and redirects stay with the destination, and an observer
      changes nothing.  They compose the components below: the planner, drivers,
      executor, decoder and machines are the world of the runner
      ([Client.call_world]).  A call completes when its bodies end and each wait
      does; its polls are bounded by the items of one opened response.
    - From request to body (C6, C14 to C17): a plan is sound, its limits
      the runtime's lowered by the model's entry, and is prepared under the
      conditions that validation leaves open, unless its text is too long; validation is exact; the Chat messages read
      back as the conversation; the Anthropic turns are the planned
      conversation.
    - Over time (C7, C8, C18, C19): bounded attempts, no replay after delivery,
      one end of stream and one terminal transition also under interleaving.
    - An attempt (C28, C29, C32, C33): redirects that are validated with
      a credential's binding keep it; values in a template of plain literals are
      encoded so that they decode back; the
      response is dispatched by status, its error body bounded.
    - Credentials (C11, C30, C31): one refresh per key however callers
      interleave, a credential only for the key it was fetched for, and no
      waiting in vain under the two conditions the counterexamples show to be
      needed.
    - Responses (C9, C10, C13, C21, C22, C40): from bytes to a message: decoder,
      driver, both machines and the collector, with memory bounds.
    - History and schemas (C23 to C27): the pass against its specification,
      validation against the declarative reading, safe and total compilation.
    - Providers and options (C12, C34 to C39): definitions are coherent and their
      runtimes keep what they declare; the registry implements a map; a
      configuration field is decided by one layer; header layers and catalogs
      resolve and merge as specified; the setters build exactly the options
      their types promise.

    Theorems without a number in their comment are steps of these (the request
    of one attempt, its reported transitions, a production connection, the
    driver's denotation), about single components (catalog construction,
    presets, the official configuration) or single values (structured output,
    calendars, policies, identifiers, rate limits), or show a divergence: a refined usage report, a call without input
    ([streamed_not_collectable]), a blank second user message, a lost wish for
    sequential calls, a contract that contradicts a model, references that the
    schema compiler does not see, a flat array that counts as deep, dates
    beyond the year 5.8 million, a refresh that is dropped
    ([dropped_refresh_blocks_key]) or whose end is missed
    ([notification_missed]), an expired fallback, a rooted [localhost.], a
    dotted template value, a wait for an error body that nothing limits
    ([error_body_wait_unlimited]), a definition that removes the version header
    ([anthropic_version_removed]), an allowlist wider than the header policy, two
    orders of capability overlays, and an unnormalized provider name.

    ** Not modelled

    Endless responses: a body is a finite list of items, and a wait is a function
    of the world that ends with its result, the deadline or a cancellation; a
    body without end, or a wait that never ends, is not represented, and the
    theorems on completion say nothing about them.  Sockets, TLS and the reqwest client behind the transport; the subscriber
    behind the tracing adapter; Display and Debug renderings and getters;
    zeroization of secrets; the generator of random ids, which are drawn from
    the world; the test-only profile and the tests.  The order in which the
    transitions of an attempt fall between those of its runner is kept as two
    traces of a call, not as one.  Wakers are not represented: a pending answer is one.
*)
From Stdlib Require Export Ascii String.
From stdpp Require Export base gmap strings list option numbers pretty sorting.

Global Open Scope Z_scope.

(** ** Results of fallible code

    [Result<A, E>] of the source. *)
Inductive result (E A : Type) : Type :=
| Ok (a : A)
| Err (e : E).
Arguments Ok {E A} a.
Arguments Err {E A} e.

#[global] Instance result_ret {E} : MRet (result E) := fun A a => Ok a.
#[global] Instance result_bind {E} : MBind (result E) :=
  fun A B f r => match r with Ok a => f a | Err e => Err e end.

(** [Result::map_err]. *)
Definition map_err {E F A} (f : E -> F) (r : result E A) : result F A :=
  match r with Ok a => Ok a | Err e => Err (f e) end.

(** [Option::ok_or_else]. *)
Definition ok_or {E A} (o : option A) (e : E) : result E A :=
  match o with Some a => Ok a | None => Err e end.

Definition is_ok {E A} (r : result E A) : bool :=
  match r with Ok _ => true | Err _ => false end.

(** ** Stateful fallible code

    A method [fn f(&mut self, ..) -> Result<A, E>] of the source: the state it
    leaves behind is returned on the error path too, because the source keeps
    the mutations made before an early return. *)
Definition M (St E A : Type) : Type := St -> St * result E A.

#[global] Instance M_ret {St E} : MRet (M St E) := fun A a s => (s, Ok a).
#[global] Instance M_bind {St E} : MBind (M St E) :=
  fun A B f c s =>
    match c s with
    | (s', Ok a) => f a s'
    | (s', Err e) => (s', Err e)
    end.

Definition get {St E} : M St E St := fun s => (s, Ok s).
Definition put {St E} (s : St) : M St E unit := fun _ => (s, Ok tt).
Definition modify {St E} (f : St -> St) : M St E unit := fun s => (f s, Ok tt).
Definition throw {St E A} (e : E) : M St E A := fun s => (s, Err e).
Definition lift {St E A} (r : result E A) : M St E A := fun s => (s, r).
Definition guard_err {St E} (b : bool) (e : E) : M St E unit :=
  if b then throw e else mret tt.

(** Runs a method of a field on the enclosing state. *)
Definition zoom {St T E A} (proj : St -> T) (upd : T -> St -> St) (c : M T E A)
  : M St E A :=
  fun s => let '(t, r) := c (proj s) in (upd t s, r).

(** [for x in l { f(x)?; }]. *)
Fixpoint for_each {St E A} (f : A -> M St E unit) (l : list A) : M St E unit :=
  match l with
  | [] => mret tt
  | x :: l' => _ ← f x; for_each f l'
  end.

(** ** A weakest-precondition reading of [M]

    [wp c Q R s]: running [c] from [s] either returns [a] in a state where
    [Q a] holds, or stops with [e] in a state where [R e] holds. *)
Definition wp {St E A} (c : M St E A) (Q : A -> St -> Prop) (R : E -> St -> Prop)
    (s : St) : Prop :=
  match c s with
  | (s', Ok a) => Q a s'
  | (s', Err e) => R e s'
  end.

(** Partial reading: only the success path is constrained. *)
Abbreviation wp_ok c Q := (wp c Q (fun _ _ => True)).

Section WpRules.
Context {St E : Type}.
Implicit Types (s : St) (e : E).

Lemma wp_bind {A B} (c : M St E A) (f : A -> M St E B) Q R s :
  wp c (fun a => wp (f a) Q R) R s -> wp (c ≫= f) Q R s.
Proof. unfold wp, mbind, M_bind. destruct (c s) as [s' [a|e]]; auto. Qed.

Lemma wp_bind_assoc {A B C} (c : M St E A) (f : A -> M St E B) (g : B -> M St E C) Q R s :
  wp ((c ≫= f) ≫= g) Q R s -> wp (c ≫= fun a => f a ≫= g) Q R s.
Proof. unfold wp, mbind, M_bind. by destruct (c s) as [s' [a|e]]. Qed.

Lemma wp_ret {A} (a : A) (Q : A -> St -> Prop) (R : E -> St -> Prop) s :
  Q a s -> wp (mret a) Q R s.
Proof. auto. Qed.

Lemma wp_get (Q : St -> St -> Prop) (R : E -> St -> Prop) s :
  Q s s -> wp get Q R s.
Proof. auto. Qed.

Lemma wp_modify f (Q : unit -> St -> Prop) (R : E -> St -> Prop) s :
  Q tt (f s) -> wp (modify f) Q R s.
Proof. auto. Qed.

Lemma wp_put s' (Q : unit -> St -> Prop) (R : E -> St -> Prop) s :
  Q tt s' -> wp (put s') Q R s.
Proof. auto. Qed.

Lemma wp_throw {A} e (Q : A -> St -> Prop) (R : E -> St -> Prop) s :
  R e s -> wp (throw e) Q R s.
Proof. auto. Qed.

Lemma wp_lift {A} (r : result E A) (Q : A -> St -> Prop) (R : E -> St -> Prop) s :
  match r with Ok a => Q a s | Err e => R e s end -> wp (lift r) Q R s.
Proof. auto. Qed.

Lemma wp_guard b e (Q : unit -> St -> Prop) (R : E -> St -> Prop) s :
  (b = true -> R e s) -> (b = false -> Q tt s) -> wp (guard_err b e) Q R s.
Proof. unfold guard_err. destruct b; intros HR HQ; [apply wp_throw|apply wp_ret]; auto. Qed.

Lemma wp_zoom {T A} (proj : St -> T) upd (c : M T E A) Q R s :
  wp c (fun a t => Q a (upd t s)) (fun e t => R e (upd t s)) (proj s) ->
  wp (zoom proj upd c) Q R s.
Proof. unfold wp, zoom. destruct (c (proj s)) as [t [a|e]]; auto. Qed.

Lemma wp_mono {A} (c : M St E A) (Q Q' : A -> St -> Prop) (R R' : E -> St -> Prop) s :
  wp c Q R s -> (forall a s', Q a s' -> Q' a s') -> (forall e s', R e s' -> R' e s') ->
  wp c Q' R' s.
Proof. unfold wp. destruct (c s) as [s' [a|e]]; auto. Qed.

Lemma wp_for_each {A} (f : A -> M St E unit) l (I : St -> Prop) (R : E -> St -> Prop) s :
  (forall x s', x ∈ l -> I s' -> wp (f x) (fun _ => I) R s') ->
  I s -> wp (for_each f l) (fun _ => I) R s.
Proof.
  revert s. induction l as [|x l IH]; intros s Hf HI; simpl; [exact HI|].
  apply wp_bind. eapply wp_mono; [apply Hf; [set_solver|exact HI]| |auto].
  intros u s' Hs'. apply IH; [|exact Hs']. intros. apply Hf; [set_solver|auto].
Qed.

Lemma wp_run_ok {A} (c : M St E A) Q s s' a :
  wp_ok c Q s -> c s = (s', Ok a) -> Q a s'.
Proof. unfold wp. intros H Hc. by rewrite Hc in H. Qed.

Lemma wp_run_all {A} (c : M St E A) (Q : A -> St -> Prop) (R : E -> St -> Prop) s :
  (forall s' a, c s = (s', Ok a) -> Q a s') ->
  (forall s' e, c s = (s', Err e) -> R e s') -> wp c Q R s.
Proof. unfold wp. destruct (c s) as [s' [a|e]]; eauto. Qed.
End WpRules.

(** One step of symbolic execution of an [M] program. *)
Ltac wp_step :=
  lazymatch goal with
  | |- wp (mbind _ _) _ _ _ => apply wp_bind
  | |- wp (mret _) _ _ _ => apply wp_ret
  | |- wp get _ _ _ => apply wp_get
  | |- wp (put _) _ _ _ => apply wp_put
  | |- wp (modify _) _ _ _ => apply wp_modify
  | |- wp (throw _) _ _ _ => apply wp_throw; try exact I
  | |- wp (lift _) _ _ _ => apply wp_lift
  | |- wp (guard_err _ _) _ _ _ =>
      apply wp_guard; [try (intros _; exact I)|intros ?]
  | |- wp (zoom _ _ _) _ _ _ => apply wp_zoom
  | |- wp (match ?x with _ => _ end) _ _ _ => destruct x eqn:?
  end.
Ltac wp_steps := repeat (wp_step; cbv beta).

(** ** Machine-width integers

    Every integer of the source is a [Z] in the range of its type. *)
Definition U8_MAX : Z := 255.
Definition U32_MAX : Z := 4294967295.
Definition U64_MAX : Z := 18446744073709551615.
Definition USIZE_MAX : Z := U64_MAX.
Definition I32_MIN : Z := -2147483648.
Definition I32_MAX : Z := 2147483647.
Definition I64_MIN : Z := -9223372036854775808.
Definition I64_MAX : Z := 9223372036854775807.
Definition I128_MIN : Z := - 2 ^ 127.
Definition I128_MAX : Z := 2 ^ 127 - 1.
Definition U128_MAX : Z := 2 ^ 128 - 1.

Definition in_range (lo hi x : Z) : bool := (lo <=? x) && (x <=? hi).
Definition u32 (x : Z) : Prop := 0 <= x <= U32_MAX.
Definition u64 (x : Z) : Prop := 0 <= x <= U64_MAX.
Definition i128 (x : Z) : Prop := I128_MIN <= x <= I128_MAX.

(** [checked_*]: the value, or [None] when it leaves [[lo, hi]]. *)
Definition checked (lo hi x : Z) : option Z := if in_range lo hi x then Some x else None.
Definition u32_checked_add (a b : Z) : option Z := checked 0 U32_MAX (a + b).
Definition u64_checked_add (a b : Z) : option Z := checked 0 U64_MAX (a + b).
Definition u64_checked_sub (a b : Z) : option Z := checked 0 U64_MAX (a - b).
Definition usize_checked_add (a b : Z) : option Z := checked 0 USIZE_MAX (a + b).
Definition i128_checked_add (a b : Z) : option Z := checked I128_MIN I128_MAX (a + b).
Definition i128_checked_mul (a b : Z) : option Z := checked I128_MIN I128_MAX (a * b).

(** [saturating_add] on unsigned types. *)
Definition u64_saturating_add (a b : Z) : Z := Z.min (a + b) U64_MAX.
Definition usize_saturating_add (a b : Z) : Z := Z.min (a + b) USIZE_MAX.

(** [wrapping_mul] on [u64]. *)
Definition u64_wrap (x : Z) : Z := x mod (U64_MAX + 1).

Lemma in_range_spec lo hi x : in_range lo hi x = true <-> lo <= x <= hi.
Proof. unfold in_range. rewrite andb_true_iff, !Z.leb_le. reflexivity. Qed.

Lemma checked_Some lo hi x y : checked lo hi x = Some y <-> y = x /\ lo <= x <= hi.
Proof.
  unfold checked. destruct (in_range lo hi x) eqn:H.
  - apply in_range_spec in H. split; [intros [= <-]; auto|intros [-> _]; auto].
  - split; [discriminate|]. intros [_ Hr]. apply in_range_spec in Hr. congruence.
Qed.

Lemma checked_None lo hi x : checked lo hi x = None <-> ~ (lo <= x <= hi).
Proof.
  unfold checked. destruct (in_range lo hi x) eqn:H.
  - apply in_range_spec in H. split; [discriminate|tauto].
  - rewrite <- in_range_spec. split; [congruence|auto].
Qed.

(** Below a limit that is itself below [MAX], saturation does not happen. *)
Lemma usize_saturating_add_le a b m :
  m < USIZE_MAX -> usize_saturating_add a b <= m ->
  usize_saturating_add a b = a + b /\ a + b <= m.
Proof. unfold usize_saturating_add. lia. Qed.

(** ** Bytes and strings

    A [u8] is an [ascii]; a [String] or [&str] is the [string] of its UTF-8
    bytes, so [String.length] is [str::len]; a [Vec<u8>] is a [list ascii]. *)
Definition byte_val (b : ascii) : Z := Z.of_N (N_of_ascii b).
Definition byte_in (lo hi : Z) (b : ascii) : bool := in_range lo hi (byte_val b).
Definition is_ascii_digit : ascii -> bool := byte_in 48 57.
Definition is_ascii_uppercase : ascii -> bool := byte_in 65 90.
Definition is_ascii_lowercase : ascii -> bool := byte_in 97 122.
Definition is_ascii_alphabetic (b : ascii) : bool :=
  is_ascii_uppercase b || is_ascii_lowercase b.
Definition is_ascii_alphanumeric (b : ascii) : bool :=
  is_ascii_alphabetic b || is_ascii_digit b.

Definition str_len (s : string) : Z := Z.of_nat (String.length s).
Definition str_is_empty (s : string) : bool :=
  match s with EmptyString => true | _ => false end.
Definition str_eqb (s t : string) : bool := bool_decide (s = t).
Definition bytes_of (s : string) : list ascii := String.list_ascii_of_string s.
Definition str_of (l : list ascii) : string := String.string_of_list_ascii l.
Definition str_all (p : ascii -> bool) (s : string) : bool := forallb p (bytes_of s).

(** [str::contains(char)] for an ASCII character. *)
Definition str_contains (c : ascii) (s : string) : bool :=
  existsb (Ascii.eqb c) (bytes_of s).

(** [str::split_once(char)] for an ASCII character. *)
Fixpoint split_once (c : ascii) (s : string) : option (string * string) :=
  match s with
  | EmptyString => None
  | String b s' =>
      if Ascii.eqb b c then Some (EmptyString, s')
      else match split_once c s' with
           | Some (l, r) => Some (String b l, r)
           | None => None
           end
  end.

(** [str::strip_prefix(char)]. *)
Definition strip_char (c : ascii) (s : string) : option string :=
  match s with
  | String b s' => if Ascii.eqb b c then Some s' else None
  | EmptyString => None
  end.

(** [[String]::join(sep)]. *)
Fixpoint join (sep : string) (l : list string) : string :=
  match l with
  | [] => EmptyString
  | [s] => s
  | s :: l' => String.append s (String.append sep (join sep l'))
  end.

(** [iter.collect::<String>()]. *)
Definition str_concat (l : list string) : string := foldr String.append EmptyString l.

(** The [bytes] of a UTF-8 sequence, as [std::str::from_utf8] accepts them:
    no overlong form, no surrogate, nothing above U+10FFFF. *)
Definition utf8_cont : ascii -> bool := byte_in 128 191.
Fixpoint utf8_valid (l : list ascii) : bool :=
  match l with
  | [] => true
  | b0 :: r0 =>
      if byte_in 0 127 b0 then utf8_valid r0 else
      match r0 with
      | [] => false
      | b1 :: r1 =>
          if byte_in 194 223 b0 then utf8_cont b1 && utf8_valid r1 else
          match r1 with
          | [] => false
          | b2 :: r2 =>
              if byte_in 224 239 b0 then
                (if byte_val b0 =? 224 then byte_in 160 191 b1
                 else if byte_val b0 =? 237 then byte_in 128 159 b1
                 else utf8_cont b1) && utf8_cont b2 && utf8_valid r2
              else
              match r2 with
              | [] => false
              | b3 :: r3 =>
                  byte_in 240 244 b0 &&
                  (if byte_val b0 =? 240 then byte_in 144 191 b1
                   else if byte_val b0 =? 244 then byte_in 128 143 b1
                   else utf8_cont b1) && utf8_cont b2 && utf8_cont b3 && utf8_valid r3
              end
          end
      end
  end.

Arguments utf8_valid : simpl never.

(** The encodings of the Unicode [White_Space] characters, which [str::trim]
    removes at both ends. *)
Definition ws1 (b : ascii) : bool := byte_in 9 13 b || (byte_val b =? 32).
Definition ws2 (b0 b1 : ascii) : bool :=
  (byte_val b0 =? 194) && ((byte_val b1 =? 133) || (byte_val b1 =? 160)).
Definition ws3 (b0 b1 b2 : ascii) : bool :=
  let v0 := byte_val b0 in let v1 := byte_val b1 in let v2 := byte_val b2 in
  ((v0 =? 225) && (v1 =? 154) && (v2 =? 128)) ||
  ((v0 =? 226) && (v1 =? 128) &&
     (in_range 128 138 v2 || (v2 =? 168) || (v2 =? 169) || (v2 =? 175))) ||
  ((v0 =? 226) && (v1 =? 129) && (v2 =? 159)) ||
  ((v0 =? 227) && (v1 =? 128) && (v2 =? 128)).
Definition starts_with_ws (l : list ascii) : bool :=
  match l with
  | b0 :: b1 :: b2 :: _ => ws1 b0 || ws2 b0 b1 || ws3 b0 b1 b2
  | [b0; b1] => ws1 b0 || ws2 b0 b1
  | [b0] => ws1 b0
  | [] => false
  end.
Definition ends_with_ws (l : list ascii) : bool :=
  match rev l with
  | b2 :: b1 :: b0 :: _ => ws1 b2 || ws2 b1 b2 || ws3 b0 b1 b2
  | [b1; b0] => ws1 b1 || ws2 b0 b1
  | [b0] => ws1 b0
  | [] => false
  end.

(** [value.trim() != value]: a boundary character is white space. *)
Definition has_boundary_whitespace (s : string) : bool :=
  starts_with_ws (bytes_of s) || ends_with_ws (bytes_of s).

(** [str::parse] for the integer types: an optional sign where the type allows
    it, at least one digit, and a value in range. *)
Fixpoint digits_value (acc : Z) (l : list ascii) : option Z :=
  match l with
  | [] => Some acc
  | b :: l' => if is_ascii_digit b then digits_value (acc * 10 + (byte_val b - 48)) l' else None
  end.
Definition digits (l : list ascii) : option Z :=
  match l with [] => None | _ => digits_value 0 l end.
Definition parse_unsigned (max : Z) (s : string) : option Z :=
  let l := bytes_of s in
  let body := match l with b :: l' => if byte_val b =? 43 then l' else l | [] => l end in
  v ← digits body; checked 0 max v.
Definition parse_signed (lo hi : Z) (s : string) : option Z :=
  let l := bytes_of s in
  match l with
  | b :: l' =>
      if byte_val b =? 45 then v ← digits l'; checked lo hi (- v)
      else if byte_val b =? 43 then v ← digits l'; checked lo hi v
      else v ← digits l; checked lo hi v
  | [] => None
  end.
Definition parse_u64 : string -> option Z := parse_unsigned U64_MAX.
Definition parse_u32 : string -> option Z := parse_unsigned U32_MAX.
Definition parse_i32 : string -> option Z := parse_signed I32_MIN I32_MAX.

(** [format!(dec)] of an unsigned integer. *)
Definition show (n : Z) : string := pretty n.

Lemma str_eqb_spec s t : str_eqb s t = true <-> s = t.
Proof. apply bool_decide_eq_true. Qed.
Lemma str_eqb_refl s : str_eqb s s = true.
Proof. by apply str_eqb_spec. Qed.
Lemma str_len_nonneg s : 0 <= str_len s.
Proof. unfold str_len. lia. Qed.
Lemma str_of_bytes_of s : str_of (bytes_of s) = s.
Proof. apply String.string_of_list_ascii_of_string. Qed.
Lemma ok_or_ok {E A} (o : option A) (e : E) a : ok_or o e = Ok a <-> o = Some a.
Proof. destruct o; simpl; naive_solver. Qed.
Lemma str_app_cons b s t : String.append (String b s) t = String b (String.append s t).
Proof. reflexivity. Qed.
Lemma str_app_nil_l t : String.append EmptyString t = t.
Proof. reflexivity. Qed.
Lemma str_len_app s t : str_len (String.append s t) = str_len s + str_len t.
Proof. unfold str_len. 
  induction s as [|b s IH]; [rewrite str_app_nil_l|rewrite str_app_cons]; simpl; lia.
Qed.
Lemma str_is_empty_len s : str_is_empty s = true <-> str_len s = 0.
Proof. destruct s; unfold str_len; simpl; [tauto|]. split; [discriminate|lia]. Qed.
Lemma str_app_assoc (s t u : string) :
  String.append s (String.append t u) = String.append (String.append s t) u.
Proof. induction s as [|b s IH]; [done|]. by rewrite ?str_app_cons, IH. Qed.
Lemma str_app_nil_r s : String.append s EmptyString = s.
Proof. induction s as [|b s IH]; [done|]. by rewrite ?str_app_cons, IH. Qed.

Lemma str_concat_app l1 l2 :
  str_concat (l1 ++ l2) = String.append (str_concat l1) (str_concat l2).
Proof.
  induction l1 as [|s l1 IH]; [done|]. cbn [str_concat foldr app]. fold (str_concat (l1 ++ l2)).
  fold (str_concat l1). by rewrite IH, str_app_assoc.
Qed.

Lemma digits_value_nonneg l acc v : 0 <= acc -> digits_value acc l = Some v -> 0 <= v.
Proof.
  revert acc. induction l as [|b l IH]; intros acc Hacc; simpl; [naive_solver|].
  destruct (is_ascii_digit b) eqn:Hb; [|done]. apply IH.
  unfold is_ascii_digit, byte_in in Hb. apply in_range_spec in Hb. lia.
Qed.

Lemma parse_unsigned_range hi s v : parse_unsigned hi s = Some v -> 0 <= v <= hi.
Proof.
  unfold parse_unsigned. intros (d & _ & Hd)%bind_Some. apply checked_Some in Hd as [-> ?]. lia.
Qed.

Lemma parse_signed_range lo hi s v : parse_signed lo hi s = Some v -> lo <= v <= hi.
Proof.
  unfold parse_signed. destruct (bytes_of s) as [|b l]; [done|].
  repeat case_match; intros (d & _ & Hd)%bind_Some; apply checked_Some in Hd as [-> ?]; lia.
Qed.

(** [str::split] on the bytes of a class, and on one of them. *)
Fixpoint split_on (p : ascii -> bool) (s : string) : list string :=
  match s with
  | EmptyString => [EmptyString]
  | String b s =>
      if p b then EmptyString :: split_on p s
      else match split_on p s with
           | part :: parts => String b part :: parts
           | [] => [String b EmptyString]
           end
  end.
Definition split_char (c : ascii) : string -> list string := split_on (Ascii.eqb c).
Lemma split_on_cons p s : exists part parts, split_on p s = part :: parts.
Proof.
  destruct s as [|b s]; simpl; [eauto|]. destruct (p b); [eauto|].
  destruct (split_on p s); eauto.
Qed.

(** Strings without a byte of a class. *)
Definition free_of (p : ascii -> bool) (s : string) : bool := str_all (fun b => negb (p b)) s.
Lemma split_on_free p s : free_of p s = true -> split_on p s = [s].
Proof.
  unfold free_of, str_all. induction s as [|b s IH]; [done|]. cbn. intros [Hb Hs]%andb_true_iff.
  apply negb_true_iff in Hb. rewrite Hb, IH; done.
Qed.

Lemma split_on_sep p s c t :
  free_of p s = true -> p c = true -> split_on p (s +:+ String c t) = s :: split_on p t.
Proof.
  unfold free_of, str_all. intros Hs Hc. induction s as [|b s IH].
  - rewrite str_app_nil_l. cbn. by rewrite Hc.
  - rewrite str_app_cons. cbn in *. apply andb_true_iff in Hs as [Hb Hs]. apply negb_true_iff in Hb. by rewrite Hb, IH.
Qed.

Lemma free_of_app p s t : free_of p (s +:+ t) = free_of p s && free_of p t.
Proof.
  induction s as [|b s IH]; [done|]. rewrite str_app_cons.
  unfold free_of, str_all, bytes_of in *. cbn. by rewrite IH, andb_assoc.
Qed.

(** ** JSON values

    [serde_json::Value]; an object's entries are listed in the order its map
    iterates them. A float is kept as its bit pattern. *)
Inductive number := PosInt (n : Z) | NegInt (n : Z) | Float (bits : Z).
#[warnings="-register-all"]
Inductive json :=
| JNull
| JBool (b : bool)
| JNumber (n : number)
| JString (s : string)
| JArray (items : list json)
| JObject (entries : list (string * json)).

Definition json_is_object (v : json) : bool :=
  match v with JObject _ => true | _ => false end.

(** Why [serde_json::from_str] rejected a text ([serde_json::Error]). *)
Inductive json_category := CatIo | CatSyntax | CatData | CatEof.
Record json_error := mk_json_error {
  je_category : json_category; je_line : Z; je_column : Z }.

(** ** Ordered maps

    A [BTreeMap] is a [gmap]; iteration is by increasing key. *)
Definition btree_keys {A} (m : gmap Z A) : list Z := merge_sort (≤) (elements (dom m)).
Definition btree_values {A} (m : gmap Z A) : list A := omap (fun k => m !! k) (btree_keys m).

Lemma btree_keys_sorted {A} (m : gmap Z A) : StronglySorted (≤) (btree_keys m).
Proof. apply (StronglySorted_merge_sort _). Qed.

Lemma btree_keys_perm {A} (m : gmap Z A) : btree_keys m ≡ₚ elements (dom m).
Proof. apply merge_sort_Permutation. Qed.

Lemma elem_of_btree_keys {A} (m : gmap Z A) k : k ∈ btree_keys m <-> is_Some (m !! k).
Proof. rewrite btree_keys_perm, elem_of_elements, elem_of_dom. reflexivity. Qed.

Lemma elem_of_btree_values {A} (m : gmap Z A) v :
  v ∈ btree_values m <-> exists k, m !! k = Some v.
Proof.
  unfold btree_values. rewrite list_elem_of_omap. split.
  - intros (k & _ & Hk). eauto.
  - intros [k Hk]. exists k. split; [|done]. apply elem_of_btree_keys. eauto.
Qed.

Lemma StronglySorted_app_max (l : list Z) k :
  StronglySorted (≤) l -> (forall x, x ∈ l -> x <= k) -> StronglySorted (≤) (l ++ [k]).
Proof.
  intros Hl. induction Hl as [|x l Hl IH Hx]; intros Hmax; simpl; [repeat constructor|].
  constructor; [apply IH; set_solver|]. apply Forall_app. split; [done|].
  constructor; [apply Hmax; set_solver|constructor].
Qed.

(** A key above all others is iterated last. *)
Lemma btree_keys_insert_max {A} (m : gmap Z A) k v :
  (forall k', is_Some (m !! k') -> k' < k) ->
  btree_keys (<[k:=v]> m) = btree_keys m ++ [k].
Proof.
  intros Hmax.
  apply (StronglySorted_unique (≤)).
  - apply btree_keys_sorted.
  - apply StronglySorted_app_max; [apply btree_keys_sorted|].
    intros x Hx%elem_of_btree_keys%Hmax. lia.
  - rewrite !btree_keys_perm, dom_insert.
    assert (k ∉ dom m) as Hk.
    { intros [x Hx]%elem_of_dom. specialize (Hmax k (mk_is_Some _ _ Hx)). lia. }
    rewrite elements_union_singleton by done. by rewrite Permutation_app_comm.
Qed.

Lemma btree_values_insert_max {A} (m : gmap Z A) k v :
  (forall k', is_Some (m !! k') -> k' < k) ->
  btree_values (<[k:=v]> m) = btree_values m ++ [v].
Proof.
  intros Hmax. unfold btree_values. rewrite btree_keys_insert_max by done.
  rewrite omap_app. simpl. rewrite lookup_insert_eq. f_equal.
  apply list_omap_ext, Forall2_same_length_lookup.
  split; [done|]. intros i x y Hx Hy. simplify_eq.
  assert (x <> k).
  { intros ->. apply list_elem_of_lookup_2, elem_of_btree_keys, Hmax in Hx. lia. }
  by rewrite lookup_insert_ne.
Qed.

Lemma btree_values_empty {A} : btree_values (∅ : gmap Z A) = [].
Proof. reflexivity. Qed.

(** A decidable fact about every number of a range, by evaluating it. *)
Lemma for_range (P : Z -> bool) lo len :
  forallb P (seqZ lo len) = true -> forall n, lo <= n < lo + len -> P n = true.
Proof.
  intros H n Hn. rewrite List.forallb_forall in H. apply H, list_elem_of_In, elem_of_seqZ. lia.
Qed.

Lemma bytes_of_str_of l : bytes_of (str_of l) = l.
Proof. apply String.list_ascii_of_string_of_list_ascii. Qed.
Lemma str_len_bytes s : str_len s = Z.of_nat (length (bytes_of s)).
Proof. unfold str_len, bytes_of. induction s as [|b s IH]; cbn in *; lia. Qed.
Lemma bytes_of_app s t : bytes_of (String.append s t) = bytes_of s ++ bytes_of t.
Proof.
  induction s as [|b s IH]; [done|]. rewrite str_app_cons. unfold bytes_of in *. cbn. by rewrite IH.
Qed.
Lemma str_all_app p s t : str_all p (String.append s t) = str_all p s && str_all p t.
Proof. unfold str_all. by rewrite bytes_of_app, forallb_app. Qed.
