(* ===== verification/Errors.v ===== *)
(** * The error taxonomy of [src/src/error.rs]

    Every public failure of the SDK as a value, with the constructors and the
    fields of the source, and the constructors the components call. The rate
    limit observation an HTTP failure carries ([src/src/provider/rate_limit.rs])
    is declared here too, because the error embeds it. *)
From S2P Require Import Prelude.

(** [std::time::Duration], in nanoseconds. *)
Definition NANOS : Z := 1000000000.
Definition DURATION_MAX : Z := U64_MAX * NANOS + 999999999.
Definition from_secs (s : Z) : Z := s * NANOS.
Definition from_millis (ms : Z) : Z := ms * 1000000.
Definition duration_saturating_add (a b : Z) : Z := Z.min (a + b) DURATION_MAX.
Definition duration_saturating_mul (a n : Z) : Z := Z.min (a * n) DURATION_MAX.
Definition duration (d : Z) : Prop := 0 <= d <= DURATION_MAX.

Inductive RetriableHint := No | Maybe.

Inductive RetryReason :=
| ConnectFailure | StageTimeout | RequestTimeoutStatus | RateLimited
| TransientServerError | EarlyBodyFailure | EarlyTruncation | CredentialTimeout.

Module ErrorStage.
Inductive t :=
| Configuration | Validation | Capability | Connect | Tls | Body | Http | Sse
| Json | Protocol | Timeout.
End ErrorStage.

Module TimeoutStage.
Inductive t :=
| Credential | Connect | ResponseHeader | FirstEvent | IdleStream | Overall
| UnknownTransport.
End TimeoutStage.

Definition timeout_stage_of_error_stage (s : ErrorStage.t) : TimeoutStage.t :=
  match s with
  | ErrorStage.Connect | ErrorStage.Tls => TimeoutStage.Connect
  | ErrorStage.Timeout => TimeoutStage.Overall
  | _ => TimeoutStage.UnknownTransport
  end.

Inductive AuthFailureKind := AuthenticationKind | Permission | Quota | RateLimitKind.

Module CredentialFailure.
Inductive t := Unavailable | Invalid | RefreshFailed | Timeout.
End CredentialFailure.

Module HeaderPolicyFailure.
Inductive t := Timeout | Callback | InvalidOperation | BudgetExceeded.
End HeaderPolicyFailure.

Module ValidationReason.
Inductive t :=
| Empty | BoundaryWhitespace | Conflict | MissingProvider | ProviderMismatch
| MissingUserMessage | EmptyUserText | TextPartCount | NonFinite | OutOfRange
| Zero | Overflow | Expired | InvalidHeader | ProtectedHeader
| CapabilityUnsupported | CapabilityUnknown | InvalidMetadata
| InvalidIdentifier | DuplicateToolName | EmptyToolList | UnknownTool.
End ValidationReason.

Record ValidationError := mk_validation_error {
  ve_field : string; ve_reason : ValidationReason.t; ve_summary : string }.

Inductive ProviderConfigFailure :=
| InvalidVersion | InvalidDocument | MissingRequiredField | InvalidValue
| MergeConflict | ForbiddenOverride | SecretUnavailable.

Record ProviderConfigError := mk_provider_config_error {
  pce_field : string; pce_reason : ProviderConfigFailure; pce_message : string;
  pce_source_id : option string }.

Inductive ProviderRegistryFailure :=
| InvalidProviderId | InvalidRegistryVersion | DuplicateRegistration
| RegistrationNotFound | AmbiguousProductSelection | FactoryProviderMismatch
| StateUnavailable.

Record ProviderRegistryError := mk_provider_registry_error {
  pre_reason : ProviderRegistryFailure; pre_provider_id : option string;
  pre_message : string }.

Record CapabilityError := mk_capability_error {
  cape_field : string; cape_capability : string; cape_state : string }.

Inductive SchemaFailure :=
| NotAnObject | InvalidKeywordType | UnsupportedKeyword | RemoteReference
| UnresolvedLocalReference | SchemaTooLarge | TooDeep
| StrictObjectMissingAdditionalPropertiesFalse | StrictPropertyNotRequired.

Record SchemaError := mk_schema_error {
  se_field : string; se_reason : SchemaFailure; se_path : option string;
  se_message : string }.

Inductive ToolValidationFailure :=
| ToolInvalidJson | ToolSchemaViolation | ToolUnknown | ArgumentsTooLarge
| ArgumentsTooDeep.

#[global] Instance ToolValidationFailure_eq_dec : EqDecision ToolValidationFailure.
Proof. solve_decision. Defined.

Record ToolValidationError := mk_tool_validation_error {
  tve_field : string; tve_reason : ToolValidationFailure; tve_path : option string;
  tve_message : string }.

Inductive HistoryFailure :=
| UnknownToolCall | DuplicateToolCall | DuplicateToolResult | MissingToolResult
| ResultBeforeCall | InvalidMessageOrder | UnsupportedContent
| ToolCallIdCollision | TooManyMessages | TextTooLarge | UnsupportedPolicy.

Record HistoryError := mk_history_error {
  he_field : string; he_reason : HistoryFailure; he_path : option string;
  he_message : string }.

Inductive StructuredOutputFailure := TooLarge | InvalidJson | SchemaViolation | Truncated.

Record StructuredOutputError := mk_structured_output_error {
  soe_field : string; soe_reason : StructuredOutputFailure; soe_path : option string;
  soe_message : string }.

Inductive CostFailure := InconsistentUsage | CostOverflow | InvalidCurrency | InvalidPriceProfile.

Record CostError := mk_cost_error {
  ce_field : string; ce_reason : CostFailure; ce_path : option string;
  ce_message : string }.

Record AuthenticationError := mk_authentication_error {
  ae_kind : AuthFailureKind; ae_stage : ErrorStage.t; ae_hint : RetriableHint }.

(** The boxed source of a transport error is only ever tested for presence. *)
Record TransportError := mk_transport_error {
  te_stage : ErrorStage.t; te_hint : RetriableHint; te_has_source : bool }.

(** ** Rate-limit observations *)
Inductive RateLimitValue (T : Type) := RlUnknown | RlValid (v : T) | RlInvalid.
Arguments RlUnknown {T}.
Arguments RlValid {T} v.
Arguments RlInvalid {T}.
Inductive RateLimitUnit := Requests | Tokens | ProviderDefined.
Record RateLimitQuota := mk_quota { q_remaining : Z; q_unit : RateLimitUnit }.
Inductive RateLimitReset := After (d : Z) | At (t : Z).
Inductive RateLimitSourceKind := Standard | ProviderProfile | StandardAndProviderProfile.
Record RateLimitObservation := mk_rate_limit_observation {
  rl_status_is_rate_limited : bool;
  rl_retry_after : RateLimitValue Z;
  rl_remaining_requests : RateLimitValue Z;
  rl_remaining_units : RateLimitValue RateLimitQuota;
  rl_reset : RateLimitValue RateLimitReset;
  rl_source : RateLimitSourceKind }.

Definition retry_after_delay (o : RateLimitObservation) : option Z :=
  match rl_retry_after o with RlValid d => Some d | RlUnknown | RlInvalid => None end.

Record HttpStatusError := mk_http_status_error {
  hse_status : Z; hse_stage : ErrorStage.t; hse_body : string;
  hse_request_id : option string; hse_provider_code : option string;
  hse_hint : RetriableHint; hse_retry_after : option Z;
  hse_rate_limit : option RateLimitObservation }.

Record ProtocolError := mk_protocol_error {
  pe_stage : ErrorStage.t; pe_message : string; pe_provider_code : option string;
  pe_request_id : option string; pe_hint : RetriableHint }.

Record TimeoutError := mk_timeout_error {
  toe_stage : TimeoutStage.t; toe_overall_limited : bool; toe_elapsed : option Z;
  toe_limit : option Z; toe_attempt_number : option Z;
  toe_domain_event_delivered : bool }.

Module LlmError.
Inductive t :=
| Configuration (message : string)
| ProviderConfig (e : ProviderConfigError)
| ProviderRegistry (e : ProviderRegistryError)
| Validation (e : ValidationError)
| Capability (e : CapabilityError)
| Schema (e : SchemaError)
| ToolValidation (e : ToolValidationError)
| History (e : HistoryError)
| StructuredOutput (e : StructuredOutputError)
| Cost (e : CostError)
| Authentication (e : AuthenticationError)
| Credential (kind : CredentialFailure.t)
| HeaderPolicy (kind : HeaderPolicyFailure.t)
| Transport (e : TransportError)
| HttpStatus (e : HttpStatusError)
| Protocol (e : ProtocolError)
| UnsupportedResponseSemantics (raw : string)
| UnknownFinishReason (raw : string)
| TruncatedStream
| Timeout (e : TimeoutError)
| Cancelled.
End LlmError.
Abbreviation LlmError := LlmError.t.

(** [ValidationError::new] and its siblings. *)
Definition validation_error (field : string) (reason : ValidationReason.t)
    (summary : string) : ValidationError := mk_validation_error field reason summary.
Definition history_error (field : string) (reason : HistoryFailure)
    (path : option string) (message : string) : HistoryError :=
  mk_history_error field reason path message.
Definition cost_error (field : string) (reason : CostFailure) (path : option string)
    (message : string) : CostError := mk_cost_error field reason path message.

(** [ProtocolError::at_stage]. *)
Definition protocol_at_stage (stage : ErrorStage.t) (message : string) : LlmError :=
  LlmError.Protocol (mk_protocol_error stage message None None No).

(** [ProtocolError::new] and the [protocol] helpers of the response decoder. *)
Definition protocol (message : string) : LlmError :=
  protocol_at_stage ErrorStage.Protocol message.

Definition structured_output_error (reason : StructuredOutputFailure)
    (path : option string) (message : string) : LlmError :=
  LlmError.StructuredOutput
    (mk_structured_output_error "structured_output" reason path message).

(** [ProtocolError::with_provider_context]. *)
Definition with_provider_context (e : ProtocolError) (code : string)
    (request_id : option string) (hint : RetriableHint) : ProtocolError :=
  mk_protocol_error (pe_stage e) (pe_message e) (Some code) request_id hint.

(** [TimeoutError::new] and [TimeoutError::with_context]. *)
Definition timeout_error (stage : TimeoutStage.t) : TimeoutError :=
  mk_timeout_error stage false None None None false.
Definition timeout_with_context (e : TimeoutError) (overall_limited : bool)
    (elapsed : Z) (limit : option Z) (attempt_number : option Z)
    (domain_event_delivered : bool) : TimeoutError :=
  mk_timeout_error (toe_stage e) overall_limited (Some elapsed) limit attempt_number
    domain_event_delivered.

#[global] Instance RetriableHint_eq_dec : EqDecision RetriableHint.
Proof. solve_decision. Defined.
#[global] Instance ErrorStage_eq_dec : EqDecision ErrorStage.t.
Proof. solve_decision. Defined.
#[global] Instance TimeoutStage_eq_dec : EqDecision TimeoutStage.t.
Proof. solve_decision. Defined.
#[global] Instance CredentialFailure_eq_dec : EqDecision CredentialFailure.t.
Proof. solve_decision. Defined.
#[global] Instance HistoryFailure_eq_dec : EqDecision HistoryFailure.
Proof. solve_decision. Defined.
#[global] Instance RateLimitUnit_eq_dec : EqDecision RateLimitUnit.
Proof. solve_decision. Defined.
#[global] Instance RateLimitQuota_eq_dec : EqDecision RateLimitQuota.
Proof. solve_decision. Defined.
#[global] Instance RateLimitReset_eq_dec : EqDecision RateLimitReset.
Proof. solve_decision. Defined.
