(* ===== verification/Usage.v ===== *)
(** * Token accounting and cost estimation: [src/src/domain/usage.rs]

    Three-state token counts, the subset relations between the counters, the
    merge of successive usage snapshots, and the cost estimate in checked
    [i128] micro-units. The core [Usage] triple of [src/src/domain/event.rs]
    is here as well. *)
From S2P Require Import Prelude Errors.

(** ** Counters *)
Inductive TokenCount := Unknown | Known (n : Z).

Definition known (c : TokenCount) : option Z :=
  match c with Unknown => None | Known n => Some n end.
Definition is_known (c : TokenCount) : bool :=
  match c with Unknown => false | Known _ => true end.

Record UsageDetails := mk_usage_details {
  input_tokens : TokenCount;
  output_tokens : TokenCount;
  total_tokens : TokenCount;
  cached_input_tokens : TokenCount;
  cache_write_tokens : TokenCount;
  reasoning_tokens : TokenCount }.

#[global] Instance TokenCount_eq_dec : EqDecision TokenCount.
Proof. solve_decision. Defined.
#[global] Instance UsageDetails_eq_dec : EqDecision UsageDetails.
Proof. solve_decision. Defined.

Definition has_any_known (u : UsageDetails) : bool :=
  is_known (input_tokens u) || is_known (output_tokens u) || is_known (total_tokens u)
  || is_known (cached_input_tokens u) || is_known (cache_write_tokens u)
  || is_known (reasoning_tokens u).

Definition has_complete_core (u : UsageDetails) : bool :=
  is_known (input_tokens u) && is_known (output_tokens u) && is_known (total_tokens u).

Definition inconsistent (field message : string) : CostError :=
  cost_error field InconsistentUsage None message.

(** The four checks of [validate_relationships], in order. *)
Definition validate_total (u : UsageDetails) : result CostError unit :=
  match input_tokens u, output_tokens u, total_tokens u with
  | Known i, Known o, Known t =>
      if bool_decide (u64_checked_add i o = Some t) then Ok tt
      else Err (inconsistent "usage.total_tokens" "usage total does not equal input + output")
  | _, _, _ => Ok tt
  end.

Definition validate_cached (u : UsageDetails) : result CostError unit :=
  match input_tokens u, cached_input_tokens u, cache_write_tokens u with
  | Known i, Known c, Known w =>
      match u64_checked_add c w with
      | Some sum => if i <? sum
          then Err (inconsistent "usage.cached_input_tokens" "cached input subsets exceed input tokens")
          else Ok tt
      | None => Err (inconsistent "usage.cached_input_tokens" "cached input subsets exceed input tokens")
      end
  | Known i, Known c, Unknown =>
      if i <? c then Err (inconsistent "usage.cached_input_tokens" "cached input exceeds input tokens")
      else Ok tt
  | Known i, Unknown, Known w =>
      if i <? w then Err (inconsistent "usage.cache_write_tokens" "cache write exceeds input tokens")
      else Ok tt
  | _, _, _ => Ok tt
  end.

Definition validate_reasoning (u : UsageDetails) : result CostError unit :=
  match output_tokens u, reasoning_tokens u with
  | Known o, Known r =>
      if o <? r then Err (inconsistent "usage.reasoning_tokens" "reasoning tokens exceed output tokens")
      else Ok tt
  | _, _ => Ok tt
  end.

Definition validate_relationships (u : UsageDetails) : result CostError unit :=
  _ ← validate_total u; _ ← validate_cached u; validate_reasoning u.

(** ** Merging snapshots *)
Inductive UsageMergeOutcome :=
| Unchanged
| EmitP1 (details : UsageDetails)
| EmitDetailed (details : UsageDetails).

Definition merge_token_count (previous next : TokenCount) (field : string)
  : result CostError TokenCount :=
  match previous, next with
  | Unknown, next => Ok next
  | Known v, Unknown => Ok (Known v)
  | Known l, Known r =>
      if l =? r then Ok (Known l)
      else Err (inconsistent field "usage field changed after becoming known")
  end.

Definition merge_usage_details (previous : option UsageDetails) (next : UsageDetails)
  : result CostError (UsageDetails * UsageMergeOutcome) :=
  _ ← validate_relationships next;
  match previous with
  | None =>
      Ok (next,
          if has_complete_core next then EmitP1 next
          else if has_any_known next then EmitDetailed next
          else Unchanged)
  | Some prev =>
      i ← merge_token_count (input_tokens prev) (input_tokens next) "usage.input_tokens";
      o ← merge_token_count (output_tokens prev) (output_tokens next) "usage.output_tokens";
      t ← merge_token_count (total_tokens prev) (total_tokens next) "usage.total_tokens";
      c ← merge_token_count (cached_input_tokens prev) (cached_input_tokens next)
            "usage.cached_input_tokens";
      w ← merge_token_count (cache_write_tokens prev) (cache_write_tokens next)
            "usage.cache_write_tokens";
      r ← merge_token_count (reasoning_tokens prev) (reasoning_tokens next)
            "usage.reasoning_tokens";
      let merged := mk_usage_details i o t c w r in
      _ ← validate_relationships merged;
      if bool_decide (merged = prev) then Ok (merged, Unchanged)
      else Ok (merged,
               if negb (has_complete_core prev) && has_complete_core merged
               then EmitP1 merged else EmitDetailed merged)
  end.

(** ** Core usage ([Usage::new]) *)
Record Usage := mk_usage { u_input : Z; u_output : Z; u_total : Z }.
#[global] Instance Usage_eq_dec : EqDecision Usage.
Proof. solve_decision. Defined.

Definition usage_new (i o t : Z) : result LlmError Usage :=
  if bool_decide (u64_checked_add i o = Some t) then Ok (mk_usage i o t)
  else Err (protocol "usage total does not equal input + output").

(** ** Prices and costs *)
Definition CurrencyCode := string.

Definition currency_new (value : string) : result CostError CurrencyCode :=
  if negb (str_len value =? 3)
     || negb (str_all (fun b => is_ascii_uppercase b && is_ascii_alphabetic b) value)
  then Err (cost_error "price.currency" InvalidCurrency None
              "currency must be an uppercase ISO-4217 code")
  else Ok value.

Record PriceProfile := mk_price_profile {
  pp_version : string; pp_source : string; pp_currency : CurrencyCode;
  pp_input : Z; pp_output : Z; pp_cached_input : Z; pp_cache_write : Z }.

Definition price_profile_new (version source : string) (currency : CurrencyCode)
    (input output cached_input cache_write : Z) : result CostError PriceProfile :=
  if str_is_empty version || str_is_empty source
  then Err (cost_error "price" InvalidPriceProfile None
              "price version and source must be non-empty")
  else Ok (mk_price_profile version source currency input output cached_input cache_write).

Inductive MoneyAmount := MoneyUnknown | Micros (n : Z).

Record CostEstimate := mk_cost_estimate {
  cost_currency : option CurrencyCode;
  cost_input : MoneyAmount; cost_output : MoneyAmount;
  cost_cached_input : MoneyAmount; cost_cache_write : MoneyAmount;
  cost_total : MoneyAmount;
  cost_price_version : option string; cost_price_source : option string }.

Definition round_micros (tokens rate : Z) : result CostError Z :=
  product ← ok_or (i128_checked_mul tokens rate)
    (cost_error "cost" CostOverflow None "token price product overflowed checked i128 arithmetic");
  ok_or (v ← i128_checked_add product 500000; Some (Z.quot v 1000000))
    (cost_error "cost" CostOverflow None "token price rounding overflowed checked i128 arithmetic").

Definition priced_tokens (tokens : TokenCount) (rate : Z) : result CostError MoneyAmount :=
  match tokens with
  | Unknown => Ok MoneyUnknown
  | Known v => m ← round_micros v rate; Ok (Micros m)
  end.

Definition input_cost (u : UsageDetails) (rate : Z) : result CostError MoneyAmount :=
  match input_tokens u, cached_input_tokens u, cache_write_tokens u with
  | Known i, Known c, Known w =>
      uncached ← ok_or (v ← u64_checked_sub i c; u64_checked_sub v w)
        (inconsistent "usage.input_tokens" "cached input subsets exceed input tokens");
      m ← round_micros uncached rate; Ok (Micros m)
  | Known i, Unknown, Unknown => m ← round_micros i rate; Ok (Micros m)
  | _, _, _ => Ok MoneyUnknown
  end.

Definition total_cost (input output cached write : MoneyAmount) : result CostError MoneyAmount :=
  match input, output, cached, write with
  | Micros a, Micros b, Micros c, Micros d =>
      s ← ok_or (x ← i128_checked_add a b; y ← i128_checked_add x c; i128_checked_add y d)
        (cost_error "cost.total" CostOverflow None "cost total overflowed checked i128 arithmetic");
      Ok (Micros s)
  | _, _, _, _ => Ok MoneyUnknown
  end.

Definition estimate_cost (u : UsageDetails) (price : option PriceProfile)
  : result CostError CostEstimate :=
  _ ← validate_relationships u;
  match price with
  | None => Ok (mk_cost_estimate None MoneyUnknown MoneyUnknown MoneyUnknown MoneyUnknown
                  MoneyUnknown None None)
  | Some p =>
      cached ← priced_tokens (cached_input_tokens u) (pp_cached_input p);
      write ← priced_tokens (cache_write_tokens u) (pp_cache_write p);
      output ← priced_tokens (output_tokens u) (pp_output p);
      input ← input_cost u (pp_input p);
      total ← total_cost input output cached write;
      Ok (mk_cost_estimate (Some (pp_currency p)) input output cached write total
            (Some (pp_version p)) (Some (pp_source p)))
  end.

(** ** The information order on snapshots

    [Unknown] is below everything; two known counts are comparable only when
    equal. A merge is a join in this order. *)
Definition tc_le (a b : TokenCount) : Prop := a = Unknown \/ a = b.

Definition usage_le (a b : UsageDetails) : Prop :=
  tc_le (input_tokens a) (input_tokens b) /\ tc_le (output_tokens a) (output_tokens b) /\
  tc_le (total_tokens a) (total_tokens b) /\
  tc_le (cached_input_tokens a) (cached_input_tokens b) /\
  tc_le (cache_write_tokens a) (cache_write_tokens b) /\
  tc_le (reasoning_tokens a) (reasoning_tokens b).

#[global] Instance tc_le_po : PartialOrder tc_le.
Proof.
  split; [split|].
  - intros a. by right.
  - intros a b c. unfold tc_le. intuition congruence.
  - intros a b. unfold tc_le. intuition congruence.
Qed.

#[global] Instance usage_le_po : PartialOrder usage_le.
Proof.
  split; [split|].
  - intros a. unfold usage_le. naive_solver reflexivity.
  - intros a b c (?&?&?&?&?&?) (?&?&?&?&?&?). unfold usage_le.
    split_and!; (etrans; eassumption).
  - intros [] [] (?&?&?&?&?&?) (?&?&?&?&?&?); simpl in *. f_equal; by apply (anti_symm tc_le).
Qed.

(** The relations [validate_relationships] checks, on the known fields. *)
Definition consistent (u : UsageDetails) : Prop :=
  (forall i o t, input_tokens u = Known i -> output_tokens u = Known o ->
     total_tokens u = Known t -> t = i + o /\ u64 t) /\
  (forall i c w, input_tokens u = Known i -> cached_input_tokens u = Known c ->
     cache_write_tokens u = Known w -> c + w <= i /\ u64 (c + w)) /\
  (forall i c, input_tokens u = Known i -> cached_input_tokens u = Known c ->
     cache_write_tokens u = Unknown -> c <= i) /\
  (forall i w, input_tokens u = Known i -> cached_input_tokens u = Unknown ->
     cache_write_tokens u = Known w -> w <= i) /\
  (forall o r, output_tokens u = Known o -> reasoning_tokens u = Known r -> r <= o).

(** Uses a relation of the context on the fields it speaks about. *)
Ltac use_relations :=
  repeat match goal with
  | H : _ /\ _ |- _ => destruct H
  | H : forall _, _ |- _ =>
      first [ specialize (H _ _ _ eq_refl eq_refl eq_refl)
            | specialize (H _ _ eq_refl eq_refl eq_refl)
            | specialize (H _ _ eq_refl eq_refl) ]
  end.
Ltac relation_cases :=
  split;
  [ first [ discriminate | intros _; repeat split; intros; simplify_eq; lia ]
  | intros; first [ reflexivity | exfalso; use_relations; lia ] ].

Lemma validate_total_ok u :
  validate_total u = Ok tt <->
  (forall i o t, input_tokens u = Known i -> output_tokens u = Known o ->
     total_tokens u = Known t -> t = i + o /\ u64 t).
Proof.
  unfold validate_total, u64. destruct u as [i o t c w r]; simpl.
  destruct i as [|i], o as [|o], t as [|t]; try (split; [intros _; intros; done|done]).
  case_bool_decide as H.
  - apply checked_Some in H as [-> ?]. relation_cases.
  - split; [done|]. intros Hall. destruct H. use_relations. apply checked_Some. lia.
Qed.

Lemma validate_cached_ok u :
  validate_cached u = Ok tt <->
  (forall i c w, input_tokens u = Known i -> cached_input_tokens u = Known c ->
     cache_write_tokens u = Known w -> c + w <= i /\ u64 (c + w)) /\
  (forall i c, input_tokens u = Known i -> cached_input_tokens u = Known c ->
     cache_write_tokens u = Unknown -> c <= i) /\
  (forall i w, input_tokens u = Known i -> cached_input_tokens u = Unknown ->
     cache_write_tokens u = Known w -> w <= i).
Proof.
  unfold validate_cached, u64. destruct u as [i o t c w r]; simpl.
  destruct i as [|i], c as [|c], w as [|w]; try relation_cases.
  - destruct (Z.ltb_spec i w); relation_cases.
  - destruct (Z.ltb_spec i c); relation_cases.
  - destruct (u64_checked_add c w) as [s|] eqn:Hs.
    + apply checked_Some in Hs as [-> ?]. destruct (Z.ltb_spec i (c + w)); relation_cases.
    + apply checked_None in Hs. relation_cases.
Qed.

Lemma validate_reasoning_ok u :
  validate_reasoning u = Ok tt <->
  (forall o r, output_tokens u = Known o -> reasoning_tokens u = Known r -> r <= o).
Proof.
  unfold validate_reasoning. destruct u as [i o t c w r]; simpl.
  destruct o as [|o], r as [|r]; try (split; [intros _; intros; done|done]).
  destruct (Z.ltb_spec o r); relation_cases.
Qed.

(** [validate_relationships] accepts a snapshot exactly when its known
    fields satisfy the documented relations: the total is input plus output
    without [u64] overflow, the cache counters are subsets of the input, the
    reasoning count is a subset of the output. *)
Lemma validate_relationships_iff u :
  validate_relationships u = Ok tt <-> consistent u.
Proof.
  unfold validate_relationships, consistent.
  rewrite <- validate_reasoning_ok, <- validate_total_ok.
  pose proof (validate_cached_ok u) as Hc. unfold mbind, result_bind.
  destruct (validate_total u) as [[]|?]; [|split; [done|by intros [? _]]].
  destruct (validate_cached u) as [[]|?]; [tauto|].
  split; [done|]. intros (_ & H1 & H2 & H3 & _). by apply Hc.
Qed.

(** ** Merging is a join *)
Lemma merge_token_count_ok a b f m :
  merge_token_count a b f = Ok m <->
  tc_le a m /\ tc_le b m /\ (forall x, tc_le a x -> tc_le b x -> tc_le m x).
Proof.
  unfold merge_token_count, tc_le.
  destruct a as [|a], b as [|b]; simpl.
  - split; [intros [= <-]; naive_solver|]. intros (_ & _ & H). f_equal.
    destruct (H Unknown); auto.
  - split; [intros [= <-]; naive_solver|]. naive_solver.
  - split; [intros [= <-]; naive_solver|]. naive_solver.
  - destruct (Z.eqb_spec a b); naive_solver.
Qed.

Lemma merge_token_count_err a b f e :
  merge_token_count a b f = Err e -> forall x, ~ (tc_le a x /\ tc_le b x).
Proof.
  unfold merge_token_count, tc_le. destruct a as [|a], b as [|b]; try done.
  destruct (Z.eqb_spec a b); [done|]. intros _ x. naive_solver.
Qed.

Ltac merge_fields :=
  repeat match goal with
  | H : context [match merge_token_count ?a ?b ?f with _ => _ end] |- _ =>
      destruct (merge_token_count a b f) eqn:?; [|discriminate H]
  end;
  repeat match goal with
  | H : merge_token_count _ _ _ = Ok _ |- _ => apply merge_token_count_ok in H
  end.

Lemma merge_usage_join prev next merged outcome :
  merge_usage_details (Some prev) next = Ok (merged, outcome) ->
  usage_le prev merged /\ usage_le next merged /\
  (forall u, usage_le prev u -> usage_le next u -> usage_le merged u) /\
  consistent merged.
Proof.
  unfold merge_usage_details, mbind, result_bind. intros H.
  destruct (validate_relationships next) as [[]|]; [|done].
  merge_fields.
  match type of H with context [validate_relationships ?m] =>
    destruct (validate_relationships m) as [[]|] eqn:Hv; [|done] end.
  apply validate_relationships_iff in Hv. unfold usage_le.
  case_bool_decide; simplify_eq; naive_solver.
Qed.

(** A successful merge is the least snapshot above both inputs in the
    information order: nothing known is lost, nothing is invented, and no
    counter is ever accumulated; it satisfies the usage relations. *)
Theorem merge_usage_is_join prev next merged outcome :
  merge_usage_details (Some prev) next = Ok (merged, outcome) ->
  usage_le prev merged /\ usage_le next merged /\
  (forall u, usage_le prev u -> usage_le next u -> usage_le merged u) /\
  consistent merged.
Proof. apply merge_usage_join. Qed.

Definition sample_partial : UsageDetails :=
  mk_usage_details (Known 7) Unknown Unknown Unknown Unknown Unknown.
Definition sample_complete : UsageDetails :=
  mk_usage_details (Known 7) (Known 3) (Known 10) (Known 2) Unknown (Known 1).

Lemma merge_usage_is_join_witness :
  merge_usage_details (Some sample_partial) sample_complete
    = Ok (sample_complete, EmitP1 sample_complete) /\
  usage_le sample_partial sample_complete.
Proof.
  split; [reflexivity|].
  apply (merge_usage_is_join sample_partial sample_complete sample_complete
           (EmitP1 sample_complete)). reflexivity.
Defined.

(** What the merge reports: which event the caller emits. *)
Definition outcome_spec (prev merged : UsageDetails) (o : UsageMergeOutcome) : Prop :=
  (merged = prev /\ o = Unchanged) \/
  (merged <> prev /\ has_complete_core prev = false /\ has_complete_core merged = true
     /\ o = EmitP1 merged) \/
  (merged <> prev /\ (has_complete_core prev = true \/ has_complete_core merged = false)
     /\ o = EmitDetailed merged).

Lemma merge_usage_outcome prev next merged outcome :
  merge_usage_details (Some prev) next = Ok (merged, outcome) ->
  outcome_spec prev merged outcome.
Proof.
  unfold merge_usage_details, mbind, result_bind, outcome_spec. intros H.
  destruct (validate_relationships next) as [[]|]; [|done].
  merge_fields.
  match type of H with context [validate_relationships ?m] =>
    destruct (validate_relationships m) as [[]|] eqn:Hv; [|done] end.
  case_bool_decide as Heq; simplify_eq; [by left|right].
  match goal with |- context [negb ?p && ?m] => destruct p eqn:E1, m eqn:E2 end; simpl.
  - right. split_and!; [done|by left|done].
  - right. split_and!; [done|by left|done].
  - left. done.
  - right. split_and!; [done|by right|done].
Qed.

Lemma merge_usage_first next merged outcome :
  merge_usage_details None next = Ok (merged, outcome) ->
  merged = next /\ consistent next /\
  outcome = (if has_complete_core next then EmitP1 next
             else if has_any_known next then EmitDetailed next else Unchanged).
Proof.
  unfold merge_usage_details, mbind, result_bind.
  destruct (validate_relationships next) as [[]|] eqn:Hv; [|done].
  apply validate_relationships_iff in Hv. naive_solver.
Qed.

Lemma usage_le_complete a b :
  usage_le a b -> has_complete_core a = true -> has_complete_core b = true.
Proof.
  unfold usage_le, has_complete_core, tc_le. rewrite !andb_true_iff.
  intros (H1&H2&H3&_) [[Hi Ho] Ht].
  destruct a as [[] [] [] ? ? ?]; simpl in *; try done.
  destruct H1 as [?|<-], H2 as [?|<-], H3 as [?|<-]; done.
Qed.

(** ** Costs *)

(** Half-up division to the nearest micro-unit. *)
Definition half_up (x : Z) : Z := (x + 500000) / 1000000.

Lemma round_micros_ok tokens rate :
  u64 tokens -> u64 rate -> tokens * rate + 500000 <= I128_MAX ->
  round_micros tokens rate = Ok (half_up (tokens * rate)).
Proof.
  unfold u64, round_micros, i128_checked_mul, i128_checked_add, half_up. intros Ht Hr Hb.
  assert (I128_MIN < 0) by done. assert (0 <= tokens * rate) by nia.
  rewrite (proj2 (checked_Some _ _ _ (tokens * rate))) by lia. simpl.
  rewrite (proj2 (checked_Some _ _ _ (tokens * rate + 500000))) by lia. simpl.
  by rewrite Z.quot_div_nonneg by lia.
Qed.

Lemma round_micros_err tokens rate :
  u64 tokens -> u64 rate -> I128_MAX < tokens * rate + 500000 ->
  exists e, round_micros tokens rate = Err e /\ ce_reason e = CostOverflow.
Proof.
  unfold u64, round_micros, i128_checked_mul, i128_checked_add. intros Ht Hr Hb.
  destruct (checked I128_MIN I128_MAX (tokens * rate)) as [v|] eqn:Hv; simpl; [|eauto].
  apply checked_Some in Hv as [-> ?].
  rewrite (proj2 (checked_None _ _ _)) by lia. simpl. eauto.
Qed.

(** Rounding is half-up to the nearest micro-unit: the charged amount is
    within half a micro-unit of the exact price, ties going up. *)
Theorem round_micros_half_up tokens rate m :
  u64 tokens -> u64 rate -> round_micros tokens rate = Ok m ->
  -500000 < 1000000 * m - tokens * rate <= 500000.
Proof.
  intros Ht Hr Hm.
  destruct (Z_le_gt_dec (tokens * rate + 500000) I128_MAX) as [Hb|Hb].
  - rewrite round_micros_ok in Hm by done. injection Hm as <-.
    unfold half_up. pose proof (Z.div_mod (tokens * rate + 500000) 1000000).
    pose proof (Z.mod_pos_bound (tokens * rate + 500000) 1000000). lia.
  - destruct (round_micros_err tokens rate) as (e & He & _); [done|done|lia|congruence].
Qed.

Lemma round_micros_half_up_witness :
  round_micros 1000 1500 = Ok 2 /\ -500000 < 1000000 * 2 - 1000 * 1500 <= 500000.
Proof.
  split; [reflexivity|].
  apply (round_micros_half_up 1000 1500 2); [vm_compute; split; discriminate..|reflexivity].
Defined.

Definition price_ok (p : PriceProfile) : Prop :=
  u64 (pp_input p) /\ u64 (pp_output p) /\ u64 (pp_cached_input p) /\ u64 (pp_cache_write p).
Definition tokens_ok (u : UsageDetails) : Prop :=
  forall n, (input_tokens u = Known n \/ output_tokens u = Known n \/
             cached_input_tokens u = Known n \/ cache_write_tokens u = Known n) -> u64 n.

(** A price product that fits [i128] together with the rounding addend. *)
Definition fits (c : TokenCount) (rate : Z) : Prop :=
  forall n, c = Known n -> n * rate + 500000 <= I128_MAX.

Definition price_of (c : TokenCount) (rate : Z) : MoneyAmount :=
  match c with Unknown => MoneyUnknown | Known n => Micros (half_up (n * rate)) end.

(** The tokens billed at the input rate: the input less both cache subsets. *)
Definition billable_input (u : UsageDetails) : TokenCount :=
  match input_tokens u, cached_input_tokens u, cache_write_tokens u with
  | Known i, Known c, Known w => Known (i - c - w)
  | Known i, Unknown, Unknown => Known i
  | _, _, _ => Unknown
  end.

Definition money_sum (l : list MoneyAmount) : MoneyAmount :=
  foldr (fun m acc => match m, acc with Micros a, Micros b => Micros (a + b)
                      | _, _ => MoneyUnknown end) (Micros 0) l.

Lemma priced_tokens_ok c rate :
  (forall n, c = Known n -> u64 n) -> u64 rate -> fits c rate ->
  priced_tokens c rate = Ok (price_of c rate).
Proof.
  intros Hc Hr Hf. destruct c as [|n]; [done|].
  unfold priced_tokens, mbind, result_bind. simpl. by rewrite round_micros_ok by auto.
Qed.

Lemma input_cost_ok u rate :
  consistent u -> tokens_ok u -> u64 rate -> fits (billable_input u) rate ->
  input_cost u rate = Ok (price_of (billable_input u) rate).
Proof.
  intros (_ & Hc & _) Ht Hr Hf. unfold input_cost, billable_input in *.
  destruct u as [[|i] o t [|c] [|w] r]; unfold tokens_ok in Ht; simpl in *; try done.
  - unfold mbind, result_bind. rewrite round_micros_ok; [done|apply Ht|..]; auto.
  - pose proof (Hc _ _ _ eq_refl eq_refl eq_refl) as [? ?].
    assert (u64 i /\ u64 c /\ u64 w) as (Hi & Hcc & Hw) by (split_and!; apply Ht; auto).
    assert (u64 (i - c - w)) as Hu by (unfold u64 in *; lia).
    unfold u64_checked_sub.
    rewrite (proj2 (checked_Some _ _ _ (i - c))) by (unfold u64 in *; lia). simpl.
    rewrite (proj2 (checked_Some _ _ _ (i - c - w))) by (unfold u64 in *; lia). simpl.
    rewrite round_micros_ok; auto.
Qed.

Lemma half_up_small x : 0 <= x -> x + 500000 <= I128_MAX ->
  0 <= half_up x <= I128_MAX / 1000000.
Proof.
  intros. unfold half_up. split; [apply Z.div_pos; lia|apply Z.div_le_mono; lia].
Qed.

Lemma total_cost_ok l1 l2 l3 l4 :
  Forall (fun m => forall n, m = Micros n -> 0 <= n <= I128_MAX / 1000000) [l1; l2; l3; l4] ->
  total_cost l1 l2 l3 l4 = Ok (money_sum [l1; l2; l3; l4]).
Proof.
  rewrite !Forall_cons. intros (H1 & H2 & H3 & H4 & _).
  destruct l1 as [|a], l2 as [|b], l3 as [|c], l4 as [|d]; try done.
  specialize (H1 _ eq_refl). specialize (H2 _ eq_refl).
  specialize (H3 _ eq_refl). specialize (H4 _ eq_refl).
  assert (4 * (I128_MAX / 1000000) <= I128_MAX) by done. assert (I128_MIN < 0) by done.
  unfold total_cost, i128_checked_add.
  rewrite (proj2 (checked_Some _ _ _ (a + b))) by lia. simpl.
  rewrite (proj2 (checked_Some _ _ _ (a + b + c))) by lia. simpl.
  rewrite (proj2 (checked_Some _ _ _ (a + b + c + d))) by lia. simpl.
  do 2 f_equal. lia.
Qed.

Lemma price_of_small c rate n :
  (forall m, c = Known m -> 0 <= m) -> u64 rate -> fits c rate -> price_of c rate = Micros n ->
  0 <= n <= I128_MAX / 1000000.
Proof.
  intros Hc Hr Hf Hp. destruct c as [|k]; [done|]. injection Hp as <-.
  specialize (Hc _ eq_refl). specialize (Hf _ eq_refl). unfold u64 in Hr.
  apply half_up_small; [nia|done].
Qed.

Lemma billable_input_nonneg u m :
  consistent u -> tokens_ok u -> billable_input u = Known m -> 0 <= m.
Proof.
  intros (_ & Hc & _) Ht. unfold billable_input, tokens_ok, u64 in *.
  destruct u as [[|i] o t [|c] [|w] r]; simpl in *; try done; intros [= <-].
  - apply (Ht i). auto.
  - specialize (Hc _ _ _ eq_refl eq_refl eq_refl). lia.
Qed.

(** For consistent usage the estimate bills each token class exactly once:
    cache reads, cache writes and output at their own rates, the remaining
    input at the input rate, and the total is the sum of the four lines; the
    only way it can fail is a price product that leaves [i128]. *)
Theorem estimate_cost_spec u p :
  consistent u -> tokens_ok u -> price_ok p ->
  fits (cached_input_tokens u) (pp_cached_input p) ->
  fits (cache_write_tokens u) (pp_cache_write p) ->
  fits (output_tokens u) (pp_output p) ->
  fits (billable_input u) (pp_input p) ->
  let cached := price_of (cached_input_tokens u) (pp_cached_input p) in
  let write := price_of (cache_write_tokens u) (pp_cache_write p) in
  let output := price_of (output_tokens u) (pp_output p) in
  let input := price_of (billable_input u) (pp_input p) in
  estimate_cost u (Some p) =
    Ok (mk_cost_estimate (Some (pp_currency p)) input output cached write
          (money_sum [input; output; cached; write])
          (Some (pp_version p)) (Some (pp_source p))).
Proof.
  intros Hu Ht (Hp1 & Hp2 & Hp3 & Hp4) Hf1 Hf2 Hf3 Hf4 cached write output input.
  unfold estimate_cost, mbind, result_bind.
  rewrite (proj2 (validate_relationships_iff u) Hu).
  assert (forall c, (forall n, c = Known n -> u64 n) -> forall n, c = Known n -> 0 <= n) as Hnn
    by (intros c Hc n Hn; apply Hc in Hn; unfold u64 in Hn; lia).
  assert (forall n, cached_input_tokens u = Known n -> u64 n) as H1 by (intros; apply Ht; auto).
  assert (forall n, cache_write_tokens u = Known n -> u64 n) as H2 by (intros; apply Ht; auto).
  assert (forall n, output_tokens u = Known n -> u64 n) as H3 by (intros; apply Ht; auto).
  rewrite !priced_tokens_ok, input_cost_ok by done.
  rewrite total_cost_ok; [done|].
  rewrite !Forall_cons. split_and!; [..|by apply Forall_nil];
    intros n Hn; (eapply price_of_small; [| | |exact Hn]); eauto using billable_input_nonneg.
Qed.

Definition sample_price : PriceProfile :=
  mk_price_profile "2025-01" "list" "USD" 2500000 10000000 1250000 0.

Lemma estimate_cost_spec_witness :
  estimate_cost (mk_usage_details (Known 1000) (Known 10) (Known 1010) (Known 400) (Known 100) Unknown)
    (Some sample_price)
  = Ok (mk_cost_estimate (Some "USD"%string) (Micros 1250) (Micros 100) (Micros 500) (Micros 0)
          (Micros 1850) (Some "2025-01"%string) (Some "list"%string)).
Proof.
  apply (estimate_cost_spec
           (mk_usage_details (Known 1000) (Known 10) (Known 1010) (Known 400) (Known 100) Unknown)
           sample_price);
    unfold consistent, tokens_ok, price_ok, fits, billable_input, u64; simpl;
    repeat split; intros; naive_solver (vm_compute; congruence || lia).
Defined.

(** Without a price profile, or with an inconsistent snapshot, no amount is
    ever reported as zero: every line is unknown, respectively the error of the
    failed relation is returned. *)
Theorem estimate_cost_without_price u :
  (consistent u ->
     estimate_cost u None = Ok (mk_cost_estimate None MoneyUnknown MoneyUnknown MoneyUnknown
                                  MoneyUnknown MoneyUnknown None None)) /\
  (~ consistent u -> forall price, exists e,
     estimate_cost u price = Err e /\ ce_reason e = InconsistentUsage).
Proof.
  rewrite <- validate_relationships_iff. unfold estimate_cost, mbind, result_bind. split.
  - by intros ->.
  - intros Hn price. destruct (validate_relationships u) as [[]|e] eqn:He; [done|].
    exists e. split; [done|]. revert He.
    unfold validate_relationships, validate_total, validate_cached, validate_reasoning, mbind, result_bind.
    repeat case_match; naive_solver.
Qed.
