(* ===== verification/Sse.v ===== *)
(** * Incremental SSE framing: [src/src/transport/sse.rs]

    The byte-level decoder ([SseDecoder]), its resource limits ([SseConfig])
    and its polling loop. The upstream byte stream is the list of the answers
    its successive polls give, so chunk boundaries, empty chunks, pending polls
    and failures are all inputs of the model. *)
From S2P Require Import Prelude Errors.

(** ** Limits *)
Definition DEFAULT_MAX_CHUNK_BYTES : Z := 256 * 1024.
Definition DEFAULT_MAX_BYTES_PER_POLL : Z := 64 * 1024.
Definition DEFAULT_MAX_CHUNKS_PER_POLL : Z := 16.
Definition DEFAULT_MAX_EVENTS_PER_POLL : Z := 32.

Record SseConfig := mk_sse_config {
  max_event_bytes : Z;
  max_line_bytes : Z;
  max_fields_per_event : option Z;
  max_chunk_bytes : Z;
  max_bytes_per_poll : Z;
  max_chunks_per_poll : Z;
  max_events_per_poll : Z }.

Definition sse_config_new (event_bytes line_bytes : Z) : result ValidationError SseConfig :=
  if event_bytes =? 0 then
    Err (validation_error "max_event_bytes" ValidationReason.Zero
           "SSE event byte limit must be positive")
  else if line_bytes =? 0 then
    Err (validation_error "max_line_bytes" ValidationReason.Zero
           "SSE line byte limit must be positive")
  else Ok (mk_sse_config event_bytes line_bytes (Some 128) DEFAULT_MAX_CHUNK_BYTES
             DEFAULT_MAX_BYTES_PER_POLL DEFAULT_MAX_CHUNKS_PER_POLL
             DEFAULT_MAX_EVENTS_PER_POLL).

Definition with_max_fields_per_event (c : SseConfig) (limit : option Z) : SseConfig :=
  mk_sse_config (max_event_bytes c) (max_line_bytes c) limit (max_chunk_bytes c)
    (max_bytes_per_poll c) (max_chunks_per_poll c) (max_events_per_poll c).

Definition validate_positive_limit (field : string) (value : Z) : result ValidationError unit :=
  if value =? 0 then
    Err (validation_error field ValidationReason.Zero
           "stream work and buffer limits must be positive")
  else Ok tt.

Definition with_max_chunk_bytes (c : SseConfig) (limit : Z) : result ValidationError SseConfig :=
  _ ← validate_positive_limit "max_chunk_bytes" limit;
  Ok (mk_sse_config (max_event_bytes c) (max_line_bytes c) (max_fields_per_event c) limit
        (max_bytes_per_poll c) (max_chunks_per_poll c) (max_events_per_poll c)).

Definition with_poll_budget (c : SseConfig) (max_bytes max_chunks max_events : Z)
  : result ValidationError SseConfig :=
  _ ← validate_positive_limit "max_bytes_per_poll" max_bytes;
  _ ← validate_positive_limit "max_chunks_per_poll" max_chunks;
  _ ← validate_positive_limit "max_events_per_poll" max_events;
  Ok (mk_sse_config (max_event_bytes c) (max_line_bytes c) (max_fields_per_event c)
        (max_chunk_bytes c) max_bytes max_chunks max_events).

Definition sse_config_default : SseConfig :=
  mk_sse_config (1024 * 1024) (64 * 1024) (Some 128) DEFAULT_MAX_CHUNK_BYTES
    DEFAULT_MAX_BYTES_PER_POLL DEFAULT_MAX_CHUNKS_PER_POLL DEFAULT_MAX_EVENTS_PER_POLL.

(** ** Events and failures *)
Record SseEvent := mk_sse_event {
  ev_data : string;
  ev_event_type : option string;
  ev_id : option string;
  ev_retry_millis : option Z }.

Inductive SseLimit := ChunkBytes | EventBytes | LineBytes | Fields.

Inductive SseError :=
| Upstream (error : LlmError)
| InvalidUtf8 (line : Z)
| LimitExceeded (resource : SseLimit) (limit observed line : Z).

Definition limit_name (r : SseLimit) : string :=
  match r with
  | ChunkBytes => "ChunkBytes" | EventBytes => "EventBytes"
  | LineBytes => "LineBytes" | Fields => "Fields"
  end.

Definition into_llm_error (e : SseError) : LlmError :=
  match e with
  | Upstream error => error
  | InvalidUtf8 line =>
      protocol_at_stage ErrorStage.Sse ("invalid UTF-8 on SSE line " +:+ show line)
  | LimitExceeded resource limit observed line =>
      protocol_at_stage ErrorStage.Sse
        ("SSE " +:+ limit_name resource +:+ " limit exceeded on line " +:+ show line
         +:+ ": limit " +:+ show limit +:+ ", observed at least " +:+ show observed)
  end.

(** ** Decoder state *)
Record SseDecoder := mk_decoder {
  config : SseConfig;
  chunk : option (list ascii);
  chunk_offset : Z;
  line : list ascii;
  data_lines : list string;
  event_type : option string;
  last_event_id : option string;
  retry_millis : option Z;
  has_data : bool;
  saw_cr : bool;
  event_bytes : Z;
  field_count : Z;
  line_number : Z;
  pending : option (result SseError SseEvent);
  terminal : bool }.

Definition with_config (c : SseConfig) : SseDecoder :=
  mk_decoder c None 0 [] [] None None None false false 0 0 0 None false.

(** Field assignments of the source, [self.f = v]. *)
Definition set_line v d := mk_decoder (config d) (chunk d) (chunk_offset d) v (data_lines d)
  (event_type d) (last_event_id d) (retry_millis d) (has_data d) (saw_cr d) (event_bytes d)
  (field_count d) (line_number d) (pending d) (terminal d).
Definition set_saw_cr v d := mk_decoder (config d) (chunk d) (chunk_offset d) (line d)
  (data_lines d) (event_type d) (last_event_id d) (retry_millis d) (has_data d) v
  (event_bytes d) (field_count d) (line_number d) (pending d) (terminal d).
Definition set_event_bytes v d := mk_decoder (config d) (chunk d) (chunk_offset d) (line d)
  (data_lines d) (event_type d) (last_event_id d) (retry_millis d) (has_data d) (saw_cr d)
  v (field_count d) (line_number d) (pending d) (terminal d).
Definition set_field_count v d := mk_decoder (config d) (chunk d) (chunk_offset d) (line d)
  (data_lines d) (event_type d) (last_event_id d) (retry_millis d) (has_data d) (saw_cr d)
  (event_bytes d) v (line_number d) (pending d) (terminal d).
Definition set_pending v d := mk_decoder (config d) (chunk d) (chunk_offset d) (line d)
  (data_lines d) (event_type d) (last_event_id d) (retry_millis d) (has_data d) (saw_cr d)
  (event_bytes d) (field_count d) (line_number d) v (terminal d).
Definition set_terminal v d := mk_decoder (config d) (chunk d) (chunk_offset d) (line d)
  (data_lines d) (event_type d) (last_event_id d) (retry_millis d) (has_data d) (saw_cr d)
  (event_bytes d) (field_count d) (line_number d) (pending d) v.
Definition set_chunk v off d := mk_decoder (config d) v off (line d)
  (data_lines d) (event_type d) (last_event_id d) (retry_millis d) (has_data d) (saw_cr d)
  (event_bytes d) (field_count d) (line_number d) (pending d) (terminal d).
Definition set_event_type v d := mk_decoder (config d) (chunk d) (chunk_offset d) (line d)
  (data_lines d) v (last_event_id d) (retry_millis d) (has_data d) (saw_cr d)
  (event_bytes d) (field_count d) (line_number d) (pending d) (terminal d).
Definition set_last_event_id v d := mk_decoder (config d) (chunk d) (chunk_offset d) (line d)
  (data_lines d) (event_type d) v (retry_millis d) (has_data d) (saw_cr d)
  (event_bytes d) (field_count d) (line_number d) (pending d) (terminal d).
Definition set_retry_millis v d := mk_decoder (config d) (chunk d) (chunk_offset d) (line d)
  (data_lines d) (event_type d) (last_event_id d) v (has_data d) (saw_cr d)
  (event_bytes d) (field_count d) (line_number d) (pending d) (terminal d).
Definition push_data v d := mk_decoder (config d) (chunk d) (chunk_offset d) (line d)
  (data_lines d ++ [v]) (event_type d) (last_event_id d) (retry_millis d) true (saw_cr d)
  (event_bytes d) (field_count d) (line_number d) (pending d) (terminal d).

(** ** Operations *)
Definition fail (error : SseError) (d : SseDecoder) : SseDecoder :=
  mk_decoder (config d) None (chunk_offset d) [] [] (event_type d) (last_event_id d)
    (retry_millis d) (has_data d) (saw_cr d) (event_bytes d) (field_count d) (line_number d)
    (Some (Err error)) true.

Definition dispatch_event (d : SseDecoder) : SseDecoder :=
  mk_decoder (config d) (chunk d) (chunk_offset d) (line d) [] None (last_event_id d) None
    false (saw_cr d) 0 0 (line_number d)
    (if has_data d
     then Some (Ok (mk_sse_event (join (str_of ["010"%char]) (data_lines d)) (event_type d)
                      (last_event_id d) (retry_millis d)))
     else pending d)
    (terminal d).

(** The [match field] of [finish_line]. *)
Definition apply_field (field value : string) (d : SseDecoder) : SseDecoder :=
  if str_eqb field "data" then push_data value d
  else if str_eqb field "event" then set_event_type (Some value) d
  else if str_eqb field "id" && negb (str_contains "000"%char value)
  then set_last_event_id (Some value) d
  else if str_eqb field "retry" then
    (if negb (str_is_empty value) && str_all is_ascii_digit value
     then match parse_u64 value with Some r => set_retry_millis (Some r) d | None => d end
     else d)
  else d.

Definition split_field (line : string) : string * string :=
  let '(field, value) := default (line, EmptyString) (split_once ":"%char line) in
  (field, default value (strip_char " "%char value)).

Definition finish_line (d0 : SseDecoder) : SseDecoder :=
  let bytes := line d0 in
  let d := mk_decoder (config d0) (chunk d0) (chunk_offset d0) [] (data_lines d0)
             (event_type d0) (last_event_id d0) (retry_millis d0) (has_data d0) (saw_cr d0)
             (event_bytes d0) (field_count d0) (u64_saturating_add (line_number d0) 1)
             (pending d0) (terminal d0) in
  match bytes with
  | [] => dispatch_event d
  | first :: _ =>
      if negb (utf8_valid bytes) then fail (InvalidUtf8 (line_number d)) d
      else if Ascii.eqb first ":"%char then d
      else
        let d := set_field_count (usize_saturating_add (field_count d) 1) d in
        let '(field, value) := split_field (str_of bytes) in
        match max_fields_per_event (config d) with
        | Some limit =>
            if limit <? field_count d
            then fail (LimitExceeded Fields limit (field_count d) (line_number d)) d
            else apply_field field value d
        | None => apply_field field value d
        end
  end.

(** The part of [process_byte] after the CR-LF test. *)
Definition consume_byte (byte : ascii) (d0 : SseDecoder) : SseDecoder :=
  let d := set_event_bytes (usize_saturating_add (event_bytes d0) 1) d0 in
  if max_event_bytes (config d) <? event_bytes d then
    fail (LimitExceeded EventBytes (max_event_bytes (config d)) (event_bytes d)
            (u64_saturating_add (line_number d) 1)) d
  else if Ascii.eqb byte "013"%char then set_saw_cr true (finish_line d)
  else if Ascii.eqb byte "010"%char then finish_line d
  else
    let d := set_line (line d ++ [byte]) d in
    if max_line_bytes (config d) <? Z.of_nat (length (line d)) then
      fail (LimitExceeded LineBytes (max_line_bytes (config d)) (Z.of_nat (length (line d)))
              (u64_saturating_add (line_number d) 1)) d
    else d.

Definition process_byte (byte : ascii) (d : SseDecoder) : SseDecoder :=
  if saw_cr d then
    let d := set_saw_cr false d in
    if Ascii.eqb byte "010"%char then d else consume_byte byte d
  else consume_byte byte d.

Definition finish_eof (d0 : SseDecoder) : SseDecoder :=
  let d := match line d0 with [] => d0 | _ => finish_line d0 end in
  let d := match pending d with
           | None => if terminal d then d else dispatch_event d
           | Some _ => d
           end in
  set_terminal true d.

(** ** Polling *)

(** The answers of the upstream [ByteStream] to successive polls; after the
    last one every poll answers end-of-stream. *)
Inductive upstream_poll :=
| UChunk (bytes : list ascii)
| UError (error : LlmError)
| UPending.

Inductive poll A := Ready (a : option A) | Pending.
Arguments Ready {A} a.
Arguments Pending {A}.

Definition take_pending (d : SseDecoder) : SseDecoder * option (result SseError SseEvent) :=
  (set_pending None d, pending d).

(** Bytes of the current chunk not consumed yet, plus the polls still to come:
    the measure of the polling loop. *)
Definition poll_measure (d : SseDecoder) (up : list upstream_poll) : nat :=
  (match chunk d with
   | Some c => S (length c - Z.to_nat (chunk_offset d))
   | None => 0
   end + list_sum (map (fun p => match p with UChunk c => S (S (length c)) | _ => 1 end) up)
   + 1)%nat.

Definition poll_answer : Type :=
  SseDecoder * list upstream_poll * option (poll (result SseError SseEvent)).

(** The second half of the loop body: no byte is left in the current chunk, so
    the upstream is polled; [continue] is the next iteration. *)
Definition refill (continue : Z -> SseDecoder -> list upstream_poll -> poll_answer)
    (chunks_polled : Z) (d : SseDecoder) (up : list upstream_poll) : poll_answer :=
  if max_chunks_per_poll (config d) <=? chunks_polled then (d, up, Some Pending)
  else
    match up with
    | UChunk [] :: up' => continue (chunks_polled + 1) d up'
    | UChunk c :: up' =>
        if max_chunk_bytes (config d) <? Z.of_nat (length c) then
          let '(d, item) := take_pending
            (fail (LimitExceeded ChunkBytes (max_chunk_bytes (config d))
                     (Z.of_nat (length c)) (u64_saturating_add (line_number d) 1)) d) in
          (d, up', Some (Ready item))
        else continue (chunks_polled + 1) (set_chunk (Some c) (chunk_offset d) d) up'
    | UError e :: up' =>
        let '(d, item) := take_pending (fail (Upstream e) d) in
        (d, up', Some (Ready item))
    | UPending :: up' => (d, up', Some Pending)
    | [] =>
        let '(d, item) := take_pending (finish_eof d) in (d, [], Some (Ready item))
    end.

(** The loop of [poll_next]; [fuel] bounds its iterations. *)
Fixpoint poll_loop (fuel : nat) (bytes_processed chunks_polled : Z) (d : SseDecoder)
    (up : list upstream_poll) : poll_answer :=
  match fuel with
  | O => (d, up, None)
  | S fuel =>
      match chunk d with
      | Some c =>
          match c !! Z.to_nat (chunk_offset d) with
          | Some byte =>
              if max_bytes_per_poll (config d) <=? bytes_processed then (d, up, Some Pending)
              else
                let d := process_byte byte (set_chunk (chunk d) (chunk_offset d + 1) d) in
                match pending d with
                | Some item => (set_pending None d, up, Some (Ready (Some item)))
                | None =>
                    if terminal d then (d, up, Some (Ready None))
                    else poll_loop fuel (bytes_processed + 1) chunks_polled d up
                end
          | None => refill (poll_loop fuel bytes_processed) chunks_polled (set_chunk None 0 d) up
          end
      | None => refill (poll_loop fuel bytes_processed) chunks_polled d up
      end
  end.

Definition poll_next (d : SseDecoder) (up : list upstream_poll) : poll_answer :=
  match pending d with
  | Some item => (set_pending None d, up, Some (Ready (Some item)))
  | None =>
      if terminal d then (d, up, Some (Ready None))
      else poll_loop (poll_measure d up) 0 0 d up
  end.
