(* ===== verification/SseStream.v ===== *)
(** * What the SSE decoder computes

    The decoder of [Sse.v] is polled under byte, chunk and event budgets, over
    an upstream that cuts the response wherever the network did. This file
    gives the denotation of a whole response ([decode_stream]: one pass over
    the bytes), proves that polling to the end yields exactly that denotation
    whatever the chunk boundaries and budgets ([drain_spec]), that chunking is
    irrelevant, that the loops terminate, and that buffers stay bounded. *)
From S2P Require Import Prelude Errors Sse.

Abbreviation item := (result SseError SseEvent).

(** ** Denotation *)

(** Feeds bytes one by one, collecting what each one completes. *)
Fixpoint feed (d : SseDecoder) (l : list ascii) : list item * SseDecoder :=
  match l with
  | [] => ([], d)
  | b :: l =>
      if terminal d then ([], d)
      else
        let d1 := process_byte b d in
        match pending d1 with
        | Some it => let '(its, d2) := feed (set_pending None d1) l in (it :: its, d2)
        | None => feed d1 l
        end
  end.

Fixpoint decode_stream (d : SseDecoder) (up : list upstream_poll) : list item :=
  match up with
  | [] => option_list (pending (finish_eof d))
  | UPending :: up => decode_stream d up
  | UError e :: _ => [Err (Upstream e)]
  | UChunk c :: up =>
      if max_chunk_bytes (config d) <? Z.of_nat (length c) then
        [Err (LimitExceeded ChunkBytes (max_chunk_bytes (config d)) (Z.of_nat (length c))
                (u64_saturating_add (line_number d) 1))]
      else let '(its, d') := feed d c in
           its ++ (if terminal d' then [] else decode_stream d' up)
  end.

(** ** States that differ only in the chunk being consumed *)
Definition core (d : SseDecoder) : SseDecoder := set_chunk None 0 d.
Definition same_core (d d' : SseDecoder) : Prop := core d = core d'.
Infix "≃" := same_core (at level 70).

#[global] Instance same_core_equiv : Equivalence same_core.
Proof. split; unfold same_core; [intros ?|intros ???|intros ?????]; congruence. Qed.

Lemma same_core_cases d d' :
  d ≃ d' <-> exists c o, d' = set_chunk c o d.
Proof.
  unfold same_core, core. split.
  - intros H. exists (chunk d'), (chunk_offset d'). destruct d, d'. unfold set_chunk in *; simpl in *.
    injection H; intros; subst; reflexivity.
  - intros (c & o & ->). reflexivity.
Qed.

Lemma core_set_chunk c o d : set_chunk c o d ≃ d.
Proof. reflexivity. Qed.
#[global] Instance core_proper : Proper (same_core ==> eq) core.
Proof. intros d d' H. exact H. Qed.
#[global] Instance terminal_proper : Proper (same_core ==> eq) terminal.
Proof. intros d d' (c & o & ->)%same_core_cases. done. Qed.
#[global] Instance pending_proper : Proper (same_core ==> eq) pending.
Proof. intros d d' (c & o & ->)%same_core_cases. done. Qed.
#[global] Instance config_proper : Proper (same_core ==> eq) config.
Proof. intros d d' (c & o & ->)%same_core_cases. done. Qed.
#[global] Instance line_number_proper : Proper (same_core ==> eq) line_number.
Proof. intros d d' (c & o & ->)%same_core_cases. done. Qed.
#[global] Instance set_pending_proper : Proper (eq ==> same_core ==> same_core) set_pending.
Proof. intros v ? <- d d' (c & o & ->)%same_core_cases. apply same_core_cases. by exists c, o. Qed.
#[global] Instance fail_proper : Proper (eq ==> same_core ==> same_core) fail.
Proof. intros v ? <- d d' (c & o & ->)%same_core_cases. done. Qed.
#[global] Instance dispatch_proper : Proper (same_core ==> same_core) dispatch_event.
Proof. intros d d' (c & o & ->)%same_core_cases. done. Qed.

#[global] Instance finish_line_proper : Proper (same_core ==> same_core) finish_line.
Proof.
  intros d d' (c & o & ->)%same_core_cases. unfold finish_line, same_core.
  destruct (line d) as [|b l] eqn:Hl; simpl; rewrite ?Hl; [done|].
  destruct (split_field _) as [f v].
  unfold apply_field. repeat case_match; done.
Qed.

#[global] Instance process_byte_proper b : Proper (same_core ==> same_core) (process_byte b).
Proof.
  assert (Proper (same_core ==> same_core) (consume_byte b)) as Hc.
  { intros d d' (c & o & ->)%same_core_cases. unfold consume_byte; simpl.
    repeat case_match; try done; unfold same_core.
    - change (core (set_saw_cr true ?x)) with (set_saw_cr true (core x)).
      by rewrite (finish_line_proper _ (set_chunk c o (set_event_bytes
                    (usize_saturating_add (event_bytes d) 1) d))).
    - by rewrite (finish_line_proper _ (set_chunk c o (set_event_bytes
                    (usize_saturating_add (event_bytes d) 1) d))). }
  intros d d' (c & o & ->)%same_core_cases. unfold process_byte; simpl.
  destruct (saw_cr d); [|by apply Hc]. case_match; [done|]. by apply Hc.
Qed.

#[global] Instance finish_eof_proper : Proper (same_core ==> same_core) finish_eof.
Proof.
  intros d d' (c & o & ->)%same_core_cases. unfold finish_eof; simpl.
  set (e := match line d with [] => d | _ => finish_line d end).
  set (e' := match line d with [] => set_chunk c o d | _ => finish_line (set_chunk c o d) end).
  assert (e ≃ e') as Hee.
  { unfold e, e'. destruct (line d); [done|]. by apply finish_line_proper. }
  rewrite <- (pending_proper _ _ Hee), <- (terminal_proper _ _ Hee).
  apply same_core_cases in Hee as (c' & o' & ->).
  repeat case_match; done.
Qed.

Lemma feed_proper l d d' :
  d ≃ d' -> (feed d l).1 = (feed d' l).1 /\ (feed d l).2 ≃ (feed d' l).2.
Proof.
  revert d d'. induction l as [|b l IH]; intros d d' H; simpl; [done|].
  rewrite (terminal_proper _ _ H). destruct (terminal d'); [done|].
  assert (process_byte b d ≃ process_byte b d') as Hp by by apply process_byte_proper.
  rewrite (pending_proper _ _ Hp). destruct (pending (process_byte b d')) as [it|]; [|by apply IH].
  destruct (IH (set_pending None (process_byte b d)) (set_pending None (process_byte b d')))
    as [H1 H2]; [by apply set_pending_proper|].
  destruct (feed (set_pending None (process_byte b d)) l), (feed _ l). simpl in *. by subst.
Qed.

Lemma decode_stream_proper up d d' : d ≃ d' -> decode_stream d up = decode_stream d' up.
Proof.
  revert d d'. induction up as [|[c|e|] up IH]; intros d d' H; cbn [decode_stream];
    [|..|done|by apply IH].
  - f_equal. apply pending_proper. by apply finish_eof_proper.
  - rewrite (config_proper _ _ H), (line_number_proper _ _ H). case_match; [done|].
    destruct (feed_proper c d d' H) as [H1 H2].
    destruct (feed d c) as [i1 d1], (feed d' c) as [i2 d2]; simpl in *; subst.
    rewrite (terminal_proper _ _ H2). case_match; [done|]. f_equal. by apply IH.
Qed.

(** Feeding is compositional: the byte sequence, not its cutting, matters. *)
Lemma feed_app d l1 l2 :
  feed d (l1 ++ l2) =
  let '(i1, d1) := feed d l1 in let '(i2, d2) := feed d1 l2 in (i1 ++ i2, d2).
Proof.
  revert d. induction l1 as [|b l1 IH]; intros d; simpl; [by destruct (feed d l2)|].
  destruct (terminal d) eqn:Ht.
  - destruct l2; simpl; [done|]. by rewrite Ht.
  - destruct (pending (process_byte b d)); [|apply IH]. rewrite IH.
    destruct (feed (set_pending None _) l1) as [i1 d1], (feed d1 l2). done.
Qed.

(** ** Frame of one byte *)

(** Either the decoder goes on with its chunk, or it stopped with an error. *)
Definition framed (d d' : SseDecoder) : Prop :=
  config d' = config d /\
  ((terminal d' = terminal d /\ chunk d' = chunk d /\ chunk_offset d' = chunk_offset d) \/
   (terminal d' = true /\ chunk d' = None /\ exists e, pending d' = Some (Err e))).

Ltac solve_framed :=
  split; [reflexivity|];
  first [ left; split_and!; reflexivity
        | right; split_and!; [reflexivity..|eexists; reflexivity] ].

Lemma finish_line_framed d : framed d (finish_line d).
Proof.
  unfold finish_line, apply_field. destruct (line d) as [|b l]; [solve_framed|].
  destruct (split_field _) as [f v]. repeat case_match; solve_framed.
Qed.

Lemma framed_trans_mild d d1 d' :
  config d1 = config d -> terminal d1 = terminal d -> chunk d1 = chunk d ->
  chunk_offset d1 = chunk_offset d -> framed d1 d' -> framed d d'.
Proof. unfold framed. intros -> -> -> ->. done. Qed.

Lemma consume_byte_framed b d : framed d (consume_byte b d).
Proof.
  unfold consume_byte.
  set (d1 := set_event_bytes (usize_saturating_add (event_bytes d) 1) d).
  destruct (_ <? _); [solve_framed|].
  destruct (Ascii.eqb b "013").
  { apply (framed_trans_mild d d1); try done.
    destruct (finish_line_framed d1) as [Hc Hf]. split; [done|exact Hf]. }
  destruct (Ascii.eqb b "010").
  { apply (framed_trans_mild d d1); try done. apply finish_line_framed. }
  destruct (_ <? _); solve_framed.
Qed.

Lemma process_byte_framed b d : framed d (process_byte b d).
Proof.
  unfold process_byte. repeat case_match; try apply consume_byte_framed.
  - solve_framed.
  - apply (consume_byte_framed b (set_saw_cr false d)).
Qed.

Lemma process_byte_config b d : config (process_byte b d) = config d.
Proof. apply process_byte_framed. Qed.

Lemma feed_config d l : config (feed d l).2 = config d.
Proof.
  revert d. induction l as [|b l IH]; intros d; simpl; [done|].
  destruct (terminal d); [done|]. destruct (pending (process_byte b d)).
  - specialize (IH (set_pending None (process_byte b d))).
    destruct (feed _ l); simpl in *. rewrite IH. simpl. apply process_byte_config.
  - rewrite IH. apply process_byte_config.
Qed.

(** ** Polling refines the denotation *)
Definition config_wf (c : SseConfig) : Prop :=
  1 <= max_event_bytes c /\ 1 <= max_line_bytes c /\ 1 <= max_chunk_bytes c /\
  1 <= max_bytes_per_poll c /\ 1 <= max_chunks_per_poll c /\ 1 <= max_events_per_poll c /\
  (forall f, max_fields_per_event c = Some f -> 0 <= f).

Definition poll_wf (d : SseDecoder) : Prop :=
  config_wf (config d) /\
  (terminal d = false -> 0 <= chunk_offset d /\ (chunk d = None -> chunk_offset d = 0)).

Definition remaining (d : SseDecoder) : list ascii :=
  match chunk d with Some c => drop (Z.to_nat (chunk_offset d)) c | None => [] end.

Definition den (d : SseDecoder) (up : list upstream_poll) : list item :=
  let '(its, d') := feed d (remaining d) in
  its ++ (if terminal d' then [] else decode_stream d' up).

(** Everything a decoder has still to yield. *)
Definition den_all (d : SseDecoder) (up : list upstream_poll) : list item :=
  option_list (pending d) ++ (if terminal d then [] else den (set_pending None d) up).

(** The work left before the stream ends. *)
Definition weight (d : SseDecoder) (up : list upstream_poll) : nat :=
  ((match pending d with Some _ => 1 | None => 0 end) +
   (if terminal d then 0
    else 2 + length (remaining d)
         + list_sum (map (fun p => match p with UChunk c => S (length c) | _ => 1 end) up)))%nat.

Definition poll_post (d : SseDecoder) (up : list upstream_poll) (strict : Prop)
    (out : SseDecoder * list upstream_poll * option (poll item)) : Prop :=
  match out with
  | (d', up', Some (Ready (Some it))) =>
      den_all d up = it :: den_all d' up' /\ (weight d' up' < weight d up)%nat /\ poll_wf d'
  | (d', up', Some (Ready None)) => den_all d up = [] /\ den_all d' up' = [] /\ terminal d' = true
  | (d', up', Some Pending) =>
      den_all d up = den_all d' up' /\ (weight d' up' <= weight d up)%nat /\
      (strict -> (weight d' up' < weight d up)%nat) /\ poll_wf d'
  | (_, _, None) => False
  end.

Lemma decode_stream_chunk d c up :
  Z.of_nat (length c) <= max_chunk_bytes (config d) ->
  decode_stream d (UChunk c :: up) =
  let '(its, d') := feed d c in its ++ (if terminal d' then [] else decode_stream d' up).
Proof. intros H. cbn [decode_stream]. by rewrite (proj2 (Z.ltb_ge _ _)). Qed.

(** [den] with the chunk loaded is [decode_stream] with the chunk upstream. *)
Lemma den_core d d' up :
  d ≃ d' -> remaining d = remaining d' -> den d up = den d' up.
Proof.
  intros H Hr. unfold den. rewrite Hr. destruct (feed_proper (remaining d') d d' H) as [H1 H2].
  destruct (feed d _) as [i1 d1], (feed d' _) as [i2 d2]; simpl in *; subst.
  rewrite (terminal_proper _ _ H2). case_match; [done|]. f_equal. by apply decode_stream_proper.
Qed.

Lemma den_load d c up :
  remaining d = [] -> terminal d = false -> Z.of_nat (length c) <= max_chunk_bytes (config d) ->
  den d (UChunk c :: up) = den (set_chunk (Some c) 0 d) up.
Proof.
  intros Hr Ht Hc. unfold den at 1. rewrite Hr. cbn [feed app]. rewrite Ht.
  rewrite decode_stream_chunk by done. unfold den. cbn [remaining chunk set_chunk chunk_offset].
  rewrite drop_0.
  destruct (feed_proper c d (set_chunk (Some c) 0 d)) as [H1 H2]; [symmetry; apply core_set_chunk|].
  destruct (feed d c) as [i1 d1], (feed (set_chunk _ _ d) c) as [i2 d2]; simpl in *; subst.
  rewrite (terminal_proper _ _ H2). case_match; [done|]. f_equal. by apply decode_stream_proper.
Qed.

Lemma den_nil d up : remaining d = [] -> terminal d = false -> den d up = decode_stream d up.
Proof. intros Hr Ht. unfold den. rewrite Hr. cbn [feed app]. by rewrite Ht. Qed.

Lemma feed_terminal d l : terminal d = true -> feed d l = ([], d).
Proof. intros H. destruct l; simpl; [done|]. by rewrite H. Qed.

Lemma set_pending_id d : set_pending (pending d) d = d.
Proof. by destruct d. Qed.

Lemma remaining_cons d b rest :
  0 <= chunk_offset d -> remaining d = b :: rest ->
  exists c, chunk d = Some c /\ c !! Z.to_nat (chunk_offset d) = Some b /\
            rest = drop (Z.to_nat (chunk_offset d + 1)) c.
Proof.
  unfold remaining. intros Ho. destruct (chunk d) as [c|]; [|done]. intros Hd. exists c.
  replace (Z.to_nat (chunk_offset d + 1)) with (S (Z.to_nat (chunk_offset d))) by lia.
  assert (c !! Z.to_nat (chunk_offset d) = Some b) as Hb.
  { rewrite <- (Nat.add_0_r (Z.to_nat _)), <- lookup_drop, Hd. done. }
  split_and!; [done|done|]. rewrite (drop_S _ _ _ Hb) in Hd. congruence.
Qed.

Lemma den_byte d b rest up :
  0 <= chunk_offset d -> remaining d = b :: rest -> terminal d = false ->
  let d1 := process_byte b (set_chunk (chunk d) (chunk_offset d + 1) d) in
  den d up = option_list (pending d1) ++
             (if terminal d1 then [] else den (set_pending None d1) up).
Proof.
  intros Ho Hr Ht. cbv zeta.
  set (d0 := set_chunk (chunk d) (chunk_offset d + 1) d).
  set (d1 := process_byte b d0).
  assert (process_byte b d ≃ d1) as Hpb by by apply process_byte_proper.
  destruct (remaining_cons d b rest Ho Hr) as (c & Hc & _ & Hrest).
  unfold den at 1. rewrite Hr. cbn [feed]. rewrite Ht, (pending_proper _ _ Hpb).
  destruct (process_byte_framed b d0) as (_ & [(Hterm & Hch & Hoff)|(Hterm & _ & e & He)]);
    fold d1 in Hterm |- *.
  - rewrite Hterm. change (terminal d0) with (terminal d). rewrite Ht.
    assert (remaining (set_pending None d1) = rest) as Hrem.
    { unfold remaining. cbn [chunk set_pending chunk_offset]. unfold d1. rewrite Hch, Hoff.
      unfold d0. cbn [chunk set_chunk chunk_offset]. by rewrite Hc. }
    unfold den. rewrite Hrem.
    destruct (feed_proper rest (set_pending None (process_byte b d)) (set_pending None d1))
      as [H1 H2]; [by apply set_pending_proper|].
    destruct (pending d1) as [it|] eqn:Hp1.
    + destruct (feed (set_pending None (process_byte b d)) rest) as [i1 e1].
      destruct (feed (set_pending None d1) rest) as [i2 e2]; simpl in *; subst.
      rewrite (terminal_proper _ _ H2). case_match; [done|]. do 2 f_equal.
      by apply decode_stream_proper.
    + assert (process_byte b d = set_pending None (process_byte b d)) as ->.
      { rewrite <- (pending_proper _ _ Hpb) in Hp1. rewrite <- Hp1. by rewrite set_pending_id. }
      destruct (feed (set_pending None (process_byte b d)) rest) as [i1 e1].
      destruct (feed (set_pending None d1) rest) as [i2 e2]; simpl in *; subst.
      rewrite (terminal_proper _ _ H2). case_match; [done|]. f_equal.
      by apply decode_stream_proper.
  - fold d1 in He. rewrite Hterm, He.
    rewrite feed_terminal; cbn [terminal set_pending].
    + by rewrite (terminal_proper _ _ Hpb), Hterm.
    + by rewrite (terminal_proper _ _ Hpb), Hterm.
Qed.

(** What the loop maintains between iterations. *)
Definition loop_inv (d : SseDecoder) : Prop :=
  poll_wf d /\ terminal d = false /\ pending d = None.

Lemma den_all_live d up : terminal d = false -> pending d = None -> den_all d up = den d up.
Proof.
  intros Ht Hp. unfold den_all. rewrite Ht, Hp. simpl. rewrite <- Hp at 1. by rewrite set_pending_id.
Qed.

Lemma weight_live d up :
  terminal d = false -> pending d = None ->
  weight d up = (2 + length (remaining d)
    + list_sum (map (fun p => match p with UChunk c => S (length c) | _ => 1 end) up))%nat.
Proof. intros Ht Hp. unfold weight. rewrite Ht, Hp. lia. Qed.

(** A state reached by consuming strictly less than [n] of the work. *)
Lemma poll_post_step d up d1 up1 (P Q : Prop) out :
  den_all d up = den_all d1 up1 -> (weight d1 up1 < weight d up)%nat ->
  poll_post d1 up1 P out -> poll_post d up Q out.
Proof.
  intros Hd Hw. unfold poll_post. destruct out as [[d' up'] [[[it|]|]|]]; rewrite ?Hd; try done.
  - intros (? & ? & ?). split_and!; [done|lia|done].
  - intros (? & ? & _ & ?). split_and!; [done|lia|intros _; lia|done].
Qed.

(** A failure empties the work and leaves one error to yield. *)
Lemma poll_post_fail d up up' e strict :
  loop_inv d -> den d up = [Err e] ->
  let '(d', it) := take_pending (fail e d) in
  poll_post d up strict (d', up', Some (Ready it)).
Proof.
  intros ((Hwf & Ho) & Ht & Hp) Hd. simpl.
  rewrite den_all_live, Hd by done. unfold den_all, weight, poll_wf. simpl.
  rewrite Ht, Hp. split_and!; try done; lia.
Qed.

Lemma process_byte_live b d c :
  loop_inv d -> chunk d = Some c -> c !! Z.to_nat (chunk_offset d) = Some b ->
  let d1 := process_byte b (set_chunk (chunk d) (chunk_offset d + 1) d) in
  poll_wf d1 /\
  (terminal d1 = true -> exists e, pending d1 = Some (Err e)) /\
  (terminal d1 = false -> chunk d1 = chunk d /\ chunk_offset d1 = chunk_offset d + 1 /\
     S (length (remaining d1)) = length (remaining d)).
Proof.
  intros ((Hwf & Ho) & Ht & Hp) Hc Hb. cbv zeta. destruct (Ho Ht) as [Hpos _].
  remember (set_chunk (chunk d) (chunk_offset d + 1) d) as d0 eqn:Ed0.
  assert (config d0 = config d /\ chunk d0 = Some c /\ chunk_offset d0 = chunk_offset d + 1 /\
          terminal d0 = false) as (E1 & E2 & E3 & E4) by (by subst d0).
  apply lookup_lt_Some in Hb.
  destruct (process_byte_framed b d0) as (Hcfg & [(Hterm & Hch & Hoff)|(Hterm & Hch & e & He)]).
  - unfold poll_wf, remaining. rewrite Hcfg, Hch, Hoff, Hterm, E1, E2, E3, E4, Hc.
    rewrite !length_drop. split_and!; try done; [intros _; split; [lia|done]|].
    intros _. split_and!; [done|done|lia].
  - unfold poll_wf. rewrite Hcfg, E1, Hterm. split_and!; try done. eauto.
Qed.

Lemma remaining_lookup d c b :
  chunk d = Some c -> c !! Z.to_nat (chunk_offset d) = Some b ->
  remaining d = b :: drop (S (Z.to_nat (chunk_offset d))) c.
Proof. intros Hc Hb. unfold remaining. rewrite Hc. by apply drop_S. Qed.

Lemma den_all_chunk_none d up :
  loop_inv d -> remaining d = [] ->
  den_all d up = den_all (set_chunk None 0 d) up /\
  weight (set_chunk None 0 d) up = weight d up /\ loop_inv (set_chunk None 0 d).
Proof.
  intros ((Hwf & Ho) & Ht & Hp) Hr. split_and!.
  - rewrite !den_all_live by done. by apply den_core.
  - rewrite !weight_live by done. by rewrite Hr.
  - split_and!; done.
Qed.

Definition up_measure (up : list upstream_poll) : nat :=
  list_sum (map (fun p => match p with UChunk c => S (S (length c)) | _ => 1%nat end) up).

Lemma up_measure_cons p up :
  up_measure (p :: up) =
  (match p with UChunk c => S (S (length c)) | _ => 1 end + up_measure up)%nat.
Proof. done. Qed.
Lemma poll_measure_eq d up :
  poll_measure d up =
  (match chunk d with Some c => S (length c - Z.to_nat (chunk_offset d)) | None => 0 end
   + up_measure up + 1)%nat.
Proof. done. Qed.

Lemma finish_eof_facts d :
  config (finish_eof d) = config d /\ terminal (finish_eof d) = true.
Proof.
  unfold finish_eof. split; [|done].
  destruct (line d) eqn:Hl; [|pose proof (proj1 (finish_line_framed d))]; repeat case_match; done.
Qed.

Lemma poll_post_eof d strict :
  loop_inv d -> remaining d = [] ->
  let '(d', it) := take_pending (finish_eof d) in
  poll_post d [] strict (d', [], Some (Ready it)).
Proof.
  intros ((Hwf & _) & Ht & Hp) Hr. cbn [take_pending].
  destruct (finish_eof_facts d) as [Hc Hterm].
  assert (den_all d [] = option_list (pending (finish_eof d))) as Hden.
  { rewrite den_all_live, den_nil by done. done. }
  assert (den_all (set_pending None (finish_eof d)) [] = []) as Hnil.
  { unfold den_all. cbn [pending set_pending terminal]. by rewrite Hterm. }
  unfold poll_post. rewrite Hden. destruct (pending (finish_eof d)) as [it|]; simpl.
  - rewrite Hnil, (weight_live d), Hr by done. split_and!; [done| |].
    + unfold weight. cbn [pending set_pending terminal]. rewrite Hterm. simpl. lia.
    + split; cbn [config set_pending terminal]; [by rewrite Hc|by rewrite Hterm].
  - by rewrite Hnil.
Qed.

Lemma refill_post fuel bp cp d up :
  (forall cp d up, loop_inv d -> (poll_measure d up <= fuel)%nat ->
     poll_post d up (bp = 0 /\ cp = 0) (poll_loop fuel bp cp d up)) ->
  loop_inv d -> chunk d = None -> (up_measure up <= fuel)%nat ->
  poll_post d up (bp = 0 /\ cp = 0) (refill (poll_loop fuel bp) cp d up).
Proof.
  intros IH Hinv Hc Hfuel. pose proof Hinv as ((Hwf & Ho) & Ht & Hp).
  destruct (Ho Ht) as [Hpos Hnone]. specialize (Hnone Hc).
  pose proof Hwf as (_ & _ & Hmc & Hmb & Hmcp & _).
  assert (remaining d = []) as Hrem by (unfold remaining; by rewrite Hc).
  unfold refill. destruct (Z.leb_spec (max_chunks_per_poll (config d)) cp) as [Hcp|Hcp].
  { split_and!; [done|done|lia|apply Hinv]. }
  destruct up as [|[[|b c]|e|] up]; rewrite ?up_measure_cons in Hfuel; cbn [length] in Hfuel.
  - by apply poll_post_eof.
  - eapply (poll_post_step _ _ d up); [| |apply IH; [done|]].
    + rewrite !den_all_live, !den_nil by done.
      rewrite decode_stream_chunk by (simpl; lia). cbn [feed app]. by rewrite Ht.
    + rewrite !weight_live by done. simpl. lia.
    + rewrite poll_measure_eq, Hc. lia.
  - destruct (Z.ltb_spec (max_chunk_bytes (config d)) (Z.of_nat (length (b :: c)))) as [Hbig|Hok].
    + apply (poll_post_fail d); [done|].
      rewrite den_nil by done. cbn [decode_stream]. by rewrite (proj2 (Z.ltb_lt _ _)).
    + rewrite Hnone. eapply (poll_post_step _ _ (set_chunk (Some (b :: c)) 0 d) up); [| |apply IH].
      * rewrite !den_all_live by done. by apply den_load.
      * rewrite !weight_live, Hrem by done. unfold remaining. simpl. lia.
      * split_and!; done.
      * rewrite poll_measure_eq. simpl. lia.
  - apply (poll_post_fail d); [done|]. by rewrite den_nil.
  - unfold poll_post. rewrite !den_all_live, !den_nil, !weight_live by done. simpl.
    split_and!; [done|lia|lia|apply Hinv].
Qed.

Lemma poll_loop_post fuel : forall bp cp d up,
  loop_inv d -> (poll_measure d up <= fuel)%nat ->
  poll_post d up (bp = 0 /\ cp = 0) (poll_loop fuel bp cp d up).
Proof.
  induction fuel as [|fuel IH]; intros bp cp d up Hinv Hfuel.
  { unfold poll_measure in Hfuel. lia. }
  pose proof Hinv as ((Hwf & Ho) & Ht & Hp). destruct (Ho Ht) as [Hpos Hnone].
  pose proof Hwf as (_ & _ & Hmc & Hmb & Hmcp & _).
  rewrite poll_measure_eq in Hfuel. cbn [poll_loop].
  destruct (chunk d) as [c|] eqn:Hc; [|apply refill_post; auto; lia].
  destruct (c !! Z.to_nat (chunk_offset d)) as [b|] eqn:Hb.
  - destruct (Z.leb_spec (max_bytes_per_poll (config d)) bp) as [Hbp|Hbp].
    { split_and!; [done|done|lia|apply Hinv]. }
    rewrite <- Hc.
    destruct (process_byte_live b d c Hinv Hc Hb) as (Hwf1 & Hterm1 & Hlive1).
    pose proof (den_byte d b _ up Hpos (remaining_lookup d c b Hc Hb) Ht) as Hden.
    cbv zeta in Hden.
    remember (process_byte b (set_chunk (chunk d) (chunk_offset d + 1) d)) as d1 eqn:Ed1.
    destruct (terminal d1) eqn:Ht1.
    + destruct (Hterm1 eq_refl) as [e He]. rewrite He in Hden |- *.
      unfold poll_post. rewrite (den_all_live d), Hden, (weight_live d) by done.
      unfold den_all, weight. cbn [pending set_pending terminal]. rewrite Ht1.
      split_and!; [done|simpl; lia|]. destruct Hwf1. split; cbn; [done|by rewrite Ht1].
    + destruct (Hlive1 eq_refl) as (Hc1 & Ho1 & Hr1).
      assert (den_all (set_pending None d1) up = den (set_pending None d1) up) as Hlive
        by by apply den_all_live.
      assert ((weight (set_pending None d1) up < weight d up)%nat) as Hw.
      { rewrite (weight_live (set_pending None d1)), (weight_live d) by done.
        change (remaining (set_pending None d1)) with (remaining d1). lia. }
      destruct (pending d1) as [it|] eqn:Hp1.
      * unfold poll_post. rewrite Hlive, (den_all_live d), Hden by done. split_and!; done.
      * rewrite <- (set_pending_id d1), Hp1.
        eapply (poll_post_step _ _ (set_pending None d1) up); [|done|apply IH].
        -- rewrite Hlive, (den_all_live d), Hden by done. done.
        -- split_and!; done.
        -- rewrite poll_measure_eq. cbn [chunk set_pending chunk_offset]. rewrite Hc1, Ho1, Hc.
           apply lookup_lt_Some in Hb. lia.
  - apply lookup_ge_None in Hb.
    assert (remaining d = []) as Hrem by (unfold remaining; rewrite Hc; by apply drop_ge).
    destruct (den_all_chunk_none d up Hinv Hrem) as (Hd & Hw & Hinv').
    assert (poll_post (set_chunk None 0 d) up (bp = 0 /\ cp = 0)
              (refill (poll_loop fuel bp) cp (set_chunk None 0 d) up)) as Hpost
      by (apply refill_post; [auto|done|done|lia]).
    revert Hpost. unfold poll_post. rewrite Hd, Hw. done.
Qed.

Lemma poll_next_post d up :
  poll_wf d -> poll_post d up True (poll_next d up).
Proof.
  intros Hwf. unfold poll_next. destruct (pending d) as [it|] eqn:Hp.
  - unfold poll_post, den_all, weight. cbn [pending set_pending terminal]. rewrite Hp.
    split_and!; [done| |exact Hwf]. unfold remaining. simpl. destruct (terminal d); lia.
  - destruct (terminal d) eqn:Ht.
    + unfold poll_post, den_all. rewrite Hp, Ht. done.
    + assert (loop_inv d) as Hinv by done.
      pose proof (poll_loop_post (poll_measure d up) 0 0 d up Hinv ltac:(lia)) as Hpost.
      revert Hpost. unfold poll_post. repeat case_match; naive_solver.
Qed.

(** ** Polling to the end *)
Fixpoint drain (fuel : nat) (d : SseDecoder) (up : list upstream_poll) : option (list item) :=
  match fuel with
  | O => None
  | S fuel =>
      match poll_next d up with
      | (d', up', Some (Ready (Some it))) => its ← drain fuel d' up'; Some (it :: its)
      | (_, _, Some (Ready None)) => Some []
      | (d', up', Some Pending) => drain fuel d' up'
      | (_, _, None) => None
      end
  end.

Lemma drain_den fuel d up :
  poll_wf d -> (weight d up < fuel)%nat -> drain fuel d up = Some (den_all d up).
Proof.
  revert d up. induction fuel as [|fuel IH]; intros d up Hwf Hfuel; [lia|]. simpl.
  pose proof (poll_next_post d up Hwf) as Hpost. unfold poll_post in Hpost.
  destruct (poll_next d up) as [[d' up'] [[[it|]|]|]]; [..|done].
  - destruct Hpost as (-> & Hw & Hwf'). rewrite IH by (done || lia). done.
  - destruct Hpost as (-> & _). done.
  - destruct Hpost as (-> & _ & Hw & Hwf'). apply IH; [done|]. specialize (Hw I). lia.
Qed.

(** Polling an SSE decoder to the end returns, for every upstream and
    every positive poll budget, exactly the one-pass denotation of the
    response; in particular the polling loop always makes progress and ends. *)
Theorem drain_spec cfg up :
  config_wf cfg ->
  exists fuel, drain fuel (with_config cfg) up = Some (decode_stream (with_config cfg) up).
Proof.
  intros Hwf. exists (S (weight (with_config cfg) up)).
  rewrite drain_den; [|by split|lia]. by rewrite den_all_live, den_nil.
Qed.

Definition text_chunk (s : string) : upstream_poll := UChunk (bytes_of s).
Definition LF : ascii := "010".
Definition sample_response : list upstream_poll :=
  [text_chunk "data: h"; UPending; text_chunk ("i" +:+ str_of [LF]);
   text_chunk (str_of [LF])].

Lemma drain_spec_witness :
  exists fuel, drain fuel (with_config sse_config_default) sample_response
               = Some [Ok (mk_sse_event "hi" None None None)].
Proof.
  destruct (drain_spec sse_config_default sample_response) as [fuel Hf].
  - repeat split; try (vm_compute; discriminate). intros f [= <-]. lia.
  - exists fuel. rewrite Hf. vm_compute. reflexivity.
Defined.

(** ** Chunk boundaries do not matter *)
Fixpoint up_bytes (up : list upstream_poll) : list ascii :=
  match up with
  | [] => []
  | UChunk c :: up => c ++ up_bytes up
  | _ :: up => up_bytes up
  end.

(** No chunk exceeds the chunk limit and the transport does not fail. *)
Definition well_sized (cfg : SseConfig) (up : list upstream_poll) : Prop :=
  Forall (fun p => match p with
                   | UChunk c => Z.of_nat (length c) <= max_chunk_bytes cfg
                   | UError _ => False
                   | UPending => True
                   end) up.

Definition decode_bytes (d : SseDecoder) (l : list ascii) : list item :=
  let '(its, d') := feed d l in
  its ++ (if terminal d' then [] else option_list (pending (finish_eof d'))).

Lemma decode_stream_bytes d up :
  terminal d = false -> well_sized (config d) up ->
  decode_stream d up = decode_bytes d (up_bytes up).
Proof.
  revert d. induction up as [|[c|e|] up IH]; intros d Ht Hup; inversion_clear Hup as [|? ? Hc Hup'].
  - unfold decode_bytes. cbn [up_bytes feed decode_stream app]. by rewrite Ht.
  - rewrite decode_stream_chunk by done. unfold decode_bytes. cbn [up_bytes].
    rewrite feed_app. pose proof (feed_config d c) as Hcfg.
    destruct (feed d c) as [i1 d1]. simpl in Hcfg. destruct (terminal d1) eqn:Ht1.
    + rewrite feed_terminal by done. rewrite Ht1. by rewrite !app_nil_r.
    + rewrite IH by (done || by rewrite Hcfg). unfold decode_bytes.
      destruct (feed d1 (up_bytes up)). by rewrite app_assoc.
  - done.
  - cbn [decode_stream up_bytes]. by apply IH.
Qed.


