(* ===== verification/SseBounds.v ===== *)
(** * Resource bounds of the SSE decoder

    The states a decoder can be in ([reachable], a step relation over the
    methods of [SseDecoder]) and the invariant that its buffers never exceed
    the configured limits; polling stays inside that relation. *)
From S2P Require Import Prelude Errors Sse SseStream.

Inductive reachable (cfg : SseConfig) : SseDecoder -> Prop :=
| reach_init : reachable cfg (with_config cfg)
| reach_byte d b : reachable cfg d -> terminal d = false -> pending d = None ->
    reachable cfg (process_byte b d)
| reach_take d : reachable cfg d -> reachable cfg (set_pending None d)
| reach_chunk d c o : reachable cfg d -> terminal d = false -> reachable cfg (set_chunk c o d)
| reach_fail d e : reachable cfg d -> pending d = None -> reachable cfg (fail e d)
| reach_eof d : reachable cfg d -> terminal d = false -> pending d = None -> chunk d = None ->
    reachable cfg (finish_eof d).

Create HintDb sse.
#[export] Hint Constructors reachable : sse.

(** Bytes held in the line buffer and in the pending data lines. *)
Definition buffered (d : SseDecoder) : Z :=
  Z.of_nat (length (line d)) + foldr (fun s acc => str_len s + acc) 0 (data_lines d).

Definition field_limit_ok (d : SseDecoder) : Prop :=
  forall limit, max_fields_per_event (config d) = Some limit -> field_count d <= limit.

(** The counters of a decoder account for everything it holds. *)
Definition accounted (cfg : SseConfig) (d : SseDecoder) : Prop :=
  buffered d <= event_bytes d <= max_event_bytes cfg /\
  field_count d + Z.of_nat (length (line d)) <= event_bytes d /\
  0 <= field_count d /\ field_limit_ok d /\
  Z.of_nat (length (data_lines d)) <= field_count d.

(** A live decoder is within every limit; a stopped one holds nothing. *)
Definition bounded (cfg : SseConfig) (d : SseDecoder) : Prop :=
  config d = cfg /\
  ((terminal d = true /\ line d = [] /\ data_lines d = []) \/
   (accounted cfg d /\ Z.of_nat (length (line d)) <= max_line_bytes cfg)).

(** The counters of a realistic configuration do not saturate. *)
Definition limits_fit (cfg : SseConfig) : Prop :=
  0 <= max_event_bytes cfg < USIZE_MAX /\ 0 <= max_line_bytes cfg /\
  (forall limit, max_fields_per_event cfg = Some limit -> 0 <= limit < USIZE_MAX).

Lemma data_len_app l s :
  foldr (fun s acc => str_len s + acc) 0 (l ++ [s])
  = foldr (fun s acc => str_len s + acc) 0 l + str_len s.
Proof. induction l as [|x l IH]; simpl; [lia|]. rewrite IH. lia. Qed.

Lemma split_once_len c s l r :
  split_once c s = Some (l, r) -> str_len l + str_len r + 1 = str_len s.
Proof.
  revert l r. induction s as [|b s IH]; intros l r; simpl; [done|].
  destruct (Ascii.eqb b c).
  - intros [= <- <-]. unfold str_len. simpl. lia.
  - destruct (split_once c s) as [[l' r']|]; [|done]. intros [= <- <-].
    specialize (IH _ _ eq_refl). unfold str_len in *. simpl. lia.
Qed.

Lemma split_field_len s f v : split_field s = (f, v) -> str_len v <= str_len s.
Proof.
  unfold split_field. destruct (split_once ":" s) as [[l r]|] eqn:Hs; simpl; intros [= <- <-].
  - apply split_once_len in Hs. pose proof (str_len_nonneg l).
    unfold strip_char. destruct r as [|b r]; simpl; [lia|].
    destruct (Ascii.eqb b " "); unfold str_len in *; simpl in *; lia.
  - pose proof (str_len_nonneg s). unfold str_len in *. simpl. lia.
Qed.

Lemma str_of_len l : str_len (str_of l) = Z.of_nat (length l).
Proof.
  unfold str_len, str_of. induction l as [|b l IH]; simpl; [done|]. lia.
Qed.

Lemma fail_bounded cfg e d : config d = cfg -> bounded cfg (fail e d).
Proof. intros H. split; [done|]. left. done. Qed.

Lemma dispatch_bounded cfg d :
  limits_fit cfg -> config d = cfg -> line d = [] -> bounded cfg (dispatch_event d).
Proof.
  intros (He & Hl & Hf) <- Hline. split; [done|]. right.
  unfold accounted, buffered, field_limit_ok. cbn. rewrite Hline. simpl.
  split_and!; try lia. intros limit Hlim. specialize (Hf _ Hlim). lia.
Qed.

(** [n] bytes of the finished line are still unspent in the counters. *)
Lemma apply_field_bounded cfg f v n d :
  config d = cfg -> line d = [] -> str_len v <= n ->
  buffered d + n <= event_bytes d <= max_event_bytes cfg -> 0 <= max_line_bytes cfg ->
  field_count d <= event_bytes d -> 0 <= field_count d -> field_limit_ok d ->
  Z.of_nat (length (data_lines d)) + 1 <= field_count d ->
  bounded cfg (apply_field f v d).
Proof.
  intros <- Hline Hv Hb Hm Hfe Hf Hl Hd. pose proof (str_len_nonneg v).
  assert (bounded (config d) d) as Hid.
  { split; [done|]. right. unfold accounted. rewrite Hline. simpl. split_and!; try done; lia. }
  unfold apply_field. repeat case_match; try exact Hid.
  split; [done|]. right. unfold accounted, buffered, field_limit_ok in *. cbn. rewrite Hline in *.
  rewrite data_len_app, length_app. simpl in *. split_and!; try done; lia.
Qed.

Lemma finish_line_bounded cfg d :
  limits_fit cfg -> config d = cfg -> accounted cfg d -> bounded cfg (finish_line d).
Proof.
  intros Hfit Hcfg (Hb & Hfe & Hf & Hl & Hd). pose proof Hfit as (He & Hml & Hfl).
  unfold finish_line. destruct (line d) as [|b l] eqn:Hline; [by apply dispatch_bounded|].
  destruct (negb _); [by apply fail_bounded|].
  unfold buffered in Hb. rewrite Hline in *.
  remember (length (b :: l)) as n eqn:Hn. assert (1 <= Z.of_nat n) by (subst n; simpl; lia).
  destruct (Ascii.eqb b ":").
  { split; [done|]. right. unfold accounted, buffered, field_limit_ok in *. cbn.
    split_and!; try done; lia. }
  destruct (split_field (str_of (b :: l))) as [f v] eqn:Hs.
  apply split_field_len in Hs. rewrite str_of_len, <- Hn in Hs.
  assert (usize_saturating_add (field_count d) 1 = field_count d + 1) as Hsat
    by (unfold usize_saturating_add; lia).
  cbn [config set_field_count field_count]. rewrite Hsat.
  destruct (max_fields_per_event (config d)) as [limit|] eqn:Hlim.
  - destruct (Z.ltb_spec limit (field_count d + 1)) as [|Hle]; [by apply fail_bounded|].
    apply (apply_field_bounded cfg f v (Z.of_nat n)); unfold buffered, field_limit_ok;
      cbn; try done; try lia.
    intros x Hx. rewrite Hlim in Hx. simplify_eq. lia.
  - apply (apply_field_bounded cfg f v (Z.of_nat n)); unfold buffered, field_limit_ok;
      cbn; rewrite ?Hlim; try done; lia.
Qed.

Lemma set_saw_cr_bounded cfg v d : bounded cfg d -> bounded cfg (set_saw_cr v d).
Proof. done. Qed.

Lemma consume_byte_bounded cfg b d :
  limits_fit cfg -> terminal d = false -> bounded cfg d -> bounded cfg (consume_byte b d).
Proof.
  intros Hfit Ht (Hcfg & [(? & _)|((Hb & Hfe & Hf & Hl & Hd) & Hline)]); [congruence|].
  pose proof Hfit as (He & Hml & Hfl). unfold consume_byte.
  assert (usize_saturating_add (event_bytes d) 1 = event_bytes d + 1) as Hsat
    by (unfold usize_saturating_add; lia).
  set (d1 := set_event_bytes (usize_saturating_add (event_bytes d) 1) d).
  destruct (Z.ltb_spec (max_event_bytes (config d1)) (event_bytes d1)) as [|Hle];
    [by apply fail_bounded|].
  assert (config d1 = cfg) as Hcfg1 by done.
  rewrite Hcfg1 in Hle. unfold d1 in Hle; cbn in Hle. rewrite Hsat in Hle.
  assert (accounted cfg d1) as Hacc.
  { unfold accounted, buffered, field_limit_ok, d1 in *. cbn. rewrite Hsat.
    split_and!; try done; lia. }
  destruct (Ascii.eqb b "013"); [by apply set_saw_cr_bounded, finish_line_bounded|].
  destruct (Ascii.eqb b "010"); [by apply finish_line_bounded|].
  destruct (Z.ltb_spec (max_line_bytes (config (set_line (line d1 ++ [b]) d1)))
              (Z.of_nat (length (line (set_line (line d1 ++ [b]) d1))))) as [|Hll];
    [by apply fail_bounded|].
  split; [done|]. right. cbn in Hll. rewrite Hcfg in Hll.
  split; [|done]. unfold accounted, buffered, field_limit_ok, d1 in *. cbn in *.
  rewrite Hsat, length_app. simpl. split_and!; try done; lia.
Qed.

Lemma process_byte_bounded cfg b d :
  limits_fit cfg -> terminal d = false -> bounded cfg d -> bounded cfg (process_byte b d).
Proof.
  intros Hfit Ht Hb. unfold process_byte.
  destruct (saw_cr d); [|by apply consume_byte_bounded].
  destruct (Ascii.eqb b "010"); [done|]. by apply consume_byte_bounded.
Qed.

Lemma finish_eof_bounded cfg d :
  limits_fit cfg -> terminal d = false -> bounded cfg d -> bounded cfg (finish_eof d).
Proof.
  intros Hfit Ht Hb. unfold finish_eof.
  assert (bounded cfg match line d with [] => d | _ => finish_line d end /\
          (terminal match line d with [] => d | _ => finish_line d end = false ->
           line match line d with [] => d | _ => finish_line d end = [])) as [H1 H2].
  { destruct (line d) as [|b l] eqn:Hl; [done|]. split.
    - destruct Hb as (Hc & [(? & _)|(Ha & _)]); [congruence|]. by apply finish_line_bounded.
    - unfold finish_line, apply_field. rewrite Hl. destruct (split_field _).
      repeat case_match; done. }
  set (e := match line d with [] => d | _ => finish_line d end) in *.
  assert (bounded cfg match pending e with
            | Some _ => e | None => if terminal e then e else dispatch_event e end) as (Hc & Hor).
  { destruct (pending e); [done|]. destruct (terminal e) eqn:Hte; [done|].
    apply dispatch_bounded; [done|apply H1|by apply H2]. }
  split; [done|]. destruct Hor as [(? & ? & ?)|(Ha & Hl)]; [by left|by right].
Qed.

Lemma reachable_bounded cfg d : limits_fit cfg -> reachable cfg d -> bounded cfg d.
Proof.
  intros Hfit. induction 1 as [|d b Hr IH Ht Hp|d Hr IH|d c o Hr IH|d e Hr IH Hp|d Hr IH Ht Hp Hk];
    [|by apply process_byte_bounded|exact IH|exact IH|apply fail_bounded, IH
     |by apply finish_eof_bounded].
  split; [done|]. right. pose proof Hfit as (? & ? & Hf).
  unfold accounted, buffered, field_limit_ok. simpl. split_and!; try lia.
  intros limit Hlim. specialize (Hf _ Hlim). lia.
Qed.

(** ** After the end *)

(** A stopped decoder holds nothing, and a failure stops it. *)
Definition stopped (d : SseDecoder) : Prop :=
  (terminal d = true -> line d = [] /\ data_lines d = [] /\ chunk d = None) /\
  (forall e, pending d = Some (Err e) -> terminal d = true).
Lemma live_stopped d : terminal d = false -> (forall e, pending d <> Some (Err e)) -> stopped d.
Proof. intros Ht Hp. split; [congruence|]. intros e He. by apply Hp in He. Qed.
Lemma fail_stopped e d : stopped (fail e d).
Proof. by split. Qed.
Lemma finish_line_stopped d : terminal d = false -> pending d = None -> stopped (finish_line d).
Proof.
  intros Ht Hp. unfold finish_line, apply_field.
  repeat (case_match; try by apply fail_stopped); apply live_stopped; cbn; try done; try congruence.
  all: intros e; try (destruct (has_data d)); congruence.
Qed.
Lemma process_byte_stopped b d : terminal d = false -> pending d = None -> stopped (process_byte b d).
Proof.
  intros Ht Hp.
  assert (forall d, terminal d = false -> pending d = None -> stopped (consume_byte b d)) as H.
  { clear. intros d Ht Hp. unfold consume_byte. repeat (case_match; try by apply fail_stopped);
      try by apply (finish_line_stopped (set_event_bytes _ d)).
    apply live_stopped; cbn; [done|]. intros e. congruence. }
  unfold process_byte. destruct (saw_cr d); [|by apply H]. destruct (Ascii.eqb _ _); [|by apply H].
  apply live_stopped; cbn; [done|]. intros e. congruence.
Qed.
Lemma finish_eof_stopped d : terminal d = false -> pending d = None -> chunk d = None -> stopped (finish_eof d).
Proof.
  intros Ht Hp Hc. unfold finish_eof. split; [intros _|done].
  set (e := match line d with [] => d | _ => finish_line d end).
  assert (stopped e /\ chunk e = None /\ line e = [] /\ (forall x, pending e = Some x -> terminal e = true)) as (Hs & Hk & Hl & Hx).
  { subst e. destruct (line d) as [|b l] eqn:El; [split_and!; try done; [by apply live_stopped; [|intros; congruence]|intros; congruence]|].
    split_and!; [by apply finish_line_stopped| | |]; unfold finish_line, apply_field; rewrite El; repeat case_match; cbn; try done; congruence. }
  destruct (pending e) eqn:Ep.
  - destruct (proj1 Hs (Hx _ eq_refl)) as (? & ? & ?). by split_and!.
  - destruct (terminal e) eqn:Et; [by destruct (proj1 Hs Et) as (? & ? & ?); split_and!|]. by split_and!.
Qed.
Lemma reachable_stopped cfg d : reachable cfg d -> stopped d.
Proof.
  induction 1 as [|d b Hr IH Ht Hp|d Hr [IH _]|d c o Hr [IH IH'] Ht|d e Hr IH Hp|d Hr IH Ht Hp Hk];
    [by apply live_stopped|by apply process_byte_stopped|by split| |apply fail_stopped|by apply finish_eof_stopped].
  split; [cbn; congruence|exact IH'].
Qed.

(** A poll that answers an error has stopped the decoder. *)
Definition error_stops (answer : poll_answer) : Prop :=
  forall e, answer.2 = Some (Ready (Some (Err e))) -> terminal answer.1.1 = true.
Lemma refill_error_stops k cp d up :
  (forall cp d up, terminal d = false -> pending d = None -> error_stops (k cp d up)) ->
  terminal d = false -> pending d = None -> error_stops (refill k cp d up).
Proof.
  intros Hk Ht Hp. unfold refill, error_stops. destruct (_ <=? _); [done|].
  destruct up as [|[[|b c]|x|] up]; cbn; try done.
  - apply Hk; auto.
  - destruct (_ <? _); cbn; [done|]. apply Hk; auto.
Qed.
Lemma poll_loop_error_stops fuel bp cp d up :
  terminal d = false -> pending d = None -> error_stops (poll_loop fuel bp cp d up).
Proof.
  revert bp cp d up. induction fuel as [|fuel IH]; intros bp cp d up Ht Hp; [done|].
  cbn [poll_loop]. destruct (chunk d) as [c|] eqn:Hc; [|apply refill_error_stops; auto].
  destruct (c !! _) as [b|]; [|apply refill_error_stops; auto].
  destruct (_ <=? _); [done|].
  destruct (process_byte_stopped b (set_chunk (Some c) (chunk_offset d + 1) d) Ht Hp) as [_ Hs].
  destruct (pending (process_byte _ _)) eqn:Hp1; [intros e [= ->]; by apply (Hs e)|].
  destruct (terminal (process_byte _ _)) eqn:Ht1; [done|]. by apply IH.
Qed.
Lemma poll_next_error_stops cfg d up : reachable cfg d -> error_stops (poll_next d up).
Proof.
  intros [_ Hs]%reachable_stopped. unfold poll_next. destruct (pending d) eqn:Hp; [intros e [= ->]; by apply (Hs e)|].
  destruct (terminal d) eqn:Ht; [done|]. by apply poll_loop_error_stops.
Qed.

(** C40. In every state a decoder can reach, the bytes it retains for the event
    being assembled (line buffer and data lines together) never exceed
    [max_event_bytes], the line buffer never exceeds [max_line_bytes], and the
    data lines never exceed the field limit. A poll that answers an error leaves
    the decoder stopped, and a stopped decoder retains no line, no data lines and
    no chunk. *)
Theorem decoder_memory_bounded cfg d :
  limits_fit cfg -> reachable cfg d ->
  buffered d <= max_event_bytes cfg /\
  Z.of_nat (length (line d)) <= max_line_bytes cfg /\
  (forall limit, max_fields_per_event cfg = Some limit ->
     Z.of_nat (length (data_lines d)) <= limit) /\
  (forall up d' up' e, poll_next d up = (d', up', Some (Ready (Some (Err e)))) -> terminal d' = true) /\
  (terminal d = true -> line d = [] /\ data_lines d = [] /\ chunk d = None).
Proof.
  intros Hfit Hr. destruct (reachable_bounded cfg d Hfit Hr) as (Hc & Hor).
  pose proof (reachable_stopped cfg d Hr) as [Hstop _].
  assert (forall up d' up' e, poll_next d up = (d', up', Some (Ready (Some (Err e)))) -> terminal d' = true) as Herr
    by (intros up d' up' e E; pose proof (poll_next_error_stops cfg d up Hr e) as H; rewrite E in H; by apply H).
  destruct Hfit as (He & Hl & Hf).
  destruct Hor as [(_ & Hline & Hdata)|((Hb & _ & _ & Hlim & Hd) & Hline)].
  - unfold buffered. rewrite Hline, Hdata in *. simpl. split_and!; try lia; try done.
    intros limit H. specialize (Hf _ H). lia.
  - split_and!; [lia|done| |done|done]. intros limit H. unfold field_limit_ok in Hlim.
    rewrite Hc in Hlim. specialize (Hlim _ H). lia.
Qed.

Definition tiny_config : SseConfig := mk_sse_config 16 8 (Some 2) 64 4 2 4.
Definition tiny_state : SseDecoder :=
  process_byte ":" (process_byte "d" (with_config tiny_config)).

(** ** Polling stays inside the relation *)
Lemma reachable_config cfg d : reachable cfg d -> config d = cfg.
Proof.
  induction 1 as [|d b Hr IH|d Hr IH|d c o Hr IH|d e Hr IH|d Hr IH]; try exact IH; [done|..].
  - by rewrite process_byte_config.
  - by rewrite (proj1 (finish_eof_facts d)).
Qed.

Lemma refill_reachable cfg k cp d up :
  (forall cp d up, reachable cfg d -> terminal d = false -> pending d = None ->
     reachable cfg (k cp d up).1.1) ->
  reachable cfg d -> terminal d = false -> pending d = None -> chunk d = None ->
  reachable cfg (refill k cp d up).1.1.
Proof.
  intros Hk Hr Ht Hp Hn. unfold refill.
  destruct (_ <=? _); [done|]. destruct up as [|[[|b c]|e|] up]; simpl; eauto with sse.
  destruct (_ <? _); simpl; eauto with sse.
Qed.

Lemma poll_loop_reachable cfg fuel bp cp d up :
  reachable cfg d -> terminal d = false -> pending d = None ->
  reachable cfg (poll_loop fuel bp cp d up).1.1.
Proof.
  revert bp cp d up. induction fuel as [|fuel IH]; intros bp cp d up Hr Ht Hp; [done|].
  cbn [poll_loop]. destruct (chunk d) as [c|] eqn:Hc; [|apply refill_reachable; auto].
  destruct (c !! _) as [b|]; [|apply refill_reachable; eauto with sse].
  destruct (_ <=? _); [done|]. rewrite <- Hc.
  assert (reachable cfg (process_byte b (set_chunk (chunk d) (chunk_offset d + 1) d))) as Hd1
    by auto with sse.
  destruct (pending (process_byte _ _)) eqn:Hp1; simpl; [eauto with sse|].
  destruct (terminal (process_byte _ _)) eqn:Ht1; simpl; [done|]. by apply IH.
Qed.

(** Every poll leaves the decoder in a reachable state, so the memory bound
    holds between polls whatever the upstream does. *)
Theorem poll_next_reachable cfg d up :
  reachable cfg d -> reachable cfg (poll_next d up).1.1.
Proof.
  intros Hr. unfold poll_next. destruct (pending d) eqn:Hp; simpl; [eauto with sse|].
  destruct (terminal d) eqn:Ht; simpl; [done|]. by apply poll_loop_reachable.
Qed.

Lemma poll_next_reachable_witness :
  reachable tiny_config (poll_next (with_config tiny_config) [text_chunk "data: too long a line"]).1.1.
Proof. apply (poll_next_reachable tiny_config). apply reach_init. Defined.

Definition is_err (answer : poll_answer) : bool :=
  match answer with (_, [], Some (Ready (Some (Err _)))) => true | _ => false end.
(** A decoder in the middle of a line, and the same after the transport
    failed. *)
Lemma decoder_memory_bounded_witness :
  line tiny_state = ["d"%char; ":"%char] /\ buffered tiny_state <= 16 /\
  exists d e, poll_next tiny_state [UError LlmError.Cancelled] = (d, [], Some (Ready (Some (Err e)))) /\
    line d = [] /\ data_lines d = [] /\ chunk d = None.
Proof.
  assert (limits_fit tiny_config) as Hfit.
  { unfold limits_fit, USIZE_MAX, U64_MAX. simpl. split_and!; [lia..|]. intros limit [= <-]. lia. }
  assert (reachable tiny_config tiny_state) as Hr
    by (unfold tiny_state; repeat (apply reach_byte; [|reflexivity..]); apply reach_init).
  destruct (decoder_memory_bounded tiny_config tiny_state Hfit Hr) as (Hb & _ & _ & Herr & _).
  split; [reflexivity|]. split; [exact Hb|].
  assert (is_err (poll_next tiny_state [UError LlmError.Cancelled]) = true) as Hx by (vm_compute; reflexivity).
  pose proof (poll_next_reachable tiny_config tiny_state [UError LlmError.Cancelled] Hr) as Hr'.
  destruct (poll_next tiny_state [UError LlmError.Cancelled]) as [[d [|u up]] [[[[ev|e]|]|]|]] eqn:E; try discriminate Hx.
  exists d, e. split; [reflexivity|].
  apply (decoder_memory_bounded tiny_config d Hfit Hr'). exact (Herr _ _ _ _ E).
Defined.
