(* ===== verification/SseFraming.v ===== *)
(** * Framing round trip

    An encoder for SSE frames (the format a provider writes) and the proof that
    the decoder reads back exactly the frames that were written, for each of
    the three line terminators the format allows. *)
From S2P Require Import Prelude Errors Sse SseStream.

(** ** Frames as a server writes them *)
Record frame := mk_frame { fr_type : option string; fr_data : list string }.

Definition CR : ascii := "013".
Inductive eol := EolLf | EolCr | EolCrLf.
Definition eol_bytes (e : eol) : list ascii :=
  match e with EolLf => [LF] | EolCr => [CR] | EolCrLf => [CR; LF] end.

Definition frame_lines (f : frame) : list (list ascii) :=
  match fr_type f with Some t => [bytes_of ("event: " +:+ t)] | None => [] end
  ++ map (fun v => bytes_of ("data: " +:+ v)) (fr_data f).
Definition encode_lines (e : eol) (ls : list (list ascii)) : list ascii :=
  concat (map (fun l => l ++ eol_bytes e) ls).
Definition encode_frame (e : eol) (f : frame) : list ascii :=
  encode_lines e (frame_lines f ++ [[]]).

Definition event_of (f : frame) : SseEvent :=
  mk_sse_event (join (str_of [LF]) (fr_data f)) (fr_type f) None None.

(** Text a frame can carry: valid UTF-8 without line terminators. *)
Definition clean (l : list ascii) : Prop :=
  utf8_valid l = true /\ Forall (fun b => b <> CR /\ b <> LF) l.

Definition lines_size (ls : list (list ascii)) : Z :=
  foldr (fun l acc => Z.of_nat (length l) + 1 + acc) 0 ls.

(** A frame within the limits of [cfg]. *)
Definition frame_fits (cfg : SseConfig) (f : frame) : Prop :=
  fr_data f <> [] /\ Forall clean (frame_lines f) /\
  lines_size (frame_lines f) + 1 <= max_event_bytes cfg /\
  Forall (fun l => Z.of_nat (length l) <= max_line_bytes cfg) (frame_lines f) /\
  (forall limit, max_fields_per_event cfg = Some limit ->
     Z.of_nat (length (frame_lines f)) <= limit).

(** ** One line *)
Abbreviation norm := (set_saw_cr false).

Lemma process_byte_plain b d :
  b <> LF -> process_byte b d = consume_byte b (norm d).
Proof.
  intros Hb. unfold process_byte. apply Ascii.eqb_neq in Hb. unfold LF in Hb.
  destruct (saw_cr d) eqn:Hc.
  - by rewrite Hb.
  - f_equal. rewrite <- Hc. by destruct d.
Qed.

Lemma consume_plain b d :
  b <> CR -> b <> LF -> 0 <= event_bytes d -> event_bytes d + 1 <= max_event_bytes (config d) ->
  max_event_bytes (config d) < USIZE_MAX ->
  Z.of_nat (length (line d)) + 1 <= max_line_bytes (config d) ->
  consume_byte b d = set_line (line d ++ [b]) (set_event_bytes (event_bytes d + 1) d).
Proof.
  intros H1%Ascii.eqb_neq H2%Ascii.eqb_neq H0 He Hu Hl. unfold consume_byte, CR, LF in *.
  assert (usize_saturating_add (event_bytes d) 1 = event_bytes d + 1) as ->
    by (unfold usize_saturating_add; lia).
  cbn [config set_event_bytes event_bytes line].
  rewrite (proj2 (Z.ltb_ge _ _)), H1, H2 by lia. cbn [config set_line line].
  rewrite (proj2 (Z.ltb_ge _ _)); [done|]. cbn. rewrite length_app. simpl. lia.
Qed.

(** The state after the bytes of a line, before its terminator. *)
Definition with_line (l : list ascii) (d : SseDecoder) : SseDecoder :=
  norm (set_line l (set_event_bytes (event_bytes d + Z.of_nat (length l)) d)).

Lemma feed_content l : forall d,
  Forall (fun b => b <> CR /\ b <> LF) l ->
  terminal d = false -> pending d = None -> 0 <= event_bytes d ->
  event_bytes d + Z.of_nat (length l) <= max_event_bytes (config d) < USIZE_MAX ->
  Z.of_nat (length (line d)) + Z.of_nat (length l) <= max_line_bytes (config d) ->
  exists d', feed d l = ([], d') /\ (saw_cr d' = true -> saw_cr d = true) /\
    norm d' = norm (set_line (line d ++ l) (set_event_bytes (event_bytes d + Z.of_nat (length l)) d)).
Proof.
  induction l as [|b l IH]; intros d Hl Ht Hp H0 He Hm.
  - exists d. split_and!; try done. simpl. rewrite app_nil_r, Z.add_0_r. by destruct d.
  - inversion_clear Hl as [|? ? [Hcr Hlf] Hl']. cbn [feed length] in *. rewrite Ht.
    rewrite process_byte_plain by done. rewrite consume_plain; try done; [|cbn; lia..].
    cbn [pending norm set_line set_event_bytes set_saw_cr]. rewrite Hp.
    edestruct (IH (set_line (line d ++ [b]) (set_event_bytes (event_bytes d + 1) (norm d))))
      as (d' & Hf & Hs & Hn); try done; [cbn; lia|cbn; lia|cbn; rewrite length_app; simpl; lia|].
    exists d'. split_and!; [exact Hf| |].
    + intros H. by apply Hs in H.
    + rewrite Hn. cbn [line set_line event_bytes set_event_bytes norm set_saw_cr].
      rewrite <- app_assoc. simpl.
      replace (event_bytes d + 1 + Z.of_nat (length l))
        with (event_bytes d + Z.of_nat (S (length l))) by lia. done.
Qed.

Lemma finish_line_norm v d : finish_line (set_saw_cr v d) = set_saw_cr v (finish_line d).
Proof.
  unfold finish_line. destruct d as [cfg ch off ln dl ty id rt hd cr eb fc no pe te]. cbn.
  destruct ln as [|b l]; [done|]. destruct (split_field _) as [f v']. unfold apply_field.
  repeat case_match; done.
Qed.

(** The decoder after a whole line: [finish_line] on the accumulated bytes. *)
Definition line_result (l : list ascii) (d : SseDecoder) : SseDecoder :=
  finish_line (norm (set_line l (set_event_bytes (event_bytes d + Z.of_nat (length l) + 1) d))).

Lemma consume_eol b d :
  b = CR \/ b = LF -> 0 <= event_bytes d -> event_bytes d + 1 <= max_event_bytes (config d) < USIZE_MAX ->
  consume_byte b d =
  (if Ascii.eqb b CR then set_saw_cr true else fun x => x)
    (finish_line (set_event_bytes (event_bytes d + 1) d)).
Proof.
  intros Hb H0 He. unfold consume_byte.
  assert (usize_saturating_add (event_bytes d) 1 = event_bytes d + 1) as ->
    by (unfold usize_saturating_add; lia).
  cbn [config set_event_bytes event_bytes]. rewrite (proj2 (Z.ltb_ge _ _)) by lia.
  destruct Hb as [-> | ->]; done.
Qed.

Lemma feed_line e l d :
  Forall (fun b => b <> CR /\ b <> LF) l ->
  terminal d = false -> pending d = None -> line d = [] -> 0 <= event_bytes d ->
  (e <> EolCr -> saw_cr d = false) ->
  event_bytes d + Z.of_nat (length l) + 1 <= max_event_bytes (config d) < USIZE_MAX ->
  Z.of_nat (length l) <= max_line_bytes (config d) ->
  terminal (line_result l d) = false ->
  exists d', feed d (l ++ eol_bytes e) = (option_list (pending (line_result l d)), d') /\
    norm d' = norm (set_pending None (line_result l d)) /\ (e <> EolCr -> saw_cr d' = false).
Proof.
  intros Hl Ht Hp Hline H0 Hs He Hm Hterm.
  destruct (feed_content l d) as (d1 & Hf & Hs1 & Hn1); [done..|lia|rewrite Hline; simpl; lia|].
  rewrite Hline in Hn1. simpl in Hn1. rewrite feed_app, Hf.
  assert (config d1 = config d /\ event_bytes d1 = event_bytes d + Z.of_nat (length l) /\
          terminal d1 = false) as (Ec & Ee & Et).
  { change (config d1) with (config (norm d1)). change (event_bytes d1) with (event_bytes (norm d1)).
    change (terminal d1) with (terminal (norm d1)). rewrite Hn1. done. }
  assert (finish_line (set_event_bytes (event_bytes d1 + 1) (norm d1)) = line_result l d) as Hfin.
  { rewrite Hn1. unfold line_result. f_equal. cbn. by rewrite Ee. }
  assert (process_byte CR d1 = set_saw_cr true (line_result l d)) as Hcr.
  { rewrite process_byte_plain by done. rewrite consume_eol; [|auto|cbn; lia|cbn; rewrite Ec; lia].
    by rewrite <- Hfin. }
  assert (forall v, terminal (set_saw_cr v (line_result l d)) = false) as Hterm' by done.
  destruct e; cbn [eol_bytes feed]; rewrite Et.
  - assert (saw_cr d1 = false) as Hsc.
    { destruct (saw_cr d1); [|done]. symmetry. rewrite <- Hs by done. by apply Hs1. }
    assert (process_byte LF d1 = line_result l d) as ->.
    { unfold process_byte. rewrite Hsc. rewrite consume_eol; [|auto|lia|rewrite Ec; lia].
      rewrite <- Hfin. simpl. f_equal. f_equal. rewrite <- Hsc. by destruct d1. }
    assert (saw_cr (line_result l d) = false) as Hsr.
    { unfold line_result. by rewrite finish_line_norm. }
    destruct (pending (line_result l d)) eqn:Hpr; eexists; (split_and!; [done|..]); try done.
    rewrite <- Hpr. by rewrite set_pending_id.
  - rewrite Hcr. cbn [pending set_saw_cr]. remember (line_result l d) as r eqn:Er.
    destruct (pending r) eqn:Hpr; cbn [feed]; eexists; (split_and!; [done| |by intros []]); [done|].
    clear -Hpr. destruct r; simpl in *; by subst.
  - rewrite Hcr. cbn [pending set_saw_cr]. remember (line_result l d) as r eqn:Er.
    destruct (pending r) eqn:Hpr; cbn [feed terminal set_pending set_saw_cr]; rewrite Hterm;
      unfold process_byte; cbn [saw_cr set_pending set_saw_cr pending].
    + eexists; (split_and!; [done|..]); done.
    + simpl. rewrite Hpr. eexists; (split_and!; [done| |done]).
      clear -Hpr. destruct r; simpl in *; by subst.
Qed.

(** ** One frame *)
Definition type_line (t : string) : list ascii := bytes_of ("event: " +:+ t).
Definition data_line (v : string) : list ascii := bytes_of ("data: " +:+ v).

(** The decoder inside a frame: the type [ty] and the data [ds] have been
    read, as [n] fields in [bytes] bytes. *)
Definition in_frame (cfg : SseConfig) (ty : option string) (ds : list string) (n bytes : Z)
    (d : SseDecoder) : Prop :=
  config d = cfg /\ terminal d = false /\ pending d = None /\ line d = [] /\
  event_type d = ty /\ data_lines d = ds /\ has_data d = bool_decide (ds <> []) /\
  last_event_id d = None /\ retry_millis d = None /\ field_count d = n /\ event_bytes d = bytes.

Lemma in_frame_norm cfg ty ds n bytes d d' :
  norm d = norm d' -> in_frame cfg ty ds n bytes d' -> in_frame cfg ty ds n bytes d.
Proof. unfold in_frame. destruct d, d'. simpl. intros [=]. by subst. Qed.

Definition field_ok (cfg : SseConfig) (n : Z) : Prop :=
  forall limit, max_fields_per_event cfg = Some limit -> n + 1 <= limit.

(** A field line applies its field and nothing else. *)
Lemma line_result_field cfg ty ds n bytes d l b r field value :
  in_frame cfg ty ds n bytes d -> l = b :: r -> b <> ":"%char -> utf8_valid l = true ->
  split_field (str_of l) = (field, value) ->
  0 <= n < USIZE_MAX -> field_ok cfg n ->
  exists d', line_result l d = apply_field field value d' /\
    in_frame cfg ty ds (n + 1) (bytes + Z.of_nat (length l) + 1) d'.
Proof.
  intros (Ec & Et & Ep & El & Ety & Eds & Eh & Ei & Er & En & Eb) -> Hb%Ascii.eqb_neq Hu Hsp Hn Hf.
  unfold line_result, finish_line.
  cbn [line norm set_line set_saw_cr]. rewrite Hu, Hb. cbn [negb]. rewrite Hsp.
  cbn [config set_field_count field_count set_saw_cr set_line set_event_bytes].
  assert (usize_saturating_add (field_count d) 1 = n + 1) as -> by (unfold usize_saturating_add; lia).
  rewrite Ec. destruct (max_fields_per_event cfg) as [limit|] eqn:Hlim.
  - rewrite (proj2 (Z.ltb_ge _ _)) by (apply Hf in Hlim; lia).
    eexists. split; [reflexivity|]. unfold in_frame. cbn. subst. done.
  - eexists. split; [reflexivity|]. unfold in_frame. cbn. subst. done.
Qed.

Lemma str_of_bytes s : str_of (bytes_of s) = s.
Proof. apply String.string_of_list_ascii_of_string. Qed.

Section Frames.
Context (e : eol) (cfg : SseConfig).
Hypothesis Hmax : max_event_bytes cfg < USIZE_MAX.

(** A field line, fed with its terminator. *)
Lemma feed_field ty ds ty' ds' n bytes d l b r field value :
  in_frame cfg ty ds n bytes d -> (e <> EolCr -> saw_cr d = false) ->
  l = b :: r -> b <> ":"%char -> clean l -> split_field (str_of l) = (field, value) ->
  (forall m k d', in_frame cfg ty ds m k d' -> in_frame cfg ty' ds' m k (apply_field field value d')) ->
  0 <= n < USIZE_MAX -> field_ok cfg n -> 0 <= bytes ->
  bytes + Z.of_nat (length l) + 1 <= max_event_bytes cfg ->
  Z.of_nat (length l) <= max_line_bytes cfg ->
  exists d', feed d (l ++ eol_bytes e) = ([], d') /\ (e <> EolCr -> saw_cr d' = false) /\
    in_frame cfg ty' ds' (n + 1) (bytes + Z.of_nat (length l) + 1) d'.
Proof.
  intros Hd Hs Hl Hb [Hu Hc] Hsp Happ Hn Hf H0 He Hm.
  destruct (line_result_field _ _ _ _ _ _ _ _ _ _ _ Hd Hl Hb Hu Hsp Hn Hf) as (d1 & Hr & H1).
  apply Happ in H1. rewrite <- Hr in H1.
  pose proof Hd as (Ec & Et & Ep & El & _ & _ & _ & _ & _ & _ & Eb).
  pose proof H1 as (_ & Et1 & Ep1 & _).
  destruct (feed_line e l d) as (d' & Hfd & Hn' & Hs'); try done; [by rewrite Eb|by rewrite Ec, Eb|by rewrite Ec|].
  exists d'. rewrite Ep1 in Hfd. split_and!; [done|done|].
  eapply in_frame_norm; [exact Hn'|]. rewrite <- Ep1, set_pending_id. done.
Qed.

Lemma feed_data ty vs : forall ds n bytes d,
  in_frame cfg ty ds n bytes d -> (e <> EolCr -> saw_cr d = false) ->
  Forall clean (map data_line vs) -> 0 <= n -> 0 <= bytes ->
  bytes + lines_size (map data_line vs) <= max_event_bytes cfg ->
  Forall (fun l => Z.of_nat (length l) <= max_line_bytes cfg) (map data_line vs) ->
  (forall limit, max_fields_per_event cfg = Some limit -> n + Z.of_nat (length vs) <= limit) ->
  n + Z.of_nat (length vs) <= USIZE_MAX ->
  exists d', feed d (encode_lines e (map data_line vs)) = ([], d') /\
    (e <> EolCr -> saw_cr d' = false) /\
    in_frame cfg ty (ds ++ vs) (n + Z.of_nat (length vs)) (bytes + lines_size (map data_line vs)) d'.
Proof.
  induction vs as [|v vs IH]; intros ds n bytes d Hd Hs Hc Hn Hb He Hl Hf Hu.
  - exists d. simpl. rewrite app_nil_r, !Z.add_0_r. done.
  - inversion_clear Hc as [|? ? Hc1 Hc2]. inversion_clear Hl as [|? ? Hl1 Hl2].
    cbn [map lines_size foldr length encode_lines concat] in *.
    assert (0 <= lines_size (map data_line vs)) as Hpos.
    { clear. induction vs; simpl; lia. }
    fold (lines_size (map data_line vs)) in He |- *. rewrite feed_app.
    destruct (feed_field ty ds ty (ds ++ [v]) n bytes d (data_line v) "d" (bytes_of ("ata: " +:+ v))
                "data" v) as (d1 & H1 & Hs1 & Hd1); try done; try lia.
    { unfold data_line, type_line. by rewrite str_of_bytes. }
    { intros m k d' (?&?&?&?&?&?&?&?&?&?&?). unfold in_frame, apply_field. simpl. subst.
      split_and!; try done. symmetry. apply bool_decide_eq_true. by destruct (data_lines d'). }
    { intros limit Hlim%Hf. lia. }
    rewrite H1. destruct (IH (ds ++ [v]) (n + 1) (bytes + Z.of_nat (length (data_line v)) + 1) d1)
      as (d2 & H2 & Hs2 & Hd2); try done; try lia.
    { intros limit Hlim%Hf. lia. }
    fold (encode_lines e (map data_line vs)). rewrite H2. exists d2. split_and!; [done|done|].
    rewrite <- app_assoc in Hd2. simpl in Hd2.
    replace (n + Z.of_nat (S (length vs))) with (n + 1 + Z.of_nat (length vs)) by lia.
    replace (bytes + (Z.of_nat (length (data_line v)) + 1 + lines_size (map data_line vs)))
      with (bytes + Z.of_nat (length (data_line v)) + 1 + lines_size (map data_line vs)) by lia.
    done.
Qed.

Lemma encode_lines_app ls1 ls2 :
  encode_lines e (ls1 ++ ls2) = encode_lines e ls1 ++ encode_lines e ls2.
Proof. unfold encode_lines. by rewrite map_app, concat_app. Qed.

Lemma lines_size_app ls1 ls2 : lines_size (ls1 ++ ls2) = lines_size ls1 + lines_size ls2.
Proof. induction ls1; simpl; [done|]. fold (lines_size ls1). unfold lines_size in *. lia. Qed.

Lemma lines_size_count ls : Z.of_nat (length ls) <= lines_size ls.
Proof. induction ls as [|l ls IH]; simpl; [done|]. unfold lines_size in *. lia. Qed.

(** All the field lines of a frame. *)
Lemma feed_fields f d :
  in_frame cfg None [] 0 0 d -> (e <> EolCr -> saw_cr d = false) -> frame_fits cfg f ->
  exists d', feed d (encode_lines e (frame_lines f)) = ([], d') /\
    (e <> EolCr -> saw_cr d' = false) /\
    in_frame cfg (fr_type f) (fr_data f) (Z.of_nat (length (frame_lines f)))
      (lines_size (frame_lines f)) d'.
Proof.
  intros Hd Hs (Hne & Hc & Hsz & Hl & Hf). pose proof (lines_size_count (frame_lines f)) as Hcnt.
  assert (0 <= lines_size (map data_line (fr_data f))) as Hpos.
  { pose proof (lines_size_count (map data_line (fr_data f))). lia. }
  unfold frame_lines in *. destruct (fr_type f) as [t|].
  - cbn [app] in *. fold data_line in *. change (bytes_of ("event: " +:+ t)) with (type_line t) in *.
    inversion_clear Hc as [|? ? Hc1 Hc2]. inversion_clear Hl as [|? ? Hl1 Hl2].
    cbn [length] in *. rewrite length_map in *.
    change (lines_size (type_line t :: map data_line (fr_data f))) with
      (Z.of_nat (length (type_line t)) + 1 + lines_size (map data_line (fr_data f))) in *.
    destruct (feed_field None [] (Some t) [] 0 0 d (type_line t) "e" (bytes_of ("vent: " +:+ t))
                "event" t) as (d1 & H1 & Hs1 & Hd1); try done; try lia.
    { unfold data_line, type_line. by rewrite str_of_bytes. }
    { intros m k d' (?&?&?&?&?&?&?&?&?&?&?). unfold in_frame, apply_field. simpl. subst. done. }
    { intros limit Hlim%Hf. lia. }
    destruct (feed_data (Some t) (fr_data f) [] 1 (0 + Z.of_nat (length (type_line t)) + 1) d1)
      as (d2 & H2 & Hs2 & Hd2); try done; try lia.
    { intros limit Hlim%Hf. lia. }
    change (encode_lines e (type_line t :: map data_line (fr_data f))) with
      ((type_line t ++ eol_bytes e) ++ encode_lines e (map data_line (fr_data f))).
    rewrite feed_app, H1, H2. exists d2. split_and!; [done|done|].
    replace (Z.of_nat (S (length (fr_data f)))) with (1 + Z.of_nat (length (fr_data f))) by lia.
    done.
  - cbn [app] in *. fold data_line in *. rewrite length_map in *.
    destruct (feed_data None (fr_data f) [] 0 0 d) as (d2 & H2 & Hs2 & Hd2); try done; try lia.
    { exists d2. done. }
Qed.

Lemma frame_fits_line f : frame_fits cfg f -> 0 <= max_line_bytes cfg.
Proof.
  intros (Hne & _ & _ & Hl & _). unfold frame_lines in Hl. apply Forall_app in Hl as [_ Hl].
  destruct (fr_data f) as [|v vs]; [done|]. inversion_clear Hl. lia.
Qed.

(** A whole frame dispatches its event and leaves the decoder between frames. *)
Lemma feed_frame f d :
  in_frame cfg None [] 0 0 d -> (e <> EolCr -> saw_cr d = false) -> frame_fits cfg f ->
  exists d', feed d (encode_frame e f) = ([Ok (event_of f)], d') /\
    (e <> EolCr -> saw_cr d' = false) /\ in_frame cfg None [] 0 0 d'.
Proof.
  intros Hd Hs Hf. destruct (feed_fields f d Hd Hs Hf) as (d1 & H1 & Hs1 & Hd1).
  unfold encode_frame. rewrite encode_lines_app, feed_app, H1.
  change (encode_lines e [[]]) with (([] ++ eol_bytes e) ++ []). rewrite app_nil_r.
  assert (0 <= max_line_bytes cfg) as Hml by (by eapply frame_fits_line).
  destruct Hf as (Hne & _ & Hsz & _). pose proof (lines_size_count (frame_lines f)) as Hcnt.
  destruct Hd1 as (Ec & Et & Ep & El & Ety & Eds & Eh & Ei & Er & En & Eb).
  assert (line_result [] d1 = mk_decoder cfg (chunk d1) (chunk_offset d1) [] [] None None None
    false false 0 0 (u64_saturating_add (line_number d1) 1) (Some (Ok (event_of f))) false) as Hr.
  { unfold line_result, finish_line, dispatch_event. cbn. rewrite Eh.
    rewrite bool_decide_eq_true_2 by done. unfold event_of.
    by rewrite Ec, Ety, Eds, Ei, Er, Et. }
  destruct (feed_line e [] d1) as (d2 & H2 & Hn2 & Hs2); try done; try (by rewrite Hr).
  { rewrite Eb. lia. } { rewrite Eb, Ec. simpl. lia. } { rewrite Ec. simpl. lia. }
  rewrite H2, Hr. exists d2. split_and!; [done|done|].
  eapply in_frame_norm; [exact Hn2|]. rewrite Hr. done.
Qed.
End Frames.

(** Everything between two frames is accounted for by the invariant, so a
    stream of frames is decoded frame by frame. *)
Lemma feed_frames e cfg fs : forall d,
  max_event_bytes cfg < USIZE_MAX -> in_frame cfg None [] 0 0 d ->
  (e <> EolCr -> saw_cr d = false) -> Forall (frame_fits cfg) fs ->
  exists d', feed d (concat (map (encode_frame e) fs)) = (map (Ok ∘ event_of) fs, d') /\
    in_frame cfg None [] 0 0 d'.
Proof.
  induction fs as [|f fs IH]; intros d Hmax Hd Hs Hf; [by exists d|].
  inversion_clear Hf as [|? ? Hf1 Hf2]. cbn [map concat]. rewrite feed_app.
  destruct (feed_frame e cfg Hmax f d) as (d1 & H1 & Hs1 & Hd1); [done..|].
  destruct (IH d1) as (d2 & H2 & Hd2); [done..|]. rewrite H1, H2. by exists d2.
Qed.

(** C22. Framing round trip: whatever frames a server writes (an optional type
    line and one or more data lines of clean UTF-8, within the configured
    limits), terminated by LF, CR or CR LF, the decoder yields exactly these
    frames as events, in order, and nothing else. *)
Theorem sse_roundtrip e cfg fs :
  max_event_bytes cfg < USIZE_MAX -> Forall (frame_fits cfg) fs ->
  decode_bytes (with_config cfg) (concat (map (encode_frame e) fs)) = map (Ok ∘ event_of) fs.
Proof.
  intros Hmax Hf. destruct (feed_frames e cfg fs (with_config cfg)) as (d & H & Hd); try done.
  destruct Hd as (Ec & Et & Ep & El & Ety & Eds & Eh & _). unfold decode_bytes.
  rewrite H, Et. unfold finish_eof. rewrite El, Ep, Et. unfold dispatch_event. rewrite Eh. simpl.
  rewrite Ep. apply app_nil_r.
Qed.

Definition sample_frames : list frame :=
  [mk_frame (Some "message_start") ["{}"; "tail"]; mk_frame None ["[DONE]"]].

Lemma sse_roundtrip_witness :
  decode_bytes (with_config sse_config_default)
    (concat (map (encode_frame EolCrLf) sample_frames)) = map (Ok ∘ event_of) sample_frames.
Proof.
  apply sse_roundtrip; [done|]. unfold sample_frames.
  repeat constructor; cbn; try done; try (by intros limit [= <-]).
Defined.
