(* ===== verification/Domain.v ===== *)
(** * The domain data model: [src/src/domain]

    Identifiers ([ids.rs]), resource ceilings ([limits.rs]), content parts
    ([content.rs]), tool calls ([tools.rs]) and messages ([message.rs]), with
    the constructors that validate them. An identifier newtype is the string
    it wraps; its [new] is the only way the source builds one. *)
From S2P Require Import Prelude Errors.

(** ** Identifiers *)

(** The [new] of [validated_id!]; [name] and [label] are the macro arguments. *)
Definition validated_id (name label value : string) : result ValidationError string :=
  let reason :=
    if str_is_empty value then Some ValidationReason.Empty
    else if has_boundary_whitespace value then Some ValidationReason.BoundaryWhitespace
    else None in
  match reason with
  | Some reason =>
      Err (validation_error name reason
             (label +:+ " must be non-empty and have no boundary whitespace"))
  | None => Ok value
  end.

Definition ProviderId_new := validated_id "ProviderId" "provider id".
Definition ProtocolId_new := validated_id "ProtocolId" "protocol id".
Definition ModelId_new := validated_id "ModelId" "model id".
Definition LocalRequestId_new := validated_id "LocalRequestId" "lifecycle id".
Definition ProviderRequestId_new := validated_id "ProviderRequestId" "lifecycle id".
Definition GenerationId_new := validated_id "GenerationId" "lifecycle id".
Definition TraceId_new := validated_id "TraceId" "lifecycle id".

Record ModelRef := mk_model_ref { mr_provider : string; mr_model : string }.

Definition ModelRef_new (provider model : string) : result ValidationError ModelRef :=
  p ← ProviderId_new provider; m ← ModelId_new model; Ok (mk_model_ref p m).

Definition TOOL_CALL_ID_MAX_BYTES : Z := 256.
Definition ToolCallId_new (value : string) : result ValidationError string :=
  if str_is_empty value then
    Err (validation_error "tool_call_id" ValidationReason.Empty "tool call id must not be empty")
  else if TOOL_CALL_ID_MAX_BYTES <? str_len value then
    Err (validation_error "tool_call_id" ValidationReason.OutOfRange
           "tool call id exceeds the domain byte limit")
  else Ok value.

Definition TOOL_NAME_MAX_BYTES : Z := 64.
Definition tool_name_byte (b : ascii) : bool :=
  is_ascii_alphanumeric b || Ascii.eqb b "_"%char || Ascii.eqb b "-"%char.
Definition ToolName_new (value : string) : result ValidationError string :=
  if str_is_empty value then
    Err (validation_error "tool_name" ValidationReason.Empty "tool name must not be empty")
  else if TOOL_NAME_MAX_BYTES <? str_len value then
    Err (validation_error "tool_name" ValidationReason.OutOfRange "tool name exceeds 64 bytes")
  else if negb (str_all tool_name_byte value) then
    Err (validation_error "tool_name" ValidationReason.InvalidIdentifier
           "tool name contains an unsupported character")
  else Ok value.

(** The types' invariants. *)
Definition valid_id (s : string) : Prop :=
  s <> EmptyString /\ has_boundary_whitespace s = false.
Definition valid_tool_call_id (s : string) : Prop := 1 <= str_len s <= TOOL_CALL_ID_MAX_BYTES.
Definition valid_tool_name (s : string) : Prop :=
  1 <= str_len s <= TOOL_NAME_MAX_BYTES /\ str_all tool_name_byte s = true.

(** ** Resource ceilings *)
Record ResourceLimits := mk_resource_limits {
  max_request_body_bytes : Z;
  max_messages : Z;
  max_total_text_bytes : Z;
  max_tools : Z;
  max_tool_description_bytes : Z;
  max_schema_bytes : Z;
  max_schema_depth : Z;
  max_tool_calls : Z;
  max_tool_arguments_bytes : Z;
  max_all_tool_arguments_bytes : Z;
  max_json_array_items : Z;
  max_images : Z;
  max_inline_image_bytes : Z;
  max_image_url_bytes : Z;
  max_structured_output_bytes : Z }.

Definition official : ResourceLimits :=
  mk_resource_limits (64 * 1024 * 1024) 1024 (16 * 1024 * 1024) 128 1024 (256 * 1024) 32 64
    (1024 * 1024) (4 * 1024 * 1024) 65536 128 (20 * 1024 * 1024) 8192 (16 * 1024 * 1024).

Definition limit_fields (l : ResourceLimits) : list (string * Z) :=
  [("max_request_body_bytes", max_request_body_bytes l);
   ("max_messages", max_messages l);
   ("max_total_text_bytes", max_total_text_bytes l);
   ("max_tools", max_tools l);
   ("max_tool_description_bytes", max_tool_description_bytes l);
   ("max_schema_bytes", max_schema_bytes l);
   ("max_schema_depth", max_schema_depth l);
   ("max_tool_calls", max_tool_calls l);
   ("max_tool_arguments_bytes", max_tool_arguments_bytes l);
   ("max_all_tool_arguments_bytes", max_all_tool_arguments_bytes l);
   ("max_json_array_items", max_json_array_items l);
   ("max_images", max_images l);
   ("max_inline_image_bytes", max_inline_image_bytes l);
   ("max_image_url_bytes", max_image_url_bytes l);
   ("max_structured_output_bytes", max_structured_output_bytes l)].

Definition validate_limits (l : ResourceLimits) : result ValidationError unit :=
  match List.find (fun f : string * Z => f.2 =? 0) (limit_fields l) with
  | Some (field, _) =>
      Err (validation_error field ValidationReason.Zero "resource limit must be positive")
  | None =>
      if max_all_tool_arguments_bytes l <? max_tool_arguments_bytes l then
        Err (validation_error "max_all_tool_arguments_bytes" ValidationReason.OutOfRange
               "aggregate tool argument limit must cover one tool call")
      else Ok tt
  end.

(** The [ResourceLimitsBuilder]: its setters overwrite one field, [build]
    validates the whole. *)
Definition builder_build (l : ResourceLimits) : result ValidationError ResourceLimits :=
  _ ← validate_limits l; Ok l.

(** ** Request timeouts: a duration or an instant, in nanoseconds *)
Inductive RequestTimeout := TimeoutAfter (d : Z) | TimeoutAt (t : Z).

(** ** Content *)
Inductive ImageMime := Png | Jpeg | Webp | Gif.
Inductive ImageDetail := Auto | Low | High | Original.
Inductive ImageSource :=
| ImgUrl (url : string)
| ImgInline (mime : ImageMime) (bytes : list ascii)
| ImgDataUrl (url : string).
Record ImageContent := mk_image { img_source : ImageSource; img_detail : ImageDetail }.

Record SourceIdentity := mk_source_identity {
  si_provider : string; si_model : string; si_protocol : string;
  si_generation_id : option string }.

Definition matches_source (a b : SourceIdentity) : bool :=
  str_eqb (si_provider a) (si_provider b) && str_eqb (si_model a) (si_model b)
  && str_eqb (si_protocol a) (si_protocol b).

Record OpaqueReasoning := mk_opaque {
  or_bytes : list ascii; or_source : SourceIdentity; or_redacted : bool }.

Record ThinkingContent := mk_thinking { tc_text : string; tc_opaque : option OpaqueReasoning }.
Definition thinking_new (text : string) : ThinkingContent := mk_thinking text None.
Definition with_opaque (t : ThinkingContent) (o : OpaqueReasoning) : ThinkingContent :=
  mk_thinking (tc_text t) (Some o).

Record ToolArguments := mk_tool_arguments { raw_json : string; ta_value : json }.
Record ToolCall := mk_tool_call { tc_id : string; tc_name : string; tc_arguments : ToolArguments }.

Inductive ContentPart :=
| PText (text : string)
| PImage (image : ImageContent)
| PThinking (thinking : ThinkingContent)
| PRefusal (text : string)
| PToolCall (call : ToolCall).

Definition text_value (p : ContentPart) : option string :=
  match p with PText t => Some t | _ => None end.
Definition is_tool_call (p : ContentPart) : bool :=
  match p with PToolCall _ => true | _ => false end.
Definition is_refusal (p : ContentPart) : bool :=
  match p with PRefusal _ => true | _ => false end.

(** ** Messages *)
Module MessageRole.
Inductive t := Developer | System | User | Assistant | Tool.
End MessageRole.

Record ToolResultMessage := mk_tool_result {
  tr_tool_call_id : string; tr_tool_name : string; tr_content : list ContentPart;
  tr_is_error : bool; tr_source_generation_id : option string }.

Definition validate_official_tool_result_content (content : list ContentPart)
  : result HistoryError unit :=
  match content with
  | [PText text] =>
      if negb (str_is_empty text) then Ok tt
      else Err (history_error "tool_result.content" UnsupportedContent (Some "content[0]")
                  "official tool results require non-empty text")
  | [_] =>
      Err (history_error "tool_result.content" UnsupportedContent (Some "content[0]")
             "official tool results only accept a single text part")
  | _ =>
      Err (history_error "tool_result.content" UnsupportedContent None
             "official tool results require exactly one content part")
  end.

Definition tool_result_new (tool_call_id tool_name : string) (content : list ContentPart)
    (is_error : bool) (source_generation_id : option string)
  : result HistoryError ToolResultMessage :=
  _ ← validate_official_tool_result_content content;
  Ok (mk_tool_result tool_call_id tool_name content is_error source_generation_id).

Inductive MessagePayload :=
| Content (parts : list ContentPart)
| ToolResult (r : ToolResultMessage).
Record Message := mk_message { msg_role : MessageRole.t; msg_payload : MessagePayload }.

Definition message_new (role : MessageRole.t) (content : list ContentPart) : Message :=
  mk_message role (Content content).
Definition from_tool_result (r : ToolResultMessage) : Message :=
  mk_message MessageRole.Tool (ToolResult r).
Definition msg_content (m : Message) : list ContentPart :=
  match msg_payload m with Content parts => parts | ToolResult _ => [] end.
Definition msg_tool_result (m : Message) : option ToolResultMessage :=
  match msg_payload m with ToolResult r => Some r | Content _ => None end.

#[global] Instance MessageRole_eq_dec : EqDecision MessageRole.t.
Proof. solve_decision. Defined.
#[global] Instance ImageMime_eq_dec : EqDecision ImageMime.
Proof. solve_decision. Defined.

(** ** Facts *)
Lemma validated_id_ok name label s t :
  validated_id name label s = Ok t <-> t = s /\ valid_id s.
Proof.
  unfold validated_id, valid_id. destruct s as [|b s]; simpl; [naive_solver|].
  destruct (has_boundary_whitespace _); naive_solver.
Qed.

Lemma str_len_pos s : str_is_empty s = false <-> 1 <= str_len s.
Proof. destruct s; unfold str_len; simpl; [split; [done|lia]|split; [lia|done]]. Qed.

Lemma ToolCallId_new_ok s t : ToolCallId_new s = Ok t <-> t = s /\ valid_tool_call_id s.
Proof.
  unfold ToolCallId_new, valid_tool_call_id.
  destruct (str_is_empty s) eqn:He.
  - apply str_is_empty_len in He. split; [done|lia].
  - apply str_len_pos in He. destruct (Z.ltb_spec TOOL_CALL_ID_MAX_BYTES (str_len s)).
    + split; [done|lia].
    + split; [intros [= <-]; split; [done|lia]|by intros [-> _]].
Qed.

Lemma ToolName_new_ok s t : ToolName_new s = Ok t <-> t = s /\ valid_tool_name s.
Proof.
  unfold ToolName_new, valid_tool_name. destruct (str_is_empty s) eqn:He.
  - apply str_is_empty_len in He. split; [done|lia].
  - apply str_len_pos in He. destruct (Z.ltb_spec TOOL_NAME_MAX_BYTES (str_len s)).
    + split; [done|lia].
    + destruct (str_all tool_name_byte s); simpl; [|naive_solver].
      split; [intros [= <-]; split_and!; done|by intros [-> _]].
Qed.

(** The identifier constructors accept exactly the strings their types
    promise, and keep them byte for byte: a validated id is non-empty without
    boundary white space, a tool call id has 1 to 256 bytes, a tool name has 1
    to 64 bytes of the set A-Z, a-z, 0-9, underscore and hyphen. *)
Theorem identifier_constructors_exact s t :
  (ProviderId_new s = Ok t <-> t = s /\ valid_id s) /\
  (ToolCallId_new s = Ok t <-> t = s /\ valid_tool_call_id s) /\
  (ToolName_new s = Ok t <-> t = s /\ valid_tool_name s).
Proof. split_and!; [apply validated_id_ok|apply ToolCallId_new_ok|apply ToolName_new_ok]. Qed.

(** The ceilings every consumer relies on. *)
Definition limits_wf (l : ResourceLimits) : Prop :=
  Forall (fun f : string * Z => f.2 <> 0) (limit_fields l) /\
  max_tool_arguments_bytes l <= max_all_tool_arguments_bytes l.

Lemma find_none_Forall {A} (p : A -> bool) l :
  List.find p l = None <-> Forall (fun x => p x = false) l.
Proof.
  induction l as [|x l IH]; simpl; [split; [constructor|done]|].
  rewrite Forall_cons. destruct (p x); [naive_solver|]. rewrite IH. naive_solver.
Qed.

(** [build] succeeds exactly on limits that are all non-zero and whose
    aggregate argument ceiling covers a single call, and returns them as they
    were set; the official limits qualify. *)
Theorem builder_build_spec l l' :
  (builder_build l = Ok l' <-> l' = l /\ limits_wf l) /\ limits_wf official.
Proof.
  split.
  - unfold builder_build, validate_limits, limits_wf.
    destruct (List.find _ _) as [[f v]|] eqn:Hf.
    + split; [done|]. intros [_ [Hall _]]. exfalso.
      apply List.find_some in Hf as [Hin Hz]. apply Z.eqb_eq in Hz.
      rewrite Forall_forall in Hall. apply (Hall (f, v)); [by apply list_elem_of_In|done].
    + apply find_none_Forall in Hf. destruct (Z.ltb_spec (max_all_tool_arguments_bytes l)
        (max_tool_arguments_bytes l)); [split; [done|lia]|].
      split; [|by intros [-> _]]. intros [= <-]. split_and!; [done| |done].
      eapply Forall_impl; [exact Hf|]. intros x Hx%Z.eqb_neq. done.
  - split; [|done]. repeat constructor; done.
Qed.
