(* ===== verification/Images.v ===== *)
(** * Image content: the constructors of [src/src/domain/content.rs]

    Images by URL, inline and as data URLs: the checks made at construction,
    the parser of data URLs and the data URL an inline image is sent as. *)
From S2P Require Import Prelude Errors Domain.

(** [base64::STANDARD], with what its documentation promises: decoding is the
    left inverse of encoding, the text is over the standard alphabet, and only
    the empty input has an empty text. *)
Class Base64 := {
  b64_encode : list ascii -> string;
  b64_decode : string -> option (list ascii) }.
Definition b64_byte (b : ascii) : bool :=
  is_ascii_alphanumeric b || Ascii.eqb b "+" || Ascii.eqb b "/" || Ascii.eqb b "=".
Class Base64Laws {B : Base64} := {
  b64_inverse : forall bytes, b64_decode (b64_encode bytes) = Some bytes;
  b64_alphabet : forall bytes, str_all b64_byte (b64_encode bytes) = true;
  b64_empty : forall bytes, b64_encode bytes = EmptyString -> bytes = [] }.

(** [url::Url]: what the checks read of a parsed URL. *)
Class Urls := {
  Url : Type;
  url_parse : string -> option Url;
  url_as_str : Url -> string;
  url_scheme : Url -> string;
  url_username : Url -> string;
  url_password : Url -> option string }.

Definition mime_as_str (m : ImageMime) : string :=
  match m with
  | Png => "image/png" | Jpeg => "image/jpeg" | Webp => "image/webp" | Gif => "image/gif"
  end.
Definition from_media_type (value : string) : option ImageMime :=
  if str_eqb value "image/png" then Some Png
  else if str_eqb value "image/jpeg" then Some Jpeg
  else if str_eqb value "image/webp" then Some Webp
  else if str_eqb value "image/gif" then Some Gif
  else None.

(** [slice::starts_with] and the byte tests of the magic numbers. *)
Fixpoint starts_with (l prefix : list ascii) {struct prefix} : bool :=
  match prefix, l with
  | [], _ => true
  | p :: prefix, b :: l => Ascii.eqb b p && starts_with l prefix
  | _ :: _, [] => false
  end.
Definition byte (n : N) : ascii := ascii_of_N n.
Definition matches_magic_bytes (mime : ImageMime) (bytes : list ascii) : bool :=
  match mime with
  | Png => starts_with bytes [byte 137; "P"; "N"; "G"; byte 13; byte 10; byte 26; byte 10]%char
  | Jpeg => starts_with bytes [byte 255; byte 216; byte 255]
  | Webp => (12 <=? Z.of_nat (length bytes)) && starts_with bytes (bytes_of "RIFF")
            && starts_with (drop 8 bytes) (bytes_of "WEBP")
  | Gif => starts_with bytes (bytes_of "GIF87a") || starts_with bytes (bytes_of "GIF89a")
  end.

Definition image_error {A} (field : string) (reason : ValidationReason.t) (summary : string)
  : result ValidationError A := Err (validation_error field reason summary).

Definition validate_inline_image (mime : ImageMime) (bytes : list ascii) (limits : ResourceLimits)
  : result ValidationError unit :=
  if bool_decide (bytes = [])
  then image_error "image.bytes" ValidationReason.Empty "inline image payload must be non-empty"
  else if max_inline_image_bytes limits <? Z.of_nat (length bytes)
  then image_error "image.bytes" ValidationReason.OutOfRange "inline image exceeds the frozen byte limit"
  else if negb (matches_magic_bytes mime bytes)
  then image_error "image.bytes" ValidationReason.InvalidIdentifier
         "inline image magic bytes do not match the declared MIME type"
  else Ok tt.

Definition strip_data (s : string) : option string :=
  if starts_with (bytes_of s) (bytes_of "data:") then Some (str_of (drop 5 (bytes_of s))) else None.

Section Images.
Context {B : Base64} {U : Urls}.

Definition data_url_error {A} (reason : ValidationReason.t) (summary : string)
  : result ValidationError A := image_error "image.data_url" reason summary.

Definition parse_image_data_url (data_url : string) : result ValidationError (ImageMime * list ascii) :=
  if str_contains "010" data_url || str_contains "013" data_url
  then data_url_error ValidationReason.InvalidIdentifier "image data URL must not contain line breaks"
  else
    match strip_data data_url with
    | None => data_url_error ValidationReason.InvalidIdentifier "image data URL must start with data:"
    | Some rest =>
        match split_once "," rest with
        | None => data_url_error ValidationReason.InvalidIdentifier
                    "image data URL must contain a base64 payload separator"
        | Some (header, payload) =>
            if starts_with (bytes_of payload) [" "%char] || str_contains " " header
            then data_url_error ValidationReason.InvalidIdentifier
                   "image data URL must not contain whitespace around the header or comma"
            else
              match split_once ";" header with
              | None => data_url_error ValidationReason.InvalidIdentifier
                          "image data URL must declare a base64 encoding"
              | Some (media_type, encoding) =>
                  if negb (str_eqb encoding "base64")
                  then data_url_error ValidationReason.InvalidIdentifier
                         "image data URL must use base64 encoding"
                  else
                    match from_media_type media_type with
                    | None => data_url_error ValidationReason.InvalidIdentifier
                                "image data URL MIME type is not supported"
                    | Some mime =>
                        if str_is_empty payload
                        then data_url_error ValidationReason.Empty
                               "image data URL payload must be non-empty"
                        else
                          match b64_decode payload with
                          | None => data_url_error ValidationReason.InvalidIdentifier
                                      "image data URL payload is not valid base64"
                          | Some decoded => Ok (mime, decoded)
                          end
                    end
              end
        end
    end.
Definition decode_validated_data_url (data_url : string)
  : result ValidationError (ImageMime * list ascii) := parse_image_data_url data_url.

Definition encode_inline_data_url (mime : ImageMime) (bytes : list ascii) : string :=
  "data:" +:+ mime_as_str mime +:+ ";base64," +:+ b64_encode bytes.

Definition validate_https_image_url (url : Url) : result ValidationError unit :=
  if negb (str_eqb (url_scheme url) "https")
  then image_error "image.url" ValidationReason.InvalidIdentifier "image URL must use the https scheme"
  else if negb (str_is_empty (url_username url)) || bool_decide (is_Some (url_password url))
  then image_error "image.url" ValidationReason.InvalidIdentifier
         "image URL must not contain embedded user information"
  else if max_image_url_bytes official <? str_len (url_as_str url)
  then image_error "image.url" ValidationReason.OutOfRange "image URL exceeds the frozen UTF-8 byte limit"
  else Ok tt.

Definition from_url (url : Url) (detail : ImageDetail) : result ValidationError ImageContent :=
  _ ← validate_https_image_url url; Ok (mk_image (ImgUrl (url_as_str url)) detail).
Definition parse_url (url : string) (detail : ImageDetail) : result ValidationError ImageContent :=
  match url_parse url with
  | None => image_error "image.url" ValidationReason.InvalidIdentifier
              "image URL is not a valid absolute URL"
  | Some parsed => from_url parsed detail
  end.
Definition from_inline (mime : ImageMime) (bytes : list ascii) (detail : ImageDetail)
  : result ValidationError ImageContent :=
  _ ← validate_inline_image mime bytes official; Ok (mk_image (ImgInline mime bytes) detail).
Definition from_data_url (data_url : string) (detail : ImageDetail)
  : result ValidationError ImageContent :=
  '(mime, payload) ← parse_image_data_url data_url;
  _ ← validate_inline_image mime payload official;
  Ok (mk_image (ImgDataUrl data_url) detail).
End Images.

(** ** Data URLs read back *)
Lemma split_once_free c s t :
  str_all (fun b => negb (Ascii.eqb b c)) s = true ->
  split_once c (s +:+ String c t) = Some (s, t).
Proof.
  unfold str_all. induction s as [|b s IH]; simpl.
  - by rewrite Ascii.eqb_refl.
  - rewrite andb_true_iff, negb_true_iff. intros [Hb Hs]. rewrite Hb. by rewrite IH.
Qed.

Lemma str_contains_app c s t : str_contains c (s +:+ t) = str_contains c s || str_contains c t.
Proof. unfold str_contains. rewrite bytes_of_app. apply existsb_app. Qed.

Lemma str_contains_all c p s :
  str_all p s = true -> p c = false -> str_contains c s = false.
Proof.
  unfold str_all, str_contains. intros Hall Hc. apply not_true_iff_false. rewrite List.existsb_exists.
  intros (b & Hb & Heq). apply Ascii.eqb_eq in Heq as <-.
  rewrite forallb_forall in Hall. apply Hall in Hb. congruence.
Qed.

Lemma strip_data_app s : strip_data ("data:" +:+ s) = Some s.
Proof.
  unfold strip_data. simpl. f_equal. apply String.string_of_list_ascii_of_string.
Qed.

Section RoundTrip.
Context {B : Base64} {U : Urls} {BL : Base64Laws}.

Lemma parse_encoded mime bytes :
  bytes <> [] -> parse_image_data_url (encode_inline_data_url mime bytes) = Ok (mime, bytes).
Proof.
  intros Hne. unfold parse_image_data_url, encode_inline_data_url.
  assert (forall c, b64_byte c = false -> str_contains c (b64_encode bytes) = false) as Hfree.
  { intros c Hc. by eapply str_contains_all; [apply b64_alphabet|]. }
  assert (str_is_empty (b64_encode bytes) = false) as Hpay.
  { destruct (b64_encode bytes) eqn:E; [|done]. by apply b64_empty in E. }
  assert (starts_with (bytes_of (b64_encode bytes)) [" "%char] = false) as Hsp.
  { pose proof (Hfree " "%char eq_refl) as Hs. destruct (b64_encode bytes) as [|b s]; [done|].
    unfold str_contains in Hs. cbn [bytes_of String.list_ascii_of_string existsb] in Hs.
    apply orb_false_iff in Hs as [Hs _]. cbn [bytes_of String.list_ascii_of_string starts_with].
    by rewrite Ascii.eqb_sym, Hs. }
  rewrite !str_contains_app, !Hfree by done.
  replace (str_contains "010" "data:" || _) with false by (by destruct mime).
  replace (str_contains "013" "data:" || _) with false by (by destruct mime). cbn [orb].
  rewrite strip_data_app.
  change (";base64," +:+ b64_encode bytes) with (";base64" +:+ String "," (b64_encode bytes)).
  rewrite str_app_assoc, split_once_free by (by destruct mime). rewrite Hsp.
  replace (str_contains " " (mime_as_str mime +:+ ";base64")) with false by (by destruct mime). cbn [orb].
  replace (split_once ";" (mime_as_str mime +:+ ";base64")) with (Some (mime_as_str mime, "base64"))
    by (by destruct mime).
  replace (from_media_type (mime_as_str mime)) with (Some mime) by (by destruct mime).
  cbn [str_eqb]. rewrite Hpay, b64_inverse. done.
Qed.

(** The data URL that an inline image is sent as is the image: it is
    accepted whenever the inline image was, it decodes to the same media type
    and the same bytes, and nothing but a supported, non-empty image of at most
    the official size whose magic number matches its type is accepted at all. *)
Theorem inline_image_roundtrip mime bytes detail img :
  from_inline mime bytes detail = Ok img ->
  img = mk_image (ImgInline mime bytes) detail /\
  1 <= Z.of_nat (length bytes) <= max_inline_image_bytes official /\
  matches_magic_bytes mime bytes = true /\
  decode_validated_data_url (encode_inline_data_url mime bytes) = Ok (mime, bytes) /\
  from_data_url (encode_inline_data_url mime bytes) detail
  = Ok (mk_image (ImgDataUrl (encode_inline_data_url mime bytes)) detail).
Proof.
  unfold from_inline, from_data_url, decode_validated_data_url.
  destruct (validate_inline_image mime bytes official) as [[]|] eqn:Hv; [|done]. intros [= <-].
  pose proof Hv as Hv'. unfold validate_inline_image in Hv'.
  destruct (bool_decide_reflect (bytes = [])) as [|Hne]; [done|].
  destruct (Z.ltb_spec (max_inline_image_bytes official) (Z.of_nat (length bytes))); [done|].
  destruct (matches_magic_bytes mime bytes); [|done].
  rewrite (parse_encoded mime bytes Hne). cbn [mbind result_bind]. rewrite Hv. split_and!; try done.
  destruct bytes; [done|]. simpl. lia.
Qed.
End RoundTrip.

(** A codec with the laws: two letters per byte. *)
Definition nibble (n : N) : ascii := ascii_of_N (65 + n).
Definition letters (b : ascii) : list ascii :=
  [nibble (N.div (N_of_ascii b) 16); nibble (N.modulo (N_of_ascii b) 16)].
Fixpoint unletters (l : list ascii) : option (list ascii) :=
  match l with
  | [] => Some []
  | h :: l :: rest =>
      bytes ← unletters rest;
      Some (ascii_of_N (16 * (N_of_ascii h - 65) + (N_of_ascii l - 65)) :: bytes)
  | [_] => None
  end.
Definition letter_codec : Base64 := {|
  b64_encode bytes := str_of (flat_map letters bytes);
  b64_decode s := unletters (bytes_of s) |}.

Lemma letters_spec b :
  ascii_of_N (16 * (N_of_ascii (nibble (N.div (N_of_ascii b) 16)) - 65)
              + (N_of_ascii (nibble (N.modulo (N_of_ascii b) 16)) - 65)) = b /\
  forallb b64_byte (letters b) = true.
Proof. destruct b as [[] [] [] [] [] [] [] []]; by vm_compute. Qed.

#[global] Instance letter_codec_laws : Base64Laws (B := letter_codec).
Proof.
  split; intros bytes; unfold b64_encode, b64_decode; simpl.
  - rewrite bytes_of_str_of. induction bytes as [|b bytes IH]; [done|]. cbn [flat_map letters app unletters].
    rewrite IH. cbn. by rewrite (proj1 (letters_spec b)).
  - unfold str_all. rewrite bytes_of_str_of. induction bytes as [|b bytes IH]; [done|].
    cbn [flat_map]. rewrite forallb_app, IH, andb_true_r. apply letters_spec.
  - by destruct bytes.
Defined.

Definition sample_gif : list ascii := bytes_of "GIF89a".
Lemma inline_image_roundtrip_witness :
  from_data_url (B := letter_codec) (encode_inline_data_url (B := letter_codec) Gif sample_gif) High
  = Ok (mk_image (ImgDataUrl (encode_inline_data_url (B := letter_codec) Gif sample_gif)) High).
Proof.
  by apply (inline_image_roundtrip (B := letter_codec) Gif sample_gif High
    (mk_image (ImgInline Gif sample_gif) High)).
Defined.
