(* ===== verification/Structured.v ===== *)
(** * Structured responses: [src/src/domain/structured.rs] and
    [src/src/protocol/structured_terminal.rs]

    The response formats, the validation of the final text at the success
    boundary, and the bounded accumulator the protocol machines share. JSON
    parsing ([serde_json]) and schema validation are interfaces here: the
    theorems hold for every implementation of them. *)
From S2P Require Import Prelude Errors Domain.

Module FinishReason.
Inductive t := Stop | Length | ContentFilter | ToolCalls | Unknown (raw : string).
End FinishReason.
Abbreviation FinishReason := FinishReason.t.
#[global] Instance FinishReason_eq_dec : EqDecision FinishReason.
Proof. solve_decision. Defined.

(** ** Interfaces *)

(** [serde_json::from_str::<Value>]. *)
Class JsonSyntax := from_str : string -> result json_error json.

Record SchemaLimits := mk_schema_limits {
  sl_max_schema_bytes : Z; sl_max_schema_depth : Z; sl_max_json_array_items : Z }.
Definition schema_limits_official : SchemaLimits := mk_schema_limits (256 * 1024) 32 65536.

Record ToolSchema := mk_tool_schema { schema_value : json; strict_compatible : bool }.

(** What the schema component offers to its clients: [ToolSchema::validate_instance]. *)
Class SchemaEngine :=
  validate_instance : ToolSchema -> json -> SchemaLimits -> result ToolValidationError unit.

(** What it promises: an instance accepted under some depth and array limits is
    accepted under larger ones. *)
Class SchemaEngineMono `{SE : SchemaEngine} : Prop :=
  validate_instance_mono : forall schema v l1 l2,
    sl_max_schema_depth l1 <= sl_max_schema_depth l2 ->
    sl_max_json_array_items l1 <= sl_max_json_array_items l2 ->
    validate_instance schema v l1 = Ok tt -> validate_instance schema v l2 = Ok tt.

(** ** Formats *)
Record StructuredSchema := mk_structured_schema {
  ss_name : string; ss_description : option string; ss_schema : ToolSchema; ss_strict : bool }.

Inductive ResponseFormat := FText | FJsonObject | FJsonSchema (s : StructuredSchema).

Definition validate_schema_name (name : string) : result ValidationError unit :=
  if str_is_empty name then
    Err (validation_error "response_format.json_schema.name" ValidationReason.Empty
           "structured schema name must not be empty")
  else if 64 <? str_len name then
    Err (validation_error "response_format.json_schema.name" ValidationReason.OutOfRange
           "structured schema name exceeds 64 bytes")
  else if negb (str_all tool_name_byte name) then
    Err (validation_error "response_format.json_schema.name" ValidationReason.InvalidIdentifier
           "structured schema name contains an unsupported character")
  else Ok tt.

Definition structured_schema_new (name : string) (description : option string)
    (schema : ToolSchema) (strict : bool) : result ValidationError StructuredSchema :=
  _ ← validate_schema_name name;
  _ ← match description with
      | Some d =>
          if str_is_empty d then
            Err (validation_error "response_format.json_schema.description" ValidationReason.Empty
                   "structured schema description must be non-empty when provided")
          else if 1024 <? str_len d then
            Err (validation_error "response_format.json_schema.description"
                   ValidationReason.OutOfRange
                   "structured schema description exceeds 1024 UTF-8 bytes")
          else Ok tt
      | None => Ok tt
      end;
  if strict && negb (strict_compatible schema) then
    Err (validation_error "response_format.json_schema.strict" ValidationReason.OutOfRange
           "strict structured schema must satisfy the local strict object rules")
  else Ok (mk_structured_schema name description schema strict).

Section Engine.
Context {JS : JsonSyntax} {SE : SchemaEngine}.

Definition validate_structured_response (format : ResponseFormat) (finish : FinishReason)
    (text : string) (has_tool_call has_refusal : bool) (limits : SchemaLimits)
  : result LlmError (option json) :=
  match format with
  | FText => Ok None
  | FJsonObject | FJsonSchema _ =>
      if bool_decide (finish = FinishReason.ToolCalls) || has_tool_call then Ok None
      else if has_refusal then Ok None
      else
        match finish with
        | FinishReason.Length =>
            Err (structured_output_error Truncated None
                   "structured output was truncated before completion")
        | FinishReason.ContentFilter | FinishReason.Unknown _ =>
            Err (protocol "structured output is unavailable for a non-success finish reason")
        | FinishReason.ToolCalls =>
            Err (protocol "structured output requires a successful text finish")
        | FinishReason.Stop =>
            match from_str text with
            | Err _ => Err (structured_output_error InvalidJson None "assistant text is not valid JSON")
            | Ok parsed =>
                match format with
                | FJsonObject =>
                    if negb (json_is_object parsed) then
                      Err (structured_output_error SchemaViolation (Some "#")
                             "json_object response must be a JSON object")
                    else Ok (Some parsed)
                | FJsonSchema schema =>
                    match validate_instance (ss_schema schema) parsed limits with
                    | Err e => Err (structured_output_error SchemaViolation (tve_path e)
                                      "assistant text failed the requested response schema")
                    | Ok _ => Ok (Some parsed)
                    end
                | FText => Ok None
                end
            end
        end
  end.

(** ** The accumulator *)
Record StructuredTerminal := mk_structured_terminal {
  st_format : ResponseFormat; st_limits : SchemaLimits; st_byte_limit : Z;
  st_text_buffer : option string; st_validated : bool }.

Definition structured_terminal_new (format : ResponseFormat) (limits : SchemaLimits)
    (byte_limit : Z) : StructuredTerminal :=
  mk_structured_terminal format limits byte_limit
    (match format with FText => None | _ => Some EmptyString end) false.

Definition push_answer_text (content : string) : M StructuredTerminal LlmError unit :=
  t ← get;
  match st_text_buffer t with
  | None => mret tt
  | Some buffer =>
      next ← lift (ok_or (usize_checked_add (str_len buffer) (str_len content))
               (structured_output_error TooLarge None "structured output byte count overflowed"));
      _ ← guard_err (st_byte_limit t <? next)
            (structured_output_error TooLarge None
               "structured output exceeds the configured byte limit");
      put (mk_structured_terminal (st_format t) (st_limits t) (st_byte_limit t)
             (Some (buffer +:+ content)) (st_validated t))
  end.

Definition validate_before_done (finish : FinishReason) (has_tools has_refusal : bool)
  : M StructuredTerminal LlmError unit :=
  t ← get;
  _ ← guard_err (st_validated t)
        (protocol "structured terminal validation was attempted more than once");
  _ ← lift (validate_structured_response (st_format t) finish
              (default EmptyString (st_text_buffer t)) has_tools has_refusal (st_limits t));
  put (mk_structured_terminal (st_format t) (st_limits t) (st_byte_limit t)
         (st_text_buffer t) true).

(** ** Properties *)

(** What a format demands of the final JSON. *)
Definition format_accepts (format : ResponseFormat) (limits : SchemaLimits) (v : json) : Prop :=
  match format with
  | FText => False
  | FJsonObject => json_is_object v = true
  | FJsonSchema s => validate_instance (ss_schema s) v limits = Ok tt
  end.

(** Structured output is reported exactly when it was asked for, the
    generation stopped naturally with neither a tool call nor a refusal, and
    the whole text parses to a value the format accepts; and that value is the
    parse of the text. *)
Theorem structured_value_exact format finish text has_tool has_refusal limits v :
  validate_structured_response format finish text has_tool has_refusal limits = Ok (Some v) <->
  finish = FinishReason.Stop /\ has_tool = false /\ has_refusal = false /\
  from_str text = Ok v /\ format_accepts format limits v.
Proof.
  unfold validate_structured_response, format_accepts. split.
  - destruct format as [| |s]; [done|..];
      destruct finish, has_tool, has_refusal; simpl; try done;
      destruct (from_str text) as [p|]; try done.
    + destruct (json_is_object p) eqn:Hp; naive_solver.
    + destruct (validate_instance _ _ _) as [[]|] eqn:Hv; naive_solver.
  - intros (-> & -> & -> & -> & Hf). destruct format as [| |s]; simpl in *; [done|..].
    + by rewrite Hf.
    + by rewrite Hf.
Qed.

(** A successful validation without a value means the format was plain
    text, or the generation carries tool calls or a refusal instead of text:
    a structured format never silently yields nothing for an ordinary answer. *)
Theorem structured_none_exact format finish text has_tool has_refusal limits :
  validate_structured_response format finish text has_tool has_refusal limits = Ok None <->
  format = FText \/ finish = FinishReason.ToolCalls \/ has_tool = true \/ has_refusal = true.
Proof.
  unfold validate_structured_response. split.
  - destruct format as [| |s]; [auto|..];
      destruct finish, has_tool, has_refusal; simpl; auto;
      repeat case_match; naive_solver.
  - intros Hc. destruct format as [| |s]; [done|..];
      destruct Hc as [?|[->|[->| ->]]]; simplify_eq/=; try done;
      rewrite ?orb_true_r; repeat case_match; done.
Qed.

Lemma push_run limits fmt n cs : forall b,
  0 <= n <= USIZE_MAX -> str_len b <= n ->
  let t b := mk_structured_terminal fmt limits n (Some b) false in
  if str_len (b +:+ str_concat cs) <=? n
  then for_each push_answer_text cs (t b) = (t (b +:+ str_concat cs), Ok tt)
  else exists t' message,
    for_each push_answer_text cs (t b) = (t', Err (structured_output_error TooLarge None message)).
Proof.
  intros b Hn Hb t. revert b Hb. induction cs as [|c cs IH]; intros b Hb.
  - cbn [str_concat foldr for_each]. rewrite str_app_nil_r. by rewrite (proj2 (Z.leb_le _ _)).
  - cbn [str_concat foldr for_each]. fold (str_concat cs). rewrite str_app_assoc.
    pose proof (str_len_nonneg (str_concat cs)) as Hcs.
    assert (0 <= str_len b) by apply str_len_nonneg. assert (0 <= str_len c) by apply str_len_nonneg.
    assert (push_answer_text c (t b) =
      if n <? str_len b + str_len c
      then (t b, Err (structured_output_error TooLarge None
              (match usize_checked_add (str_len b) (str_len c) with
               | Some _ => "structured output exceeds the configured byte limit"
               | None => "structured output byte count overflowed"
               end)))
      else (t (b +:+ c), Ok tt)) as Hpush.
    { unfold push_answer_text, mbind, M_bind, get, lift, guard_err, put, throw. simpl.
      destruct (usize_checked_add _ _) as [next|] eqn:Hc; simpl.
      - apply checked_Some in Hc as [-> _]. by destruct (n <? _).
      - apply checked_None in Hc. rewrite (proj2 (Z.ltb_lt _ _)) by lia. done. }
    unfold mbind, M_bind. rewrite Hpush.
    destruct (Z.ltb_spec n (str_len b + str_len c)) as [Hgt|Hle].
    + rewrite (proj2 (Z.leb_gt _ _)) by (rewrite !str_len_app; lia). eauto.
    + apply (IH (b +:+ c)). rewrite str_len_app. lia.
Qed.

(** The accumulator of a structured response keeps exactly the text it was
    given, in order, while it fits the byte limit; the first fragment that
    would exceed the limit fails with [TooLarge], whatever the fragments. *)
Theorem structured_buffer_exact format limits n cs :
  format <> FText -> 0 <= n <= USIZE_MAX ->
  let run := for_each push_answer_text cs (structured_terminal_new format limits n) in
  if str_len (str_concat cs) <=? n
  then run = (mk_structured_terminal format limits n (Some (str_concat cs)) false, Ok tt)
  else exists t' message, run = (t', Err (structured_output_error TooLarge None message)).
Proof.
  intros Hf Hn run. pose proof (push_run limits format n cs EmptyString Hn) as Hrun.
  rewrite str_app_nil_l in Hrun. unfold run, structured_terminal_new.
  destruct format; [done|..]; apply Hrun; unfold str_len; simpl; lia.
Qed.

Lemma structured_buffer_exact_witness :
  let run := for_each push_answer_text ["{"; "}"]
               (structured_terminal_new FJsonObject schema_limits_official 2) in
  if str_len (str_concat ["{"; "}"]) <=? 2
  then run = (mk_structured_terminal FJsonObject schema_limits_official 2
                (Some (str_concat ["{"; "}"])) false, Ok tt)
  else exists t' message, run = (t', Err (structured_output_error TooLarge None message)).
Proof. apply (structured_buffer_exact FJsonObject); [done|split; done]. Defined.

Lemma push_answer_text_ok content t :
  wp_ok (push_answer_text content) (fun _ t' =>
    st_text_buffer t' = (fun b => b +:+ content) <$> st_text_buffer t /\
    st_format t' = st_format t /\ st_limits t' = st_limits t /\
    st_byte_limit t' = st_byte_limit t /\ st_validated t' = st_validated t) t.
Proof.
  unfold push_answer_text. wp_step. wp_step. destruct (st_text_buffer t) as [b|] eqn:Hb.
  - wp_step. wp_step. destruct (ok_or _ _) as [n|]; [|done]. wp_step. apply wp_guard; [done|].
    intros _. wp_step. done.
  - wp_step. by rewrite Hb.
Qed.

Lemma validate_before_done_ok finish has_tools has_refusal t :
  wp_ok (validate_before_done finish has_tools has_refusal)
    (fun _ t' => st_validated t = false /\ st_validated t' = true /\
       st_text_buffer t' = st_text_buffer t /\ st_format t' = st_format t /\
       st_limits t' = st_limits t /\ st_byte_limit t' = st_byte_limit t /\
       exists v, validate_structured_response (st_format t) finish
         (default EmptyString (st_text_buffer t)) has_tools has_refusal (st_limits t) = Ok v) t.
Proof.
  unfold validate_before_done. wp_step. wp_step. wp_step. wp_step. wp_step. wp_step.
  destruct (validate_structured_response _ _ _ _ _ _) as [v|e] eqn:Hv; [|done].
  wp_step. simpl. eauto 10.
Qed.
End Engine.
