(* ===== verification/Collector.v ===== *)
(** * Assistant events and the completion collector: [src/src/domain/event.rs]

    The public event vocabulary, the collector that folds a stream of events
    into one [AssistantMessage], and what a successful collection guarantees
    about the events it consumed. *)
From S2P Require Import Prelude Errors Usage Domain Structured.

(** ** Events *)
Module AssistantEvent.
Inductive t :=
| Start (local_request_id : string) (provider_request_id generation_id : option string)
| TextStart (index : Z)
| TextDelta (index : Z) (delta : string)
| TextEnd (index : Z)
| ThinkingStart (index : Z)
| ThinkingDelta (index : Z) (delta : string)
| ThinkingOpaque (index : Z) (opaque : OpaqueReasoning)
| ThinkingEnd (index : Z)
| RefusalStart (index : Z)
| RefusalDelta (index : Z) (delta : string)
| RefusalEnd (index : Z)
| ToolCallStart (index wire_index : Z) (id : option string)
| ToolCallDelta (index wire_index : Z) (name_delta arguments_delta : option string)
| ToolCallEnd (index : Z) (call : ToolCall)
| Usage (u : Usage.Usage)
| DetailedUsage (d : UsageDetails)
| Done (finish_reason : FinishReason).
End AssistantEvent.
Abbreviation AssistantEvent := AssistantEvent.t.

Record AssistantMessage := mk_assistant_message {
  am_content : list ContentPart;
  am_text : string;
  am_usage : option Usage.Usage;
  am_usage_details : option UsageDetails;
  am_structured_output : option json;
  am_finish_reason : FinishReason;
  am_local_request_id : option string;
  am_provider_request_id : option string;
  am_generation_id : option string;
  am_model : option ModelRef }.

Inductive OpenBlock :=
| OText (text : string)
| OThinking (text : string) (opaque : option OpaqueReasoning)
| ORefusal (text : string)
| OToolCall (wire_index : Z) (id : option string) (name arguments : string).

Record Collector := mk_collector {
  c_started : bool;
  c_done : bool;
  c_next_content_index : Z;
  c_open : gmap Z OpenBlock;
  c_content : gmap Z ContentPart;
  c_tool_wire_indexes : gset Z;
  c_tool_call_ids : gset string;
  c_usage : option Usage.Usage;
  c_usage_details : option UsageDetails;
  c_finish_reason : option FinishReason;
  c_local_request_id : option string;
  c_provider_request_id : option string;
  c_generation_id : option string }.

Definition collector_default : Collector :=
  mk_collector false false 0 ∅ ∅ ∅ ∅ None None None None None None.

(** Updates of one or two fields. *)
Definition set_blocks (next : Z) (open : gmap Z OpenBlock) (content : gmap Z ContentPart)
    (c : Collector) : Collector :=
  mk_collector (c_started c) (c_done c) next open content (c_tool_wire_indexes c)
    (c_tool_call_ids c) (c_usage c) (c_usage_details c) (c_finish_reason c)
    (c_local_request_id c) (c_provider_request_id c) (c_generation_id c).
Definition set_open (open : gmap Z OpenBlock) (c : Collector) : Collector :=
  set_blocks (c_next_content_index c) open (c_content c) c.
Definition set_tools (wires : gset Z) (ids : gset string) (c : Collector) : Collector :=
  mk_collector (c_started c) (c_done c) (c_next_content_index c) (c_open c) (c_content c) wires
    ids (c_usage c) (c_usage_details c) (c_finish_reason c)
    (c_local_request_id c) (c_provider_request_id c) (c_generation_id c).
Definition set_usages (u : option Usage.Usage) (d : option UsageDetails) (c : Collector)
  : Collector :=
  mk_collector (c_started c) (c_done c) (c_next_content_index c) (c_open c) (c_content c)
    (c_tool_wire_indexes c) (c_tool_call_ids c) u d (c_finish_reason c)
    (c_local_request_id c) (c_provider_request_id c) (c_generation_id c).

(** The collector is dropped when an event is rejected, so [accept] returns the
    next state or the error. *)
Abbreviation step := (result LlmError Collector).

Definition start_block (index : Z) (block : OpenBlock) (c : Collector) : step :=
  if negb (index =? c_next_content_index c)
     || bool_decide (is_Some (c_open c !! index)) || bool_decide (is_Some (c_content c !! index))
  then Err (protocol "content blocks must start once in contiguous ContentIndex order")
  else
    next ← ok_or (u32_checked_add (c_next_content_index c) 1) (protocol "content index overflow");
    Ok (set_blocks next (<[index := block]> (c_open c)) (c_content c) c).

(** [index] was removed from the open blocks by the caller. *)
Definition end_block (index : Z) (part : ContentPart) (c : Collector) : step :=
  match c_content c !! index with
  | Some _ => Err (protocol "duplicate content block end")
  | None => Ok (set_blocks (c_next_content_index c) (c_open c) (<[index := part]> (c_content c)) c)
  end.

Definition accept_text_delta (index : Z) (delta : string) (c : Collector) : step :=
  match c_open c !! index with
  | Some (OText text) => Ok (set_open (<[index := OText (text +:+ delta)]> (c_open c)) c)
  | _ => Err (protocol "TextDelta requires a matching TextStart")
  end.
Definition accept_text_end (index : Z) (c : Collector) : step :=
  match c_open c !! index with
  | Some (OText text) => end_block index (PText text) (set_open (delete index (c_open c)) c)
  | _ => Err (protocol "TextEnd requires a matching TextStart")
  end.
Definition accept_thinking_delta (index : Z) (delta : string) (c : Collector) : step :=
  match c_open c !! index with
  | Some (OThinking text o) => Ok (set_open (<[index := OThinking (text +:+ delta) o]> (c_open c)) c)
  | _ => Err (protocol "ThinkingDelta requires a matching ThinkingStart")
  end.
Definition accept_thinking_opaque (index : Z) (opaque : OpaqueReasoning) (c : Collector) : step :=
  match c_open c !! index with
  | Some (OThinking text None) =>
      Ok (set_open (<[index := OThinking text (Some opaque)]> (c_open c)) c)
  | Some (OThinking _ (Some _)) =>
      Err (protocol "thinking block received duplicate opaque state")
  | _ => Err (protocol "ThinkingOpaque requires a matching ThinkingStart")
  end.
Definition accept_thinking_end (index : Z) (c : Collector) : step :=
  match c_open c !! index with
  | Some (OThinking text o) =>
      let thinking := thinking_new text in
      let thinking := match o with Some o => with_opaque thinking o | None => thinking end in
      end_block index (PThinking thinking) (set_open (delete index (c_open c)) c)
  | _ => Err (protocol "ThinkingEnd requires a matching ThinkingStart")
  end.
Definition accept_refusal_delta (index : Z) (delta : string) (c : Collector) : step :=
  match c_open c !! index with
  | Some (ORefusal text) => Ok (set_open (<[index := ORefusal (text +:+ delta)]> (c_open c)) c)
  | _ => Err (protocol "RefusalDelta requires a matching RefusalStart")
  end.
Definition accept_refusal_end (index : Z) (c : Collector) : step :=
  match c_open c !! index with
  | Some (ORefusal text) => end_block index (PRefusal text) (set_open (delete index (c_open c)) c)
  | _ => Err (protocol "RefusalEnd requires a matching RefusalStart")
  end.

Definition accept_tool_start (index wire_index : Z) (id : option string) (c : Collector) : step :=
  if bool_decide (wire_index ∈ c_tool_wire_indexes c)
  then Err (protocol "duplicate tool wire index")
  else if match id with Some id => bool_decide (id ∈ c_tool_call_ids c) | None => false end
  then Err (protocol "duplicate tool call id")
  else start_block index (OToolCall wire_index id EmptyString EmptyString)
         (set_tools ({[wire_index]} ∪ c_tool_wire_indexes c)
            (match id with Some id => {[id]} ∪ c_tool_call_ids c | None => c_tool_call_ids c end) c).

Definition push_opt (s : string) (delta : option string) : string :=
  match delta with Some d => s +:+ d | None => s end.

Definition accept_tool_delta (index wire_index : Z) (name_delta arguments_delta : option string)
    (c : Collector) : step :=
  match c_open c !! index with
  | Some (OToolCall expected id name arguments) =>
      if negb (expected =? wire_index) then Err (protocol "ToolCallDelta wire index changed")
      else Ok (set_open (<[index := OToolCall expected id (push_opt name name_delta)
                                      (push_opt arguments arguments_delta)]> (c_open c)) c)
  | _ => Err (protocol "ToolCallDelta requires a matching ToolCallStart")
  end.

Definition accept_tool_end (index : Z) (call : ToolCall) (c : Collector) : step :=
  match c_open c !! index with
  | Some (OToolCall _ id name arguments) =>
      let c := set_open (delete index (c_open c)) c in
      if match id with Some id => negb (str_eqb id (tc_id call)) | None => false end
      then Err (protocol "ToolCallEnd changed the tool call id")
      else if match id with None => bool_decide (tc_id call ∈ c_tool_call_ids c) | Some _ => false end
      then Err (protocol "duplicate tool call id")
      else
        let c := match id with
                 | None => set_tools (c_tool_wire_indexes c) ({[tc_id call]} ∪ c_tool_call_ids c) c
                 | Some _ => c
                 end in
        if negb (str_eqb name (tc_name call)) then Err (protocol "ToolCallEnd changed the tool name")
        else if negb (str_eqb arguments (raw_json (tc_arguments call)))
        then Err (protocol "ToolCallEnd changed tool arguments")
        else end_block index (PToolCall call) c
  | _ => Err (protocol "ToolCallEnd requires a matching ToolCallStart")
  end.

Definition has_tool_call (content : gmap Z ContentPart) : bool :=
  existsb is_tool_call (btree_values content).

Definition accept_done (finish : FinishReason) (c : Collector) : step :=
  if negb (bool_decide (c_open c = ∅))
  then Err (protocol "Done received with an incomplete content block")
  else if bool_decide (c_content c = ∅)
  then Err (protocol "Done requires at least one completed content block")
  else if negb (Bool.eqb (bool_decide (finish = FinishReason.ToolCalls)) (has_tool_call (c_content c)))
  then Err (protocol "ToolCalls finish reason and collected tool calls disagree")
  else Ok (mk_collector (c_started c) true (c_next_content_index c) (c_open c) (c_content c)
             (c_tool_wire_indexes c) (c_tool_call_ids c) (c_usage c) (c_usage_details c)
             (Some finish) (c_local_request_id c) (c_provider_request_id c) (c_generation_id c)).

Definition accept_usage (u : Usage.Usage) (c : Collector) : step :=
  match c_usage c with
  | Some previous => if bool_decide (previous = u) then Ok c else Err (protocol "conflicting Usage events")
  | None => Ok (set_usages (Some u) (c_usage_details c) c)
  end.
Definition accept_detailed (d : UsageDetails) (c : Collector) : step :=
  match c_usage_details c with
  | Some previous =>
      if bool_decide (previous = d) then Ok c else Err (protocol "conflicting DetailedUsage events")
  | None => Ok (set_usages (c_usage c) (Some d) c)
  end.

Definition accept_start (local : string) (provider generation : option string) (c : Collector)
  : step :=
  if c_started c || negb (c_next_content_index c =? 0)
  then Err (protocol "duplicate or late Start")
  else Ok (mk_collector true (c_done c) (c_next_content_index c) (c_open c) (c_content c)
             (c_tool_wire_indexes c) (c_tool_call_ids c) (c_usage c) (c_usage_details c)
             (c_finish_reason c) (Some local) provider generation).

Definition accept (event : AssistantEvent) (c : Collector) : step :=
  if c_done c then Err (protocol "event received after Done")
  else
    match event with
    | AssistantEvent.Start l p g => accept_start l p g c
    | AssistantEvent.TextStart i => start_block i (OText EmptyString) c
    | AssistantEvent.TextDelta i d => accept_text_delta i d c
    | AssistantEvent.TextEnd i => accept_text_end i c
    | AssistantEvent.ThinkingStart i => start_block i (OThinking EmptyString None) c
    | AssistantEvent.ThinkingDelta i d => accept_thinking_delta i d c
    | AssistantEvent.ThinkingOpaque i o => accept_thinking_opaque i o c
    | AssistantEvent.ThinkingEnd i => accept_thinking_end i c
    | AssistantEvent.RefusalStart i => start_block i (ORefusal EmptyString) c
    | AssistantEvent.RefusalDelta i d => accept_refusal_delta i d c
    | AssistantEvent.RefusalEnd i => accept_refusal_end i c
    | AssistantEvent.ToolCallStart i w id => accept_tool_start i w id c
    | AssistantEvent.ToolCallDelta i w n a => accept_tool_delta i w n a c
    | AssistantEvent.ToolCallEnd i call => accept_tool_end i call c
    | AssistantEvent.Usage u => accept_usage u c
    | AssistantEvent.DetailedUsage d => accept_detailed d c
    | AssistantEvent.Done f => accept_done f c
    end.

Definition finish (c : Collector) : result LlmError AssistantMessage :=
  if negb (c_done c) then Err LlmError.TruncatedStream
  else
    match c_finish_reason c with
    | None => Err LlmError.TruncatedStream
    | Some reason =>
        let content := btree_values (c_content c) in
        Ok (mk_assistant_message content (str_concat (omap text_value content)) (c_usage c)
              (c_usage_details c) None reason (c_local_request_id c)
              (c_provider_request_id c) (c_generation_id c) None)
    end.

(** The loop of [collect_assistant_message_for_format] over the items of the
    stream. *)
Fixpoint accept_items (items : list (result LlmError AssistantEvent)) (c : Collector) : step :=
  match items with
  | [] => Ok c
  | item :: items => e ← item; c ← accept e c; accept_items items c
  end.

Section Collect.
Context {JS : JsonSyntax} {SE : SchemaEngine}.

Definition validate_structured_output (m : AssistantMessage) (format : ResponseFormat)
  : result LlmError (option json) :=
  validate_structured_response format (am_finish_reason m) (am_text m)
    (existsb is_tool_call (am_content m)) (existsb is_refusal (am_content m))
    schema_limits_official.

Definition with_structured_output (v : option json) (m : AssistantMessage) : AssistantMessage :=
  mk_assistant_message (am_content m) (am_text m) (am_usage m) (am_usage_details m) v
    (am_finish_reason m) (am_local_request_id m) (am_provider_request_id m)
    (am_generation_id m) (am_model m).

Definition collect_assistant_message_for_format
    (items : list (result LlmError AssistantEvent)) (format : ResponseFormat)
  : result LlmError AssistantMessage :=
  c ← accept_items items collector_default;
  m ← finish c;
  v ← validate_structured_output m format;
  Ok (with_structured_output v m).

Definition collect_assistant_message (items : list (result LlmError AssistantEvent))
  : result LlmError AssistantMessage :=
  collect_assistant_message_for_format items FText.
End Collect.

(** ** Accepting events one after the other *)
Fixpoint accept_all (evs : list AssistantEvent) (c : Collector) : result LlmError Collector :=
  match evs with
  | [] => Ok c
  | e :: evs => c' ← accept e c; accept_all evs c'
  end.

Lemma accept_all_app evs1 evs2 c :
  accept_all (evs1 ++ evs2) c = (c' ← accept_all evs1 c; accept_all evs2 c').
Proof.
  revert c. induction evs1 as [|e evs1 IH]; intros c; simpl; [done|].
  destruct (accept e c); simpl; [apply IH|done].
Qed.

Lemma accept_items_all evs c : accept_items (map Ok evs) c = accept_all evs c.
Proof.
  revert c. induction evs as [|e evs IH]; intros c; simpl; [done|].
  destruct (accept e c); simpl; [apply IH|done].
Qed.

Lemma start_block_fresh i b c :
  i = c_next_content_index c -> i + 1 <= U32_MAX -> 0 <= i ->
  (forall j b, c_open c !! j = Some b -> 0 <= j < i) ->
  (forall j p, c_content c !! j = Some p -> 0 <= j < i) ->
  start_block i b c = Ok (set_blocks (i + 1) (<[i := b]> (c_open c)) (c_content c) c).
Proof.
  intros -> Hmax Hpos Ho Hc. unfold start_block. rewrite Z.eqb_refl. cbn [negb orb].
  rewrite bool_decide_eq_false_2 by (intros [b' Hb']; apply Ho in Hb'; lia).
  rewrite bool_decide_eq_false_2 by (intros [b' Hb']; apply Hc in Hb'; lia). cbn [orb].
  unfold u32_checked_add. rewrite (proj2 (checked_Some 0 U32_MAX _ _)) by (split; [done|lia]). done.
Qed.

Lemma accept_one e c c' : c_done c = false -> accept e c = Ok c' -> accept_all [e] c = Ok c'.
Proof. intros _ H. simpl. by rewrite H. Qed.

Lemma existsb_content f (content : gmap Z ContentPart) :
  existsb f (btree_values content) = true <-> exists i p, content !! i = Some p /\ f p = true.
Proof.
  rewrite List.existsb_exists. split.
  - intros (p & Hin%list_elem_of_In & Hf). apply elem_of_btree_values in Hin as [i Hi]. eauto.
  - intros (i & p & Hi & Hf). exists p. split; [|done]. apply list_elem_of_In, elem_of_btree_values. eauto.
Qed.
