(* ===== verification/CollectorSpec.v ===== *)
(** * What a collected message says about its events

    A declarative reading of an event transcript (which blocks it starts, the
    deltas of each block) and the proof that [Collector] computes it: the
    invariant that ties the collector's maps to the events consumed so far,
    preserved by every [accept], and the resulting specification of
    [collect_assistant_message]. *)
From S2P Require Import Prelude Errors Usage Domain Structured Collector.
Import AssistantEvent.

(** ** Reading a transcript *)
Inductive block_kind := KText | KThinking | KRefusal | KTool (wire : Z) (id : option string).

Definition block_start (e : AssistantEvent) : option (Z * block_kind) :=
  match e with
  | TextStart i => Some (i, KText)
  | ThinkingStart i => Some (i, KThinking)
  | RefusalStart i => Some (i, KRefusal)
  | ToolCallStart i w id => Some (i, KTool w id)
  | _ => None
  end.
Definition block_starts (evs : list AssistantEvent) : list (Z * block_kind) := omap block_start evs.

(** The block an event belongs to. *)
Definition event_index (e : AssistantEvent) : option Z :=
  match e with
  | TextStart i | TextDelta i _ | TextEnd i | ThinkingStart i | ThinkingDelta i _
  | ThinkingOpaque i _ | ThinkingEnd i | RefusalStart i | RefusalDelta i _ | RefusalEnd i
  | ToolCallStart i _ _ | ToolCallDelta i _ _ _ | ToolCallEnd i _ => Some i
  | _ => None
  end.

Definition own_text (e : AssistantEvent) : string :=
  match e with TextDelta _ d | ThinkingDelta _ d | RefusalDelta _ d => d | _ => EmptyString end.
Definition own_name (e : AssistantEvent) : string :=
  match e with ToolCallDelta _ _ (Some n) _ => n | _ => EmptyString end.
Definition own_arguments (e : AssistantEvent) : string :=
  match e with ToolCallDelta _ _ _ (Some a) => a | _ => EmptyString end.

Definition at_index (i : Z) (f : AssistantEvent -> string) (e : AssistantEvent) : string :=
  if bool_decide (event_index e = Some i) then f e else EmptyString.
Definition gather (f : AssistantEvent -> string) (evs : list AssistantEvent) (i : Z) : string :=
  str_concat (map (at_index i f) evs).
Definition text_at := gather own_text.
Definition name_at := gather own_name.
Definition arguments_at := gather own_arguments.
Definition opaque_at (evs : list AssistantEvent) (i : Z) : list OpaqueReasoning :=
  omap (fun e => match e with
                 | ThinkingOpaque j o => if bool_decide (j = i) then Some o else None
                 | _ => None end) evs.

(** The content part at [i] is what the events of block [i] spell out. *)
Definition part_matches (evs : list AssistantEvent) (i : Z) (p : ContentPart) : Prop :=
  match p with
  | PText s => (i, KText) ∈ block_starts evs /\ s = text_at evs i
  | PThinking t =>
      (i, KThinking) ∈ block_starts evs /\ tc_text t = text_at evs i /\
      opaque_at evs i = option_list (tc_opaque t)
  | PRefusal s => (i, KRefusal) ∈ block_starts evs /\ s = text_at evs i
  | PToolCall call =>
      (exists w id, (i, KTool w id) ∈ block_starts evs /\ (id = None \/ id = Some (tc_id call))) /\
      tc_name call = name_at evs i /\ raw_json (tc_arguments call) = arguments_at evs i /\
      ToolCallEnd i call ∈ evs
  | PImage _ => False
  end.

Definition call_id (p : ContentPart) : option string :=
  match p with PToolCall call => Some (tc_id call) | _ => None end.

Definition text_indexes (evs : list AssistantEvent) : list Z :=
  omap (fun s : Z * block_kind => match s.2 with KText => Some s.1 | _ => None end)
    (block_starts evs).

(** The message a transcript denotes. *)
Definition describes (evs : list AssistantEvent) (m : AssistantMessage) : Prop :=
  map fst (block_starts evs) = map Z.of_nat (seq 0 (length (am_content m))) /\
  (forall i p, am_content m !! i = Some p -> part_matches evs (Z.of_nat i) p) /\
  am_text m = str_concat (map (text_at evs) (text_indexes evs)) /\
  NoDup (omap call_id (am_content m)) /\
  (am_finish_reason m = FinishReason.ToolCalls <-> Exists (fun p => is_tool_call p = true) (am_content m)) /\
  am_content m <> [] /\
  exists evs', evs = evs' ++ [Done (am_finish_reason m)] /\
    Forall (fun e => match e with Done _ => False | _ => True end) evs'.

(** ** The invariant *)
Definition open_matches (evs : list AssistantEvent) (i : Z) (b : OpenBlock) : Prop :=
  match b with
  | OText s => (i, KText) ∈ block_starts evs /\ s = text_at evs i
  | OThinking s o =>
      (i, KThinking) ∈ block_starts evs /\ s = text_at evs i /\ opaque_at evs i = option_list o
  | ORefusal s => (i, KRefusal) ∈ block_starts evs /\ s = text_at evs i
  | OToolCall w id n a =>
      (i, KTool w id) ∈ block_starts evs /\ n = name_at evs i /\ a = arguments_at evs i
  end.

Record blocks_ok (evs : list AssistantEvent) (next : Z) (open : gmap Z OpenBlock)
    (content : gmap Z ContentPart) : Prop := {
  bo_next : 0 <= next;
  bo_starts : map fst (block_starts evs) = map Z.of_nat (seq 0 (Z.to_nat next));
  bo_dom : forall i, (is_Some (open !! i) \/ is_Some (content !! i)) <-> 0 <= i < next;
  bo_disj : forall i b, open !! i = Some b -> content !! i = None;
  bo_open : forall i b, open !! i = Some b -> open_matches evs i b;
  bo_content : forall i p, content !! i = Some p -> part_matches evs i p;
  bo_fresh : Forall (fun e => forall i, event_index e = Some i -> i < next) evs }.

Lemma gather_snoc f evs e i : gather f (evs ++ [e]) i = gather f evs i +:+ at_index i f e.
Proof.
  unfold gather. rewrite map_app, str_concat_app. simpl. by rewrite str_app_nil_r.
Qed.

Lemma block_starts_snoc evs e :
  block_starts (evs ++ [e]) = block_starts evs ++ option_list (block_start e).
Proof. unfold block_starts. rewrite omap_app. simpl. by destruct (block_start e). Qed.

Lemma gather_other f evs e i : event_index e <> Some i -> gather f (evs ++ [e]) i = gather f evs i.
Proof.
  intros Hne. rewrite gather_snoc. unfold at_index. rewrite bool_decide_eq_false_2 by done.
  apply str_app_nil_r.
Qed.

Lemma gather_own f evs e i :
  event_index e = Some i -> gather f (evs ++ [e]) i = gather f evs i +:+ f e.
Proof. intros He. rewrite gather_snoc. unfold at_index. by rewrite bool_decide_eq_true_2. Qed.

Lemma gather_fresh f evs i :
  Forall (fun e => forall j, event_index e = Some j -> j < i) evs -> gather f evs i = EmptyString.
Proof.
  induction 1 as [|e evs He _ IH]; [done|]. unfold gather in *. cbn [map str_concat foldr].
  fold (str_concat (map (at_index i f) evs)). rewrite IH, str_app_nil_r. unfold at_index.
  case_bool_decide as Hi; [|done]. apply He in Hi. lia.
Qed.

Lemma opaque_snoc evs e i :
  opaque_at (evs ++ [e]) i = opaque_at evs i ++ opaque_at [e] i.
Proof. unfold opaque_at. apply omap_app. Qed.

Lemma opaque_other evs e i : event_index e <> Some i -> opaque_at (evs ++ [e]) i = opaque_at evs i.
Proof.
  intros Hne. rewrite opaque_snoc. unfold opaque_at at 2. destruct e; simpl; rewrite ?app_nil_r; try done.
  rewrite bool_decide_eq_false_2 by (intros ->; done). simpl. apply app_nil_r.
Qed.

Lemma opaque_plain evs e i :
  (forall j o, e <> ThinkingOpaque j o) -> opaque_at (evs ++ [e]) i = opaque_at evs i.
Proof.
  intros He. rewrite opaque_snoc. destruct e; try apply app_nil_r. by edestruct He.
Qed.

Lemma opaque_fresh evs i :
  Forall (fun e => forall j, event_index e = Some j -> j < i) evs -> opaque_at evs i = [].
Proof.
  induction 1 as [|e evs He _ IH]; [done|]. unfold opaque_at in *. simpl.
  destruct e as [| | | | | |j o| | | | | | | | | |]; try done.
  rewrite bool_decide_eq_false_2; [done|]. intros ->. specialize (He i eq_refl). lia.
Qed.

(** Events of other blocks leave a block's reading alone. *)
Lemma block_starts_mono evs e x : x ∈ block_starts evs -> x ∈ block_starts (evs ++ [e]).
Proof. rewrite block_starts_snoc. set_solver. Qed.

Lemma open_matches_other evs e i b :
  event_index e <> Some i -> open_matches evs i b -> open_matches (evs ++ [e]) i b.
Proof.
  intros Hne. unfold open_matches, text_at, name_at, arguments_at.
  destruct b; rewrite ?gather_other, ?opaque_other by done; naive_solver auto using block_starts_mono.
Qed.

Lemma part_matches_other evs e i p :
  event_index e <> Some i -> part_matches evs i p -> part_matches (evs ++ [e]) i p.
Proof.
  intros Hne. unfold part_matches, text_at, name_at, arguments_at.
  destruct p as [s|im|t|s|call]; rewrite ?gather_other, ?opaque_other by done;
    [naive_solver auto using block_starts_mono..|].
  intros ((w & id & Hin & Hid) & -> & -> & Hend). split_and!; try done.
  - exists w, id. auto using block_starts_mono.
  - set_solver.
Qed.

(** ** Preservation, by kind of event *)
Section Blocks.
Context (evs : list AssistantEvent) (next : Z) (open : gmap Z OpenBlock)
  (content : gmap Z ContentPart).
Hypothesis Hok : blocks_ok evs next open content.

Lemma blocks_other e :
  event_index e = None -> block_start e = None -> blocks_ok (evs ++ [e]) next open content.
Proof.
  intros He Hs. destruct Hok. split; try done.
  - by rewrite block_starts_snoc, Hs, app_nil_r.
  - intros i b Hb. apply open_matches_other; [by rewrite He|eauto].
  - intros i p Hp. apply part_matches_other; [by rewrite He|eauto].
  - apply Forall_app. split; [done|]. repeat constructor. by rewrite He.
Qed.

Lemma blocks_start e k b :
  block_start e = Some (next, k) -> event_index e = Some next ->
  own_text e = EmptyString -> own_name e = EmptyString -> own_arguments e = EmptyString ->
  opaque_at [e] next = [] ->
  (forall evs', (next, k) ∈ block_starts evs' -> text_at evs' next = EmptyString ->
     name_at evs' next = EmptyString -> arguments_at evs' next = EmptyString ->
     opaque_at evs' next = [] -> open_matches evs' next b) ->
  blocks_ok (evs ++ [e]) (next + 1) (<[next := b]> open) content.
Proof.
  intros Hs He Ht Hn Ha Ho Hb. destruct Hok as [H0 H1 H2 H3 H4 H5 H6].
  assert (open !! next = None /\ content !! next = None) as [Hno Hnc].
  { specialize (H2 next). rewrite !eq_None_not_Some. naive_solver lia. }
  split.
  - lia.
  - rewrite block_starts_snoc, Hs. simpl. rewrite map_app, H1. simpl.
    replace (Z.to_nat (next + 1)) with (S (Z.to_nat next)) by lia.
    rewrite seq_S, map_app. simpl. by rewrite Z2Nat.id.
  - intros i. rewrite lookup_insert_is_Some. specialize (H2 i).
    destruct (decide (next = i)) as [->|]; [naive_solver lia|]. naive_solver lia.
  - intros i b' Hi. destruct (decide (next = i)) as [->|]; [done|].
    rewrite lookup_insert_ne in Hi by done. eauto.
  - intros i b' Hi. destruct (decide (next = i)) as [<-|Hne].
    + rewrite lookup_insert_eq in Hi. injection Hi as <-. apply Hb.
      * rewrite block_starts_snoc, Hs. set_solver.
      * unfold text_at. rewrite gather_own, gather_fresh by done. by rewrite Ht.
      * unfold name_at. rewrite gather_own, gather_fresh by done. by rewrite Hn.
      * unfold arguments_at. rewrite gather_own, gather_fresh by done. by rewrite Ha.
      * by rewrite opaque_snoc, Ho, opaque_fresh.
    + rewrite lookup_insert_ne in Hi by done. apply open_matches_other; [congruence|eauto].
  - intros i p Hi. apply part_matches_other; [|eauto]. rewrite He. intros [= <-]. congruence.
  - apply Forall_app. split.
    + eapply Forall_impl; [exact H6|]. intros e' He' i Hi. apply He' in Hi. lia.
    + repeat constructor. rewrite He. intros i [= <-]. lia.
Qed.

Lemma blocks_delta e i b b' :
  event_index e = Some i -> block_start e = None -> open !! i = Some b ->
  open_matches (evs ++ [e]) i b' ->
  blocks_ok (evs ++ [e]) next (<[i := b']> open) content.
Proof.
  intros He Hs Hi Hb. destruct Hok as [H0 H1 H2 H3 H4 H5 H6].
  assert (0 <= i < next) as Hr by (apply H2; left; eauto). split.
  - done.
  - by rewrite block_starts_snoc, Hs, app_nil_r.
  - intros j. rewrite lookup_insert_is_Some. specialize (H2 j).
    destruct (decide (i = j)) as [->|]; naive_solver.
  - intros j b0 Hj. destruct (decide (i = j)) as [<-|]; [eauto|].
    rewrite lookup_insert_ne in Hj by done. eauto.
  - intros j b0 Hj. destruct (decide (i = j)) as [<-|].
    + rewrite lookup_insert_eq in Hj. by injection Hj as <-.
    + rewrite lookup_insert_ne in Hj by done. apply open_matches_other; [congruence|eauto].
  - intros j p Hj. apply part_matches_other; [|eauto]. rewrite He. intros [= <-].
    apply H3 in Hi. congruence.
  - apply Forall_app. split; [done|]. repeat constructor. rewrite He. intros j [= <-]. lia.
Qed.

Lemma blocks_end e i b p :
  event_index e = Some i -> block_start e = None -> open !! i = Some b ->
  part_matches (evs ++ [e]) i p ->
  blocks_ok (evs ++ [e]) next (delete i open) (<[i := p]> content).
Proof.
  intros He Hs Hi Hp. destruct Hok as [H0 H1 H2 H3 H4 H5 H6].
  assert (0 <= i < next) as Hr by (apply H2; left; eauto). split.
  - done.
  - by rewrite block_starts_snoc, Hs, app_nil_r.
  - intros j. rewrite lookup_insert_is_Some, lookup_delete_is_Some. specialize (H2 j).
    destruct (decide (i = j)) as [->|]; naive_solver.
  - intros j b0 Hj. apply lookup_delete_Some in Hj as [Hne Hj].
    rewrite lookup_insert_ne by done. eauto.
  - intros j b0 Hj. apply lookup_delete_Some in Hj as [Hne Hj].
    apply open_matches_other; [congruence|eauto].
  - intros j q Hj. destruct (decide (i = j)) as [<-|].
    + rewrite lookup_insert_eq in Hj. by injection Hj as <-.
    + rewrite lookup_insert_ne in Hj by done. apply part_matches_other; [congruence|eauto].
  - apply Forall_app. split; [done|]. repeat constructor. rewrite He. intros j [= <-]. lia.
Qed.
End Blocks.

(** Identifiers of tool calls, open and completed. *)
Definition open_id (b : OpenBlock) : option string :=
  match b with OToolCall _ id _ _ => id | _ => None end.
Definition holds_id (open : gmap Z OpenBlock) (content : gmap Z ContentPart) (i : Z) (x : string)
  : Prop :=
  (open !! i ≫= open_id) = Some x \/ (content !! i ≫= call_id) = Some x.
Definition ids_ok (open : gmap Z OpenBlock) (content : gmap Z ContentPart) (ids : gset string)
  : Prop :=
  (forall i x, holds_id open content i x -> x ∈ ids) /\
  (forall i j x, holds_id open content i x -> holds_id open content j x -> i = j).

Definition no_done (evs : list AssistantEvent) : Prop :=
  Forall (fun e => match e with Done _ => False | _ => True end) evs.

(** The collector after consuming [evs]. *)
Definition collected (evs : list AssistantEvent) (c : Collector) : Prop :=
  blocks_ok evs (c_next_content_index c) (c_open c) (c_content c) /\
  ids_ok (c_open c) (c_content c) (c_tool_call_ids c) /\
  if c_done c
  then exists f evs', evs = evs' ++ [Done f] /\ no_done evs' /\ c_finish_reason c = Some f /\
         c_open c = ∅ /\ c_content c <> ∅ /\
         bool_decide (f = FinishReason.ToolCalls) = has_tool_call (c_content c)
  else no_done evs.

Lemma collected_default : collected [] collector_default.
Proof.
  split_and!; [|split|constructor].
  - split; simpl; try done. intros i. rewrite !lookup_empty. split; [|lia].
    intros [[]|[]]; done.
  - intros i x. unfold holds_id. simpl. rewrite !lookup_empty. by intros [].
  - intros i j x. unfold holds_id. simpl. rewrite !lookup_empty. by intros [].
Qed.

(** An update that keeps every held id keeps the id invariant. *)
Lemma ids_ok_sub open content open' content' ids :
  (forall i x, holds_id open' content' i x -> holds_id open content i x) ->
  ids_ok open content ids -> ids_ok open' content' ids.
Proof. intros Hsub [H1 H2]. split; eauto. Qed.

(** An update that lets block [i] hold the new id [x] as well. *)
Lemma ids_ok_add open content open' content' ids i x :
  x ∉ ids ->
  (forall j y, holds_id open' content' j y -> holds_id open content j y \/ (j = i /\ y = x)) ->
  ids_ok open content ids -> ids_ok open' content' ({[x]} ∪ ids).
Proof.
  intros Hx Hsub [H1 H2]. split.
  - intros j y Hy. destruct (Hsub j y Hy) as [Hy'|[-> ->]]; set_solver.
  - intros j k y Hj Hk.
    destruct (Hsub j y Hj) as [Hj'|[-> ->]], (Hsub k _ Hk) as [Hk'|[-> Hy]]; [eauto|..|done];
      subst; exfalso; eauto.
Qed.

Lemma holds_insert_open open content i b j x :
  holds_id (<[i := b]> open) content j x ->
  holds_id open content j x \/ (j = i /\ open_id b = Some x).
Proof.
  unfold holds_id. destruct (decide (i = j)) as [->|].
  - rewrite lookup_insert_eq. simpl. naive_solver.
  - rewrite lookup_insert_ne by done. naive_solver.
Qed.

Lemma holds_end open content i p j x :
  holds_id (delete i open) (<[i := p]> content) j x ->
  holds_id open content j x \/ (j = i /\ call_id p = Some x).
Proof.
  unfold holds_id. destruct (decide (i = j)) as [->|].
  - rewrite lookup_insert_eq, lookup_delete_eq. simpl. naive_solver.
  - rewrite lookup_insert_ne, lookup_delete_ne by done. naive_solver.
Qed.

Lemma start_block_ok i b c c' :
  start_block i b c = Ok c' ->
  i = c_next_content_index c /\
  c' = set_blocks (i + 1) (<[i := b]> (c_open c)) (c_content c) c /\ i + 1 <= U32_MAX.
Proof.
  unfold start_block. destruct (i =? _) eqn:Hi; simpl; [|done]. apply Z.eqb_eq in Hi as ->.
  case_match; [done|]. unfold ok_or. destruct (u32_checked_add _ _) as [n|] eqn:Hn; [|done].
  apply checked_Some in Hn as [-> Hr]. simpl. intros [= <-]. split_and!; [done..|lia].
Qed.

Lemma end_block_ok i p c c' :
  end_block i p c = Ok c' ->
  c' = set_blocks (c_next_content_index c) (c_open c) (<[i := p]> (c_content c)) c.
Proof. unfold end_block. destruct (_ !! _); naive_solver. Qed.

(** The three shapes an accepted block event leaves behind. *)
Lemma collected_start evs c e k b ids wires :
  collected evs c -> c_done c = false ->
  let i := c_next_content_index c in
  block_start e = Some (i, k) -> event_index e = Some i ->
  own_text e = EmptyString -> own_name e = EmptyString -> own_arguments e = EmptyString ->
  opaque_at [e] i = [] ->
  (forall evs', (i, k) ∈ block_starts evs' -> text_at evs' i = EmptyString ->
     name_at evs' i = EmptyString -> arguments_at evs' i = EmptyString ->
     opaque_at evs' i = [] -> open_matches evs' i b) ->
  match open_id b with
  | Some x => x ∉ c_tool_call_ids c /\ ids = {[x]} ∪ c_tool_call_ids c
  | None => ids = c_tool_call_ids c
  end ->
  collected (evs ++ [e]) (set_blocks (i + 1) (<[i := b]> (c_open c)) (c_content c)
                            (set_tools wires ids c)).
Proof.
  intros (Hb & Hi & Hd) Hnd i Hs He H1 H2 H3 H4 H5 Hids. rewrite Hnd in Hd.
  split_and!; cbn.
  - eapply blocks_start; eauto.
  - destruct (open_id b) as [x|] eqn:Hx.
    + destruct Hids as [Hf ->]. eapply (ids_ok_add _ _ _ _ _ i); [done| |exact Hi].
      intros j y Hj%holds_insert_open. naive_solver.
    + subst ids. eapply ids_ok_sub; [|exact Hi]. intros j y Hj%holds_insert_open. naive_solver.
  - rewrite Hnd. apply Forall_app. split; [done|]. repeat constructor. by destruct e.
Qed.

Lemma collected_delta evs c e i b b' :
  collected evs c -> c_done c = false ->
  event_index e = Some i -> block_start e = None -> c_open c !! i = Some b ->
  open_matches (evs ++ [e]) i b' -> open_id b' = open_id b ->
  collected (evs ++ [e]) (set_open (<[i := b']> (c_open c)) c).
Proof.
  intros (Hb & Hi & Hd) Hnd He Hs Hl Hm Hid. rewrite Hnd in Hd. split_and!; cbn.
  - eapply blocks_delta; eauto.
  - eapply ids_ok_sub; [|exact Hi]. intros j y [Hj|[-> Hy]]%holds_insert_open; [done|].
    left. rewrite Hl. simpl. congruence.
  - rewrite Hnd. apply Forall_app. split; [done|]. repeat constructor. by destruct e.
Qed.

Lemma collected_end evs c e i b p ids wires :
  collected evs c -> c_done c = false ->
  event_index e = Some i -> block_start e = None -> c_open c !! i = Some b ->
  part_matches (evs ++ [e]) i p ->
  match call_id p with
  | Some x => (open_id b = Some x /\ ids = c_tool_call_ids c) \/
              (x ∉ c_tool_call_ids c /\ ids = {[x]} ∪ c_tool_call_ids c)
  | None => ids = c_tool_call_ids c
  end ->
  collected (evs ++ [e]) (set_blocks (c_next_content_index c) (delete i (c_open c))
                            (<[i := p]> (c_content c)) (set_tools wires ids c)).
Proof.
  intros (Hb & Hi & Hd) Hnd He Hs Hl Hm Hids. rewrite Hnd in Hd. split_and!; cbn.
  - eapply blocks_end; eauto.
  - destruct (call_id p) as [x|] eqn:Hx.
    + destruct Hids as [[Ho ->]|[Hf ->]].
      * eapply ids_ok_sub; [|exact Hi]. intros j y [Hj|[-> Hy]]%holds_end; [done|].
        left. rewrite Hl. simpl. congruence.
      * eapply (ids_ok_add _ _ _ _ _ i); [done| |exact Hi].
        intros j y Hj%holds_end. naive_solver.
    + subst ids. eapply ids_ok_sub; [|exact Hi]. intros j y Hj%holds_end. naive_solver.
  - rewrite Hnd. apply Forall_app. split; [done|]. repeat constructor. by destruct e.
Qed.

(** Starts of a text, thinking or refusal block. *)
Lemma collected_simple_start evs c e k b i c' :
  collected evs c -> c_done c = false -> start_block i b c = Ok c' ->
  block_start e = Some (i, k) -> event_index e = Some i ->
  own_text e = EmptyString -> own_name e = EmptyString -> own_arguments e = EmptyString ->
  opaque_at [e] i = [] -> open_id b = None ->
  (forall evs', (i, k) ∈ block_starts evs' -> text_at evs' i = EmptyString ->
     name_at evs' i = EmptyString -> arguments_at evs' i = EmptyString ->
     opaque_at evs' i = [] -> open_matches evs' i b) ->
  collected (evs ++ [e]) c'.
Proof.
  intros Hc Hd (-> & -> & _)%start_block_ok Hs He H1 H2 H3 H4 Hid Hm.
  pose proof (collected_start evs c e k b (c_tool_call_ids c) (c_tool_wire_indexes c) Hc Hd) as Hst.
  rewrite Hid in Hst. exact (Hst Hs He H1 H2 H3 H4 Hm eq_refl).
Qed.

(** Ends of such a block. *)
Lemma collected_simple_end evs c e i b p c' :
  collected evs c -> c_done c = false -> c_open c !! i = Some b ->
  end_block i p (set_open (delete i (c_open c)) c) = Ok c' ->
  event_index e = Some i -> block_start e = None -> call_id p = None ->
  part_matches (evs ++ [e]) i p -> collected (evs ++ [e]) c'.
Proof.
  intros Hc Hd Hl ->%end_block_ok He Hs Hid Hm.
  pose proof (collected_end evs c e i b p (c_tool_call_ids c) (c_tool_wire_indexes c)) as Hend.
  rewrite Hid in Hend. specialize (Hend Hc Hd He Hs Hl Hm eq_refl). exact Hend.
Qed.

Lemma collected_lookup evs c i b :
  collected evs c -> c_open c !! i = Some b -> open_matches evs i b.
Proof. intros [Hb _]. eapply bo_open; eauto. Qed.

(** Reading of a block after one more event of its own. *)
Ltac own_event :=
  unfold text_at, name_at, arguments_at in *;
  rewrite ?gather_own by done; cbn [own_text own_name own_arguments];
  rewrite ?str_app_nil_r.

Lemma accept_start_ok evs l p g c c' :
  collected evs c -> c_done c = false -> accept_start l p g c = Ok c' ->
  collected (evs ++ [Start l p g]) c'.
Proof.
  intros (Hb & Hi & Hd) Hnd. unfold accept_start.
  destruct (c_started c || _); [done|]. intros [= <-].
  rewrite Hnd in Hd. split_and!; cbn; [by apply blocks_other|done|]. rewrite Hnd.
  apply Forall_app. split; [done|]. by repeat constructor.
Qed.

Lemma accept_usages_ok evs e u d c :
  collected evs c -> c_done c = false -> event_index e = None -> block_start e = None ->
  (forall f, e <> Done f) -> collected (evs ++ [e]) (set_usages u d c).
Proof.
  intros (Hb & Hi & Hd) Hnd He Hs Hdone. rewrite Hnd in Hd.
  split_and!; cbn; [by apply blocks_other|done|]. rewrite Hnd.
  apply Forall_app. split; [done|]. repeat constructor. destruct e; try done. by eapply Hdone.
Qed.

Lemma set_usages_id c : set_usages (c_usage c) (c_usage_details c) c = c.
Proof. by destruct c. Qed.

Lemma accept_done_ok evs f c c' :
  collected evs c -> c_done c = false -> accept_done f c = Ok c' ->
  collected (evs ++ [Done f]) c'.
Proof.
  intros (Hb & Hi & Hd) Hnd. rewrite Hnd in Hd. unfold accept_done.
  case_bool_decide as Ho; simpl; [|done]. case_bool_decide as Hc; [done|].
  destruct (Bool.eqb _ _) eqn:Heq; simpl; [|done]. apply Bool.eqb_prop in Heq.
  intros [= <-]. split_and!; cbn; [by apply blocks_other|done|]. eauto 10.
Qed.

Lemma accept_deltas_ok evs e i c c' :
  collected evs c -> c_done c = false -> event_index e = Some i ->
  match e with
  | TextDelta i d => accept_text_delta i d c = Ok c'
  | ThinkingDelta i d => accept_thinking_delta i d c = Ok c'
  | ThinkingOpaque i o => accept_thinking_opaque i o c = Ok c'
  | RefusalDelta i d => accept_refusal_delta i d c = Ok c'
  | ToolCallDelta i w n a => accept_tool_delta i w n a c = Ok c'
  | _ => False
  end -> collected (evs ++ [e]) c'.
Proof.
  intros Hc Hnd He Hacc. destruct e as [| |j d| | |j d|j o| | |j d| | |j w n a| | | |];
    try done; injection He as ->; unfold accept_text_delta, accept_thinking_delta,
    accept_thinking_opaque, accept_refusal_delta, accept_tool_delta in Hacc;
    destruct (c_open c !! i) as [[s|s o'|s|w' id n' a']|] eqn:Hl; try done;
    pose proof (collected_lookup _ _ _ _ Hc Hl) as Hm.
  - injection Hacc as <-. eapply collected_delta; eauto.
    destruct Hm as [Hin ->]. split; [by apply block_starts_mono|]. by own_event.
  - injection Hacc as <-. eapply collected_delta; eauto.
    destruct Hm as (Hin & -> & Ho). split_and!; [by apply block_starts_mono|by own_event|].
    by rewrite opaque_plain.
  - destruct o' as [?|]; [done|]. injection Hacc as <-. eapply collected_delta; eauto.
    destruct Hm as (Hin & -> & Ho). split_and!; [by apply block_starts_mono|by own_event|].
    rewrite opaque_snoc, Ho. unfold opaque_at. simpl. by rewrite bool_decide_eq_true_2.
  - injection Hacc as <-. eapply collected_delta; eauto.
    destruct Hm as [Hin ->]. split; [by apply block_starts_mono|]. by own_event.
  - destruct (w' =? w) eqn:Hw; simpl in Hacc; [|done]. injection Hacc as <-.
    eapply collected_delta; eauto. destruct Hm as (Hin & -> & ->).
    split_and!; [by apply block_starts_mono| |]; own_event; by destruct n, a; rewrite ?str_app_nil_r.
Qed.

Lemma accept_ends_ok evs e i c c' :
  collected evs c -> c_done c = false -> event_index e = Some i ->
  match e with
  | TextEnd i => accept_text_end i c = Ok c'
  | ThinkingEnd i => accept_thinking_end i c = Ok c'
  | RefusalEnd i => accept_refusal_end i c = Ok c'
  | _ => False
  end -> collected (evs ++ [e]) c'.
Proof.
  intros Hc Hnd He Hacc. destruct e as [| | |j| | | |j| | |j| | | | | |];
    try done; injection He as ->; unfold accept_text_end, accept_thinking_end,
    accept_refusal_end in Hacc;
    destruct (c_open c !! i) as [[s|s o'|s|w' id n' a']|] eqn:Hl; try done;
    pose proof (collected_lookup _ _ _ _ Hc Hl) as Hm;
    eapply collected_simple_end; eauto.
  - destruct Hm as [Hin ->]. split; [by apply block_starts_mono|]. by own_event.
  - destruct Hm as (Hin & -> & Ho). split_and!; [by apply block_starts_mono| |].
    + destruct o'; own_event; done.
    + rewrite opaque_plain, Ho by done. by destruct o'.
  - destruct Hm as [Hin ->]. split; [by apply block_starts_mono|]. by own_event.
Qed.

Lemma accept_tool_start_ok evs i w id c c' :
  collected evs c -> c_done c = false -> accept_tool_start i w id c = Ok c' ->
  collected (evs ++ [ToolCallStart i w id]) c'.
Proof.
  intros Hc Hnd. unfold accept_tool_start. case_bool_decide as Hw; [done|].
  destruct (match id with Some _ => _ | None => _ end) eqn:Hid; [done|].
  intros (-> & -> & _)%start_block_ok. cbn [c_next_content_index set_tools c_open c_content].
  eapply (collected_start _ _ _ (KTool w id)); try done.
  simpl. destruct id as [x|]; [|done]. by apply bool_decide_eq_false in Hid.
Qed.

Lemma accept_tool_end_ok evs i call c c' :
  collected evs c -> c_done c = false -> accept_tool_end i call c = Ok c' ->
  collected (evs ++ [ToolCallEnd i call]) c'.
Proof.
  intros Hc Hnd. unfold accept_tool_end.
  destruct (c_open c !! i) as [[| | |w id n a]|] eqn:Hl; try done.
  pose proof (collected_lookup _ _ _ _ Hc Hl) as (Hin & Hn & Ha).
  destruct (match id with Some _ => negb _ | None => _ end) eqn:Hid; [done|].
  destruct (match id with Some _ => false | None => _ end) eqn:Hdup; [done|].
  destruct (str_eqb n (tc_name call)) eqn:En; simpl; [|done]. apply str_eqb_spec in En.
  destruct (str_eqb a _) eqn:Ea; simpl; [|done]. apply str_eqb_spec in Ea.
  assert (part_matches (evs ++ [ToolCallEnd i call]) i (PToolCall call)) as Hm.
  { split_and!; [exists w, id; split; [by apply block_starts_mono|]|..].
    - destruct id as [x|]; [right|by left]. apply negb_false_iff, str_eqb_spec in Hid. congruence.
    - own_event. congruence.
    - own_event. congruence.
    - set_solver. }
  intros Hend. destruct id as [x|]; apply end_block_ok in Hend; subst c'.
  - apply negb_false_iff, str_eqb_spec in Hid. subst x.
    eapply (collected_end evs c _ i _ _ (c_tool_call_ids c) (c_tool_wire_indexes c)); eauto. by left.
  - apply bool_decide_eq_false in Hdup.
    eapply (collected_end evs c _ i _ _ ({[tc_id call]} ∪ c_tool_call_ids c)
              (c_tool_wire_indexes c)); eauto. by right.
Qed.

Lemma accept_collected evs e c c' :
  collected evs c -> accept e c = Ok c' -> collected (evs ++ [e]) c'.
Proof.
  intros Hc. unfold accept. destruct (c_done c) eqn:Hnd; [done|].
  destruct e as [l p g|i|i d|i|i|i d|i o|i|i|i d|i|i w id|i w n a|i call|u|d|f]; intros Hacc;
    try (by eapply (accept_deltas_ok _ _ i)); try (by eapply (accept_ends_ok _ _ i)).
  - by eapply accept_start_ok.
  - eapply collected_simple_start; eauto. by intros; repeat split.
  - eapply collected_simple_start; eauto. by intros; repeat split.
  - eapply collected_simple_start; eauto. by intros; repeat split.
  - by eapply accept_tool_start_ok.
  - by eapply accept_tool_end_ok.
  - unfold accept_usage in Hacc. destruct (c_usage c).
    + case_bool_decide; [|done]. injection Hacc as <-. rewrite <- (set_usages_id c).
      by apply accept_usages_ok.
    + injection Hacc as <-. by apply accept_usages_ok.
  - unfold accept_detailed in Hacc. destruct (c_usage_details c).
    + case_bool_decide; [|done]. injection Hacc as <-. rewrite <- (set_usages_id c).
      by apply accept_usages_ok.
    + injection Hacc as <-. by apply accept_usages_ok.
  - by eapply accept_done_ok.
Qed.

Lemma accept_items_collected items : forall evs c c',
  collected evs c -> accept_items items c = Ok c' ->
  exists evs', items = map Ok evs' /\ collected (evs ++ evs') c'.
Proof.
  induction items as [|item items IH]; intros evs c c' Hc; simpl.
  - intros [= <-]. exists []. by rewrite app_nil_r.
  - destruct item as [e|]; simpl; [|done]. destruct (accept e c) as [c1|] eqn:Ha; simpl; [|done].
    intros Hr. destruct (IH (evs ++ [e]) c1 c') as (evs' & -> & Hc'); [by eapply accept_collected|done|].
    exists (e :: evs'). rewrite <- app_assoc in Hc'. done.
Qed.

(** ** The collected message *)

(** In a complete collector the content is indexed by 0 .. next - 1. *)
Lemma content_list (content : gmap Z ContentPart) n :
  (forall i, is_Some (content !! i) <-> 0 <= i < Z.of_nat n) ->
  btree_keys content = map Z.of_nat (seq 0 n) /\
  (forall i, btree_values content !! i = content !! Z.of_nat i) /\
  length (btree_values content) = n.
Proof.
  intros Hdom.
  assert (btree_keys content = map Z.of_nat (seq 0 n)) as Hk.
  { apply (StronglySorted_unique (≤)).
    - apply btree_keys_sorted.
    - clear. generalize 0%nat. induction n as [|n IH]; intros a; simpl; constructor; [apply IH|].
      apply Forall_map, Forall_forall. intros x Hx%elem_of_seq. simpl. lia.
    - apply NoDup_Permutation.
      + rewrite btree_keys_perm. apply NoDup_elements.
      + apply NoDup_fmap_2; [intros ?? ?; lia|apply NoDup_seq].
      + intros x. rewrite elem_of_btree_keys, Hdom. rewrite list_elem_of_fmap. split.
        * intros Hx. exists (Z.to_nat x). rewrite elem_of_seq. lia.
        * intros (y & -> & Hy%elem_of_seq). lia. }
  split; [done|].
  assert (exists l, btree_values content = l /\ length l = n /\
            forall i, (i < n)%nat -> l !! i = content !! Z.of_nat i) as (l & Hl & Hlen & Hlk).
  { unfold btree_values. rewrite Hk. eexists. split; [done|].
    assert (forall m, (m <= n)%nat ->
      length (omap (fun k => content !! k) (map Z.of_nat (seq 0 m))) = m /\
      forall i, (i < m)%nat ->
        omap (fun k => content !! k) (map Z.of_nat (seq 0 m)) !! i = content !! Z.of_nat i) as Hm.
    { induction m as [|m IH]; intros Hmn; [split; [done|lia]|]. destruct IH as [IH1 IH2]; [lia|].
      rewrite seq_S, map_app, omap_app. simpl.
      destruct (content !! Z.of_nat m) as [p|] eqn:Hp.
      - rewrite length_app, IH1. simpl. split; [lia|]. intros i Hi.
        destruct (decide (i = m)) as [->|].
        + rewrite lookup_app_r, IH1, Nat.sub_diag by lia. by rewrite Hp.
        + rewrite lookup_app_l by lia. apply IH2. lia.
      - exfalso. apply eq_None_not_Some in Hp. apply Hp, Hdom. lia. }
    destruct (Hm n) as [H1 H2]; [done|]. done. }
  rewrite Hl. split; [|done]. intros i. destruct (decide (i < n)%nat) as [Hi|Hi]; [by apply Hlk|].
  rewrite lookup_ge_None_2 by lia. symmetry. apply eq_None_not_Some. rewrite Hdom. lia.
Qed.

Lemma NoDup_omap_inj (l : list ContentPart) :
  (forall i j x p q, l !! i = Some p -> l !! j = Some q -> call_id p = Some x ->
     call_id q = Some x -> i = j) -> NoDup (omap call_id l).
Proof.
  induction l as [|p l IH]; intros Hinj; simpl; [constructor|].
  assert (NoDup (omap call_id l)) as Hl.
  { apply IH. intros i j x q r Hi Hj Hq Hr. assert (S i = S j) by (eapply Hinj; eauto). lia. }
  destruct (call_id p) as [x|] eqn:Hp; [|done]. constructor; [|done].
  rewrite list_elem_of_omap. intros (q & (j & Hj)%list_elem_of_lookup & Hq).
  assert (0%nat = S j) by (eapply (Hinj 0%nat (S j)); eauto). lia.
Qed.

Lemma existsb_Exists {A} (f : A -> bool) l : existsb f l = true <-> Exists (fun x => f x = true) l.
Proof. rewrite List.existsb_exists, Exists_exists. by setoid_rewrite list_elem_of_In. Qed.

(** The text blocks, read off the starts. *)
Lemma text_of_starts evs content n :
  map fst (block_starts evs) = map Z.of_nat (seq 0 n) ->
  (forall i p, content !! i = Some p -> part_matches evs (Z.of_nat i) p) -> length content = n ->
  omap text_value content = map (text_at evs) (text_indexes evs).
Proof.
  intros Hst Hm Hlen. unfold text_indexes.
  assert (forall i p, content !! i = Some p -> exists k, block_starts evs !! i = Some (Z.of_nat i, k)
            /\ match k with KText => p = PText (text_at evs (Z.of_nat i)) | _ => text_value p = None end)
    as Hk.
  { intros i p Hi.
    assert (forall k, (Z.of_nat i, k) ∈ block_starts evs ->
              block_starts evs !! i = Some (Z.of_nat i, k)) as Hin.
    { intros k (j & Hj)%list_elem_of_lookup.
      assert (map fst (block_starts evs) !! j = Some (Z.of_nat i)) as Hj'.
      { rewrite list_lookup_fmap, Hj. done. }
      rewrite Hst, list_lookup_fmap in Hj'. apply fmap_Some in Hj' as (x & Hx & Hxi).
      apply lookup_seq in Hx as [-> _]. assert (i = j) as -> by lia. done. }
    specialize (Hm i p Hi). destruct p as [s|im|t|s|call]; simpl in Hm.
    - destruct Hm as [Hk ->]. exists KText. split; [by apply Hin|done].
    - done.
    - destruct Hm as (Hk & _). exists KThinking. split; [by apply Hin|done].
    - destruct Hm as (Hk & _). exists KRefusal. split; [by apply Hin|done].
    - destruct Hm as ((w & id & Hk & _) & _). exists (KTool w id). split; [by apply Hin|done]. }
  assert (length (block_starts evs) = length content) as Hl2.
  { rewrite <- (length_map fst), Hst, length_map, length_seq. done. }
  clear Hst Hm Hlen n. remember (block_starts evs) as st eqn:E. clear E.
  assert (forall a st content, length st = length content ->
    (forall i p, content !! i = Some p -> exists k, st !! i = Some (Z.of_nat (a + i), k)
       /\ match k with KText => p = PText (text_at evs (Z.of_nat (a + i))) | _ => text_value p = None end) ->
    omap text_value content = map (text_at evs)
      (omap (fun s : Z * block_kind => match s.2 with KText => Some s.1 | _ => None end) st)) as Hgen.
  { clear. intros a st. revert a. induction st as [|[j k] st IH]; intros a [|p content] Hl Hk; try done.
    destruct (Hk 0%nat p eq_refl) as (k' & [= -> ->] & Hp).
    assert (omap text_value content = map (text_at evs)
      (omap (fun s : Z * block_kind => match s.2 with KText => Some s.1 | _ => None end) st)) as Hrec.
    { apply (IH (S a)); [by injection Hl|]. intros i q Hq. destruct (Hk (S i) q Hq) as (k & Hk' & Hk'').
      exists k. by replace (S a + i)%nat with (a + S i)%nat by lia. }
    cbn [omap list_omap]. destruct k'; simpl; [subst p; simpl; f_equal; exact Hrec|..];
      rewrite Hp; exact Hrec. }
  apply (Hgen 0%nat); [done|]. exact Hk.
Qed.

Section Spec.
Context {JS : JsonSyntax} {SE : SchemaEngine}.

(** C13. A collected message is exactly what its transcript says: the stream had
    no error item, the blocks were started contiguously from 0 and every one
    of them is a content part in that order, carrying the concatenation of its
    own deltas (text, thinking, refusal, or the name and arguments of a tool
    call); the text of the message is the text blocks in order; call ids are
    distinct; [Done] came once, last, and says [ToolCalls] exactly when there
    is a tool call. *)
Theorem collect_describes items format m :
  collect_assistant_message_for_format items format = Ok m ->
  exists evs, items = map Ok evs /\ describes evs m.
Proof.
  unfold collect_assistant_message_for_format.
  destruct (accept_items items collector_default) as [c|] eqn:Ha; simpl; [|done].
  destruct (accept_items_collected _ [] _ _ collected_default Ha) as (evs & -> & Hc).
  simpl in Hc. unfold finish. destruct Hc as (Hb & [_ Hids] & Hd).
  destruct (c_done c); simpl; [|done].
  destruct Hd as (f & evs' & -> & Hnd & Hf & Ho & Hne & Htool). rewrite Hf. simpl.
  destruct (validate_structured_output _ _) as [v|]; simpl; [|done]. intros [= <-].
  eexists. split; [done|]. destruct Hb as [Hpos Hst Hdom _ _ Hcont _].
  destruct (content_list (c_content c) (Z.to_nat (c_next_content_index c))) as (Hk & Hlk & Hlen).
  { intros i. rewrite Z2Nat.id by done. rewrite <- Hdom, Ho, lookup_empty. split; [auto|].
    intros [[]|]; done. }
  assert (forall i p, btree_values (c_content c) !! i = Some p ->
            part_matches (evs' ++ [Done f]) (Z.of_nat i) p) as Hpm.
  { intros i p Hi. rewrite Hlk in Hi. eauto. }
  unfold describes. cbn. split_and!.
  - rewrite Hlen. exact Hst.
  - exact Hpm.
  - f_equal. by eapply text_of_starts.
  - apply NoDup_omap_inj. intros i j x p q Hi Hj Hp Hq. rewrite Hlk in Hi, Hj.
    apply Nat2Z.inj, (Hids _ _ x); right; [by rewrite Hi|by rewrite Hj].
  - rewrite <- existsb_Exists. change (existsb is_tool_call (btree_values (c_content c)))
      with (has_tool_call (c_content c)). rewrite <- Htool. by rewrite bool_decide_eq_true.
  - intros Hnil. apply Hne. apply map_empty. intros i. apply eq_None_not_Some. intros Hi.
    assert (0 <= i < c_next_content_index c) as Hr by (apply Hdom; auto).
    rewrite Hnil in Hlen. simpl in Hlen. lia.
  - exists evs'. done.
Qed.
End Spec.

(** A transcript with a text block and two interleaved tool calls. *)
Definition sample_call (id name : string) : ToolCall :=
  mk_tool_call id name (mk_tool_arguments "{}" (JObject [])).
Definition sample_events : list AssistantEvent :=
  [Start "local-1" None None; TextStart 0; TextDelta 0 "Hel"; TextDelta 0 "lo"; TextEnd 0;
   ToolCallStart 1 0 (Some "a"); ToolCallStart 2 1 None;
   ToolCallDelta 1 0 (Some "f") (Some "{"); ToolCallDelta 2 1 (Some "g") (Some "{}");
   ToolCallDelta 1 0 None (Some "}"); ToolCallEnd 2 (sample_call "b" "g");
   ToolCallEnd 1 (sample_call "a" "f"); Done FinishReason.ToolCalls].

Definition no_json : JsonSyntax := fun _ => Err (mk_json_error CatSyntax 1 1).
Definition no_schema : SchemaEngine := fun _ _ _ => Ok tt.

Lemma collect_describes_witness :
  exists m, @collect_assistant_message_for_format no_json no_schema (map Ok sample_events) FText = Ok m /\
    (exists evs, map Ok sample_events = map (@Ok LlmError _) evs /\ describes evs m).
Proof.
  destruct (@collect_assistant_message_for_format no_json no_schema (map Ok sample_events) FText)
    as [m|e] eqn:Hm; [|vm_compute in Hm; discriminate].
  exists m. split; [reflexivity|]. exact (@collect_describes no_json no_schema _ _ _ Hm).
Defined.
