(* ===== verification/Pipeline.v ===== *)
(** * The shared response driver: [src/src/protocol/response_stream.rs]

    [SseMachineStream] drives one SSE decoder and one protocol machine. The
    machine is an interface; the theorems about the driver hold for every
    implementation of it. *)
From S2P Require Import Prelude Errors Usage Sse SseStream Domain Structured Collector.

(** What a protocol machine offers ([trait SseEventMachine]). *)
Class SseEventMachine (T : Type) := {
  accept_event : SseEvent -> T -> T * result LlmError (list AssistantEvent);
  finish_events : T -> T * result LlmError (list AssistantEvent) }.

Abbreviation out_item := (result LlmError AssistantEvent).

(** Lists of items that are all events. *)
Lemma map_Ok_inj {A} (l1 l2 : list A) : map (@Ok LlmError A) l1 = map Ok l2 -> l2 = l1.
Proof.
  revert l2. induction l1 as [|x l1 IH]; intros [|y l2] H; try done. injection H as <- H.
  f_equal. by apply IH.
Qed.

Lemma map_Ok_app {A} (l1 l : list A) (rest : list (result LlmError A)) :
  map Ok l1 ++ rest = map Ok l -> exists l2, l = l1 ++ l2 /\ rest = map Ok l2.
Proof.
  revert l. induction l1 as [|x l1 IH]; intros l H; [by exists l|].
  destruct l as [|y l]; [done|]. injection H as <- H. destruct (IH l H) as (l2 & -> & ->). by exists l2.
Qed.

Record SseMachineStream (T : Type) := mk_stream {
  s_source : SseDecoder;
  s_machine : T;
  s_pending : list out_item;
  s_max_events_per_poll : Z;
  s_terminal : bool }.
Arguments mk_stream {T} _ _ _ _ _.
Arguments s_source {T} _.
Arguments s_machine {T} _.
Arguments s_pending {T} _.
Arguments s_max_events_per_poll {T} _.
Arguments s_terminal {T} _.

Section Driver.
Context {T : Type} {SM : SseEventMachine T}.

Definition stream_new (sse : SseConfig) (machine : T) : SseMachineStream T :=
  mk_stream (with_config sse) machine [] (max_events_per_poll sse) false.

Definition stream_answer : Type :=
  SseMachineStream T * list upstream_poll * option (poll out_item).

(** [Poll::Ready(stream.pending.pop_front())]. *)
Definition pop_front (s : SseMachineStream T) : SseMachineStream T * option out_item :=
  match s_pending s with
  | item :: rest => (mk_stream (s_source s) (s_machine s) rest (s_max_events_per_poll s) (s_terminal s), Some item)
  | [] => (s, None)
  end.

(** The loop of [poll_next]; every iteration that continues has processed one
    event, so [fuel] above the event budget is enough. *)
Fixpoint stream_loop (fuel : nat) (events_processed : Z) (s : SseMachineStream T)
    (up : list upstream_poll) : stream_answer :=
  match fuel with
  | O => (s, up, None)
  | S fuel =>
      if s_max_events_per_poll s <=? events_processed then (s, up, Some Pending)
      else
        let with_source d m p t := mk_stream d m p (s_max_events_per_poll s) t in
        match poll_next (s_source s) up with
        | (d, up, Some (Ready (Some (Ok event)))) =>
            match accept_event event (s_machine s) with
            | (m, Ok events) =>
                match pop_front (with_source d m (s_pending s ++ map Ok events) (s_terminal s)) with
                | (s, Some item) => (s, up, Some (Ready (Some item)))
                | (s, None) => stream_loop fuel (events_processed + 1) s up
                end
            | (m, Err error) =>
                (with_source d m (s_pending s) true, up, Some (Ready (Some (Err error))))
            end
        | (d, up, Some (Ready (Some (Err error)))) =>
            (with_source d (s_machine s) (s_pending s) true, up,
             Some (Ready (Some (Err (into_llm_error error)))))
        | (d, up, Some (Ready None)) =>
            match finish_events (s_machine s) with
            | (m, Ok events) =>
                let '(s, item) := pop_front (with_source d m (s_pending s ++ map Ok events) true) in
                (s, up, Some (Ready item))
            | (m, Err error) =>
                (with_source d m (s_pending s) true, up, Some (Ready (Some (Err error))))
            end
        | (d, up, Some Pending) =>
            (with_source d (s_machine s) (s_pending s) (s_terminal s), up, Some Pending)
        | (d, up, None) => (with_source d (s_machine s) (s_pending s) (s_terminal s), up, None)
        end
  end.

Definition stream_poll (s : SseMachineStream T) (up : list upstream_poll) : stream_answer :=
  match pop_front s with
  | (s, Some item) => (s, up, Some (Ready (Some item)))
  | (s, None) =>
      if s_terminal s then (s, up, Some (Ready None))
      else stream_loop (S (Z.to_nat (s_max_events_per_poll s))) 0 s up
  end.

(** Polling to the end. *)
Fixpoint stream_drain (fuel : nat) (s : SseMachineStream T) (up : list upstream_poll)
  : option (list out_item) :=
  match fuel with
  | O => None
  | S fuel =>
      match stream_poll s up with
      | (s', up', Some (Ready (Some it))) => its ← stream_drain fuel s' up'; Some (it :: its)
      | (_, _, Some (Ready None)) => Some []
      | (s', up', Some Pending) => stream_drain fuel s' up'
      | (_, _, None) => None
      end
  end.

(** ** The denotation: one pass of the machine over the decoded events *)
Fixpoint machine_items (m : T) (events : list (result SseError SseEvent)) : list out_item :=
  match events with
  | [] =>
      match finish_events m with
      | (_, Ok evs) => map Ok evs
      | (_, Err e) => [Err e]
      end
  | Ok event :: events =>
      match accept_event event m with
      | (m, Ok evs) => map Ok evs ++ machine_items m events
      | (_, Err e) => [Err e]
      end
  | Err e :: _ => [Err (into_llm_error e)]
  end.

Definition sden (s : SseMachineStream T) (up : list upstream_poll) : list out_item :=
  s_pending s ++ (if s_terminal s then [] else machine_items (s_machine s) (den_all (s_source s) up)).

Definition stream_wf (s : SseMachineStream T) : Prop :=
  1 <= s_max_events_per_poll s /\ (s_terminal s = false -> poll_wf (s_source s)).

(** The decoder work left; nothing once the driver is terminal. *)
Definition sweight (s : SseMachineStream T) (up : list upstream_poll) : nat :=
  if s_terminal s then 0%nat else S (weight (s_source s) up).

Definition stream_post (s : SseMachineStream T) (up : list upstream_poll) (strict : Prop)
    (out : stream_answer) : Prop :=
  match out with
  | (s', up', Some (Ready (Some it))) =>
      sden s up = it :: sden s' up' /\ (sweight s' up' < sweight s up)%nat /\ stream_wf s'
  | (s', up', Some (Ready None)) => sden s up = [] /\ s_terminal s' = true
  | (s', up', Some Pending) =>
      sden s up = sden s' up' /\ (sweight s' up' <= sweight s up)%nat /\
      (strict -> sweight s' up' < sweight s up)%nat /\ stream_wf s'
  | (_, _, None) => False
  end.

Lemma sden_terminal s up : s_terminal s = true -> sden s up = s_pending s.
Proof. intros H. unfold sden. rewrite H. apply app_nil_r. Qed.

Lemma stream_loop_post fuel : forall n s up,
  stream_wf s -> s_terminal s = false -> s_pending s = [] ->
  s_max_events_per_poll s < n + Z.of_nat fuel -> 0 <= n <= s_max_events_per_poll s ->
  stream_post s up (n = 0) (stream_loop fuel n s up).
Proof.
  induction fuel as [|fuel IH]; intros n s up [Hmax Hwf] Ht Hp Hfuel Hn; [lia|].
  cbn [stream_loop]. destruct (Z.leb_spec (s_max_events_per_poll s) n) as [Hge|Hlt].
  { split_and!; [done|done|lia|by split]. }
  pose proof (poll_next_post (s_source s) up (Hwf Ht)) as Hpost. unfold poll_post in Hpost.
  assert (sden s up = machine_items (s_machine s) (den_all (s_source s) up)) as Hden.
  { unfold sden. by rewrite Hp, Ht. }
  assert (sweight s up = S (weight (s_source s) up)) as Hws by (unfold sweight; by rewrite Ht).
  rewrite Hp. destruct (poll_next (s_source s) up) as [[d up'] [[[[event|error]|]|]|]]; [..|done].
  - destruct Hpost as (Hd & Hw & Hwf'). rewrite Hd in Hden. cbn [machine_items] in Hden.
    destruct (accept_event event (s_machine s)) as [m [events|e]].
    + cbn [app]. unfold pop_front. cbn [s_pending]. destruct events as [|ev events]; cbn [map].
      * set (s1 := mk_stream d m [] (s_max_events_per_poll s) (s_terminal s)).
        assert (stream_post s1 up' (n + 1 = 0) (stream_loop fuel (n + 1) s1 up')) as Hpost1.
        { apply IH; [by split|done|done|cbn [s_max_events_per_poll s1]; lia..]. }
        assert (sden s up = sden s1 up') as Heq.
        { rewrite Hden. unfold sden. cbn [s_pending s_terminal s1 s_machine s_source]. by rewrite Ht. }
        assert (sweight s1 up' < sweight s up)%nat as Hlt1.
        { rewrite Hws. unfold sweight. cbn [s_terminal s1 s_source]. rewrite Ht. lia. }
        unfold stream_post in Hpost1 |- *.
        destruct (stream_loop fuel (n + 1) s1 up') as [[s2 up2] [[[it|]|]|]]; [..|done]; rewrite Heq.
        -- destruct Hpost1 as (E1 & E2 & E3). split_and!; [done|lia|done].
        -- done.
        -- destruct Hpost1 as (E1 & E2 & _ & E4). split_and!; [done|lia|lia|done].
      * unfold stream_post. cbn [map]. rewrite Hden. split_and!; [|rewrite Hws; unfold sweight; cbn; rewrite Ht; lia|by split].
        unfold sden. cbn. rewrite Ht. done.
    + unfold stream_post. rewrite Hden, sden_terminal by done. split_and!; [done| |by split].
      rewrite Hws. unfold sweight. cbn. lia.
  - destruct Hpost as (Hd & Hw & Hwf'). rewrite Hd in Hden. unfold stream_post.
    rewrite Hden, sden_terminal by done. split_and!; [done| |by split].
    rewrite Hws. unfold sweight. cbn. lia.
  - destruct Hpost as (Hd & _ & _). rewrite Hd in Hden. cbn [machine_items] in Hden.
    destruct (finish_events (s_machine s)) as [m [events|e]].
    + cbn [app]. unfold pop_front. cbn [s_pending]. destruct events as [|ev events]; cbn [map]; [done|].
      unfold stream_post. rewrite Hden, sden_terminal by done. split_and!; [done| |by split].
      rewrite Hws. unfold sweight. cbn. lia.
    + unfold stream_post. rewrite Hden, sden_terminal by done. split_and!; [done| |by split].
      rewrite Hws. unfold sweight. cbn. lia.
  - destruct Hpost as (Hd & _ & Hw & Hwf'). specialize (Hw I). unfold stream_post.
    split_and!; [|rewrite Hws; unfold sweight; cbn; rewrite Ht; lia..|by split].
    rewrite Hden, Hd. unfold sden. cbn. by rewrite Ht.
Qed.

(** Polling to the end yields the denotation. *)
Lemma stream_drain_den k : forall n s up,
  stream_wf s -> (sweight s up <= k)%nat -> length (s_pending s) = n ->
  exists fuel, stream_drain fuel s up = Some (sden s up).
Proof.
  induction k as [k IHk] using lt_wf_ind. intros n. induction n as [|n IHn]; intros s up Hwf Hk Hlen.
  - assert (s_pending s = []) as Hp by (by destruct (s_pending s)).
    destruct (s_terminal s) eqn:Ht.
    { exists 1%nat. cbn [stream_drain]. unfold stream_poll, pop_front. rewrite Hp, Ht.
      by rewrite sden_terminal, Hp. }
    pose proof (stream_loop_post (S (Z.to_nat (s_max_events_per_poll s))) 0 s up Hwf Ht Hp
      ltac:(destruct Hwf; lia) ltac:(destruct Hwf; lia)) as Hpost.
    assert (stream_poll s up = stream_loop (S (Z.to_nat (s_max_events_per_poll s))) 0 s up) as Hpoll.
    { unfold stream_poll, pop_front. by rewrite Hp, Ht. }
    unfold stream_post in Hpost.
    destruct (stream_loop _ _ _ _) as [[s' up'] [[[it|]|]|]]; [..|done].
    + destruct Hpost as (-> & Hw & Hwf').
      destruct (IHk (sweight s' up') ltac:(lia) (length (s_pending s')) s' up' Hwf' ltac:(lia) eq_refl)
        as [fuel Hf].
      exists (S fuel). cbn [stream_drain]. by rewrite Hpoll, Hf.
    + destruct Hpost as (-> & _). exists 1%nat. cbn [stream_drain]. by rewrite Hpoll.
    + destruct Hpost as (-> & _ & Hw & Hwf'). specialize (Hw eq_refl).
      destruct (IHk (sweight s' up') ltac:(lia) (length (s_pending s')) s' up' Hwf' ltac:(lia) eq_refl)
        as [fuel Hf].
      exists (S fuel). cbn [stream_drain]. by rewrite Hpoll, Hf.
  - destruct (s_pending s) as [|it rest] eqn:Hp; [done|].
    destruct (IHn (mk_stream (s_source s) (s_machine s) rest (s_max_events_per_poll s) (s_terminal s)) up)
      as [fuel Hf]; [done|done|by injection Hlen|].
    exists (S fuel). cbn [stream_drain]. unfold stream_poll, pop_front. rewrite Hp, Hf.
    unfold sden. by rewrite Hp.
Qed.

(** The driver refines one pass of its machine over the decoded events: for
    every machine, upstream and positive budgets, polling it to the end
    terminates and returns the machine's events in order, up to the first
    failure of the transport, the framing or the machine, which is reported
    once and last; [finish] runs exactly when the events end without one. *)
Theorem stream_drain_spec cfg m up :
  config_wf cfg ->
  exists fuel, stream_drain fuel (stream_new cfg m) up =
    Some (machine_items m (decode_stream (with_config cfg) up)).
Proof.
  intros Hwf. destruct (stream_drain_den (sweight (stream_new cfg m) up) 0 (stream_new cfg m) up)
    as [fuel Hf]; [|done|done|].
  - split; [apply Hwf|]. intros _. by split.
  - exists fuel. rewrite Hf. unfold sden. cbn [s_pending stream_new s_terminal s_machine s_source app].
    by rewrite den_all_live, den_nil.
Qed.
End Driver.

(** A machine that reports each event as a text delta. *)
Definition echo_machine : SseEventMachine unit := {|
  accept_event := fun e m => (m, Ok [AssistantEvent.TextDelta 0 (ev_data e)]);
  finish_events := fun m => (m, Ok [AssistantEvent.Done FinishReason.Stop]) |}.

Lemma stream_drain_spec_witness :
  exists fuel, stream_drain (SM := echo_machine) fuel (stream_new sse_config_default tt) sample_response =
    Some [Ok (AssistantEvent.TextDelta 0 "hi"); Ok (AssistantEvent.Done FinishReason.Stop)].
Proof.
  destruct (stream_drain_spec (SM := echo_machine) sse_config_default tt sample_response) as [fuel Hf].
  - repeat split; try (vm_compute; discriminate). intros f [= <-]. lia.
  - exists fuel. rewrite Hf. vm_compute. reflexivity.
Defined.
