(* ===== verification/ChatWire.v ===== *)
(** * Chat Completions wire data: [src/src/protocol/openai_chat/wire.rs],
    [response/usage.rs], [response/terminal.rs], [compat/], and the response
    limits of [src/src/plan/policy.rs]

    The decoded chunk types, the typed compatibility switches, and the pure
    part of the response decoder: chunk validation and usage parsing. *)
From S2P Require Import Prelude Errors Usage Domain Structured.

(** ** Limits and compatibility *)
Record ResponseLimits := mk_response_limits {
  rl_max_structured_output_bytes : Z;
  rl_max_tool_calls : Z;
  rl_max_tool_arguments_bytes : Z;
  rl_max_all_tool_arguments_bytes : Z;
  rl_max_schema_depth : Z;
  rl_max_json_array_items : Z }.

Definition response_limits_from (r : ResourceLimits) : ResponseLimits :=
  mk_response_limits (max_structured_output_bytes r) (max_tool_calls r)
    (max_tool_arguments_bytes r) (max_all_tool_arguments_bytes r) (max_schema_depth r)
    (max_json_array_items r).

Inductive FinishReasonCompat := StrictOpenAi | AllowOneIdenticalDuplicate.
Inductive ToolArgumentsCompat := JsonString | StringOrObject.
Inductive UsageCompat := OpenAi | OpenAiDropInconsistentReasoning.
Inductive InlineErrorCompat := Reject.
Record ResponseCompat := mk_response_compat {
  compat_finish_reason : FinishReasonCompat;
  compat_tool_arguments : ToolArgumentsCompat;
  compat_usage : UsageCompat;
  compat_inline_error : InlineErrorCompat }.
Definition openai_chat_default : ResponseCompat :=
  mk_response_compat StrictOpenAi JsonString OpenAi Reject.

(** ** Chunks *)
Abbreviation extra_fields := (list (string * json)).

Record PromptTokensDetailsWire := mk_prompt_details {
  pw_cached_tokens : option Z; pw_cache_write_tokens : option Z; pw_extra : extra_fields }.
Record CompletionTokensDetailsWire := mk_completion_details {
  cw_reasoning_tokens : option Z; cw_extra : extra_fields }.
Record UsageWire := mk_usage_wire {
  uw_prompt_tokens : option Z; uw_completion_tokens : option Z; uw_total_tokens : option Z;
  uw_prompt_tokens_details : option PromptTokensDetailsWire;
  uw_completion_tokens_details : option CompletionTokensDetailsWire; uw_extra : extra_fields }.

Inductive ToolArgumentsWire := ArgString (s : string) | ArgObject (v : json).
Record FunctionDeltaWire := mk_function_delta {
  fd_name : option string; fd_arguments : option ToolArgumentsWire; fd_extra : extra_fields }.
Record ToolCallDeltaWire := mk_tool_delta {
  td_index : Z; td_id : option string; td_kind : option string;
  td_function : option FunctionDeltaWire; td_extra : extra_fields }.
Record DeltaWire := mk_delta {
  d_role : option string; d_content : option string; d_refusal : option string;
  d_tool_calls : option (list ToolCallDeltaWire); d_function_call : option json;
  d_extra : extra_fields }.
Record ChoiceWire := mk_choice {
  ch_index : Z; ch_delta : option DeltaWire; ch_finish_reason : option string;
  ch_extra : extra_fields }.
Record ChatCompletionChunkWire := mk_chunk {
  ck_id : option string; ck_object : option string; ck_model : option string;
  ck_choices : list ChoiceWire; ck_usage : option UsageWire; ck_error : option json;
  ck_extra : extra_fields }.

(** [serde_json::from_str::<ChatCompletionChunkWire>], the deserializer derived
    for the wire types. *)
Class ChunkSyntax := parse_chunk : string -> result json_error ChatCompletionChunkWire.

(** [serde_json::to_string] on a [Value]. *)
Class JsonPrinter := to_string : json -> result json_error string.

(** ** Usage *)
Definition optional_token_count (value : option Z) (field : string)
  : result LlmError TokenCount :=
  match value with
  | None => Ok Unknown
  | Some raw =>
      if raw <? 0 then Err (protocol (field +:+ " must be non-negative")) else Ok (Known raw)
  end.

Definition parse_usage_details (wire : UsageWire) (drop_inconsistent_reasoning : bool)
  : result LlmError (option UsageDetails) :=
  input ← optional_token_count (uw_prompt_tokens wire) "usage.prompt_tokens";
  output ← optional_token_count (uw_completion_tokens wire) "usage.completion_tokens";
  total ← optional_token_count (uw_total_tokens wire) "usage.total_tokens";
  cached_input ← optional_token_count (uw_prompt_tokens_details wire ≫= pw_cached_tokens)
    "usage.prompt_tokens_details.cached_tokens";
  cache_write ← optional_token_count (uw_prompt_tokens_details wire ≫= pw_cache_write_tokens)
    "usage.prompt_tokens_details.cache_write_tokens";
  reasoning ← optional_token_count (uw_completion_tokens_details wire ≫= cw_reasoning_tokens)
    "usage.completion_tokens_details.reasoning_tokens";
  let reasoning :=
    if drop_inconsistent_reasoning &&
       match output, reasoning with Known o, Known r => o <? r | _, _ => false end
    then Unknown else reasoning in
  let details := mk_usage_details input output total cached_input cache_write reasoning in
  _ ← map_err (fun e => protocol (ce_message e)) (validate_relationships details);
  if negb (has_any_known details) then Ok None else Ok (Some details).

Definition core_usage_from_details (d : UsageDetails) : result string Usage :=
  match input_tokens d, output_tokens d, total_tokens d with
  | Known i, Known o, Known t =>
      map_err (fun _ => "usage total does not equal input + output") (usage_new i o t)
  | _, _, _ => Err "core usage counters are incomplete"
  end.

(** ** Labels and unknown fields *)
Definition is_char_boundary (l : list ascii) (i : nat) : bool :=
  match i with
  | O => true
  | _ => match l !! i with Some b => negb (utf8_cont b) | None => Nat.eqb i (length l) end
  end.
Fixpoint floor_char_boundary (l : list ascii) (fuel : nat) : nat :=
  if is_char_boundary l fuel then fuel
  else match fuel with O => O | S fuel => floor_char_boundary l fuel end.

Definition bounded_label (value : string) (max_bytes : nat) : string :=
  if str_len value <=? Z.of_nat max_bytes then value
  else str_of (take (floor_char_boundary (bytes_of value) max_bytes) (bytes_of value)) +:+ "...".

Definition MAX_RECORDED_UNKNOWN_FIELDS : Z := 256.
Definition TRUNCATED_UNKNOWN_FIELDS : string := "diagnostic.<truncated>".

Definition safe_field_name (name : string) : string :=
  if (str_len name <=? 64)
     && str_all (fun b => tool_name_byte b || Ascii.eqb b "."%char) name
  then name else "<invalid-field-name>".

Fixpoint record_field_names (scope : string) (names : list string) (destination : gset string)
  : gset string :=
  match names with
  | [] => destination
  | name :: names =>
      if MAX_RECORDED_UNKNOWN_FIELDS - 1 <=? Z.of_nat (size destination)
      then {[TRUNCATED_UNKNOWN_FIELDS]} ∪ destination
      else record_field_names scope names ({[scope +:+ "." +:+ safe_field_name name]} ∪ destination)
  end.

(** ** Chunk validation *)
Definition parse_finish_reason (raw : string) : result LlmError FinishReason :=
  if str_eqb raw "stop" then Ok FinishReason.Stop
  else if str_eqb raw "length" then Ok FinishReason.Length
  else if str_eqb raw "content_filter" then Ok FinishReason.ContentFilter
  else if str_eqb raw "tool_calls" then Ok FinishReason.ToolCalls
  else if str_eqb raw "function_call" then Err (LlmError.UnsupportedResponseSemantics raw)
  else Err (LlmError.UnknownFinishReason (bounded_label raw 64)).

Definition empty_extension_value (v : json) : bool :=
  match v with
  | JNull => true
  | JString s => str_is_empty s
  | JArray l => match l with [] => true | _ => false end
  | JObject l => match l with [] => true | _ => false end
  | JBool _ | JNumber _ => false
  end.

Definition none_or {A} (p : A -> bool) (o : option A) : bool :=
  match o with None => true | Some a => p a end.

Definition delta_is_empty (d : DeltaWire) : bool :=
  none_or (fun r => str_eqb r "assistant") (d_role d)
  && none_or str_is_empty (d_content d)
  && none_or str_is_empty (d_refusal d)
  && none_or (fun l : list ToolCallDeltaWire => match l with [] => true | _ => false end)
       (d_tool_calls d)
  && match d_function_call d with None => true | Some _ => false end
  && forallb (fun f : string * json =>
        (str_eqb f.1 "reasoning" || str_eqb f.1 "reasoning_content"
         || str_eqb f.1 "reasoning_details") && empty_extension_value f.2) (d_extra d).

Record PreparedChunk := mk_prepared {
  pc_finish_reason : option FinishReason; pc_duplicate_finish : bool;
  pc_usage : option UsageDetails }.

Definition validate_choice (choice : ChoiceWire) (observed_finish : option FinishReason)
    (duplicate_finish_seen : bool) (finish_compat : FinishReasonCompat)
  : result LlmError (option FinishReason * bool) :=
  if negb (ch_index choice =? 0)
  then Err (LlmError.UnsupportedResponseSemantics "nonzero choice index")
  else
    match observed_finish with
    | Some observed =>
        match ch_finish_reason choice with
        | None => Err (protocol "choice data received after finish reason")
        | Some raw =>
            match finish_compat with
            | StrictOpenAi => Err (protocol "duplicate finish reason")
            | AllowOneIdenticalDuplicate =>
                if duplicate_finish_seen then Err (protocol "multiple duplicate finish reasons")
                else
                  repeated ← parse_finish_reason raw;
                  if negb (bool_decide (repeated = observed))
                  then Err (protocol "conflicting duplicate finish reason")
                  else if negb (none_or delta_is_empty (ch_delta choice))
                  then Err (protocol "choice data received after finish reason")
                  else Ok (None, true)
            end
        end
    | None =>
        _ ← match ch_delta choice with
            | Some delta =>
                if match d_function_call delta with Some _ => true | None => false end
                then Err (LlmError.UnsupportedResponseSemantics "function_call")
                else if negb (none_or (fun r => str_eqb r "assistant") (d_role delta))
                then Err (LlmError.UnsupportedResponseSemantics "delta.role")
                else Ok tt
            | None => Ok tt
            end;
        match ch_finish_reason choice with
        | None => Ok (None, false)
        | Some raw => r ← parse_finish_reason raw; Ok (Some r, false)
        end
    end.

Definition prepared_validate (chunk : ChatCompletionChunkWire)
    (observed_finish : option FinishReason) (duplicate_finish_seen : bool)
    (finish_compat : FinishReasonCompat) (usage_compat : UsageCompat)
  : result LlmError PreparedChunk :=
  match ck_choices chunk, ck_usage chunk with
  | _ :: _ :: _, _ => Err (LlmError.UnsupportedResponseSemantics "multiple choices")
  | [], None => Err (protocol "chunk has neither a choice nor usage")
  | choices, usage =>
      '(finish_reason, duplicate_finish) ←
        match choices with
        | choice :: _ => validate_choice choice observed_finish duplicate_finish_seen finish_compat
        | [] => Ok (None, false)
        end;
      usage ← match usage with
              | Some u =>
                  parse_usage_details u
                    (match usage_compat with OpenAiDropInconsistentReasoning => true | OpenAi => false end)
              | None => Ok None
              end;
      Ok (mk_prepared finish_reason duplicate_finish usage)
  end.

Definition validate_inline_error (present : bool) (policy : InlineErrorCompat)
  : result LlmError unit :=
  if negb present then Ok tt
  else match policy with Reject => Err (protocol "provider returned a JSON error object") end.

Definition normalize_tool_arguments {JP : JsonPrinter} (v : ToolArgumentsWire)
    (compat : ToolArgumentsCompat) : result LlmError string :=
  match v, compat with
  | ArgString s, _ => Ok s
  | ArgObject o, StringOrObject =>
      map_err (fun _ => protocol "failed to normalize tool argument object") (to_string o)
  | ArgObject _, JsonString =>
      Err (protocol "tool arguments must be a JSON string for this profile")
  end.

(** ** Facts *)
Lemma floor_char_boundary_spec l n :
  (floor_char_boundary l n <= n)%nat /\ is_char_boundary l (floor_char_boundary l n) = true.
Proof.
  induction n as [|n [IH1 IH2]]; [done|]. cbn [floor_char_boundary].
  destruct (is_char_boundary l (S n)) eqn:H; [done|]. split; [lia|done].
Qed.

Lemma str_len_str_of l : str_len (str_of l) = Z.of_nat (length l).
Proof. unfold str_len. f_equal. induction l; simpl; [done|]. by f_equal. Qed.

(** A label put into an error is at most three bytes over its bound, is
    the value itself when it fits, and otherwise a prefix of the value cut
    where no character is split. *)
Theorem bounded_label_spec value n :
  str_len (bounded_label value n) <= Z.of_nat n + 3 /\
  (str_len value <= Z.of_nat n -> bounded_label value n = value) /\
  (Z.of_nat n < str_len value ->
     exists k, (k <= n)%nat /\ is_char_boundary (bytes_of value) k = true /\
       bounded_label value n = str_of (take k (bytes_of value)) +:+ "...").
Proof.
  unfold bounded_label. destruct (Z.leb_spec (str_len value) (Z.of_nat n)) as [Hle|Hgt].
  - split_and!; [lia|done|lia].
  - destruct (floor_char_boundary_spec (bytes_of value) n) as [H1 H2]. split_and!; [|lia|eauto].
    rewrite str_len_app, str_len_str_of, length_take.
    assert (str_len "..." = 3) as -> by done. lia.
Qed.

(** The bound on recorded names, with the marker taking the last place. *)
Definition fields_bounded (d : gset string) : Prop :=
  Z.of_nat (size d) <= MAX_RECORDED_UNKNOWN_FIELDS - 1 \/
  (Z.of_nat (size d) <= MAX_RECORDED_UNKNOWN_FIELDS /\ TRUNCATED_UNKNOWN_FIELDS ∈ d).

Lemma size_insert_le (x : string) (d : gset string) : (size ({[x]} ∪ d) <= S (size d))%nat.
Proof.
  rewrite size_union_alt, size_singleton.
  assert (size (d ∖ {[x]}) <= size d)%nat by (apply subseteq_size; set_solver). lia.
Qed.

Lemma record_field_names_bounded scope names : forall d,
  fields_bounded d -> fields_bounded (record_field_names scope names d).
Proof.
  unfold fields_bounded. induction names as [|name names IH]; intros d Hd; simpl; [done|].
  destruct (Z.leb_spec (MAX_RECORDED_UNKNOWN_FIELDS - 1) (Z.of_nat (size d))) as [Hge|Hlt].
  - right. split; [|set_solver]. destruct Hd as [Hd|[Hd Hin]].
    + pose proof (size_insert_le TRUNCATED_UNKNOWN_FIELDS d). lia.
    + by replace ({[TRUNCATED_UNKNOWN_FIELDS]} ∪ d) with d by set_solver.
  - apply IH. left. pose proof (size_insert_le (scope +:+ "." +:+ safe_field_name name) d). lia.
Qed.
