(* ===== verification/Schema.v ===== *)
(** * Schemas: [src/src/domain/schema/]

    The controlled JSON Schema subset of tools and structured output: local
    references ([reference.rs]), the budgets ([budget.rs]), the validation of
    instances ([validate.rs]) and the compilation of schemas ([compile.rs]).

    A loop over a schema recurses on fuel; running out of it is the error
    [None], which no entry point reports (see [SchemaSpec]). *)
From Stdlib Require Import SpecFloat.
From S2P Require Import Prelude Errors Domain Structured ChatWire.

(** ** Values of [serde_json] *)
Abbreviation f64 := spec_float.

(** The conversions of numbers and the equality of values, which belong to
    [serde_json]. *)
Class JsonValues := {
  as_u64 : json -> option Z;
  as_i64 : json -> option Z;
  as_f64 : json -> option f64;
  value_eqb : json -> json -> bool }.

Definition as_str (v : json) : option string := match v with JString s => Some s | _ => None end.
Definition as_bool (v : json) : option bool := match v with JBool b => Some b | _ => None end.
Definition as_array (v : json) : option (list json) :=
  match v with JArray items => Some items | _ => None end.
Definition as_object (v : json) : option (list (string * json)) :=
  match v with JObject entries => Some entries | _ => None end.

(** [Map::get]. *)
Fixpoint obj_get (object : list (string * json)) (key : string) : option json :=
  match object with
  | [] => None
  | (k, v) :: object => if str_eqb k key then Some v else obj_get object key
  end.
Definition contains_key (object : list (string * json)) (key : string) : bool :=
  bool_decide (is_Some (obj_get object key)).

(** [f64::is_finite] and [f64::fract(x) == 0.0] of a finite number. *)
Definition f64_is_finite (x : f64) : bool :=
  match x with S754_zero _ | S754_finite _ _ _ => true | _ => false end.
Definition f64_is_integral (x : f64) : bool :=
  match x with
  | S754_zero _ => true
  | S754_finite _ m e => (0 <=? e) || (Z.pos m mod 2 ^ (- e) =? 0)
  | _ => false
  end.

(** [str::chars().count()] of valid UTF-8: the bytes that start a character. *)
Definition chars_count (s : string) : Z :=
  Z.of_nat (length (List.filter (fun b => negb (byte_in 128 191 b)) (bytes_of s))).

(** ** Sets of strings

    A [BTreeSet<String>] is its sorted list. *)
Fixpoint bset_insert (x : string) (l : list string) : list string :=
  match l with
  | [] => [x]
  | y :: l' =>
      match String.compare x y with
      | Lt => x :: l
      | Eq => l
      | Gt => y :: bset_insert x l'
      end
  end.
Definition bset_mem (x : string) (l : list string) : bool := bool_decide (x ∈ l).

(** ** Local JSON pointers *)
Fixpoint replace (c : ascii) (by_ : string) (s : string) : string :=
  match s with
  | EmptyString => EmptyString
  | String b s => if Ascii.eqb b c then by_ +:+ replace c by_ s else String b (replace c by_ s)
  end.
Definition encode_pointer_segment (segment : string) : string :=
  replace "/" "~1" (replace "~" "~0" segment).

Fixpoint decode_pointer_segment (segment : string) : result unit string :=
  match segment with
  | EmptyString => Ok EmptyString
  | String character rest =>
      if negb (Ascii.eqb character "~") then
        decoded ← decode_pointer_segment rest; Ok (String character decoded)
      else
        match rest with
        | String next rest =>
            if Ascii.eqb next "0" then
              decoded ← decode_pointer_segment rest; Ok (String "~" decoded)
            else if Ascii.eqb next "1" then
              decoded ← decode_pointer_segment rest; Ok (String "/" decoded)
            else Err tt
        | EmptyString => Err tt
        end
  end.

(** [str::strip_prefix("#/")]. *)
Definition strip_root (reference : string) : option string :=
  match reference with
  | String "#" (String "/" rest) => Some rest
  | _ => None
  end.

Fixpoint canonical_segments (segments : list string) : result unit string :=
  match segments with
  | [] => Ok EmptyString
  | raw :: segments =>
      decoded ← decode_pointer_segment raw;
      rest ← canonical_segments segments;
      Ok ("/" +:+ encode_pointer_segment decoded +:+ rest)
  end.
Definition canonicalize_local_ref (reference : string) : result unit string :=
  pointer ← ok_or (strip_root reference) tt;
  canonical ← canonical_segments (split_char "/" pointer);
  Ok ("#" +:+ canonical).

Fixpoint resolve_segments (current : json) (segments : list string) : option json :=
  match segments with
  | [] => Some current
  | segment :: segments =>
      match decode_pointer_segment segment with
      | Ok segment =>
          object ← as_object current;
          child ← obj_get object segment;
          resolve_segments child segments
      | Err _ => None
      end
  end.
Definition resolve_local_ref (root : json) (reference : string) : option json :=
  pointer ← strip_root reference;
  resolve_segments root (split_char "/" pointer).

(** ** Budgets *)
Module Budget.
Definition max_depth (l : list Z) : Z := foldr Z.max 0 l.
Fixpoint json_depth (v : json) : Z :=
  match v with
  | JArray items => 1 + max_depth (map json_depth items)
  | JObject entries => 1 + max_depth (map (fun e : string * json => json_depth e.2) entries)
  | _ => 1
  end.
End Budget.

Definition tool_failure (reason : ToolValidationFailure) (path : string) (message : string)
  : ToolValidationError := mk_tool_validation_error "arguments" reason (Some path) message.

(** The loops [for x in l { f(x)?; }] of functions without state. *)
Fixpoint all_ok {E A} (f : A -> result E unit) (l : list A) : result E unit :=
  match l with
  | [] => Ok tt
  | x :: l => _ ← f x; all_ok f l
  end.

(** [format!("{path}/{segment}")]. *)
Definition at_path (path segment : string) : string := path +:+ "/" +:+ segment.
Definition indexed {A} (l : list A) : list (string * A) :=
  imap (fun i x => (show (Z.of_nat i), x)) l.

Fixpoint check_array_lengths (limits : SchemaLimits) (value : json) (path : string)
  : result ToolValidationError unit :=
  match value with
  | JArray items =>
      if sl_max_json_array_items limits <? Z.of_nat (length items)
      then Err (tool_failure ArgumentsTooLarge path "JSON array exceeds the allowed length")
      else
        (fix go (i : nat) (items : list json) : result ToolValidationError unit :=
           match items with
           | [] => Ok tt
           | item :: items =>
               _ ← check_array_lengths limits item (at_path path (show (Z.of_nat i)));
               go (S i) items
           end) 0%nat items
  | JObject entries =>
      (fix go (entries : list (string * json)) : result ToolValidationError unit :=
         match entries with
         | [] => Ok tt
         | (key, child) :: entries =>
             _ ← check_array_lengths limits child (at_path path key); go entries
         end) entries
  | _ => Ok tt
  end.

(** ** Reference expansion *)
Record ReferenceGuard := mk_guard {
  active_refs : gset string; expansion_count : Z; max_expansions : Z }.

(** [saturating_mul] on [usize]. *)
Definition usize_saturating_mul (a b : Z) : Z := Z.min (a * b) USIZE_MAX.

Definition guard_new (limits : SchemaLimits) : ReferenceGuard :=
  mk_guard ∅ 0
    (usize_saturating_mul (Z.max (sl_max_schema_depth limits) 1)
       (Z.max (sl_max_schema_depth limits) 1)).

(** Programs on the guard; [None] is the end of the fuel. *)
Abbreviation G := (M ReferenceGuard (option ToolValidationError)).

Definition violation {A} (path message : string) : G A :=
  throw (Some (tool_failure ToolSchemaViolation path message)).
Definition refuse_if (b : bool) (path message : string) : G unit :=
  if b then violation path message else mret tt.

Definition enter (reference path : string) : G unit :=
  _ ← modify (fun g => mk_guard (active_refs g) (usize_saturating_add (expansion_count g) 1)
                         (max_expansions g));
  g ← get;
  if (max_expansions g <? expansion_count g) || bool_decide (reference ∈ active_refs g)
  then throw (Some (tool_failure ArgumentsTooDeep path
                      "local schema reference expansion exceeded the safety budget"))
  else put (mk_guard ({[reference]} ∪ active_refs g) (expansion_count g) (max_expansions g)).
Definition leave (reference : string) (g : ReferenceGuard) : ReferenceGuard :=
  mk_guard (active_refs g ∖ {[reference]}) (expansion_count g) (max_expansions g).

(** [let result = c; guard.leave(reference); result]. *)
Definition leaving (reference : string) (c : G unit) : G unit :=
  fun g => let '(g, r) := c g in (leave reference g, r).

(** ** Validation of instances *)
Section Validate.
Context {JP : JsonPrinter} {JV : JsonValues}.

Definition preflight_instance (instance : json) (limits : SchemaLimits)
  : result ToolValidationError unit :=
  encoded ← map_err (fun _ => tool_failure ToolInvalidJson "#" "arguments must be serializable JSON")
              (to_string instance);
  if max_tool_arguments_bytes official <? str_len encoded then
    Err (tool_failure ArgumentsTooLarge "#" "tool arguments exceed the allowed byte limit")
  else if sl_max_schema_depth limits <? Budget.json_depth instance then
    Err (tool_failure ArgumentsTooDeep "#" "tool arguments exceed the allowed nesting depth")
  else check_array_lengths limits instance "#".

Definition matches_basic_type (kind : string) (instance : json) : bool :=
  if str_eqb kind "object" then match instance with JObject _ => true | _ => false end
  else if str_eqb kind "array" then match instance with JArray _ => true | _ => false end
  else if str_eqb kind "string" then match instance with JString _ => true | _ => false end
  else if str_eqb kind "number" then bool_decide (is_Some (as_f64 instance))
  else if str_eqb kind "integer" then
    if bool_decide (is_Some (as_i64 instance)) || bool_decide (is_Some (as_u64 instance)) then true
    else match as_f64 instance with
         | Some value => f64_is_integral value && f64_is_finite value
         | None => false
         end
  else if str_eqb kind "boolean" then match instance with JBool _ => true | _ => false end
  else if str_eqb kind "null" then match instance with JNull => true | _ => false end
  else false.
Definition matches_type (type_value instance : json) : bool :=
  match type_value with
  | JString kind => matches_basic_type kind instance
  | JArray kinds => existsb (fun kind => matches_basic_type kind instance) (omap as_str kinds)
  | _ => false
  end.

(** [if let Some(x) = o && f(x)]. *)
Definition holds {A} (o : option A) (f : A -> bool) : bool :=
  match o with Some x => f x | None => false end.

Section Node.
Context (root : json) (limits : SchemaLimits).
(** The recursive call. *)
Context (rec : json -> json -> string -> G unit).

Definition validate_ref (reference : string) (instance : json) (path : string) : G unit :=
  match canonicalize_local_ref reference with
  | Err _ => violation path "local schema reference contains an invalid JSON Pointer escape"
  | Ok canonical =>
      match resolve_local_ref root canonical with
      | None => violation path "local schema reference could not be resolved"
      | Some resolved =>
          _ ← enter canonical path;
          leaving canonical (rec resolved instance path)
      end
  end.

Fixpoint any_branch (branches : list json) (instance : json) (path : string) : G bool :=
  match branches with
  | [] => mret false
  | branch :: branches =>
      fun g =>
        match rec branch instance path g with
        | (g, Ok _) => (g, Ok true)
        | (g, Err (Some error)) =>
            if bool_decide (tve_reason error = ArgumentsTooDeep) then (g, Err (Some error))
            else any_branch branches instance path g
        | (g, Err None) => (g, Err None)
        end
  end.
Definition validate_any_of (object : list (string * json)) (instance : json) (path : string)
  : G unit :=
  match obj_get object "anyOf" ≫= as_array with
  | Some branches =>
      matched ← any_branch branches instance path;
      refuse_if (negb matched) path "value matches no anyOf branch"
  | None => mret tt
  end.

Definition validate_scalar (object : list (string * json)) (instance : json) (path : string)
  : G unit :=
  _ ← refuse_if (holds (obj_get object "type") (fun t => negb (matches_type t instance)))
        path "value does not match the declared type";
  _ ← refuse_if (holds (obj_get object "const") (fun constant => negb (value_eqb instance constant)))
        path "value does not equal const";
  _ ← refuse_if (holds (obj_get object "enum" ≫= as_array)
                   (fun l => negb (existsb (fun item => value_eqb item instance) l)))
        path "value is not present in enum";
  _ ← match as_str instance with
      | Some text =>
          _ ← refuse_if (holds (obj_get object "minLength" ≫= as_u64)
                           (fun min => chars_count text <? min))
                path "string is shorter than minLength";
          refuse_if (holds (obj_get object "maxLength" ≫= as_u64)
                       (fun max => max <? chars_count text))
            path "string is longer than maxLength"
      | None => mret tt
      end;
  match as_f64 instance with
  | Some number =>
      _ ← refuse_if (holds (obj_get object "minimum" ≫= as_f64) (fun min => SFltb number min))
            path "number is less than minimum";
      refuse_if (holds (obj_get object "maximum" ≫= as_f64) (fun max => SFltb max number))
        path "number is greater than maximum"
  | None => mret tt
  end.

Definition validate_array (object : list (string * json)) (instance : json) (path : string)
  : G unit :=
  match as_array instance with
  | Some items =>
      _ ← (if sl_max_json_array_items limits <? Z.of_nat (length items)
           then throw (Some (tool_failure ArgumentsTooLarge path
                               "JSON array exceeds the allowed length"))
           else mret tt);
      _ ← refuse_if (holds (obj_get object "minItems" ≫= as_u64)
                       (fun min => Z.of_nat (length items) <? min))
            path "array has fewer items than minItems";
      _ ← refuse_if (holds (obj_get object "maxItems" ≫= as_u64)
                       (fun max => max <? Z.of_nat (length items)))
            path "array has more items than maxItems";
      match obj_get object "items" with
      | Some item_schema =>
          for_each (fun e : string * json => rec item_schema e.2 (at_path path e.1)) (indexed items)
      | None => mret tt
      end
  | None => mret tt
  end.

Definition validate_object (object : list (string * json)) (instance : json) (path : string)
  : G unit :=
  match as_object instance with
  | Some entries =>
      let properties := default [] (obj_get object "properties" ≫= as_object) in
      _ ← match obj_get object "required" ≫= as_array with
          | Some required =>
              for_each (fun e : string * json =>
                  match as_str e.2 with
                  | Some name =>
                      refuse_if (negb (contains_key entries name))
                        (path +:+ "/required/" +:+ e.1) "required property is missing"
                  | None => mret tt
                  end) (indexed required)
          | None => mret tt
          end;
      let additional := default true (obj_get object "additionalProperties" ≫= as_bool) in
      for_each (fun e : string * json =>
          match obj_get properties e.1 with
          | Some property_schema => rec property_schema e.2 (at_path path e.1)
          | None =>
              refuse_if (negb additional) (at_path path e.1) "additional property is not allowed"
          end) entries
  | None => mret tt
  end.

(** The body of [validate_value]. *)
Definition validate_node (schema instance : json) (path : string) : G unit :=
  match as_object schema with
  | None => violation path "schema node is not an object"
  | Some object =>
      match obj_get object "$ref" ≫= as_str with
      | Some reference => validate_ref reference instance path
      | None =>
          _ ← validate_any_of object instance path;
          _ ← validate_scalar object instance path;
          _ ← validate_array object instance path;
          validate_object object instance path
      end
  end.
End Node.

Fixpoint validate_value (fuel : nat) (root : json) (limits : SchemaLimits)
    (schema instance : json) (path : string) : G unit :=
  match fuel with
  | O => throw None
  | S fuel => validate_node root limits (validate_value fuel root limits) schema instance path
  end.

(** Every expansion leads back to a node of the root, and every other step goes
    one level down. *)
Definition validate_fuel (root : json) (limits : SchemaLimits) : nat :=
  Z.to_nat ((max_expansions (guard_new limits) + 1) * (Budget.json_depth root + 1)).

(** [validate_instance] on a schema's value; [None] if the fuel ends. *)
Definition run_instance (schema instance : json) (limits : SchemaLimits)
  : result (option ToolValidationError) unit :=
  _ ← map_err Some (preflight_instance instance limits);
  (validate_value (validate_fuel schema limits) schema limits schema instance "#"
     (guard_new limits)).2.
End Validate.

(** ** Compilation *)
Definition schema_error (field : string) (reason : SchemaFailure) (path : option string)
    (message : string) : SchemaError := mk_schema_error field reason path message.

(** Results of loops on fuel; [None] is the end of the fuel. *)
Abbreviation R := (result (option SchemaError)).
Definition reject {A} (field : string) (reason : SchemaFailure) (path : option string)
    (message : string) : R A := Err (Some (schema_error field reason path message)).
Definition reject_if (b : bool) (field : string) (reason : SchemaFailure) (path : option string)
    (message : string) : R unit := if b then reject field reason path message else Ok tt.

(** A loop [for x in l { s = f(x, s)?; }] that carries a value. *)
Fixpoint fold_ok {E S A} (f : A -> S -> result E S) (l : list A) (s : S) : result E S :=
  match l with
  | [] => Ok s
  | x :: l => s ← f x s; fold_ok f l s
  end.

Definition ALLOWED_KEYWORDS : list string :=
  ["$schema"; "$defs"; "$ref"; "type"; "description"; "title"; "properties"; "required";
   "additionalProperties"; "items"; "enum"; "const"; "anyOf"; "minLength"; "maxLength"; "minimum";
   "maximum"; "minItems"; "maxItems"].

(** *** Local definitions *)
Fixpoint collect_defs_at (fuel : nat) (value : json) (path : string) (defs : list string)
  : R (list string) :=
  match fuel with
  | O => Err None
  | S fuel =>
      match as_object value with
      | None => Ok defs
      | Some object =>
          defs ← match obj_get object "$defs" with
                 | None => Ok defs
                 | Some definitions =>
                     match as_object definitions with
                     | None => reject "schema.$defs" InvalidKeywordType
                                 (Some (path +:+ "/$defs")) "$defs must be an object"
                     | Some map =>
                         fold_ok (fun (e : string * json) defs =>
                             let key := path +:+ "/$defs/" +:+ encode_pointer_segment e.1 in
                             if bset_mem key defs
                             then reject "schema.$defs" InvalidKeywordType (Some key)
                                    "duplicate local definition name"
                             else collect_defs_at fuel e.2 key (bset_insert key defs)) map defs
                     end
                 end;
          fold_ok (fun (e : string * json) defs =>
              if str_eqb e.1 "$defs" then Ok defs
              else collect_defs_at fuel e.2 (at_path path e.1) defs) object defs
      end
  end.
Definition schema_fuel (value : json) : nat := S (Z.to_nat (Budget.json_depth value)).
Definition collect_defs (value : json) : R (list string) :=
  collect_defs_at (schema_fuel value) value "#" [].

(** *** The reference graph *)
Fixpoint collect_semantic_references (fuel : nat) (value : json) (references : list string)
  : R (list string) :=
  match fuel with
  | O => Err None
  | S fuel =>
      match value with
      | JObject object =>
          references ←
            match obj_get object "$ref" with
            | None => Ok references
            | Some reference =>
                match as_str reference with
                | None => reject "schema.$ref" InvalidKeywordType None "$ref must be a string"
                | Some reference =>
                    match canonicalize_local_ref reference with
                    | Err _ => reject "schema.$ref" InvalidKeywordType None
                                 "local schema reference contains an invalid JSON Pointer escape"
                    | Ok canonical => Ok (bset_insert canonical references)
                    end
                end
            end;
          fold_ok (fun (e : string * json) references =>
              if str_eqb e.1 "$defs" then Ok references
              else collect_semantic_references fuel e.2 references) object references
      | JArray items => fold_ok (collect_semantic_references fuel) items references
      | _ => Ok references
      end
  end.

Definition reference_too_deep {A} : R A :=
  reject "schema.$ref" TooDeep None
    "local schema references are cyclic or exceed the expansion budget".

(** The sets a depth-first visit mutates. *)
Record Visit := mk_visit { visiting : gset string; visited : gset string; visit_count : Z }.

Fixpoint visit_reference_node (fuel : nat) (graph : gmap string (list string))
    (max_depth max_count : Z) (depth : Z) (node : string) (v : Visit) : R Visit :=
  match fuel with
  | O => Err None
  | S fuel =>
      if bool_decide (node ∈ visited v) then Ok v
      else if (max_depth <? depth) || bool_decide (node ∈ visiting v) then reference_too_deep
      else
        let v := mk_visit ({[node]} ∪ visiting v) (visited v)
                   (usize_saturating_add (visit_count v) 1) in
        if max_count <? visit_count v then reference_too_deep
        else
          v ← match graph !! node with
              | Some edges =>
                  fold_ok (visit_reference_node fuel graph max_depth max_count
                             (usize_saturating_add depth 1)) edges v
              | None => Ok v
              end;
          Ok (mk_visit (visiting v ∖ {[node]}) ({[node]} ∪ visited v) (visit_count v))
  end.

Definition node_schema (root : json) (node : string) : option json :=
  if str_eqb node "#" then Some root else resolve_local_ref root node.

Definition reference_graph (root : json) (nodes : list string) : R (gmap string (list string)) :=
  fold_ok (fun node graph =>
      match node_schema root node with
      | None => reject "schema.$ref" UnresolvedLocalReference None
                  "local schema definition could not be resolved"
      | Some schema =>
          references ← collect_semantic_references (schema_fuel schema) schema [];
          Ok (<[node := references]> graph)
      end) nodes ∅.

Definition validate_local_reference_graph (root : json) (defs : list string)
    (limits : SchemaLimits) : R unit :=
  let nodes := "#" :: defs in
  graph ← reference_graph root nodes;
  let max_count := usize_saturating_mul (Z.max (sl_max_schema_depth limits) 1)
                     (Z.max (Z.of_nat (length nodes)) 1) in
  _ ← fold_ok (visit_reference_node (Z.to_nat (sl_max_schema_depth limits + 2)) graph
                 (sl_max_schema_depth limits) max_count 0) nodes (mk_visit ∅ ∅ 0);
  Ok tt.

(** *** Keywords *)
Section Compile.
Context {JP : JsonPrinter} {JV : JsonValues}.

Definition validate_basic_type (kind path : string) : R unit :=
  reject_if (negb (bool_decide (kind ∈ ["object"; "array"; "string"; "number"; "integer"; "boolean";
                                        "null"])))
    "schema.type" InvalidKeywordType (Some (path +:+ "/type")) "type uses an unsupported primitive".

Definition validate_type_keyword (type_value : json) (path : string) : R unit :=
  match type_value with
  | JString kind => validate_basic_type kind path
  | JArray kinds =>
      _ ← reject_if (bool_decide (kinds = [])) "schema.type" InvalidKeywordType
            (Some (path +:+ "/type")) "type arrays must not be empty";
      _ ← fold_ok (fun (e : string * json) seen =>
              match as_str e.2 with
              | None => reject "schema.type" InvalidKeywordType (Some (path +:+ "/type/" +:+ e.1))
                          "type array entries must be strings"
              | Some kind =>
                  _ ← reject_if (bset_mem kind seen) "schema.type" InvalidKeywordType
                        (Some (path +:+ "/type/" +:+ e.1)) "type array entries must be unique";
                  _ ← validate_basic_type kind path;
                  Ok (bset_insert kind seen)
              end) (indexed kinds) [];
      Ok tt
  | _ => reject "schema.type" InvalidKeywordType (Some (path +:+ "/type"))
           "type must be a string or array of strings"
  end.

Definition validate_ref_keyword (object : list (string * json)) (path : string)
    (defs : list string) : R unit :=
  match obj_get object "$ref" with
  | None => Ok tt
  | Some reference =>
      match as_str reference with
      | None => reject "schema.$ref" InvalidKeywordType (Some (path +:+ "/$ref"))
                  "$ref must be a string"
      | Some reference =>
          _ ← reject_if (negb (bool_decide (is_Some (strip_root reference)))) "schema.$ref"
                RemoteReference (Some (path +:+ "/$ref"))
                "remote schema references are not allowed";
          match canonicalize_local_ref reference with
          | Err _ => reject "schema.$ref" InvalidKeywordType (Some (path +:+ "/$ref"))
                       "local schema reference contains an invalid JSON Pointer escape"
          | Ok canonical =>
              reject_if (negb (bset_mem canonical defs)) "schema.$ref" UnresolvedLocalReference
                (Some (path +:+ "/$ref")) "local schema reference could not be resolved"
          end
      end
  end.

Definition validate_required_keyword (object : list (string * json)) (path : string) : R unit :=
  match obj_get object "required" with
  | None => Ok tt
  | Some required =>
      match as_array required with
      | None => reject "schema.required" InvalidKeywordType (Some (path +:+ "/required"))
                  "required must be an array of strings"
      | Some names =>
          seen ← fold_ok (fun (e : string * json) seen =>
                     match as_str e.2 with
                     | None => reject "schema.required" InvalidKeywordType
                                 (Some (path +:+ "/required/" +:+ e.1))
                                 "required entries must be strings"
                     | Some name =>
                         if bset_mem name seen
                         then reject "schema.required" InvalidKeywordType
                                (Some (path +:+ "/required/" +:+ e.1))
                                "required entries must be unique"
                         else Ok (bset_insert name seen)
                     end) (indexed names) [];
          match obj_get object "properties" ≫= as_object with
          | Some properties =>
              all_ok (fun name =>
                  reject_if (negb (contains_key properties name)) "schema.required"
                    InvalidKeywordType (Some (path +:+ "/required"))
                    "required names must exist in properties") seen
          | None =>
              reject_if (negb (bool_decide (seen = []))) "schema.required" InvalidKeywordType
                (Some (path +:+ "/required")) "required requires object properties"
          end
      end
  end.

Definition optional_usize_keyword (object : list (string * json)) (key path : string)
  : R (option Z) :=
  match obj_get object key with
  | None => Ok None
  | Some value =>
      match as_u64 value with
      | None => reject ("schema." +:+ key) InvalidKeywordType (Some (at_path path key))
                  "length and item boundaries must be non-negative integers"
      | Some raw =>
          match checked 0 USIZE_MAX raw with
          | None => reject ("schema." +:+ key) InvalidKeywordType (Some (at_path path key))
                      "length or item boundary cannot be represented by this SDK"
          | Some converted => Ok (Some converted)
          end
      end
  end.

Definition validate_ordered_usize_pair (minimum maximum : option Z) (minimum_key path : string)
  : R unit :=
  match minimum, maximum with
  | Some min, Some max =>
      reject_if (max <? min) ("schema." +:+ minimum_key) InvalidKeywordType
        (Some (at_path path minimum_key)) "minimum boundary must not exceed maximum boundary"
  | _, _ => Ok tt
  end.

Definition optional_json_number (object : list (string * json)) (key path : string)
  : R (option f64) :=
  match obj_get object key with
  | None => Ok None
  | Some value =>
      match as_f64 value with
      | Some number =>
          if f64_is_finite number then Ok (Some number)
          else reject ("schema." +:+ key) InvalidKeywordType (Some (at_path path key))
                 "numeric boundaries must be finite JSON numbers"
      | None => reject ("schema." +:+ key) InvalidKeywordType (Some (at_path path key))
                  "numeric boundaries must be finite JSON numbers"
      end
  end.

Definition validate_boundary_keywords (object : list (string * json)) (path : string)
    (limits : SchemaLimits) : R unit :=
  min_length ← optional_usize_keyword object "minLength" path;
  max_length ← optional_usize_keyword object "maxLength" path;
  min_items ← optional_usize_keyword object "minItems" path;
  max_items ← optional_usize_keyword object "maxItems" path;
  _ ← validate_ordered_usize_pair min_length max_length "minLength" path;
  _ ← validate_ordered_usize_pair min_items max_items "minItems" path;
  _ ← reject_if (holds max_items (fun value => sl_max_json_array_items limits <? value))
        "schema.maxItems" SchemaTooLarge (Some (path +:+ "/maxItems"))
        "maxItems exceeds the allowed array length";
  minimum ← optional_json_number object "minimum" path;
  maximum ← optional_json_number object "maximum" path;
  match minimum, maximum with
  | Some min, Some max =>
      reject_if (SFltb max min) "schema.minimum" InvalidKeywordType (Some (path +:+ "/minimum"))
        "minimum must not exceed maximum"
  | _, _ => Ok tt
  end.

(** The keywords whose value is an object of schemas. *)
Definition schema_map (rec : json -> string -> R unit) (object : list (string * json))
    (keyword path message : string) : R unit :=
  match obj_get object keyword with
  | None => Ok tt
  | Some value =>
      match as_object value with
      | None => reject ("schema." +:+ keyword) InvalidKeywordType (Some (at_path path keyword))
                  message
      | Some map =>
          all_ok (fun e : string * json => rec e.2 (at_path (at_path path keyword) e.1)) map
      end
  end.

Definition validate_any_of_keyword (rec : json -> string -> R unit)
    (object : list (string * json)) (path : string) : R unit :=
  match obj_get object "anyOf" with
  | None => Ok tt
  | Some any_of =>
      match as_array any_of with
      | None => reject "schema.anyOf" InvalidKeywordType (Some (path +:+ "/anyOf"))
                  "anyOf must be an array"
      | Some branches =>
          _ ← reject_if (bool_decide (branches = [])) "schema.anyOf" InvalidKeywordType
                (Some (path +:+ "/anyOf")) "anyOf must not be empty";
          all_ok (fun e : string * json => rec e.2 (path +:+ "/anyOf/" +:+ e.1)) (indexed branches)
      end
  end.

Fixpoint validate_schema_node (fuel : nat) (defs : list string) (limits : SchemaLimits)
    (value : json) (path : string) : R unit :=
  match fuel with
  | O => Err None
  | S fuel =>
      match as_object value with
      | None => reject "schema" NotAnObject (Some path) "schema nodes must be objects"
      | Some object =>
          let rec := validate_schema_node fuel defs limits in
          _ ← all_ok (fun e : string * json =>
                reject_if (negb (bool_decide (e.1 ∈ ALLOWED_KEYWORDS))) "schema" UnsupportedKeyword
                  (Some (at_path path e.1)) "schema contains an unsupported keyword") object;
          _ ← validate_ref_keyword object path defs;
          _ ← match obj_get object "type" with
              | Some type_value => validate_type_keyword type_value path
              | None => Ok tt
              end;
          _ ← validate_required_keyword object path;
          _ ← reject_if (holds (obj_get object "additionalProperties")
                           (fun v => negb (bool_decide (is_Some (as_bool v)))))
                "schema.additionalProperties" InvalidKeywordType
                (Some (path +:+ "/additionalProperties"))
                "additionalProperties must be a boolean";
          _ ← schema_map rec object "properties" path "properties must be an object";
          _ ← match obj_get object "items" with
              | Some items => rec items (path +:+ "/items")
              | None => Ok tt
              end;
          _ ← validate_any_of_keyword rec object path;
          _ ← schema_map rec object "$defs" path "$defs must be an object";
          validate_boundary_keywords object path limits
      end
  end.

(** *** Strict mode *)
Section Strict.
Context (node_is_strict_compatible : json -> bool).
Definition object_is_strict (object : list (string * json)) : bool :=
  match obj_get object "additionalProperties" with
  | Some (JBool false) =>
      match obj_get object "properties" ≫= as_object with
      | None => false
      | Some properties =>
          let required := omap as_str (default [] (obj_get object "required" ≫= as_array)) in
          forallb (fun e : string * json => bool_decide (e.1 ∈ required)) properties
          && forallb (fun e : string * json => node_is_strict_compatible e.2) properties
      end
  | _ => false
  end.
End Strict.

(** The fuel is the depth of the schema: a node of depth [n] never reaches [O]. *)
Fixpoint node_is_strict_compatible (fuel : nat) (value : json) : bool :=
  match fuel with
  | O => false
  | S fuel =>
      match as_object value with
      | None => false
      | Some object =>
          match obj_get object "anyOf" ≫= as_array with
          | Some branches =>
              negb (bool_decide (branches = [])) && forallb (node_is_strict_compatible fuel) branches
          | None =>
              match obj_get object "type" with
              | Some (JString kind) =>
                  if str_eqb kind "object" then object_is_strict (node_is_strict_compatible fuel) object
                  else if str_eqb kind "array" then
                    holds (obj_get object "items") (node_is_strict_compatible fuel)
                  else true
              | Some (JArray _) | None => true
              | _ => false
              end
          end
      end
  end.

Definition is_strict_compatible_root (value : json) : bool :=
  match as_object value with
  | None => false
  | Some object =>
      match obj_get object "type" ≫= as_str with
      | Some kind =>
          str_eqb kind "object"
          && object_is_strict (node_is_strict_compatible (schema_fuel value)) object
      | None => false
      end
  end.

(** [compile_schema], returning [strict_compatible]. *)
Definition compile_schema (value : json) (limits : SchemaLimits) : R bool :=
  encoded ← map_err (fun _ => Some (schema_error "schema" InvalidKeywordType None
                                      "schema must be serializable JSON")) (to_string value);
  _ ← reject_if (sl_max_schema_bytes limits <? str_len encoded) "schema" SchemaTooLarge None
        "schema exceeds the allowed byte limit";
  _ ← reject_if (sl_max_schema_depth limits <? Budget.json_depth value) "schema" TooDeep None
        "schema exceeds the allowed nesting depth";
  _ ← reject_if (negb (json_is_object value)) "schema" NotAnObject (Some "#")
        "schema root must be a JSON object";
  defs ← collect_defs value;
  _ ← validate_schema_node (schema_fuel value) defs limits value "#";
  _ ← validate_local_reference_graph value defs limits;
  Ok (is_strict_compatible_root value).

(** [ToolSchema::with_limits] and [ToolSchema::new]. *)
Definition tool_schema_with_limits (value : json) (limits : SchemaLimits) : R ToolSchema :=
  strict ← compile_schema value limits;
  Ok (mk_tool_schema value strict).
Definition tool_schema_new (value : json) : R ToolSchema :=
  tool_schema_with_limits value schema_limits_official.

(** [ToolSchema::validate_instance], offered to the clients of [SchemaEngine].
    The branch for spent fuel is never taken: [SchemaSpec.run_total]. *)
#[global] Instance schema_engine : SchemaEngine := fun schema instance limits =>
  match run_instance (schema_value schema) instance limits with
  | Ok tt => Ok tt
  | Err (Some e) => Err e
  | Err None => Err (tool_failure ArgumentsTooDeep "#"
                       "local schema reference expansion exceeded the safety budget")
  end.
End Compile.
