(* ===== verification/SchemaSpec.v ===== *)
(** * Properties of the schema component

    Validation against a declarative notion of conformance: total, exact, and
    monotone in its limits, which is the law its clients rely on. *)
From Stdlib Require Import SpecFloat.
From S2P Require Import Prelude Errors Domain Structured ChatWire Schema.

(** ** Depth *)
Lemma max_depth_elem l x : x ∈ l -> x <= Budget.max_depth l.
Proof. induction 1; simpl; lia. Qed.
Lemma max_depth_nonneg l : 0 <= Budget.max_depth l.
Proof. induction l; simpl; lia. Qed.
Lemma json_depth_pos v : 1 <= Budget.json_depth v.
Proof.
  destruct v as [| | | |items|entries]; simpl; try lia.
  - pose proof (max_depth_nonneg (map Budget.json_depth items)). lia.
  - pose proof (max_depth_nonneg (map (fun e : string * json => Budget.json_depth e.2) entries)). lia.
Qed.

Lemma depth_item items v : v ∈ items -> Budget.json_depth v < Budget.json_depth (JArray items).
Proof.
  intros Hv. simpl. pose proof (max_depth_elem (map Budget.json_depth items) (Budget.json_depth v)) as H.
  rewrite list_elem_of_fmap in H. specialize (H ltac:(eauto)). lia.
Qed.
Lemma depth_entry entries k v :
  (k, v) ∈ entries -> Budget.json_depth v < Budget.json_depth (JObject entries).
Proof.
  intros Hv. simpl.
  pose proof (max_depth_elem (map (fun e : string * json => Budget.json_depth e.2) entries)
                (Budget.json_depth v)) as H.
  rewrite list_elem_of_fmap in H. specialize (H ltac:(by exists (k, v))). lia.
Qed.
Lemma obj_get_elem o k v : obj_get o k = Some v -> (k, v) ∈ o.
Proof.
  induction o as [|[k' v'] o IH]; simpl; [done|]. destruct (str_eqb k' k) eqn:E; [apply str_eqb_spec in E as ->|].
  - intros [= ->]. left.
  - intros H. right. auto.
Qed.
Lemma depth_get o k v : obj_get o k = Some v -> Budget.json_depth v < Budget.json_depth (JObject o).
Proof. intros ?%obj_get_elem. by eapply depth_entry. Qed.

Lemma as_object_inv v o : as_object v = Some o -> v = JObject o.
Proof. destruct v; simpl; congruence. Qed.
Lemma as_array_inv v l : as_array v = Some l -> v = JArray l.
Proof. destruct v; simpl; congruence. Qed.
Lemma get_array_elem o k l v :
  obj_get o k ≫= as_array = Some l -> v ∈ l -> Budget.json_depth v < Budget.json_depth (JObject o).
Proof.
  intros (a & Ha & ->%as_array_inv)%bind_Some Hv. apply depth_get in Ha.
  apply depth_item in Hv. lia.
Qed.
Lemma get_entry_elem o k m key v :
  obj_get o k ≫= as_object = Some m -> obj_get m key = Some v ->
  Budget.json_depth v < Budget.json_depth (JObject o).
Proof.
  intros (a & Ha & ->%as_object_inv)%bind_Some Hv. apply depth_get in Ha, Hv. lia.
Qed.
Lemma resolve_depth segments v w :
  resolve_segments v segments = Some w -> Budget.json_depth w <= Budget.json_depth v.
Proof.
  revert v. induction segments as [|s segments IH]; simpl; intros v; [intros [= ->]; lia|].
  destruct (decode_pointer_segment s); [|done].
  intros (o & ->%as_object_inv & (c & Hc & Hr)%bind_Some)%bind_Some.
  apply IH in Hr. apply depth_get in Hc. lia.
Qed.
Lemma resolve_ref_depth root reference w :
  resolve_local_ref root reference = Some w -> Budget.json_depth w <= Budget.json_depth root.
Proof. intros (p & _ & H)%bind_Some. by eapply resolve_depth. Qed.

(** ** Loops *)
Lemma elem_of_indexed {A} (l : list A) e : e ∈ indexed l -> e.2 ∈ l.
Proof.
  unfold indexed. intros (i & x & -> & Hx)%elem_of_lookup_imap_1. by eapply list_elem_of_lookup_2.
Qed.
Lemma indexed_elem {A} (l : list A) x : x ∈ l -> exists e, e ∈ indexed l /\ e.2 = x.
Proof.
  intros [i Hi]%list_elem_of_lookup_1. exists (show (Z.of_nat i), x). split; [|done].
  apply list_elem_of_lookup. exists i. unfold indexed. by rewrite list_lookup_imap, Hi.
Qed.

(** [for_each] with an invariant on the state and a fact per element. *)
Lemma wp_for_each_all {St E A} (f : A -> M St E unit) (l : list A) (I : St -> Prop)
    (P : A -> Prop) (R : E -> St -> Prop) s :
  (forall x s', x ∈ l -> I s' -> wp (f x) (fun _ s'' => I s'' /\ P x) R s') ->
  I s -> wp (for_each f l) (fun _ s' => I s' /\ forall x, x ∈ l -> P x) R s.
Proof.
  revert s. induction l as [|x l IH]; intros s Hf HI; simpl.
  - split; [done|]. intros x. by rewrite elem_of_nil.
  - apply wp_bind. eapply wp_mono; [apply Hf; [left|done]| |auto].
    intros _ s' [HI' HP]. eapply wp_mono; [apply IH; [|done]| |auto].
    + intros. apply Hf; [by right|done].
    + intros _ s'' [HI'' Hall]. split; [done|]. intros y. rewrite elem_of_cons.
      intros [->|?]; auto.
Qed.

(** ** Conformance *)
Fixpoint arrays_within (n : Z) (v : json) : bool :=
  match v with
  | JArray items => (Z.of_nat (length items) <=? n) && forallb (arrays_within n) items
  | JObject entries => forallb (fun e : string * json => arrays_within n e.2) entries
  | _ => true
  end.

Section Conformance.
Context {JP : JsonPrinter} {JV : JsonValues}.

(** The keywords that concern the value itself: of any type, of arrays and of
    objects. *)
Definition scalar_ok (object : list (string * json)) (v : json) : Prop :=
  (forall t, obj_get object "type" = Some t -> matches_type t v = true) /\
  (forall c, obj_get object "const" = Some c -> value_eqb v c = true) /\
  (forall l, obj_get object "enum" ≫= as_array = Some l ->
     exists item, item ∈ l /\ value_eqb item v = true) /\
  (forall text, as_str v = Some text ->
     (forall min, obj_get object "minLength" ≫= as_u64 = Some min -> min <= chars_count text) /\
     (forall max, obj_get object "maxLength" ≫= as_u64 = Some max -> chars_count text <= max)) /\
  (forall number, as_f64 v = Some number ->
     (forall min, obj_get object "minimum" ≫= as_f64 = Some min -> SFltb number min = false) /\
     (forall max, obj_get object "maximum" ≫= as_f64 = Some max -> SFltb max number = false)).
Definition array_ok (object : list (string * json)) (v : json) : Prop :=
  forall items, as_array v = Some items ->
    (forall min, obj_get object "minItems" ≫= as_u64 = Some min -> min <= Z.of_nat (length items)) /\
    (forall max, obj_get object "maxItems" ≫= as_u64 = Some max -> Z.of_nat (length items) <= max).
Definition object_ok (object : list (string * json)) (v : json) : Prop :=
  forall entries, as_object v = Some entries ->
    (forall l name, obj_get object "required" ≫= as_array = Some l -> JString name ∈ l ->
       is_Some (obj_get entries name)) /\
    (forall key child, (key, child) ∈ entries ->
       obj_get (default [] (obj_get object "properties" ≫= as_object)) key = None ->
       default true (obj_get object "additionalProperties" ≫= as_bool) = true).

(** [conforms root schema v]: the instance [v] satisfies [schema], read in the
    document [root]. *)
Inductive conforms (root : json) : json -> json -> Prop :=
| conforms_ref object reference canonical resolved v :
    obj_get object "$ref" ≫= as_str = Some reference ->
    canonicalize_local_ref reference = Ok canonical ->
    resolve_local_ref root canonical = Some resolved ->
    conforms root resolved v -> conforms root (JObject object) v
| conforms_node object v :
    obj_get object "$ref" ≫= as_str = None ->
    (forall branches, obj_get object "anyOf" ≫= as_array = Some branches ->
       exists branch, branch ∈ branches /\ conforms root branch v) ->
    scalar_ok object v -> array_ok object v -> object_ok object v ->
    (forall items schema item, as_array v = Some items -> obj_get object "items" = Some schema ->
       item ∈ items -> conforms root schema item) ->
    (forall entries key child schema, as_object v = Some entries -> (key, child) ∈ entries ->
       obj_get (default [] (obj_get object "properties" ≫= as_object)) key = Some schema ->
       conforms root schema child) ->
    conforms root (JObject object) v.

(** ** Validation is exact *)

(** What a failure says about the statement [P] it refutes: a violation refutes
    it, a spent budget says nothing, and there is no other failure. *)
Definition verdict (P : Prop) (e : option ToolValidationError) : Prop :=
  match e with
  | None => True
  | Some e =>
      match tve_reason e with
      | ToolSchemaViolation => ~ P
      | ArgumentsTooDeep => True
      | _ => False
      end
  end.
Lemma verdict_impl (P Q : Prop) e : (Q -> P) -> verdict P e -> verdict Q e.
Proof. unfold verdict. destruct e as [e|]; [|done]. destruct (tve_reason e); tauto. Qed.

(** [c] decides [P], up to its budget. *)
Definition decides (c : G unit) (P : Prop) : Prop :=
  forall g, wp c (fun _ _ => P) (fun e _ => verdict P e) g.

Lemma decides_bind (c1 c2 : G unit) (P1 P2 : Prop) :
  decides c1 P1 -> (P1 -> decides c2 P2) -> decides (_ ← c1; c2) (P1 /\ P2).
Proof.
  intros H1 H2 g. apply wp_bind. eapply wp_mono; [apply H1| |].
  - intros u g' HP. eapply wp_mono; [by apply H2|tauto|]. intros e s. apply verdict_impl. tauto.
  - intros e s. apply verdict_impl. tauto.
Qed.
Lemma decides_iff (c : G unit) (P Q : Prop) : (P <-> Q) -> decides c P -> decides c Q.
Proof.
  intros [H1 H2] Hc g. eapply wp_mono; [apply Hc|auto|]. intros e s. by apply verdict_impl.
Qed.
Lemma decides_ret (P : Prop) : P -> decides (mret tt) P.
Proof. intros HP g. by apply wp_ret. Qed.
Lemma decides_refuse b path message P : (P <-> b = false) -> decides (refuse_if b path message) P.
Proof.
  intros HP g. unfold refuse_if. destruct b.
  - apply wp_throw. simpl. rewrite HP. done.
  - apply wp_ret. by apply HP.
Qed.
Lemma holds_false {A} (o : option A) f : holds o f = false <-> forall x, o = Some x -> f x = false.
Proof. destruct o as [a|]; simpl; split; [intros H y Hy; by simplify_eq|auto|done|done]. Qed.
Lemma decides_for_each {A} (f : A -> G unit) l (P : A -> Prop) :
  (forall x, x ∈ l -> decides (f x) (P x)) ->
  decides (for_each f l) (forall x, x ∈ l -> P x).
Proof.
  induction l as [|x l IH]; intros Hf; simpl.
  - apply decides_ret. intros x. by rewrite elem_of_nil.
  - eapply decides_iff; [|apply (decides_bind _ _ (P x) (forall y, y ∈ l -> P y))].
    + setoid_rewrite elem_of_cons. naive_solver.
    + apply Hf. left.
    + intros _. apply IH. intros. apply Hf. by right.
Qed.
Lemma decides_some {A} (o : option A) (k : A -> G unit) (P : A -> Prop) :
  (forall x, o = Some x -> decides (k x) (P x)) ->
  decides (match o with Some x => k x | None => mret tt end) (forall x, o = Some x -> P x).
Proof.
  destruct o as [a|]; intros Hk; [|by apply decides_ret].
  eapply decides_iff; [|by apply Hk]. split; [intros HP y Hy; by simplify_eq|auto].
Qed.

Section Node.
Context (root : json) (limits : SchemaLimits) (rec : json -> json -> string -> G unit).
Abbreviation within v := (arrays_within (sl_max_json_array_items limits) v = true).
Context (Hrec : forall schema v path, within v -> decides (rec schema v path) (conforms root schema v)).

Lemma validate_scalar_decides object v path :
  decides (validate_scalar object v path) (scalar_ok object v).
Proof using.
  unfold validate_scalar, scalar_ok.
  repeat (apply decides_bind; [|intros _]).
  1-3: apply decides_refuse; rewrite holds_false; split; intros H x Hx; specialize (H x Hx).
  - by rewrite H.
  - by apply negb_false_iff.
  - by rewrite H.
  - by apply negb_false_iff.
  - apply negb_false_iff, List.existsb_exists. destruct H as (i & Hi & He). exists i.
    by rewrite <- list_elem_of_In.
  - apply negb_false_iff, List.existsb_exists in H as (i & Hi & He). exists i.
    by rewrite list_elem_of_In.
  - apply decides_some. intros text _. apply decides_bind; [|intros _];
      apply decides_refuse; rewrite holds_false; apply forall_proper; intros x;
      rewrite Z.ltb_ge; done.
  - apply decides_some. intros number _. apply decides_bind; [|intros _];
      apply decides_refuse; rewrite holds_false; done.
Qed.

Lemma within_items items v : within (JArray items) -> v ∈ items -> within v.
Proof using.
  simpl. intros [_ H]%andb_true_iff Hv. rewrite List.forallb_forall in H.
  apply H. by rewrite <- list_elem_of_In.
Qed.
Lemma within_entries entries k v : within (JObject entries) -> (k, v) ∈ entries -> within v.
Proof using.
  simpl. intros H Hv. rewrite List.forallb_forall in H.
  apply (H (k, v)). by rewrite <- list_elem_of_In.
Qed.

Lemma validate_array_decides object v path :
  within v ->
  decides (validate_array limits rec object v path)
    (array_ok object v /\
     forall items schema item, as_array v = Some items -> obj_get object "items" = Some schema ->
       item ∈ items -> conforms root schema item).
Proof using Hrec.
  intros Hw. unfold validate_array, array_ok.
  eapply decides_iff; [|apply (decides_some _ _ (fun items =>
    ((forall min, obj_get object "minItems" ≫= as_u64 = Some min -> min <= Z.of_nat (length items)) /\
     (forall max, obj_get object "maxItems" ≫= as_u64 = Some max -> Z.of_nat (length items) <= max)) /\
    (forall schema, obj_get object "items" = Some schema ->
       forall item, item ∈ items -> conforms root schema item)))].
  { naive_solver. }
  intros items ->%as_array_inv.
  assert (sl_max_json_array_items limits <? Z.of_nat (length items) = false) as ->.
  { simpl in Hw. apply andb_true_iff in Hw as [Hl%Z.leb_le _]. by apply Z.ltb_ge. }
  match goal with |- decides _ ((?A /\ ?B) /\ ?C) => apply (decides_iff _ (True /\ A /\ B /\ C)) end;
    [tauto|].
  apply decides_bind; [by apply decides_ret|intros _].
  apply decides_bind; [|intros _; apply decides_bind; [|intros _]].
  - apply decides_refuse. rewrite holds_false. apply forall_proper. intros x. by rewrite Z.ltb_ge.
  - apply decides_refuse. rewrite holds_false. apply forall_proper. intros x. by rewrite Z.ltb_ge.
  - apply decides_some. intros schema _.
    eapply decides_iff; [|apply (decides_for_each _ _ (fun e => conforms root schema e.2))].
    + split; [|intros H e He; apply H; by apply elem_of_indexed].
      intros H item (e & He & <-)%indexed_elem. auto.
    + intros e He. apply Hrec. eapply within_items; [done|]. by apply elem_of_indexed.
Qed.

Lemma validate_object_decides object v path :
  within v ->
  decides (validate_object rec object v path)
    (object_ok object v /\
     forall entries key child schema, as_object v = Some entries -> (key, child) ∈ entries ->
       obj_get (default [] (obj_get object "properties" ≫= as_object)) key = Some schema ->
       conforms root schema child).
Proof using Hrec.
  intros Hw. unfold validate_object, object_ok.
  set (properties := default [] (obj_get object "properties" ≫= as_object)).
  set (additional := default true (obj_get object "additionalProperties" ≫= as_bool)).
  eapply decides_iff; [|apply (decides_some _ _ (fun entries =>
    (forall l, obj_get object "required" ≫= as_array = Some l ->
       forall name, JString name ∈ l -> is_Some (obj_get entries name)) /\
    (forall e, e ∈ entries ->
       match obj_get properties e.1 with
       | Some schema => conforms root schema e.2
       | None => additional = true
       end)))].
  { split.
    - intros H. split; [|].
      + intros entries He. destruct (H entries He) as [Hr Hp]. split; [naive_solver|].
        intros key child Hin Hn. specialize (Hp _ Hin). simpl in Hp. by rewrite Hn in Hp.
      + intros entries key child schema He Hin Hs. destruct (H entries He) as [_ Hp].
        specialize (Hp _ Hin). simpl in Hp. by rewrite Hs in Hp.
    - intros [Ho Hc] entries He. destruct (Ho entries He) as [Hr Ha]. split; [naive_solver|].
      intros [key child] Hin. simpl. destruct (obj_get properties key) eqn:Hk; eauto. }
  intros entries ->%as_object_inv. apply decides_bind; [|intros _].
  - apply decides_some. intros l _.
    eapply decides_iff; [|apply (decides_for_each _ _ (fun e =>
      forall name, as_str e.2 = Some name -> is_Some (obj_get entries name)))].
    + split.
      * intros H name (e & He & Hn)%indexed_elem. apply (H e He). by rewrite Hn.
      * intros H e He%elem_of_indexed name Hn. apply H. destruct (e.2); simpl in *; congruence.
    + intros e He. apply decides_some. intros name _. apply decides_refuse.
      unfold contains_key. by rewrite negb_false_iff, bool_decide_eq_true.
  - apply decides_for_each. intros [key child] Hin. simpl.
    destruct (obj_get properties key).
    + apply Hrec. by eapply within_entries.
    + apply decides_refuse. by rewrite negb_false_iff.
Qed.

Lemma any_branch_wp branches v path g :
  within v ->
  wp (any_branch rec branches v path)
    (fun b _ => b = true <-> exists branch, branch ∈ branches /\ conforms root branch v)
    (fun e _ => forall P, verdict P e) g.
Proof using Hrec.
  intros Hw. revert g. induction branches as [|branch branches IH]; intros g.
  - apply wp_ret. split; [done|]. intros (? & []%elem_of_nil & _).
  - unfold wp. simpl. pose proof (Hrec branch v path Hw g) as H. unfold wp in H.
    destruct (rec branch v path g) as [g' [[]|[e|]]]; [| |done].
    + split; [intros _; exists branch; split; [left|done]|done].
    + case_bool_decide as He; [intros P; simpl; by rewrite He|].
      specialize (IH g'). unfold wp in IH. destruct (any_branch _ _ _ _ g') as [g'' [b|e']]; [|done].
      rewrite IH. setoid_rewrite elem_of_cons. split; [naive_solver|].
      intros (? & [->|?] & Hc); [|eauto]. exfalso. simpl in H. destruct (tve_reason e); done.
Qed.

Lemma validate_any_of_decides object v path :
  within v ->
  decides (validate_any_of rec object v path)
    (forall branches, obj_get object "anyOf" ≫= as_array = Some branches ->
       exists branch, branch ∈ branches /\ conforms root branch v).
Proof using Hrec.
  intros Hw. unfold validate_any_of. apply decides_some. intros branches _ g.
  apply wp_bind. eapply wp_mono; [by apply any_branch_wp| |].
  - intros b g' Hb. apply decides_refuse. rewrite negb_false_iff. by rewrite Hb.
  - intros e g' He. apply He.
Qed.

Lemma validate_ref_decides reference v path :
  within v ->
  decides (validate_ref root rec reference v path)
    (exists canonical resolved, canonicalize_local_ref reference = Ok canonical /\
       resolve_local_ref root canonical = Some resolved /\ conforms root resolved v).
Proof using Hrec.
  intros Hw. unfold validate_ref. destruct (canonicalize_local_ref reference) as [canonical|];
    [|intros g; apply wp_throw; simpl; naive_solver].
  destruct (resolve_local_ref root canonical) as [resolved|] eqn:Hr;
    [|intros g; apply wp_throw; simpl; naive_solver].
  intros g. apply wp_bind. unfold enter. wp_steps.
  unfold wp, leaving. pose proof (Hrec resolved v path Hw) as H. unfold decides, wp in H.
  match goal with |- context[rec _ _ _ ?g] => specialize (H g); destruct (rec _ _ _ g) as [g' [[]|e]] end.
  - eauto.
  - eapply verdict_impl; [|done]. naive_solver.
Qed.

Lemma validate_node_decides schema v path :
  within v -> decides (validate_node root limits rec schema v path) (conforms root schema v).
Proof using Hrec.
  intros Hw. unfold validate_node. destruct (as_object schema) as [object|] eqn:Ho.
  2: { intros g. apply wp_throw. simpl. intros H. inversion H; subst; done. }
  apply as_object_inv in Ho as ->.
  destruct (obj_get object "$ref" ≫= as_str) as [reference|] eqn:Href.
  - eapply decides_iff; [|by apply validate_ref_decides]. split.
    + intros (c & s & Hc & Hs & Hv). by eapply conforms_ref.
    + intros H. inversion H; subst; [|congruence]. simplify_eq. eauto.
  - eapply decides_iff; [|eapply decides_bind; [by apply validate_any_of_decides|intros _];
      eapply decides_bind; [by apply validate_scalar_decides|intros _];
      eapply decides_bind; [by apply validate_array_decides|intros _];
      by apply validate_object_decides].
    split.
    + intros (Ha & Hs & (Hr & Hi) & (Ho & Hp)). by apply conforms_node.
    + intros H. inversion H; subst; [congruence|]. tauto.
Qed.
End Node.

Lemma validate_value_decides fuel root limits schema v path :
  arrays_within (sl_max_json_array_items limits) v = true ->
  decides (validate_value fuel root limits schema v path) (conforms root schema v).
Proof.
  revert schema v path. induction fuel as [|fuel IH]; intros schema v path Hw; simpl.
  - intros g. by apply wp_throw.
  - by apply validate_node_decides.
Qed.
End Conformance.

(** ** Array lengths *)
Lemma json_children_ind (P : json -> Prop) :
  (forall v, (forall w, Budget.json_depth w < Budget.json_depth v -> P w) -> P v) -> forall v, P v.
Proof.
  intros Hstep v. remember (Z.to_nat (Budget.json_depth v)) as n eqn:Hn.
  revert v Hn. induction n as [n IH] using lt_wf_ind. intros v Hn. apply Hstep.
  intros w Hw. pose proof (json_depth_pos w).
  apply (IH (Z.to_nat (Budget.json_depth w))); [|done]. lia.
Qed.

Lemma check_array_lengths_exact limits v path :
  match check_array_lengths limits v path with
  | Ok _ => arrays_within (sl_max_json_array_items limits) v = true
  | Err e => tve_reason e = ArgumentsTooLarge /\
             arrays_within (sl_max_json_array_items limits) v = false
  end.
Proof.
  revert path. induction v as [v IH] using json_children_ind. intros path.
  assert (forall w, Budget.json_depth w < Budget.json_depth v -> forall path,
    check_array_lengths limits w path = Ok tt /\ arrays_within (sl_max_json_array_items limits) w = true
    \/ exists e, check_array_lengths limits w path = Err e /\ tve_reason e = ArgumentsTooLarge /\
         arrays_within (sl_max_json_array_items limits) w = false) as Hw.
  { intros w Hd p. specialize (IH w Hd p). destruct (check_array_lengths _ w p) as [[]|e]; eauto. }
  clear IH. destruct v as [| | | |items|entries]; try done; simpl.
  - rewrite Z.ltb_antisym. destruct (_ <=? _); simpl; [|done].
    assert (forall w, w ∈ items -> Budget.json_depth w < Budget.json_depth (JArray items)) as Hd
      by (intros; by apply depth_item).
    revert Hw Hd. generalize (Budget.json_depth (JArray items)). intros d Hw. generalize 0%nat.
    induction items as [|item items IH]; intros i Hd; simpl; [done|].
    destruct (Hw item (Hd item ltac:(left)) (at_path path (show (Z.of_nat i))))
      as [[-> ->]|(e & -> & ? & ->)]; [|done].
    apply (IH (S i)). intros. apply Hd. by right.
  - assert (forall k w, (k, w) ∈ entries -> Budget.json_depth w < Budget.json_depth (JObject entries))
      as Hd by (intros; by eapply depth_entry).
    revert Hw Hd. generalize (Budget.json_depth (JObject entries)). intros d Hw.
    induction entries as [|[k w] entries IH]; intros Hd; simpl; [done|].
    destruct (Hw w (Hd k w ltac:(left)) (at_path path k)) as [[-> ->]|(e & -> & ? & ->)]; [|done].
    apply IH. intros k' w' Hin. apply (Hd k' w'). by right.
Qed.

(** ** Validation is total *)

(** What every step does to the guard: it only counts up. *)
Definition adv (g g' : ReferenceGuard) : Prop :=
  (expansion_count g <= USIZE_MAX ->
     expansion_count g <= expansion_count g' /\ expansion_count g' <= USIZE_MAX) /\
  max_expansions g' = max_expansions g.
#[global] Instance adv_preorder : PreOrder adv.
Proof. unfold adv. split; [intros g; lia|intros g1 g2 g3; lia]. Qed.

(** No counter saturates. *)
Definition bounded_guard (g : ReferenceGuard) : Prop :=
  expansion_count g <= USIZE_MAX /\ max_expansions g < USIZE_MAX.
Lemma bounded_adv g g' : bounded_guard g -> adv g g' -> bounded_guard g'.
Proof. unfold bounded_guard. intros [Hc Hm] [Ha ->]. split; [|done]. by apply Ha. Qed.

(** [c] ends with its fuel unspent. *)
Definition calm {A} (c : G A) (g : ReferenceGuard) : Prop :=
  wp c (fun _ g' => adv g g') (fun e g' => e <> None /\ adv g g') g.

Lemma calm_ret {A} (a : A) g : calm (mret a) g.
Proof. by apply wp_ret. Qed.
Lemma calm_throw {A} e g : calm (throw (Some e) : G A) g.
Proof. by apply wp_throw. Qed.
Lemma calm_bind {A B} (c : G A) (k : A -> G B) g :
  calm c g -> (forall a g', adv g g' -> calm (k a) g') -> calm (c ≫= k) g.
Proof.
  intros Hc Hk. apply wp_bind. eapply wp_mono; [apply Hc| |auto].
  intros a g' Hg. eapply wp_mono; [by apply Hk| |].
  - intros ? g'' ?. by trans g'.
  - intros e g'' [? ?]. split; [done|]. by trans g'.
Qed.
Lemma calm_refuse b path message g : calm (refuse_if b path message) g.
Proof. destruct b; [apply calm_throw|apply calm_ret]. Qed.
Lemma calm_for_each {A} (f : A -> G unit) l g :
  (forall x g', x ∈ l -> adv g g' -> calm (f x) g') -> calm (for_each f l) g.
Proof.
  revert g. induction l as [|x l IH]; intros g Hf; simpl; [apply calm_ret|].
  apply calm_bind; [apply Hf; [left|done]|]. intros _ g' Hg. apply IH.
  intros y g'' Hy Hg'. apply Hf; [by right|]. by trans g'.
Qed.
Create HintDb calm.
#[local] Hint Resolve calm_ret calm_throw calm_refuse : calm.
Ltac calm :=
  repeat first
    [ progress auto with calm
    | apply calm_bind; [|intros ? ? ?]
    | match goal with |- calm (match ?x with _ => _ end) _ => destruct x eqn:? end ].

Section Total.
Context {JP : JsonPrinter} {JV : JsonValues}.
Context (root : json) (limits : SchemaLimits).

(** The steps that may still be taken below a node. *)
Definition steps_left (g : ReferenceGuard) (schema : json) : Z :=
  Z.max 0 (max_expansions g - expansion_count g) * (Budget.json_depth root + 1)
  + Budget.json_depth schema.
Lemma steps_left_adv g g' schema :
  bounded_guard g -> adv g g' -> steps_left g' schema <= steps_left g schema.
Proof.
  unfold steps_left. intros [Hb _] [Hc ->]. specialize (Hc Hb). pose proof (json_depth_pos root).
  apply Z.add_le_mono_r, Z.mul_le_mono_nonneg_r; lia.
Qed.
Lemma steps_left_child g g' schema child n :
  bounded_guard g -> adv g g' -> steps_left g schema < n + 1 ->
  Budget.json_depth child < Budget.json_depth schema -> steps_left g' child < n.
Proof. intros Hb Ha%(steps_left_adv _ _ child); [|done]. unfold steps_left in *. lia. Qed.

Section Node.
Context (fuel : Z) (rec : json -> json -> string -> G unit).
Context (Hrec : forall schema v path g, bounded_guard g -> steps_left g schema < fuel ->
                  calm (rec schema v path) g).

Lemma enter_calm reference path g :
  bounded_guard g ->
  wp (enter reference path)
    (fun _ g' => adv g g' /\ expansion_count g < expansion_count g' <= max_expansions g')
    (fun e g' => e <> None /\ adv g g') g.
Proof using.
  intros Hb. unfold enter. wp_steps; cbn [expansion_count max_expansions active_refs] in *;
    unfold bounded_guard, adv, usize_saturating_add in *; simpl.
  - split; [done|]. lia.
  - apply orb_false_iff in Heqb as [Hc%Z.ltb_ge _]. simpl in Hc. lia.
Qed.

Lemma any_branch_calm branches v path g :
  bounded_guard g -> (forall b, b ∈ branches -> steps_left g b < fuel) ->
  calm (any_branch rec branches v path) g.
Proof using Hrec.
  revert g. induction branches as [|b branches IH]; intros g Hb Hs; [apply calm_ret|].
  unfold calm, wp. simpl. pose proof (Hrec b v path g Hb (Hs b ltac:(left))) as H.
  unfold calm, wp in H. destruct (rec b v path g) as [g' [[]|[e|]]]; [done| |tauto].
  destruct H as [_ Ha]. case_bool_decide; [done|].
  assert (calm (any_branch rec branches v path) g') as H'.
  { apply IH; [by eapply bounded_adv|]. intros b' Hb'.
    eapply Z.le_lt_trans; [by apply steps_left_adv|]. apply Hs. by right. }
  unfold calm, wp in H'. destruct (any_branch _ _ _ _ g') as [g'' [?|?]].
  - by trans g'.
  - destruct H'. split; [done|]. by trans g'.
Qed.

Lemma validate_ref_calm reference v path schema g :
  bounded_guard g -> steps_left g schema < fuel + 1 ->
  calm (validate_ref root rec reference v path) g.
Proof using Hrec.
  intros Hb Hs. unfold validate_ref. destruct (canonicalize_local_ref reference) as [canonical|];
    [|apply calm_throw].
  destruct (resolve_local_ref root canonical) as [resolved|] eqn:Hr; [|apply calm_throw].
  unfold calm. apply wp_bind. eapply wp_mono; [by apply enter_calm| |done].
  intros _ g' (Ha & Hlt & Hle). pose proof (bounded_adv _ _ Hb Ha) as Hb'.
  assert (steps_left g' resolved < fuel) as Hs'.
  { apply resolve_ref_depth in Hr. destruct Ha as [_ Hm]. unfold steps_left in *. rewrite Hm in *.
    rewrite Z.max_r in * by lia. pose proof (json_depth_pos schema).
    pose proof (json_depth_pos root). nia. }
  pose proof (Hrec resolved v path g' Hb' Hs') as H. unfold calm, wp, leaving in *.
  assert (forall g'', adv g' g'' -> adv g (leave canonical g'')) as Hl.
  { intros g'' Hg. trans g'; [done|]. destruct Hg. by split. }
  destruct (rec resolved v path g') as [g'' [[]|e]]; [by apply Hl|].
  destruct H. split; [done|]. by apply Hl.
Qed.

Lemma validate_node_calm schema v path g :
  bounded_guard g -> steps_left g schema < fuel + 1 ->
  calm (validate_node root limits rec schema v path) g.
Proof using Hrec.
  intros Hb Hs. unfold validate_node. destruct (as_object schema) as [o|] eqn:Ho; [|apply calm_throw].
  apply as_object_inv in Ho as ->.
  destruct (obj_get o "$ref" ≫= as_str); [by eapply validate_ref_calm|].
  assert (forall g' child w p, adv g g' ->
    Budget.json_depth child < Budget.json_depth (JObject o) -> calm (rec child w p) g') as Hchild.
  { intros g' child w p Ha Hd. apply Hrec; [by eapply bounded_adv|].
    by eapply steps_left_child. }
  apply calm_bind; [|intros _ g1 H1; apply calm_bind; [|intros _ g2 H2; apply calm_bind;
    [|intros _ g3 H3]]].
  - unfold validate_any_of. calm. apply any_branch_calm; [done|]. intros b Hin.
    eapply steps_left_child; [done|done|exact Hs|]. by eapply get_array_elem.
  - unfold validate_scalar. calm.
  - unfold validate_array. calm. apply calm_for_each. intros e gx He Ha.
    apply Hchild; [by repeat (etrans; [eassumption|])|]. by eapply depth_get.
  - unfold validate_object. calm; apply calm_for_each; intros e gx He Ha; calm.
    apply Hchild; [by repeat (etrans; [eassumption|])|].
    destruct (obj_get o "properties" ≫= as_object) eqn:Hp; [|done]. by eapply get_entry_elem.
Qed.
End Node.

Lemma validate_value_calm fuel schema v path g :
  bounded_guard g -> steps_left g schema < Z.of_nat fuel ->
  calm (validate_value fuel root limits schema v path) g.
Proof.
  revert schema v path g. induction fuel as [|fuel IH]; intros schema v path g Hb Hs.
  - exfalso. unfold steps_left in Hs. pose proof (json_depth_pos schema).
    pose proof (json_depth_pos root). nia.
  - simpl. apply (validate_node_calm (Z.of_nat fuel)); [|done|lia]. intros. by apply IH.
Qed.
End Total.

(** ** Validation is monotone in its limits *)

(** The same run under a larger expansion budget. *)
Definition same (g1 g2 : ReferenceGuard) : Prop :=
  active_refs g1 = active_refs g2 /\ expansion_count g1 = expansion_count g2 /\
  max_expansions g1 <= max_expansions g2.
Definition stopped {A} (r : result (option ToolValidationError) A) : Prop :=
  r = Err None \/ exists e, r = Err (Some e) /\ tve_reason e = ArgumentsTooDeep.
Definition lenient {A} (c1 c2 : G A) : Prop := forall g1 g2, same g1 g2 ->
  stopped (c1 g1).2 \/ exists g2', c2 g2 = (g2', (c1 g1).2) /\ same (c1 g1).1 g2'.

Lemma lenient_ret {A} (a : A) : lenient (mret a) (mret a).
Proof. intros g1 g2 H. right. eauto. Qed.
Lemma lenient_throw {A} e : lenient (throw e : G A) (throw e).
Proof. intros g1 g2 H. right. eauto. Qed.
Lemma lenient_violation {A} path message :
  lenient (violation path message : G A) (violation path message).
Proof. apply lenient_throw. Qed.
Lemma lenient_refuse b path message : lenient (refuse_if b path message) (refuse_if b path message).
Proof. destruct b; [apply lenient_throw|apply lenient_ret]. Qed.
Lemma lenient_bind {A B} (c1 c2 : G A) (k1 k2 : A -> G B) :
  lenient c1 c2 -> (forall a, lenient (k1 a) (k2 a)) -> lenient (c1 ≫= k1) (c2 ≫= k2).
Proof.
  intros Hc Hk g1 g2 H. unfold mbind, M_bind. specialize (Hc g1 g2 H).
  destruct (c1 g1) as [g1' [a|e]]; simpl in *.
  - destruct Hc as [[?|(? & ? & ?)]|(g2' & -> & Hs)]; [done|done|]. by apply Hk.
  - destruct Hc as [Hs|(g2' & -> & Hs)].
    + left. destruct Hs as [?|(e' & ? & ?)]; [left|right; exists e']; naive_solver.
    + right. eauto.
Qed.
Lemma lenient_for_each {A} (f1 f2 : A -> G unit) l :
  (forall x, x ∈ l -> lenient (f1 x) (f2 x)) -> lenient (for_each f1 l) (for_each f2 l).
Proof.
  induction l as [|x l IH]; intros Hf; simpl; [apply lenient_ret|].
  apply lenient_bind; [apply Hf; left|]. intros _. apply IH. intros. apply Hf. by right.
Qed.
#[local] Hint Resolve lenient_ret lenient_throw lenient_violation lenient_refuse : calm.
Ltac lenient :=
  repeat first
    [ progress auto with calm
    | match goal with |- lenient (mbind _ _) _ => apply lenient_bind; [|intros ?] end
    | match goal with |- lenient (match ?x with _ => _ end) _ => destruct x eqn:? end ].

Lemma lenient_enter reference path : lenient (enter reference path) (enter reference path).
Proof.
  intros g1 g2 (Ha & Hc & Hm). unfold enter, mbind, M_bind, modify, get. simpl.
  rewrite <- Ha, <- Hc. destruct (max_expansions g1 <? _) eqn:H1; simpl.
  - left. right. eauto.
  - assert (max_expansions g2 <? usize_saturating_add (expansion_count g1) 1 = false) as ->
      by (apply Z.ltb_ge in H1; apply Z.ltb_ge; lia).
    simpl. case_bool_decide; simpl; [left; right; eauto|]. right. eexists. split; [done|].
    unfold same. simpl. by rewrite Ha.
Qed.
Lemma lenient_leaving reference c1 c2 :
  lenient c1 c2 -> lenient (leaving reference c1) (leaving reference c2).
Proof.
  intros Hc g1 g2 H. unfold leaving. specialize (Hc g1 g2 H).
  destruct (c1 g1) as [g1' r]; simpl in *. destruct Hc as [?|(g2' & -> & Ha & ? & ?)]; [by left|].
  right. eexists. split; [done|]. unfold same, leave. simpl. by rewrite Ha.
Qed.
Lemma lenient_branch rec1 rec2 branches v path :
  (forall b, b ∈ branches -> lenient (rec1 b v path) (rec2 b v path)) ->
  lenient (any_branch rec1 branches v path) (any_branch rec2 branches v path).
Proof.
  induction branches as [|b branches IH]; intros Hb; [apply lenient_ret|].
  intros g1 g2 H. simpl. specialize (Hb b ltac:(left) g1 g2 H) as Hb1.
  destruct (rec1 b v path g1) as [g1' [[]|[e|]]]; simpl in *.
  - destruct Hb1 as [[?|(? & ? & ?)]|(g2' & -> & Hs)]; [done|done|]. right. eauto.
  - destruct Hb1 as [[?|(e' & [= <-] & He)]|(g2' & -> & Hs)]; [done| |].
    + left. right. rewrite bool_decide_true by done. eauto.
    + case_bool_decide; [right; eauto|]. apply IH; [|done]. intros. apply Hb. by right.
  - left. by left.
Qed.

Section Monotone.
Context {JP : JsonPrinter} {JV : JsonValues}.

Section Node.
Context (root : json) (l1 l2 : SchemaLimits).
Context (Hl : sl_max_json_array_items l1 <= sl_max_json_array_items l2).
Context (rec1 rec2 : json -> json -> string -> G unit).
Abbreviation within v := (arrays_within (sl_max_json_array_items l1) v = true).
Context (Hrec : forall schema v path, within v -> lenient (rec1 schema v path) (rec2 schema v path)).

Lemma validate_array_lenient o v path :
  within v -> lenient (validate_array l1 rec1 o v path) (validate_array l2 rec2 o v path).
Proof using Hl Hrec.
  intros Hw. unfold validate_array. destruct (as_array v) as [items|] eqn:Hv; [|apply lenient_ret].
  apply as_array_inv in Hv as ->. pose proof Hw as [Hn%Z.leb_le _]%andb_true_iff.
  rewrite !(proj2 (Z.ltb_ge _ _)) by lia. lenient.
  apply lenient_for_each. intros e He. apply Hrec. eapply within_items; [done|].
  by apply elem_of_indexed.
Qed.
Lemma validate_object_lenient o v path :
  within v -> lenient (validate_object rec1 o v path) (validate_object rec2 o v path).
Proof using Hrec.
  intros Hw. unfold validate_object. destruct (as_object v) as [entries|] eqn:Hv;
    [|apply lenient_ret].
  apply as_object_inv in Hv as ->. apply lenient_bind.
  - lenient. apply lenient_for_each. intros e He. lenient.
  - intros _. apply lenient_for_each. intros [k child] He. lenient. apply Hrec.
    by eapply within_entries.
Qed.
Lemma validate_node_lenient schema v path :
  within v ->
  lenient (validate_node root l1 rec1 schema v path) (validate_node root l2 rec2 schema v path).
Proof using Hl Hrec.
  intros Hw. unfold validate_node. destruct (as_object schema) as [o|]; [|apply lenient_throw].
  destruct (obj_get o "$ref" ≫= as_str).
  - unfold validate_ref. lenient; [apply lenient_enter|]. apply lenient_leaving. auto.
  - apply lenient_bind; [|intros _; apply lenient_bind; [|intros _; apply lenient_bind; [|intros _]]].
    + unfold validate_any_of. lenient. apply lenient_branch. auto.
    + unfold validate_scalar. lenient.
    + by apply validate_array_lenient.
    + by apply validate_object_lenient.
Qed.
End Node.

Lemma validate_value_lenient fuel1 fuel2 root l1 l2 schema v path :
  (fuel1 <= fuel2)%nat -> sl_max_json_array_items l1 <= sl_max_json_array_items l2 ->
  arrays_within (sl_max_json_array_items l1) v = true ->
  lenient (validate_value fuel1 root l1 schema v path) (validate_value fuel2 root l2 schema v path).
Proof.
  revert fuel2 schema v path. induction fuel1 as [|fuel1 IH]; intros fuel2 schema v path Hf Hl Hw.
  - intros g1 g2 _. left. by left.
  - destruct fuel2 as [|fuel2]; [lia|]. simpl. apply validate_node_lenient; [done| |done].
    intros. apply IH; [lia|done|done].
Qed.

(** The limits of [l1] are at most those of [l2]. *)
Definition limits_le (l1 l2 : SchemaLimits) : Prop :=
  sl_max_schema_depth l1 <= sl_max_schema_depth l2 /\
  sl_max_json_array_items l1 <= sl_max_json_array_items l2.

Lemma max_expansions_mono l1 l2 :
  limits_le l1 l2 -> max_expansions (guard_new l1) <= max_expansions (guard_new l2).
Proof. intros [Hd _]. simpl. unfold usize_saturating_mul. nia. Qed.
Lemma max_expansions_nonneg l : 0 <= max_expansions (guard_new l).
Proof. simpl. unfold usize_saturating_mul, USIZE_MAX, U64_MAX. nia. Qed.
Lemma max_expansions_small l :
  sl_max_schema_depth l <= U32_MAX -> bounded_guard (guard_new l).
Proof.
  intros H. unfold bounded_guard. simpl. unfold usize_saturating_mul, USIZE_MAX, U64_MAX, U32_MAX in *.
  split; [lia|]. apply Z.min_lt_iff. left. nia.
Qed.

Lemma preflight_within v limits :
  preflight_instance v limits = Ok tt ->
  Budget.json_depth v <= sl_max_schema_depth limits /\
  arrays_within (sl_max_json_array_items limits) v = true.
Proof.
  unfold preflight_instance. destruct (to_string v) as [text|]; [|done]. simpl.
  repeat case_match; try done. intros Hc. split; [by apply Z.ltb_ge|].
  pose proof (check_array_lengths_exact limits v "#") as H'. by rewrite Hc in H'.
Qed.
Lemma arrays_within_mono n m v : n <= m -> arrays_within n v = true -> arrays_within m v = true.
Proof.
  intros Hnm. induction v as [v IH] using json_children_ind.
  destruct v as [| | | |items|entries]; try done; simpl.
  - rewrite !andb_true_iff, !Z.leb_le, !List.forallb_forall. intros [Hl Hi]. split; [lia|].
    intros x Hx. apply IH; [|auto]. apply depth_item. by apply list_elem_of_In.
  - rewrite !List.forallb_forall. intros Hi [k x] Hx. apply IH; [|by apply (Hi (k, x))].
    eapply depth_entry. by apply list_elem_of_In.
Qed.
Lemma preflight_mono v l1 l2 :
  limits_le l1 l2 -> preflight_instance v l1 = Ok tt -> preflight_instance v l2 = Ok tt.
Proof.
  intros [Hd Hl] H1. pose proof (preflight_within _ _ H1) as [Hv Hw].
  unfold preflight_instance in *. destruct (to_string v) as [text|]; [|done]. simpl in *.
  destruct (_ <? str_len text); [done|].
  rewrite (proj2 (Z.ltb_ge (sl_max_schema_depth l2) _)) by lia.
  pose proof (check_array_lengths_exact l2 v "#") as H'.
  rewrite (arrays_within_mono _ _ _ Hl Hw) in H'. destruct (check_array_lengths l2 v "#") as [[]|]; [done|].
  by destruct H'.
Qed.

(** The entry point never runs out of fuel. *)
Lemma run_total schema v limits :
  sl_max_schema_depth limits <= U32_MAX -> run_instance schema v limits <> Err None.
Proof.
  intros Hs. unfold run_instance. destruct (preflight_instance v limits) as [[]|e]; [|done]. simpl.
  pose proof (validate_value_calm schema limits (validate_fuel schema limits) schema v "#" _
    (max_expansions_small _ Hs)) as H.
  unfold calm, wp in H. destruct (validate_value _ _ _ _ _ _ _) as [g [[]|e]]; [done|].
  destruct H as [He _]; [|by intros [= ->]].
  unfold steps_left, validate_fuel. pose proof (json_depth_pos schema).
  pose proof (max_expansions_nonneg limits).
  change (expansion_count (guard_new limits)) with 0. nia.
Qed.

(** The law of the interface: limits only restrict. *)
#[global] Instance schema_engine_mono : SchemaEngineMono.
Proof.
  intros schema v l1 l2 Hd Hl. unfold validate_instance, schema_engine.
  destruct (run_instance (schema_value schema) v l1) as [[]|[e|]] eqn:H1; try done. intros _.
  assert (run_instance (schema_value schema) v l2 = Ok tt) as ->; [|done].
  unfold run_instance in *. destruct (preflight_instance v l1) as [[]|] eqn:Hp; [|done].
  rewrite (preflight_mono v l1 l2) by done. simpl in *.
  pose proof (preflight_within _ _ Hp) as [_ Hw].
  assert (validate_fuel (schema_value schema) l1 <= validate_fuel (schema_value schema) l2)%nat as Hf.
  { apply Z2Nat.inj_le; pose proof (json_depth_pos (schema_value schema));
      pose proof (max_expansions_nonneg l1); pose proof (max_expansions_nonneg l2);
      pose proof (max_expansions_mono l1 l2 ltac:(done)); nia. }
  destruct (validate_value_lenient _ _ (schema_value schema) l1 l2 (schema_value schema) v "#" Hf Hl Hw
    (guard_new l1) (guard_new l2)) as [[Hs|(e & Hs & _)]|(g & -> & _)].
  - split_and!; [done|done|]. by apply max_expansions_mono.
  - by rewrite H1 in Hs.
  - by rewrite H1 in Hs.
  - done.
Qed.

(** C25. Validation always ends, and says the truth: an accepted instance
    conforms to the schema, a reported violation means that it does not, a
    size failure names an instance that is too large, and nothing is ever
    reported as an unknown tool. *)
Theorem validation_exact schema v limits :
  sl_max_schema_depth limits <= U32_MAX ->
  let root := schema_value schema in
  run_instance root v limits <> Err None /\
  match validate_instance schema v limits with
  | Ok _ => conforms root root v
  | Err e =>
      match tve_reason e with
      | ToolSchemaViolation => ~ conforms root root v
      | ArgumentsTooDeep =>
          sl_max_schema_depth limits < Budget.json_depth v \/
          exists g, validate_value (validate_fuel root limits) root limits root v "#"
                      (guard_new limits) = (g, Err (Some e))
      | ArgumentsTooLarge =>
          (exists text, to_string v = Ok text /\ max_tool_arguments_bytes official < str_len text) \/
          arrays_within (sl_max_json_array_items limits) v = false
      | ToolInvalidJson => exists e', to_string v = Err e'
      | ToolUnknown => False
      end
  end.
Proof.
  intros Hs root. pose proof (run_total root v limits Hs) as Ht. split; [done|].
  unfold validate_instance, schema_engine. fold root. unfold run_instance in *.
  destruct (preflight_instance v limits) as [[]|e] eqn:Hp.
  - apply preflight_within in Hp as [_ Hw]. cbn [map_err mbind result_bind] in *.
    pose proof (validate_value_decides (validate_fuel root limits) root limits root v "#" Hw
                  (guard_new limits)) as H. unfold wp in H.
    destruct (validate_value _ _ _ _ _ _ _) as [g [[]|[e|]]]; [done| |done]. cbn in *.
    destruct (tve_reason e); (done || eauto).
  - simpl. unfold preflight_instance in Hp. destruct (to_string v) as [text|e'] eqn:Htext; simpl in Hp.
    2: { simplify_eq. simpl. eauto. }
    destruct (_ <? str_len text) eqn:Hb; [apply Z.ltb_lt in Hb; simplify_eq; left; eauto|].
    destruct (_ <? Budget.json_depth v) eqn:Hd; [apply Z.ltb_lt in Hd; simplify_eq; by left|].
    pose proof (check_array_lengths_exact limits v "#") as H. rewrite Hp in H.
    destruct H as [-> H]. by right.
Qed.
End Monotone.

(** A value model for concrete runs: numbers are integers. *)
Definition integer_values : JsonValues :=
  {| as_u64 v := match v with JNumber (PosInt n) => Some n | _ => None end;
     as_i64 v := match v with JNumber (PosInt n) | JNumber (NegInt n) => Some n | _ => None end;
     as_f64 v := match v with
                 | JNumber (PosInt n) | JNumber (NegInt n) => Some (binary_normalize 53 1024 n 0 false)
                 | _ => None
                 end;
     value_eqb v w := match v, w with
                      | JString s, JString t => str_eqb s t
                      | JNull, JNull => true
                      | JBool a, JBool b => Bool.eqb a b
                      | JNumber (PosInt n), JNumber (PosInt m) => n =? m
                      | _, _ => false
                      end |}.
Definition short_printer : JsonPrinter := fun _ => Ok "{}".

(** A list of names, each a reference to a bounded string. *)
Definition names_schema : json :=
  JObject [("$defs", JObject [("name", JObject [("maxLength", JNumber (PosInt 3));
                                               ("type", JString "string")])]);
           ("properties", JObject [("names",
              JObject [("items", JObject [("$ref", JString "#/$defs/name")]);
                       ("type", JString "array")])]);
           ("required", JArray [JString "names"]); ("type", JString "object")].
Definition names_of (l : list string) : json := JObject [("names", JArray (map JString l))].

Lemma validation_exact_witness :
  conforms (JV := integer_values) names_schema names_schema (names_of ["ann"; "bob"]) /\
  ~ conforms (JV := integer_values) names_schema names_schema (names_of ["ann"; "carol"]).
Proof.
  split.
  - apply (validation_exact (JP := short_printer) (JV := integer_values)
      (mk_tool_schema names_schema false) (names_of ["ann"; "bob"]) schema_limits_official).
    by vm_compute.
  - apply (validation_exact (JP := short_printer) (JV := integer_values)
      (mk_tool_schema names_schema false) (names_of ["ann"; "carol"]) schema_limits_official).
    by vm_compute.
Defined.
