(* ===== verification/SchemaCompile.v ===== *)
(** * Properties of compiled schemas

    What [compile_schema] guarantees to [validate_instance]: the references of a
    compiled schema resolve to schemas and never lead back to themselves, so
    that validation stops for its expansion budget and for no other reason. *)
From S2P Require Import Prelude Errors Domain Structured ChatWire Schema SchemaSpec.

(** ** Loops *)
Lemma all_ok_inv {E A} (f : A -> result E unit) l :
  all_ok f l = Ok tt -> forall x, x ∈ l -> f x = Ok tt.
Proof.
  induction l as [|y l IH]; simpl; [intros _ x []%elem_of_nil|].
  destruct (f y) as [[]|] eqn:Hy; [|done]. simpl. intros H x. rewrite elem_of_cons.
  intros [->|?]; auto.
Qed.
(** A loop whose steps keep [I] and establish a stable fact per element. *)
Lemma fold_ok_inv {E S A} (f : A -> S -> result E S) (I : S -> Prop) (P : A -> S -> Prop) l s s' :
  fold_ok f l s = Ok s' -> I s ->
  (forall x s s', x ∈ l -> I s -> f x s = Ok s' -> I s' /\ P x s') ->
  (forall x y s s', y ∈ l -> I s -> f y s = Ok s' -> P x s -> P x s') ->
  I s' /\ (forall x, x ∈ l -> P x s') /\
  (forall x, P x s -> P x s').
Proof.
  revert s. induction l as [|y l IH]; simpl; intros s.
  - intros [= ->] HI _ _. split_and!; [done|intros x []%elem_of_nil|done].
  - destruct (f y s) as [s1|] eqn:Hy; [|done]. simpl. intros Hl HI Hf Hstable.
    destruct (Hf y s s1 ltac:(left) HI Hy) as [HI1 HP].
    destruct (IH s1 Hl HI1 ltac:(intros; eapply Hf; [by right|done|done])
      ltac:(intros; eapply Hstable; [by right|done|done|done])) as (HI' & Hall & Hst).
    split_and!; [done| |].
    + intros x. rewrite elem_of_cons. intros [->|?]; auto.
    + intros x Hx. apply Hst. eapply Hstable; [left|exact HI|done|done].
Qed.

Lemma elem_of_bset_insert x y l : x ∈ bset_insert y l <-> x = y \/ x ∈ l.
Proof.
  induction l as [|z l IH]; simpl; [set_solver|].
  destruct (String.compare y z) eqn:Hc; [|set_solver|set_solver].
  apply String.compare_eq_iff in Hc as ->. set_solver.
Qed.

(** ** The depth-first visit *)
Section Visit.
Context (graph : gmap string (list string)) (max_depth max_count : Z).

Definition refers (n m : string) : Prop := exists refs, graph !! n = Some refs /\ m ∈ refs.

(** No infinite chain of references starts at [n]. *)
Definition finite_from (n : string) : Prop := Acc (fun m n => refers n m) n.

Lemma visit_finite fuel depth n v v' :
  (forall m, m ∈ visited v -> finite_from m) ->
  visit_reference_node fuel graph max_depth max_count depth n v = Ok v' ->
  (forall m, m ∈ visited v' -> finite_from m) /\ n ∈ visited v' /\ visited v ⊆ visited v'.
Proof.
  revert depth n v v'. induction fuel as [|fuel IH]; intros depth n v v' Hv; [done|]. simpl.
  case_bool_decide as Hn; [intros [= <-]; done|]. destruct (_ || _); [done|].
  destruct (_ <? _); [done|]. set (v1 := mk_visit _ _ _).
  assert (forall edges v2, fold_ok (visit_reference_node fuel graph max_depth max_count
      (usize_saturating_add depth 1)) edges v1 = Ok v2 ->
      ((forall m, m ∈ visited v2 -> finite_from m) /\ visited v ⊆ visited v2) /\
      (forall m, m ∈ edges -> m ∈ visited v2)) as Hedges.
  { intros edges v2 H.
    destruct (fold_ok_inv _ (fun w => (forall m, m ∈ visited w -> finite_from m) /\
      visited v ⊆ visited w) (fun m w => m ∈ visited w) edges v1 v2 H) as (HI & Hall & _).
    - done.
    - intros x s s' _ [Hs1 Hs2] Hx. apply IH in Hx as (? & ? & ?); [|done]. set_solver.
    - intros x y s s' _ [Hs1 _] Hy Hx. apply IH in Hy as (_ & _ & Hsub); [|done]. by apply Hsub.
    - done. }
  destruct (graph !! n) as [edges|] eqn:Hg.
  - destruct (fold_ok _ edges v1) as [v2|] eqn:Hf; [|done]. cbn. intros [= <-]. simpl.
    destruct (Hedges edges v2 Hf) as [[Hfin Hsub] Hall].
    split_and!; [|set_solver|set_solver]. intros m [->%elem_of_singleton|?]%elem_of_union; [|auto].
    constructor. intros m (refs & Hr & Hm). simplify_eq. by apply Hfin, Hall.
  - cbn. intros [= <-]. simpl. split_and!; [|set_solver|set_solver].
    intros m [->%elem_of_singleton|?]%elem_of_union; [|auto]. constructor.
    intros m (refs & Hr & _). congruence.
Qed.

Lemma visit_all_finite fuel nodes v v' :
  (forall m, m ∈ visited v -> finite_from m) ->
  fold_ok (visit_reference_node fuel graph max_depth max_count 0) nodes v = Ok v' ->
  forall n, n ∈ nodes -> finite_from n.
Proof.
  intros Hv H. destruct (fold_ok_inv _ (fun w => forall m, m ∈ visited w -> finite_from m)
    (fun m w => m ∈ visited w) nodes v v' H) as (HI & Hall & _); [done| | |auto].
  - intros x s s' _ Hs Hx. apply visit_finite in Hx as (? & ? & ?); auto.
  - intros x y s s' _ Hs Hy Hx. apply visit_finite in Hy as (_ & _ & Hsub); auto.
Qed.

Lemma finite_no_loop n : finite_from n -> ~ tc refers n n.
Proof.
  intros Hfin. induction Hfin as [n _ IH]. intros Hloop.
  inversion Hloop as [? ? Hr|? m ? Hr Hm]; subst.
  - exact (IH n Hr Hloop).
  - apply (IH m Hr). eapply tc_r; eauto.
Qed.
End Visit.

(** ** Schema positions *)
Definition subschemas (v : json) : list json :=
  match v with
  | JObject o =>
      map snd (default [] (obj_get o "properties" ≫= as_object))
      ++ option_list (obj_get o "items")
      ++ default [] (obj_get o "anyOf" ≫= as_array)
      ++ map snd (default [] (obj_get o "$defs" ≫= as_object))
  | _ => []
  end.
Inductive position (root : json) : json -> Prop :=
| position_root : position root root
| position_sub s c : position root s -> c ∈ subschemas s -> position root c.

(** No property is named like the keyword [$defs]. *)
Definition plain_names (v : json) : bool :=
  match v with
  | JObject o =>
      match obj_get o "properties" ≫= as_object with
      | Some properties => forallb (fun e : string * json => negb (str_eqb e.1 "$defs")) properties
      | None => true
      end
  | _ => true
  end.
Fixpoint plain_properties (fuel : nat) (v : json) : bool :=
  match fuel with
  | O => false
  | S fuel => plain_names v && forallb (plain_properties fuel) (subschemas v)
  end.
Lemma plain_position fuel root s :
  plain_properties fuel root = true -> position root s -> plain_names s = true.
Proof.
  intros H Hs. assert (exists n, plain_properties n s = true) as [[|n] Hn]; [|done|].
  - induction Hs as [|s c Hs [[|n] Hn] Hc]; [eauto|done|]. exists n. simpl in Hn.
    apply andb_true_iff in Hn as [_ Hn]. rewrite List.forallb_forall in Hn. apply Hn.
    by apply list_elem_of_In.
  - simpl in Hn. by apply andb_true_iff in Hn as [? _].
Qed.

(** ** References below a node *)
Inductive sem_sub : json -> json -> Prop :=
| sem_refl v : sem_sub v v
| sem_item items v w : v ∈ items -> sem_sub v w -> sem_sub (JArray items) w
| sem_entry o k v w : (k, v) ∈ o -> k <> "$defs" -> sem_sub v w -> sem_sub (JObject o) w.
Lemma sem_sub_trans u v w : sem_sub u v -> sem_sub v w -> sem_sub u w.
Proof. induction 1; eauto using sem_item, sem_entry. Qed.

Lemma collect_references_spec fuel v acc out :
  collect_semantic_references fuel v acc = Ok out ->
  (forall x, x ∈ acc -> x ∈ out) /\
  (forall w o t c, sem_sub v w -> w = JObject o -> obj_get o "$ref" = Some (JString t) ->
     canonicalize_local_ref t = Ok c -> c ∈ out).
Proof.
  revert v acc out. induction fuel as [|fuel IH]; intros v acc out; [done|]. simpl.
  destruct v as [| | | |items|object];
    try (intros [= ->]; split; [done|]; intros w o t c Hs ->; by inversion Hs).
  - intros H. destruct (fold_ok_inv _ (fun _ => True)
      (fun v out => forall w o t c, sem_sub v w -> w = JObject o ->
         obj_get o "$ref" = Some (JString t) -> canonicalize_local_ref t = Ok c -> c ∈ out)
      items acc out H I) as (_ & Hall & _).
    + intros x s s' _ _ [_ Hx]%IH. split; [done|]. exact Hx.
    + intros x y s s' _ _ [Hy _]%IH Hx w o t c Hs -> Hr Hc. apply Hy. by eapply Hx.
    + split; [|intros w o t c Hs ->; inversion Hs; subst; by eapply Hall].
      destruct (fold_ok_inv _ (fun out => forall x, x ∈ acc -> x ∈ out) (fun _ _ => True)
        items acc out H) as (Hsub & _); [done| |done|done].
      intros x s s' _ Hs [Hx _]%IH. split; [|done]. intros; apply Hx. by apply Hs.
  - destruct (match obj_get object "$ref" with Some _ => _ | None => _ end) as [acc1|] eqn:Hr; [|done].
    cbn. intros H.
    assert ((forall x, x ∈ acc -> x ∈ acc1) /\ forall t c, obj_get object "$ref" = Some (JString t) ->
      canonicalize_local_ref t = Ok c -> c ∈ acc1) as [Hacc Href].
    { destruct (obj_get object "$ref") as [r|]; [|simplify_eq; done].
      destruct (as_str r) as [t|] eqn:Hr'; [|done]. destruct r; try done. injection Hr' as ->.
      destruct (canonicalize_local_ref t) as [c|] eqn:Hc; [|done]. injection Hr as <-.
      setoid_rewrite elem_of_bset_insert. split; [auto|]. intros t' c' [= <-] Hc'.
      rewrite Hc in Hc'. left. congruence. }
    destruct (fold_ok_inv _ (fun out => forall x, x ∈ acc1 -> x ∈ out)
      (fun (e : string * json) out => forall w o t c, e.1 <> "$defs" -> sem_sub e.2 w -> w = JObject o ->
         obj_get o "$ref" = Some (JString t) -> canonicalize_local_ref t = Ok c -> c ∈ out)
      object acc1 out H) as (Hsub & Hall & _); [done| | |].
    + intros [k x] s s' _ Hs. simpl. destruct (str_eqb k "$defs") eqn:Hk.
      * intros [= ->]. split; [done|]. apply str_eqb_spec in Hk as ->. done.
      * intros [Hx1 Hx2]%IH. split; [auto|]. intros w o t c _. by eapply Hx2.
    + intros x [k y] s s' _ Hs. simpl. destruct (str_eqb k "$defs"); [by intros [= ->]|].
      intros [Hy _]%IH Hx w o t c Hn Hw -> Hg Hc. apply Hy. by eapply Hx.
    + split; [auto|]. intros w o t c Hs -> Hg Hc.
      inversion Hs as [|? ? ? ? ?|? k v ? Hin Hk Hv]; simplify_eq; [by apply Hsub, (Href t)|].
      by apply (Hall (k, v) Hin _ _ _ _ Hk Hv eq_refl Hg).
Qed.

Lemma reference_graph_spec root nodes graph n :
  reference_graph root nodes = Ok graph -> n ∈ nodes ->
  exists s refs, node_schema root n = Some s /\ graph !! n = Some refs /\
    collect_semantic_references (schema_fuel s) s [] = Ok refs.
Proof.
  intros H Hn. destruct (fold_ok_inv _ (fun _ => True)
    (fun n (graph : gmap string (list string)) => exists s refs, node_schema root n = Some s /\
       graph !! n = Some refs /\ collect_semantic_references (schema_fuel s) s [] = Ok refs)
    nodes ∅ graph H I) as (_ & Hall & _); [| |by apply Hall].
  - intros x g g' _ _. destruct (node_schema root x) as [s|]; [|done].
    destruct (collect_semantic_references _ s []) as [refs|] eqn:Hr; [|done]. intros [= <-].
    split; [done|]. exists s, refs. by rewrite lookup_insert_eq.
  - intros x y g g' _ _. destruct (node_schema root y) as [s|] eqn:Hs; [|done].
    destruct (collect_semantic_references _ s []) as [refs|] eqn:Hr; [|done]. intros [= <-].
    intros (sx & rx & Hsx & Hgx & Hrx). exists sx. destruct (decide (x = y)) as [->|Hne].
    + exists refs. rewrite lookup_insert_eq. naive_solver.
    + exists rx. by rewrite lookup_insert_ne by done.
Qed.

(** ** What compilation checked *)
Lemma bind_Ok {E A B} (r : result E A) (k : A -> result E B) b :
  r ≫= k = Ok b -> exists a, r = Ok a /\ k a = Ok b.
Proof. destruct r; [eauto|done]. Qed.
Lemma reject_if_Ok b field reason path message u :
  reject_if b field reason path message = Ok u -> b = false.
Proof. by destruct b. Qed.

Section Compiled.
Context {JP : JsonPrinter} {JV : JsonValues}.

Lemma schema_map_sub rec o keyword path message :
  schema_map rec o keyword path message = Ok tt ->
  forall c, c ∈ map snd (default [] (obj_get o keyword ≫= as_object)) ->
  exists p, rec c p = Ok tt.
Proof using.
  unfold schema_map. destruct (obj_get o keyword) as [v|]; simpl; [|intros _ c []%elem_of_nil].
  destruct (as_object v) as [m|]; [|done]. simpl. intros H c ([k x] & -> & Hx)%list_elem_of_fmap.
  eexists. apply (all_ok_inv _ _ H _ Hx).
Qed.

Lemma validated_node fuel defs limits v path :
  validate_schema_node fuel defs limits v path = Ok tt ->
  exists o fuel', v = JObject o /\
    (exists p, validate_ref_keyword o p defs = Ok tt) /\
    forall c, c ∈ subschemas v -> exists p, validate_schema_node fuel' defs limits c p = Ok tt.
Proof using.
  destruct fuel as [|fuel]; [done|]. simpl. destruct (as_object v) as [o|] eqn:Ho; [|done].
  apply as_object_inv in Ho as ->.
  intros (_ & _ & (u & Hr & (_ & _ & (_ & _ & (_ & _ & (u1 & Hp & (u2 & Hi & (u3 & Ha &
    (u4 & Hd & _)%bind_Ok)%bind_Ok)%bind_Ok)%bind_Ok)%bind_Ok)%bind_Ok)%bind_Ok)%bind_Ok)%bind_Ok.
  destruct u, u1, u2, u3, u4. exists o, fuel. split_and!; [done|eauto|].
  intros c. unfold subschemas. rewrite !elem_of_app. intros [Hc|[Hc|[Hc|Hc]]].
  - eapply schema_map_sub; [exact Hp|exact Hc].
  - destruct (obj_get o "items"); simpl in *; [|by apply elem_of_nil in Hc].
    apply list_elem_of_singleton in Hc as ->. eauto.
  - unfold validate_any_of_keyword in Ha.
    destruct (obj_get o "anyOf") as [b|]; simpl in *; [|by apply elem_of_nil in Hc].
    destruct (as_array b) as [branches|]; [|done]. simpl in Hc.
    apply bind_Ok in Ha as (_ & _ & Ha). apply indexed_elem in Hc as (e & He & <-).
    eexists. apply (all_ok_inv _ _ Ha e He).
  - eapply schema_map_sub; [exact Hd|exact Hc].
Qed.

Lemma validated_position fuel defs limits root path s :
  validate_schema_node fuel defs limits root path = Ok tt -> position root s ->
  exists fuel' p, validate_schema_node fuel' defs limits s p = Ok tt.
Proof using.
  intros H. induction 1 as [|s c _ (f & p & Hs) Hc]; [eauto|].
  apply validated_node in Hs as (o & f' & -> & _ & Hsub). destruct (Hsub c Hc) as [p' Hp]. eauto.
Qed.

Lemma ref_keyword_spec o p defs r :
  validate_ref_keyword o p defs = Ok tt -> obj_get o "$ref" = Some r ->
  exists t c, r = JString t /\ canonicalize_local_ref t = Ok c /\ c ∈ defs.
Proof using.
  unfold validate_ref_keyword. intros H Hr. rewrite Hr in H.
  destruct (as_str r) as [t|] eqn:Ht; [|done]. destruct r; try done. injection Ht as ->.
  apply bind_Ok in H as (_ & _ & H). destruct (canonicalize_local_ref t) as [c|] eqn:Hc; [|done].
  apply reject_if_Ok, negb_false_iff, bool_decide_eq_true in H. eauto.
Qed.

(** Every definition found is itself a schema of the document. *)
Definition defs_are_schemas (root : json) (defs : list string) : Prop :=
  forall d, d ∈ defs -> exists s, resolve_local_ref root d = Some s /\ position root s.

(** [$defs] is used as the keyword and nothing else. *)
Definition scoped (root : json) : Prop :=
  plain_properties (schema_fuel root) root = true /\
  forall defs, collect_defs root = Ok defs -> defs_are_schemas root defs.

Section Root.
Context (root : json) (limits : SchemaLimits) (strict : bool).
Context (Hcompile : compile_schema root limits = Ok strict) (Hscoped : scoped root).

Lemma compile_facts : exists defs graph,
  collect_defs root = Ok defs /\
  validate_schema_node (schema_fuel root) defs limits root "#" = Ok tt /\
  reference_graph root ("#" :: defs) = Ok graph /\
  forall n, n ∈ "#" :: defs -> finite_from graph n.
Proof using Hcompile.
  clear Hscoped. pose proof Hcompile as H. unfold compile_schema in H.
  apply bind_Ok in H as (text & _ & H). apply bind_Ok in H as (_ & _ & H).
  apply bind_Ok in H as (_ & _ & H). apply bind_Ok in H as (_ & _ & H).
  apply bind_Ok in H as (defs & Hd & H). apply bind_Ok in H as ([] & Hn & H).
  apply bind_Ok in H as ([] & Hg & _). unfold validate_local_reference_graph in Hg.
  apply bind_Ok in Hg as (graph & Hgraph & Hg). apply bind_Ok in Hg as (v & Hv & _).
  exists defs, graph. split_and!; [done|done|done|].
  eapply visit_all_finite; [|exact Hv]. intros m. simpl. set_solver.
Qed.

(** Where validation can be: at a schema below the node [n]. *)
Inductive located : string -> json -> Prop :=
| located_node n s : node_schema root n = Some s -> located n s
| located_property n o m k s :
    located n (JObject o) -> obj_get o "properties" ≫= as_object = Some m ->
    obj_get m k = Some s -> located n s
| located_items n o s : located n (JObject o) -> obj_get o "items" = Some s -> located n s
| located_branch n o bs s :
    located n (JObject o) -> obj_get o "anyOf" ≫= as_array = Some bs -> s ∈ bs -> located n s.

Lemma canonical_not_root t c : canonicalize_local_ref t = Ok c -> str_eqb c "#" = false.
Proof using.
  unfold canonicalize_local_ref. intros (p & _ & (q & Hq & [= <-])%bind_Ok)%bind_Ok.
  destruct (split_on_cons (Ascii.eqb "/") p) as (x & l & Hs). unfold split_char in Hq.
  rewrite Hs in Hq. simpl in Hq. apply bind_Ok in Hq as (d & _ & Hq).
  apply bind_Ok in Hq as (r & _ & [= <-]). done.
Qed.

Lemma node_position defs n s :
  collect_defs root = Ok defs -> n ∈ "#" :: defs -> node_schema root n = Some s -> position root s.
Proof using Hscoped.
  intros Hd Hn. unfold node_schema. destruct (str_eqb n "#") eqn:Hr; [intros [= <-]; constructor|].
  rewrite elem_of_cons in Hn. destruct Hn as [->|Hn]; [by rewrite str_eqb_refl in Hr|].
  intros Hs. destruct (proj2 Hscoped defs Hd n Hn) as (s' & Hs' & Hp). congruence.
Qed.

Lemma located_position defs n s :
  collect_defs root = Ok defs -> n ∈ "#" :: defs -> located n s -> position root s.
Proof using Hscoped.
  clear Hcompile. intros Hd Hn. induction 1 as [n s Hs|n o m k s _ IH Hm Hk|n o s _ IH Hi|n o bs s _ IH Hb Hs].
  - by eapply node_position.
  - eapply position_sub; [by apply IH|]. unfold subschemas. rewrite Hm. simpl.
    apply elem_of_app. left. apply list_elem_of_fmap. exists (k, s). split; [done|].
    by apply obj_get_elem.
  - eapply position_sub; [by apply IH|]. unfold subschemas. rewrite Hi. set_solver.
  - eapply position_sub; [by apply IH|]. unfold subschemas. rewrite Hb. set_solver.
Qed.

Lemma located_sem defs n s t :
  collect_defs root = Ok defs -> n ∈ "#" :: defs -> node_schema root n = Some t ->
  located n s -> sem_sub t s.
Proof using Hscoped.
  clear Hcompile. intros Hd Hn Ht Hl. pose proof (fun s => located_position defs n s Hd Hn) as Hpos.
  induction Hl as [n s Hs|n o m k s Hl IH Hm Hk|n o s Hl IH Hi|n o bs s Hl IH Hb Hs].
  - simplify_eq. constructor.
  - eapply sem_sub_trans; [by apply IH|].
    pose proof (plain_position _ _ _ (proj1 Hscoped) (Hpos _ Hl)) as Hplain.
    simpl in Hplain. rewrite Hm in Hplain.
    apply bind_Some in Hm as (pv & Hp & ->%as_object_inv).
    apply obj_get_elem in Hp, Hk. eapply sem_entry; [exact Hp|done|].
    eapply sem_entry; [exact Hk| |constructor].
    rewrite List.forallb_forall in Hplain. apply list_elem_of_In, Hplain in Hk. simpl in Hk.
    intros ->. by rewrite str_eqb_refl in Hk.
  - eapply sem_sub_trans; [by apply IH|]. apply obj_get_elem in Hi.
    eapply sem_entry; [exact Hi|done|constructor].
  - eapply sem_sub_trans; [by apply IH|]. apply bind_Some in Hb as (v & Hv & ->%as_array_inv).
    apply obj_get_elem in Hv. eapply sem_entry; [exact Hv|done|].
    eapply sem_item; [exact Hs|constructor].
Qed.

(** A reference met by validation is an edge of the graph, leads to a
    definition, and the definition is a schema. *)
Lemma located_reference defs graph n o r :
  collect_defs root = Ok defs ->
  validate_schema_node (schema_fuel root) defs limits root "#" = Ok tt ->
  reference_graph root ("#" :: defs) = Ok graph ->
  n ∈ "#" :: defs -> located n (JObject o) -> obj_get o "$ref" = Some r ->
  exists t c s, r = JString t /\ canonicalize_local_ref t = Ok c /\ c ∈ defs /\
    refers graph n c /\ resolve_local_ref root c = Some s /\ located c s.
Proof using Hscoped.
  clear Hcompile. intros Hd Hv Hg Hn Hl Hr.
  destruct (validated_position _ _ _ _ _ _ Hv (located_position _ _ _ Hd Hn Hl)) as (f & p & Hs).
  apply validated_node in Hs as (o' & _ & [= <-] & (p' & Hk) & _).
  destruct (ref_keyword_spec _ _ _ _ Hk Hr) as (t & c & -> & Hc & Hin).
  destruct (proj2 Hscoped defs Hd c Hin) as (s & Hs & _).
  exists t, c, s. split_and!; [done|done|done| |done|].
  - destruct (reference_graph_spec _ _ _ _ Hg Hn) as (t0 & refs & Ht0 & Hrefs & Hcol).
    exists refs. split; [done|]. destruct (collect_references_spec _ _ _ _ Hcol) as [_ Hall].
    by eapply Hall; [by eapply located_sem|done|done|].
  - apply located_node. unfold node_schema. by rewrite (canonical_not_root _ _ Hc).
Qed.

(** ** Validation of a compiled schema stops only for its budget *)
Section Budget.
Context (defs : list string) (graph : gmap string (list string)).
Context (Hdefs : collect_defs root = Ok defs).
Context (Hvalid : validate_schema_node (schema_fuel root) defs limits root "#" = Ok tt).
Context (Hgraph : reference_graph root ("#" :: defs) = Ok graph).
Context (Hfinite : forall n, n ∈ "#" :: defs -> finite_from graph n).

(** The active references are those that led to [n]. *)
Definition led_to (n : string) (g : ReferenceGuard) : Prop :=
  n ∈ "#" :: defs /\ forall a, a ∈ active_refs g -> rtc (refers graph) a n.

(** [c] leaves the active references as they were and stops as too deep only
    beyond the budget. *)
Definition within_budget {A} (c : G A) (g : ReferenceGuard) : Prop :=
  wp c (fun _ g' => active_refs g' = active_refs g)
    (fun e g' => active_refs g' = active_refs g /\
       forall err, e = Some err -> tve_reason err = ArgumentsTooDeep ->
         max_expansions g' < expansion_count g') g.

Lemma budget_ret {A} (a : A) g : within_budget (mret a) g.
Proof using. by apply wp_ret. Qed.
Lemma budget_throw {A} reason path message g :
  reason <> ArgumentsTooDeep ->
  within_budget (throw (Some (tool_failure reason path message)) : G A) g.
Proof using. intros H. apply wp_throw. split; [done|]. by intros err [= <-]. Qed.
Lemma budget_refuse b path message g : within_budget (refuse_if b path message) g.
Proof using. destruct b; [by apply budget_throw|apply budget_ret]. Qed.
Lemma budget_bind {A B} (c : G A) (k : A -> G B) g :
  within_budget c g ->
  (forall a g', active_refs g' = active_refs g -> within_budget (k a) g') -> within_budget (c ≫= k) g.
Proof using.
  intros Hc Hk. apply wp_bind. eapply wp_mono; [apply Hc| |auto].
  intros a g' Hg. eapply wp_mono; [by apply Hk| |]; simpl; rewrite Hg; auto.
Qed.
Lemma budget_for_each {A} (f : A -> G unit) l g :
  (forall x g', x ∈ l -> active_refs g' = active_refs g -> within_budget (f x) g') ->
  within_budget (for_each f l) g.
Proof using.
  revert g. induction l as [|x l IH]; intros g Hf; simpl; [apply budget_ret|].
  apply budget_bind; [by apply Hf; [left|]|]. intros _ g' Hg. apply IH.
  intros y g'' Hy Hg'. apply Hf; [by right|]. congruence.
Qed.
#[local] Hint Resolve budget_ret budget_refuse : calm.
Ltac budget :=
  repeat first
    [ progress auto with calm
    | match goal with |- within_budget (mbind _ _) _ => apply budget_bind; [|intros ? ? ?] end
    | match goal with |- within_budget (match ?x with _ => _ end) _ => destruct x eqn:? end ].

Section Node.
Context (rec : json -> json -> string -> G unit).
Context (Hrec : forall n schema v path g, located n schema -> led_to n g ->
                  within_budget (rec schema v path) g).

Lemma led_to_same n g g' : led_to n g -> active_refs g' = active_refs g -> led_to n g'.
Proof using. unfold led_to. by intros [? ?] ->. Qed.

Lemma any_branch_budget n branches v path g :
  led_to n g -> (forall b, b ∈ branches -> located n b) ->
  within_budget (any_branch rec branches v path) g.
Proof using Hrec.
  revert g. induction branches as [|b branches IH]; intros g Hg Hb; [apply budget_ret|].
  unfold within_budget, wp. simpl. pose proof (Hrec n b v path g (Hb b ltac:(left)) Hg) as H.
  unfold within_budget, wp in H. destruct (rec b v path g) as [g' [[]|[e|]]]; [done| |].
  - destruct H as [Ha He]. case_bool_decide; [done|].
    assert (within_budget (any_branch rec branches v path) g') as H'.
    { apply IH; [by eapply led_to_same|]. intros. apply Hb. by right. }
    unfold within_budget, wp in H'. rewrite Ha in H'.
    by destruct (any_branch _ _ _ _ g') as [g'' [?|?]].
  - done.
Qed.

Lemma validate_ref_budget n o reference v path g :
  located n (JObject o) -> led_to n g -> obj_get o "$ref" = Some (JString reference) ->
  within_budget (validate_ref root rec reference v path) g.
Proof using Hrec Hdefs Hvalid Hgraph Hfinite Hscoped.
  clear Hcompile. intros Hl [Hn Hg] Hr.
  destruct (located_reference _ _ _ _ _ Hdefs Hvalid Hgraph Hn Hl Hr)
    as (t & c & s & [= <-] & Hc & Hin & Href & Hs & Hls).
  unfold validate_ref. rewrite Hc, Hs.
  assert (c ∉ active_refs g) as Hnot.
  { intros Ha. apply (finite_no_loop graph c); [apply Hfinite; by right|].
    eapply tc_rtc_l; [by apply Hg|]. by apply tc_once. }
  unfold within_budget. apply wp_bind. unfold enter.
  apply wp_bind, wp_modify, wp_bind, wp_get. cbn [active_refs expansion_count max_expansions].
  rewrite (bool_decide_false (c ∈ active_refs g)) by done. rewrite orb_false_r.
  destruct (_ <? _) eqn:Hb; [apply wp_throw; split; [done|]; intros _ _ _; by apply Z.ltb_lt|].
  apply wp_put. set (g1 := mk_guard _ _ _). unfold wp, leaving.
  assert (led_to c g1) as Hg1.
  { split; [by right|]. simpl. intros a [->%elem_of_singleton|Ha]%elem_of_union; [done|].
    eapply rtc_r; [by apply Hg|done]. }
  pose proof (Hrec c s v path g1 Hls Hg1) as H. unfold within_budget, wp in H.
  assert (forall g', active_refs g' = active_refs g1 -> active_refs (leave c g') = active_refs g) as Hleave.
  { intros g' Hg'. simpl. rewrite Hg'. unfold g1. simpl. set_solver. }
  destruct (rec s v path g1) as [g2 [[]|e]]; [by apply Hleave|].
  destruct H as [Ha He]. split; [by apply Hleave|done].
Qed.

Lemma validate_node_budget n schema v path g :
  located n schema -> led_to n g -> within_budget (validate_node root limits rec schema v path) g.
Proof using Hrec Hdefs Hvalid Hgraph Hfinite Hscoped.
  clear Hcompile. intros Hl Hg. unfold validate_node.
  destruct (as_object schema) as [o|] eqn:Ho; [|by apply budget_throw].
  apply as_object_inv in Ho as ->.
  destruct (obj_get o "$ref" ≫= as_str) as [reference|] eqn:Hr.
  - apply bind_Some in Hr as (r & Hr & Hs). destruct r; try done. injection Hs as ->.
    by eapply validate_ref_budget.
  - assert (forall g', active_refs g' = active_refs g -> led_to n g') as Hsame
      by (intros; by eapply led_to_same).
    apply budget_bind; [|intros _ g1 H1; apply budget_bind; [|intros _ g2 H2; apply budget_bind;
      [|intros _ g3 H3]]].
    + unfold validate_any_of. budget. eapply any_branch_budget; [done|]. intros b Hb.
      by eapply located_branch.
    + unfold validate_scalar. budget.
    + unfold validate_array. budget; [by apply budget_throw|]. apply budget_for_each.
      intros e gx He Hx. eapply Hrec; [by eapply located_items|]. apply Hsame. congruence.
    + unfold validate_object. budget; apply budget_for_each; intros e gx He Hx; budget.
      destruct (obj_get o "properties" ≫= as_object) as [m|] eqn:Hm; [|done].
      eapply Hrec; [by eapply located_property|]. apply Hsame. congruence.
Qed.
End Node.

Lemma validate_value_budget fuel n schema v path g :
  located n schema -> led_to n g ->
  within_budget (validate_value fuel root limits schema v path) g.
Proof using Hdefs Hvalid Hgraph Hfinite Hscoped.
  clear Hcompile. revert n schema v path g. induction fuel as [|fuel IH]; intros n schema v path g Hl Hg.
  - apply wp_throw. by split.
  - simpl. eapply validate_node_budget; [|done|done]. eauto.
Qed.
End Budget.
End Root.
End Compiled.

(** C26. A compiled schema is safe to validate against, provided [$defs] is used
    as the keyword only: every reference in it leads to another schema of the
    same document, no chain of references returns to itself, and validation of
    any instance stops as too deep only after more expansions than its budget
    allows, never because of a cycle. *)
Theorem compiled_schema_safe {JP : JsonPrinter} {JV : JsonValues} root limits strict :
  compile_schema root limits = Ok strict -> scoped root ->
  (forall o r, position root (JObject o) -> obj_get o "$ref" = Some r ->
     exists t c s, r = JString t /\ canonicalize_local_ref t = Ok c /\
       resolve_local_ref root c = Some s /\ position root s) /\
  (exists defs graph, collect_defs root = Ok defs /\ reference_graph root ("#" :: defs) = Ok graph /\
     forall n, n ∈ "#" :: defs -> ~ tc (refers graph) n n) /\
  (forall fuel v g e,
     validate_value fuel root limits root v "#" (guard_new limits) = (g, Err (Some e)) ->
     tve_reason e = ArgumentsTooDeep -> max_expansions g < expansion_count g).
Proof.
  intros Hc Hs. destruct (compile_facts root limits strict Hc) as (defs & graph & Hd & Hv & Hg & Hf).
  split_and!.
  - intros o r Hp Hr. destruct (validated_position _ _ _ _ _ _ Hv Hp) as (f & p & Hn).
    apply validated_node in Hn as (o' & _ & [= <-] & (p' & Hk) & _).
    destruct (ref_keyword_spec _ _ _ _ Hk Hr) as (t & c & -> & Hcan & Hin).
    destruct (proj2 Hs defs Hd c Hin) as (s & Hres & Hpos). eauto 7.
  - exists defs, graph. split_and!; [done|done|]. intros n Hn. by apply finite_no_loop, Hf.
  - intros fuel v g e Hrun Hdeep.
    pose proof (validate_value_budget root limits Hs defs graph Hd Hv Hg Hf fuel "#" root v "#"
                  (guard_new limits)) as H.
    unfold within_budget, wp in H. rewrite Hrun in H. destruct H as [_ H].
    + by apply located_node.
    + split; [left|]. intros a. simpl. by rewrite elem_of_empty.
    + by apply (H e).
Qed.

Lemma names_scoped : scoped names_schema.
Proof.
  split; [by vm_compute|]. intros defs [= <-] d. rewrite list_elem_of_singleton. intros ->.
  eexists. split; [by vm_compute|]. eapply position_sub; [apply position_root|].
  right. left.
Qed.
Lemma compiled_schema_safe_witness :
  exists defs graph, collect_defs names_schema = Ok defs /\
    reference_graph names_schema ("#" :: defs) = Ok graph /\
    forall n, n ∈ "#" :: defs -> ~ tc (refers graph) n n.
Proof.
  apply (compiled_schema_safe (JP := short_printer) (JV := integer_values) names_schema
           schema_limits_official false); [by vm_compute|apply names_scoped].
Defined.

(** Schemas at the edge of what compilation sees. *)
Definition hidden_cycle : json :=
  JObject [("$defs", JObject [("a", JObject [("properties",
             JObject [("$defs", JObject [("$ref", JString "#/$defs/a")])])])]);
           ("$ref", JString "#/$defs/a")].
Definition data_reference : json :=
  JObject [("$ref", JString "#/const/$defs/x"); ("const", JObject [("$defs", JObject [("x", JNull)])])].

(** Without that proviso the guarantees fail. A property named [$defs] hides
    its references from the compiler, so that a schema that refers to itself
    compiles and a small instance is refused as too deep; and a reference into
    the data of a [const] compiles although its target is no schema. *)
Theorem unscoped_schemas_compile :
  let JP := short_printer in let JV := integer_values in
  compile_schema hidden_cycle schema_limits_official = Ok false /\
  validate_instance (mk_tool_schema hidden_cycle false) (JObject [("$defs", JObject [])])
    schema_limits_official =
    Err (tool_failure ArgumentsTooDeep "#/$defs"
           "local schema reference expansion exceeded the safety budget") /\
  compile_schema data_reference schema_limits_official = Ok false /\
  validate_instance (mk_tool_schema data_reference false) JNull schema_limits_official =
    Err (tool_failure ToolSchemaViolation "#" "schema node is not an object").
Proof. vm_compute. done. Qed.

(** The expansion budget counts items, not nesting: a flat array whose items
    are a reference is refused as too deep from the 1025th item on, although
    arrays of 65536 items are allowed. *)
Theorem flat_array_too_deep :
  let JP := short_printer in let JV := integer_values in
  let validate n := validate_instance (mk_tool_schema names_schema false)
                      (names_of (replicate n "ann")) schema_limits_official in
  compile_schema names_schema schema_limits_official = Ok false /\
  validate 1024%nat = Ok tt /\
  validate 1025%nat = Err (tool_failure ArgumentsTooDeep "#/names/1024"
                             "local schema reference expansion exceeded the safety budget").
Proof. vm_compute. done. Qed.

(** ** Canonical references *)
Lemma decode_plain c s :
  Ascii.eqb c "~" = false ->
  decode_pointer_segment (String c s) = d ← decode_pointer_segment s; Ok (String c d).
Proof. intros Hc. cbn [decode_pointer_segment]. by rewrite Hc. Qed.
Lemma decode_encode s : decode_pointer_segment (encode_pointer_segment s) = Ok s.
Proof.
  unfold encode_pointer_segment. induction s as [|b s IH]; [done|]. cbn [replace].
  destruct (Ascii.eqb b "~") eqn:Ht.
  - apply Ascii.eqb_eq in Ht as ->.
    change (decode_pointer_segment (String "~" (String "0" (replace "/" "~1" (replace "~" "~0" s))))
            = Ok (String "~" s)).
    cbn [decode_pointer_segment Ascii.eqb Bool.eqb negb]. by rewrite IH.
  - cbn [replace]. destruct (Ascii.eqb b "/") eqn:Hs.
    + apply Ascii.eqb_eq in Hs as ->.
      change (decode_pointer_segment (String "~" (String "1" (replace "/" "~1" (replace "~" "~0" s))))
              = Ok (String "/" s)).
      cbn [decode_pointer_segment Ascii.eqb Bool.eqb negb]. by rewrite IH.
    + by rewrite decode_plain, IH.
Qed.
Lemma encode_free s : free_of (Ascii.eqb "/") (encode_pointer_segment s) = true.
Proof.
  unfold encode_pointer_segment. generalize (replace "~" "~0" s). clear s.
  induction s as [|b s IH]; [done|]. cbn [replace].
  destruct (Ascii.eqb b "/") eqn:Hb; [by rewrite free_of_app, IH|].
  change (String b (replace "/" "~1" s)) with (String b EmptyString +:+ replace "/" "~1" s).
  rewrite free_of_app, IH.
  change (free_of (Ascii.eqb "/") (String b EmptyString)) with (negb (Ascii.eqb "/" b) && true).
  by rewrite Ascii.eqb_sym, Hb.
Qed.

(** ["/" + e1 + "/" + e2 + ...]. *)
Definition pointer (encoded : list string) : string :=
  foldr (fun e rest => "/" +:+ e +:+ rest) EmptyString encoded.
Lemma split_pointer e encoded :
  Forall (fun e => free_of (Ascii.eqb "/") e = true) (e :: encoded) ->
  split_char "/" (e +:+ pointer encoded) = e :: encoded.
Proof.
  revert e. induction encoded as [|e' encoded IH]; intros e; rewrite Forall_cons; intros [He Hr].
  - simpl. rewrite str_app_nil_r. by apply split_on_free.
  - change (pointer (e' :: encoded)) with (String "/" (e' +:+ pointer encoded)).
    unfold split_char. rewrite split_on_sep by done. f_equal. by apply IH.
Qed.

Lemma canonical_segments_spec segments q :
  canonical_segments segments = Ok q ->
  exists ds, Forall2 (fun s d => decode_pointer_segment s = Ok d) segments ds /\
    q = pointer (map encode_pointer_segment ds).
Proof.
  revert q. induction segments as [|s segments IH]; simpl; intros q.
  - intros [= <-]. by exists [].
  - intros (d & Hd & (r & Hr & [= <-])%bind_Ok)%bind_Ok. destruct (IH r Hr) as (ds & Hds & ->).
    exists (d :: ds). split; [by constructor|done].
Qed.
Lemma canonical_segments_encoded ds :
  canonical_segments (map encode_pointer_segment ds) = Ok (pointer (map encode_pointer_segment ds)).
Proof. induction ds as [|d ds IH]; [done|]. simpl. by rewrite decode_encode, IH. Qed.
Lemma resolve_encoded segments ds root :
  Forall2 (fun s d => decode_pointer_segment s = Ok d) segments ds ->
  resolve_segments root (map encode_pointer_segment ds) = resolve_segments root segments.
Proof.
  intros H. revert root. induction H as [|s d segments ds Hd _ IH]; intros root; [done|]. simpl.
  rewrite decode_encode, Hd. destruct (as_object root) as [o|]; [|done]. simpl.
  destruct (obj_get o d); [|done]. simpl. apply IH.
Qed.

(** A canonical reference is a normal form: canonicalizing it again changes
    nothing, and it resolves to what the original reference resolves to, in
    every document. *)
Theorem canonical_reference reference c root :
  canonicalize_local_ref reference = Ok c ->
  canonicalize_local_ref c = Ok c /\ resolve_local_ref root c = resolve_local_ref root reference.
Proof.
  unfold canonicalize_local_ref at 1. intros (p & Hp & (q & Hq & [= <-])%bind_Ok)%bind_Ok.
  destruct (canonical_segments_spec _ _ Hq) as (ds & Hds & ->).
  destruct (split_on_cons (Ascii.eqb "/") p) as (x & xs & Hs).
  unfold split_char in *. rewrite Hs in Hds.
  destruct ds as [|d ds]; [by inversion Hds|].
  set (encoded := map encode_pointer_segment (d :: ds)).
  assert (strip_root ("#" +:+ pointer encoded)
          = Some (encode_pointer_segment d +:+ pointer (map encode_pointer_segment ds))) as Hroot by done.
  assert (split_on (Ascii.eqb "/") (encode_pointer_segment d +:+ pointer (map encode_pointer_segment ds))
          = encoded) as Hsplit.
  { apply split_pointer. apply Forall_forall. intros y Hy.
    change (y ∈ map encode_pointer_segment (d :: ds)) in Hy.
    apply list_elem_of_fmap in Hy as (w & -> & _). apply encode_free. }
  split.
  - unfold canonicalize_local_ref, split_char. rewrite Hroot. cbn [ok_or mbind result_bind].
    rewrite Hsplit. unfold encoded at 1. by rewrite canonical_segments_encoded.
  - unfold ok_or in Hp. unfold resolve_local_ref, split_char. rewrite Hroot.
    destruct (strip_root reference) as [p'|]; [|done]. injection Hp as ->.
    cbn [mbind option_bind]. rewrite Hsplit, Hs. by apply resolve_encoded.
Qed.
Lemma canonical_reference_witness :
  canonicalize_local_ref "#/$defs/a~1b" = Ok "#/$defs/a~1b".
Proof. by apply (canonical_reference "#/$defs/a~1b" "#/$defs/a~1b" JNull). Defined.

(** ** Compilation is total *)
Definition returns {A} (r : R A) : Prop := r <> Err None.
Lemma returns_ok {A} (a : A) : returns (Ok a : R A).
Proof. done. Qed.
Lemma returns_reject {A} field reason path message : returns (reject field reason path message : R A).
Proof. done. Qed.
Lemma returns_reject_if b field reason path message : returns (reject_if b field reason path message).
Proof. by destruct b. Qed.
Lemma returns_bind {A B} (r : R A) (k : A -> R B) :
  returns r -> (forall a, r = Ok a -> returns (k a)) -> returns (r ≫= k).
Proof. unfold returns. destruct r as [a|e]; simpl; [|congruence]. auto. Qed.
Lemma returns_fold {S A} (f : A -> S -> R S) l s :
  (forall x s, x ∈ l -> returns (f x s)) -> returns (fold_ok f l s).
Proof.
  revert s. induction l as [|x l IH]; intros s Hf; [done|]. simpl.
  apply returns_bind; [apply Hf; left|]. intros. apply IH. intros. apply Hf. by right.
Qed.
Lemma returns_all {A} (f : A -> R unit) l :
  (forall x, x ∈ l -> returns (f x)) -> returns (all_ok f l).
Proof.
  induction l as [|x l IH]; intros Hf; [done|]. simpl.
  apply returns_bind; [apply Hf; left|]. intros. apply IH. intros. apply Hf. by right.
Qed.
#[local] Hint Resolve returns_ok returns_reject returns_reject_if : calm.
Ltac returns :=
  repeat first
    [ progress auto with calm
    | match goal with |- returns (mbind _ _) => apply returns_bind; [|intros ? ?] end
    | match goal with |- returns (match ?x with _ => _ end) => destruct x eqn:? end ].

Lemma collect_defs_at_returns fuel v path defs :
  Budget.json_depth v < Z.of_nat fuel -> returns (collect_defs_at fuel v path defs).
Proof.
  revert v path defs. induction fuel as [|fuel IH]; intros v path defs Hf.
  - pose proof (json_depth_pos v). lia.
  - simpl. destruct (as_object v) as [o|] eqn:Ho; [|done]. apply as_object_inv in Ho as ->.
    returns; apply returns_fold; intros [k x] s Hx; returns; apply IH; simpl.
    + apply depth_entry in Hx. apply depth_get in Heqo0. apply as_object_inv in Heqo1 as ->. lia.
    + apply depth_entry in Hx. lia.
Qed.
Lemma collect_references_returns fuel v acc :
  Budget.json_depth v < Z.of_nat fuel -> returns (collect_semantic_references fuel v acc).
Proof.
  revert v acc. induction fuel as [|fuel IH]; intros v acc Hf.
  - pose proof (json_depth_pos v). lia.
  - simpl. returns; apply returns_fold.
    + intros x s Hx. apply IH. apply depth_item in Hx. lia.
    + intros [k x] s Hx. returns. apply IH. apply depth_entry in Hx. simpl. lia.
Qed.
Lemma visit_returns fuel graph max_depth max_count depth n v :
  max_depth <= U32_MAX -> 0 <= depth <= max_depth + 1 -> max_depth + 1 - depth < Z.of_nat fuel ->
  returns (visit_reference_node fuel graph max_depth max_count depth n v).
Proof.
  intros Hm. revert depth n v. induction fuel as [|fuel IH]; intros depth n v Hd Hf; [lia|]. simpl.
  destruct (bool_decide (n ∈ visited v)); [done|].
  destruct (max_depth <? depth) eqn:Hdeep; [done|]. apply Z.ltb_ge in Hdeep. simpl.
  destruct (bool_decide (n ∈ visiting v)); [done|]. destruct (max_count <? _); [done|]. returns.
  apply returns_fold. intros x s _. unfold usize_saturating_add, USIZE_MAX, U64_MAX, U32_MAX in *.
  apply IH; lia.
Qed.

Section Total.
Context {JP : JsonPrinter} {JV : JsonValues}.

Lemma sub_depth v c : c ∈ subschemas v -> Budget.json_depth c < Budget.json_depth v.
Proof using.
  destruct v as [| | | | |o]; try by intros ?%elem_of_nil. unfold subschemas.
  assert (forall k, c ∈ map snd (default [] (obj_get o k ≫= as_object)) ->
    Budget.json_depth c < Budget.json_depth (JObject o)) as Hmap.
  { intros k ([k' x] & -> & Hx)%list_elem_of_fmap. destruct (obj_get o k) as [m|] eqn:Hk; [|by apply elem_of_nil in Hx].
    simpl in Hx. destruct m; simpl in Hx; try by apply elem_of_nil in Hx.
    apply depth_get in Hk. apply depth_entry in Hx. simpl in *. lia. }
  rewrite !elem_of_app. intros [Hc|[Hc|[Hc|Hc]]]; [by eapply Hmap| | |by eapply Hmap].
  - destruct (obj_get o "items") eqn:Hi; simpl in Hc; [|by apply elem_of_nil in Hc].
    apply list_elem_of_singleton in Hc as ->. by apply depth_get in Hi.
  - destruct (obj_get o "anyOf" ≫= as_array) eqn:Ha; simpl in Hc; [|by apply elem_of_nil in Hc].
    by eapply get_array_elem.
Qed.

Lemma schema_map_returns rec o keyword path message :
  (forall c p, c ∈ map snd (default [] (obj_get o keyword ≫= as_object)) -> returns (rec c p)) ->
  returns (schema_map rec o keyword path message).
Proof using.
  unfold schema_map. destruct (obj_get o keyword) as [v|]; [|done]. simpl.
  destruct (as_object v) as [m|]; [|done]. simpl. intros Hrec. apply returns_all. intros e He.
  apply Hrec. apply list_elem_of_fmap. eauto.
Qed.

Lemma validate_keywords_returns o path limits defs :
  returns (validate_ref_keyword o path defs) /\ returns (validate_required_keyword o path) /\
  returns (validate_boundary_keywords o path limits) /\
  (forall t, returns (validate_type_keyword t path)).
Proof using.
  split_and!.
  - unfold validate_ref_keyword. returns.
  - unfold validate_required_keyword. returns.
    + apply returns_fold. intros e s _. returns.
    + apply returns_all. intros x _. returns.
  - unfold validate_boundary_keywords, optional_usize_keyword, validate_ordered_usize_pair,
      optional_json_number. returns.
  - intros t. unfold validate_type_keyword, validate_basic_type. returns.
    apply returns_fold. intros e s _. returns.
Qed.

Lemma validate_schema_node_returns fuel defs limits v path :
  Budget.json_depth v < Z.of_nat fuel -> returns (validate_schema_node fuel defs limits v path).
Proof using.
  revert v path. induction fuel as [|fuel IH]; intros v path Hf.
  - pose proof (json_depth_pos v). lia.
  - simpl. destruct (as_object v) as [o|] eqn:Ho; [|done]. apply as_object_inv in Ho as ->.
    assert (forall c p, c ∈ subschemas (JObject o) -> returns (validate_schema_node fuel defs limits c p))
      as Hsub by (intros c p Hc; apply IH; apply sub_depth in Hc; lia).
    unfold subschemas in Hsub. setoid_rewrite elem_of_app in Hsub. setoid_rewrite elem_of_app in Hsub.
    setoid_rewrite elem_of_app in Hsub.
    destruct (validate_keywords_returns o path limits defs) as (H1 & H2 & H3 & H4).
    returns.
    + apply returns_all. intros e _. returns.
    + apply schema_map_returns. auto.
    + apply Hsub. right. left. simpl. left.
    + unfold validate_any_of_keyword. destruct (obj_get o "anyOf") as [b|]; [|done].
      destruct (as_array b) as [branches|] eqn:Hb; [|done]. returns. apply returns_all.
      intros e He. apply Hsub. do 2 right. left. simpl. rewrite Hb. by apply elem_of_indexed.
    + apply schema_map_returns. auto.
Qed.

(** C27. Compilation always returns, and what it accepts is an object within the
    byte and depth limits. *)
Theorem compile_total value limits :
  0 <= sl_max_schema_depth limits <= U32_MAX ->
  compile_schema value limits <> Err None /\
  forall strict, compile_schema value limits = Ok strict ->
    json_is_object value = true /\ Budget.json_depth value <= sl_max_schema_depth limits /\
    exists text, to_string value = Ok text /\ str_len text <= sl_max_schema_bytes limits.
Proof.
  intros Hl. split.
  - change (returns (compile_schema value limits)). unfold compile_schema. returns.
    + by destruct (to_string value).
    + apply collect_defs_at_returns. unfold schema_fuel. pose proof (json_depth_pos value). lia.
    + apply validate_schema_node_returns. unfold schema_fuel. pose proof (json_depth_pos value). lia.
    + unfold validate_local_reference_graph. returns; [unfold reference_graph|];
        apply returns_fold; intros x s _; returns.
      * apply collect_references_returns. unfold schema_fuel. pose proof (json_depth_pos j). lia.
      * apply visit_returns; lia.
  - intros strict H. unfold compile_schema in H. apply bind_Ok in H as (text & Ht & H).
    apply bind_Ok in H as (_ & Hb%reject_if_Ok & H). apply bind_Ok in H as (_ & Hd%reject_if_Ok & H).
    apply bind_Ok in H as (_ & Ho%reject_if_Ok & _). apply Z.ltb_ge in Hb, Hd.
    apply negb_false_iff in Ho. split_and!; [done|done|]. exists text.
    destruct (to_string value); [|done]. by injection Ht as ->.
Qed.
End Total.
Lemma compile_total_witness :
  compile_schema (JP := short_printer) (JV := integer_values) names_schema schema_limits_official
    <> Err None.
Proof. apply (compile_total (JP := short_printer)). by vm_compute. Defined.
