(* ===== verification/Options.v ===== *)
(** * Protocol options: [src/src/protocol_options/] and [src/src/protected.rs]

    The protection tables, the bounded raw body extension that both protocols
    share, the typed options, and the merge of an extension into an encoded
    request body. *)
From S2P Require Import Prelude Errors Domain Structured ChatWire Schema SchemaSpec.

(** ** Protection tables *)
Definition PROTECTED_HEADERS : list string :=
  ["authorization"; "proxy-authorization"; "host"; "content-length"; "content-type"; "accept";
   "transfer-encoding"; "connection"; "cookie"; "set-cookie"; "user-agent"].
Definition AUTH_INELIGIBLE_HEADERS : list string :=
  ["host"; "content-length"; "content-type"; "accept"; "transfer-encoding"; "connection"; "cookie";
   "set-cookie"; "user-agent"].
Definition PROTECTED_BODY_KEY_SHAPES : list string :=
  ["accept"; "anthropic-beta"; "anthropic-version"; "api_key"; "auth"; "authorization"; "beta";
   "content-length"; "content-type"; "header"; "headers"; "host"; "version"; "x-api-key"].
Definition ANTHROPIC_MESSAGES_PROTECTED_BODY_FIELDS : list string :=
  ["max_tokens"; "messages"; "model"; "output_config"; "stream"; "system"; "temperature";
   "thinking"; "tool_choice"; "tools"].
Definition OPENAI_CHAT_PROTECTED_BODY_FIELDS : list string :=
  ["max_completion_tokens"; "max_tokens"; "messages"; "model"; "n"; "parallel_tool_calls";
   "reasoning_effort"; "response_format"; "stream"; "stream_options"; "temperature"; "tool_choice";
   "tools"].
Definition REQUIRED_ENDPOINT_SCHEME : string := "https".

Definition contains (table : list string) (value : string) : bool := bool_decide (value ∈ table).
Definition is_protected_header (name : string) : bool := contains PROTECTED_HEADERS name.
Definition is_auth_ineligible_header (name : string) : bool := contains AUTH_INELIGIBLE_HEADERS name.

(** [str::to_ascii_lowercase]. *)
Definition lower_byte (b : ascii) : ascii :=
  if is_ascii_uppercase b then ascii_of_N (Z.to_N (byte_val b + 32)) else b.
Definition to_ascii_lowercase (s : string) : string := str_of (map lower_byte (bytes_of s)).

Definition is_protected_body_field (protocol_fields : list string) (key : string) : bool :=
  let key := to_ascii_lowercase key in
  contains protocol_fields key || contains PROTECTED_BODY_KEY_SHAPES key.

(** ** Raw extensions: [raw.rs] *)
Definition MAX_RAW_BYTES : Z := 64 * 1024.
Definition MAX_RAW_KEYS : Z := 128.
Definition MAX_RAW_ARRAY_ITEMS : Z := 1024.
Definition MAX_RAW_DEPTH : Z := 16.
Definition MAX_RAW_KEY_BYTES : Z := 64.

Record RawFields := mk_raw_fields { rf_fields : list (string * json); rf_encoded_bytes : Z }.
Record RawBudget := mk_raw_budget { rb_keys : Z; rb_array_items : Z }.
Definition raw_budget_default : RawBudget := mk_raw_budget 0 0.

Definition raw_error {A} (field : string) (reason : ValidationReason.t) (summary : string)
  : result ValidationError A := Err (validation_error field reason summary).

Definition raw_key_shape (key : string) : bool :=
  negb (str_is_empty key) && (str_len key <=? MAX_RAW_KEY_BYTES) && str_all tool_name_byte key.

Section Raw.
Context (protocol_fields : list string) (field : string).

Fixpoint validate_raw_value (value : json) (depth : Z) (budget : RawBudget)
  : result ValidationError RawBudget :=
  if MAX_RAW_DEPTH <? depth
  then raw_error field ValidationReason.OutOfRange "raw extension exceeds the depth limit"
  else
    match value with
    | JObject fields =>
        let keys := usize_saturating_add (rb_keys budget) (Z.of_nat (length fields)) in
        if MAX_RAW_KEYS <? keys
        then raw_error field ValidationReason.OutOfRange "raw extension exceeds the key limit"
        else
          (fix go (fields : list (string * json)) (budget : RawBudget)
             : result ValidationError RawBudget :=
             match fields with
             | [] => Ok budget
             | (key, child) :: fields =>
                 if negb (raw_key_shape key)
                 then raw_error field ValidationReason.InvalidIdentifier
                        "raw extension contains a forbidden key shape"
                 else if (depth =? 1) && is_protected_body_field protocol_fields key
                 then raw_error field ValidationReason.Conflict
                        "raw extension attempts to override an SDK-owned field"
                 else budget ← validate_raw_value child (depth + 1) budget; go fields budget
             end) fields (mk_raw_budget keys (rb_array_items budget))
    | JArray items =>
        let array_items := usize_saturating_add (rb_array_items budget) (Z.of_nat (length items)) in
        if MAX_RAW_ARRAY_ITEMS <? array_items
        then raw_error field ValidationReason.OutOfRange "raw extension exceeds the array-item limit"
        else
          (fix go (items : list json) (budget : RawBudget) : result ValidationError RawBudget :=
             match items with
             | [] => Ok budget
             | item :: items => budget ← validate_raw_value item (depth + 1) budget; go items budget
             end) items (mk_raw_budget (rb_keys budget) array_items)
    | JString value =>
        if MAX_RAW_BYTES <? str_len value
        then raw_error field ValidationReason.OutOfRange "raw extension contains an oversized string"
        else Ok budget
    | _ => Ok budget
    end.

Definition raw_parse {JP : JsonPrinter} (value : json) : result ValidationError RawFields :=
  match as_object value with
  | None => raw_error field ValidationReason.Conflict "raw extension must be a top-level JSON object"
  | Some [] => raw_error field ValidationReason.Empty "raw extension object must not be empty"
  | Some fields =>
      _ ← validate_raw_value value 1 raw_budget_default;
      encoded ← map_err (fun _ => validation_error field ValidationReason.Conflict
                           "raw extension is not serializable") (to_string value);
      if MAX_RAW_BYTES <? str_len encoded
      then raw_error field ValidationReason.OutOfRange "raw extension exceeds the encoded byte limit"
      else Ok (mk_raw_fields fields (str_len encoded))
  end.
End Raw.

(** ** Typed options *)
Inductive AnthropicThinkingDisplay := Omitted | Summarized.
Module AnthropicEffort.
Inductive t := Low | Medium | High | Max.
End AnthropicEffort.
Record AnthropicMessagesOptions := mk_anthropic_options {
  ao_adaptive_thinking : option AnthropicThinkingDisplay;
  ao_effort : option AnthropicEffort.t;
  ao_raw : option RawFields }.
Record OpenAiChatOptions := mk_openai_options { oo_raw : option RawFields }.
Inductive ProtocolOptions :=
| AnthropicMessages (options : AnthropicMessagesOptions)
| OpenAiChat (options : OpenAiChatOptions).

Definition ANTHROPIC_MESSAGES_PROTOCOL_ID : string := "anthropic-messages".
Definition OPENAI_CHAT_PROTOCOL_ID : string := "openai-chat-completions".
Definition protocol_id (o : ProtocolOptions) : string :=
  match o with
  | AnthropicMessages _ => ANTHROPIC_MESSAGES_PROTOCOL_ID
  | OpenAiChat _ => OPENAI_CHAT_PROTOCOL_ID
  end.
Definition anthropic_messages (o : ProtocolOptions) : option AnthropicMessagesOptions :=
  match o with AnthropicMessages options => Some options | OpenAiChat _ => None end.
Definition openai_chat (o : ProtocolOptions) : option OpenAiChatOptions :=
  match o with OpenAiChat options => Some options | AnthropicMessages _ => None end.

Definition anthropic_dangerous_from_object {JP : JsonPrinter} (value : json)
  : result ValidationError RawFields :=
  raw_parse ANTHROPIC_MESSAGES_PROTECTED_BODY_FIELDS "protocol_options.anthropic.raw" value.
Definition openai_dangerous_from_object {JP : JsonPrinter} (value : json)
  : result ValidationError RawFields :=
  raw_parse OPENAI_CHAT_PROTECTED_BODY_FIELDS "protocol_options.openai_chat.raw" value.

(** [Map::insert]: a map iterates its keys in order. *)
Fixpoint obj_insert (key : string) (value : json) (object : list (string * json))
  : list (string * json) :=
  match object with
  | [] => [(key, value)]
  | (k, v) :: rest =>
      match String.compare key k with
      | Lt => (key, value) :: object
      | Eq => (key, value) :: rest
      | Gt => (k, v) :: obj_insert key value rest
      end
  end.

(** The loop of both encoders that adds an extension to the body object. *)
Fixpoint merge_raw (field : string) (raw object : list (string * json))
  : result ValidationError (list (string * json)) :=
  match raw with
  | [] => Ok object
  | (name, value) :: raw =>
      if contains_key object name
      then raw_error field ValidationReason.Conflict
             "raw extension conflicts with an SDK-owned request field"
      else merge_raw field raw (obj_insert name value object)
  end.

(** ** What an accepted extension looks like *)
Definition sum (l : list Z) : Z := foldr Z.add 0 l.
Fixpoint key_total (v : json) : Z :=
  match v with
  | JObject fields =>
      Z.of_nat (length fields) + sum (map (fun e : string * json => key_total e.2) fields)
  | JArray items => sum (map key_total items)
  | _ => 0
  end.
Fixpoint item_total (v : json) : Z :=
  match v with
  | JObject fields => sum (map (fun e : string * json => item_total e.2) fields)
  | JArray items => Z.of_nat (length items) + sum (map item_total items)
  | _ => 0
  end.
(** Every key and every string of a value, at any depth. *)
Fixpoint well_shaped (v : json) : bool :=
  match v with
  | JObject fields =>
      forallb (fun e : string * json => raw_key_shape e.1 && well_shaped e.2) fields
  | JArray items => forallb well_shaped items
  | JString s => str_len s <=? MAX_RAW_BYTES
  | _ => true
  end.

Definition unprotected (protocol_fields : list string) (fields : list (string * json)) : Prop :=
  Forall (fun e : string * json => is_protected_body_field protocol_fields e.1 = false) fields.

(** A value within the budgets, and nothing more. *)
Definition within_raw_budget (v : json) : Prop :=
  Budget.json_depth v <= MAX_RAW_DEPTH /\ key_total v <= MAX_RAW_KEYS /\
  item_total v <= MAX_RAW_ARRAY_ITEMS /\ well_shaped v = true.

Lemma sum_nonneg {A} (f : A -> Z) l : (forall x, x ∈ l -> 0 <= f x) -> 0 <= sum (map f l).
Proof.
  induction l as [|x l IH]; intros H; simpl; [lia|].
  assert (0 <= f x) by (apply H; set_solver). assert (0 <= sum (map f l)) by (apply IH; set_solver). lia.
Qed.

Lemma totals_nonneg v : 0 <= key_total v /\ 0 <= item_total v.
Proof.
  induction v as [v IH] using json_children_ind. destruct v as [| | | |items|fields]; simpl; try lia.
  - assert (0 <= sum (map key_total items)).
    { apply sum_nonneg. intros x Hx. apply IH. by apply depth_item. }
    assert (0 <= sum (map item_total items)); [|lia].
    apply sum_nonneg. intros x Hx. apply IH. by apply depth_item.
  - assert (0 <= sum (map (fun e : string * json => key_total e.2) fields)).
    { apply sum_nonneg. intros [k x] Hx. apply IH. by eapply depth_entry. }
    assert (0 <= sum (map (fun e : string * json => item_total e.2) fields)); [|lia].
    apply sum_nonneg. intros [k x] Hx. apply IH. by eapply depth_entry.
Qed.

(** A loop whose steps spend [k x] keys and [i x] items and check [C x]. *)
Definition spend (b : RawBudget) (k i : Z) : RawBudget :=
  mk_raw_budget (rb_keys b + k) (rb_array_items b + i).
Definition affordable (b : RawBudget) : Prop :=
  0 <= rb_keys b <= MAX_RAW_KEYS /\ 0 <= rb_array_items b <= MAX_RAW_ARRAY_ITEMS.

Definition exact_step (f : RawBudget -> result ValidationError RawBudget) (k i : Z) (C : Prop) : Prop :=
  forall b b', affordable b -> f b = Ok b' <-> b' = spend b k i /\ affordable (spend b k i) /\ C.

Lemma fold_exact {A} (f : A -> RawBudget -> result ValidationError RawBudget) (k i : A -> Z)
    (C : A -> Prop) l :
  (forall x, x ∈ l -> 0 <= k x /\ 0 <= i x) ->
  (forall x, x ∈ l -> exact_step (f x) (k x) (i x) (C x)) ->
  exact_step (fold_ok f l) (sum (map k l)) (sum (map i l)) (Forall C l).
Proof.
  induction l as [|x l IH]; intros Hpos Hf b b' Hb; simpl.
  - unfold spend. rewrite !Z.add_0_r. destruct b as [kb ib]. simpl. split; [intros [= <-]; done|by intros [-> _]].
  - assert (0 <= k x /\ 0 <= i x) as [Hk Hi] by (apply Hpos; set_solver).
    assert (0 <= sum (map k l)) by (apply sum_nonneg; intros y Hy; apply Hpos; set_solver).
    assert (0 <= sum (map i l)) by (apply sum_nonneg; intros y Hy; apply Hpos; set_solver).
    assert (exact_step (fold_ok f l) (sum (map k l)) (sum (map i l)) (Forall C l)) as Hl
      by (apply IH; intros; [apply Hpos|apply Hf]; set_solver).
    assert (spend (spend b (k x) (i x)) (sum (map k l)) (sum (map i l))
            = spend b (k x + sum (map k l)) (i x + sum (map i l))) as Hsum
      by (unfold spend; simpl; f_equal; lia).
    pose proof (Hf x ltac:(set_solver)) as Hx. destruct (f x b) as [b1|e] eqn:E; simpl.
    + apply Hx in E as (-> & Hb1 & HC); [|done]. rewrite (Hl _ b' Hb1), Hsum, Forall_cons. naive_solver.
    + split; [done|]. intros (_ & Haff & HC%Forall_cons). exfalso.
      enough (f x b = Ok (spend b (k x) (i x))) by congruence.
      apply Hx; [done|]. split_and!; try naive_solver.
      unfold affordable, spend in *. simpl in *. lia.
Qed.

Lemma saturated_over a b m : 0 <= a -> 0 <= b -> m < USIZE_MAX ->
  (m <? usize_saturating_add a b) = (m <? a + b).
Proof.
  intros Ha Hb Hm. unfold usize_saturating_add.
  destruct (Z.ltb_spec m (Z.min (a + b) USIZE_MAX)), (Z.ltb_spec m (a + b)); lia.
Qed.

Section RawSpec.
Context (protocol_fields : list string) (field : string).

Definition top_ok (depth : Z) (v : json) : Prop :=
  match v with JObject fields => depth = 1 -> unprotected protocol_fields fields | _ => True end.
Definition raw_ok (depth : Z) (v : json) : Prop :=
  depth + Budget.json_depth v - 1 <= MAX_RAW_DEPTH /\ well_shaped v = true /\ top_ok depth v.

Definition raw_entry (depth : Z) (e : string * json) (b : RawBudget) : result ValidationError RawBudget :=
  if negb (raw_key_shape e.1)
  then raw_error field ValidationReason.InvalidIdentifier "raw extension contains a forbidden key shape"
  else if (depth =? 1) && is_protected_body_field protocol_fields e.1
  then raw_error field ValidationReason.Conflict "raw extension attempts to override an SDK-owned field"
  else validate_raw_value protocol_fields field e.2 (depth + 1) b.

Lemma validate_raw_eq value depth b :
  validate_raw_value protocol_fields field value depth b =
  if MAX_RAW_DEPTH <? depth
  then raw_error field ValidationReason.OutOfRange "raw extension exceeds the depth limit"
  else
    match value with
    | JObject fields =>
        let keys := usize_saturating_add (rb_keys b) (Z.of_nat (length fields)) in
        if MAX_RAW_KEYS <? keys
        then raw_error field ValidationReason.OutOfRange "raw extension exceeds the key limit"
        else fold_ok (raw_entry depth) fields (mk_raw_budget keys (rb_array_items b))
    | JArray items =>
        let n := usize_saturating_add (rb_array_items b) (Z.of_nat (length items)) in
        if MAX_RAW_ARRAY_ITEMS <? n
        then raw_error field ValidationReason.OutOfRange "raw extension exceeds the array-item limit"
        else fold_ok (fun item => validate_raw_value protocol_fields field item (depth + 1)) items
               (mk_raw_budget (rb_keys b) n)
    | JString s =>
        if MAX_RAW_BYTES <? str_len s
        then raw_error field ValidationReason.OutOfRange "raw extension contains an oversized string"
        else Ok b
    | _ => Ok b
    end.
Proof.
  destruct value as [| | | |items|fields]; try done; simpl; destruct (_ <? depth); try done.
  - destruct (_ <? _); [done|]. generalize (mk_raw_budget (rb_keys b)
      (usize_saturating_add (rb_array_items b) (Z.of_nat (length items)))).
    induction items as [|item items IH]; intros b0; simpl; [done|].
    destruct (validate_raw_value _ _ item _ b0); simpl; [apply IH|done].
  - destruct (_ <? _); [done|]. generalize (mk_raw_budget
      (usize_saturating_add (rb_keys b) (Z.of_nat (length fields))) (rb_array_items b)).
    induction fields as [|[key child] fields IH]; intros b0; [done|]. cbn [fold_ok].
    assert (raw_entry depth (key, child) b0 = _) as Hentry by (unfold raw_entry; reflexivity).
    rewrite Hentry. cbn [fst snd]. destruct (negb (raw_key_shape key)); [done|].
    destruct ((depth =? 1) && is_protected_body_field protocol_fields key); [done|].
    destruct (validate_raw_value _ _ child _ b0); simpl; [apply IH|done].
Qed.

Lemma max_depth_le l m : 0 <= m -> Budget.max_depth l <= m <-> Forall (fun d => d <= m) l.
Proof.
  intros Hm. induction l as [|d l IH]; simpl; [split; [constructor|lia]|]. rewrite Forall_cons, <- IH. lia.
Qed.

Lemma spend_0 b : spend b 0 0 = b.
Proof. destruct b. unfold spend. simpl. by rewrite !Z.add_0_r. Qed.

Lemma top_ok_below depth v : 1 < depth -> top_ok depth v.
Proof. destruct v; simpl; try done. intros ? ->. lia. Qed.

(** The checks on the children of a node, as those on the node. *)
Lemma raw_ok_children {A} (depth : Z) (child : A -> json) (shape : A -> Prop) (ok : A -> bool) l :
  1 <= depth <= MAX_RAW_DEPTH ->
  (forall x, ok x = true <-> shape x /\ well_shaped (child x) = true) ->
  Forall (fun x => shape x /\ raw_ok (depth + 1) (child x)) l <->
  depth + (1 + Budget.max_depth (map (fun x => Budget.json_depth (child x)) l)) - 1 <= MAX_RAW_DEPTH /\
  forallb ok l = true.
Proof.
  intros Hd Hok. pose proof (max_depth_le (map (fun x => Budget.json_depth (child x)) l)
    (MAX_RAW_DEPTH - depth) ltac:(lia)) as Hm.
  replace (depth + (1 + Budget.max_depth (map (fun x => Budget.json_depth (child x)) l)) - 1 <= MAX_RAW_DEPTH)
    with (Budget.max_depth (map (fun x => Budget.json_depth (child x)) l) + depth <= MAX_RAW_DEPTH)
    by (f_equal; lia).
  assert (Budget.max_depth (map (fun x => Budget.json_depth (child x)) l) + depth <= MAX_RAW_DEPTH <->
          Forall (fun x => Budget.json_depth (child x) <= MAX_RAW_DEPTH - depth) l) as ->.
  { rewrite Forall_map in Hm. rewrite <- Hm. lia. }
  rewrite forallb_forall, !Forall_forall. unfold raw_ok. split.
  - intros H. split; [intros x Hx; destruct (H x Hx); lia|].
    intros x Hx%list_elem_of_In. apply Hok. naive_solver.
  - intros [H1 H2] x Hx. specialize (H1 x Hx). specialize (H2 x ltac:(by apply list_elem_of_In)).
    apply Hok in H2 as [? ?]. split_and!; try done; [lia|]. apply top_ok_below. lia.
Qed.

(** A container counts its children before it visits them. *)
Lemma spend_fits b b1 k i k' i' :
  b1 = spend b k i -> affordable b -> 0 <= k -> 0 <= i ->
  rb_keys b + k <= MAX_RAW_KEYS -> rb_array_items b + i <= MAX_RAW_ARRAY_ITEMS ->
  affordable b1 /\ spend b1 k' i' = spend b (k + k') (i + i').
Proof. intros -> [] ? ? ? ?. split; [split; simpl; lia|]. unfold spend. simpl. f_equal; lia. Qed.

Lemma validate_raw_items items depth :
  1 <= depth <= MAX_RAW_DEPTH ->
  (forall x, x ∈ items -> exact_step (validate_raw_value protocol_fields field x (depth + 1))
     (key_total x) (item_total x) (raw_ok (depth + 1) x)) ->
  exact_step (validate_raw_value protocol_fields field (JArray items) depth)
    (key_total (JArray items)) (item_total (JArray items)) (raw_ok depth (JArray items)).
Proof.
  intros Hd IH b b' Hb. rewrite validate_raw_eq. unfold raw_ok.
  destruct (Z.ltb_spec MAX_RAW_DEPTH depth) as [Hdeep|_]; [lia|]. cbv zeta.
  assert (0 <= sum (map key_total items)) as Hk by (apply sum_nonneg; intros; apply totals_nonneg).
  assert (0 <= sum (map item_total items)) as Hi by (apply sum_nonneg; intros; apply totals_nonneg).
  rewrite saturated_over by (done || apply Hb || lia). cbn [key_total item_total].
  destruct (Z.ltb_spec MAX_RAW_ARRAY_ITEMS (rb_array_items b + Z.of_nat (length items))) as [Hover|Hfit].
  { split; [done|]. intros (_ & [_ Haff] & _). simpl in Haff. lia. }
  set (b1 := mk_raw_budget _ _).
  destruct (spend_fits b b1 0 (Z.of_nat (length items)) (sum (map key_total items))
              (sum (map item_total items))) as [Hb1 Heq]; try done; [|lia| |].
  { unfold b1, spend, usize_saturating_add. f_equal; [lia|]. apply Z.min_l.
    unfold USIZE_MAX, U64_MAX, MAX_RAW_ARRAY_ITEMS in *. lia. }
  { rewrite Z.add_0_r. apply Hb. }
  pose proof (fold_exact _ key_total item_total _ items (fun x _ => totals_nonneg x) IH b1 b' Hb1) as Hfold.
  rewrite Heq, Z.add_0_l in Hfold. rewrite Hfold. cbn [Budget.json_depth well_shaped top_ok].
  assert (Forall (raw_ok (depth + 1)) items <->
    depth + (1 + Budget.max_depth (map Budget.json_depth items)) - 1 <= MAX_RAW_DEPTH /\
    forallb well_shaped items = true) as Hch.
  { rewrite <- (raw_ok_children depth id (fun _ => True) well_shaped items) by (done || naive_solver).
    apply Forall_iff. intros x. naive_solver. }
  rewrite Hch. naive_solver.
Qed.

Lemma validate_raw_entries fields depth :
  1 <= depth <= MAX_RAW_DEPTH ->
  (forall e, e ∈ fields -> exact_step (raw_entry depth e) (key_total e.2) (item_total e.2)
     ((raw_key_shape e.1 = true /\ (depth = 1 -> is_protected_body_field protocol_fields e.1 = false))
      /\ raw_ok (depth + 1) e.2)) ->
  exact_step (validate_raw_value protocol_fields field (JObject fields) depth)
    (key_total (JObject fields)) (item_total (JObject fields)) (raw_ok depth (JObject fields)).
Proof.
  intros Hd IH b b' Hb. rewrite validate_raw_eq. unfold raw_ok.
  destruct (Z.ltb_spec MAX_RAW_DEPTH depth) as [Hdeep|_]; [lia|]. cbv zeta.
  set (k := fun e : string * json => key_total e.2) in *. set (n := fun e : string * json => item_total e.2) in *.
  assert (0 <= sum (map k fields)) as Hk by (apply sum_nonneg; intros; apply totals_nonneg).
  rewrite saturated_over by (done || apply Hb || lia). cbn [key_total item_total].
  destruct (Z.ltb_spec MAX_RAW_KEYS (rb_keys b + Z.of_nat (length fields))) as [Hover|Hfit].
  { split; [done|]. intros (_ & [Haff _] & _). simpl in Haff. fold k in Haff. lia. }
  set (b1 := mk_raw_budget _ _).
  destruct (spend_fits b b1 (Z.of_nat (length fields)) 0 (sum (map k fields)) (sum (map n fields)))
    as [Hb1 Heq]; try done; [|lia| |].
  { unfold b1, spend, usize_saturating_add. f_equal; [|lia]. apply Z.min_l.
    unfold USIZE_MAX, U64_MAX, MAX_RAW_KEYS in *. lia. }
  { rewrite Z.add_0_r. apply Hb. }
  pose proof (fold_exact _ k n _ fields (fun x _ => totals_nonneg x.2) IH b1 b' Hb1) as Hfold.
  rewrite Heq, Z.add_0_l in Hfold. rewrite Hfold. cbn [Budget.json_depth well_shaped top_ok].
  assert (Forall (fun e : string * json => (raw_key_shape e.1 = true /\
      (depth = 1 -> is_protected_body_field protocol_fields e.1 = false)) /\ raw_ok (depth + 1) e.2) fields <->
    (depth + (1 + Budget.max_depth (map (fun e : string * json => Budget.json_depth e.2) fields)) - 1
       <= MAX_RAW_DEPTH /\ forallb (fun e : string * json => raw_key_shape e.1 && well_shaped e.2) fields = true)
    /\ (depth = 1 -> unprotected protocol_fields fields)) as Hch.
  { rewrite <- (raw_ok_children depth snd (fun e => raw_key_shape e.1 = true)
      (fun e => raw_key_shape e.1 && well_shaped e.2) fields) by (done || (intros; by rewrite andb_true_iff)).
    unfold unprotected. rewrite !Forall_forall. naive_solver. }
  rewrite Hch. naive_solver.
Qed.

(** The validation of a value spends exactly its keys and items, and succeeds
    exactly on values within the budgets. *)
Lemma validate_raw_exact v depth :
  1 <= depth ->
  exact_step (validate_raw_value protocol_fields field v depth) (key_total v) (item_total v)
    (raw_ok depth v).
Proof.
  revert depth. induction v as [v IH] using json_children_ind. intros depth Hd b b' Hb.
  destruct (Z.ltb_spec MAX_RAW_DEPTH depth) as [Hdeep|Hdeep].
  { rewrite validate_raw_eq, (proj2 (Z.ltb_lt _ _) Hdeep). pose proof (json_depth_pos v).
    split; [done|intros (_ & _ & ? & _); lia]. }
  destruct v as [|x|x|s|items|fields].
  1-4: rewrite validate_raw_eq, (proj2 (Z.ltb_ge _ _) Hdeep); unfold raw_ok; cbn [key_total item_total
    Budget.json_depth well_shaped top_ok]; rewrite spend_0.
  1-3: split; [intros [= <-]; split_and!; try done; lia|by intros [-> _]].
  - destruct (Z.ltb_spec MAX_RAW_BYTES (str_len s)).
    + split; [done|]. intros (_ & _ & _ & Hs%Z.leb_le & _). lia.
    + split; [intros [= <-]|by intros [-> _]]. split_and!; try done; [lia|by apply Z.leb_le].
  - apply validate_raw_items; [lia| |done]. intros x Hx. apply IH; [by apply depth_item|lia].
  - apply validate_raw_entries; [lia| |done]. intros [key child] Hx b0 b0' Hb0.
    pose proof (IH child ltac:(by eapply depth_entry) (depth + 1) ltac:(lia) b0 b0' Hb0) as Hch.
    unfold raw_entry. cbn [fst snd]. destruct (raw_key_shape key); cbn [negb];
      [|split; [done|by intros (_ & _ & [[? _] _])]].
    destruct (Z.eqb_spec depth 1) as [E|E]; cbn [andb].
    + destruct (is_protected_body_field protocol_fields key).
      * split; [done|]. intros (_ & _ & [[_ Hp] _]). by apply Hp in E.
      * rewrite Hch. tauto.
    + rewrite Hch. tauto.
Qed.
End RawSpec.

Section Extensions.
Context {JP : JsonPrinter}.

(** What the parser accepts. *)
Lemma raw_parse_ok protocol_fields field value raw :
  raw_parse protocol_fields field value = Ok raw <->
  exists fields encoded, value = JObject fields /\ fields <> [] /\
    within_raw_budget value /\ unprotected protocol_fields fields /\
    to_string value = Ok encoded /\ str_len encoded <= MAX_RAW_BYTES /\
    raw = mk_raw_fields fields (str_len encoded).
Proof.
  unfold raw_parse. destruct (as_object value) as [fields|] eqn:Ho.
  2:{ split; [done|]. intros (fields & encoded & -> & _). done. }
  apply as_object_inv in Ho as ->. destruct fields as [|e fields]; [split; [done|naive_solver]|].
  pose proof (validate_raw_exact protocol_fields field (JObject (e :: fields)) 1 ltac:(lia)
    raw_budget_default) as Hv.
  assert (affordable raw_budget_default) as Hb by done.
  destruct (totals_nonneg (JObject (e :: fields))) as [Hk Hi].
  assert (forall b', validate_raw_value protocol_fields field (JObject (e :: fields)) 1 raw_budget_default = Ok b' ->
    within_raw_budget (JObject (e :: fields)) /\ unprotected protocol_fields (e :: fields)) as Hfwd.
  { intros b' Hb'. apply Hv in Hb' as (_ & Haff & Hok); [|done]. unfold affordable, raw_ok, spend in *.
    cbn [rb_keys rb_array_items raw_budget_default top_ok] in *. unfold within_raw_budget.
    split_and!; [lia|lia|lia|tauto|tauto]. }
  destruct (validate_raw_value _ _ _ _ _) as [b'|err] eqn:E; cbn [mbind result_bind].
  - destruct (Hfwd b' eq_refl) as [Hw Hu]. destruct (to_string _) as [encoded|]; cbn [map_err mbind result_bind].
    + destruct (Z.ltb_spec MAX_RAW_BYTES (str_len encoded)); [split; [done|]|].
      * intros (? & ? & _ & _ & _ & _ & [= <-] & ? & _). lia.
      * split; [intros [= <-]; eexists _, _; by split_and!|]. by intros (? & ? & [= <-] & _ & _ & _ & [= <-] & _ & ->).
    + split; [done|]. by intros (? & ? & _ & _ & _ & _ & ? & _).
  - split; [done|]. intros (fields' & encoded & [= <-] & _ & (H1 & H2 & H3 & H4) & Hu & _). exfalso.
    enough (Err err = Ok (spend raw_budget_default (key_total (JObject (e :: fields)))
      (item_total (JObject (e :: fields))))) by done.
    apply Hv; [done|]. split; [done|]. split.
    + unfold affordable, spend. cbn [rb_keys rb_array_items raw_budget_default]. lia.
    + split_and!; [lia|exact H4|by intros _].
Qed.

(** A raw body extension is accepted exactly when it is a non-empty object
    within every budget (nesting depth 16, 128 keys and 1024 array items in
    total over the whole value, string and key lengths, 64 KiB encoded), whose
    keys have the allowed shape at every depth and whose top-level keys are, in
    any letter case, no field the SDK owns and no header, credential or version
    name; the accepted fields are the object's own. *)
Theorem raw_extension_exact protocol_fields field value raw :
  raw_parse protocol_fields field value = Ok raw <->
  exists fields encoded, value = JObject fields /\ fields <> [] /\
    within_raw_budget value /\ unprotected protocol_fields fields /\
    to_string value = Ok encoded /\ str_len encoded <= MAX_RAW_BYTES /\
    raw = mk_raw_fields fields (str_len encoded).
Proof. apply raw_parse_ok. Qed.
End Extensions.

(** ** Extensions in the body *)
Lemma obj_get_insert key value object k :
  obj_get (obj_insert key value object) k = if str_eqb key k then Some value else obj_get object k.
Proof.
  induction object as [|[k' v'] object IH]; simpl; [done|].
  destruct (String.compare key k') eqn:Hc; simpl; [|done|].
  - apply String.compare_eq_iff in Hc as ->. by destruct (str_eqb k' k).
  - rewrite IH. destruct (str_eqb k' k) eqn:Ek'; [|done]. destruct (str_eqb key k) eqn:E; [|done].
    apply str_eqb_spec in Ek' as ->. apply str_eqb_spec in E as ->.
    pose proof (String.compare_antisym k k) as Ha. by rewrite Hc in Ha.
Qed.

Lemma contains_key_false object k : contains_key object k = false <-> obj_get object k = None.
Proof. unfold contains_key. rewrite bool_decide_eq_false. by rewrite eq_None_not_Some. Qed.

(** A merge changes no field of the body and adds every field of the
    extension. *)
Lemma merge_raw_get field raw object merged :
  merge_raw field raw object = Ok merged ->
  forall k, obj_get merged k = match obj_get object k with Some v => Some v | None => obj_get raw k end.
Proof.
  revert object. induction raw as [|[name value] raw IH]; intros object; simpl.
  - intros [= <-] k. by destruct (obj_get object k).
  - destruct (contains_key object name) eqn:Hc; [done|]. apply contains_key_false in Hc.
    intros Hm k. rewrite (IH _ Hm k), obj_get_insert by done.
    destruct (str_eqb name k) eqn:E; [|done]. apply str_eqb_spec in E as ->. by rewrite Hc.
Qed.

Lemma merge_raw_ok field raw object :
  NoDup (map fst raw) -> Forall (fun e : string * json => obj_get object e.1 = None) raw ->
  exists merged, merge_raw field raw object = Ok merged.
Proof.
  revert object. induction raw as [|[name value] raw IH]; intros object; simpl; [eauto|].
  intros [Hn Hnd]%NoDup_cons [Hname Hrest]%Forall_cons.
  rewrite (proj2 (contains_key_false _ _)) by done. apply IH; [done|].
  apply Forall_forall. intros [k v] Hk. rewrite obj_get_insert by done.
  destruct (str_eqb name (k, v).1) eqn:E; [|exact (proj1 (Forall_forall _ _) Hrest _ Hk)].
  apply str_eqb_spec in E. cbn in E. subst name. exfalso. apply Hn. by apply (list_elem_of_fmap_2 fst raw (k, v)).
Qed.
