(* ===== verification/ToolCalls.v ===== *)
(** * Tool-call accumulation: [src/src/protocol/openai_chat/response/tool_calls.rs]

    The accumulator that reassembles tool calls from streamed fragments, under
    per-call and aggregate byte limits. *)
From S2P Require Import Prelude Errors Usage Domain Structured Collector ChatWire.

Record PendingToolCall := mk_pending {
  pt_wire_index : Z;
  pt_domain_content_index : Z;
  pt_provider_call_id : option string;
  pt_name_buffer : string;
  pt_arguments_buffer : string;
  pt_start_emitted : bool;
  pt_ended : bool }.

Record ToolCallAccumulator := mk_accumulator {
  pending_by_wire_index : gmap Z PendingToolCall;
  seen_provider_call_ids : gmap string Z;
  order : list Z;
  total_argument_bytes : Z;
  acc_limits : ResponseLimits }.

Definition accumulator_new (limits : ResponseLimits) : ToolCallAccumulator :=
  mk_accumulator ∅ ∅ [] 0 limits.

Definition acc_is_empty (a : ToolCallAccumulator) : bool :=
  match order a with [] => true | _ => false end.

Definition set_pending_map (v : gmap Z PendingToolCall) (a : ToolCallAccumulator) :=
  mk_accumulator v (seen_provider_call_ids a) (order a) (total_argument_bytes a) (acc_limits a).
Definition set_seen (v : gmap string Z) (a : ToolCallAccumulator) :=
  mk_accumulator (pending_by_wire_index a) v (order a) (total_argument_bytes a) (acc_limits a).
Definition set_total (v : Z) (a : ToolCallAccumulator) :=
  mk_accumulator (pending_by_wire_index a) (seen_provider_call_ids a) (order a) v (acc_limits a).
Definition put_pending (w : Z) (p : PendingToolCall) (a : ToolCallAccumulator) :=
  set_pending_map (<[w := p]> (pending_by_wire_index a)) a.

Definition set_provider_call_id (id : option string) (p : PendingToolCall) :=
  mk_pending (pt_wire_index p) (pt_domain_content_index p) id (pt_name_buffer p)
    (pt_arguments_buffer p) (pt_start_emitted p) (pt_ended p).
Definition set_name_buffer (s : string) (p : PendingToolCall) :=
  mk_pending (pt_wire_index p) (pt_domain_content_index p) (pt_provider_call_id p) s
    (pt_arguments_buffer p) (pt_start_emitted p) (pt_ended p).
Definition set_arguments_buffer (s : string) (p : PendingToolCall) :=
  mk_pending (pt_wire_index p) (pt_domain_content_index p) (pt_provider_call_id p)
    (pt_name_buffer p) s (pt_start_emitted p) (pt_ended p).
Definition set_ended (p : PendingToolCall) :=
  mk_pending (pt_wire_index p) (pt_domain_content_index p) (pt_provider_call_id p)
    (pt_name_buffer p) (pt_arguments_buffer p) (pt_start_emitted p) true.

Definition parse_tool_call_id (raw : string) : result LlmError string :=
  map_err (fun _ => protocol "invalid tool call id") (ToolCallId_new raw).

Definition parse_wire_index (raw : Z) : result LlmError Z :=
  if raw <? 0 then Err (protocol "tool call index must be non-negative")
  else ok_or (checked 0 U32_MAX raw) (protocol "tool call index exceeds u32 range").

Definition max_list (l : list Z) : Z := foldr Z.max 0 l.
Fixpoint json_depth (v : json) : Z :=
  match v with
  | JArray items => 1 + max_list (map json_depth items)
  | JObject entries => 1 + max_list (map (fun e : string * json => json_depth e.2) entries)
  | _ => 1
  end.

(** Whether the machine must allocate a content index for [w]. *)
Definition prepare (a : ToolCallAccumulator) (w : Z) : result LlmError bool :=
  match pending_by_wire_index a !! w with
  | Some _ => Ok false
  | None =>
      if rl_max_tool_calls (acc_limits a) <=? Z.of_nat (length (order a))
      then Err (protocol "tool call count exceeds resource limit") else Ok true
  end.

Abbreviation AM := (M ToolCallAccumulator LlmError).

Definition register_id (w : Z) (id : string) : AM unit :=
  a ← get;
  match seen_provider_call_ids a !! id with
  | Some existing =>
      if negb (existing =? w) then throw (protocol "duplicate tool call id across wire indexes")
      else mret tt
  | None => put (set_seen (<[id := w]> (seen_provider_call_ids a)) a)
  end.

Section Acc.
Context {JS : JsonSyntax} {JP : JsonPrinter}.

(** The fragments of one delta: empty ones count as absent. *)
Definition name_fragment (delta : ToolCallDeltaWire) : option string :=
  name ← td_function delta ≫= fd_name;
  if str_is_empty name then None else Some name.
Definition arguments_fragment (delta : ToolCallDeltaWire) (compat : ToolArgumentsCompat)
  : result LlmError (option string) :=
  match td_function delta ≫= fd_arguments with
  | None => Ok None
  | Some arguments =>
      s ← normalize_tool_arguments arguments compat;
      Ok (if str_is_empty s then None else Some s)
  end.

Definition append_name (w : Z) (name_delta : option string) : AM unit :=
  match name_delta with
  | None => mret tt
  | Some delta =>
      a ← get;
      p ← lift (ok_or (pending_by_wire_index a !! w) (protocol "missing tool call accumulator"));
      _ ← guard_err (TOOL_NAME_MAX_BYTES <? usize_saturating_add (str_len (pt_name_buffer p)) (str_len delta))
            (protocol "tool name exceeds resource limit");
      put (put_pending w (set_name_buffer (pt_name_buffer p +:+ delta) p) a)
  end.

Definition append_arguments (w : Z) (arguments_delta : option string) : AM unit :=
  match arguments_delta with
  | None => mret tt
  | Some delta =>
      a ← get;
      p ← lift (ok_or (pending_by_wire_index a !! w) (protocol "missing tool call accumulator"));
      _ ← guard_err (rl_max_tool_arguments_bytes (acc_limits a)
                     <? usize_saturating_add (str_len (pt_arguments_buffer p)) (str_len delta))
            (protocol "tool arguments exceed per-call resource limit");
      let next_total := usize_saturating_add (total_argument_bytes a) (str_len delta) in
      _ ← guard_err (rl_max_all_tool_arguments_bytes (acc_limits a) <? next_total)
            (protocol "tool arguments exceed aggregate resource limit");
      put (set_total next_total
             (put_pending w (set_arguments_buffer (pt_arguments_buffer p +:+ delta) p) a))
  end.

Definition append_fragments (w : Z) (delta : ToolCallDeltaWire) (compat : ToolArgumentsCompat)
  : AM (list AssistantEvent) :=
  a ← get;
  p ← lift (ok_or (pending_by_wire_index a !! w) (protocol "missing tool call accumulator"));
  _ ← guard_err (pt_ended p) (protocol "tool call delta received after tool call end");
  let name_delta := name_fragment delta in
  arguments_delta ← lift (arguments_fragment delta compat);
  _ ← append_name w name_delta;
  _ ← append_arguments w arguments_delta;
  mret (match name_delta, arguments_delta with
        | None, None => []
        | _, _ => [AssistantEvent.ToolCallDelta (pt_domain_content_index p) w name_delta
                     arguments_delta]
        end).

(** The known-index branch of [observe_delta]. *)
Definition observe_known (w : Z) (p : PendingToolCall) (parsed_id : option string) : AM unit :=
  _ ← guard_err (pt_ended p) (protocol "tool call delta received after tool call end");
  _ ← guard_err (match pt_provider_call_id p, parsed_id with
                 | Some existing, Some parsed => negb (str_eqb existing parsed)
                 | _, _ => false
                 end) (protocol "conflicting tool call id for wire index");
  match parsed_id with
  | None => mret tt
  | Some id =>
      _ ← register_id w id;
      match pt_provider_call_id p with
      | None => modify (put_pending w (set_provider_call_id (Some id) p))
      | Some _ => mret tt
      end
  end.

(** The new-index branch. *)
Definition observe_new (w : Z) (new_content_index : option Z) (parsed_id : option string)
  : AM AssistantEvent :=
  index ← lift (ok_or new_content_index (protocol "missing content index for new tool call"));
  _ ← match parsed_id with Some id => register_id w id | None => mret tt end;
  _ ← modify (fun a =>
        mk_accumulator
          (<[w := mk_pending w index parsed_id EmptyString EmptyString true false]>
             (pending_by_wire_index a))
          (seen_provider_call_ids a) (order a ++ [w]) (total_argument_bytes a) (acc_limits a));
  mret (AssistantEvent.ToolCallStart index w parsed_id).

Definition observe_delta (w : Z) (new_content_index : option Z) (delta : ToolCallDeltaWire)
    (compat : ToolArgumentsCompat) : AM (list AssistantEvent) :=
  parsed_id ← lift (match td_id delta with
                    | None => Ok None
                    | Some raw => id ← parse_tool_call_id raw; Ok (Some id)
                    end);
  a ← get;
  events ← match pending_by_wire_index a !! w with
           | Some p => _ ← observe_known w p parsed_id; mret []
           | None => e ← observe_new w new_content_index parsed_id; mret [e]
           end;
  more ← append_fragments w delta compat;
  mret (events ++ more).

Definition finish_call (w : Z) : AM AssistantEvent :=
  a ← get;
  p ← lift (ok_or (pending_by_wire_index a !! w) (protocol "missing tool call accumulator"));
  _ ← guard_err (pt_ended p) (protocol "duplicate tool call end");
  id ← lift (ok_or (pt_provider_call_id p) (protocol "tool call completed without an id"));
  _ ← guard_err (str_is_empty (pt_name_buffer p)) (protocol "tool call completed without a name");
  name ← lift (map_err (fun _ => protocol "tool call completed with an invalid name")
                 (ToolName_new (pt_name_buffer p)));
  value ← lift (map_err (fun _ => protocol "tool call completed with incomplete JSON arguments")
                  (from_str (pt_arguments_buffer p)));
  _ ← guard_err (rl_max_schema_depth (acc_limits a) <? json_depth value)
        (protocol "tool call arguments exceed maximum JSON nesting depth");
  _ ← put (put_pending w (set_ended p) a);
  mret (AssistantEvent.ToolCallEnd (pt_domain_content_index p)
          (mk_tool_call id name (mk_tool_arguments (pt_arguments_buffer p) value))).

Fixpoint finish_calls (ws : list Z) : AM (list AssistantEvent) :=
  match ws with
  | [] => mret []
  | w :: ws => e ← finish_call w; es ← finish_calls ws; mret (e :: es)
  end.

Definition finish_all : AM (list AssistantEvent) := a ← get; finish_calls (order a).

Definition has_open_calls (a : ToolCallAccumulator) : bool :=
  existsb (fun p => negb (pt_ended p)) (btree_values (pending_by_wire_index a)).
End Acc.

(** ** Limits and identities are enforced *)
Definition sum_lengths (m : gmap Z PendingToolCall) : Z :=
  map_fold (fun _ p acc => str_len (pt_arguments_buffer p) + acc) 0 m.

Record acc_ok (a : ToolCallAccumulator) : Prop := {
  ao_order : forall w, w ∈ order a <-> is_Some (pending_by_wire_index a !! w);
  ao_nodup : NoDup (order a);
  ao_count : Z.of_nat (length (order a)) <= Z.max 0 (rl_max_tool_calls (acc_limits a));
  ao_wire : forall w p, pending_by_wire_index a !! w = Some p -> pt_wire_index p = w;
  ao_name : forall w p, pending_by_wire_index a !! w = Some p ->
    str_len (pt_name_buffer p) <= TOOL_NAME_MAX_BYTES;
  ao_args : forall w p, pending_by_wire_index a !! w = Some p ->
    str_len (pt_arguments_buffer p) <= Z.max 0 (rl_max_tool_arguments_bytes (acc_limits a));
  ao_total : total_argument_bytes a = sum_lengths (pending_by_wire_index a);
  ao_total_bound : total_argument_bytes a <= Z.max 0 (rl_max_all_tool_arguments_bytes (acc_limits a));
  ao_seen : forall w p x, pending_by_wire_index a !! w = Some p ->
    pt_provider_call_id p = Some x -> seen_provider_call_ids a !! x = Some w;
  ao_seen_rev : forall w x, seen_provider_call_ids a !! x = Some w ->
    exists p, pending_by_wire_index a !! w = Some p /\ pt_provider_call_id p = Some x;
  ao_limits : rl_max_tool_arguments_bytes (acc_limits a) < USIZE_MAX /\
              rl_max_all_tool_arguments_bytes (acc_limits a) < USIZE_MAX }.

Lemma sum_lengths_fresh (m : gmap Z PendingToolCall) w p :
  m !! w = None -> sum_lengths (<[w := p]> m) = str_len (pt_arguments_buffer p) + sum_lengths m.
Proof.
  intros Hw. unfold sum_lengths. rewrite map_fold_insert_L; [done| |done]. intros. lia.
Qed.

Lemma sum_lengths_update (m : gmap Z PendingToolCall) w p q :
  m !! w = Some p ->
  sum_lengths (<[w := q]> m) =
  sum_lengths m + str_len (pt_arguments_buffer q) - str_len (pt_arguments_buffer p).
Proof.
  intros Hw. rewrite <- insert_delete_eq.
  rewrite sum_lengths_fresh by apply lookup_delete_eq.
  rewrite <- (insert_delete_id m w p) at 2 by done.
  rewrite sum_lengths_fresh by apply lookup_delete_eq. lia.
Qed.

(** What an update of one pending call must keep. *)
Lemma put_pending_ok a w p q :
  acc_ok a -> pending_by_wire_index a !! w = Some p ->
  pt_wire_index q = w -> pt_provider_call_id q = pt_provider_call_id p ->
  str_len (pt_name_buffer q) <= TOOL_NAME_MAX_BYTES ->
  str_len (pt_arguments_buffer q) <= Z.max 0 (rl_max_tool_arguments_bytes (acc_limits a)) ->
  let total := total_argument_bytes a + str_len (pt_arguments_buffer q) - str_len (pt_arguments_buffer p) in
  total <= Z.max 0 (rl_max_all_tool_arguments_bytes (acc_limits a)) ->
  acc_ok (set_total total (put_pending w q a)).
Proof.
  intros [] Hw Hq Hid Hn Ha total Ht. split; cbn; try done.
  - intros w'. rewrite ao_order0. rewrite lookup_insert_is_Some.
    destruct (decide (w = w')) as [->|]; naive_solver.
  - intros w' p'. rewrite lookup_insert_Some. naive_solver.
  - intros w' p'. rewrite lookup_insert_Some. naive_solver.
  - intros w' p'. rewrite lookup_insert_Some. naive_solver.
  - rewrite (sum_lengths_update _ _ p) by done. unfold total. lia.
  - intros w' p' x. rewrite lookup_insert_Some.
    intros [[<- <-]|[Hne Hp']] Hx; [rewrite Hid in Hx|]; eauto.
  - intros w' x Hx. apply ao_seen_rev0 in Hx as (p' & Hp' & Hpx).
    destruct (decide (w = w')) as [<-|].
    + exists q. rewrite lookup_insert_eq. split; [done|]. congruence.
    + exists p'. by rewrite lookup_insert_ne.
Qed.

Lemma set_total_id a : set_total (total_argument_bytes a) a = a.
Proof. by destruct a. Qed.

Lemma put_pending_same a w p q :
  acc_ok a -> pending_by_wire_index a !! w = Some p ->
  pt_wire_index q = w -> pt_provider_call_id q = pt_provider_call_id p ->
  str_len (pt_name_buffer q) <= TOOL_NAME_MAX_BYTES ->
  pt_arguments_buffer q = pt_arguments_buffer p ->
  acc_ok (put_pending w q a).
Proof.
  intros Ha Hp Hw Hid Hn Hargs.
  pose proof (put_pending_ok a w p q Ha Hp Hw Hid Hn) as Hput. cbv zeta in Hput.
  rewrite Hargs in Hput.
  replace (total_argument_bytes a + str_len (pt_arguments_buffer p) - str_len (pt_arguments_buffer p))
    with (total_argument_bytes a) in Hput by lia.
  apply Hput; [by eapply ao_args|by apply ao_total_bound].
Qed.

Section AccProofs.
Context {JS : JsonSyntax} {JP : JsonPrinter}.

(** Only the pending calls change, and only call [w] among them, which keeps
    its content index, its state and its id. *)
Definition touches (w : Z) (a a' : ToolCallAccumulator) : Prop :=
  order a' = order a /\ seen_provider_call_ids a' = seen_provider_call_ids a /\
  acc_limits a' = acc_limits a /\
  (forall w', w' <> w -> pending_by_wire_index a' !! w' = pending_by_wire_index a !! w').

Lemma touches_trans w a b c : touches w a b -> touches w b c -> touches w a c.
Proof.
  intros (E1 & E2 & E3 & E4) (F1 & F2 & F3 & F4). split_and!; try congruence.
  intros w' Hne. by rewrite F4, E4.
Qed.
Lemma touches_put w p t a : touches w a (set_total t (put_pending w p a)).
Proof. split_and!; try reflexivity. intros w' Hne. by apply lookup_insert_ne. Qed.
Lemma lookup_put w p t a : pending_by_wire_index (set_total t (put_pending w p a)) !! w = Some p.
Proof. apply lookup_insert_eq. Qed.

Lemma touches_put_same w p a : touches w a (put_pending w p a).
Proof. split_and!; try reflexivity. intros w' Hne. by apply lookup_insert_ne. Qed.
Lemma lookup_put_same w p a : pending_by_wire_index (put_pending w p a) !! w = Some p.
Proof. apply lookup_insert_eq. Qed.

Lemma push_name_ok w a p d :
  acc_ok a -> pending_by_wire_index a !! w = Some p ->
  usize_saturating_add (str_len (pt_name_buffer p)) (str_len d) <= TOOL_NAME_MAX_BYTES ->
  acc_ok (put_pending w (set_name_buffer (pt_name_buffer p +:+ d) p) a).
Proof.
  intros Ha Hp Hlt. apply usize_saturating_add_le in Hlt as [_ Hlt]; [|done].
  apply (put_pending_same a w p); try done; [exact (ao_wire a Ha w p Hp)|].
  cbn [pt_name_buffer set_name_buffer]. by rewrite str_len_app.
Qed.

Lemma append_name_spec w delta a p :
  acc_ok a -> pending_by_wire_index a !! w = Some p ->
  wp (append_name w delta)
    (fun _ a' => acc_ok a' /\ touches w a a' /\
       pending_by_wire_index a' !! w =
         Some (set_name_buffer (push_opt (pt_name_buffer p) delta) p))
    (fun _ a' => acc_ok a') a.
Proof.
  intros Ha Hp. unfold append_name. destruct delta as [d|].
  - wp_step. wp_step. wp_step. wp_step. rewrite Hp. cbn [ok_or]. wp_step. apply wp_guard; [done|].
    intros Hlt%Z.ltb_ge. wp_step.
    split_and!; [by apply push_name_ok|apply touches_put_same|apply lookup_put_same].
  - wp_step. split_and!; [done|by split_and!|]. rewrite Hp. by destruct p.
Qed.

Lemma push_arguments_ok w a p d :
  acc_ok a -> pending_by_wire_index a !! w = Some p ->
  usize_saturating_add (str_len (pt_arguments_buffer p)) (str_len d)
    <= rl_max_tool_arguments_bytes (acc_limits a) ->
  usize_saturating_add (total_argument_bytes a) (str_len d)
    <= rl_max_all_tool_arguments_bytes (acc_limits a) ->
  acc_ok (set_total (usize_saturating_add (total_argument_bytes a) (str_len d))
            (put_pending w (set_arguments_buffer (pt_arguments_buffer p +:+ d) p) a)).
Proof.
  intros Ha Hp H1 H2. pose proof (ao_limits a Ha) as [L1 L2].
  apply usize_saturating_add_le in H1 as [_ H1]; [|done].
  apply usize_saturating_add_le in H2 as [-> H2]; [|done]. pose proof (ao_name a Ha w p Hp).
  pose proof (put_pending_ok a w p (set_arguments_buffer (pt_arguments_buffer p +:+ d) p) Ha Hp)
    as Hput.
  cbv zeta in Hput. cbn [pt_arguments_buffer set_arguments_buffer] in Hput.
  rewrite str_len_app in Hput.
  replace (total_argument_bytes a + str_len d) with
    (total_argument_bytes a + (str_len (pt_arguments_buffer p) + str_len d) -
       str_len (pt_arguments_buffer p)) by lia.
  apply Hput; try done; [exact (ao_wire a Ha w p Hp)|lia|lia].
Qed.

Lemma append_arguments_spec w delta a p :
  acc_ok a -> pending_by_wire_index a !! w = Some p ->
  wp (append_arguments w delta)
    (fun _ a' => acc_ok a' /\ touches w a a' /\
       pending_by_wire_index a' !! w =
         Some (set_arguments_buffer (push_opt (pt_arguments_buffer p) delta) p))
    (fun _ a' => acc_ok a') a.
Proof.
  intros Ha Hp. unfold append_arguments. destruct delta as [d|].
  - wp_step. wp_step. wp_step. wp_step. rewrite Hp. cbn [ok_or]. wp_step. apply wp_guard; [done|].
    intros H1%Z.ltb_ge. cbv zeta. wp_step. apply wp_guard; [done|].
    intros H2%Z.ltb_ge. wp_step.
    split_and!; [by apply push_arguments_ok|apply touches_put|apply lookup_put].
  - wp_step. split_and!; [done|by split_and!|]. rewrite Hp. by destruct p.
Qed.

Definition delta_events (p : PendingToolCall) (w : Z) (n a : option string) : list AssistantEvent :=
  match n, a with
  | None, None => []
  | _, _ => [AssistantEvent.ToolCallDelta (pt_domain_content_index p) w n a]
  end.

Lemma append_fragments_spec w delta compat a p :
  acc_ok a -> pending_by_wire_index a !! w = Some p ->
  wp (append_fragments w delta compat)
    (fun evs a' => acc_ok a' /\ touches w a a' /\ pt_ended p = false /\
       exists ns as_, evs = delta_events p w ns as_ /\
         pending_by_wire_index a' !! w =
           Some (set_arguments_buffer (push_opt (pt_arguments_buffer p) as_)
                   (set_name_buffer (push_opt (pt_name_buffer p) ns) p)))
    (fun _ a' => acc_ok a') a.
Proof.
  intros Ha Hp. unfold append_fragments. wp_step. wp_step. wp_step. wp_step. rewrite Hp. cbn [ok_or].
  wp_step. apply wp_guard; [done|]. intros Hend. cbv zeta. wp_step. wp_step.
  destruct (arguments_fragment delta compat) as [ad|e]; [|done].
  wp_step. eapply wp_mono; [by eapply append_name_spec| |done].
  intros _ a1 (Ha1 & Ht1 & Hp1). wp_step.
  eapply wp_mono; [by eapply append_arguments_spec| |done].
  intros _ a2 (Ha2 & Ht2 & Hp2). wp_step. split_and!; [done| |done|].
  - by eapply touches_trans.
  - eexists _, _. split; [reflexivity|]. exact Hp2.
Qed.

(** Giving call [w] an id nobody holds. *)
Lemma assign_id_ok a w p x :
  acc_ok a -> pending_by_wire_index a !! w = Some p -> pt_provider_call_id p = None ->
  seen_provider_call_ids a !! x = None ->
  acc_ok (put_pending w (set_provider_call_id (Some x) p)
            (set_seen (<[x := w]> (seen_provider_call_ids a)) a)).
Proof.
  intros [] Hp Hid Hx. split; cbn [order pending_by_wire_index put_pending set_pending_map set_seen
    acc_limits total_argument_bytes seen_provider_call_ids]; try done.
  - intros w'. rewrite ao_order0, lookup_insert_is_Some. destruct (decide (w = w')); naive_solver.
  - intros w' p'. rewrite lookup_insert_Some. intros [[<- <-]|[_ ?]]; eauto. by eapply (ao_wire0 w p).
  - intros w' p'. rewrite lookup_insert_Some. intros [[<- <-]|[_ ?]]; eauto. by eapply (ao_name0 w p).
  - intros w' p'. rewrite lookup_insert_Some. intros [[<- <-]|[_ ?]]; eauto. by eapply (ao_args0 w p).
  - rewrite (sum_lengths_update _ _ p) by done. cbn [pt_arguments_buffer set_provider_call_id]. lia.
  - intros w' p' y. rewrite lookup_insert_Some. intros [[<- <-]|[Hne Hp']] Hy.
    + injection Hy as <-. apply lookup_insert_eq.
    + rewrite lookup_insert_ne; [eauto|]. intros ->. apply (ao_seen0 w' p') in Hy; congruence.
  - intros w' y. rewrite lookup_insert_Some. intros [[<- <-]|[Hne Hy]].
    + exists (set_provider_call_id (Some x) p). by rewrite lookup_insert_eq.
    + apply ao_seen_rev0 in Hy as (q & Hq & Hqy). exists q. rewrite lookup_insert_ne; [done|].
      intros ->. rewrite Hp in Hq. injection Hq as <-. congruence.
Qed.

(** Adding a call at a fresh wire index. *)
Lemma new_call_ok a w index id :
  acc_ok a -> pending_by_wire_index a !! w = None ->
  Z.of_nat (length (order a)) < rl_max_tool_calls (acc_limits a) ->
  match id with Some x => seen_provider_call_ids a !! x = None | None => True end ->
  acc_ok (mk_accumulator
    (<[w := mk_pending w index id EmptyString EmptyString true false]> (pending_by_wire_index a))
    (match id with Some x => <[x := w]> (seen_provider_call_ids a) | None => seen_provider_call_ids a end)
    (order a ++ [w]) (total_argument_bytes a) (acc_limits a)).
Proof.
  intros [] Hw Hc Hid. split; cbn [order pending_by_wire_index acc_limits total_argument_bytes
    seen_provider_call_ids]; try done.
  - intros w'. rewrite elem_of_app, list_elem_of_singleton, ao_order0, lookup_insert_is_Some.
    destruct (decide (w = w')); naive_solver.
  - apply NoDup_app. split_and!; [done| |apply NoDup_singleton]. intros w' Hw' ->%list_elem_of_singleton.
    apply ao_order0 in Hw' as [? ?]. congruence.
  - rewrite length_app. simpl. lia.
  - intros w' p'. rewrite lookup_insert_Some. intros [[<- <-]|[_ ?]]; eauto.
  - intros w' p'. rewrite lookup_insert_Some. intros [[<- <-]|[_ ?]]; eauto. done.
  - intros w' p'. rewrite lookup_insert_Some. intros [[<- <-]|[_ ?]]; eauto.
    change (str_len (pt_arguments_buffer _)) with 0. lia.
  - by rewrite sum_lengths_fresh.
  - intros w' p' y. rewrite lookup_insert_Some. intros [[<- <-]|[Hne Hp']] Hy.
    + cbn in Hy. subst id. apply lookup_insert_eq.
    + apply (ao_seen0 w' p') in Hy; [|done]. destruct id as [x|]; [|done].
      rewrite lookup_insert_ne; [done|]. congruence.
  - intros w' y Hy. destruct (decide (w = w')) as [<-|Hne].
    + destruct id as [x|].
      * apply lookup_insert_Some in Hy as [[<- _]|[_ Hy]].
        -- eexists. rewrite lookup_insert_eq. done.
        -- apply ao_seen_rev0 in Hy as (q & Hq & _). congruence.
      * apply ao_seen_rev0 in Hy as (q & Hq & _). congruence.
    + assert (seen_provider_call_ids a !! y = Some w') as Hy'.
      { destruct id as [x|]; [|done]. apply lookup_insert_Some in Hy as [[_ ?]|[_ ?]]; [congruence|done]. }
      apply ao_seen_rev0 in Hy' as (q & Hq & ?). exists q. by rewrite lookup_insert_ne.
Qed.

Lemma observe_known_spec w p parsed a :
  acc_ok a -> pending_by_wire_index a !! w = Some p ->
  wp (observe_known w p parsed)
    (fun _ a' => acc_ok a' /\ order a' = order a /\ acc_limits a' = acc_limits a /\
       (forall w', w' <> w -> pending_by_wire_index a' !! w' = pending_by_wire_index a !! w') /\
       exists id, pending_by_wire_index a' !! w = Some (set_provider_call_id id p) /\
         (pt_provider_call_id p = None \/ id = pt_provider_call_id p))
    (fun _ a' => acc_ok a') a.
Proof.
  intros Ha Hp. unfold observe_known. wp_step. apply wp_guard; [done|]. intros _.
  wp_step. apply wp_guard; [done|]. intros Hconf.
  assert (set_provider_call_id (pt_provider_call_id p) p = p) as Hself by by destruct p.
  destruct parsed as [x|].
  - wp_step. unfold register_id. wp_step. wp_step.
    destruct (seen_provider_call_ids a !! x) as [w'|] eqn:Hx.
    + destruct (w' =? w) eqn:Hw; simpl; [|by wp_step]. apply Z.eqb_eq in Hw as ->. wp_step.
      apply (ao_seen_rev a Ha) in Hx as (q & Hq & Hqx). rewrite Hp in Hq. injection Hq as <-.
      rewrite Hqx. wp_step. split_and!; try done. exists (pt_provider_call_id p).
      split; [by rewrite Hself|by right].
    + wp_step. destruct (pt_provider_call_id p) as [y|] eqn:Hy.
      * exfalso. apply negb_false_iff, str_eqb_spec in Hconf. subst y.
        apply (ao_seen a Ha w p x Hp) in Hy. congruence.
      * wp_step. split_and!; try done.
        -- by apply assign_id_ok.
        -- intros w' Hne. by apply lookup_insert_ne.
        -- exists (Some x). split; [apply lookup_insert_eq|by left].
  - wp_step. split_and!; try done. exists (pt_provider_call_id p).
    split; [by rewrite Hself|by right].
Qed.

Lemma observe_new_spec w index parsed a :
  acc_ok a -> pending_by_wire_index a !! w = None ->
  Z.of_nat (length (order a)) < rl_max_tool_calls (acc_limits a) ->
  wp (observe_new w (Some index) parsed)
    (fun e a' => acc_ok a' /\ e = AssistantEvent.ToolCallStart index w parsed /\
       (forall x, parsed = Some x -> seen_provider_call_ids a !! x = None) /\
       order a' = order a ++ [w] /\ acc_limits a' = acc_limits a /\
       pending_by_wire_index a' =
         <[w := mk_pending w index parsed EmptyString EmptyString true false]> (pending_by_wire_index a))
    (fun _ a' => acc_ok a') a.
Proof.
  intros Ha Hw Hc. unfold observe_new. wp_step. wp_step. cbn [ok_or]. wp_step.
  destruct parsed as [x|].
  - unfold register_id. wp_step. wp_step.
    destruct (seen_provider_call_ids a !! x) as [w'|] eqn:Hx.
    + destruct (w' =? w) eqn:Hw'; simpl; [|by wp_step]. apply Z.eqb_eq in Hw' as ->.
      apply (ao_seen_rev a Ha) in Hx as (q & Hq & Hqx). congruence.
    + wp_step. wp_step. wp_step. wp_step. split_and!; try done.
      * by apply (new_call_ok a w index (Some x)).
      * by intros y [= <-].
  - wp_step. wp_step. wp_step. wp_step. split_and!; try done. by apply (new_call_ok a w index None).
Qed.

(** A call after the fragments [ns] and [args] of one delta. *)
Definition appended (ns args : option string) (p : PendingToolCall) : PendingToolCall :=
  set_arguments_buffer (push_opt (pt_arguments_buffer p) args)
    (set_name_buffer (push_opt (pt_name_buffer p) ns) p).

Definition new_pending (w index : Z) (id : option string) : PendingToolCall :=
  mk_pending w index id EmptyString EmptyString true false.

Lemma pending_insert (m m' : gmap Z PendingToolCall) w p :
  m' !! w = Some p -> (forall w', w' <> w -> m' !! w' = m !! w') -> m' = <[w := p]> m.
Proof.
  intros Hw Ho. apply map_eq. intros w'. destruct (decide (w = w')) as [<-|Hne].
  - by rewrite lookup_insert_eq.
  - rewrite lookup_insert_ne by done. by apply Ho.
Qed.

(** Both outcomes of a successful delta. *)
Inductive observed (w : Z) (ci : option Z) (a a' : ToolCallAccumulator)
  : list AssistantEvent -> Prop :=
| ObservedKnown p id ns args :
    pending_by_wire_index a !! w = Some p -> pt_ended p = false ->
    (pt_provider_call_id p = None \/ id = pt_provider_call_id p) ->
    order a' = order a ->
    pending_by_wire_index a' =
      <[w := appended ns args (set_provider_call_id id p)]> (pending_by_wire_index a) ->
    observed w ci a a' (delta_events p w ns args)
| ObservedNew index id ns args :
    pending_by_wire_index a !! w = None -> ci = Some index ->
    (forall x, id = Some x -> seen_provider_call_ids a !! x = None) ->
    order a' = order a ++ [w] ->
    pending_by_wire_index a' =
      <[w := appended ns args (new_pending w index id)]> (pending_by_wire_index a) ->
    observed w ci a a' (AssistantEvent.ToolCallStart index w id ::
                        delta_events (new_pending w index id) w ns args).

Lemma observe_delta_spec w ci delta compat a :
  acc_ok a ->
  (pending_by_wire_index a !! w = None ->
     is_Some ci /\ Z.of_nat (length (order a)) < rl_max_tool_calls (acc_limits a)) ->
  wp (observe_delta w ci delta compat)
    (fun evs a' => acc_ok a' /\ acc_limits a' = acc_limits a /\ observed w ci a a' evs)
    (fun _ a' => acc_ok a') a.
Proof.
  intros Ha Hci. unfold observe_delta. wp_step. wp_step.
  destruct (match td_id delta with Some _ => _ | None => _ end) as [parsed|]; [|done].
  wp_step. wp_step. wp_step. destruct (pending_by_wire_index a !! w) as [p|] eqn:Hp.
  - wp_step. eapply wp_mono; [by apply (observe_known_spec w p parsed a)| |done].
    intros _ a1 (Ha1 & Ho1 & Hl1 & Hoth1 & id & Hp1 & Hid). wp_step. wp_step.
    eapply wp_mono; [by eapply append_fragments_spec| |done].
    intros evs a2 (Ha2 & (Ho2 & _ & Hl2 & Hoth2) & Hend & ns & args & -> & Hp2). wp_step.
    split_and!; [done|congruence|]. cbn [app].
    apply (ObservedKnown w ci a a2 p id ns args); try done; [congruence|].
    apply pending_insert; [done|]. intros w' Hne. by rewrite Hoth2, Hoth1.
  - destruct (Hci eq_refl) as [[index ->] Hc]. wp_step.
    eapply wp_mono; [by apply (observe_new_spec w index parsed a)| |done].
    intros e a1 (Ha1 & -> & Hfresh & Ho1 & Hl1 & Hp1). wp_step. wp_step.
    assert (pending_by_wire_index a1 !! w = Some (new_pending w index parsed)) as Hw1.
    { rewrite Hp1. apply lookup_insert_eq. }
    eapply wp_mono; [by eapply append_fragments_spec| |done].
    intros evs a2 (Ha2 & (Ho2 & _ & Hl2 & Hoth2) & Hend & ns & args & -> & Hp2). wp_step.
    split_and!; [done|congruence|]. apply ObservedNew; try done; [congruence|].
    apply pending_insert; [done|]. intros w' Hne. rewrite Hoth2, Hp1 by done.
    by apply lookup_insert_ne.
Qed.

(** A finished call reports its own buffers. *)
Lemma finish_call_spec w a :
  acc_ok a ->
  wp (finish_call w)
    (fun e a' => acc_ok a' /\ acc_limits a' = acc_limits a /\ order a' = order a /\
       seen_provider_call_ids a' = seen_provider_call_ids a /\
       exists p call, pending_by_wire_index a !! w = Some p /\ pt_ended p = false /\
         pending_by_wire_index a' = <[w := set_ended p]> (pending_by_wire_index a) /\
         e = AssistantEvent.ToolCallEnd (pt_domain_content_index p) call /\
         pt_provider_call_id p = Some (tc_id call) /\ tc_name call = pt_name_buffer p /\
         raw_json (tc_arguments call) = pt_arguments_buffer p /\
         from_str (pt_arguments_buffer p) = Ok (ta_value (tc_arguments call)) /\
         valid_tool_name (tc_name call))
    (fun _ a' => acc_ok a') a.
Proof.
  intros Ha. unfold finish_call. wp_step. wp_step. wp_step. wp_step.
  destruct (pending_by_wire_index a !! w) as [p|] eqn:Hp; [|done]. cbn [ok_or].
  wp_step. apply wp_guard; [done|]. intros Hend. wp_step. wp_step.
  destruct (pt_provider_call_id p) as [id|] eqn:Hid; [|done]. cbn [ok_or].
  wp_step. apply wp_guard; [done|]. intros _. wp_step. wp_step.
  destruct (ToolName_new (pt_name_buffer p)) as [name|] eqn:Hn; [|done]. cbn [map_err].
  apply ToolName_new_ok in Hn as [-> Hn]. wp_step. wp_step.
  destruct (from_str (pt_arguments_buffer p)) as [v|] eqn:Hv; [|done]. cbn [map_err].
  wp_step. apply wp_guard; [done|]. intros _. wp_step. wp_step. wp_step. split_and!; try done.
  - apply (put_pending_same a w p); try done; [exact (ao_wire a Ha w p Hp)|exact (ao_name a Ha w p Hp)].
  - exists p, (mk_tool_call id (pt_name_buffer p) (mk_tool_arguments (pt_arguments_buffer p) v)).
    split_and!; done.
Qed.

(** The accumulator never exceeds its limits, whatever fragments arrive and
    also when it rejects one: at most [max_tool_calls] calls, 64 name bytes
    and [max_tool_arguments_bytes] argument bytes per call, and
    [max_all_tool_arguments_bytes] in total, counted exactly; call ids stay
    unique across wire indexes. *)
Theorem accumulator_limits_hold w ci delta compat a a' r :
  acc_ok a -> prepare a w = Ok (bool_decide (is_Some ci)) ->
  observe_delta w ci delta compat a = (a', r) -> acc_ok a'.
Proof.
  intros Ha Hprep Hrun.
  assert (pending_by_wire_index a !! w = None ->
    is_Some ci /\ Z.of_nat (length (order a)) < rl_max_tool_calls (acc_limits a)) as Hci.
  { intros Hw. unfold prepare in Hprep. rewrite Hw in Hprep.
    destruct (Z.leb_spec (rl_max_tool_calls (acc_limits a)) (Z.of_nat (length (order a)))); [done|].
    injection Hprep as Hb. symmetry in Hb. apply bool_decide_eq_true in Hb. done. }
  pose proof (observe_delta_spec w ci delta compat a Ha Hci) as Hwp. unfold wp in Hwp.
  rewrite Hrun in Hwp. destruct r; [by destruct Hwp|done].
Qed.
End AccProofs.

Definition sample_limits : ResponseLimits := response_limits_from official.

Lemma accumulator_new_ok limits :
  rl_max_tool_arguments_bytes limits < USIZE_MAX ->
  rl_max_all_tool_arguments_bytes limits < USIZE_MAX -> acc_ok (accumulator_new limits).
Proof.
  intros H1 H2. split; cbn; try done.
  - intros w. split; [by intros ?%not_elem_of_nil|by intros [? ?]].
  - constructor.
  - lia.
  - lia.
Qed.

Definition sample_delta : ToolCallDeltaWire :=
  mk_tool_delta 0 (Some "call_1") (Some "function")
    (Some (mk_function_delta (Some "f") (Some (ArgString "{}")) [])) [].

Lemma accumulator_limits_hold_witness :
  acc_ok (observe_delta (JP := fun v => Ok EmptyString) 0 (Some 0) sample_delta JsonString
            (accumulator_new sample_limits)).1.
Proof.
  apply (accumulator_limits_hold (JP := fun v => Ok EmptyString) 0 (Some 0) sample_delta JsonString
           (accumulator_new sample_limits) _
           (observe_delta (JP := fun v => Ok EmptyString) 0 (Some 0) sample_delta JsonString
              (accumulator_new sample_limits)).2);
    [apply accumulator_new_ok; reflexivity|reflexivity|apply surjective_pairing].
Defined.
