(* ===== verification/ChatMachine.v ===== *)
(** * The Chat Completions response machine:
    [src/src/protocol/openai_chat/response/machine.rs]

    The state machine that turns decoded SSE events into assistant events. A
    method that takes [&mut self] and [events: &mut Vec<_>] is a program over
    the pair of the machine and the events emitted so far. *)
From S2P Require Import Prelude Errors Usage Sse Domain Structured Collector ChatWire ToolCalls.

Module ContentBlockState.
Inductive t := NotStarted | Open (index : Z) | Closed.
End ContentBlockState.
Import ContentBlockState.
Abbreviation ContentBlockState := ContentBlockState.t.

Record OpenAiChatStreamContext := mk_context {
  cx_local_request_id : string; cx_provider_request_id : option string; cx_model : ModelRef }.

Record ChatStateMachine := mk_machine {
  m_context : OpenAiChatStreamContext;
  m_limits : ResponseLimits;
  m_started : bool;
  m_text : ContentBlockState;
  m_refusal : ContentBlockState;
  m_tools : ToolCallAccumulator;
  m_next_content_index : Z;
  m_finish_reason : option FinishReason;
  m_duplicate_finish_seen : bool;
  m_seen_done : bool;
  m_terminal : StructuredTerminal;
  m_usage_details : option UsageDetails;
  m_generation_id : option string;
  m_response_model : option string;
  m_unknown_fields : gset string;
  m_response_compat : ResponseCompat }.

Definition new_with_format (context : OpenAiChatStreamContext) (format : ResponseFormat)
    (limits : ResponseLimits) (compat : ResponseCompat) : ChatStateMachine :=
  mk_machine context limits false NotStarted NotStarted (accumulator_new limits) 0 None false false
    (structured_terminal_new format
       (mk_schema_limits USIZE_MAX (rl_max_schema_depth limits) (rl_max_json_array_items limits))
       (rl_max_structured_output_bytes limits))
    None None None ∅ compat.

(** ** Field assignments *)
Definition set_m_started v m := mk_machine (m_context m) (m_limits m) v (m_text m) (m_refusal m)
  (m_tools m) (m_next_content_index m) (m_finish_reason m) (m_duplicate_finish_seen m)
  (m_seen_done m) (m_terminal m) (m_usage_details m) (m_generation_id m) (m_response_model m)
  (m_unknown_fields m) (m_response_compat m).
Definition set_m_text v m := mk_machine (m_context m) (m_limits m) (m_started m) v (m_refusal m)
  (m_tools m) (m_next_content_index m) (m_finish_reason m) (m_duplicate_finish_seen m)
  (m_seen_done m) (m_terminal m) (m_usage_details m) (m_generation_id m) (m_response_model m)
  (m_unknown_fields m) (m_response_compat m).
Definition set_m_refusal v m := mk_machine (m_context m) (m_limits m) (m_started m) (m_text m) v
  (m_tools m) (m_next_content_index m) (m_finish_reason m) (m_duplicate_finish_seen m)
  (m_seen_done m) (m_terminal m) (m_usage_details m) (m_generation_id m) (m_response_model m)
  (m_unknown_fields m) (m_response_compat m).
Definition set_m_tools v m := mk_machine (m_context m) (m_limits m) (m_started m) (m_text m)
  (m_refusal m) v (m_next_content_index m) (m_finish_reason m) (m_duplicate_finish_seen m)
  (m_seen_done m) (m_terminal m) (m_usage_details m) (m_generation_id m) (m_response_model m)
  (m_unknown_fields m) (m_response_compat m).
Definition set_m_next v m := mk_machine (m_context m) (m_limits m) (m_started m) (m_text m)
  (m_refusal m) (m_tools m) v (m_finish_reason m) (m_duplicate_finish_seen m)
  (m_seen_done m) (m_terminal m) (m_usage_details m) (m_generation_id m) (m_response_model m)
  (m_unknown_fields m) (m_response_compat m).
Definition set_m_finish v m := mk_machine (m_context m) (m_limits m) (m_started m) (m_text m)
  (m_refusal m) (m_tools m) (m_next_content_index m) v (m_duplicate_finish_seen m)
  (m_seen_done m) (m_terminal m) (m_usage_details m) (m_generation_id m) (m_response_model m)
  (m_unknown_fields m) (m_response_compat m).
Definition set_m_duplicate v m := mk_machine (m_context m) (m_limits m) (m_started m) (m_text m)
  (m_refusal m) (m_tools m) (m_next_content_index m) (m_finish_reason m) v
  (m_seen_done m) (m_terminal m) (m_usage_details m) (m_generation_id m) (m_response_model m)
  (m_unknown_fields m) (m_response_compat m).
Definition set_m_seen_done v m := mk_machine (m_context m) (m_limits m) (m_started m) (m_text m)
  (m_refusal m) (m_tools m) (m_next_content_index m) (m_finish_reason m)
  (m_duplicate_finish_seen m) v (m_terminal m) (m_usage_details m) (m_generation_id m)
  (m_response_model m) (m_unknown_fields m) (m_response_compat m).
Definition set_m_terminal v m := mk_machine (m_context m) (m_limits m) (m_started m) (m_text m)
  (m_refusal m) (m_tools m) (m_next_content_index m) (m_finish_reason m)
  (m_duplicate_finish_seen m) (m_seen_done m) v (m_usage_details m) (m_generation_id m)
  (m_response_model m) (m_unknown_fields m) (m_response_compat m).
Definition set_m_usage v m := mk_machine (m_context m) (m_limits m) (m_started m) (m_text m)
  (m_refusal m) (m_tools m) (m_next_content_index m) (m_finish_reason m)
  (m_duplicate_finish_seen m) (m_seen_done m) (m_terminal m) v (m_generation_id m)
  (m_response_model m) (m_unknown_fields m) (m_response_compat m).
Definition set_m_identity g r m := mk_machine (m_context m) (m_limits m) (m_started m) (m_text m)
  (m_refusal m) (m_tools m) (m_next_content_index m) (m_finish_reason m)
  (m_duplicate_finish_seen m) (m_seen_done m) (m_terminal m) (m_usage_details m) g
  r (m_unknown_fields m) (m_response_compat m).
Definition set_m_unknown v m := mk_machine (m_context m) (m_limits m) (m_started m) (m_text m)
  (m_refusal m) (m_tools m) (m_next_content_index m) (m_finish_reason m)
  (m_duplicate_finish_seen m) (m_seen_done m) (m_terminal m) (m_usage_details m)
  (m_generation_id m) (m_response_model m) v (m_response_compat m).

(** ** Programs over the machine and its events *)
Abbreviation CM := (M (ChatStateMachine * list AssistantEvent) LlmError).
Definition self : CM ChatStateMachine := s ← get; mret s.1.
Definition assign (f : ChatStateMachine -> ChatStateMachine) : CM unit :=
  modify (fun s => (f s.1, s.2)).
Definition push_event (e : AssistantEvent) : CM unit := modify (fun s => (s.1, s.2 ++ [e])).
Definition push_events (es : list AssistantEvent) : CM unit := modify (fun s => (s.1, s.2 ++ es)).
Definition on_tools {A} (c : M ToolCallAccumulator LlmError A) : CM A :=
  zoom (fun s => m_tools s.1) (fun t s => (set_m_tools t s.1, s.2)) c.
Definition on_terminal {A} (c : M StructuredTerminal LlmError A) : CM A :=
  zoom (fun s => m_terminal s.1) (fun t s => (set_m_terminal t s.1, s.2)) c.

Definition not_started (b : ContentBlockState) : bool :=
  match b with NotStarted => true | _ => false end.
Definition is_open (b : ContentBlockState) : bool :=
  match b with Open _ => true | _ => false end.

Definition has_open_blocks (m : ChatStateMachine) : bool :=
  is_open (m_text m) || is_open (m_refusal m) || has_open_calls (m_tools m).

Definition allocate_content_index : CM Z :=
  m ← self;
  let index := m_next_content_index m in
  next ← lift (ok_or (u32_checked_add index 1) (protocol "content index overflow"));
  _ ← assign (set_m_next next);
  mret index.

Definition emit_start : CM unit :=
  m ← self;
  if m_started m then mret tt
  else
    _ ← assign (set_m_started true);
    push_event (AssistantEvent.Start (cx_local_request_id (m_context m))
                  (cx_provider_request_id (m_context m)) (m_generation_id m)).

Section Machine.
Context {JS : JsonSyntax} {JP : JsonPrinter} {SE : SchemaEngine} {CS : ChunkSyntax}.

Definition push_text (content : string) : CM unit :=
  m ← self;
  _ ← guard_err (negb (not_started (m_refusal m)))
        (LlmError.UnsupportedResponseSemantics "text with refusal");
  match m_text m with
  | Closed => throw (protocol "text delta received after finish reason")
  | NotStarted =>
      index ← allocate_content_index;
      _ ← assign (set_m_text (Open index));
      _ ← push_event (AssistantEvent.TextStart index);
      _ ← on_terminal (push_answer_text content);
      push_event (AssistantEvent.TextDelta index content)
  | Open index =>
      _ ← on_terminal (push_answer_text content);
      push_event (AssistantEvent.TextDelta index content)
  end.

Definition push_refusal (content : string) : CM unit :=
  m ← self;
  _ ← guard_err (negb (not_started (m_text m)))
        (LlmError.UnsupportedResponseSemantics "refusal with text");
  _ ← guard_err (negb (acc_is_empty (m_tools m)))
        (LlmError.UnsupportedResponseSemantics "refusal with tool_calls");
  match m_refusal m with
  | Closed => throw (protocol "refusal delta received after finish reason")
  | NotStarted =>
      index ← allocate_content_index;
      _ ← assign (set_m_refusal (Open index));
      _ ← push_event (AssistantEvent.RefusalStart index);
      push_event (AssistantEvent.RefusalDelta index content)
  | Open index => push_event (AssistantEvent.RefusalDelta index content)
  end.

Definition push_tool_delta (delta : ToolCallDeltaWire) : CM unit :=
  m ← self;
  _ ← guard_err (negb (not_started (m_refusal m)))
        (LlmError.UnsupportedResponseSemantics "tool_calls with refusal");
  _ ← guard_err (match m_finish_reason m with Some _ => true | None => false end)
        (protocol "tool call delta received after finish reason");
  _ ← guard_err (negb (none_or (fun k => str_eqb k "function") (td_kind delta)))
        (LlmError.UnsupportedResponseSemantics "tool_call.type");
  wire_index ← lift (parse_wire_index (td_index delta));
  fresh ← lift (prepare (m_tools m) wire_index);
  content_index ← (if (fresh : bool) then i ← allocate_content_index; mret (Some i)
                   else mret None);
  events ← on_tools (observe_delta wire_index content_index delta
                       (compat_tool_arguments (m_response_compat m)));
  push_events events.

Definition apply_delta (delta : DeltaWire) : CM unit :=
  _ ← match d_content delta with
      | Some content => if str_is_empty content then mret tt else push_text content
      | None => mret tt
      end;
  _ ← match d_refusal delta with
      | Some refusal => if str_is_empty refusal then mret tt else push_refusal refusal
      | None => mret tt
      end;
  match d_tool_calls delta with
  | Some tool_calls => for_each push_tool_delta tool_calls
  | None => mret tt
  end.

Definition close_text_if_open : CM unit :=
  m ← self;
  match m_text m with
  | Open index => _ ← assign (set_m_text Closed); push_event (AssistantEvent.TextEnd index)
  | _ => mret tt
  end.

Definition close_refusal : CM unit :=
  m ← self;
  match m_refusal m with
  | Open index => _ ← assign (set_m_refusal Closed); push_event (AssistantEvent.RefusalEnd index)
  | _ => mret tt
  end.

Definition finish_with_tools : CM unit :=
  _ ← close_text_if_open;
  m ← self;
  _ ← guard_err (negb (not_started (m_refusal m)))
        (LlmError.UnsupportedResponseSemantics "tool_calls with refusal");
  _ ← guard_err (acc_is_empty (m_tools m))
        (protocol "finish reason tool_calls without tool call deltas");
  events ← on_tools finish_all;
  push_events events.

Definition finish_without_tools : CM unit :=
  m ← self;
  _ ← guard_err (negb (acc_is_empty (m_tools m)))
        (protocol "non-tool finish reason received with tool call deltas");
  if is_open (m_refusal m) then close_refusal
  else if is_open (m_text m) then close_text_if_open
  else if not_started (m_text m) && not_started (m_refusal m) then
    index ← allocate_content_index;
    _ ← assign (set_m_text (Open index));
    _ ← push_event (AssistantEvent.TextStart index);
    close_text_if_open
  else mret tt.

Definition apply_finish (reason : FinishReason) : CM unit :=
  m ← self;
  _ ← guard_err (match m_finish_reason m with Some _ => true | None => false end)
        (protocol "duplicate finish reason");
  _ ← match reason with
      | FinishReason.ToolCalls => finish_with_tools
      | FinishReason.Stop | FinishReason.Length => finish_without_tools
      | FinishReason.ContentFilter =>
          _ ← guard_err (negb (acc_is_empty (m_tools m)))
                (protocol "content_filter finish reason received with tool call deltas");
          _ ← assign (set_m_finish (Some reason));
          throw (protocol "content_filter finish reason is not a successful completion")
      | FinishReason.Unknown raw => throw (LlmError.UnknownFinishReason (bounded_label raw 64))
      end;
  assign (set_m_finish (Some reason)).

Definition apply_choice (choice : ChoiceWire) (finish_reason : option FinishReason) : CM unit :=
  _ ← match ch_delta choice with Some delta => apply_delta delta | None => mret tt end;
  match finish_reason with Some reason => apply_finish reason | None => mret tt end.

(** [record_unknown_fields]: names only, bounded. *)
Definition unknown_tool_fields (tc : ToolCallDeltaWire) (d : gset string) : gset string :=
  let d := record_field_names "tool_call" (map fst (td_extra tc)) d in
  match td_function tc with
  | Some f => record_field_names "function" (map fst (fd_extra f)) d
  | None => d
  end.
Definition unknown_choice_fields (d : gset string) (choice : ChoiceWire) : gset string :=
  let d := record_field_names "choice" (map fst (ch_extra choice)) d in
  match ch_delta choice with
  | Some delta =>
      let d := record_field_names "delta" (map fst (d_extra delta)) d in
      match d_tool_calls delta with
      | Some tcs => foldl (fun d tc => unknown_tool_fields tc d) d tcs
      | None => d
      end
  | None => d
  end.
Definition unknown_usage_fields (u : UsageWire) (d : gset string) : gset string :=
  let d := record_field_names "usage" (map fst (uw_extra u)) d in
  let d := match uw_prompt_tokens_details u with
           | Some p => record_field_names "usage.prompt_tokens_details" (map fst (pw_extra p)) d
           | None => d
           end in
  match uw_completion_tokens_details u with
  | Some c => record_field_names "usage.completion_tokens_details" (map fst (cw_extra c)) d
  | None => d
  end.
Definition record_unknown_fields (chunk : ChatCompletionChunkWire) (m : ChatStateMachine)
  : ChatStateMachine :=
  let d := record_field_names "chunk" (map fst (ck_extra chunk)) (m_unknown_fields m) in
  let d := foldl unknown_choice_fields d (ck_choices chunk) in
  let d := match ck_usage chunk with Some u => unknown_usage_fields u d | None => d end in
  set_m_unknown d m.

(** [observe_identity], first for the generation id, then for the model. *)
Definition observe_generation (generation_id : option string) : CM unit :=
  match generation_id with
  | None => mret tt
  | Some raw =>
      m ← self;
      parsed ← lift (map_err (fun _ => protocol "invalid generation id in response chunk")
                       (GenerationId_new raw));
      _ ← guard_err (match m_generation_id m with
                     | Some previous => negb (str_eqb previous parsed)
                     | None => false
                     end) (protocol "generation id changed within stream");
      assign (set_m_identity (Some (default parsed (m_generation_id m))) (m_response_model m))
  end.
Definition observe_model (response_model : option string) : CM unit :=
  match response_model with
  | None => mret tt
  | Some model =>
      m ← self;
      _ ← guard_err (str_is_empty model || has_boundary_whitespace model)
            (protocol "invalid model identifier in response chunk");
      _ ← guard_err (match m_response_model m with
                     | Some previous => negb (str_eqb previous model)
                     | None => false
                     end) (protocol "response model changed within stream");
      assign (set_m_identity (m_generation_id m) (Some (default model (m_response_model m))))
  end.

Definition json_category_name (c : json_category) : string :=
  match c with CatIo => "I/O" | CatSyntax => "syntax" | CatData => "data" | CatEof => "EOF" end.
Definition json_failure (e : json_error) : LlmError :=
  protocol_at_stage ErrorStage.Json
    ("JSON " +:+ json_category_name (je_category e) +:+ " error at line " +:+ show (je_line e)
     +:+ " column " +:+ show (je_column e)).

(** The usage part of [accept]. *)
Definition apply_usage (usage : option UsageDetails) : CM unit :=
  match usage with
  | None => mret tt
  | Some details =>
      m ← self;
      '(merged, outcome) ← lift (map_err (fun e => protocol (ce_message e))
                                   (merge_usage_details (m_usage_details m) details));
      _ ← match outcome with
          | Unchanged => mret tt
          | EmitP1 details =>
              usage ← lift (map_err protocol (core_usage_from_details details));
              _ ← push_event (AssistantEvent.Usage usage);
              push_event (AssistantEvent.DetailedUsage details)
          | EmitDetailed details => push_event (AssistantEvent.DetailedUsage details)
          end;
      assign (set_m_usage (Some merged))
  end.

(** [accept] on the [DONE] marker. *)
Definition accept_done_marker : CM unit :=
  m ← self;
  match m_finish_reason m with
  | None => throw (protocol "[DONE] received without a supported finish reason")
  | Some reason =>
      _ ← guard_err (has_open_blocks m) (protocol "[DONE] received before all content blocks ended");
      _ ← on_terminal (validate_before_done reason (negb (acc_is_empty (m_tools m)))
                         (negb (not_started (m_refusal m))));
      assign (set_m_seen_done true)
  end.

Definition oversized_tool_array (m : ChatStateMachine) (chunk : ChatCompletionChunkWire) : bool :=
  existsb (fun choice =>
      match ch_delta choice ≫= d_tool_calls with
      | Some tcs => rl_max_tool_calls (m_limits m) <? Z.of_nat (length tcs)
      | None => false
      end) (ck_choices chunk).

(** [accept] on a parsed chunk. *)
Definition accept_chunk (chunk : ChatCompletionChunkWire) : CM unit :=
  m ← self;
  _ ← lift (validate_inline_error (match ck_error chunk with Some _ => true | None => false end)
              (compat_inline_error (m_response_compat m)));
  _ ← guard_err (negb (none_or (fun o => str_eqb o "chat.completion.chunk") (ck_object chunk)))
        (protocol "invalid chat completion chunk object");
  prepared ← lift (prepared_validate chunk (m_finish_reason m) (m_duplicate_finish_seen m)
                     (compat_finish_reason (m_response_compat m))
                     (compat_usage (m_response_compat m)));
  _ ← guard_err (oversized_tool_array m chunk) (protocol "tool call array exceeds resource limit");
  _ ← assign (record_unknown_fields chunk);
  _ ← observe_generation (ck_id chunk);
  _ ← observe_model (ck_model chunk);
  _ ← emit_start;
  _ ← match ck_choices chunk with
      | choice :: _ => apply_choice choice (pc_finish_reason prepared)
      | [] => mret tt
      end;
  _ ← (if pc_duplicate_finish prepared then assign (set_m_duplicate true) else mret tt);
  apply_usage (pc_usage prepared).

Definition DONE_MARKER : string := "[DONE]".

Definition accept_program (data : string) : CM unit :=
  m ← self;
  if m_seen_done m then
    (if str_eqb data DONE_MARKER then throw (protocol "duplicate [DONE] marker")
     else throw (protocol "data received after [DONE] marker"))
  else if str_eqb data DONE_MARKER then accept_done_marker
  else
    chunk ← lift (map_err json_failure (parse_chunk data));
    accept_chunk chunk.

(** [ChatStateMachine::accept]: the events are returned only on success. *)
Definition machine_accept (event : SseEvent) (m : ChatStateMachine)
  : ChatStateMachine * result LlmError (list AssistantEvent) :=
  match accept_program (ev_data event) (m, []) with
  | ((m', evs), Ok _) => (m', Ok evs)
  | ((m', _), Err e) => (m', Err e)
  end.

Definition machine_finish (m : ChatStateMachine)
  : ChatStateMachine * result LlmError (list AssistantEvent) :=
  (m, if negb (m_seen_done m) then Err LlmError.TruncatedStream
      else if negb (st_validated (m_terminal m))
      then Err (protocol "stream ended before structured output validation")
      else if has_open_blocks m
      then Err (protocol "stream ended with incomplete content blocks")
      else match m_finish_reason m with
           | None => Err (protocol "stream ended without a supported finish reason")
           | Some reason => Ok [AssistantEvent.Done reason]
           end).
End Machine.
