(* ===== verification/ChatSim.v ===== *)
(** * The machine and the collector agree

    The events a successful machine run emits are accepted by the collector,
    one after the other: a simulation between [ChatStateMachine] and
    [Collector], preserved by every program of the machine. *)
From S2P Require Import Prelude Errors Usage Sse Domain Structured Collector ChatWire ToolCalls.
From S2P Require Import ChatMachine.
Import ContentBlockState AssistantEvent.

(** The text a block carries is the one buffered for validation. *)
Definition text_ok (m : ChatStateMachine) (s : string) : Prop :=
  forall t, st_text_buffer (m_terminal m) = Some t -> t = s.

(** A call and the open block that mirrors it. *)
Definition mirrors (w : Z) (p : PendingToolCall) (b : OpenBlock) : Prop :=
  exists id, b = OToolCall w id (pt_name_buffer p) (pt_arguments_buffer p) /\
    (id = None \/ id = pt_provider_call_id p).

(** The blocks: [open] and [content] of the collector, described by the
    machine. *)
Record blocks_sim (m : ChatStateMachine) (next : Z) (open : gmap Z OpenBlock)
    (content : gmap Z ContentPart) : Prop := {
  bs_next : m_next_content_index m = next /\ 0 <= next;
  bs_open_lt : forall i b, open !! i = Some b -> 0 <= i < next;
  bs_content_lt : forall i p, content !! i = Some p -> 0 <= i < next;
  bs_disj : forall i b, open !! i = Some b -> content !! i = None;
  bs_text_new : m_text m = NotStarted -> text_ok m EmptyString;
  bs_text_open : forall i, m_text m = Open i -> exists s, open !! i = Some (OText s) /\ text_ok m s;
  bs_text_closed : m_text m = Closed -> exists i s, content !! i = Some (PText s);
  bs_refusal_open : forall i, m_refusal m = Open i -> exists s, open !! i = Some (ORefusal s);
  bs_refusal_closed : m_refusal m = Closed -> exists i s, content !! i = Some (PRefusal s);
  bs_tool_open : forall w p, pending_by_wire_index (m_tools m) !! w = Some p -> pt_ended p = false ->
    exists b, open !! pt_domain_content_index p = Some b /\ mirrors w p b;
  bs_tool_ended : forall w p, pending_by_wire_index (m_tools m) !! w = Some p -> pt_ended p = true ->
    exists i call, content !! i = Some (PToolCall call);
  bs_open_inv : forall i b, open !! i = Some b ->
    m_text m = Open i \/ m_refusal m = Open i \/
    exists w p, pending_by_wire_index (m_tools m) !! w = Some p /\ pt_ended p = false /\
      pt_domain_content_index p = i;
  bs_content_text : forall i s, content !! i = Some (PText s) -> m_text m = Closed /\ text_ok m s;
  bs_content_text_uniq : forall i j s t, content !! i = Some (PText s) ->
    content !! j = Some (PText t) -> i = j;
  bs_content_tool : forall i call, content !! i = Some (PToolCall call) -> order (m_tools m) <> [];
  bs_content_refusal : forall i s, content !! i = Some (PRefusal s) -> m_refusal m = Closed }.

(** Which calls hold the ids the collector has seen. *)
Definition ids_sim (tools : ToolCallAccumulator) (open : gmap Z OpenBlock) (ids : gset string)
  : Prop :=
  forall x, x ∈ ids -> exists w p, pending_by_wire_index tools !! w = Some p /\
    pt_provider_call_id p = Some x /\
    (pt_ended p = true \/ exists n a, open !! pt_domain_content_index p = Some (OToolCall w (Some x) n a)).

Definition complete_usage (u : option UsageDetails) : Prop :=
  match u with Some d => has_complete_core d = true | None => False end.

(** What a finish reason implies about the blocks. *)
Definition finish_sim (m : ChatStateMachine) : Prop :=
  match m_finish_reason m with
  | None => m_text m <> Closed /\ m_refusal m <> Closed
  | Some FinishReason.ToolCalls => order (m_tools m) <> []
  | Some FinishReason.Stop | Some FinishReason.Length =>
      order (m_tools m) = [] /\ (m_text m = Closed \/ m_refusal m = Closed)
  | Some _ => False
  end.

(** The simulation; [D] is the usage snapshot the stream settles on. *)
Record sim (D : UsageDetails) (m : ChatStateMachine) (c : Collector) : Prop := {
  sm_started : c_started c = m_started m;
  sm_fresh : m_started m = false -> c_next_content_index c = 0;
  sm_done : c_done c = false;
  sm_blocks : blocks_sim m (c_next_content_index c) (c_open c) (c_content c);
  sm_wires : forall w, w ∈ c_tool_wire_indexes c <-> is_Some (pending_by_wire_index (m_tools m) !! w);
  sm_ids : ids_sim (m_tools m) (c_open c) (c_tool_call_ids c);
  sm_acc : acc_ok (m_tools m);
  sm_usage : is_Some (c_usage c) -> complete_usage (m_usage_details m);
  sm_details : c_usage_details c = None \/ c_usage_details c = Some D }.

(** ** Single events *)
Lemma Z_lt_succ_range {A} (m : gmap Z A) (n i : Z) x :
  (forall j y, m !! j = Some y -> 0 <= j < n) -> m !! i = Some x -> 0 <= i < n + 1.
Proof. intros H Hi. apply H in Hi. lia. Qed.

(** A new block [b] for the text, the refusal or a call. *)
Lemma blocks_sim_start_text m next open content s :
  blocks_sim m next open content -> m_text m = NotStarted -> s = EmptyString ->
  blocks_sim (set_m_text (Open next) (set_m_next (next + 1) m)) (next + 1)
    (<[next := OText s]> open) content.
Proof.
  intros Hb Ht ->. destruct Hb. destruct bs_next0 as [Hn Hp].
  assert (open !! next = None) as Hno.
  { destruct (open !! next) eqn:E; [|done]. apply bs_open_lt0 in E. lia. }
  assert (content !! next = None) as Hnc.
  { destruct (content !! next) eqn:E; [|done]. apply bs_content_lt0 in E. lia. }
  split; cbn [m_next_content_index m_text m_refusal m_tools m_terminal set_m_text set_m_next].
  - lia.
  - intros i b. rewrite lookup_insert_Some. intros [[<- <-]|[Hne Hi]]; [lia|]. apply bs_open_lt0 in Hi. lia.
  - intros i p Hi. apply bs_content_lt0 in Hi. lia.
  - intros i b. rewrite lookup_insert_Some. intros [[<- <-]|[Hne Hi]]; eauto.
  - done.
  - intros i [= <-]. exists EmptyString. rewrite lookup_insert_eq. split; [done|by apply bs_text_new0].
  - done.
  - intros i Hi. apply bs_refusal_open0 in Hi as [s Hs]. exists s. rewrite lookup_insert_ne; [done|congruence].
  - done.
  - intros w p Hw He. destruct (bs_tool_open0 w p Hw He) as (b & Hb & Hm). exists b.
    rewrite lookup_insert_ne; [done|congruence].
  - done.
  - intros i b. rewrite lookup_insert_Some. intros [[<- <-]|[Hne Hi]]; [by left|].
    destruct (bs_open_inv0 i b Hi) as [H|H]; [congruence|auto].
  - intros i s Hi. apply bs_content_text0 in Hi as [H _]. congruence.
  - done.
  - done.
  - done.
Qed.

(** Only the machine fields the block simulation reads matter. *)
Definition same_blocks (m m' : ChatStateMachine) : Prop :=
  m_text m' = m_text m /\ m_refusal m' = m_refusal m /\ m_tools m' = m_tools m /\
  m_next_content_index m' = m_next_content_index m /\
  st_text_buffer (m_terminal m') = st_text_buffer (m_terminal m).

Lemma blocks_sim_same m m' next open content :
  same_blocks m m' -> blocks_sim m next open content -> blocks_sim m' next open content.
Proof.
  intros (E1 & E2 & E3 & E4 & E5) []. 
  split; unfold text_ok in *; rewrite ?E1, ?E2, ?E3, ?E4, ?E5; done.
Qed.

Ltac lookup_cases :=
  let i := fresh "i" in let b := fresh "b" in
  intros i b; rewrite lookup_insert_Some; intros [[<- <-]|[? ?]].

Lemma blocks_sim_start_refusal m next open content :
  blocks_sim m next open content -> m_refusal m = NotStarted ->
  blocks_sim (set_m_refusal (Open next) (set_m_next (next + 1) m)) (next + 1)
    (<[next := ORefusal EmptyString]> open) content.
Proof.
  intros Hb Ht. destruct Hb. destruct bs_next0 as [Hn Hp].
  assert (open !! next = None) as Hno.
  { destruct (open !! next) eqn:E; [|done]. apply bs_open_lt0 in E. lia. }
  assert (content !! next = None) as Hnc.
  { destruct (content !! next) eqn:E; [|done]. apply bs_content_lt0 in E. lia. }
  split; cbn [m_next_content_index m_text m_refusal m_tools m_terminal set_m_refusal set_m_next];
    try done.
  - lia.
  - lookup_cases; [lia|]. by eapply (Z_lt_succ_range open).
  - intros i p Hi. by eapply (Z_lt_succ_range content).
  - lookup_cases; eauto.
  - intros i Hi. destruct (bs_text_open0 i Hi) as (s & Hs & Hok). exists s.
    rewrite lookup_insert_ne; [done|congruence].
  - intros i [= <-]. exists EmptyString. apply lookup_insert_eq.
  - intros w p Hw He. destruct (bs_tool_open0 w p Hw He) as (b & Hb & Hm). exists b.
    rewrite lookup_insert_ne; [done|congruence].
  - lookup_cases; [by right; left|]. destruct (bs_open_inv0 i b) as [H'|[H'|H']]; [done|auto|congruence|auto].
  - intros i s Hi. apply bs_content_refusal0 in Hi. congruence.
Qed.

Lemma blocks_sim_delta_text m next open content i s d t' :
  blocks_sim m next open content -> m_text m = Open i -> open !! i = Some (OText s) ->
  st_text_buffer t' = (fun b => b +:+ d) <$> st_text_buffer (m_terminal m) ->
  blocks_sim (set_m_terminal t' m) next (<[i := OText (s +:+ d)]> open) content.
Proof.
  intros Hb Ht Hi Hbuf. destruct Hb.
  split; cbn [m_next_content_index m_text m_refusal m_tools m_terminal set_m_terminal]; try done.
  - lookup_cases; eauto.
  - lookup_cases; eauto.
  - congruence.
  - intros j Hj. rewrite Ht in Hj. injection Hj as <-. exists (s +:+ d). rewrite lookup_insert_eq.
    split; [done|]. intros b. cbn. rewrite Hbuf. intros (b0 & Hb0 & ->)%fmap_Some.
    destruct (bs_text_open0 i Ht) as (s' & Hs' & Hok). apply Hok in Hb0. congruence.
  - intros j Hj. destruct (bs_refusal_open0 j Hj) as [s' Hs']. exists s'.
    rewrite lookup_insert_ne; [done|congruence].
  - intros w p Hw He. destruct (bs_tool_open0 w p Hw He) as (b & Hb & id & -> & Hid).
    exists (OToolCall w id (pt_name_buffer p) (pt_arguments_buffer p)).
    rewrite lookup_insert_ne; [|congruence]. split; [done|]. by exists id.
  - lookup_cases; [by left|]. eauto.
  - intros j s' Hj. apply bs_content_text0 in Hj as [? _]. congruence.
Qed.

Lemma blocks_sim_delta_refusal m next open content i s d :
  blocks_sim m next open content -> m_refusal m = Open i -> open !! i = Some (ORefusal s) ->
  blocks_sim m next (<[i := ORefusal (s +:+ d)]> open) content.
Proof.
  intros Hb Ht Hi. destruct Hb. split; try done.
  - lookup_cases; eauto.
  - lookup_cases; eauto.
  - intros j Hj. destruct (bs_text_open0 j Hj) as (s' & Hs' & Hok). exists s'.
    rewrite lookup_insert_ne; [done|congruence].
  - intros j Hj. rewrite Ht in Hj. injection Hj as <-. exists (s +:+ d). apply lookup_insert_eq.
  - intros w p Hw He. destruct (bs_tool_open0 w p Hw He) as (b & Hb & id & -> & Hid).
    exists (OToolCall w id (pt_name_buffer p) (pt_arguments_buffer p)).
    rewrite lookup_insert_ne; [|congruence]. split; [done|]. by exists id.
  - lookup_cases; [by right; left|]. eauto.
Qed.

(** Two live calls never share a content index. *)
Lemma live_index_inj m next open content w1 w2 p1 p2 :
  blocks_sim m next open content ->
  pending_by_wire_index (m_tools m) !! w1 = Some p1 -> pt_ended p1 = false ->
  pending_by_wire_index (m_tools m) !! w2 = Some p2 -> pt_ended p2 = false ->
  pt_domain_content_index p1 = pt_domain_content_index p2 -> w1 = w2.
Proof.
  intros [] H1 E1 H2 E2 Hi. destruct (bs_tool_open0 w1 p1 H1 E1) as (b1 & Hb1 & id1 & -> & _).
  destruct (bs_tool_open0 w2 p2 H2 E2) as (b2 & Hb2 & id2 & -> & _). rewrite Hi in Hb1. congruence.
Qed.

Lemma blocks_sim_update_tool m next open content a w p p' b' :
  blocks_sim m next open content ->
  pending_by_wire_index (m_tools m) !! w = Some p -> pt_ended p = false ->
  pending_by_wire_index a = <[w := p']> (pending_by_wire_index (m_tools m)) ->
  order a = order (m_tools m) -> pt_ended p' = false ->
  pt_domain_content_index p' = pt_domain_content_index p -> mirrors w p' b' ->
  blocks_sim (set_m_tools a m) next (<[pt_domain_content_index p := b']> open) content.
Proof.
  intros Hb Hw He Ha Ho He' Hidx Hmir. pose proof Hb as Hb0. destruct Hb.
  destruct (bs_tool_open0 w p Hw He) as (b & Hob & id & -> & Hid).
  split; cbn [m_next_content_index m_text m_refusal m_tools m_terminal set_m_tools]; try done.
  - lookup_cases; eauto.
  - lookup_cases; eauto.
  - intros j Hj. destruct (bs_text_open0 j Hj) as (s' & Hs' & Hok). exists s'.
    rewrite lookup_insert_ne; [done|congruence].
  - intros j Hj. destruct (bs_refusal_open0 j Hj) as [s' Hs']. exists s'.
    rewrite lookup_insert_ne; [done|congruence].
  - intros w' q. rewrite Ha, lookup_insert_Some. intros [[<- <-]|[Hne Hq]] Hqe.
    + exists b'. rewrite Hidx, lookup_insert_eq. done.
    + destruct (bs_tool_open0 w' q Hq Hqe) as (bq & Hbq & Hmq). exists bq.
      rewrite lookup_insert_ne; [done|]. intros Heq. apply Hne. by eapply live_index_inj.
  - intros w' q. rewrite Ha, lookup_insert_Some. intros [[<- <-]|[Hne Hq]] Hqe; [congruence|eauto].
  - intros i b. rewrite lookup_insert_Some. intros [[<- <-]|[Hne Hi]].
    + right; right. exists w, p'. rewrite Ha, lookup_insert_eq. done.
    + destruct (bs_open_inv0 i b Hi) as [?|[?|(w' & q & Hq & Hqe & Hqi)]]; [auto..|].
      right; right. exists w', q. rewrite Ha, lookup_insert_ne; [done|]. intros ->. congruence.
  - by rewrite Ho.
Qed.

Lemma blocks_sim_start_tool m next open content a w p' b' :
  blocks_sim m next open content ->
  pending_by_wire_index (m_tools m) !! w = None ->
  pending_by_wire_index a = <[w := p']> (pending_by_wire_index (m_tools m)) ->
  order a = order (m_tools m) ++ [w] -> pt_ended p' = false ->
  pt_domain_content_index p' = next -> mirrors w p' b' ->
  blocks_sim (set_m_tools a (set_m_next (next + 1) m)) (next + 1) (<[next := b']> open) content.
Proof.
  intros Hb Hw Ha Ho He' Hidx Hmir. destruct Hb. destruct bs_next0 as [Hn Hp].
  assert (open !! next = None) as Hno.
  { destruct (open !! next) eqn:E; [|done]. apply bs_open_lt0 in E. lia. }
  assert (content !! next = None) as Hnc.
  { destruct (content !! next) eqn:E; [|done]. apply bs_content_lt0 in E. lia. }
  split; cbn [m_next_content_index m_text m_refusal m_tools m_terminal set_m_tools set_m_next]; try done.
  - lia.
  - lookup_cases; [lia|]. by eapply (Z_lt_succ_range open).
  - intros i p Hi. by eapply (Z_lt_succ_range content).
  - lookup_cases; eauto.
  - intros j Hj. destruct (bs_text_open0 j Hj) as (s' & Hs' & Hok). exists s'.
    rewrite lookup_insert_ne; [done|congruence].
  - intros j Hj. destruct (bs_refusal_open0 j Hj) as [s' Hs']. exists s'.
    rewrite lookup_insert_ne; [done|congruence].
  - intros w' q. rewrite Ha, lookup_insert_Some. intros [[<- <-]|[Hne Hq]] Hqe.
    + exists b'. by rewrite Hidx, lookup_insert_eq.
    + destruct (bs_tool_open0 w' q Hq Hqe) as (bq & Hbq & Hmq). exists bq.
      rewrite lookup_insert_ne; [done|congruence].
  - intros w' q. rewrite Ha, lookup_insert_Some. intros [[<- <-]|[Hne Hq]] Hqe; [congruence|eauto].
  - intros i b. rewrite lookup_insert_Some. intros [[<- <-]|[Hne Hi]].
    + right; right. exists w, p'. rewrite Ha, lookup_insert_eq. done.
    + destruct (bs_open_inv0 i b Hi) as [?|[?|(w' & q & Hq & Hqe & Hqi)]]; [auto..|].
      right; right. exists w', q. rewrite Ha, lookup_insert_ne; [done|]. intros ->. congruence.
  - intros i call _. rewrite Ho. by destruct (order (m_tools m)).
Qed.

(** Ends of blocks. *)
Lemma lookup_delete_keep {A} (m : gmap Z A) i j x y :
  m !! i = Some x -> m !! j = Some y -> x <> y -> delete j m !! i = Some x.
Proof. intros Hi Hj Hne. rewrite lookup_delete_ne; [done|]. intros ->. congruence. Qed.

Lemma blocks_sim_end_text m next open content i s :
  blocks_sim m next open content -> m_text m = Open i -> open !! i = Some (OText s) ->
  blocks_sim (set_m_text Closed m) next (delete i open) (<[i := PText s]> content).
Proof.
  intros Hb Ht Hi. destruct Hb.
  assert (text_ok m s) as Hok.
  { destruct (bs_text_open0 i Ht) as (s' & Hs' & Hok). by replace s with s' by congruence. }
  split; cbn [m_next_content_index m_text m_refusal m_tools m_terminal set_m_text]; try done.
  - intros j b [_ Hj]%lookup_delete_Some. eauto.
  - lookup_cases; eauto.
  - intros j b [Hne Hj]%lookup_delete_Some. rewrite lookup_insert_ne by done. eauto.
  - intros _. exists i, s. apply lookup_insert_eq.
  - intros j Hj. destruct (bs_refusal_open0 j Hj) as [s' Hs']. exists s'. by eapply lookup_delete_keep.
  - intros Hc. destruct (bs_refusal_closed0 Hc) as (j & s' & Hs'). exists j, s'.
    rewrite lookup_insert_ne; [done|]. intros <-. apply bs_disj0 in Hi. congruence.
  - intros w p Hw He. destruct (bs_tool_open0 w p Hw He) as (b & Hb & Hm). exists b.
    split; [|done]. destruct Hm as (id & -> & _). by eapply lookup_delete_keep.
  - intros w p Hw He. destruct (bs_tool_ended0 w p Hw He) as (j & call & Hj). exists j, call.
    rewrite lookup_insert_ne; [done|]. intros <-. apply bs_disj0 in Hi. congruence.
  - intros j b [Hne Hj]%lookup_delete_Some. destruct (bs_open_inv0 j b Hj) as [H|H]; [congruence|auto].
  - intros j s'. rewrite lookup_insert_Some. intros [[<- [= <-]]|[Hne Hj]]; [done|].
    apply bs_content_text0 in Hj as [? _]. congruence.
  - intros j k s1 s2. rewrite !lookup_insert_Some.
    intros [[<- _]|[_ Hj]] [[<- _]|[_ Hk]]; [done|..];
      try (apply bs_content_text0 in Hk as [? _]; congruence);
      try (apply bs_content_text0 in Hj as [? _]; congruence).
  - intros j call. rewrite lookup_insert_Some. intros [[<- ?]|[Hne Hj]]; [done|eauto].
  - intros j s'. rewrite lookup_insert_Some. intros [[<- ?]|[Hne Hj]]; [done|eauto].
Qed.

Lemma blocks_sim_end_refusal m next open content i s :
  blocks_sim m next open content -> m_refusal m = Open i -> open !! i = Some (ORefusal s) ->
  blocks_sim (set_m_refusal Closed m) next (delete i open) (<[i := PRefusal s]> content).
Proof.
  intros Hb Ht Hi. destruct Hb.
  split; cbn [m_next_content_index m_text m_refusal m_tools m_terminal set_m_refusal]; try done.
  - intros j b [_ Hj]%lookup_delete_Some. eauto.
  - lookup_cases; eauto.
  - intros j b [Hne Hj]%lookup_delete_Some. rewrite lookup_insert_ne by done. eauto.
  - intros j Hj. destruct (bs_text_open0 j Hj) as (s' & Hs' & Hok). exists s'.
    split; [by eapply lookup_delete_keep|done].
  - intros Hc. destruct (bs_text_closed0 Hc) as (j & s' & Hs'). exists j, s'.
    rewrite lookup_insert_ne; [done|]. intros <-. apply bs_disj0 in Hi. congruence.
  - intros _. exists i, s. apply lookup_insert_eq.
  - intros w p Hw He. destruct (bs_tool_open0 w p Hw He) as (b & Hb & Hm). exists b.
    split; [|done]. destruct Hm as (id & -> & _). by eapply lookup_delete_keep.
  - intros w p Hw He. destruct (bs_tool_ended0 w p Hw He) as (j & call & Hj). exists j, call.
    rewrite lookup_insert_ne; [done|]. intros <-. apply bs_disj0 in Hi. congruence.
  - intros j b [Hne Hj]%lookup_delete_Some. destruct (bs_open_inv0 j b Hj) as [H|[H|H]]; [auto|congruence|auto].
  - intros j s'. rewrite lookup_insert_Some. intros [[<- ?]|[Hne Hj]]; [done|eauto].
  - intros j k s1 s2. rewrite !lookup_insert_Some. naive_solver.
  - intros j call. rewrite lookup_insert_Some. intros [[<- ?]|[Hne Hj]]; [done|eauto].
Qed.

Lemma blocks_sim_end_tool m next open content a w p call :
  blocks_sim m next open content ->
  pending_by_wire_index (m_tools m) !! w = Some p -> pt_ended p = false ->
  pending_by_wire_index a = <[w := set_ended p]> (pending_by_wire_index (m_tools m)) ->
  order a = order (m_tools m) -> order a <> [] ->
  blocks_sim (set_m_tools a m) next (delete (pt_domain_content_index p) open)
    (<[pt_domain_content_index p := PToolCall call]> content).
Proof.
  intros Hb Hw He Ha Ho Hne0. pose proof Hb as Hb0. destruct Hb.
  destruct (bs_tool_open0 w p Hw He) as (b & Hob & id & -> & Hid).
  assert (forall j p', content !! j = Some p' -> pt_domain_content_index p <> j) as Hfresh.
  { intros j p' Hj <-. apply bs_disj0 in Hob. congruence. }
  split; cbn [m_next_content_index m_text m_refusal m_tools m_terminal set_m_tools]; try done.
  - intros j b [_ Hj]%lookup_delete_Some. eauto.
  - lookup_cases; eauto.
  - intros j b [Hne Hj]%lookup_delete_Some. rewrite lookup_insert_ne by done. eauto.
  - intros j Hj. destruct (bs_text_open0 j Hj) as (s' & Hs' & Hok). exists s'.
    split; [by eapply lookup_delete_keep|done].
  - intros Hc. destruct (bs_text_closed0 Hc) as (j & s' & Hs'). exists j, s'.
    rewrite lookup_insert_ne; eauto.
  - intros j Hj. destruct (bs_refusal_open0 j Hj) as [s' Hs']. exists s'. by eapply lookup_delete_keep.
  - intros Hc. destruct (bs_refusal_closed0 Hc) as (j & s' & Hs'). exists j, s'.
    rewrite lookup_insert_ne; eauto.
  - intros w' q. rewrite Ha, lookup_insert_Some. intros [[<- <-]|[Hne Hq]] Hqe; [done|].
    destruct (bs_tool_open0 w' q Hq Hqe) as (bq & Hbq & Hmq). exists bq.
    rewrite lookup_delete_ne; [done|]. intros Heq. apply Hne. by eapply live_index_inj.
  - intros w' q. rewrite Ha, lookup_insert_Some. intros [[<- <-]|[Hne Hq]] Hqe.
    + eexists _, call. apply lookup_insert_eq.
    + destruct (bs_tool_ended0 w' q Hq Hqe) as (j & c' & Hj). exists j, c'.
      rewrite lookup_insert_ne; eauto.
  - intros j b [Hne Hj]%lookup_delete_Some.
    destruct (bs_open_inv0 j b Hj) as [?|[?|(w' & q & Hq & Hqe & Hqi)]]; [auto..|].
    right; right. exists w', q. rewrite Ha, lookup_insert_ne; [done|]. intros ->. congruence.
  - intros j s'. rewrite lookup_insert_Some. intros [[<- ?]|[Hne Hj]]; [done|eauto].
  - intros j k s1 s2. rewrite !lookup_insert_Some. naive_solver.
  - intros j s'. rewrite lookup_insert_Some. intros [[<- ?]|[Hne Hj]]; [done|eauto].
Qed.

(** ** Ids *)
Lemma ids_sim_update m next open content ids a w p p' id :
  blocks_sim m next open content -> ids_sim (m_tools m) open ids ->
  pending_by_wire_index (m_tools m) !! w = Some p -> pt_ended p = false ->
  pending_by_wire_index a = <[w := p']> (pending_by_wire_index (m_tools m)) ->
  pt_domain_content_index p' = pt_domain_content_index p ->
  (pt_provider_call_id p = None \/ pt_provider_call_id p' = pt_provider_call_id p) ->
  (exists n args, open !! pt_domain_content_index p = Some (OToolCall w id n args)) ->
  forall n args,
  ids_sim a (<[pt_domain_content_index p := OToolCall w id n args]> open) ids.
Proof.
  intros Hb Hids Hw He Ha Hidx Hid (n0 & a0 & Hob) n args x Hx.
  destruct (Hids x Hx) as (w' & q & Hq & Hqx & Hor). destruct (decide (w' = w)) as [->|Hne].
  - rewrite Hw in Hq. injection Hq as <-. exists w, p'. rewrite Ha, lookup_insert_eq.
    split_and!; [done|destruct Hid; congruence|]. destruct Hor as [?|(n1 & a1 & H1)]; [congruence|].
    right. rewrite Hob in H1. injection H1 as -> -> ->. exists n, args.
    rewrite Hidx. apply lookup_insert_eq.
  - exists w', q. rewrite Ha, lookup_insert_ne by done. split_and!; [done|done|].
    destruct Hor as [?|(n1 & a1 & H1)]; [by left|]. right. exists n1, a1.
    rewrite lookup_insert_ne; [done|]. intros Heq. rewrite <- Heq in H1. congruence.
Qed.

Lemma ids_sim_start tools open ids a w next id p' :
  ids_sim tools open ids -> open !! next = None -> pending_by_wire_index tools !! w = None ->
  pending_by_wire_index a = <[w := p']> (pending_by_wire_index tools) ->
  pt_domain_content_index p' = next -> pt_provider_call_id p' = id ->
  forall n args,
  ids_sim a (<[next := OToolCall w id n args]> open)
    (match id with Some x => {[x]} ∪ ids | None => ids end).
Proof.
  intros Hids Hno Hw Ha Hidx Hid n args x Hx.
  assert (x ∈ ids \/ id = Some x) as [Hin|Hx'].
  { destruct id as [y|]; [|by left]. set_unfold. naive_solver. }
  - destruct (Hids x Hin) as (w' & q & Hq & Hqx & Hor). exists w', q.
    rewrite Ha, lookup_insert_ne by congruence. split_and!; [done|done|].
    destruct Hor as [?|(n1 & a1 & H1)]; [by left|]. right. exists n1, a1.
    rewrite lookup_insert_ne; [done|]. intros Heq. rewrite <- Heq in H1. congruence.
  - exists w, p'. rewrite Ha, lookup_insert_eq. split_and!; [done|congruence|].
    right. exists n, args. rewrite Hidx, lookup_insert_eq. by rewrite Hx'.
Qed.

Lemma ids_sim_end m next open content ids a w p x :
  blocks_sim m next open content -> ids_sim (m_tools m) open ids ->
  pending_by_wire_index (m_tools m) !! w = Some p -> pt_ended p = false ->
  pt_provider_call_id p = Some x ->
  pending_by_wire_index a = <[w := set_ended p]> (pending_by_wire_index (m_tools m)) ->
  ids_sim a (delete (pt_domain_content_index p) open) ({[x]} ∪ ids).
Proof.
  intros Hb Hids Hw He Hpx Ha y Hy. apply elem_of_union in Hy as [->%elem_of_singleton|Hy].
  - exists w, (set_ended p). rewrite Ha, lookup_insert_eq. split_and!; [done|done|by left].
  - destruct (Hids y Hy) as (w' & q & Hq & Hqx & Hor). destruct (decide (w' = w)) as [->|Hne].
    + rewrite Hw in Hq. injection Hq as <-. exists w, (set_ended p). rewrite Ha, lookup_insert_eq.
      split_and!; [done|done|by left].
    + exists w', q. rewrite Ha, lookup_insert_ne by done. split_and!; [done|done|].
      destruct Hor as [?|(n1 & a1 & H1)]; [by left|]. right. exists n1, a1.
      destruct (bs_tool_open _ _ _ _ Hb w p Hw He) as (b & Hob & id & -> & _).
      eapply lookup_delete_keep; eauto. congruence.
Qed.

(** ** Programs *)
Section CmRules.
Implicit Types (s : ChatStateMachine * list AssistantEvent).
Lemma wp_self (Q : ChatStateMachine -> _ -> Prop) (R : LlmError -> _ -> Prop) s :
  Q s.1 s -> wp self Q R s.
Proof. done. Qed.
Lemma wp_assign f (Q : unit -> _ -> Prop) (R : LlmError -> _ -> Prop) s :
  Q tt (f s.1, s.2) -> wp (assign f) Q R s.
Proof. done. Qed.
Lemma wp_push_event e (Q : unit -> _ -> Prop) (R : LlmError -> _ -> Prop) s :
  Q tt (s.1, s.2 ++ [e]) -> wp (push_event e) Q R s.
Proof. done. Qed.
Lemma wp_push_events es (Q : unit -> _ -> Prop) (R : LlmError -> _ -> Prop) s :
  Q tt (s.1, s.2 ++ es) -> wp (push_events es) Q R s.
Proof. done. Qed.
End CmRules.

Ltac cm_step :=
  lazymatch goal with
  | |- wp self _ _ _ => apply wp_self
  | |- wp (assign _) _ _ _ => apply wp_assign
  | |- wp (push_event _) _ _ _ => apply wp_push_event
  | |- wp (push_events _) _ _ _ => apply wp_push_events
  | |- wp (on_terminal _) _ _ _ => apply wp_zoom
  | |- wp (on_tools _) _ _ _ => apply wp_zoom
  | |- wp (guard_err _ _) _ _ _ => apply wp_guard; [done|]
  | |- _ => wp_step
  end; cbn [fst snd].

Section Simulation.
Context {JS : JsonSyntax} {JP : JsonPrinter} {SE : SchemaEngine} {CS : ChunkSyntax}.
Context (D : UsageDetails) (c0 : Collector).

(** The events emitted so far bring the collector to a state that mirrors the
    machine. *)
Definition J (s : ChatStateMachine * list AssistantEvent) : Prop :=
  exists c, accept_all s.2 c0 = Ok c /\ sim D s.1 c.

Lemma J_events m evs es m' :
  J (m, evs) -> (forall c, sim D m c -> exists c', accept_all es c = Ok c' /\ sim D m' c') ->
  J (m', evs ++ es).
Proof.
  intros (c & Hc & Hs) Hstep. destruct (Hstep c Hs) as (c' & Hc' & Hs'). exists c'.
  cbn in *. split; [|done]. rewrite accept_all_app, Hc. done.
Qed.

Lemma J_silent m evs m' :
  J (m, evs) -> (forall c, sim D m c -> sim D m' c) -> J (m', evs).
Proof. intros (c & Hc & Hs) Hstep. exists c. eauto. Qed.

Lemma ids_sim_other tools open open' ids :
  (forall i w id n a, open !! i = Some (OToolCall w id n a) -> open' !! i = Some (OToolCall w id n a)) ->
  ids_sim tools open ids -> ids_sim tools open' ids.
Proof.
  intros Hsub Hids x Hx. destruct (Hids x Hx) as (w & p & Hp & Hpx & [He|(n & a & Ho)]);
    exists w, p; eauto 10.
Qed.

(** A step of the text or refusal block. *)
Lemma sim_plain m c m' next open content :
  sim D m c -> m_started m = true -> m_started m' = true ->
  m_usage_details m' = m_usage_details m -> m_tools m' = m_tools m ->
  blocks_sim m' next open content ->
  (forall i w id n a, c_open c !! i = Some (OToolCall w id n a) -> open !! i = Some (OToolCall w id n a)) ->
  sim D m' (set_blocks next open content c).
Proof.
  intros [] Hst Hst' Hu Ht Hb Hsub. split; cbn; rewrite ?Ht, ?Hu; try done; try congruence.
  by eapply ids_sim_other.
Qed.

(** A machine that differs in nothing the collector sees. *)
Lemma sim_same m m' c :
  sim D m c -> same_blocks m m' -> m_started m' = m_started m ->
  m_usage_details m' = m_usage_details m -> sim D m' c.
Proof.
  intros [] Hsame Hst Hu. pose proof Hsame as (_ & _ & Ht & _ & _).
  split; rewrite ?Ht, ?Hu, ?Hst; try done. by eapply blocks_sim_same.
Qed.

Lemma insert_keep_tool (open : gmap Z OpenBlock) i b0 b :
  open !! i = Some b0 \/ open !! i = None ->
  (forall w id n a, b0 <> OToolCall w id n a) ->
  forall j w id n a, open !! j = Some (OToolCall w id n a) -> <[i := b]> open !! j = Some (OToolCall w id n a).
Proof.
  intros Hi Hb j w id n a Hj. rewrite lookup_insert_ne; [done|]. intros ->. destruct Hi; congruence.
Qed.

Lemma sim_no_next m c : sim D m c -> c_open c !! c_next_content_index c = None.
Proof.
  intros []. destruct (c_open c !! _) eqn:E; [|done]. apply (bs_open_lt _ _ _ _ sm_blocks0) in E. lia.
Qed.

Lemma sim_start_block m c b :
  sim D m c -> m_next_content_index m + 1 <= U32_MAX ->
  start_block (m_next_content_index m) b c =
    Ok (set_blocks (m_next_content_index m + 1) (<[m_next_content_index m := b]> (c_open c)) (c_content c) c).
Proof.
  intros [] Hmax. destruct (bs_next _ _ _ _ sm_blocks0) as [Hn Hp].
  apply start_block_fresh; [done|done|lia|..]; rewrite Hn.
  - by eapply bs_open_lt.
  - by eapply bs_content_lt.
Qed.

(** The machine is between chunks or inside one, started and not finished. *)
Definition live (s : ChatStateMachine * list AssistantEvent) : Prop :=
  J s /\ m_started s.1 = true /\ m_finish_reason s.1 = None /\
  m_text s.1 <> Closed /\ m_refusal s.1 <> Closed.

Lemma allocate_spec (Q : Z -> _ -> Prop) s :
  (m_next_content_index s.1 + 1 <= U32_MAX ->
   Q (m_next_content_index s.1) (set_m_next (m_next_content_index s.1 + 1) s.1, s.2)) ->
  wp_ok allocate_content_index Q s.
Proof.
  intros HQ. unfold allocate_content_index. cm_step. cm_step. cbv zeta. cm_step. cm_step.
  destruct (u32_checked_add _ _) as [n|] eqn:Hn; cbn [ok_or]; [|done].
  apply checked_Some in Hn as [-> Hr]. cm_step. cm_step. cm_step. apply HQ. lia.
Qed.

Lemma text_start_step m evs :
  J (m, evs) -> m_started m = true -> m_text m = NotStarted ->
  m_next_content_index m + 1 <= U32_MAX ->
  let i := m_next_content_index m in
  J (set_m_text (Open i) (set_m_next (i + 1) m), evs ++ [TextStart i]).
Proof.
  intros HJ Hst Ht Hmax i. eapply J_events; [exact HJ|]. intros c Hs. eexists. split.
  - apply accept_one; [by destruct Hs|]. unfold accept. rewrite (sm_done _ _ _ Hs).
    by apply (sim_start_block m).
  - pose proof (sm_blocks _ _ _ Hs) as Hb. destruct (bs_next _ _ _ _ Hb) as [Hn _].
    apply (sim_plain m); try done.
    + pose proof (blocks_sim_start_text _ _ _ _ EmptyString Hb Ht eq_refl) as Hb'.
      rewrite <- Hn in Hb'. exact Hb'.
    + apply (insert_keep_tool _ _ (OText EmptyString)); [|done]. right. rewrite Hn.
      by apply (sim_no_next m).
Qed.

Lemma text_delta_step m evs i d t' :
  J (m, evs) -> m_started m = true -> m_text m = Open i ->
  st_text_buffer t' = (fun b => b +:+ d) <$> st_text_buffer (m_terminal m) ->
  J (set_m_terminal t' m, evs ++ [TextDelta i d]).
Proof.
  intros HJ Hst Ht Hbuf. eapply J_events; [exact HJ|]. intros c Hs.
  pose proof (sm_blocks _ _ _ Hs) as Hb.
  destruct (bs_text_open _ _ _ _ Hb i Ht) as (s & Hi & _). eexists. split.
  - apply accept_one; [by destruct Hs|]. unfold accept. rewrite (sm_done _ _ _ Hs).
    unfold accept_text_delta. rewrite Hi. reflexivity.
  - apply (sim_plain m); try done.
    + by apply blocks_sim_delta_text.
    + apply (insert_keep_tool _ _ (OText s)); [by left|done].
Qed.

Lemma text_end_step m evs i :
  J (m, evs) -> m_started m = true -> m_text m = Open i ->
  J (set_m_text Closed m, evs ++ [TextEnd i]).
Proof.
  intros HJ Hst Ht. eapply J_events; [exact HJ|]. intros c Hs.
  pose proof (sm_blocks _ _ _ Hs) as Hb.
  destruct (bs_text_open _ _ _ _ Hb i Ht) as (s & Hi & _). 
  exists (set_blocks (c_next_content_index c) (delete i (c_open c)) (<[i := PText s]> (c_content c)) c).
  split.
  - apply accept_one; [by destruct Hs|]. unfold accept. rewrite (sm_done _ _ _ Hs).
    unfold accept_text_end. rewrite Hi. unfold end_block.
    cbn [c_content set_open set_blocks]. rewrite (bs_disj _ _ _ _ Hb _ _ Hi). reflexivity.
  - apply (sim_plain m); try done.
    + by apply blocks_sim_end_text.
    + intros j w id n a Hj. by eapply lookup_delete_keep.
Qed.

Lemma refusal_start_step m evs :
  J (m, evs) -> m_started m = true -> m_refusal m = NotStarted ->
  m_next_content_index m + 1 <= U32_MAX ->
  let i := m_next_content_index m in
  J (set_m_refusal (Open i) (set_m_next (i + 1) m), evs ++ [RefusalStart i]).
Proof.
  intros HJ Hst Ht Hmax i. eapply J_events; [exact HJ|]. intros c Hs. eexists. split.
  - apply accept_one; [by destruct Hs|]. unfold accept. rewrite (sm_done _ _ _ Hs).
    by apply (sim_start_block m).
  - pose proof (sm_blocks _ _ _ Hs) as Hb. destruct (bs_next _ _ _ _ Hb) as [Hn _].
    apply (sim_plain m); try done.
    + pose proof (blocks_sim_start_refusal _ _ _ _ Hb Ht) as Hb'.
      rewrite <- Hn in Hb'. exact Hb'.
    + apply (insert_keep_tool _ _ (OText EmptyString)); [|done]. right. rewrite Hn.
      by apply (sim_no_next m).
Qed.

Lemma refusal_delta_step m evs i d :
  J (m, evs) -> m_started m = true -> m_refusal m = Open i -> J (m, evs ++ [RefusalDelta i d]).
Proof.
  intros HJ Hst Ht. eapply J_events; [exact HJ|]. intros c Hs.
  pose proof (sm_blocks _ _ _ Hs) as Hb.
  destruct (bs_refusal_open _ _ _ _ Hb i Ht) as (s & Hi). eexists. split.
  - apply accept_one; [by destruct Hs|]. unfold accept. rewrite (sm_done _ _ _ Hs).
    unfold accept_refusal_delta. rewrite Hi. reflexivity.
  - apply (sim_plain m); try done.
    + by apply blocks_sim_delta_refusal.
    + apply (insert_keep_tool _ _ (ORefusal s)); [by left|done].
Qed.

Lemma refusal_end_step m evs i :
  J (m, evs) -> m_started m = true -> m_refusal m = Open i ->
  J (set_m_refusal Closed m, evs ++ [RefusalEnd i]).
Proof.
  intros HJ Hst Ht. eapply J_events; [exact HJ|]. intros c Hs.
  pose proof (sm_blocks _ _ _ Hs) as Hb.
  destruct (bs_refusal_open _ _ _ _ Hb i Ht) as (s & Hi). 
  exists (set_blocks (c_next_content_index c) (delete i (c_open c)) (<[i := PRefusal s]> (c_content c)) c).
  split.
  - apply accept_one; [by destruct Hs|]. unfold accept. rewrite (sm_done _ _ _ Hs).
    unfold accept_refusal_end. rewrite Hi. unfold end_block.
    cbn [c_content set_open set_blocks]. rewrite (bs_disj _ _ _ _ Hb _ _ Hi). reflexivity.
  - apply (sim_plain m); try done.
    + by apply blocks_sim_end_refusal.
    + intros j w id n a Hj. by eapply lookup_delete_keep.
Qed.

(** A step of the tool calls. *)
Lemma sim_tools m c m' next open content wires ids :
  sim D m c -> m_started m = true -> m_started m' = true ->
  m_usage_details m' = m_usage_details m -> acc_ok (m_tools m') ->
  blocks_sim m' next open content ->
  (forall w, w ∈ wires <-> is_Some (pending_by_wire_index (m_tools m') !! w)) ->
  ids_sim (m_tools m') open ids ->
  sim D m' (set_blocks next open content (set_tools wires ids c)).
Proof.
  intros [] Hst Hst' Hu Ha Hb Hw Hids. split; cbn; rewrite ?Hu; try done; congruence.
Qed.

Lemma is_Some_insert_same {A} (m : gmap Z A) w p q w' :
  m !! w = Some p -> (is_Some (<[w := q]> m !! w') <-> is_Some (m !! w')).
Proof.
  intros Hw. rewrite lookup_insert_is_Some. destruct (decide (w = w')) as [<-|]; naive_solver.
Qed.

Lemma accept_delta_events c w p id ns args :
  c_done c = false ->
  c_open c !! pt_domain_content_index p =
    Some (OToolCall w id (pt_name_buffer p) (pt_arguments_buffer p)) ->
  accept_all (delta_events p w ns args) c =
  Ok (set_open (<[pt_domain_content_index p :=
                   OToolCall w id (push_opt (pt_name_buffer p) ns)
                     (push_opt (pt_arguments_buffer p) args)]> (c_open c)) c).
Proof.
  intros Hd Ho.
  assert (accept_all [ToolCallDelta (pt_domain_content_index p) w ns args] c =
    Ok (set_open (<[pt_domain_content_index p :=
                   OToolCall w id (push_opt (pt_name_buffer p) ns)
                     (push_opt (pt_arguments_buffer p) args)]> (c_open c)) c)) as Hone.
  { simpl. unfold accept. rewrite Hd. unfold accept_tool_delta. rewrite Ho, Z.eqb_refl. done. }
  destruct ns, args; try exact Hone. simpl. rewrite insert_id by done. by destruct c.
Qed.

Lemma tool_known_step m evs a' w p id ns args :
  J (m, evs) -> m_started m = true -> acc_ok a' ->
  pending_by_wire_index (m_tools m) !! w = Some p -> pt_ended p = false ->
  (pt_provider_call_id p = None \/ id = pt_provider_call_id p) ->
  order a' = order (m_tools m) ->
  pending_by_wire_index a' =
    <[w := appended ns args (set_provider_call_id id p)]> (pending_by_wire_index (m_tools m)) ->
  J (set_m_tools a' m, evs ++ delta_events p w ns args).
Proof.
  intros HJ Hst Ha' Hw He Hid Ho Hpend. eapply J_events; [exact HJ|]. intros c Hs.
  pose proof (sm_blocks _ _ _ Hs) as Hb.
  destruct (bs_tool_open _ _ _ _ Hb w p Hw He) as (b & Hob & id0 & -> & Hid0).
  eexists. split; [by apply accept_delta_events; [destruct Hs|]|].
  apply (sim_tools m c (set_m_tools a' m) _ _ _ (c_tool_wire_indexes c) (c_tool_call_ids c)); try done.
  - eapply blocks_sim_update_tool; try done. exists id0. split; [done|].
    cbn. destruct Hid0 as [->|E]; [by left|]. destruct Hid as [E'|E']; [left|right]; congruence.
  - intros w'. cbn. rewrite (sm_wires _ _ _ Hs), Hpend. symmetry. by eapply is_Some_insert_same.
  - eapply ids_sim_update; try done; [by destruct Hs|by eauto].
Qed.

Lemma tool_new_step m evs a' w id ns args :
  J (m, evs) -> m_started m = true -> acc_ok a' ->
  m_next_content_index m + 1 <= U32_MAX ->
  let i := m_next_content_index m in
  pending_by_wire_index (m_tools m) !! w = None ->
  (forall x, id = Some x -> seen_provider_call_ids (m_tools m) !! x = None) ->
  order a' = order (m_tools m) ++ [w] ->
  pending_by_wire_index a' =
    <[w := appended ns args (new_pending w i id)]> (pending_by_wire_index (m_tools m)) ->
  J (set_m_tools a' (set_m_next (i + 1) m),
     evs ++ ToolCallStart i w id :: delta_events (new_pending w i id) w ns args).
Proof.
  intros HJ Hst Ha' Hmax i Hw Hfresh Ho Hpend. eapply J_events; [exact HJ|]. intros c Hs.
  pose proof (sm_blocks _ _ _ Hs) as Hb. destruct (bs_next _ _ _ _ Hb) as [Hn Hpos].
  assert (bool_decide (w ∈ c_tool_wire_indexes c) = false) as Hwire.
  { apply bool_decide_eq_false. rewrite (sm_wires _ _ _ Hs). rewrite Hw. by intros []. }
  assert (match id with Some x => bool_decide (x ∈ c_tool_call_ids c) | None => false end = false) as Hid.
  { destruct id as [x|]; [|done]. apply bool_decide_eq_false. intros Hx.
    destruct (sm_ids _ _ _ Hs x Hx) as (w' & q & Hq & Hqx & _).
    apply (ao_seen _ (sm_acc _ _ _ Hs) w' q x Hq) in Hqx. rewrite Hfresh in Hqx; done. }
  set (c1 := set_tools ({[w]} ∪ c_tool_wire_indexes c)
    (match id with Some x => {[x]} ∪ c_tool_call_ids c | None => c_tool_call_ids c end) c).
  assert (start_block i (OToolCall w id EmptyString EmptyString) c1 =
    Ok (set_blocks (i + 1) (<[i := OToolCall w id EmptyString EmptyString]> (c_open c)) (c_content c) c1))
    as Hstart.
  { apply (start_block_fresh i _ c1); [done|done|lia|..]; unfold i; rewrite Hn.
    - by eapply bs_open_lt.
    - by eapply bs_content_lt. }
  exists (set_blocks (i + 1) (<[i := OToolCall w id (push_opt EmptyString ns) (push_opt EmptyString args)]>
            (c_open c)) (c_content c) c1).
  split.
  - cbn [accept_all]. unfold accept. rewrite (sm_done _ _ _ Hs). unfold accept_tool_start.
    rewrite Hwire, Hid. fold c1. rewrite Hstart. cbn [mbind result_bind].
    rewrite (accept_delta_events _ w (new_pending w i id) id); [|by destruct Hs|apply lookup_insert_eq].
    f_equal. unfold set_open, set_blocks. cbn. by rewrite insert_insert_eq.
  - unfold c1. apply (sim_tools m c); try done.
    + pose proof (blocks_sim_start_tool m _ _ _ a' w (appended ns args (new_pending w i id))
        (OToolCall w id (push_opt EmptyString ns) (push_opt EmptyString args)) Hb Hw) as Hb'.
      rewrite <- Hn in Hb'. apply Hb'; try done. exists id. split; [done|by right].
    + intros w'. cbn. rewrite Hpend, lookup_insert_is_Some.
      rewrite elem_of_union, elem_of_singleton, (sm_wires _ _ _ Hs).
      destruct (decide (w = w')); naive_solver.
    + eapply (ids_sim_start (m_tools m) _ _ _ w i id (appended ns args (new_pending w i id)));
        try done; [by destruct Hs|]. unfold i. rewrite Hn. by apply (sim_no_next m).
Qed.

Lemma tool_end_step m evs a' w p call :
  J (m, evs) -> m_started m = true -> acc_ok a' ->
  pending_by_wire_index (m_tools m) !! w = Some p -> pt_ended p = false ->
  pending_by_wire_index a' = <[w := set_ended p]> (pending_by_wire_index (m_tools m)) ->
  order a' = order (m_tools m) ->
  pt_provider_call_id p = Some (tc_id call) -> tc_name call = pt_name_buffer p ->
  raw_json (tc_arguments call) = pt_arguments_buffer p ->
  J (set_m_tools a' m, evs ++ [ToolCallEnd (pt_domain_content_index p) call]).
Proof.
  intros HJ Hst Ha' Hw He Hpend Ho Hid Hname Hargs. eapply J_events; [exact HJ|]. intros c Hs.
  pose proof (sm_blocks _ _ _ Hs) as Hb.
  destruct (bs_tool_open _ _ _ _ Hb w p Hw He) as (b & Hob & id0 & -> & Hid0).
  set (i := pt_domain_content_index p) in *.
  assert (order a' <> []) as Hne.
  { assert (w ∈ order (m_tools m)) as Hin by (apply (ao_order _ (sm_acc _ _ _ Hs)); eauto).
    rewrite Ho. intros E. rewrite E in Hin. by apply not_elem_of_nil in Hin. }
  assert (id0 = None -> tc_id call ∉ c_tool_call_ids c) as Hfresh.
  { intros -> Hx. destruct (sm_ids _ _ _ Hs _ Hx) as (w' & q & Hq & Hqx & Hor).
    pose proof (ao_seen _ (sm_acc _ _ _ Hs) w p _ Hw Hid) as H1.
    pose proof (ao_seen _ (sm_acc _ _ _ Hs) w' q _ Hq Hqx) as H2.
    assert (w' = w) as -> by congruence. assert (q = p) as -> by congruence.
    destruct Hor as [?|(n & a & Hop)]; [congruence|]. fold i in Hop. congruence. }
  exists (set_blocks (c_next_content_index c) (delete i (c_open c)) (<[i := PToolCall call]> (c_content c))
    (set_tools (c_tool_wire_indexes c)
       (match id0 with None => {[tc_id call]} ∪ c_tool_call_ids c | Some _ => c_tool_call_ids c end) c)).
  split.
  - apply accept_one; [by destruct Hs|]. unfold accept. rewrite (sm_done _ _ _ Hs).
    unfold accept_tool_end. rewrite Hob. destruct id0 as [x|].
    + assert (x = tc_id call) as -> by (destruct Hid0; congruence).
      rewrite str_eqb_refl. cbn [negb]. rewrite <- Hname, str_eqb_refl, <- Hargs, str_eqb_refl. cbn [negb].
      unfold end_block. cbn [c_content set_open set_blocks]. rewrite (bs_disj _ _ _ _ Hb _ _ Hob). done.
    + cbn [c_tool_call_ids set_open set_blocks].
      rewrite bool_decide_eq_false_2 by auto.
      rewrite <- Hname, str_eqb_refl, <- Hargs, str_eqb_refl. cbn [negb].
      unfold end_block. cbn [c_content set_open set_blocks set_tools].
      rewrite (bs_disj _ _ _ _ Hb _ _ Hob). done.
  - apply (sim_tools m c); try done.
    + by apply (blocks_sim_end_tool m _ _ _ a' w p).
    + intros w'. cbn. rewrite (sm_wires _ _ _ Hs), Hpend. symmetry. by eapply is_Some_insert_same.
    + pose proof (ids_sim_end m _ _ _ _ a' w p _ Hb (sm_ids _ _ _ Hs) Hw He Hid Hpend) as Hids.
      fold i in Hids. destruct id0; [|exact Hids]. intros x Hx. apply Hids. set_solver.
Qed.

Lemma finish_calls_step ws : forall m evs,
  J (m, evs) -> m_started m = true -> acc_ok (m_tools m) ->
  wp_ok (finish_calls ws) (fun es a' => J (set_m_tools a' m, evs ++ es) /\
    order a' = order (m_tools m)) (m_tools m).
Proof.
  induction ws as [|w ws IH]; intros m evs HJ Hst Ha; simpl.
  - wp_step. rewrite app_nil_r. split; [|done]. eapply J_silent; [exact HJ|]. intros c Hs.
    eapply sim_same; [exact Hs|done..].
  - wp_step. eapply wp_mono; [by apply finish_call_spec| |done].
    intros e a1 (Ha1 & _ & Ho & _ & p & call & Hw & He & Hpend & -> & Hid & Hn & Harg & _ & _).
    wp_step. pose proof (tool_end_step m evs a1 w p call HJ Hst Ha1 Hw He Hpend Ho Hid Hn Harg) as HJ1.
    eapply wp_mono; [exact (IH (set_m_tools a1 m) _ HJ1 Hst Ha1)| |done].
    intros es a2 [HJ2 Ho2]. wp_step. rewrite <- app_assoc in HJ2. split; [exact HJ2|].
    cbn in Ho2. congruence.
Qed.

(** ** The programs preserve the simulation *)
Lemma push_text_sim content s : live s -> wp_ok (push_text content) (fun _ => live) s.
Proof.
  destruct s as [m evs]. intros (HJ & Hst & Hf & Ht & Hr). cbn in *. unfold push_text.
  cm_step. cm_step. cm_step. cm_step. intros _. destruct (m_text m) eqn:Htext; [|clear Ht|done].
  - cm_step. apply allocate_spec. cbn [fst snd]. intros Hmax. cm_step. cm_step. cm_step. cm_step. cm_step. cm_step.
    eapply wp_mono; [apply push_answer_text_ok| |done]. intros _ t' (Hb & _). cm_step.
    pose proof (text_start_step m evs HJ Hst Htext Hmax) as HJ1.
    pose proof (text_delta_step _ _ _ content t' HJ1 Hst eq_refl Hb) as HJ2. split_and!; try done.
  - cm_step. cm_step. eapply wp_mono; [apply push_answer_text_ok| |done]. intros _ t' (Hb & _). cm_step.
    pose proof (text_delta_step _ _ _ content t' HJ Hst Htext Hb) as HJ2. split_and!; try done.
    cbn. by rewrite Htext.
Qed.

Lemma push_refusal_sim content s : live s -> wp_ok (push_refusal content) (fun _ => live) s.
Proof.
  destruct s as [m evs]. intros (HJ & Hst & Hf & Ht & Hr). cbn in *. unfold push_refusal.
  cm_step. cm_step. cm_step. cm_step. intros _. cm_step. cm_step. intros _.
  destruct (m_refusal m) eqn:Href; [|clear Hr|done].
  - cm_step. apply allocate_spec. cbn [fst snd]. intros Hmax. cm_step. cm_step. cm_step. cm_step. cm_step.
    pose proof (refusal_start_step m evs HJ Hst Href Hmax) as HJ1.
    pose proof (refusal_delta_step _ _ _ content HJ1 Hst eq_refl) as HJ2. split_and!; try done.
  - cm_step. pose proof (refusal_delta_step _ _ _ content HJ Hst Href) as HJ2. split_and!; try done.
    cbn. by rewrite Href.
Qed.

Lemma push_tool_sim delta s : live s -> wp_ok (push_tool_delta delta) (fun _ => live) s.
Proof.
  destruct s as [m evs]. intros (HJ & Hst & Hf & Ht & Hr). cbn in *. unfold push_tool_delta.
  cm_step. cm_step. cm_step. cm_step. intros _. cm_step. cm_step. intros _. cm_step. cm_step. intros _.
  cm_step. cm_step. destruct (parse_wire_index _) as [w|]; [|done]. cm_step. cm_step.
  destruct (prepare (m_tools m) w) as [fresh|] eqn:Hprep; [|done].
  pose proof HJ as (c & _ & Hs). pose proof (sm_acc _ _ _ Hs) as Hacc. clear c Hs.
  unfold prepare in Hprep. destruct (pending_by_wire_index (m_tools m) !! w) as [p|] eqn:Hw.
  - injection Hprep as <-. cm_step. cm_step. cm_step. cm_step. 
    eapply wp_mono; [apply observe_delta_spec; [exact Hacc|cbn; congruence]| |done].
    intros es a' (Ha' & _ & Hobs). cm_step. destruct Hobs as [p' id ns args Hw' He Hid Ho Hpend|]; cbn in *; [|congruence].
    split_and!; try done. eapply tool_known_step; eauto.
  - destruct (Z.leb_spec (rl_max_tool_calls (acc_limits (m_tools m))) (Z.of_nat (length (order (m_tools m)))));
      [done|]. injection Hprep as <-. cm_step. cm_step. apply allocate_spec. cbn [fst snd]. intros Hmax.
    cm_step. cm_step. cm_step.
    eapply wp_mono; [apply observe_delta_spec; [exact Hacc|intros _; split; [eauto|done]]| |done].
    intros es a' (Ha' & _ & Hobs). cm_step.
    destruct Hobs as [|index id ns args Hw' Hci Hfresh Ho Hpend]; cbn in *; [congruence|].
    injection Hci as <-. split_and!; try done. by apply tool_new_step.
Qed.

(** Between chunks: what the finish reason says holds of the blocks. *)
Definition settled (s : ChatStateMachine * list AssistantEvent) : Prop :=
  J s /\ m_started s.1 = true /\ finish_sim s.1.

Lemma live_settled s : live s <-> settled s /\ m_finish_reason s.1 = None.
Proof.
  unfold live, settled, finish_sim. split.
  - intros (? & ? & Hf & ? & ?). rewrite Hf. auto.
  - intros [(? & ? & Hs) Hf]. rewrite Hf in Hs. naive_solver.
Qed.

Lemma apply_delta_sim delta s :
  settled s -> (m_finish_reason s.1 = None \/ delta_is_empty delta = true) ->
  wp_ok (apply_delta delta)
    (fun _ s' => settled s' /\ m_finish_reason s'.1 = m_finish_reason s.1) s.
Proof.
  intros Hs [Hf|Hempty].
  - assert (live s) as Hl by (by apply live_settled). rewrite Hf.
    assert (wp_ok (apply_delta delta) (fun _ => live) s) as Hwp.
    { unfold apply_delta. wp_step. apply (wp_mono _ (fun _ => live) _ (fun _ _ => True) _).
      { destruct (d_content delta) as [t|]; [destruct (str_is_empty t)|]; try (by wp_step).
        by apply push_text_sim. }
      2: done. intros _ s1 H1. wp_step. apply (wp_mono _ (fun _ => live) _ (fun _ _ => True) _).
      { destruct (d_refusal delta) as [t|]; [destruct (str_is_empty t)|]; try (by wp_step).
        by apply push_refusal_sim. }
      2: done. intros _ s2 H2. destruct (d_tool_calls delta) as [tcs|]; [|by wp_step].
      apply wp_for_each; [|done]. intros x s' _. apply push_tool_sim. }
    eapply wp_mono; [exact Hwp| |done]. intros ? s' Hl'. exact (proj1 (live_settled s') Hl').
  - unfold delta_is_empty in Hempty. rewrite !andb_true_iff in Hempty.
    destruct Hempty as [[[[[_ Hc] Hr] Htc] _] _]. unfold apply_delta.
    assert (forall (o : option string) (f : string -> CM unit), none_or str_is_empty o = true ->
      match o with Some x => if str_is_empty x then mret tt else f x | None => mret tt end
      = (mret tt : CM unit)) as Hskip.
    { intros [x|] f Hx; simpl in *; [by rewrite Hx|done]. }
    rewrite !Hskip by done. wp_step. wp_step. wp_step. wp_step.
    destruct (d_tool_calls delta) as [[|]|]; simpl in Htc; try done; by wp_step.
Qed.

Lemma close_text_sim s :
  J s -> m_started s.1 = true ->
  wp_ok close_text_if_open (fun _ s' => J s' /\ m_started s'.1 = true /\
    m_tools s'.1 = m_tools s.1 /\ m_refusal s'.1 = m_refusal s.1 /\
    (is_open (m_text s.1) = true -> m_text s'.1 = Closed)) s.
Proof.
  destruct s as [m evs]. cbn. intros HJ Hst. unfold close_text_if_open. cm_step. cm_step.
  destruct (m_text m) eqn:Ht; cbn [is_open].
  - cm_step. split_and!; try done; by rewrite Ht.
  - cm_step. cm_step. cm_step. split_and!; try done. by apply text_end_step.
  - cm_step. split_and!; try done; by rewrite Ht.
Qed.

Lemma finish_with_tools_sim s :
  live s -> wp_ok finish_with_tools
    (fun _ s' => J s' /\ m_started s'.1 = true /\ order (m_tools s'.1) <> []) s.
Proof.
  intros (HJ & Hst & _). unfold finish_with_tools. wp_step.
  eapply wp_mono; [by apply close_text_sim| |done].
  intros _ [m1 evs1] (HJ1 & Hst1 & _). cbn in *. cm_step. cm_step. cm_step. cm_step. intros _.
  cm_step. cm_step. intros Hne. cm_step. cm_step. unfold finish_all. wp_step. wp_step.
  pose proof HJ1 as (c & _ & Hs). pose proof (sm_acc _ _ _ Hs) as Hacc.
  eapply wp_mono; [by apply finish_calls_step| |done]. intros es a' [HJ2 Ho]. cm_step.
  split_and!; try done. cbn. rewrite Ho. unfold acc_is_empty in Hne. by destruct (order (m_tools m1)).
Qed.

Lemma finish_without_tools_sim s :
  live s -> wp_ok finish_without_tools
    (fun _ s' => J s' /\ m_started s'.1 = true /\ order (m_tools s'.1) = [] /\
       (m_text s'.1 = Closed \/ m_refusal s'.1 = Closed)) s.
Proof.
  destruct s as [m evs]. intros (HJ & Hst & _ & Ht & Hr). cbn in *. unfold finish_without_tools.
  cm_step. cm_step. cm_step. cm_step. intros Hempty.
  assert (order (m_tools m) = []) as Ho.
  { unfold acc_is_empty in Hempty. by destruct (order (m_tools m)). }
  destruct (m_refusal m) eqn:Href; cbn [is_open]; [|unfold close_refusal|done].
  - destruct (m_text m) eqn:Htext; cbn [is_open not_started andb]; [| |done].
    + cm_step. apply allocate_spec. cbn [fst snd]. intros Hmax. cm_step. cm_step. cm_step. cm_step.
      pose proof (text_start_step m evs HJ Hst Htext Hmax) as HJ1.
      eapply wp_mono; [by apply close_text_sim| |done].
      intros _ s' (HJ' & Hst' & Htools & _ & Hcl). cbn in *. rewrite Htools. split_and!; auto.
    + eapply wp_mono; [by apply close_text_sim| |done].
      intros _ s' (HJ' & Hst' & Htools & _ & Hcl). cbn in *. rewrite Htools. rewrite Htext in Hcl. split_and!; auto.
  - cm_step. cm_step. rewrite Href. cm_step. cm_step. cm_step. split_and!; try done; [|by right].
    by apply refusal_end_step.
Qed.

Lemma apply_finish_sim reason s :
  settled s -> wp_ok (apply_finish reason) (fun _ => settled) s.
Proof.
  intros Hs. unfold apply_finish. cm_step. cm_step. cm_step. cm_step. intros Hf.
  assert (live s) as Hl.
  { apply live_settled. split; [done|]. by destruct (m_finish_reason s.1). }
  assert (forall m evs r, J (m, evs) -> J (set_m_finish r m, evs)) as Hset.
  { intros m evs r HJ. eapply J_silent; [exact HJ|]. intros c Hc. eapply sim_same; [exact Hc|done..]. }
  cm_step. destruct reason; try (by repeat cm_step).
  - eapply wp_mono; [by apply finish_without_tools_sim| |done].
    intros _ [m' evs'] (HJ & Hst & Ho & Hor). cm_step. split_and!; try done. by apply Hset.
  - eapply wp_mono; [by apply finish_without_tools_sim| |done].
    intros _ [m' evs'] (HJ & Hst & Ho & Hor). cm_step. split_and!; try done. by apply Hset.
  - eapply wp_mono; [by apply finish_with_tools_sim| |done].
    intros _ [m' evs'] (HJ & Hst & Ho). cm_step. split_and!; try done. by apply Hset.
Qed.

Lemma apply_choice_sim choice fin s observed dup fc :
  settled s -> observed = m_finish_reason s.1 ->
  validate_choice choice observed dup fc = Ok fin ->
  wp_ok (apply_choice choice fin.1) (fun _ => settled) s.
Proof.
  intros Hs -> Hval.
  assert (m_finish_reason s.1 = None \/
    (fin.1 = None /\ none_or delta_is_empty (ch_delta choice) = true)) as Hcase.
  { unfold validate_choice in Hval. destruct (negb _); [done|].
    destruct (m_finish_reason s.1) as [o|]; [|by left]. right.
    destruct (ch_finish_reason choice); [|done]. destruct fc; [done|]. destruct dup; [done|].
    destruct (parse_finish_reason _); simpl in Hval; [|done].
    destruct (negb (bool_decide _)); [done|].
    destruct (none_or delta_is_empty (ch_delta choice)); simpl in Hval; [|done].
    by injection Hval as <-. }
  unfold apply_choice. wp_step.
  apply (wp_mono _ (fun _ s' => settled s' /\ m_finish_reason s'.1 = m_finish_reason s.1) _
           (fun _ _ => True) _); [| |done].
  - destruct (ch_delta choice) as [delta|]; [|by wp_step]. apply apply_delta_sim; [done|].
    destruct Hcase as [?|[_ ?]]; auto.
  - intros _ s' [Hs' Hf']. destruct fin.1 as [reason|]; [|by wp_step]. by apply apply_finish_sim.
Qed.

Lemma emit_start_sim s :
  J s -> finish_sim s.1 -> wp_ok emit_start
    (fun _ s' => settled s' /\ m_finish_reason s'.1 = m_finish_reason s.1 /\
       m_usage_details s'.1 = m_usage_details s.1) s.
Proof.
  destruct s as [m evs]. cbn. intros HJ Hfin. unfold emit_start. cm_step. cm_step.
  destruct (m_started m) eqn:Hst; [by cm_step|].
  cm_step. cm_step. cm_step. split; [|done]. split; [|done]. eapply J_events; [exact HJ|]. intros c Hs.
  pose proof Hs as []. eexists. split.
  - apply accept_one; [done|]. unfold accept. rewrite sm_done0. unfold accept_start.
    replace (c_started c || negb (c_next_content_index c =? 0)) with false; [reflexivity|].
    by rewrite sm_started0, Hst, (sm_fresh0 Hst).
  - split; cbn; try done. eapply blocks_sim_same; [|exact sm_blocks0]. by split_and!.
Qed.

(** Every usage event a program appends agrees with [D]. *)
Definition settles (evs : list AssistantEvent) : Prop :=
  forall d, DetailedUsage d ∈ evs -> d = D.

Lemma usage_event_sim m evs u :
  J (m, evs) -> ~ complete_usage (m_usage_details m) -> complete_usage (Some u) ->
  u = D -> forall us, J (set_m_usage (Some u) m, (evs ++ [Usage us]) ++ [DetailedUsage u]).
Proof.
  intros HJ Hnot Hyes -> us. rewrite <- app_assoc. eapply J_events; [exact HJ|].
  intros c Hs. pose proof Hs as [].
  assert (c_usage c = None) as Hnone.
  { destruct (c_usage c); [|done]. exfalso. eauto. }
  exists (set_usages (Some us) (Some D) c). split.
  - cbn [app accept_all]. unfold accept. rewrite sm_done0. unfold accept_usage. rewrite Hnone.
    cbn [mbind result_bind]. cbn [c_done set_usages]. rewrite sm_done0. unfold accept_detailed.
    cbn [c_usage_details set_usages].
    destruct sm_details0 as [-> | Hd]; [done|]. rewrite Hd, bool_decide_eq_true_2 by done.
    done.
  - split; cbn; try done; [|by right]. eapply blocks_sim_same; [|exact sm_blocks0]. by split_and!.
Qed.

Lemma detailed_event_sim m evs u :
  J (m, evs) -> (complete_usage (m_usage_details m) -> complete_usage (Some u)) ->
  u = D -> J (set_m_usage (Some u) m, evs ++ [DetailedUsage u]).
Proof.
  intros HJ Hmono ->. eapply J_events; [exact HJ|]. intros c Hs. pose proof Hs as [].
  exists (set_usages (c_usage c) (Some D) c). split.
  - apply accept_one; [done|]. unfold accept. rewrite sm_done0. unfold accept_detailed.
    destruct sm_details0 as [-> | Hd]; [done|]. rewrite Hd, bool_decide_eq_true_2 by done.
    f_equal. unfold set_usages. rewrite <- Hd. by destruct c.
  - split; cbn; try done; [|by intros Hu; apply Hmono, sm_usage0|by right]. eapply blocks_sim_same; [|exact sm_blocks0]. by split_and!.
Qed.

Lemma settles_app evs1 evs2 : settles (evs1 ++ evs2) -> settles evs1 /\ settles evs2.
Proof. unfold settles. intros H. split; intros d Hd; apply H, elem_of_app; auto. Qed.

Lemma apply_usage_sim usage s :
  settled s -> wp_ok (apply_usage usage) (fun _ s' => settles s'.2 -> settled s') s.
Proof.
  destruct s as [m evs]. intros (HJ & Hst & Hfin). cbn in *. unfold apply_usage.
  destruct usage as [u|]; [|by cm_step]. cm_step. cm_step. cm_step. cm_step.
  destruct (merge_usage_details (m_usage_details m) u) as [[merged outcome]|] eqn:Hm; [|done].
  cbn [map_err].
  assert (complete_usage (m_usage_details m) -> complete_usage (Some merged)) as Hmono.
  { destruct (m_usage_details m) as [prev|]; [|done]. simpl.
    apply merge_usage_join in Hm as (Hle & _). by apply usage_le_complete. }
  assert (match outcome with
          | Unchanged => m_usage_details m = Some merged \/ m_usage_details m = None
          | EmitP1 d => d = merged /\ ~ complete_usage (m_usage_details m) /\ complete_usage (Some merged)
          | EmitDetailed d => d = merged
          end) as Hout.
  { destruct (m_usage_details m) as [prev|]; simpl.
    - apply merge_usage_outcome in Hm.
      destruct Hm as [[-> ->]|[(_ & H1 & H2 & ->)|(_ & _ & ->)]]; [by left| |done].
      split_and!; [done|congruence|done].
    - apply merge_usage_first in Hm as (-> & _ & ->).
      destruct (has_complete_core u) eqn:Hc; [split_and!; [done|auto|done]|].
      destruct (has_any_known u); [done|by right]. }
  cm_step. destruct outcome as [|d|d]; cbn [mbind].
  - cm_step. cm_step. intros _. split_and!; [|done|done]. eapply J_silent; [exact HJ|]. intros c Hs.
    pose proof Hs as []. split; try done; [|by intros ?; apply Hmono, sm_usage0].
    eapply blocks_sim_same; [|exact sm_blocks0]. by split_and!.
  - destruct Hout as (-> & Hnot & Hyes). cm_step. cm_step.
    destruct (core_usage_from_details merged) as [us|]; [|done]. cbn [map_err]. cm_step. cm_step. cm_step.
    cm_step. intros Hset. split_and!; [|done|done]. apply usage_event_sim; try done.
    apply Hset. apply elem_of_app. right. by apply list_elem_of_singleton.
  - subst d. cm_step. cm_step. intros Hset. split_and!; [|done|done]. apply detailed_event_sim; try done.
    apply Hset. apply elem_of_app. right. by apply list_elem_of_singleton.
Qed.

(** Bookkeeping the collector never sees. *)
Lemma J_bookkeeping m evs f :
  J (m, evs) -> same_blocks m (f m) -> m_started (f m) = m_started m ->
  m_usage_details (f m) = m_usage_details m -> J (f m, evs).
Proof. intros HJ H1 H2 H3. eapply J_silent; [exact HJ|]. intros c Hs. by eapply sim_same. Qed.

Lemma observe_identity_sim g r s :
  J s -> finish_sim s.1 ->
  wp_ok (_ ← observe_generation g; observe_model r)
    (fun _ s' => J s' /\ finish_sim s'.1 /\ m_finish_reason s'.1 = m_finish_reason s.1) s.
Proof.
  intros HJ Hfin. cm_step.
  apply (wp_mono _ (fun _ s' => J s' /\ finish_sim s'.1 /\ m_finish_reason s'.1 = m_finish_reason s.1) _
           (fun _ _ => True) _); [| |done].
  - unfold observe_generation. destruct g as [raw|]; [|by cm_step]. cm_step. cm_step. cm_step. cm_step.
    destruct (map_err _ _); [|done]. cm_step. cm_step. intros _. cm_step.
    destruct s as [m evs]. split_and!; [|done|done]. by apply (J_bookkeeping m evs (fun m => set_m_identity _ _ m)).
  - intros _ [m evs] (HJ' & Hfin' & Hf'). unfold observe_model. destruct r as [model|]; [|by cm_step].
    cm_step. cm_step. cm_step. cm_step. intros _. cm_step. cm_step. intros _. cm_step.
    split_and!; [|done|done]. by apply (J_bookkeeping m evs (fun m => set_m_identity _ _ m)).
Qed.

(** One chunk. *)
Lemma accept_chunk_sim chunk m evs :
  J (m, evs) -> finish_sim m ->
  wp_ok (accept_chunk chunk) (fun _ s' => settles s'.2 -> J s' /\ finish_sim s'.1) (m, evs).
Proof.
  intros HJ Hfin. unfold accept_chunk. cm_step. cm_step. cm_step. cm_step.
  destruct (validate_inline_error _ _); [|done]. cm_step. cm_step. intros _. cm_step. cm_step.
  destruct (prepared_validate _ _ _ _ _) as [prep|] eqn:Hprep; [|done]. cm_step. cm_step. intros _.
  cm_step. cm_step.
  assert (J (record_unknown_fields chunk m, evs)) as HJ1 by by apply J_bookkeeping.
  apply wp_bind_assoc.
  eapply wp_bind. eapply wp_mono; [by apply observe_identity_sim| |done].
  intros _ s2 (HJ2 & Hfin2 & Hf2). cbn in Hf2. cm_step.
  eapply wp_mono; [by apply emit_start_sim| |done].
  intros _ s3 (Hs3 & Hf3 & _). cm_step.
  apply (wp_mono _ (fun _ => settled) _ (fun _ _ => True) _); [| |done].
  - unfold prepared_validate in Hprep. destruct (ck_choices chunk) as [|choice [|]]; [by cm_step| |done].
    destruct (validate_choice _ _ _ _) as [fin|] eqn:Hval; simpl in Hprep; [|done].
    assert (pc_finish_reason prep = fin.1) as ->.
    { destruct fin. destruct (match ck_usage chunk with Some _ => _ | None => _ end); simpl in Hprep; [|done].
      by injection Hprep as <-. }
    eapply apply_choice_sim; [done| |exact Hval]. congruence.
  - intros ? s4 Hs4. cm_step.
    apply (wp_mono _ (fun _ => settled) _ (fun _ _ => True) _); [| |done].
    + destruct (pc_duplicate_finish prep); cm_step; [|done]. destruct s4 as [m4 evs4].
      destruct Hs4 as (HJ4 & Hst4 & Hfin4). split_and!; try done. by apply J_bookkeeping.
    + intros ? s5 Hs5. eapply wp_mono; [by apply apply_usage_sim| |done].
      intros ? s6 Hs6 Hset. by destruct (Hs6 Hset) as (? & _ & ?).
Qed.
End Simulation.
