(* ===== verification/ChatSpec.v ===== *)
(** * What streams successfully can be collected

    The Chat machine as an instance of the driver's machine interface, and the
    end-to-end statements: a response that the machine streams without error
    is a transcript the collector accepts, with the structured value the
    machine validated; and the one case in which the two components disagree. *)
From S2P Require Import Prelude Errors Usage Sse SseStream Domain Structured Collector Schema SchemaSpec.
From S2P Require Import CollectorSpec Pipeline ChatWire ToolCalls ChatMachine ChatSim.
Import ContentBlockState AssistantEvent.

#[global] Instance chat_machine {JS : JsonSyntax} {JP : JsonPrinter} {SE : SchemaEngine}
    {CS : ChunkSyntax} : SseEventMachine ChatStateMachine :=
  {| accept_event := machine_accept; finish_events := machine_finish |}.

Definition decode_openai_chat_stream_with_policy (context : OpenAiChatStreamContext)
    (format : ResponseFormat) (sse : SseConfig) (limits : ResponseLimits) (compat : ResponseCompat)
  : SseMachineStream ChatStateMachine :=
  stream_new sse (new_with_format context format limits compat).

Section Frame.
Context {JS : JsonSyntax} {JP : JsonPrinter} {SE : SchemaEngine} {CS : ChunkSyntax}.
Context (F : ResponseFormat) (L : SchemaLimits).

(** A chunk never changes the validation settings of the terminal, keeps
    buffering the text that will be validated, and does not end the stream. *)
Definition keeps (m : ChatStateMachine) : Prop :=
  st_format (m_terminal m) = F /\ st_limits (m_terminal m) = L /\
  (F <> FText -> is_Some (st_text_buffer (m_terminal m))) /\ m_seen_done m = false.
Abbreviation K := (fun s : ChatStateMachine * list AssistantEvent => keeps s.1).

Lemma wp_on_tools_any {A} (c : M ToolCallAccumulator LlmError A) (Q : A -> _ -> Prop) s :
  (forall a t, Q a (set_m_tools t s.1, s.2)) -> wp_ok (on_tools c) Q s.
Proof. intros H. apply wp_zoom. unfold wp. destruct (c _) as [t [a|e]]; [apply H|done]. Qed.

Ltac frame_step :=
  lazymatch goal with
  | |- wp (on_tools _) _ _ _ => apply wp_on_tools_any; intros; cbn [fst snd]
  | |- wp (guard_err _ _) _ _ _ => apply wp_guard; [done|intros ?]
  | |- wp (lift ?r) _ _ _ => apply wp_lift; destruct r; [|exact I]
  | |- wp (match ?x with _ => _ end) _ _ _ => destruct x
  | |- _ => cm_step
  end.
Ltac frame := repeat (frame_step; cbv beta zeta); try done.

Lemma keeps_allocate (Q : Z -> _ -> Prop) s :
  (forall i, Q i (set_m_next (i + 1) s.1, s.2)) -> wp_ok allocate_content_index Q s.
Proof. intros H. apply allocate_spec. auto. Qed.

Lemma keeps_push_answer content m evs (Q : unit -> _ -> Prop) :
  keeps m -> (forall t, keeps (set_m_terminal t m) -> Q tt (set_m_terminal t m, evs)) ->
  wp_ok (on_terminal (push_answer_text content)) Q (m, evs).
Proof.
  intros (H1 & H2 & H3 & H4) HQ. apply wp_zoom. eapply wp_mono; [apply push_answer_text_ok| |done].
  intros [] t (Hb & Hf & Hl & _). cbn [fst] in *. apply HQ.
  unfold keeps. cbn [m_terminal set_m_terminal]. split_and!; [congruence|congruence| |done].
  intros Hne. rewrite Hb. destruct (H3 Hne) as [b Hbuf]. rewrite Hbuf. eauto.
Qed.

Lemma keeps_push_text content s : K s -> wp_ok (push_text content) (fun _ => K) s.
Proof.
  destruct s as [m evs]. cbn. intros HK. unfold push_text. frame_step. frame_step. frame_step. frame_step.
  destruct (m_text m); [|frame_step|by frame].
  - frame_step. apply keeps_allocate. intros i. frame_step. frame_step. frame_step. frame_step. frame_step.
    apply keeps_push_answer; [done|]. intros t Ht. by frame_step.
  - apply keeps_push_answer; [done|]. intros t Ht. by frame_step.
Qed.

Lemma keeps_push_refusal content s : K s -> wp_ok (push_refusal content) (fun _ => K) s.
Proof.
  destruct s as [m evs]. cbn. intros HK. unfold push_refusal.
  do 6 frame_step. destruct (m_refusal m); [|by frame..].
  frame_step. apply keeps_allocate. intros i. by frame.
Qed.

Lemma keeps_push_tool delta s : K s -> wp_ok (push_tool_delta delta) (fun _ => K) s.
Proof.
  destruct s as [m evs]. cbn. intros HK. unfold push_tool_delta.
  do 12 frame_step. frame_step. destruct a0.
  - frame_step. apply keeps_allocate. intros i. by frame.
  - by frame.
Qed.

Lemma keeps_apply_delta delta s : K s -> wp_ok (apply_delta delta) (fun _ => K) s.
Proof.
  intros HK. unfold apply_delta. wp_step. apply (wp_mono _ (fun _ => K) _ (fun _ _ => True) _); [| |done].
  { destruct (d_content delta) as [c|]; [destruct (str_is_empty c)|]; try by wp_step.
    by apply keeps_push_text. }
  intros ? s1 H1. wp_step. apply (wp_mono _ (fun _ => K) _ (fun _ _ => True) _); [| |done].
  { destruct (d_refusal delta) as [c|]; [destruct (str_is_empty c)|]; try by wp_step.
    by apply keeps_push_refusal. }
  intros ? s2 H2. destruct (d_tool_calls delta); [|by wp_step].
  apply wp_for_each; [|done]. intros x s' _. apply keeps_push_tool.
Qed.

Lemma keeps_close_text s : K s -> wp_ok close_text_if_open (fun _ => K) s.
Proof. destruct s as [m evs]. cbn. intros HK. unfold close_text_if_open. by frame. Qed.

Lemma keeps_finish_with s : K s -> wp_ok finish_with_tools (fun _ => K) s.
Proof.
  intros HK. unfold finish_with_tools. wp_step.
  eapply wp_mono; [by apply keeps_close_text| |done]. intros ? [m evs] H1. by frame.
Qed.

Lemma keeps_finish_without s : K s -> wp_ok finish_without_tools (fun _ => K) s.
Proof.
  destruct s as [m evs]. cbn. intros HK. unfold finish_without_tools.
  do 4 frame_step. frame_step; [unfold close_refusal; by frame|].
  frame_step; [by apply keeps_close_text|]. frame_step; [|by frame_step].
  frame_step. apply keeps_allocate. intros j. frame_step. frame_step. frame_step. frame_step.
  by apply keeps_close_text.
Qed.

Lemma keeps_apply_finish reason s : K s -> wp_ok (apply_finish reason) (fun _ => K) s.
Proof.
  intros HK. unfold apply_finish. do 5 frame_step.
  apply (wp_mono _ (fun _ => K) _ (fun _ _ => True) _); [| |done].
  - destruct reason; try (by frame);
      [by apply keeps_finish_without|by apply keeps_finish_without|by apply keeps_finish_with].
  - intros ? [m evs] H1. by frame_step.
Qed.

Lemma keeps_accept_chunk chunk s : K s -> wp_ok (accept_chunk chunk) (fun _ => K) s.
Proof.
  destruct s as [m evs]. cbn. intros HK. unfold accept_chunk. do 13 frame_step.
  assert (keeps (record_unknown_fields chunk m)) as HK1 by done.
  apply (wp_mono _ (fun _ => K) _ (fun _ _ => True) _); [| |done].
  { unfold observe_generation. by frame. }
  intros ? s1 H1. wp_step. apply (wp_mono _ (fun _ => K) _ (fun _ _ => True) _); [| |done].
  { unfold observe_model. destruct s1. by frame. }
  intros ? s2 H2. wp_step. apply (wp_mono _ (fun _ => K) _ (fun _ _ => True) _); [| |done].
  { unfold emit_start. destruct s2. by frame. }
  intros ? s3 H3. wp_step. apply (wp_mono _ (fun _ => K) _ (fun _ _ => True) _); [| |done].
  { destruct (ck_choices chunk) as [|choice]; [by wp_step|]. unfold apply_choice. wp_step.
    apply (wp_mono _ (fun _ => K) _ (fun _ _ => True) _); [| |done].
    - destruct (ch_delta choice); [by apply keeps_apply_delta|by wp_step].
    - intros ? s4 H4. destruct (pc_finish_reason a0); [by apply keeps_apply_finish|by wp_step]. }
  intros ? s4 H4. wp_step. apply (wp_mono _ (fun _ => K) _ (fun _ _ => True) _); [| |done].
  { destruct s4. by frame. }
  intros ? [m5 evs5] H5. unfold apply_usage. destruct (pc_usage a0); [|by wp_step].
  do 3 frame_step. apply wp_lift.
  destruct (map_err _ (merge_usage_details _ _)) as [[merged outcome]|]; [|done].
  frame_step. destruct outcome; by frame.
Qed.
End Frame.

(** ** Reading the final content *)
Lemma omap_none {A B} (f : A -> option B) (l : list A) :
  (forall x, x ∈ l -> f x = None) -> omap f l = [].
Proof.
  induction l as [|a l IH]; intros H; [done|]. cbn [omap list_omap].
  rewrite (H a) by set_solver. apply IH. set_solver.
Qed.

Lemma omap_at_most_one {A B} (f : A -> option B) (l : list A) :
  NoDup l -> (forall x y, x ∈ l -> y ∈ l -> is_Some (f x) -> is_Some (f y) -> x = y) ->
  forall x b, x ∈ l -> f x = Some b -> omap f l = [b].
Proof.
  induction 1 as [|a l Ha Hl IH]; intros Huniq x b Hx Hb; [by apply not_elem_of_nil in Hx|].
  assert (forall y, y ∈ l -> f a = None \/ f y = None) as Hex.
  { intros y Hy. destruct (f a) as [ba|] eqn:Ea; [|by left]. right.
    destruct (f y) as [by_|] eqn:Ey; [|done]. exfalso. apply Ha.
    rewrite (Huniq a y); [done|set_solver|set_solver|eauto|eauto]. }
  cbn [omap list_omap]. apply elem_of_cons in Hx as [->|Hx].
  - rewrite Hb. f_equal. apply omap_none. intros y Hy. destruct (Hex y Hy); congruence.
  - destruct (Hex x Hx) as [->|?]; [|congruence]. apply (IH ltac:(set_solver) x); done.
Qed.

Lemma omap_btree_values (content : gmap Z ContentPart) {B} (f : ContentPart -> option B) :
  omap f (btree_values content) = omap (fun k => content !! k ≫= f) (btree_keys content).
Proof.
  unfold btree_values. induction (btree_keys content) as [|k l IH]; [done|].
  cbn [omap list_omap]. destruct (content !! k) as [p|]; simpl; [|exact IH].
  by destruct (f p); [f_equal|].
Qed.

Lemma content_text_one content i s :
  content !! i = Some (PText s) ->
  (forall j k s t, content !! j = Some (PText s) -> content !! k = Some (PText t) -> j = k) ->
  str_concat (omap text_value (btree_values content)) = s.
Proof.
  intros Hi Huniq. rewrite omap_btree_values.
  assert (forall j, is_Some (content !! j ≫= text_value) -> exists t, content !! j = Some (PText t)) as Hinv.
  { intros j [t Ht]. destruct (content !! j) as [[]|]; naive_solver. }
  rewrite (omap_at_most_one _ _) with (x := i) (b := s); [apply str_app_nil_r|..].
  - rewrite btree_keys_perm. apply NoDup_elements.
  - intros j k _ _ [t Ht]%Hinv [t' Ht']%Hinv. eauto.
  - apply elem_of_btree_keys. eauto.
  - by rewrite Hi.
Qed.

Lemma content_text_none content :
  (forall i s, content !! i <> Some (PText s)) ->
  str_concat (omap text_value (btree_values content)) = EmptyString.
Proof.
  intros Hno. rewrite omap_btree_values, omap_none; [done|]. intros k _.
  destruct (content !! k) as [[]|] eqn:E; simpl; try done. by apply Hno in E.
Qed.

(** ** Runs *)
Section Runs.
Context {JS : JsonSyntax} {JP : JsonPrinter} {SE : SchemaEngine} {CS : ChunkSyntax}.
Context (F : ResponseFormat) (L : SchemaLimits) (D : UsageDetails).

Definition validated_done (m : ChatStateMachine) : Prop :=
  m_seen_done m = true -> exists r v, m_finish_reason m = Some r /\
    validate_structured_response F r (default EmptyString (st_text_buffer (m_terminal m)))
      (negb (acc_is_empty (m_tools m))) (negb (not_started (m_refusal m))) L = Ok v.

Definition run_inv (m : ChatStateMachine) (c : Collector) : Prop :=
  sim D m c /\ finish_sim m /\
  (st_format (m_terminal m) = F /\ st_limits (m_terminal m) = L /\
   (F <> FText -> is_Some (st_text_buffer (m_terminal m)))) /\
  validated_done m.

Lemma done_marker_sim m c :
  run_inv m c -> m_seen_done m = false ->
  wp_ok accept_done_marker (fun _ s' => s'.2 = [] /\ run_inv s'.1 c) (m, []).
Proof.
  intros (Hs & Hfin & (HF & HL & Hbuf) & _) Hnd. unfold accept_done_marker. cm_step. cm_step.
  destruct (m_finish_reason m) as [r|] eqn:Hr; [|by cm_step].
  cm_step. cm_step. intros Hopen. cm_step. cm_step.
  eapply wp_mono; [apply validate_before_done_ok| |done].
  intros _ t (_ & Hv & Hb & Hf & Hl & _ & v & Hval). cm_step. cbn [fst] in *.
  split; [done|]. split_and!.
  - eapply sim_same; [exact Hs|by split_and!|done|done].
  - done.
  - cbn. congruence.
  - cbn. congruence.
  - intros Hne. cbn. rewrite Hb. auto.
  - intros _. exists r, v. cbn. split; [done|]. rewrite Hb. by rewrite <- HF, <- HL.
Qed.

Lemma machine_accept_sim e m c m' evs :
  run_inv m c -> machine_accept e m = (m', Ok evs) -> settles D evs ->
  exists c', accept_all evs c = Ok c' /\ run_inv m' c'.
Proof.
  intros Hinv. unfold machine_accept.
  destruct (accept_program (ev_data e) (m, [])) as [[m1 evs1] [[]|]] eqn:Hrun; [|done].
  intros [= <- <-] Hset. unfold accept_program in Hrun.
  assert (forall (p : CM unit) Q, p (m, []) = ((m1, evs1), Ok tt) -> wp_ok p Q (m, []) -> Q tt (m1, evs1))
    as Huse.
  { intros p Q Hp Hwp. eapply wp_run_ok; eauto. }
  unfold mbind, M_bind in Hrun.
  change (self (m, [])) with ((m, [] : list AssistantEvent), @Ok LlmError _ m) in Hrun. cbv beta iota in Hrun.
  destruct (m_seen_done m) eqn:Hnd.
  { unfold throw in Hrun. by destruct (str_eqb (ev_data e) DONE_MARKER). }
  destruct (str_eqb (ev_data e) DONE_MARKER).
  - destruct (Huse _ _ Hrun (done_marker_sim m c Hinv Hnd)) as [Hnil Hinv']. cbn in *. subst.
    exists c. done.
  - cbn [lift] in Hrun. destruct (map_err json_failure (parse_chunk (ev_data e))) as [chunk|]; [|done].
    destruct Hinv as (Hs & Hfin & (HF & HL & Hbuf) & _).
    assert (J D c (m, [])) as HJ by (exists c; by split).
    pose proof (Huse _ _ Hrun (accept_chunk_sim D c chunk m [] HJ Hfin)) as Hsim.
    pose proof (Huse _ _ Hrun (keeps_accept_chunk F L chunk (m, [])
      (conj HF (conj HL (conj Hbuf Hnd))))) as (HF' & HL' & Hbuf' & Hnd').
    destruct (Hsim Hset) as [(c' & Hc' & Hs') Hfin']. exists c'. split; [exact Hc'|].
    split_and!; try done. intros Hd. cbn in *. congruence.
Qed.

(** The machine at its end: nothing is open, the finish reason is known. *)
Section Ended.
Context (m : ChatStateMachine) (c : Collector).
Hypothesis Hs : sim D m c.
Hypothesis Hopen : has_open_blocks m = false.

Lemma ended_calls w p : pending_by_wire_index (m_tools m) !! w = Some p -> pt_ended p = true.
Proof using Hopen.
  clear Hs.
  intros Hw. destruct (pt_ended p) eqn:E; [done|]. exfalso.
  assert (existsb (fun p => negb (pt_ended p))
    (btree_values (pending_by_wire_index (m_tools m))) = true) as Hex.
  { apply List.existsb_exists. exists p. split; [|by rewrite E].
    apply list_elem_of_In, elem_of_btree_values. eauto. }
  unfold has_open_blocks, has_open_calls in Hopen. rewrite Hex, !orb_true_r in Hopen. done.
Qed.

Lemma ended_open : c_open c = ∅.
Proof.
  apply map_empty. intros i. destruct (c_open c !! i) as [b|] eqn:E; [|done].
  pose proof Hopen as Hno. unfold has_open_blocks in Hno. rewrite !orb_false_iff in Hno.
  destruct Hno as [[Ht Hre] _]. destruct (bs_open_inv _ _ _ _ (sm_blocks _ _ _ Hs) i b E) as [E'|[E'|(w & p & Hw & He & _)]].
  - by rewrite E' in Ht.
  - by rewrite E' in Hre.
  - apply ended_calls in Hw. congruence.
Qed.

Lemma ended_tools :
  existsb is_tool_call (btree_values (c_content c)) = negb (acc_is_empty (m_tools m)).
Proof.
  apply eq_true_iff_eq. rewrite existsb_content, negb_true_iff. unfold acc_is_empty. split.
  - intros (i & p & Hi & Hp). destruct p; try done.
    apply (bs_content_tool _ _ _ _ (sm_blocks _ _ _ Hs)) in Hi. by destruct (order (m_tools m)).
  - destruct (order (m_tools m)) as [|w ws] eqn:E; [done|]. intros _.
    assert (is_Some (pending_by_wire_index (m_tools m) !! w)) as [p Hw].
    { apply (ao_order _ (sm_acc _ _ _ Hs)). rewrite E. set_solver. }
    destruct (bs_tool_ended _ _ _ _ (sm_blocks _ _ _ Hs) w p Hw (ended_calls w p Hw)) as (i & call & Hi).
    eauto.
Qed.

Lemma ended_refusal :
  existsb is_refusal (btree_values (c_content c)) = negb (not_started (m_refusal m)).
Proof.
  pose proof (sm_blocks _ _ _ Hs) as Hb.
  apply eq_true_iff_eq. rewrite existsb_content, negb_true_iff. split.
  - intros (i & p & Hi & Hp). destruct p; try done. apply (bs_content_refusal _ _ _ _ Hb) in Hi.
    by rewrite Hi.
  - intros Hns. destruct (m_refusal m) eqn:E; try done.
    + unfold has_open_blocks in Hopen. rewrite E, orb_true_r in Hopen. done.
    + destruct (bs_refusal_closed _ _ _ _ Hb E) as (i & s & Hi). eauto.
Qed.

(** The text the collector assembled is the text that was validated. *)
Lemma ended_text b :
  st_text_buffer (m_terminal m) = Some b ->
  str_concat (omap text_value (btree_values (c_content c))) = b.
Proof.
  intros Hb'. pose proof (sm_blocks _ _ _ Hs) as Hb. destruct (m_text m) as [|i|] eqn:Et.
  - rewrite content_text_none; [by rewrite (bs_text_new _ _ _ _ Hb Et b Hb')|].
    intros i s Hi. apply (bs_content_text _ _ _ _ Hb) in Hi as [? _]. congruence.
  - unfold has_open_blocks in Hopen. by rewrite Et in Hopen.
  - destruct (bs_text_closed _ _ _ _ Hb Et) as (i & s & Hi).
    rewrite (content_text_one _ i s Hi); [|apply (bs_content_text_uniq _ _ _ _ Hb)].
    apply (bs_content_text _ _ _ _ Hb) in Hi as [_ Hok]. by rewrite (Hok b Hb').
Qed.
Context (r : FinishReason).
Hypothesis Hfin : finish_sim m.
Hypothesis Hr : m_finish_reason m = Some r.

Lemma ended_agrees : bool_decide (r = FinishReason.ToolCalls) = has_tool_call (c_content c).
Proof.
  unfold has_tool_call. rewrite ended_tools. pose proof Hfin as Hf. unfold finish_sim in Hf.
  rewrite Hr in Hf. unfold acc_is_empty. destruct r; try done; cbn in Hf.
  - by destruct Hf as [-> _].
  - by destruct Hf as [-> _].
  - by destruct (order (m_tools m)).
Qed.

Lemma ended_content : c_content c <> ∅.
Proof.
  intros E. pose proof (sm_blocks _ _ _ Hs) as Hb. pose proof ended_agrees as Hagree.
  unfold has_tool_call in Hagree. rewrite E in Hagree. cbn in Hagree.
  pose proof Hfin as Hf. unfold finish_sim in Hf. rewrite Hr in Hf.
  assert (m_text m = Closed \/ m_refusal m = Closed) as [Hc|Hc].
  { destruct r; try done; tauto. }
  - destruct (bs_text_closed _ _ _ _ Hb Hc) as (i & s & Hi). by rewrite E in Hi.
  - destruct (bs_refusal_closed _ _ _ _ Hb Hc) as (i & s & Hi). by rewrite E in Hi.
Qed.

End Ended.

(** The collector once [Done] is accepted. *)
Lemma machine_finish_sim m c m' evs :
  run_inv m c -> machine_finish m = (m', Ok evs) ->
  exists c' msg v, accept_all evs c = Ok c' /\ finish c' = Ok msg /\
    validate_structured_response F (am_finish_reason msg) (am_text msg)
      (existsb is_tool_call (am_content msg)) (existsb is_refusal (am_content msg)) L = Ok v.
Proof.
  intros (Hs & Hfin & (HF & HL & Hbuf) & Hval). unfold machine_finish. intros [= <- Hev].
  destruct (m_seen_done m) eqn:Hnd; [|done]. cbn [negb] in Hev.
  destruct (Hval Hnd) as (r & v & Hr & Hv).
  destruct (negb (st_validated _)); [done|]. destruct (has_open_blocks m) eqn:Hopen; [done|].
  rewrite Hr in Hev. injection Hev as <-. eexists _, _, v. split_and!.
  - apply accept_one; [by destruct Hs|]. unfold accept. rewrite (sm_done _ _ _ Hs). unfold accept_done.
    rewrite bool_decide_eq_true_2 by (by apply (ended_open m c)). cbn [negb].
    rewrite bool_decide_eq_false_2 by (by apply (ended_content m c Hs Hopen r)).
    rewrite (ended_agrees m c Hs Hopen r), Bool.eqb_reflx by done. reflexivity.
  - unfold finish. cbn [c_done negb c_finish_reason]. reflexivity.
  - cbn [am_finish_reason am_text am_content c_content].
    rewrite (ended_tools m c), (ended_refusal m c) by done.
    destruct F as [| |sch] eqn:EF; [done|..];
      (destruct Hbuf as [b Hb]; [done|]; rewrite (ended_text m c Hs Hopen b Hb); rewrite Hb in Hv; done).
Qed.

Lemma machine_items_sim events : forall m c evs,
  run_inv m c -> machine_items m events = map Ok evs -> settles D evs ->
  exists c' msg v, accept_all evs c = Ok c' /\ finish c' = Ok msg /\
    validate_structured_response F (am_finish_reason msg) (am_text msg)
      (existsb is_tool_call (am_content msg)) (existsb is_refusal (am_content msg)) L = Ok v.
Proof.
  induction events as [|[ev|e] events IH]; intros m c evs Hinv Hitems Hset; cbn [machine_items] in Hitems.
  - cbn [finish_events chat_machine] in Hitems. destruct (machine_finish m) as [m' [evs'|e]] eqn:Hfin; [|by destruct evs as [|? []]].
    apply map_Ok_inj in Hitems as ->. by eapply machine_finish_sim.
  - cbn [accept_event chat_machine] in Hitems.
    destruct (machine_accept ev m) as [m1 [evs1|e]] eqn:Hacc; [|by destruct evs as [|? []]].
    destruct (map_Ok_app _ _ _ Hitems) as (evs2 & -> & Hrest).
    apply settles_app in Hset as [Hset1 Hset2].
    destruct (machine_accept_sim _ _ _ _ _ Hinv Hacc Hset1) as (c1 & Hc1 & Hinv1).
    destruct (IH m1 c1 evs2 Hinv1 Hrest Hset2) as (c' & msg & v & Hc' & Hf & Hv).
    exists c', msg, v. split_and!; [|done|done]. by rewrite accept_all_app, Hc1.
  - by destruct evs as [|? []].
Qed.

Lemma run_inv_new context limits compat :
  rl_max_tool_arguments_bytes limits < USIZE_MAX ->
  rl_max_all_tool_arguments_bytes limits < USIZE_MAX ->
  L = mk_schema_limits USIZE_MAX (rl_max_schema_depth limits) (rl_max_json_array_items limits) ->
  run_inv (new_with_format context F limits compat) collector_default.
Proof.
  intros H1 H2 ->. split_and!; try done; [|intros HF; cbn; destruct F; (done || by eexists)].
  split; cbn; try done.
  - split; cbn; try done. intros _ t Ht. cbn in Ht. by destruct F; simplify_eq.
  - intros w. rewrite lookup_empty. split; [set_solver|by intros []].
  - by apply accumulator_new_ok.
  - by left.
Qed.
End Runs.

(** ** The end-to-end statements *)

(** The limits the stream validates structured output under. *)
Definition machine_schema_limits (limits : ResponseLimits) : SchemaLimits :=
  mk_schema_limits USIZE_MAX (rl_max_schema_depth limits) (rl_max_json_array_items limits).

Section EndToEnd.
Context {JS : JsonSyntax} {JP : JsonPrinter} {SE : SchemaEngine} {CS : ChunkSyntax}.
Context {SEM : SchemaEngineMono}.

(** The request's limits are at least as strict as the official ones. *)
Definition limits_tighten (limits : ResponseLimits) : Prop :=
  rl_max_schema_depth limits <= max_schema_depth official /\
  rl_max_json_array_items limits <= max_json_array_items official.

Lemma validate_structured_tighten format limits finish text has_tool has_refusal v :
  limits_tighten limits ->
  validate_structured_response format finish text has_tool has_refusal
    (machine_schema_limits limits) = Ok v ->
  validate_structured_response format finish text has_tool has_refusal
    schema_limits_official = Ok v.
Proof.
  intros Ht. unfold validate_structured_response. destruct format as [| |s]; [done|done|].
  destruct (_ || _); [done|]. destruct has_refusal; [done|]. destruct finish; try done.
  destruct (from_str text) as [p|]; [|done].
  destruct (validate_instance _ p (machine_schema_limits limits)) as [[]|] eqn:Hv; [|done].
  by rewrite (validate_instance_mono _ _ (machine_schema_limits limits) schema_limits_official
                (proj1 Ht) (proj2 Ht) Hv).
Qed.

(** C9. Everything the Chat machine streams without an error can be
    collected: if every item of a Chat response is an event, and the usage
    snapshots among them agree, then the collector assembles a message from
    them, and its structured output validates, for every response format,
    under limits no larger than the official ones. *)
Theorem chat_stream_collects context format limits compat events evs D :
  rl_max_tool_arguments_bytes limits < USIZE_MAX ->
  rl_max_all_tool_arguments_bytes limits < USIZE_MAX ->
  limits_tighten limits ->
  machine_items (new_with_format context format limits compat) events = map Ok evs ->
  (forall d, DetailedUsage d ∈ evs -> d = D) ->
  exists msg, collect_assistant_message_for_format (map Ok evs) format = Ok msg.
Proof.
  intros H1 H2 Ht Hitems Hset.
  destruct (machine_items_sim format (machine_schema_limits limits) D events _ collector_default evs
              (run_inv_new _ _ _ context limits compat H1 H2 eq_refl) Hitems Hset)
    as (c & msg & v & Hc & Hf & Hv).
  exists (with_structured_output v msg). unfold collect_assistant_message_for_format.
  rewrite accept_items_all, Hc. cbn [mbind result_bind]. rewrite Hf. cbn [mbind result_bind].
  unfold validate_structured_output. by rewrite (validate_structured_tighten _ _ _ _ _ _ _ Ht Hv).
Qed.
End EndToEnd.

(** ** Concrete streams *)

(** Three responses as a deserializer of their texts sees them. *)
Definition answer_chunk (content finish : option string) (usage : option UsageWire)
  : ChatCompletionChunkWire :=
  mk_chunk (Some "gen-1") (Some "chat.completion.chunk") (Some "m-1")
    [mk_choice 0 (Some (mk_delta None content None None None [])) finish []] usage None [].
Definition partial_usage : UsageWire := mk_usage_wire (Some 7) None None None None [].
Definition complete_usage_wire : UsageWire :=
  mk_usage_wire (Some 7) (Some 3) (Some 10) None None [].

Definition sample_chunks (s : string) : result json_error ChatCompletionChunkWire :=
  if str_eqb s "text" then Ok (answer_chunk (Some "{}") None None)
  else if str_eqb s "text+usage" then Ok (answer_chunk (Some "{}") None (Some partial_usage))
  else if str_eqb s "stop+usage" then Ok (answer_chunk None (Some "stop") (Some complete_usage_wire))
  else Err (mk_json_error CatSyntax 1 0).
Definition sample_syntax (s : string) : result json_error json :=
  if str_eqb s "{}" then Ok (JObject []) else Err (mk_json_error CatSyntax 1 0).
Definition sample_printer (v : json) : result json_error string := Ok "{}".
#[global] Instance sample_values : JsonValues :=
  {| as_u64 _ := None; as_i64 _ := None; as_f64 _ := None; value_eqb _ _ := false |}.
Definition sample_engine : SchemaEngine := schema_engine (JP := sample_printer).
#[global] Instance sample_engine_mono : SchemaEngineMono (SE := sample_engine).
Proof. apply schema_engine_mono. Defined.
Definition sample_format : ResponseFormat :=
  FJsonSchema (mk_structured_schema "answer" None
    (mk_tool_schema (JObject [("type", JString "object")]) false) false).

Definition sample_event (data : string) : result SseError SseEvent :=
  Ok (mk_sse_event data None None None).
Definition sample_context : OpenAiChatStreamContext :=
  mk_context "local-1" None (mk_model_ref "openai" "m-1").
Definition sample_items (format : ResponseFormat) (texts : list string)
  : list (result LlmError AssistantEvent) :=
  machine_items (T := ChatStateMachine)
    (SM := chat_machine (JS := sample_syntax) (JP := sample_printer) (SE := sample_engine)
       (CS := sample_chunks))
    (new_with_format sample_context format sample_limits openai_chat_default)
    (map sample_event texts).

Definition sample_usage : UsageDetails :=
  mk_usage_details (Known 7) (Known 3) (Known 10) Unknown Unknown Unknown.

Lemma chat_stream_collects_witness : exists msg,
  collect_assistant_message_for_format (JS := sample_syntax) (SE := sample_engine)
    (map Ok [Start "local-1" None (Some "gen-1"); TextStart 0; TextDelta 0 "{}"; TextEnd 0;
       Usage (mk_usage 7 3 10); DetailedUsage sample_usage; Done FinishReason.Stop]) sample_format
  = Ok msg.
Proof.
  apply (chat_stream_collects (JS := sample_syntax) (JP := sample_printer) (SE := sample_engine)
    (CS := sample_chunks) sample_context sample_format sample_limits openai_chat_default
    (map sample_event ["text"; "stop+usage"; "[DONE]"]) _ sample_usage).
  - by vm_compute.
  - by vm_compute.
  - by split.
  - vm_compute. reflexivity.
  - intros d Hd. repeat (apply elem_of_cons in Hd as [Hd|Hd]; [by simplify_eq|]). by apply elem_of_nil in Hd.
Defined.

(** A provider that refines its usage report mid-stream produces a
    response in which every streamed item is an event, yet which cannot be
    collected: the machine sends one detailed usage snapshot per refinement
    and the collector rejects any two that differ. *)
Theorem refined_usage_not_collectable :
  let items := sample_items FText ["text+usage"; "stop+usage"; "[DONE]"] in
  forallb (fun item => match item with Ok _ => true | Err _ => false end) items = true /\
  collect_assistant_message (JS := sample_syntax) (SE := sample_engine) items =
    Err (protocol "conflicting DetailedUsage events").
Proof. vm_compute. done. Qed.
