(* ===== verification/Messages.v ===== *)
(** * The Anthropic Messages response machine:
    [src/src/protocol/anthropic_messages/response/machine.rs]

    The second protocol behind the SSE driver. A method that takes [&mut self]
    and returns events is a program over the machine; the events of a failed
    call are dropped with it, as in the source. *)
From S2P Require Import Prelude Errors Usage Sse Domain Structured Collector Pipeline ChatWire Schema.

(** ** Wire events: [wire.rs] *)
Module Wire.
Record UsageWire := mk_usage_wire {
  input_tokens : option Z; output_tokens : option Z; cache_creation_input_tokens : option Z;
  cache_read_input_tokens : option Z; thinking_tokens : option Z }.
Definition usage_default : UsageWire := mk_usage_wire None None None None None.

Record MessageStartWire := mk_message_start_wire {
  ms_id : string; ms_model : string; ms_usage : UsageWire }.
Record MessageStartEventWire := mk_message_start { mse_kind : string; mse_message : MessageStartWire }.

Inductive ContentBlockStartWire :=
| Text (text : string)
| ToolUse (id name : string) (input : json)
| Thinking (thinking : string)
| RedactedThinking (data : string)
| UnknownBlock.
Record ContentBlockStartEventWire := mk_block_start {
  bs_kind : string; bs_index : Z; bs_content_block : ContentBlockStartWire }.

Inductive ContentBlockDeltaWire :=
| TextDelta (text : string)
| InputJsonDelta (partial_json : string)
| ThinkingDelta (thinking : string)
| SignatureDelta (signature : string)
| UnknownDelta.
Record ContentBlockDeltaEventWire := mk_block_delta {
  bd_kind : string; bd_index : Z; bd_delta : ContentBlockDeltaWire }.

Record IndexedEventWire := mk_indexed { ix_kind : string; ix_index : Z }.
Record MessageDeltaWire := mk_message_delta_wire {
  md_stop_reason : option string; md_stop_sequence : option string }.
Record MessageDeltaEventWire := mk_message_delta {
  mde_kind : string; mde_delta : MessageDeltaWire; mde_usage : UsageWire }.
Record TypeOnlyEventWire := mk_type_only { to_kind : string }.
Record ErrorWire := mk_error_wire { er_kind : string; er_message : string }.
Record ErrorEventWire := mk_error_event { ee_kind : string; ee_error : ErrorWire }.
End Wire.

(** [serde_json::from_str] at the wire types, and the [Display] of a value. *)
Class MessagesSyntax := {
  parse_message_start : string -> result json_error Wire.MessageStartEventWire;
  parse_block_start : string -> result json_error Wire.ContentBlockStartEventWire;
  parse_block_delta : string -> result json_error Wire.ContentBlockDeltaEventWire;
  parse_indexed : string -> result json_error Wire.IndexedEventWire;
  parse_message_delta : string -> result json_error Wire.MessageDeltaEventWire;
  parse_type_only : string -> result json_error Wire.TypeOnlyEventWire;
  parse_error : string -> result json_error Wire.ErrorEventWire;
  display : json -> string }.

(** ** The machine *)
Definition MAX_CONTENT_BLOCKS : Z := 4096.
Definition MAX_STREAM_EVENTS : Z := 100000.
Definition MAX_OPAQUE_THINKING_BYTES : Z := 4 * 1024 * 1024.
Definition MAX_EVENT_TYPE_BYTES : Z := 128.

Module Phase.
Inductive t := AwaitMessageStart | StreamingMessage | AwaitMessageStop | Terminal.
End Phase.
#[global] Instance Phase_eq_dec : EqDecision Phase.t.
Proof. solve_decision. Defined.

Inductive BlockState :=
| BText (index : Z)
| BToolUse (index : Z) (id name arguments : string)
| BThinking (index : Z) (signature : string)
| BRedacted (index : Z) (data : string)
| BUnsupported.

Inductive AnthropicUsageCompat := StrictStableFields | AllowMonotonicStableFields.

Record AnthropicMessagesStreamContext := mk_messages_context {
  ax_local_request_id : string; ax_provider_request_id : option string;
  ax_source : SourceIdentity }.

Record MessagesStateMachine := mk_messages_machine {
  a_context : AnthropicMessagesStreamContext;
  a_limits : ResponseLimits;
  a_phase : Phase.t;
  a_blocks : gmap Z BlockState;
  a_blocks_started : Z;
  a_events_seen : Z;
  a_next_content_index : Z;
  a_tool_calls : Z;
  a_all_tool_argument_bytes : Z;
  a_terminal : StructuredTerminal;
  a_answer_text_bytes : Z;
  a_thinking_text_bytes : Z;
  a_opaque_thinking_bytes : Z;
  a_usage_snapshot : option Wire.UsageWire;
  a_usage_compat : AnthropicUsageCompat;
  a_usage_emitted : bool;
  a_finish_reason : option FinishReason;
  a_generation_id : option string }.

Definition messages_new (context : AnthropicMessagesStreamContext) (format : ResponseFormat)
    (limits : ResponseLimits) (usage_compat : AnthropicUsageCompat) : MessagesStateMachine :=
  mk_messages_machine context limits Phase.AwaitMessageStart ∅ 0 0 0 0 0
    (structured_terminal_new format schema_limits_official (rl_max_structured_output_bytes limits))
    0 0 0 None usage_compat false None None.

(** Field assignments. *)
Definition set_a_phase v m := mk_messages_machine (a_context m) (a_limits m) v (a_blocks m)
  (a_blocks_started m) (a_events_seen m) (a_next_content_index m) (a_tool_calls m)
  (a_all_tool_argument_bytes m) (a_terminal m) (a_answer_text_bytes m) (a_thinking_text_bytes m)
  (a_opaque_thinking_bytes m) (a_usage_snapshot m) (a_usage_compat m) (a_usage_emitted m)
  (a_finish_reason m) (a_generation_id m).
Definition set_a_blocks v m := mk_messages_machine (a_context m) (a_limits m) (a_phase m) v
  (a_blocks_started m) (a_events_seen m) (a_next_content_index m) (a_tool_calls m)
  (a_all_tool_argument_bytes m) (a_terminal m) (a_answer_text_bytes m) (a_thinking_text_bytes m)
  (a_opaque_thinking_bytes m) (a_usage_snapshot m) (a_usage_compat m) (a_usage_emitted m)
  (a_finish_reason m) (a_generation_id m).
Definition set_a_blocks_started v m := mk_messages_machine (a_context m) (a_limits m) (a_phase m)
  (a_blocks m) v (a_events_seen m) (a_next_content_index m) (a_tool_calls m)
  (a_all_tool_argument_bytes m) (a_terminal m) (a_answer_text_bytes m) (a_thinking_text_bytes m)
  (a_opaque_thinking_bytes m) (a_usage_snapshot m) (a_usage_compat m) (a_usage_emitted m)
  (a_finish_reason m) (a_generation_id m).
Definition set_a_events_seen v m := mk_messages_machine (a_context m) (a_limits m) (a_phase m)
  (a_blocks m) (a_blocks_started m) v (a_next_content_index m) (a_tool_calls m)
  (a_all_tool_argument_bytes m) (a_terminal m) (a_answer_text_bytes m) (a_thinking_text_bytes m)
  (a_opaque_thinking_bytes m) (a_usage_snapshot m) (a_usage_compat m) (a_usage_emitted m)
  (a_finish_reason m) (a_generation_id m).
Definition set_a_next_content_index v m := mk_messages_machine (a_context m) (a_limits m) (a_phase
  m) (a_blocks m) (a_blocks_started m) (a_events_seen m) v (a_tool_calls m)
  (a_all_tool_argument_bytes m) (a_terminal m) (a_answer_text_bytes m) (a_thinking_text_bytes m)
  (a_opaque_thinking_bytes m) (a_usage_snapshot m) (a_usage_compat m) (a_usage_emitted m)
  (a_finish_reason m) (a_generation_id m).
Definition set_a_tool_calls v m := mk_messages_machine (a_context m) (a_limits m) (a_phase m)
  (a_blocks m) (a_blocks_started m) (a_events_seen m) (a_next_content_index m) v
  (a_all_tool_argument_bytes m) (a_terminal m) (a_answer_text_bytes m) (a_thinking_text_bytes m)
  (a_opaque_thinking_bytes m) (a_usage_snapshot m) (a_usage_compat m) (a_usage_emitted m)
  (a_finish_reason m) (a_generation_id m).
Definition set_a_all_tool_argument_bytes v m := mk_messages_machine (a_context m) (a_limits m)
  (a_phase m) (a_blocks m) (a_blocks_started m) (a_events_seen m) (a_next_content_index m)
  (a_tool_calls m) v (a_terminal m) (a_answer_text_bytes m) (a_thinking_text_bytes m)
  (a_opaque_thinking_bytes m) (a_usage_snapshot m) (a_usage_compat m) (a_usage_emitted m)
  (a_finish_reason m) (a_generation_id m).
Definition set_a_terminal v m := mk_messages_machine (a_context m) (a_limits m) (a_phase m)
  (a_blocks m) (a_blocks_started m) (a_events_seen m) (a_next_content_index m) (a_tool_calls m)
  (a_all_tool_argument_bytes m) v (a_answer_text_bytes m) (a_thinking_text_bytes m)
  (a_opaque_thinking_bytes m) (a_usage_snapshot m) (a_usage_compat m) (a_usage_emitted m)
  (a_finish_reason m) (a_generation_id m).
Definition set_a_answer_text_bytes v m := mk_messages_machine (a_context m) (a_limits m) (a_phase
  m) (a_blocks m) (a_blocks_started m) (a_events_seen m) (a_next_content_index m) (a_tool_calls m)
  (a_all_tool_argument_bytes m) (a_terminal m) v (a_thinking_text_bytes m)
  (a_opaque_thinking_bytes m) (a_usage_snapshot m) (a_usage_compat m) (a_usage_emitted m)
  (a_finish_reason m) (a_generation_id m).
Definition set_a_thinking_text_bytes v m := mk_messages_machine (a_context m) (a_limits m)
  (a_phase m) (a_blocks m) (a_blocks_started m) (a_events_seen m) (a_next_content_index m)
  (a_tool_calls m) (a_all_tool_argument_bytes m) (a_terminal m) (a_answer_text_bytes m) v
  (a_opaque_thinking_bytes m) (a_usage_snapshot m) (a_usage_compat m) (a_usage_emitted m)
  (a_finish_reason m) (a_generation_id m).
Definition set_a_opaque_thinking_bytes v m := mk_messages_machine (a_context m) (a_limits m)
  (a_phase m) (a_blocks m) (a_blocks_started m) (a_events_seen m) (a_next_content_index m)
  (a_tool_calls m) (a_all_tool_argument_bytes m) (a_terminal m) (a_answer_text_bytes m)
  (a_thinking_text_bytes m) v (a_usage_snapshot m) (a_usage_compat m) (a_usage_emitted m)
  (a_finish_reason m) (a_generation_id m).
Definition set_a_usage_snapshot v m := mk_messages_machine (a_context m) (a_limits m) (a_phase m)
  (a_blocks m) (a_blocks_started m) (a_events_seen m) (a_next_content_index m) (a_tool_calls m)
  (a_all_tool_argument_bytes m) (a_terminal m) (a_answer_text_bytes m) (a_thinking_text_bytes m)
  (a_opaque_thinking_bytes m) v (a_usage_compat m) (a_usage_emitted m) (a_finish_reason m)
  (a_generation_id m).
Definition set_a_usage_emitted v m := mk_messages_machine (a_context m) (a_limits m) (a_phase m)
  (a_blocks m) (a_blocks_started m) (a_events_seen m) (a_next_content_index m) (a_tool_calls m)
  (a_all_tool_argument_bytes m) (a_terminal m) (a_answer_text_bytes m) (a_thinking_text_bytes m)
  (a_opaque_thinking_bytes m) (a_usage_snapshot m) (a_usage_compat m) v (a_finish_reason m)
  (a_generation_id m).
Definition set_a_finish_reason v m := mk_messages_machine (a_context m) (a_limits m) (a_phase m)
  (a_blocks m) (a_blocks_started m) (a_events_seen m) (a_next_content_index m) (a_tool_calls m)
  (a_all_tool_argument_bytes m) (a_terminal m) (a_answer_text_bytes m) (a_thinking_text_bytes m)
  (a_opaque_thinking_bytes m) (a_usage_snapshot m) (a_usage_compat m) (a_usage_emitted m) v
  (a_generation_id m).
Definition set_a_generation_id v m := mk_messages_machine (a_context m) (a_limits m) (a_phase m)
  (a_blocks m) (a_blocks_started m) (a_events_seen m) (a_next_content_index m) (a_tool_calls m)
  (a_all_tool_argument_bytes m) (a_terminal m) (a_answer_text_bytes m) (a_thinking_text_bytes m)
  (a_opaque_thinking_bytes m) (a_usage_snapshot m) (a_usage_compat m) (a_usage_emitted m)
  (a_finish_reason m) v.

(** Programs over the machine. *)
Abbreviation AM := (M MessagesStateMachine LlmError).
Abbreviation events := (list AssistantEvent).
Definition on_terminal {A} (c : M StructuredTerminal LlmError A) : AM A :=
  zoom a_terminal set_a_terminal c.

Definition json_failure (e : json_error) : LlmError :=
  protocol_at_stage ErrorStage.Json
    ("Anthropic event JSON error at line " +:+ show (je_line e) +:+ " column "
     +:+ show (je_column e)).
Definition parsed {A} (r : result json_error A) : AM A := lift (map_err json_failure r).

Definition validate_kind (actual expected : string) : AM unit :=
  guard_err (negb (str_eqb actual expected))
    (protocol "Anthropic decoded event type does not match expected event").

Definition bounded_error_kind (value : string) : AM string :=
  _ ← guard_err (str_is_empty value || (MAX_EVENT_TYPE_BYTES <? str_len value)
                 || negb (str_all (fun b => is_ascii_alphanumeric b || Ascii.eqb b "_") value))
        (protocol "invalid Anthropic stream error type");
  mret value.
Definition bounded_finish_reason (value : string) : AM string :=
  _ ← guard_err (str_is_empty value || (MAX_EVENT_TYPE_BYTES <? str_len value)
                 || negb (str_all tool_name_byte value))
        (protocol "invalid Anthropic stop reason label");
  mret value.

Definition require_streaming (event : string) : AM unit :=
  m ← get;
  guard_err (negb (bool_decide (a_phase m = Phase.StreamingMessage)))
    (protocol ("Anthropic " +:+ event +:+ " is invalid in the current message phase")).

Definition allocate_content_index : AM Z :=
  m ← get;
  next ← lift (ok_or (u32_checked_add (a_next_content_index m) 1)
                 (protocol "Anthropic content index overflow"));
  _ ← modify (set_a_next_content_index next);
  mret (a_next_content_index m).

Definition source_identity : AM SourceIdentity :=
  m ← get;
  generation_id ← lift (ok_or (a_generation_id m)
                          (protocol "Anthropic thinking source omitted generation id"));
  id ← lift (map_err (fun _ => protocol "invalid Anthropic protocol identity")
               (ProtocolId_new "anthropic-messages"));
  let source := ax_source (a_context m) in
  mret (mk_source_identity (si_provider source) (si_model source) id (Some generation_id)).

Definition reserve_opaque_thinking (bytes : Z) : AM unit :=
  m ← get;
  next ← lift (ok_or (usize_checked_add (a_opaque_thinking_bytes m) bytes)
                 (protocol "Anthropic opaque thinking size overflow"));
  _ ← guard_err (MAX_OPAQUE_THINKING_BYTES <? next)
        (protocol "Anthropic opaque thinking exceeds resource limit");
  modify (set_a_opaque_thinking_bytes next).

Definition push_thinking (index : Z) (thinking : string) : AM events :=
  m ← get;
  next ← lift (ok_or (usize_checked_add (a_thinking_text_bytes m) (str_len thinking))
                 (protocol "Anthropic thinking text size overflow"));
  _ ← guard_err (rl_max_structured_output_bytes (a_limits m) <? next)
        (protocol "Anthropic thinking text exceeds resource limit");
  _ ← modify (set_a_thinking_text_bytes next);
  mret (if str_is_empty thinking then [] else [AssistantEvent.ThinkingDelta index thinking]).

(** ** Usage *)
Definition count_of (tokens : option Z) : TokenCount :=
  match tokens with Some n => Known n | None => Unknown end.
Definition usage_details (snapshot : Wire.UsageWire) : result LlmError UsageDetails :=
  input ←
    match Wire.input_tokens snapshot, Wire.cache_creation_input_tokens snapshot,
          Wire.cache_read_input_tokens snapshot with
    | Some input, Some write, Some read =>
        sum ← ok_or (value ← u64_checked_add input write; u64_checked_add value read)
                (protocol "Anthropic input usage overflow");
        Ok (Known sum)
    | _, _, _ => Ok Unknown
    end;
  let details := mk_usage_details input (count_of (Wire.output_tokens snapshot)) Unknown
                   (count_of (Wire.cache_read_input_tokens snapshot))
                   (count_of (Wire.cache_creation_input_tokens snapshot))
                   (count_of (Wire.thinking_tokens snapshot)) in
  _ ← map_err (fun _ => protocol "inconsistent Anthropic usage snapshot")
        (validate_relationships details);
  Ok details.

Definition merge_stable_count (previous next : option Z) (compat : AnthropicUsageCompat)
  : result LlmError (option Z) :=
  match previous, next with
  | Some before, Some after =>
      if (before <? after) && match compat with AllowMonotonicStableFields => true | _ => false end
      then Ok (Some after)
      else if negb (before =? after)
      then Err (protocol "Anthropic stable usage field changed within one stream")
      else Ok (Some before)
  | Some value, None | None, Some value => Ok (Some value)
  | None, None => Ok None
  end.
Definition merge_cumulative_count (previous next : option Z) : result LlmError (option Z) :=
  match previous, next with
  | Some before, Some after =>
      if after <? before
      then Err (protocol "Anthropic cumulative usage field decreased within one stream")
      else Ok (Some after)
  | None, Some after => Ok (Some after)
  | Some value, None => Ok (Some value)
  | None, None => Ok None
  end.
Definition merge_usage_snapshot (previous next : Wire.UsageWire) (compat : AnthropicUsageCompat)
  : result LlmError Wire.UsageWire :=
  input ← merge_stable_count (Wire.input_tokens previous) (Wire.input_tokens next) compat;
  output ← merge_cumulative_count (Wire.output_tokens previous) (Wire.output_tokens next);
  creation ← merge_stable_count (Wire.cache_creation_input_tokens previous)
               (Wire.cache_creation_input_tokens next) compat;
  read ← merge_stable_count (Wire.cache_read_input_tokens previous)
           (Wire.cache_read_input_tokens next) compat;
  thinking ← merge_cumulative_count (Wire.thinking_tokens previous) (Wire.thinking_tokens next);
  Ok (Wire.mk_usage_wire input output creation read thinking).

(** ** The event handlers *)
Section Machine.
Context {JS : JsonSyntax} {SE : SchemaEngine} {MS : MessagesSyntax}.

Definition push_text (index : Z) (text : string) : AM events :=
  m ← get;
  next ← lift (ok_or (usize_checked_add (a_answer_text_bytes m) (str_len text))
                 (protocol "Anthropic text size overflow"));
  _ ← guard_err (rl_max_structured_output_bytes (a_limits m) <? next)
        (protocol "Anthropic response text exceeds resource limit");
  _ ← modify (set_a_answer_text_bytes next);
  _ ← on_terminal (push_answer_text text);
  mret (if str_is_empty text then [] else [AssistantEvent.TextDelta index text]).

Definition message_start (wire : Wire.MessageStartEventWire) : AM events :=
  _ ← validate_kind (Wire.mse_kind wire) "message_start";
  m ← get;
  _ ← guard_err (negb (bool_decide (a_phase m = Phase.AwaitMessageStart)))
        (protocol "duplicate or late Anthropic message_start");
  let message := Wire.mse_message wire in
  _ ← guard_err (str_is_empty (Wire.ms_model message)
                 || has_boundary_whitespace (Wire.ms_model message))
        (protocol "invalid Anthropic response model identifier");
  generation_id ← lift (map_err (fun _ => protocol "invalid Anthropic generation id")
                          (GenerationId_new (Wire.ms_id message)));
  _ ← modify (set_a_generation_id (Some generation_id));
  _ ← modify (set_a_usage_snapshot (Some (Wire.ms_usage message)));
  _ ← modify (set_a_phase Phase.StreamingMessage);
  mret [AssistantEvent.Start (ax_local_request_id (a_context m))
          (ax_provider_request_id (a_context m)) (Some generation_id)].

(** The arms of [block_start]. *)
Definition start_text (text : string) : AM (events * BlockState) :=
  index ← allocate_content_index;
  deltas ← (if str_is_empty text then mret [] else push_text index text);
  mret (AssistantEvent.TextStart index :: deltas, BText index).

Definition start_tool_use (wire_index : Z) (raw_id raw_name : string) (input : json)
  : AM (events * BlockState) :=
  m ← get;
  _ ← guard_err (rl_max_tool_calls (a_limits m) <=? a_tool_calls m)
        (protocol "Anthropic tool call limit exceeded");
  id ← lift (map_err (fun _ => protocol "invalid Anthropic tool call id") (ToolCallId_new raw_id));
  name ← lift (map_err (fun _ => protocol "invalid Anthropic tool name") (ToolName_new raw_name));
  index ← allocate_content_index;
  let arguments :=
    match as_object input with Some [] => EmptyString | _ => display input end in
  let initial :=
    match as_object input with
    | Some [] => []
    | _ => [AssistantEvent.ToolCallDelta index wire_index None (Some (display input))]
    end in
  _ ← modify (set_a_tool_calls (a_tool_calls m + 1));
  total ← lift (ok_or (usize_checked_add (a_all_tool_argument_bytes m) (str_len arguments))
                  (protocol "Anthropic tool argument size overflow"));
  _ ← modify (set_a_all_tool_argument_bytes total);
  _ ← guard_err ((rl_max_tool_arguments_bytes (a_limits m) <? str_len arguments)
                 || (rl_max_all_tool_arguments_bytes (a_limits m) <? total))
        (protocol "Anthropic tool arguments exceed resource limit");
  mret (AssistantEvent.ToolCallStart index wire_index (Some id)
        :: AssistantEvent.ToolCallDelta index wire_index (Some name) None :: initial,
        BToolUse index id name arguments).

Definition start_thinking (thinking : string) : AM (events * BlockState) :=
  index ← allocate_content_index;
  deltas ← (if str_is_empty thinking then mret [] else push_thinking index thinking);
  mret (AssistantEvent.ThinkingStart index :: deltas, BThinking index EmptyString).

Definition start_redacted (data : string) : AM (events * BlockState) :=
  _ ← reserve_opaque_thinking (str_len data);
  index ← allocate_content_index;
  mret ([AssistantEvent.ThinkingStart index], BRedacted index data).

Definition block_start (wire : Wire.ContentBlockStartEventWire) : AM events :=
  _ ← validate_kind (Wire.bs_kind wire) "content_block_start";
  _ ← require_streaming "content_block_start";
  m ← get;
  _ ← guard_err (MAX_CONTENT_BLOCKS <=? a_blocks_started m)
        (protocol "Anthropic content block limit exceeded");
  _ ← guard_err (bool_decide (is_Some (a_blocks m !! Wire.bs_index wire)))
        (protocol "duplicate Anthropic content block index");
  r ← match Wire.bs_content_block wire with
      | Wire.Text text => start_text text
      | Wire.ToolUse id name input => start_tool_use (Wire.bs_index wire) id name input
      | Wire.Thinking thinking => start_thinking thinking
      | Wire.RedactedThinking data => start_redacted data
      | Wire.UnknownBlock => mret ([], BUnsupported)
      end;
  _ ← modify (fun m => set_a_blocks (<[Wire.bs_index wire := r.2]> (a_blocks m)) m);
  _ ← modify (fun m => set_a_blocks_started (a_blocks_started m + 1) m);
  mret r.1.

(** The arms of [block_delta] that change the block [w]. *)
Definition delta_input_json (w index : Z) (id name arguments partial_json : string) : AM events :=
  m ← get;
  next_one ← lift (ok_or (usize_checked_add (str_len arguments) (str_len partial_json))
                     (protocol "Anthropic tool argument size overflow"));
  next_all ← lift (ok_or (usize_checked_add (a_all_tool_argument_bytes m) (str_len partial_json))
                     (protocol "Anthropic tool argument size overflow"));
  _ ← guard_err ((rl_max_tool_arguments_bytes (a_limits m) <? next_one)
                 || (rl_max_all_tool_arguments_bytes (a_limits m) <? next_all))
        (protocol "Anthropic tool arguments exceed resource limit");
  _ ← modify (fun m => set_a_blocks
                (<[w := BToolUse index id name (arguments +:+ partial_json)]> (a_blocks m)) m);
  _ ← modify (set_a_all_tool_argument_bytes next_all);
  mret [AssistantEvent.ToolCallDelta index w None (Some partial_json)].

Definition delta_signature (w index : Z) (signature delta : string) : AM events :=
  m ← get;
  next ← lift (ok_or (usize_checked_add (str_len signature) (str_len delta))
                 (protocol "Anthropic thinking signature size overflow"));
  _ ← guard_err (MAX_OPAQUE_THINKING_BYTES <? next)
        (protocol "Anthropic thinking signature exceeds resource limit");
  total ← lift (ok_or (usize_checked_add (a_opaque_thinking_bytes m) (str_len delta))
                  (protocol "Anthropic opaque thinking size overflow"));
  _ ← guard_err (MAX_OPAQUE_THINKING_BYTES <? total)
        (protocol "Anthropic opaque thinking exceeds resource limit");
  _ ← modify (set_a_opaque_thinking_bytes total);
  _ ← modify (fun m => set_a_blocks
                (<[w := BThinking index (signature +:+ delta)]> (a_blocks m)) m);
  mret [].

Definition block_delta (wire : Wire.ContentBlockDeltaEventWire) : AM events :=
  _ ← validate_kind (Wire.bd_kind wire) "content_block_delta";
  _ ← require_streaming "content_block_delta";
  m ← get;
  let w := Wire.bd_index wire in
  match a_blocks m !! w with
  | None => throw (protocol "Anthropic content delta requires a matching block start")
  | Some block =>
      match block, Wire.bd_delta wire with
      | BText index, Wire.TextDelta text => push_text index text
      | BToolUse index id name arguments, Wire.InputJsonDelta partial_json =>
          delta_input_json w index id name arguments partial_json
      | BThinking index _, Wire.ThinkingDelta thinking => push_thinking index thinking
      | BThinking index signature, Wire.SignatureDelta delta =>
          delta_signature w index signature delta
      | BUnsupported, _ => mret []
      | _, Wire.UnknownDelta =>
          throw (protocol "unknown Anthropic delta cannot modify a known content block")
      | _, _ => throw (protocol "Anthropic content delta type does not match its open block")
      end
  end.

Definition stop_tool_use (index : Z) (id name arguments : string) : AM events :=
  let arguments := if str_is_empty arguments then "{}" else arguments in
  value ← lift (map_err (fun _ => protocol "Anthropic tool input is not complete valid JSON")
                  (from_str arguments));
  _ ← guard_err (negb (json_is_object value))
        (protocol "Anthropic tool input must be a JSON object");
  mret [AssistantEvent.ToolCallEnd index
          (mk_tool_call id name (mk_tool_arguments arguments value))].

Definition block_stop (wire : Wire.IndexedEventWire) : AM events :=
  _ ← validate_kind (Wire.ix_kind wire) "content_block_stop";
  _ ← require_streaming "content_block_stop";
  m ← get;
  match a_blocks m !! Wire.ix_index wire with
  | None => throw (protocol "Anthropic content block stop requires a matching start")
  | Some block =>
      _ ← modify (set_a_blocks (delete (Wire.ix_index wire) (a_blocks m)));
      match block with
      | BText index => mret [AssistantEvent.TextEnd index]
      | BThinking index signature =>
          if str_is_empty signature then mret [AssistantEvent.ThinkingEnd index]
          else
            source ← source_identity;
            mret [AssistantEvent.ThinkingOpaque index (mk_opaque (bytes_of signature) source false);
                  AssistantEvent.ThinkingEnd index]
      | BToolUse index id name arguments => stop_tool_use index id name arguments
      | BRedacted index data =>
          source ← source_identity;
          mret [AssistantEvent.ThinkingOpaque index (mk_opaque (bytes_of data) source true);
                AssistantEvent.ThinkingEnd index]
      | BUnsupported => mret []
      end
  end.

Definition stop_reason (raw : string) : AM FinishReason :=
  if str_eqb raw "end_turn" || str_eqb raw "stop_sequence" then mret FinishReason.Stop
  else if str_eqb raw "max_tokens" then mret FinishReason.Length
  else if str_eqb raw "tool_use" then mret FinishReason.ToolCalls
  else if str_eqb raw "pause_turn" then throw (LlmError.UnsupportedResponseSemantics "pause_turn")
  else if str_eqb raw "refusal" || str_eqb raw "model_context_window_exceeded"
  then throw (LlmError.UnknownFinishReason raw)
  else label ← bounded_finish_reason raw; throw (LlmError.UnknownFinishReason label).

Definition message_delta (wire : Wire.MessageDeltaEventWire) : AM events :=
  _ ← validate_kind (Wire.mde_kind wire) "message_delta";
  _ ← require_streaming "message_delta";
  m ← get;
  _ ← guard_err (negb (bool_decide (a_blocks m = ∅)))
        (protocol "Anthropic message_delta received before all content blocks stopped");
  merged ← lift (merge_usage_snapshot (default Wire.usage_default (a_usage_snapshot m))
                   (Wire.mde_usage wire) (a_usage_compat m));
  _ ← modify (set_a_usage_snapshot (Some merged));
  match Wire.md_stop_reason (Wire.mde_delta wire) with
  | None => mret []
  | Some raw =>
      reason ← stop_reason raw;
      _ ← guard_err (bool_decide (reason = FinishReason.ToolCalls) && (a_tool_calls m =? 0))
            (protocol "Anthropic tool_use stop reason requires a completed tool block");
      _ ← modify (set_a_finish_reason (Some reason));
      _ ← modify (set_a_phase Phase.AwaitMessageStop);
      details ← lift (usage_details merged);
      _ ← modify (set_a_usage_emitted (has_any_known details));
      mret (if has_any_known details then [AssistantEvent.DetailedUsage details] else [])
  end.

Definition message_stop (wire : Wire.TypeOnlyEventWire) : AM events :=
  _ ← validate_kind (Wire.to_kind wire) "message_stop";
  m ← get;
  _ ← guard_err (negb (bool_decide (a_phase m = Phase.AwaitMessageStop)))
        (protocol "Anthropic message_stop requires a completed message_delta");
  reason ← lift (ok_or (a_finish_reason m)
                   (protocol "Anthropic message_stop is missing a finish reason"));
  _ ← on_terminal (validate_before_done reason (0 <? a_tool_calls m) false);
  _ ← modify (set_a_phase Phase.Terminal);
  mret [].

Definition json_event_type (data : string) : AM string :=
  value ← parsed (from_str data);
  lift (ok_or (object ← as_object value; v ← obj_get object "type"; as_str v)
          (protocol "Anthropic event JSON omitted type")).

(** The dispatch of [accept] on the name of the event. *)
Definition dispatch (event_name data : string) : AM events :=
  if str_eqb event_name "message_start" then
    wire ← parsed (parse_message_start data); message_start wire
  else if str_eqb event_name "content_block_start" then
    wire ← parsed (parse_block_start data); block_start wire
  else if str_eqb event_name "content_block_delta" then
    wire ← parsed (parse_block_delta data); block_delta wire
  else if str_eqb event_name "content_block_stop" then
    wire ← parsed (parse_indexed data); block_stop wire
  else if str_eqb event_name "message_delta" then
    wire ← parsed (parse_message_delta data); message_delta wire
  else if str_eqb event_name "message_stop" then
    wire ← parsed (parse_type_only data); message_stop wire
  else if str_eqb event_name "ping" then
    wire ← parsed (parse_type_only data);
    _ ← validate_kind (Wire.to_kind wire) "ping";
    mret []
  else if str_eqb event_name "error" then
    wire ← parsed (parse_error data);
    _ ← validate_kind (Wire.ee_kind wire) "error";
    kind ← bounded_error_kind (Wire.er_kind (Wire.ee_error wire));
    m ← get;
    throw (LlmError.Protocol (with_provider_context
      (mk_protocol_error ErrorStage.Protocol "Anthropic stream returned a provider error" None None No)
      kind (ax_provider_request_id (a_context m))
      (if str_eqb kind "overloaded_error" then Maybe else No)))
  else mret [].

Definition messages_accept (event : SseEvent) : AM events :=
  m ← get;
  seen ← lift (ok_or (u64_checked_add (a_events_seen m) 1)
                 (protocol "Anthropic stream event count overflow"));
  _ ← modify (set_a_events_seen seen);
  _ ← guard_err (MAX_STREAM_EVENTS <? seen) (protocol "Anthropic stream event limit exceeded");
  _ ← guard_err (bool_decide (a_phase m = Phase.Terminal))
        (protocol "Anthropic event received after message_stop");
  event_name ← lift (ok_or (ev_event_type event)
                       (protocol "Anthropic SSE event is missing its event name"));
  _ ← guard_err (MAX_EVENT_TYPE_BYTES <? str_len event_name)
        (protocol "Anthropic SSE event name exceeds resource limit");
  json_type ← json_event_type (ev_data event);
  _ ← guard_err (negb (str_eqb event_name json_type))
        (protocol "Anthropic SSE event name does not match JSON event type");
  dispatch event_name (ev_data event).

Definition messages_finish : AM events :=
  m ← get;
  if bool_decide (a_phase m = Phase.Terminal) && st_validated (a_terminal m) then
    reason ← lift (ok_or (a_finish_reason m)
                     (protocol "Anthropic terminal is missing a finish reason"));
    mret [AssistantEvent.Done reason]
  else throw LlmError.TruncatedStream.

(** [impl SseEventMachine for MessagesStateMachine]. *)
#[global] Instance messages_machine : SseEventMachine MessagesStateMachine := {|
  accept_event e m := messages_accept e m;
  finish_events m := messages_finish m |}.
End Machine.

(** [decode_anthropic_messages_stream]. *)
Definition decode_anthropic_messages_stream (sse : SseConfig) (context : AnthropicMessagesStreamContext)
    (format : ResponseFormat) (limits : ResponseLimits) (usage : AnthropicUsageCompat)
  : SseMachineStream MessagesStateMachine :=
  stream_new sse (messages_new context format limits usage).
