(* ===== verification/MessagesSim.v ===== *)
(** * The Anthropic machine and the collector, event by event

    The relation between the open content blocks of [MessagesStateMachine] and
    the state of a [Collector] that has consumed the same transcript, and one
    lemma per event the machine streams: the collector accepts it and the
    relation is kept. [MessagesSpec] runs the handlers over it. *)
From S2P Require Import Prelude Errors Usage Sse Domain Structured Collector CollectorSpec Messages.
Import AssistantEvent.

(** ** Reading a transcript *)
Definition tool_id (e : AssistantEvent) : option string :=
  match e with ToolCallStart _ _ id => id | _ => None end.
Definition tool_wire (e : AssistantEvent) : option Z :=
  match e with ToolCallStart _ w _ => Some w | _ => None end.
Definition text_delta (e : AssistantEvent) : option string :=
  match e with TextDelta _ d => Some d | _ => None end.
Definition text_delta_index (e : AssistantEvent) : option Z :=
  match e with TextDelta i _ => Some i | _ => None end.
Definition tool_ids (evs : list AssistantEvent) : list string := omap tool_id evs.
Definition tool_wires (evs : list AssistantEvent) : list Z := omap tool_wire evs.
Definition answer_text (evs : list AssistantEvent) : string := str_concat (omap text_delta evs).

(** The input of every call was streamed, not left empty. *)
Definition inputs_streamed (evs : list AssistantEvent) : Prop :=
  forall pre i call post, evs = pre ++ ToolCallEnd i call :: post -> arguments_at pre i <> EmptyString.
(** Text blocks are streamed one after the other. *)
Definition text_in_order (evs : list AssistantEvent) : Prop :=
  StronglySorted Z.le (omap text_delta_index evs).

Record collectable (format : ResponseFormat) (evs : list AssistantEvent) : Prop := {
  co_ids : NoDup (tool_ids evs);
  co_wires : NoDup (tool_wires evs);
  co_inputs : inputs_streamed evs;
  co_blocks : block_starts evs <> [];
  co_finish : tool_wires evs <> [] -> Done FinishReason.ToolCalls ∈ evs;
  co_text : format = FText \/ text_in_order evs }.

Lemma omap_snoc {A B} (f : A -> option B) l x : omap f (l ++ [x]) = omap f l ++ option_list (f x).
Proof. rewrite omap_app. cbn. by destruct (f x). Qed.

(** ** The text the collector holds *)
Definition part_text (open : gmap Z OpenBlock) (content : gmap Z ContentPart) (i : Z) : string :=
  match open !! i with
  | Some (OText s) => s
  | _ => match content !! i with Some (PText s) => s | _ => EmptyString end
  end.
Definition texts (f : Z -> string) (n : nat) : string :=
  str_concat (map (fun k => f (Z.of_nat k)) (seq 0 n)).

Lemma texts_S f n : texts f (S n) = texts f n +:+ f (Z.of_nat n).
Proof.
  unfold texts. rewrite seq_S, map_app, str_concat_app. cbn. by rewrite str_app_nil_r.
Qed.

Lemma texts_ext f g n : (forall i, 0 <= i < Z.of_nat n -> f i = g i) -> texts f n = texts g n.
Proof.
  induction n as [|n IH]; intros H; [done|]. rewrite !texts_S, IH, H by (intros; lia || apply H; lia). done.
Qed.

Lemma texts_append f g n i d :
  0 <= i < Z.of_nat n -> (forall j, j <> i -> g j = f j) -> g i = f i +:+ d ->
  (forall j, i < j -> f j = EmptyString) -> texts g n = texts f n +:+ d.
Proof.
  induction n as [|n IH]; intros Hi Hne Hd Hz; [lia|]. rewrite !texts_S.
  destruct (decide (i = Z.of_nat n)) as [->|].
  - rewrite Hd, (texts_ext g f n); [by rewrite str_app_assoc|]. intros j Hj. apply Hne. lia.
  - rewrite IH, Hne, Hz by (done || lia). by rewrite !str_app_nil_r.
Qed.

Record text_rel (ordered : Prop) (evs : list AssistantEvent) (next : Z) (open : gmap Z OpenBlock)
    (content : gmap Z ContentPart) : Prop := {
  tr_source : forall i, part_text open content i <> EmptyString ->
    i ∈ omap text_delta_index evs;
  tr_total : ordered -> texts (part_text open content) (Z.to_nat next) = answer_text evs }.

Lemma text_rel_ext ordered evs e next next' open content open' content' :
  text_rel ordered evs next open content -> text_delta e = None -> 0 <= next ->
  (forall i, part_text open' content' i = part_text open content i) ->
  next' = next \/ (next' = next + 1 /\ part_text open content next = EmptyString) ->
  text_rel ordered (evs ++ [e]) next' open' content'.
Proof.
  intros [H1 H2] He Hpos Hext Hnext.
  assert (text_delta_index e = None) as Hi by by destruct e.
  split.
  - intros i. rewrite Hext, omap_snoc, Hi. cbn. rewrite app_nil_r. apply H1.
  - intros Ho. unfold answer_text. rewrite omap_snoc, He. cbn. rewrite app_nil_r.
    fold (answer_text evs). rewrite <- H2 by done. destruct Hnext as [->|[-> Hz]].
    + apply texts_ext. auto.
    + replace (Z.to_nat (next + 1)) with (S (Z.to_nat next)) by lia.
      rewrite texts_S, Z2Nat.id, Hext, Hz, str_app_nil_r by lia. apply texts_ext. auto.
Qed.

Lemma text_rel_delta ordered evs next open content i s d :
  text_rel ordered evs next open content -> 0 <= i < next -> open !! i = Some (OText s) ->
  (ordered -> forall j, j ∈ omap text_delta_index evs -> j <= i) ->
  text_rel ordered (evs ++ [TextDelta i d]) next (<[i := OText (s +:+ d)]> open) content.
Proof.
  intros [H1 H2] Hi Hs Hord.
  assert (forall j, j <> i -> part_text (<[i := OText (s +:+ d)]> open) content j
            = part_text open content j) as Hne.
  { intros j Hj. unfold part_text. by rewrite lookup_insert_ne. }
  split.
  - intros j. rewrite omap_snoc. cbn. rewrite elem_of_app, list_elem_of_singleton.
    destruct (decide (j = i)); [by right|]. rewrite Hne by done. auto.
  - intros Ho. unfold answer_text. rewrite omap_snoc. cbn. rewrite str_concat_app. cbn.
    rewrite str_app_nil_r. fold (answer_text evs). rewrite <- H2 by done.
    apply (texts_append _ _ _ i); [lia|done| |].
    + unfold part_text. by rewrite lookup_insert_eq, Hs.
    + intros j Hj. destruct (decide (part_text open content j = EmptyString)) as [|Hn]; [done|].
      apply H1, Hord in Hn; [lia|done].
Qed.

(** ** Blocks of the machine and of the collector *)
Definition block_index (b : BlockState) : option Z :=
  match b with
  | BText i | BToolUse i _ _ _ | BThinking i _ | BRedacted i _ => Some i
  | BUnsupported => None
  end.
Definition mirrors (w : Z) (b : BlockState) (o : OpenBlock) : Prop :=
  match b, o with
  | BText _, OText _ => True
  | BToolUse _ id name arguments, _ => o = OToolCall w (Some id) name arguments
  | (BThinking _ _ | BRedacted _ _), OThinking _ None => True
  | _, _ => False
  end.

Record blocks_rel (blocks : gmap Z BlockState) (open : gmap Z OpenBlock) : Prop := {
  br_open : forall w b i, blocks !! w = Some b -> block_index b = Some i ->
    exists o, open !! i = Some o /\ mirrors w b o;
  br_inj : forall w1 w2 b1 b2 i, blocks !! w1 = Some b1 -> blocks !! w2 = Some b2 ->
    block_index b1 = Some i -> block_index b2 = Some i -> w1 = w2;
  br_inv : forall i o, open !! i = Some o -> exists w b, blocks !! w = Some b /\ block_index b = Some i }.

Section BlocksRel.
Context (blocks : gmap Z BlockState) (open : gmap Z OpenBlock).
Hypothesis Hrel : blocks_rel blocks open.

Lemma blocks_rel_start w b i o :
  blocks !! w = None -> block_index b = Some i -> open !! i = None -> mirrors w b o ->
  blocks_rel (<[w := b]> blocks) (<[i := o]> open).
Proof.
  intros Hw Hb Hi Hm. destruct Hrel as [H1 H2 H3].
  assert (forall w' b', blocks !! w' = Some b' -> block_index b' <> Some i) as Hfresh.
  { intros w' b' Hw' Hb'. destruct (H1 _ _ _ Hw' Hb') as (o' & Ho' & _). congruence. }
  split.
  - intros w' b' i'. rewrite lookup_insert_Some. intros [[<- <-]|[Hne Hw']] Hb'.
    + rewrite Hb in Hb'. injection Hb' as <-. exists o. by rewrite lookup_insert_eq.
    + destruct (H1 _ _ _ Hw' Hb') as (o' & Ho' & Hm'). exists o'. split; [|done].
      rewrite lookup_insert_ne; [done|]. intros ->. by eapply Hfresh.
  - intros w1 w2 b1 b2 j. rewrite !lookup_insert_Some.
    intros [[<- <-]|[Hn1 Hw1]] [[<- <-]|[Hn2 Hw2]] Hb1 Hb2; [done| | |eauto].
    + exfalso. eapply Hfresh; [exact Hw2|congruence].
    + exfalso. eapply Hfresh; [exact Hw1|congruence].
  - intros j o'. rewrite lookup_insert_Some. intros [[<- <-]|[Hne Ho']].
    + exists w, b. by rewrite lookup_insert_eq.
    + destruct (H3 _ _ Ho') as (w' & b' & Hw' & Hb'). exists w', b'.
      rewrite lookup_insert_ne; [done|congruence].
Qed.

Lemma blocks_rel_update w b b' i o' :
  blocks !! w = Some b -> block_index b = Some i -> block_index b' = Some i -> mirrors w b' o' ->
  blocks_rel (<[w := b']> blocks) (<[i := o']> open).
Proof.
  intros Hw Hb Hb' Hm. destruct Hrel as [H1 H2 H3]. split.
  - intros w1 b1 j. rewrite lookup_insert_Some. intros [[<- <-]|[Hne Hw1]] Hb1.
    + rewrite Hb' in Hb1. injection Hb1 as <-. exists o'. by rewrite lookup_insert_eq.
    + rewrite lookup_insert_ne; [eauto|]. intros ->. by eapply Hne, H2.
  - intros w1 w2 b1 b2 j. rewrite !lookup_insert_Some.
    intros [[<- <-]|[Hn1 Hw1]] [[<- <-]|[Hn2 Hw2]] Hb1 Hb2; [done|..|eauto].
    + eapply (H2 _ _ _ _ j); [exact Hw|exact Hw2|congruence|congruence].
    + eapply (H2 _ _ _ _ j); [exact Hw1|exact Hw|congruence|congruence].
  - intros j o. rewrite lookup_insert_Some. intros [[<- <-]|[Hne Ho]].
    + exists w, b'. by rewrite lookup_insert_eq.
    + destruct (H3 _ _ Ho) as (w1 & b1 & Hw1 & Hb1). exists w1, b1.
      rewrite lookup_insert_ne; [done|]. intros ->. congruence.
Qed.

Lemma blocks_rel_end w b i :
  blocks !! w = Some b -> block_index b = Some i -> blocks_rel (delete w blocks) (delete i open).
Proof.
  intros Hw Hb. destruct Hrel as [H1 H2 H3]. split.
  - intros w1 b1 j. rewrite lookup_delete_Some. intros [Hne Hw1] Hb1.
    rewrite lookup_delete_ne; [eauto|]. intros ->. by eapply Hne, H2.
  - intros w1 w2 b1 b2 j. rewrite !lookup_delete_Some. intros [_ Hw1] [_ Hw2]. eauto.
  - intros j o. rewrite lookup_delete_Some. intros [Hne Ho].
    destruct (H3 _ _ Ho) as (w1 & b1 & Hw1 & Hb1). exists w1, b1.
    rewrite lookup_delete_ne; [done|]. intros ->. congruence.
Qed.

(** Blocks the collector never sees. *)
Lemma blocks_rel_hidden w b :
  blocks !! w = None -> block_index b = None -> blocks_rel (<[w := b]> blocks) open.
Proof.
  intros Hw Hb. destruct Hrel as [H1 H2 H3]. split.
  - intros w1 b1 j. rewrite lookup_insert_Some. intros [[<- <-]|[Hne Hw1]] Hb1; [congruence|eauto].
  - intros w1 w2 b1 b2 j. rewrite !lookup_insert_Some.
    intros [[<- <-]|[Hn1 Hw1]] [[<- <-]|[Hn2 Hw2]] Hb1 Hb2; [congruence..|eauto].
  - intros j o Ho. destruct (H3 _ _ Ho) as (w1 & b1 & Hw1 & Hb1). exists w1, b1.
    rewrite lookup_insert_ne; [done|congruence].
Qed.

Lemma blocks_rel_drop w b :
  blocks !! w = Some b -> block_index b = None -> blocks_rel (delete w blocks) open.
Proof.
  intros Hw Hb. destruct Hrel as [H1 H2 H3]. split.
  - intros w1 b1 j. rewrite lookup_delete_Some. intros [_ Hw1]. eauto.
  - intros w1 w2 b1 b2 j. rewrite !lookup_delete_Some. intros [_ Hw1] [_ Hw2]. eauto.
  - intros j o Ho. destruct (H3 _ _ Ho) as (w1 & b1 & Hw1 & Hb1). exists w1, b1.
    rewrite lookup_delete_ne; [done|congruence].
Qed.
End BlocksRel.

(** ** The simulation *)
Definition is_detailed (e : AssistantEvent) : bool :=
  match e with DetailedUsage _ => true | _ => false end.

(** Only a usage event sets the collected usage. *)
Lemma accept_keeps_details e c c' :
  accept e c = Ok c' -> is_detailed e = false -> c_usage_details c' = c_usage_details c.
Proof.
  unfold accept. destruct (c_done c); [done|]. intros Ha He.
  assert (forall i b c1 c2, start_block i b c1 = Ok c2 -> c_usage_details c2 = c_usage_details c1) as Hst.
  { intros i b c1 c2. unfold start_block. destruct (_ || _); [done|].
    destruct (ok_or _ _); [|done]. by intros [= <-]. }
  assert (forall i p c1 c2, end_block i p c1 = Ok c2 -> c_usage_details c2 = c_usage_details c1) as Hen.
  { intros i p c1 c2. unfold end_block. destruct (_ !! _); [done|]. by intros [= <-]. }
  destruct e; try done; try (by apply Hst in Ha);
    unfold accept_start, accept_text_delta, accept_text_end, accept_thinking_delta,
      accept_thinking_opaque, accept_thinking_end, accept_refusal_delta, accept_refusal_end,
      accept_tool_start, accept_tool_delta, accept_tool_end, accept_usage, accept_done in Ha;
    repeat (case_match; try done); simplify_eq; try done; try (by apply Hen in Ha); by apply Hst in Ha.
Qed.

Definition is_refusal_start (e : AssistantEvent) : bool :=
  match e with RefusalStart _ => true | _ => false end.

Section Sim.
(** [ordered]: whether the transcript keeps text blocks in order. *)
Context (ordered : Prop).

Record bsim (evs : list AssistantEvent) (blocks : gmap Z BlockState) (next tools : Z)
    (c : Collector) : Prop := {
  bm_collected : collected evs c;
  bm_text : text_rel ordered evs (c_next_content_index c) (c_open c) (c_content c);
  bm_done : c_done c = false;
  bm_started : c_started c = true;
  bm_next : c_next_content_index c = next;
  bm_rel : blocks_rel blocks (c_open c);
  bm_ids : c_tool_call_ids c = list_to_set (tool_ids evs);
  bm_wires : c_tool_wire_indexes c = list_to_set (tool_wires evs);
  bm_refusal : Forall (fun e => is_refusal_start e = false) evs;
  bm_usage : Forall (fun e => is_detailed e = false) evs -> c_usage_details c = None;
  bm_tools : 0 <= tools /\ (0 < tools <-> tool_wires evs <> []) }.

(** The events the machine streams before [Done]: one accepted event. *)
Lemma bsim_event evs blocks next tools c e c' blocks' next' tools' :
  bsim evs blocks next tools c -> accept e c = Ok c' ->
  is_refusal_start e = false -> c_done c' = false -> c_started c' = true ->
  c_next_content_index c' = next' -> blocks_rel blocks' (c_open c') ->
  text_rel ordered (evs ++ [e]) next' (c_open c') (c_content c') ->
  c_tool_call_ids c' = list_to_set (option_list (tool_id e)) ∪ c_tool_call_ids c ->
  c_tool_wire_indexes c' = list_to_set (option_list (tool_wire e)) ∪ c_tool_wire_indexes c ->
  tools' = tools + Z.of_nat (length (option_list (tool_wire e))) ->
  bsim (evs ++ [e]) blocks' next' tools' c'.
Proof.
  intros [H1 H2 H3 H4 H5 H6 H7 H8 H9 H11 H10] Ha He Hd Hs Hn Hr Ht Hid Hw Htools. split; try done.
  - by eapply accept_collected.
  - by subst next'.
  - rewrite Hid, H7. unfold tool_ids. rewrite omap_snoc, list_to_set_app_L. set_solver.
  - rewrite Hw, H8. unfold tool_wires. rewrite omap_snoc, list_to_set_app_L. set_solver.
  - apply Forall_app. split; [done|]. by constructor.
  - intros [Hev Hlast]%Forall_app. rewrite Forall_singleton in Hlast.
    rewrite (accept_keeps_details _ _ _ Ha Hlast). auto.
  - unfold tool_wires. rewrite omap_snoc. fold (tool_wires evs). destruct (tool_wire e); cbn in *.
    + split; [lia|]. split; [|lia]. intros _. by destruct (tool_wires evs).
    + rewrite app_nil_r. subst. rewrite Z.add_0_r. exact H10.
Qed.

Lemma bsim_ranges evs blocks next tools c :
  bsim evs blocks next tools c -> 0 <= next /\
  (forall i b, c_open c !! i = Some b -> 0 <= i < next) /\
  (forall i p, c_content c !! i = Some p -> 0 <= i < next) /\
  (forall i b, c_open c !! i = Some b -> c_content c !! i = None).
Proof.
  intros Hs. destruct (bm_collected _ _ _ _ _ Hs) as (Hb & _). rewrite <- (bm_next _ _ _ _ _ Hs).
  destruct Hb as [H0 _ Hdom Hdisj _ _ _]. split_and!; [done|..|exact Hdisj].
  - intros i b Hi. apply Hdom. eauto.
  - intros i p Hi. apply Hdom. eauto.
Qed.

Lemma bsim_fresh evs blocks next tools c :
  bsim evs blocks next tools c -> c_open c !! next = None /\ c_content c !! next = None.
Proof.
  intros Hs. destruct (bsim_ranges _ _ _ _ _ Hs) as (_ & Ho & Hc & _). split.
  - destruct (c_open c !! next) eqn:E; [|done]. apply Ho in E. lia.
  - destruct (c_content c !! next) eqn:E; [|done]. apply Hc in E. lia.
Qed.

Lemma bsim_find evs blocks next tools c w b i :
  bsim evs blocks next tools c -> blocks !! w = Some b -> block_index b = Some i ->
  exists o, c_open c !! i = Some o /\ mirrors w b o.
Proof. intros Hs. apply (br_open _ _ (bm_rel _ _ _ _ _ Hs)). Qed.

(** Silent steps of the machine. *)
Lemma bsim_silent evs blocks next tools c blocks' :
  bsim evs blocks next tools c -> blocks_rel blocks' (c_open c) -> bsim evs blocks' next tools c.
Proof. intros [] Hrel. by split. Qed.

Lemma bsim_initial l p g :
  exists c, accept (Start l p g) collector_default = Ok c /\ bsim [Start l p g] ∅ 0 0 c.
Proof.
  eexists. split; [reflexivity|]. split; try done.
  - by eapply (accept_collected [] (Start l p g) collector_default); [apply collected_default|].
  - by repeat constructor.
Qed.

(** *** Starts *)
Lemma accept_starts evs blocks next tools c o :
  bsim evs blocks next tools c -> next + 1 <= U32_MAX ->
  start_block next o c = Ok (set_blocks (next + 1) (<[next := o]> (c_open c)) (c_content c) c).
Proof.
  intros Hs Hmax. destruct (bsim_ranges _ _ _ _ _ Hs) as (H0 & Ho & Hc & _).
  by apply start_block_fresh; [symmetry; apply (bm_next _ _ _ _ _ Hs)|..].
Qed.

Lemma text_rel_start evs e next open content o :
  text_rel ordered evs next open content -> text_delta e = None -> 0 <= next ->
  open !! next = None -> content !! next = None -> part_text {[next := o]} ∅ next = EmptyString ->
  text_rel ordered (evs ++ [e]) (next + 1) (<[next := o]> open) content.
Proof.
  intros Ht He H0 Ho Hc Hp. eapply text_rel_ext; [exact Ht|done|done| |].
  - intros i. unfold part_text. destruct (decide (i = next)) as [->|].
    + rewrite lookup_insert_eq, Ho, Hc. unfold part_text in Hp.
      rewrite lookup_singleton_eq, lookup_empty in Hp. by destruct o.
    + by rewrite lookup_insert_ne.
  - right. unfold part_text. by rewrite Ho, Hc.
Qed.

Lemma bsim_start evs blocks next tools c w b e o :
  bsim evs blocks next tools c -> next + 1 <= U32_MAX -> blocks !! w = None ->
  block_index b = Some next -> mirrors w b o ->
  (e = TextStart next /\ o = OText EmptyString) \/ (e = ThinkingStart next /\ o = OThinking EmptyString None) ->
  exists c', accept e c = Ok c' /\ bsim (evs ++ [e]) (<[w := b]> blocks) (next + 1) tools c'.
Proof.
  intros Hs Hmax Hw Hb Hm He. destruct (bsim_fresh _ _ _ _ _ Hs) as [Hno Hnc].
  destruct (bsim_ranges _ _ _ _ _ Hs) as (H0 & _).
  pose proof (accept_starts _ _ _ _ _ o Hs Hmax) as Hstart. eexists.
  assert (accept e c = Ok (set_blocks (next + 1) (<[next := o]> (c_open c)) (c_content c) c)) as Ha.
  { unfold accept. rewrite (bm_done _ _ _ _ _ Hs). destruct He as [[-> ->]|[-> ->]]; done. }
  split; [exact Ha|]. eapply bsim_event; [exact Hs|exact Ha|..];
    try (by destruct He as [[-> ->]|[-> ->]]); try (by destruct Hs).
  - apply blocks_rel_start; [by destruct Hs|done..].
  - pose proof (bm_text _ _ _ _ _ Hs) as Ht. rewrite (bm_next _ _ _ _ _ Hs) in Ht.
    apply text_rel_start; try done; [by destruct He as [[-> ->]|[-> ->]]|].
    unfold part_text. rewrite lookup_singleton_eq. by destruct He as [[-> ->]|[-> ->]].
  - destruct He as [[-> ->]|[-> ->]]; cbn; by rewrite union_empty_l_L.
  - destruct He as [[-> ->]|[-> ->]]; cbn; by rewrite union_empty_l_L.
  - destruct He as [[-> ->]|[-> ->]]; cbn; lia.
Qed.

(** *** Deltas *)

(** An event that replaces the open block [i] and nothing else. *)
Lemma bsim_replace evs blocks next tools c w b b' i e o o' :
  bsim evs blocks next tools c -> blocks !! w = Some b -> block_index b = Some i ->
  block_index b' = Some i -> c_open c !! i = Some o -> mirrors w b' o' ->
  accept e c = Ok (set_open (<[i := o']> (c_open c)) c) ->
  is_refusal_start e = false -> tool_id e = None -> tool_wire e = None ->
  text_rel ordered (evs ++ [e]) next (<[i := o']> (c_open c)) (c_content c) ->
  bsim (evs ++ [e]) (<[w := b']> blocks) next tools (set_open (<[i := o']> (c_open c)) c).
Proof.
  intros Hs Hw Hb Hb' Ho Hm Ha Hr Hid Hwire Ht.
  eapply bsim_event; [exact Hs|exact Ha|done|by destruct Hs|by destruct Hs|by destruct Hs|..].
  - eapply blocks_rel_update; [by destruct Hs|exact Hw|done..].
  - done.
  - rewrite Hid. cbn. by rewrite union_empty_l_L.
  - rewrite Hwire. cbn. by rewrite union_empty_l_L.
  - rewrite Hwire. cbn. lia.
Qed.

Lemma text_rel_keep evs e next open content i o o' :
  text_rel ordered evs next open content -> text_delta e = None -> 0 <= next ->
  open !! i = Some o -> (forall s, o <> OText s) -> (forall s, o' <> OText s) ->
  text_rel ordered (evs ++ [e]) next (<[i := o']> open) content.
Proof.
  intros Ht He H0 Hi Ho Ho'. eapply text_rel_ext; [exact Ht|done|done| |by left].
  intros j. unfold part_text. destruct (decide (j = i)) as [->|]; [|by rewrite lookup_insert_ne].
  rewrite lookup_insert_eq, Hi. destruct o, o'; try done; naive_solver.
Qed.

Lemma bsim_text_delta evs blocks next tools c w i d :
  bsim evs blocks next tools c -> blocks !! w = Some (BText i) ->
  (ordered -> forall j, j ∈ omap text_delta_index evs -> j <= i) ->
  exists c', accept (TextDelta i d) c = Ok c' /\ bsim (evs ++ [TextDelta i d]) blocks next tools c'.
Proof.
  intros Hs Hw Hord. destruct (bsim_find _ _ _ _ _ _ _ i Hs Hw eq_refl) as ([s| | |] & Ho & Hm); try done.
  exists (set_open (<[i := OText (s +:+ d)]> (c_open c)) c).
  assert (accept (TextDelta i d) c = Ok (set_open (<[i := OText (s +:+ d)]> (c_open c)) c)) as Ha.
  { unfold accept. rewrite (bm_done _ _ _ _ _ Hs). unfold accept_text_delta. by rewrite Ho. }
  split; [done|]. rewrite <- (insert_id blocks w (BText i) Hw).
  eapply bsim_replace; try done. pose proof (bm_text _ _ _ _ _ Hs) as Ht.
  rewrite (bm_next _ _ _ _ _ Hs) in Ht. destruct (bsim_ranges _ _ _ _ _ Hs) as (_ & Hr & _).
  apply text_rel_delta; eauto.
Qed.

Lemma bsim_thinking_delta evs blocks next tools c w i sig d :
  bsim evs blocks next tools c -> blocks !! w = Some (BThinking i sig) ->
  exists c', accept (ThinkingDelta i d) c = Ok c' /\
    bsim (evs ++ [ThinkingDelta i d]) blocks next tools c'.
Proof.
  intros Hs Hw. destruct (bsim_find _ _ _ _ _ _ _ i Hs Hw eq_refl) as ([|s [o|]| |] & Ho & Hm); try done.
  exists (set_open (<[i := OThinking (s +:+ d) None]> (c_open c)) c).
  assert (accept (ThinkingDelta i d) c
          = Ok (set_open (<[i := OThinking (s +:+ d) None]> (c_open c)) c)) as Ha.
  { unfold accept. rewrite (bm_done _ _ _ _ _ Hs). unfold accept_thinking_delta. by rewrite Ho. }
  split; [done|]. rewrite <- (insert_id blocks w _ Hw).
  eapply bsim_replace; try done. pose proof (bm_text _ _ _ _ _ Hs) as Ht.
  rewrite (bm_next _ _ _ _ _ Hs) in Ht. destruct (bsim_ranges _ _ _ _ _ Hs) as (H0 & _).
  by eapply text_rel_keep.
Qed.

Lemma bsim_tool_delta evs blocks next tools c w i id n a dn da :
  bsim evs blocks next tools c -> blocks !! w = Some (BToolUse i id n a) ->
  exists c', accept (ToolCallDelta i w dn da) c = Ok c' /\
    bsim (evs ++ [ToolCallDelta i w dn da]) (<[w := BToolUse i id (push_opt n dn) (push_opt a da)]> blocks)
      next tools c'.
Proof.
  intros Hs Hw. destruct (bsim_find _ _ _ _ _ _ _ i Hs Hw eq_refl) as (o & Ho & ->).
  set (o' := OToolCall w (Some id) (push_opt n dn) (push_opt a da)).
  exists (set_open (<[i := o']> (c_open c)) c).
  assert (accept (ToolCallDelta i w dn da) c = Ok (set_open (<[i := o']> (c_open c)) c)) as Ha.
  { unfold accept. rewrite (bm_done _ _ _ _ _ Hs). unfold accept_tool_delta. by rewrite Ho, Z.eqb_refl. }
  split; [done|]. eapply bsim_replace; try done. pose proof (bm_text _ _ _ _ _ Hs) as Ht.
  rewrite (bm_next _ _ _ _ _ Hs) in Ht. destruct (bsim_ranges _ _ _ _ _ Hs) as (H0 & _).
  by eapply text_rel_keep.
Qed.

(** *** Ends *)
Definition finished (i : Z) (p : ContentPart) (c : Collector) : Collector :=
  set_blocks (c_next_content_index c) (delete i (c_open c)) (<[i := p]> (c_content c)) c.

Lemma end_block_fresh i p c :
  c_content c !! i = None -> end_block i p (set_open (delete i (c_open c)) c) = Ok (finished i p c).
Proof. intros Hi. unfold end_block. cbn [c_content set_open set_blocks]. by rewrite Hi. Qed.

Lemma bsim_end evs blocks next tools c w b i e o p :
  bsim evs blocks next tools c -> blocks !! w = Some b -> block_index b = Some i ->
  c_open c !! i = Some o -> accept e c = Ok (finished i p c) ->
  is_refusal_start e = false -> tool_id e = None -> tool_wire e = None -> text_delta e = None ->
  match o with OText s => p = PText s | _ => forall s, p <> PText s end ->
  bsim (evs ++ [e]) (delete w blocks) next tools (finished i p c).
Proof.
  intros Hs Hw Hb Ho Ha Hr Hid Hwire Hd Hp. destruct (bsim_ranges _ _ _ _ _ Hs) as (H0 & _ & _ & Hdisj).
  eapply bsim_event; [exact Hs|exact Ha|done|by destruct Hs|by destruct Hs|by destruct Hs|..].
  - eapply blocks_rel_end; [by destruct Hs|exact Hw|done].
  - pose proof (bm_text _ _ _ _ _ Hs) as Ht. rewrite (bm_next _ _ _ _ _ Hs) in Ht.
    eapply text_rel_ext; [exact Ht|done|done| |by left]. intros j. unfold part_text.
    destruct (decide (j = i)) as [->|].
    + cbn. rewrite lookup_delete_eq, lookup_insert_eq, Ho. apply Hdisj in Ho. rewrite Ho.
      destruct o; [by subst p|..]; destruct p; try done; by edestruct Hp.
    + cbn. by rewrite lookup_delete_ne, lookup_insert_ne.
  - rewrite Hid. cbn. by rewrite union_empty_l_L.
  - rewrite Hwire. cbn. by rewrite union_empty_l_L.
  - rewrite Hwire. cbn. lia.
Qed.

Lemma bsim_text_end evs blocks next tools c w i :
  bsim evs blocks next tools c -> blocks !! w = Some (BText i) ->
  exists c', accept (TextEnd i) c = Ok c' /\ bsim (evs ++ [TextEnd i]) (delete w blocks) next tools c'.
Proof.
  intros Hs Hw. destruct (bsim_find _ _ _ _ _ _ _ i Hs Hw eq_refl) as ([s| | |] & Ho & Hm); try done.
  destruct (bsim_ranges _ _ _ _ _ Hs) as (_ & _ & _ & Hdisj).
  exists (finished i (PText s) c).
  assert (accept (TextEnd i) c = Ok (finished i (PText s) c)) as Ha.
  { unfold accept. rewrite (bm_done _ _ _ _ _ Hs). unfold accept_text_end. rewrite Ho.
    apply end_block_fresh. eauto. }
  split; [done|]. by eapply bsim_end.
Qed.

Lemma accept_thinking_closed evs blocks next tools c i s o :
  bsim evs blocks next tools c -> c_open c !! i = Some (OThinking s o) ->
  accept (ThinkingEnd i) c = Ok (finished i (PThinking
    (match o with Some o => with_opaque (thinking_new s) o | None => thinking_new s end)) c).
Proof.
  intros Hs Ho. destruct (bsim_ranges _ _ _ _ _ Hs) as (_ & _ & _ & Hdisj).
  unfold accept. rewrite (bm_done _ _ _ _ _ Hs). unfold accept_thinking_end. rewrite Ho.
  apply end_block_fresh. eauto.
Qed.

Lemma bsim_thinking_end evs blocks next tools c w b i :
  bsim evs blocks next tools c -> blocks !! w = Some b -> block_index b = Some i ->
  (forall o, mirrors w b o -> exists s, o = OThinking s None) ->
  exists c', accept (ThinkingEnd i) c = Ok c' /\
    bsim (evs ++ [ThinkingEnd i]) (delete w blocks) next tools c'.
Proof.
  intros Hs Hw Hb Hm. destruct (bsim_find _ _ _ _ _ _ _ i Hs Hw Hb) as (o & Ho & [s ->]%Hm).
  pose proof (accept_thinking_closed _ _ _ _ _ _ _ _ Hs Ho) as Ha.
  eexists. split; [exact Ha|]. by eapply bsim_end.
Qed.

(** The machine sends a block's opaque state right before its end. *)
Lemma bsim_opaque_end evs blocks next tools c w b i q :
  bsim evs blocks next tools c -> blocks !! w = Some b -> block_index b = Some i ->
  (forall o, mirrors w b o -> exists s, o = OThinking s None) ->
  exists c', accept_all [ThinkingOpaque i q; ThinkingEnd i] c = Ok c' /\
    bsim (evs ++ [ThinkingOpaque i q; ThinkingEnd i]) (delete w blocks) next tools c'.
Proof.
  intros Hs Hw Hb Hm. destruct (bsim_find _ _ _ _ _ _ _ i Hs Hw Hb) as (o & Ho & [s ->]%Hm).
  set (c1 := set_open (<[i := OThinking s (Some q)]> (c_open c)) c).
  assert (accept (ThinkingOpaque i q) c = Ok c1) as H1.
  { unfold accept. rewrite (bm_done _ _ _ _ _ Hs). unfold accept_thinking_opaque. by rewrite Ho. }
  destruct (bsim_ranges _ _ _ _ _ Hs) as (H0 & _ & _ & Hdisj).
  pose proof (Hdisj _ _ Ho) as Hci.
  set (p := PThinking (with_opaque (thinking_new s) q)).
  assert (accept (ThinkingEnd i) c1 = Ok (finished i p c1)) as H2.
  { unfold accept. change (c_done c1) with (c_done c). rewrite (bm_done _ _ _ _ _ Hs).
    unfold accept_thinking_end. cbn [c1 c_open set_open set_blocks]. rewrite lookup_insert_eq.
    by apply (end_block_fresh i p c1). }
  exists (finished i p c1). cbn [accept_all]. rewrite H1. cbn. rewrite H2. split; [done|].
  change [ThinkingOpaque i q; ThinkingEnd i] with ([ThinkingOpaque i q] ++ [ThinkingEnd i]).
  rewrite app_assoc.
  destruct Hs as [G1 G2 G3 G4 G5 G6 G7 G8 G9 G11 G10].
  assert (forall {B} (f : AssistantEvent -> option B), f (ThinkingOpaque i q) = None ->
    f (ThinkingEnd i) = None -> omap f ((evs ++ [ThinkingOpaque i q]) ++ [ThinkingEnd i]) = omap f evs) as Hom.
  { intros B g E1 E2. rewrite !omap_snoc, E1, E2. cbn. by rewrite !app_nil_r. }
  split; try done.
  - eapply accept_collected; [by eapply accept_collected|done].
  - rewrite G5 in G2. cbn [finished c1 set_open set_blocks c_next_content_index c_open c_content].
    rewrite G5.
    assert (text_rel ordered (evs ++ [ThinkingOpaque i q]) next
              (<[i := OThinking s (Some q)]> (c_open c)) (c_content c)) as Ht
      by by eapply text_rel_keep.
    eapply text_rel_ext; [exact Ht|done|done|..].
    + intros j. unfold part_text. destruct (decide (j = i)) as [->|].
      * by rewrite lookup_delete_eq, !lookup_insert_eq, Hci.
      * by rewrite lookup_delete_ne, !lookup_insert_ne.
    + by left.
  - cbn. rewrite delete_insert_eq. by eapply blocks_rel_end.
  - unfold tool_ids. by rewrite Hom.
  - unfold tool_wires. by rewrite Hom.
  - rewrite !Forall_app. repeat split; try done; by repeat constructor.
  - rewrite !Forall_app. intros [[Hev _] _]. apply G11, Hev.
  - unfold tool_wires. by rewrite Hom.
Qed.

(** *** Tool calls and usage *)
Lemma bsim_tool_start evs blocks next tools c w id :
  bsim evs blocks next tools c -> next + 1 <= U32_MAX -> blocks !! w = None ->
  id ∉ tool_ids evs -> w ∉ tool_wires evs ->
  exists c', accept (ToolCallStart next w (Some id)) c = Ok c' /\
    bsim (evs ++ [ToolCallStart next w (Some id)])
      (<[w := BToolUse next id EmptyString EmptyString]> blocks) (next + 1) (tools + 1) c'.
Proof.
  intros Hs Hmax Hw Hid Hwire. destruct (bsim_fresh _ _ _ _ _ Hs) as [Hno Hnc].
  destruct (bsim_ranges _ _ _ _ _ Hs) as (H0 & Hro & Hrc & _).
  set (o := OToolCall w (Some id) EmptyString EmptyString).
  set (c1 := set_tools ({[w]} ∪ c_tool_wire_indexes c) ({[id]} ∪ c_tool_call_ids c) c).
  assert (accept (ToolCallStart next w (Some id)) c
          = Ok (set_blocks (next + 1) (<[next := o]> (c_open c)) (c_content c) c1)) as Ha.
  { unfold accept. rewrite (bm_done _ _ _ _ _ Hs). unfold accept_tool_start.
    rewrite bool_decide_eq_false_2 by (rewrite (bm_wires _ _ _ _ _ Hs); set_solver).
    rewrite bool_decide_eq_false_2 by (rewrite (bm_ids _ _ _ _ _ Hs); set_solver).
    by apply (start_block_fresh next o c1); [symmetry; apply (bm_next _ _ _ _ _ Hs)|..]. }
  eexists. split; [exact Ha|].
  eapply bsim_event; [exact Hs|exact Ha|done|by destruct Hs|by destruct Hs|done|..].
  - by apply blocks_rel_start; [destruct Hs|..].
  - pose proof (bm_text _ _ _ _ _ Hs) as Ht. rewrite (bm_next _ _ _ _ _ Hs) in Ht.
    apply text_rel_start; try done. unfold part_text. by rewrite lookup_singleton_eq.
  - cbn. by rewrite union_empty_r_L.
  - cbn. by rewrite union_empty_r_L.
  - done.
Qed.

Lemma bsim_tool_end evs blocks next tools c w i id name arguments value :
  bsim evs blocks next tools c -> blocks !! w = Some (BToolUse i id name arguments) ->
  let call := mk_tool_call id name (mk_tool_arguments arguments value) in
  exists c', accept (ToolCallEnd i call) c = Ok c' /\
    bsim (evs ++ [ToolCallEnd i call]) (delete w blocks) next tools c'.
Proof.
  intros Hs Hw call. destruct (bsim_find _ _ _ _ _ _ _ i Hs Hw eq_refl) as (o & Ho & ->).
  destruct (bsim_ranges _ _ _ _ _ Hs) as (_ & _ & _ & Hdisj).
  exists (finished i (PToolCall call) c).
  assert (accept (ToolCallEnd i call) c = Ok (finished i (PToolCall call) c)) as Ha.
  { unfold accept. rewrite (bm_done _ _ _ _ _ Hs). unfold accept_tool_end. rewrite Ho.
    cbn [call tc_id tc_name tc_arguments raw_json]. rewrite !str_eqb_refl. cbn [negb].
    apply end_block_fresh. eauto. }
  split; [done|]. by eapply bsim_end.
Qed.

(** The arguments the machine holds are those it streamed. *)
Lemma bsim_arguments evs blocks next tools c w i id name arguments :
  bsim evs blocks next tools c -> blocks !! w = Some (BToolUse i id name arguments) ->
  arguments = arguments_at evs i.
Proof.
  intros Hs Hw. destruct (bsim_find _ _ _ _ _ _ _ i Hs Hw eq_refl) as (o & Ho & ->).
  destruct (bm_collected _ _ _ _ _ Hs) as (Hb & _).
  by destruct (bo_open _ _ _ _ Hb _ _ Ho) as (_ & _ & ?).
Qed.

Lemma bsim_usage evs blocks next tools c d :
  bsim evs blocks next tools c -> c_usage_details c = None ->
  exists c', accept (DetailedUsage d) c = Ok c' /\
    bsim (evs ++ [DetailedUsage d]) blocks next tools c'.
Proof.
  intros Hs Hu. exists (set_usages (c_usage c) (Some d) c).
  assert (accept (DetailedUsage d) c = Ok (set_usages (c_usage c) (Some d) c)) as Ha.
  { unfold accept. rewrite (bm_done _ _ _ _ _ Hs). unfold accept_detailed. by rewrite Hu. }
  split; [done|]. destruct (bsim_ranges _ _ _ _ _ Hs) as (H0 & _).
  eapply bsim_event; [exact Hs|exact Ha|done|by destruct Hs|by destruct Hs|by destruct Hs|by destruct Hs|..].
  - pose proof (bm_text _ _ _ _ _ Hs) as Ht. rewrite (bm_next _ _ _ _ _ Hs) in Ht.
    eapply text_rel_ext; [exact Ht|done|done|done|by left].
  - cbn. by rewrite union_empty_l_L.
  - cbn. by rewrite union_empty_l_L.
  - cbn. lia.
Qed.

(** *** The end of the transcript *)
Lemma starts_functional evs n i k1 k2 :
  map fst (block_starts evs) = map Z.of_nat (seq 0 n) ->
  (i, k1) ∈ block_starts evs -> (i, k2) ∈ block_starts evs -> k1 = k2.
Proof.
  intros Hst (j1 & H1)%list_elem_of_lookup (j2 & H2)%list_elem_of_lookup.
  assert (forall j k, block_starts evs !! j = Some (i, k) -> i = Z.of_nat j) as Hj.
  { intros j k Hj. assert (map fst (block_starts evs) !! j = Some i) as Hm
      by by rewrite list_lookup_fmap, Hj.
    rewrite Hst, list_lookup_fmap in Hm. apply fmap_Some in Hm as (x & Hx & ->).
    by apply lookup_seq in Hx as [-> _]. }
  pose proof (Hj _ _ H1). pose proof (Hj _ _ H2). assert (j1 = j2) as -> by lia. congruence.
Qed.

Lemma elem_of_block_starts evs i k : (i, k) ∈ block_starts evs <-> exists e, e ∈ evs /\ CollectorSpec.block_start e = Some (i, k).
Proof. apply list_elem_of_omap. Qed.

Section Ended.
Context (evs : list AssistantEvent) (next tools : Z) (c : Collector).
Hypothesis Hs : bsim evs ∅ next tools c.

Lemma bended_open : c_open c = ∅.
Proof.
  apply map_empty. intros i. destruct (c_open c !! i) eqn:E; [|done].
  by destruct (br_inv _ _ (bm_rel _ _ _ _ _ Hs) _ _ E) as (w & b & Hw & _).
Qed.

Lemma bended_dom i : is_Some (c_content c !! i) <-> 0 <= i < next.
Proof.
  destruct (bm_collected _ _ _ _ _ Hs) as (Hb & _). rewrite <- (bm_next _ _ _ _ _ Hs).
  rewrite <- (bo_dom _ _ _ _ Hb i), bended_open, lookup_empty. split; [auto|].
  intros [[]|]; done.
Qed.

Lemma bended_tools :
  existsb is_tool_call (btree_values (c_content c)) = (0 <? tools).
Proof.
  destruct (bm_collected _ _ _ _ _ Hs) as (Hb & _). apply eq_true_iff_eq.
  rewrite existsb_content, Z.ltb_lt, (proj2 (bm_tools _ _ _ _ _ Hs)). split.
  - intros (i & p & Hi & Hp). destruct p as [| | | |call]; try done.
    destruct (bo_content _ _ _ _ Hb _ _ Hi) as ((w & id & Hin & _) & _).
    apply elem_of_block_starts in Hin as (e & He & Hst). destruct e; try done. injection Hst as <- <- <-.
    intros Hnil. apply (not_elem_of_nil wire_index). rewrite <- Hnil. apply list_elem_of_omap. eauto.
  - intros Hne. destruct (tool_wires evs) as [|w ws] eqn:Ew; [done|].
    assert (w ∈ tool_wires evs) as Hw by (rewrite Ew; set_solver).
    apply list_elem_of_omap in Hw as (e & He & Hte). destruct e as [| | | | | | | | | | |i w' id| | | | |]; try done.
    assert ((i, KTool w' id) ∈ block_starts evs) as Hin by (apply elem_of_block_starts; eauto).
    assert (is_Some (c_content c !! i)) as [p Hp].
    { apply bended_dom. rewrite <- (bm_next _ _ _ _ _ Hs).
      pose proof (proj1 (Forall_forall _ _) (bo_fresh _ _ _ _ Hb) _ He i eq_refl) as Hlt.
      apply (list_elem_of_fmap_2 fst) in Hin. change (i ∈ map fst (block_starts evs)) in Hin.
      rewrite (bo_starts _ _ _ _ Hb) in Hin. apply list_elem_of_fmap in Hin as (x & Hx & _).
      cbn in Hx. lia. }
    exists i, p. split; [done|].
    pose proof (bo_content _ _ _ _ Hb _ _ Hp) as Hpm. pose proof (bo_starts _ _ _ _ Hb) as Hst.
    destruct p; cbn in Hpm; try done; destruct Hpm as (Hk & _);
      by pose proof (starts_functional _ _ _ _ _ Hst Hin Hk).
Qed.

Lemma bended_refusal : existsb is_refusal (btree_values (c_content c)) = false.
Proof.
  destruct (bm_collected _ _ _ _ _ Hs) as (Hb & _). apply not_true_iff_false. rewrite existsb_content.
  intros (i & p & Hi & Hp). destruct p; try done.
  destruct (bo_content _ _ _ _ Hb _ _ Hi) as (Hin & _).
  apply elem_of_block_starts in Hin as (e & He & Hst). destruct e; try done.
  by apply (proj1 (Forall_forall _ _) (bm_refusal _ _ _ _ _ Hs)) in He.
Qed.

Lemma bended_content : block_starts evs <> [] -> c_content c <> ∅.
Proof.
  intros Hne E. destruct (bm_collected _ _ _ _ _ Hs) as (Hb & _).
  pose proof (bo_starts _ _ _ _ Hb) as Hst. rewrite (bm_next _ _ _ _ _ Hs) in Hst.
  destruct (decide (0 < next)) as [Hn|Hn].
  - destruct (proj2 (bended_dom 0)) as [p Hp]; [lia|]. by rewrite E in Hp.
  - replace (Z.to_nat next) with 0%nat in Hst by lia. by destruct (block_starts evs).
Qed.

Lemma bended_text :
  ordered -> str_concat (omap text_value (btree_values (c_content c))) = answer_text evs.
Proof.
  intros Hord. pose proof (bm_text _ _ _ _ _ Hs) as Ht. rewrite (bm_next _ _ _ _ _ Hs) in Ht.
  rewrite <- (tr_total _ _ _ _ _ Ht Hord). destruct (bsim_ranges _ _ _ _ _ Hs) as (H0 & _).
  destruct (content_list (c_content c) (Z.to_nat next)) as (Hk & _ & _).
  { intros i. rewrite bended_dom. lia. }
  unfold btree_values. rewrite Hk, bended_open. generalize (Z.to_nat next). clear.
  induction n as [|n IH]; [done|]. rewrite texts_S, <- IH.
  rewrite seq_S, map_app, !omap_app, str_concat_app. f_equal. cbn. unfold part_text.
  rewrite lookup_empty. destruct (c_content c !! Z.of_nat n) as [[]|]; cbn; try done.
  apply str_app_nil_r.
Qed.
End Ended.
End Sim.
