(* ===== verification/MessagesSpec.v ===== *)
(** * What the Anthropic machine streams can be collected

    The same question as for Chat, for the second protocol machine: which of
    the transcripts that [Messages] streams without an error does the
    [Collector] assemble into a message. Every handler keeps the relation of
    [MessagesSim]; the end-to-end statement follows by induction on the
    events, and the transcripts it excludes are shown to be refused. *)
From S2P Require Import Prelude Errors Usage Sse SseStream Domain Structured Collector Schema SchemaSpec.
From S2P Require Import CollectorSpec Pipeline ChatWire ToolCalls Messages MessagesSim.
Import AssistantEvent.

Section Handlers.
Context {JS : JsonSyntax} {SE : SchemaEngine} {MS : MessagesSyntax}.
Context (F : ResponseFormat) (all : list AssistantEvent).
Hypothesis Hall : collectable F all.
Abbreviation ordered := (text_in_order all).
Abbreviation Sim := (bsim ordered).

(** The text buffered for validation is the text streamed. *)
Definition buffers (evs : list AssistantEvent) (t : StructuredTerminal) : Prop :=
  st_format t = F /\ st_limits t = schema_limits_official /\
  (F <> FText -> st_text_buffer t = Some (answer_text evs)).

Lemma answer_text_app evs es : answer_text (evs ++ es) = answer_text evs +:+ answer_text es.
Proof. unfold answer_text. by rewrite omap_app, str_concat_app. Qed.

Lemma buffers_quiet evs es t : buffers evs t -> answer_text es = EmptyString -> buffers (evs ++ es) t.
Proof.
  intros (H1 & H2 & H3) He. split_and!; try done. intros Hne.
  by rewrite answer_text_app, He, str_app_nil_r, H3.
Qed.

(** The parts of a machine that only block events change. *)
Definition same_core (m m' : MessagesStateMachine) : Prop :=
  a_phase m' = a_phase m /\ a_blocks m' = a_blocks m /\ a_finish_reason m' = a_finish_reason m.
Definition same_counts (m m' : MessagesStateMachine) : Prop :=
  a_next_content_index m' = a_next_content_index m /\ a_tool_calls m' = a_tool_calls m.

(** ** Auxiliary operations *)
Lemma allocate_ok (Q : Z -> _ -> Prop) m :
  (a_next_content_index m + 1 <= U32_MAX ->
   Q (a_next_content_index m) (set_a_next_content_index (a_next_content_index m + 1) m)) ->
  wp_ok allocate_content_index Q m.
Proof.
  intros H. unfold allocate_content_index. wp_step. wp_step. wp_step. wp_step.
  destruct (u32_checked_add _ _) as [n|] eqn:E; [|exact I]. apply checked_Some in E as [-> Hr].
  cbn. wp_step. wp_step. wp_step. apply H. lia.
Qed.

Lemma push_text_ok evs pre i text m :
  buffers (evs ++ pre) (a_terminal m) -> answer_text pre = EmptyString ->
  wp_ok (push_text i text) (fun es m' =>
    es = (if str_is_empty text then [] else [TextDelta i text]) /\
    same_core m m' /\ same_counts m m' /\ buffers (evs ++ pre ++ es) (a_terminal m')) m.
Proof.
  intros Hb Hpre. unfold push_text. wp_step. wp_step. wp_step. wp_step. destruct (ok_or _ _); [|exact I].
  wp_step. wp_step. wp_step. wp_step. wp_step. unfold on_terminal. wp_step.
  eapply wp_mono; [apply push_answer_text_ok| |done]. intros [] t (Hbuf & Hf & Hl & _). wp_step.
  split; [done|]. split; [done|]. split; [done|]. destruct Hb as (H1 & H2 & H3). cbn [a_terminal set_a_terminal set_a_answer_text_bytes] in *.
  split_and!; [congruence|congruence|]. intros Hne. rewrite Hbuf. cbn. rewrite (H3 Hne). cbn.
  rewrite app_assoc, (answer_text_app (evs ++ pre)). f_equal. f_equal.
  destruct (str_is_empty text) eqn:E; cbn; [|by rewrite str_app_nil_r]. by destruct text.
Qed.

Lemma push_thinking_ok i text m :
  wp_ok (push_thinking i text) (fun es m' =>
    es = (if str_is_empty text then [] else [ThinkingDelta i text]) /\
    same_core m m' /\ same_counts m m' /\ a_terminal m' = a_terminal m) m.
Proof.
  unfold push_thinking. wp_step. wp_step. wp_step. wp_step. destruct (ok_or _ _); [|exact I].
  wp_step. wp_step. wp_step. wp_step. wp_step. done.
Qed.

(** Text deltas arrive in the order of their blocks. *)
Lemma delta_order evs i d post :
  all = evs ++ TextDelta i d :: post -> ordered ->
  forall j, j ∈ omap text_delta_index evs -> j <= i.
Proof.
  intros E. unfold text_in_order. rewrite E, omap_app. cbn. intros Hs j Hj.
  eapply StronglySorted_app_1_elem_of; [exact Hs|done|set_solver].
Qed.

(** Calls have distinct ids and wire indexes. *)
Lemma start_distinct evs i w id post :
  all = evs ++ ToolCallStart i w (Some id) :: post -> id ∉ tool_ids evs /\ w ∉ tool_wires evs.
Proof.
  intros E. pose proof (co_ids _ _ Hall) as Hi. pose proof (co_wires _ _ Hall) as Hw.
  unfold tool_ids, tool_wires in *. rewrite E, omap_app in Hi. rewrite E, omap_app in Hw. cbn in Hi, Hw.
  apply NoDup_app in Hi as (_ & Hi & _). apply NoDup_app in Hw as (_ & Hw & _). set_solver.
Qed.

(** ** Starting a block *)

(** [es] is accepted and leaves block [b] open at any free wire index. *)
Definition opens (evs : list AssistantEvent) (m : MessagesStateMachine) (c : Collector)
    (w : Z) (r : list AssistantEvent * BlockState) (m' : MessagesStateMachine) : Prop :=
  same_core m m' /\ buffers (evs ++ r.1) (a_terminal m') /\
  Forall (fun e => is_detailed e = false) r.1 /\
  forall post, all = evs ++ r.1 ++ post ->
    exists c', accept_all r.1 c = Ok c' /\
      Sim (evs ++ r.1) (<[w := r.2]> (a_blocks m)) (a_next_content_index m') (a_tool_calls m') c'.

Section Start.
Context (evs : list AssistantEvent) (m : MessagesStateMachine) (c : Collector) (w : Z).
Hypothesis Hs : Sim evs (a_blocks m) (a_next_content_index m) (a_tool_calls m) c.
Hypothesis Hb : buffers evs (a_terminal m).
Hypothesis Hw : a_blocks m !! w = None.

Lemma start_text_sim text : wp_ok (start_text text) (opens evs m c w) m.
Proof.
  unfold start_text. wp_step. apply allocate_ok. intros Hmax. wp_step.
  set (i := a_next_content_index m) in *. set (m1 := set_a_next_content_index (i + 1) m).
  assert (buffers (evs ++ [TextStart i]) (a_terminal m1)) as Hb1 by by apply buffers_quiet.
  assert (wp_ok (if str_is_empty text then mret [] else push_text i text) (fun es m' =>
    es = (if str_is_empty text then [] else [TextDelta i text]) /\
    same_core m1 m' /\ same_counts m1 m' /\ buffers (evs ++ [TextStart i] ++ es) (a_terminal m')) m1) as Hp.
  { destruct (str_is_empty text) eqn:E; [|by (pose proof (push_text_ok evs [TextStart i] i text m1) as H;
      rewrite E in H; apply H)]. wp_step. by split_and!. }
  eapply wp_mono; [exact Hp| |done]. intros es m' (-> & Hcore & [Hn Ht] & Hbuf). wp_step.
  split; [done|]. split; [done|]. split; [by destruct (str_is_empty text); repeat constructor|].
  cbn [fst snd]. rewrite Hn, Ht. intros post Epost.
  destruct (bsim_start _ _ _ _ _ _ w (BText i) (TextStart i) (OText EmptyString) Hs Hmax Hw eq_refl I (or_introl (conj eq_refl eq_refl)))
    as (c1 & Ha1 & Hs1).
  destruct (str_is_empty text).
  - exists c1. cbn. by rewrite Ha1.
  - destruct (bsim_text_delta _ _ _ _ _ _ w i text Hs1) as (c2 & Ha2 & Hs2).
    { by rewrite lookup_insert_eq. }
    { intros Ho. eapply (delta_order _ _ text post); [|done]. rewrite Epost, <- app_assoc. done. }
    exists c2. cbn. rewrite Ha1. cbn. rewrite Ha2. split; [done|]. by rewrite <- app_assoc in Hs2.
Qed.

Lemma start_thinking_sim thinking : wp_ok (start_thinking thinking) (opens evs m c w) m.
Proof.
  unfold start_thinking. wp_step. apply allocate_ok. intros Hmax. wp_step.
  set (i := a_next_content_index m) in *. set (m1 := set_a_next_content_index (i + 1) m).
  assert (wp_ok (if str_is_empty thinking then mret [] else push_thinking i thinking) (fun es m' =>
    es = (if str_is_empty thinking then [] else [ThinkingDelta i thinking]) /\
    same_core m1 m' /\ same_counts m1 m' /\ a_terminal m' = a_terminal m1) m1) as Hp.
  { destruct (str_is_empty thinking) eqn:E; [by wp_step|].
    pose proof (push_thinking_ok i thinking m1) as H. by rewrite E in H. }
  eapply wp_mono; [exact Hp| |done]. intros es m' (-> & Hcore & [Hn Ht] & Hterm). wp_step.
  split; [done|]. split; [rewrite Hterm; apply buffers_quiet; [done|by destruct (str_is_empty thinking)]|].
  split; [by destruct (str_is_empty thinking); repeat constructor|].
  cbn [fst snd]. rewrite Hn, Ht. intros post Epost.
  destruct (bsim_start _ _ _ _ _ _ w (BThinking i EmptyString) (ThinkingStart i) (OThinking EmptyString None) Hs Hmax Hw eq_refl I
    (or_intror (conj eq_refl eq_refl))) as (c1 & Ha1 & Hs1).
  destruct (str_is_empty thinking).
  - exists c1. cbn. by rewrite Ha1.
  - destruct (bsim_thinking_delta _ _ _ _ _ _ w i EmptyString thinking Hs1) as (c2 & Ha2 & Hs2).
    { by rewrite lookup_insert_eq. }
    exists c2. cbn. rewrite Ha1. cbn. rewrite Ha2. split; [done|]. by rewrite <- app_assoc in Hs2.
Qed.

Lemma start_redacted_sim data : wp_ok (start_redacted data) (opens evs m c w) m.
Proof.
  unfold start_redacted, reserve_opaque_thinking. do 4 wp_step. wp_step. destruct (ok_or _ _); [|exact I].
  wp_step. wp_step. wp_step. wp_step. apply allocate_ok. intros Hmax. wp_step.
  split; [done|]. split; [by apply buffers_quiet|]. split; [by repeat constructor|].
  cbn [fst snd]. intros post _.
  destruct (bsim_start _ _ _ _ _ _ w (BRedacted (a_next_content_index m) data)
    (ThinkingStart (a_next_content_index m)) (OThinking EmptyString None) Hs Hmax Hw eq_refl I
    (or_intror (conj eq_refl eq_refl))) as (c1 & Ha1 & Hs1).
  exists c1. cbn in *. by rewrite Ha1.
Qed.

Lemma tool_input_sim id name index arguments input post :
  index = a_next_content_index m -> index + 1 <= U32_MAX ->
  (input = [] /\ arguments = EmptyString) \/ input = [ToolCallDelta index w None (Some arguments)] ->
  let es := ToolCallStart index w (Some id) :: ToolCallDelta index w (Some name) None :: input in
  all = evs ++ es ++ post ->
  exists c', accept_all es c = Ok c' /\
    Sim (evs ++ es) (<[w := BToolUse index id name arguments]> (a_blocks m)) (index + 1)
      (a_tool_calls m + 1) c'.
Proof using Hs Hw Hall.
  intros -> Hmax Hinput es Epost. set (i := a_next_content_index m) in *.
  destruct (start_distinct evs i w id _ Epost) as [Hid Hwire].
  destruct (bsim_tool_start _ _ _ _ _ _ w id Hs Hmax Hw Hid Hwire) as (c1 & Ha1 & Hs1).
  destruct (bsim_tool_delta _ _ _ _ _ _ w i id EmptyString EmptyString (Some name) None Hs1)
    as (c2 & Ha2 & Hs2); [by rewrite lookup_insert_eq|].
  rewrite insert_insert_eq in Hs2. cbn [push_opt] in Hs2.
  subst es. destruct Hinput as [[-> ->]| ->].
  - exists c2. cbn. rewrite Ha1. cbn. rewrite Ha2. split; [done|]. by rewrite <- app_assoc in Hs2.
  - destruct (bsim_tool_delta _ _ _ _ _ _ w i id (EmptyString +:+ name) EmptyString None (Some arguments) Hs2)
      as (c3 & Ha3 & Hs3); [by rewrite lookup_insert_eq|].
    rewrite insert_insert_eq in Hs3. cbn [push_opt] in Hs3.
    exists c3. cbn. rewrite Ha1. cbn. rewrite Ha2. cbn. rewrite Ha3. split; [done|].
    by rewrite <- !app_assoc in Hs3.
Qed.

Lemma start_tool_use_sim raw_id raw_name input :
  wp_ok (start_tool_use w raw_id raw_name input) (opens evs m c w) m.
Proof using Hs Hb Hw Hall.
  unfold start_tool_use. wp_step. wp_step. wp_step. wp_step. wp_step. wp_step.
  destruct (map_err _ (ToolCallId_new raw_id)) as [id|]; [|exact I]. wp_step. wp_step.
  destruct (map_err _ (ToolName_new raw_name)) as [name|]; [|exact I]. wp_step.
  apply allocate_ok. intros Hmax. cbv zeta. set (i := a_next_content_index m) in *.
  set (arguments := match as_object input with Some [] => EmptyString | _ => display input end).
  set (initial := match as_object input with Some [] => [] | _ => _ end).
  assert ((initial = [] /\ arguments = EmptyString) \/
          initial = [ToolCallDelta i w None (Some arguments)]) as Hinput.
  { subst initial arguments. destruct (as_object input) as [[|]|]; auto. }
  clearbody initial arguments.
  wp_step. wp_step. wp_step. wp_step. destruct (ok_or _ _) as [total|]; [|exact I].
  wp_step. wp_step. wp_step. wp_step. wp_step.
  split; [done|]. split_and!.
  - apply buffers_quiet; [done|]. by destruct Hinput as [[-> ->]| ->].
  - destruct Hinput as [[-> ->]| ->]; by repeat constructor.
  - intros post Epost. by eapply tool_input_sim.
Qed.
End Start.

(** ** Blocks *)

(** The relation while the message streams. *)
Definition streams (evs : list AssistantEvent) (m : MessagesStateMachine) (c : Collector) : Prop :=
  a_phase m = Phase.StreamingMessage /\
  Sim evs (a_blocks m) (a_next_content_index m) (a_tool_calls m) c /\
  buffers evs (a_terminal m) /\ Forall (fun e => is_detailed e = false) evs.

(** A handler that streams [es] leads from [evs] to [evs ++ es]. *)
Definition leads (P : list AssistantEvent -> MessagesStateMachine -> Collector -> Prop)
    (evs : list AssistantEvent) (c : Collector) (es : list AssistantEvent)
    (m' : MessagesStateMachine) : Prop :=
  forall post, all = evs ++ es ++ post -> exists c', accept_all es c = Ok c' /\ P (evs ++ es) m' c'.

Lemma leads_silent (P : list AssistantEvent -> MessagesStateMachine -> Collector -> Prop) evs c m' :
  P evs m' c -> leads P evs c [] m'.
Proof. intros H post _. exists c. by rewrite app_nil_r. Qed.

Lemma leads_one (P : list AssistantEvent -> MessagesStateMachine -> Collector -> Prop) evs c e m' :
  (forall post, all = evs ++ e :: post -> exists c', accept e c = Ok c' /\ P (evs ++ [e]) m' c') ->
  leads P evs c [e] m'.
Proof. intros H post E. destruct (H post E) as (c' & Ha & Hp). exists c'. cbn. by rewrite Ha. Qed.

Lemma block_start_sim evs m c wire :
  streams evs m c -> wp_ok (Messages.block_start wire) (leads streams evs c) m.
Proof.
  intros (Hph & Hs & Hb & Hd). unfold Messages.block_start, validate_kind, require_streaming.
  wp_step. wp_step. wp_step. wp_step. wp_step. wp_step. wp_step. wp_step. wp_step. wp_step. wp_step.
  wp_step. wp_step. apply bool_decide_eq_false in H2.
  assert (a_blocks m !! Wire.bs_index wire = None) as Hw by by apply eq_None_not_Some.
  set (w := Wire.bs_index wire) in *.
  apply (wp_mono _ (opens evs m c w) _ (fun _ _ => True) _); [| |done].
  - destruct (Wire.bs_content_block wire).
    + by apply start_text_sim.
    + by apply start_tool_use_sim.
    + by apply start_thinking_sim.
    + by apply start_redacted_sim.
    + wp_step. split; [done|]. split; [by apply buffers_quiet|]. split; [constructor|].
      intros post _. exists c. split; [done|]. cbn [fst snd]. rewrite app_nil_r.
      apply (bsim_silent _ _ (a_blocks m)); [done|]. by apply blocks_rel_hidden; [destruct Hs|..].
  - intros r m' ((Hc1 & Hc2 & Hc3) & Hb' & Hd' & Hsim). wp_step. wp_step. wp_step. wp_step. wp_step.
    intros post Epost. destruct (Hsim post Epost) as (c' & Ha & Hs'). exists c'. split; [done|].
    split_and!; cbn; [by rewrite Hc1| |done|by apply Forall_app].
    by rewrite Hc2.
Qed.

(** Guards of a handler that runs while the message streams. *)
Ltac streaming_guards :=
  unfold validate_kind, require_streaming; do 8 wp_step.

Lemma messages_push_text_sim evs m c w i text :
  streams evs m c -> a_blocks m !! w = Some (BText i) ->
  wp_ok (push_text i text) (leads streams evs c) m.
Proof.
  intros (Hph & Hs & Hb & Hd) Hw.
  eapply wp_mono; [apply (push_text_ok evs [] i text); [by rewrite app_nil_r|done]| |done].
  intros es m' (-> & (H1 & H2 & H3) & [Hn Ht] & Hbuf). cbn [app] in Hbuf.
  destruct (str_is_empty text).
  - apply leads_silent. rewrite app_nil_r in Hbuf. unfold streams. by rewrite H1, H2, Hn, Ht.
  - apply leads_one. intros post Epost.
    destruct (bsim_text_delta _ _ _ _ _ _ w i text Hs Hw) as (c' & Ha & Hs').
    { intros Ho. by eapply delta_order. }
    exists c'. split; [done|]. unfold streams. rewrite H1, H2, Hn, Ht. split_and!; try done.
    apply Forall_app. split; [done|]. by repeat constructor.
Qed.

Lemma messages_push_thinking_sim evs m c w i sig text :
  streams evs m c -> a_blocks m !! w = Some (BThinking i sig) ->
  wp_ok (push_thinking i text) (leads streams evs c) m.
Proof.
  intros (Hph & Hs & Hb & Hd) Hw. eapply wp_mono; [apply push_thinking_ok| |done].
  intros es m' (-> & (H1 & H2 & H3) & [Hn Ht] & Hterm). destruct (str_is_empty text).
  - apply leads_silent. unfold streams. by rewrite H1, H2, Hn, Ht, Hterm.
  - apply leads_one. intros post Epost.
    destruct (bsim_thinking_delta _ _ _ _ _ _ w i sig text Hs Hw) as (c' & Ha & Hs').
    exists c'. split; [done|]. unfold streams. rewrite H1, H2, Hn, Ht, Hterm. split_and!; try done.
    + by apply buffers_quiet.
    + apply Forall_app. split; [done|]. by repeat constructor.
Qed.

Lemma delta_input_json_sim evs m c w i id name arguments partial :
  streams evs m c -> a_blocks m !! w = Some (BToolUse i id name arguments) ->
  wp_ok (delta_input_json w i id name arguments partial) (leads streams evs c) m.
Proof.
  intros (Hph & Hs & Hb & Hd) Hw. unfold delta_input_json. wp_step. wp_step. wp_step. wp_step.
  destruct (ok_or _ _) as [n1|]; [|exact I]. wp_step. wp_step. destruct (ok_or _ _) as [n2|]; [|exact I].
  wp_step. wp_step. wp_step. wp_step. wp_step. wp_step. wp_step.
  apply leads_one. intros post Epost.
  destruct (bsim_tool_delta _ _ _ _ _ _ w i id name arguments None (Some partial) Hs Hw) as (c' & Ha & Hs').
  exists c'. split; [done|]. split_and!; try done.
  - by apply buffers_quiet.
  - apply Forall_app. split; [done|]. by repeat constructor.
Qed.

Lemma delta_signature_sim evs m c w i sig delta :
  streams evs m c -> a_blocks m !! w = Some (BThinking i sig) ->
  wp_ok (delta_signature w i sig delta) (leads streams evs c) m.
Proof.
  intros (Hph & Hs & Hb & Hd) Hw. unfold delta_signature. wp_step. wp_step. wp_step. wp_step.
  destruct (ok_or _ _) as [n1|]; [|exact I]. wp_step. wp_step. wp_step. wp_step.
  destruct (ok_or _ _) as [n2|]; [|exact I]. wp_step. wp_step. wp_step. wp_step. wp_step. wp_step. wp_step.
  apply leads_silent. split_and!; try done. cbn.
  apply (bsim_silent _ _ (a_blocks m)); [done|].
  destruct (bsim_find _ _ _ _ _ _ _ _ i Hs Hw eq_refl) as (o & Ho & Hm).
  rewrite <- (insert_id (c_open c) i o Ho). by eapply blocks_rel_update; [destruct Hs|exact Hw|..].
Qed.

Lemma block_delta_sim evs m c wire :
  streams evs m c -> wp_ok (block_delta wire) (leads streams evs c) m.
Proof.
  intros Hst. unfold block_delta. streaming_guards. cbv zeta.
  destruct (a_blocks m !! Wire.bd_index wire) as [b|] eqn:Hw; [|by wp_step].
  destruct b, (Wire.bd_delta wire); try (by wp_step);
    try (by wp_step; apply leads_silent).
  - by eapply messages_push_text_sim.
  - by apply delta_input_json_sim.
  - by eapply messages_push_thinking_sim.
  - by apply delta_signature_sim.
Qed.

(** Removing a block and then streaming its end. *)
Lemma source_identity_ok (Q : SourceIdentity -> _ -> Prop) m :
  (forall source, Q source m) -> wp_ok source_identity Q m.
Proof.
  intros H. unfold source_identity. wp_step. wp_step. wp_step. wp_step.
  destruct (ok_or _ _); [|exact I]. wp_step. wp_step. destruct (map_err _ _); [|exact I]. cbv zeta.
  wp_step. apply H.
Qed.

Lemma streams_end evs m c w es c' :
  streams evs m c ->
  Sim (evs ++ es) (delete w (a_blocks m)) (a_next_content_index m) (a_tool_calls m) c' ->
  answer_text es = EmptyString -> Forall (fun e => is_detailed e = false) es ->
  streams (evs ++ es) (set_a_blocks (delete w (a_blocks m)) m) c'.
Proof.
  intros (Hph & Hs & Hb & Hd) Hs' Ht He. split_and!; try done.
  - by apply buffers_quiet.
  - by apply Forall_app.
Qed.

Lemma stop_tool_use_sim evs m c w i id name arguments :
  streams evs m c -> a_blocks m !! w = Some (BToolUse i id name arguments) ->
  wp_ok (stop_tool_use i id name arguments) (leads streams evs c)
    (set_a_blocks (delete w (a_blocks m)) m).
Proof.
  intros Hst Hw. pose proof Hst as (Hph & Hs & Hb & Hd). unfold stop_tool_use. cbv zeta. wp_step. wp_step.
  destruct (map_err _ _) as [value|]; [|exact I]. wp_step. wp_step. wp_step.
  apply leads_one. intros post Epost.
  assert (arguments <> EmptyString) as Hne.
  { rewrite (bsim_arguments _ _ _ _ _ _ _ _ _ _ _ Hs Hw). by eapply (co_inputs _ _ Hall). }
  replace (if str_is_empty arguments then "{}" else arguments) with arguments by by destruct arguments.
  destruct (bsim_tool_end _ _ _ _ _ _ w i id name arguments value Hs Hw) as (c' & Ha & Hs').
  exists c'. split; [done|]. apply (streams_end _ _ _ w [_] _ Hst Hs'); [done|by repeat constructor].
Qed.

Lemma stop_opaque_sim evs m c w b i data redacted :
  streams evs m c -> a_blocks m !! w = Some b -> block_index b = Some i ->
  (forall o, mirrors w b o -> exists s, o = OThinking s None) ->
  wp_ok (source ← source_identity;
         mret [ThinkingOpaque i (mk_opaque data source redacted); ThinkingEnd i])
    (leads streams evs c) (set_a_blocks (delete w (a_blocks m)) m).
Proof.
  intros Hst Hw Hb Hm. pose proof Hst as (Hph & Hs & _). wp_step. apply source_identity_ok. intros source.
  wp_step. intros post _.
  destruct (bsim_opaque_end _ _ _ _ _ _ w b i (mk_opaque data source redacted) Hs Hw Hb Hm)
    as (c' & Ha & Hs').
  exists c'. split; [done|]. apply (streams_end _ _ _ w _ _ Hst Hs'); [done|by repeat constructor].
Qed.

Lemma block_stop_sim evs m c wire :
  streams evs m c -> wp_ok (block_stop wire) (leads streams evs c) m.
Proof.
  intros Hst. pose proof Hst as (Hph & Hs & Hbuf & Hd). unfold block_stop. streaming_guards.
  destruct (a_blocks m !! Wire.ix_index wire) as [b|] eqn:Hw; [|by wp_step].
  set (w := Wire.ix_index wire) in *. wp_step. wp_step.
  destruct b as [i|i id name arguments|i sig|i data|].
  - wp_step. apply leads_one. intros post _.
    destruct (bsim_text_end _ _ _ _ _ _ w i Hs Hw) as (c' & Ha & Hs').
    exists c'. split; [done|]. apply (streams_end _ _ _ w [_] _ Hst Hs'); [done|by repeat constructor].
  - by apply stop_tool_use_sim.
  - assert (forall o, mirrors w (BThinking i sig) o -> exists s, o = OThinking s None) as Hm.
    { intros [|s []| |] Ho; try done. eauto. }
    destruct (str_is_empty sig).
    + wp_step. apply leads_one. intros post _.
      destruct (bsim_thinking_end _ _ _ _ _ _ w _ i Hs Hw eq_refl Hm) as (c' & Ha & Hs').
      exists c'. split; [done|]. apply (streams_end _ _ _ w [_] _ Hst Hs'); [done|by repeat constructor].
    + by eapply stop_opaque_sim.
  - eapply stop_opaque_sim; [done|done|done|]. intros [|s []| |] Ho; try done. eauto.
  - wp_step. apply leads_silent. split_and!; try done. cbn.
    apply (bsim_silent _ _ (a_blocks m)); [done|]. by eapply blocks_rel_drop; [destruct Hs|..].
Qed.

(** ** The whole machine *)

(** After the stop reason: nothing is open. *)
Definition closed (evs : list AssistantEvent) (m : MessagesStateMachine) (c : Collector) : Prop :=
  Sim evs ∅ (a_next_content_index m) (a_tool_calls m) c /\ buffers evs (a_terminal m) /\
  exists r, a_finish_reason m = Some r /\ (r = FinishReason.ToolCalls -> 0 < a_tool_calls m).
Definition validated (m : MessagesStateMachine) : Prop :=
  exists r v, a_finish_reason m = Some r /\
    validate_structured_response F r (default EmptyString (st_text_buffer (a_terminal m)))
      (0 <? a_tool_calls m) false schema_limits_official = Ok v.
Definition minv (evs : list AssistantEvent) (m : MessagesStateMachine) (c : Collector) : Prop :=
  match a_phase m with
  | Phase.AwaitMessageStart =>
      evs = [] /\ c = collector_default /\ a_blocks m = ∅ /\ a_next_content_index m = 0 /\
      a_tool_calls m = 0 /\ buffers [] (a_terminal m)
  | Phase.StreamingMessage => streams evs m c
  | Phase.AwaitMessageStop => closed evs m c
  | Phase.Terminal => closed evs m c /\ validated m
  end.

Lemma streams_minv evs m c : streams evs m c -> minv evs m c.
Proof. intros Hst. pose proof Hst as (Hph & _). unfold minv. by rewrite Hph. Qed.

Lemma minv_streams evs m c :
  minv evs m c -> negb (bool_decide (a_phase m = Phase.StreamingMessage)) = false -> streams evs m c.
Proof.
  intros Hm Hp%negb_false_iff%bool_decide_eq_true. unfold minv in Hm. by rewrite Hp in Hm.
Qed.

Lemma leads_minv evs c es m : leads streams evs c es m -> leads minv evs c es m.
Proof.
  intros H post E. destruct (H post E) as (c' & Ha & Hp). exists c'. split; [done|].
  by apply streams_minv.
Qed.

Lemma message_start_sim evs m c wire :
  minv evs m c -> wp_ok (message_start wire) (leads minv evs c) m.
Proof.
  intros Hm. unfold message_start, validate_kind. wp_step. wp_step. wp_step. wp_step. wp_step. wp_step.
  apply negb_false_iff, bool_decide_eq_true in H0. unfold minv in Hm. rewrite H0 in Hm.
  destruct Hm as (-> & -> & Hbl & Hn & Ht & Hb). cbv zeta. wp_step. wp_step. wp_step. wp_step.
  destruct (map_err _ _) as [g|]; [|exact I]. do 7 wp_step.
  apply leads_one. intros post _.
  destruct (bsim_initial ordered (ax_local_request_id (a_context m)) (ax_provider_request_id (a_context m))
    (Some g)) as (c' & Ha & Hs').
  exists c'. split; [done|]. apply streams_minv. split; [done|]. cbn.
  rewrite Hbl, Hn, Ht. split; [exact Hs'|]. split; [by apply (buffers_quiet [])|by repeat constructor].
Qed.

Lemma stop_reason_ok raw (Q : FinishReason -> _ -> Prop) m :
  (forall r, Q r m) -> wp_ok (stop_reason raw) Q m.
Proof.
  intros H. unfold stop_reason, bounded_finish_reason.
  repeat first [apply H|wp_step].
Qed.

Lemma message_delta_sim evs m c wire :
  minv evs m c -> wp_ok (message_delta wire) (leads minv evs c) m.
Proof.
  intros Hm. unfold message_delta. streaming_guards.
  destruct (minv_streams _ _ _ Hm H0) as (Hph & Hs & Hb & Hd). wp_step. wp_step.
  apply negb_false_iff, bool_decide_eq_true in H1. wp_step. wp_step.
  destruct (merge_usage_snapshot _ _ _) as [merged|]; [|exact I]. wp_step. wp_step.
  destruct (Wire.md_stop_reason _) as [raw|].
  2:{ wp_step. apply leads_silent, streams_minv. by split_and!. }
  wp_step. apply stop_reason_ok. intros r. wp_step. wp_step.
  assert (r = FinishReason.ToolCalls -> 0 < a_tool_calls m) as Hr.
  { intros ->. rewrite bool_decide_eq_true_2 in H2 by done. cbn in H2. apply Z.eqb_neq in H2.
    pose proof (bm_tools _ _ _ _ _ _ Hs). lia. }
  wp_step. wp_step. wp_step. wp_step. wp_step. wp_step.
  destruct (usage_details merged) as [details|]; [|exact I]. wp_step. wp_step. wp_step.
  rewrite H1 in Hs. destruct (has_any_known details).
  - apply leads_one. intros post _.
    destruct (bsim_usage _ _ _ _ _ _ details Hs (bm_usage _ _ _ _ _ _ Hs Hd)) as (c' & Ha & Hs').
    exists c'. split; [done|]. split_and!; [done|by apply buffers_quiet|by exists r].
  - apply leads_silent. split_and!; [done|done|by exists r].
Qed.

Lemma message_stop_sim evs m c wire :
  minv evs m c -> wp_ok (message_stop wire) (leads minv evs c) m.
Proof.
  intros Hm. unfold message_stop, validate_kind. do 6 wp_step.
  apply negb_false_iff, bool_decide_eq_true in H0. unfold minv in Hm. rewrite H0 in Hm.
  pose proof Hm as (Hs & (Hf & Hl & Hbuf) & r & Hr & Htools). wp_step. wp_step. rewrite Hr. cbn [ok_or].
  wp_step. unfold on_terminal. wp_step. eapply wp_mono; [apply validate_before_done_ok| |done].
  intros [] t (_ & _ & Hb' & Hf' & Hl' & _ & v & Hv). wp_step. wp_step. wp_step.
  apply leads_silent. split.
  - split; [done|]. split; [|by exists r]. cbn in Hb', Hf', Hl' |- *.
    split_and!; [congruence|congruence|]. intros Hne. rewrite Hb'. auto.
  - exists r, v. split; [done|]. cbn. rewrite Hb', <- Hf, <- Hl. exact Hv.
Qed.

Lemma streaming_handler evs m c kind expected name (k : AM events) :
  minv evs m c ->
  let h := (_ ← validate_kind kind expected; _ ← require_streaming name; k) in
  (streams evs m c -> wp_ok h (leads streams evs c) m) -> wp_ok h (leads minv evs c) m.
Proof.
  intros Hm h Hh. destruct (decide (a_phase m = Phase.StreamingMessage)) as [E|E].
  - eapply wp_mono; [apply Hh, minv_streams; [done|by rewrite E]|intros; by apply leads_minv|done].
  - unfold h, validate_kind, require_streaming. do 6 wp_step. by rewrite bool_decide_eq_false_2 in H0.
Qed.

Lemma dispatch_sim evs m c event_name data :
  minv evs m c -> wp_ok (dispatch event_name data) (leads minv evs c) m.
Proof.
  intros Hm. unfold dispatch, parsed.
  repeat match goal with
  | |- wp (if _ then _ else _) _ _ _ => wp_step
  | |- wp (mbind _ (lift _)) _ _ _ => wp_step; wp_step; destruct (map_err _ _) as [wire|]; [|exact I]
  end.
  - by apply message_start_sim.
  - apply streaming_handler; [done|]. apply block_start_sim.
  - apply streaming_handler; [done|]. apply block_delta_sim.
  - apply streaming_handler; [done|]. apply block_stop_sim.
  - by apply message_delta_sim.
  - by apply message_stop_sim.
  - unfold validate_kind. wp_step. wp_step. wp_step. by apply leads_silent.
  - unfold validate_kind, bounded_error_kind. wp_steps.
  - wp_step. by apply leads_silent.
Qed.

Lemma messages_accept_sim evs m c e :
  minv evs m c -> wp_ok (messages_accept e) (leads minv evs c) m.
Proof.
  intros Hm. unfold messages_accept. do 4 wp_step. destruct (ok_or _ _) as [seen|]; [|exact I].
  do 8 wp_step. destruct (ok_or _ _) as [event_name|]; [|exact I]. do 3 wp_step.
  unfold json_event_type, parsed. do 2 wp_step. destruct (map_err _ _); [|exact I]. wp_step.
  destruct (ok_or _ _) as [json_type|]; [|exact I]. wp_step. wp_step.
  by apply dispatch_sim.
Qed.

(** The stream ends: [Done] is accepted, and the message validates. *)
Lemma messages_finish_sim evs m c :
  minv evs m c -> wp_ok messages_finish (fun es _ => all = evs ++ es ->
    exists c' msg v, accept_all es c = Ok c' /\ finish c' = Ok msg /\
      validate_structured_response F (am_finish_reason msg) (am_text msg)
        (existsb is_tool_call (am_content msg)) (existsb is_refusal (am_content msg))
        schema_limits_official = Ok v) m.
Proof.
  intros Hm. unfold messages_finish. wp_step. wp_step. destruct (bool_decide _ && _) eqn:E; [|by wp_step].
  apply andb_true_iff in E as [E%bool_decide_eq_true _]. unfold minv in Hm. rewrite E in Hm.
  destruct Hm as ((Hs & (Hf & Hl & Hbuf) & r & Hr & Htools) & r' & v & Hr' & Hv).
  rewrite Hr in Hr'. injection Hr' as <-. wp_step. wp_step. rewrite Hr. cbn [ok_or]. wp_step.
  intros Eall. pose proof (bended_tools _ _ _ _ _ Hs) as Ht. pose proof (bended_refusal _ _ _ _ _ Hs) as Href.
  assert (bool_decide (r = FinishReason.ToolCalls) = (0 <? a_tool_calls m)) as Hagree.
  { apply eq_true_iff_eq. rewrite bool_decide_eq_true, Z.ltb_lt. split; [done|]. intros Hpos.
    apply (bm_tools _ _ _ _ _ _ Hs) in Hpos.
    assert (Done FinishReason.ToolCalls ∈ all) as Hin.
    { apply (co_finish _ _ Hall). rewrite Eall. unfold tool_wires. rewrite omap_snoc. cbn.
      by rewrite app_nil_r. }
    rewrite Eall in Hin. apply elem_of_app in Hin as [Hin|Hin]; [|set_solver].
    destruct (bm_collected _ _ _ _ _ _ Hs) as (_ & _ & Hnd). rewrite (bm_done _ _ _ _ _ _ Hs) in Hnd.
    by apply (proj1 (Forall_forall _ _) Hnd) in Hin. }
  eexists _, _, v. split_and!.
  - apply accept_one; [by destruct Hs|]. unfold accept. rewrite (bm_done _ _ _ _ _ _ Hs). unfold accept_done.
    rewrite bool_decide_eq_true_2 by (by eapply bended_open). cbn [negb].
    rewrite bool_decide_eq_false_2.
    2:{ eapply bended_content; [done|]. pose proof (co_blocks _ _ Hall) as Hb. rewrite Eall in Hb.
        by rewrite block_starts_snoc, app_nil_r in Hb. }
    unfold has_tool_call. rewrite Ht, Hagree, Bool.eqb_reflx. reflexivity.
  - unfold finish. cbn [c_done negb c_finish_reason]. reflexivity.
  - cbn [am_finish_reason am_text am_content c_content]. rewrite Ht, Href.
    assert (F = FText \/ F <> FText) as [HF|HF] by (destruct F; auto); [by rewrite HF in *|].
    rewrite (Hbuf HF) in Hv. cbn in Hv. destruct (co_text _ _ Hall) as [|Hord]; [done|].
    by rewrite (bended_text _ _ _ _ _ Hs Hord).
Qed.

Lemma messages_items_sim events : forall evs m c es,
  minv evs m c -> machine_items m events = map Ok es -> all = evs ++ es ->
  exists c' msg v, accept_all es c = Ok c' /\ finish c' = Ok msg /\
    validate_structured_response F (am_finish_reason msg) (am_text msg)
      (existsb is_tool_call (am_content msg)) (existsb is_refusal (am_content msg))
      schema_limits_official = Ok v.
Proof.
  induction events as [|[ev|e] events IH]; intros evs m c es Hinv Hitems Eall; cbn [machine_items] in Hitems.
  - cbn [finish_events messages_machine] in Hitems.
    destruct (messages_finish m) as [m' [es'|e]] eqn:Hfin; [|by destruct es as [|? []]].
    apply map_Ok_inj in Hitems as ->.
    exact (wp_run_ok _ _ _ _ _ (messages_finish_sim evs m c Hinv) Hfin Eall).
  - cbn [accept_event messages_machine] in Hitems.
    destruct (messages_accept ev m) as [m1 [es1|e]] eqn:Hacc; [|by destruct es as [|? []]].
    destruct (map_Ok_app _ _ _ Hitems) as (es2 & -> & Hrest).
    destruct (wp_run_ok _ _ _ _ _ (messages_accept_sim evs m c ev Hinv) Hacc es2 Eall) as (c1 & Hc1 & Hinv1).
    rewrite app_assoc in Eall.
    destruct (IH _ m1 c1 es2 Hinv1 Hrest Eall) as (c' & msg & v & Hc' & Hf & Hv).
    exists c', msg, v. split_and!; [|done|done]. by rewrite accept_all_app, Hc1.
  - by destruct es as [|? []].
Qed.
End Handlers.

Section EndToEnd.
Context {JS : JsonSyntax} {SE : SchemaEngine} {MS : MessagesSyntax}.

(** C10. What the Anthropic machine streams without an error can be collected,
    for every response format, when the transcript is one the collector is
    meant for: the calls have distinct ids and block indexes, each call had its
    input streamed, there is at least one block, calls come with the stop
    reason [tool_use], and, under a structured format, the text blocks are
    streamed one after the other. *)
Theorem messages_stream_collects context format limits compat events evs :
  machine_items (messages_new context format limits compat) events = map Ok evs ->
  collectable format evs ->
  exists msg, collect_assistant_message_for_format (map Ok evs) format = Ok msg.
Proof.
  intros Hitems Hc.
  destruct (messages_items_sim format evs Hc events [] (messages_new context format limits compat)
              collector_default evs) as (c & msg & v & Ha & Hf & Hv);
    [|exact Hitems|done|].
  { split_and!; try done. by destruct format. }
  exists (with_structured_output v msg). unfold collect_assistant_message_for_format.
  rewrite accept_items_all, Ha. cbn [mbind result_bind]. rewrite Hf. cbn [mbind result_bind].
  unfold validate_structured_output. by rewrite Hv.
Qed.
End EndToEnd.

(** ** Concrete streams *)

(** Events whose data is a label, as a deserializer of those labels reads
    them. *)
Definition label_type (label : string) : string :=
  if str_eqb label "start" then "message_start"
  else if str_eqb label "text" || str_eqb label "call" then "content_block_start"
  else if str_eqb label "words" || str_eqb label "input" then "content_block_delta"
  else if str_eqb label "stop0" || str_eqb label "stop1" then "content_block_stop"
  else if str_eqb label "end_turn" || str_eqb label "tool_use" || str_eqb label "max_tokens"
  then "message_delta"
  else "message_stop".
Definition label_json (label : string) : result json_error json :=
  Ok (if str_eqb label "{}" then JObject []
      else JObject [("type", JString (label_type label))]).
Definition label_syntax : MessagesSyntax := {|
  parse_message_start label :=
    Ok (Wire.mk_message_start "message_start" (Wire.mk_message_start_wire "msg-1" "claude" Wire.usage_default));
  parse_block_start label :=
    Ok (if str_eqb label "text"
        then Wire.mk_block_start "content_block_start" 0 (Wire.Text EmptyString)
        else Wire.mk_block_start "content_block_start" 1 (Wire.ToolUse "call-1" "now" (JObject [])));
  parse_block_delta label :=
    Ok (if str_eqb label "words"
        then Wire.mk_block_delta "content_block_delta" 0 (Wire.TextDelta "{}")
        else Wire.mk_block_delta "content_block_delta" 1 (Wire.InputJsonDelta "{}"));
  parse_indexed label :=
    Ok (Wire.mk_indexed "content_block_stop" (if str_eqb label "stop0" then 0 else 1));
  parse_message_delta label :=
    Ok (Wire.mk_message_delta "message_delta" (Wire.mk_message_delta_wire (Some label) None)
          Wire.usage_default);
  parse_type_only label := Ok (Wire.mk_type_only "message_stop");
  parse_error label := Err (mk_json_error CatSyntax 1 1);
  display v := "{}" |}.

Definition label_event (label : string) : result SseError SseEvent :=
  Ok (mk_sse_event label (Some (label_type label)) None None).
Definition label_context : AnthropicMessagesStreamContext :=
  mk_messages_context "local-1" None (mk_source_identity "anthropic" "claude" "anthropic-messages" None).
Definition any_schema : SchemaEngine := fun _ _ _ => Ok tt.
Definition label_items (format : ResponseFormat) (labels : list string)
  : list (result LlmError AssistantEvent) :=
  machine_items (SM := messages_machine (JS := label_json) (SE := any_schema) (MS := label_syntax))
    (messages_new label_context format sample_limits StrictStableFields) (map label_event labels).

Definition label_transcript : list AssistantEvent :=
  [Start "local-1" None (Some "msg-1"); TextStart 0; TextDelta 0 "{}"; TextEnd 0;
   ToolCallStart 1 1 (Some "call-1"); ToolCallDelta 1 1 (Some "now") None;
   ToolCallDelta 1 1 None (Some "{}");
   ToolCallEnd 1 (mk_tool_call "call-1" "now" (mk_tool_arguments "{}" (JObject [])));
   Done FinishReason.ToolCalls].

Lemma messages_stream_collects_witness : exists msg,
  collect_assistant_message_for_format (JS := label_json) (SE := any_schema)
    (map Ok label_transcript) FJsonObject = Ok msg.
Proof.
  apply (messages_stream_collects (JS := label_json) (SE := any_schema) (MS := label_syntax)
    label_context FJsonObject sample_limits StrictStableFields
    (map label_event ["start"; "text"; "words"; "stop0"; "call"; "input"; "stop1"; "tool_use"; "done"])).
  - vm_compute. reflexivity.
  - split; [by apply (bool_decide_unpack _)..| |done| |].
    + intros pre i call post E.
      do 10 (destruct pre as [|? pre];
        [try discriminate; injection E as <- <- <-; by vm_compute|try discriminate; injection E as <- E]).
    + intros _. unfold label_transcript. set_solver.
    + right. repeat constructor.
Defined.

(** Three well-formed responses whose every streamed item is an event and
    which cannot be collected. A call without input: the machine replaces the
    empty input by an empty object only in the final call, so the collector
    sees arguments that differ from the (absent) deltas. A call in a message
    that stops for [max_tokens], and a message without content: the machine
    ends both normally, the collector refuses the finish reason of the first
    and the emptiness of the second. *)
Theorem streamed_not_collectable :
  let refused labels message := exists evs,
    label_items FText labels = map Ok evs /\
    collect_assistant_message (JS := label_json) (SE := any_schema) (map Ok evs)
    = Err (protocol message) in
  refused ["start"; "call"; "stop1"; "tool_use"; "done"] "ToolCallEnd changed tool arguments" /\
  refused ["start"; "call"; "input"; "stop1"; "max_tokens"; "done"]
    "ToolCalls finish reason and collected tool calls disagree" /\
  refused ["start"; "end_turn"; "done"] "Done requires at least one completed content block".
Proof.
  pose (oks (l : list (result LlmError AssistantEvent)) :=
    omap (fun r => match r with Ok e => Some e | _ => None end) l).
  cbv zeta. split_and!; match goal with
    | |- exists evs, label_items FText ?l = _ /\ _ => exists (oks (label_items FText l))
    end; split; by vm_compute.
Qed.
