(* ===== verification/Reliability.v ===== *)
(** * Request reliability: policies, retry decisions and bounded waits

    [src/src/execution/reliability/{timeout,retry,wait,lifecycle}.rs] and the
    idempotency identity of [src/src/provider/idempotency.rs]: the immutable
    policies and how a request tightens them, the pure retry decision, the
    bounded full-jitter wait, and the shared execution state with its atomic
    steps. Durations are nanoseconds. *)
From S2P Require Import Prelude Errors.

(** ** Stage timeouts *)
Definition from_hours (h : Z) : Z := from_secs (h * 3600).
Definition from_mins (m : Z) : Z := from_secs (m * 60).
Definition MAX_STAGE_TIMEOUT : Z := from_hours 1.

Record TimeoutPolicy := mk_timeout_policy {
  tp_credential : Z; tp_response_header : Z; tp_first_event : Z; tp_idle_stream : Z }.

Definition timeout_policy_new : TimeoutPolicy :=
  mk_timeout_policy (from_secs 10) (from_secs 30) (from_secs 30) (from_mins 1).

Definition validate_stage (field : string) (value : Z) : result ValidationError unit :=
  if value =? 0 then
    Err (validation_error field ValidationReason.Zero "stage timeout must be positive")
  else if MAX_STAGE_TIMEOUT <? value then
    Err (validation_error field ValidationReason.OutOfRange
           "stage timeout exceeds the SDK hard limit")
  else Ok tt.

Definition with_credential_timeout (value : Z) (p : TimeoutPolicy)
  : result ValidationError TimeoutPolicy :=
  _ ← validate_stage "credential_timeout" value;
  Ok (mk_timeout_policy value (tp_response_header p) (tp_first_event p) (tp_idle_stream p)).
Definition with_response_header_timeout (value : Z) (p : TimeoutPolicy)
  : result ValidationError TimeoutPolicy :=
  _ ← validate_stage "response_header_timeout" value;
  Ok (mk_timeout_policy (tp_credential p) value (tp_first_event p) (tp_idle_stream p)).
Definition with_first_event_timeout (value : Z) (p : TimeoutPolicy)
  : result ValidationError TimeoutPolicy :=
  _ ← validate_stage "first_event_timeout" value;
  Ok (mk_timeout_policy (tp_credential p) (tp_response_header p) value (tp_idle_stream p)).
Definition with_idle_stream_timeout (value : Z) (p : TimeoutPolicy)
  : result ValidationError TimeoutPolicy :=
  _ ← validate_stage "idle_stream_timeout" value;
  Ok (mk_timeout_policy (tp_credential p) (tp_response_header p) (tp_first_event p) value).

Definition tighten_timeouts (self request : TimeoutPolicy) : TimeoutPolicy :=
  mk_timeout_policy (Z.min (tp_credential self) (tp_credential request))
    (Z.min (tp_response_header self) (tp_response_header request))
    (Z.min (tp_first_event self) (tp_first_event request))
    (Z.min (tp_idle_stream self) (tp_idle_stream request)).

(** ** Retry bounds *)
Definition MAX_ATTEMPTS_HARD_LIMIT : Z := 8.
Record RetryPolicy := mk_retry_policy { rp_max_attempts : Z; rp_minimum_attempt_budget : Z }.
Definition retry_policy_new : RetryPolicy := mk_retry_policy 1 (from_millis 100).
Definition retry_policy_standard : RetryPolicy := mk_retry_policy 3 (from_millis 100).

Definition with_max_attempts (value : Z) (p : RetryPolicy) : result ValidationError RetryPolicy :=
  if value =? 0 then
    Err (validation_error "max_attempts" ValidationReason.Zero "max attempts must be positive")
  else if MAX_ATTEMPTS_HARD_LIMIT <? value then
    Err (validation_error "max_attempts" ValidationReason.OutOfRange
           "max attempts exceeds the SDK hard limit")
  else Ok (mk_retry_policy value (rp_minimum_attempt_budget p)).

Definition with_minimum_attempt_budget (value : Z) (p : RetryPolicy)
  : result ValidationError RetryPolicy :=
  if value =? 0 then
    Err (validation_error "minimum_attempt_budget" ValidationReason.Zero
           "minimum attempt budget must be positive")
  else Ok (mk_retry_policy (rp_max_attempts p) value).

Definition tighten_retries (self request : RetryPolicy) : RetryPolicy :=
  mk_retry_policy (Z.min (rp_max_attempts self) (rp_max_attempts request))
    (Z.max (rp_minimum_attempt_budget self) (rp_minimum_attempt_budget request)).

Inductive DeliveryState := NothingDelivered | DomainEventDelivered.
#[global] Instance DeliveryState_eq_dec : EqDecision DeliveryState.
Proof. solve_decision. Defined.

Inductive RetryDecision := Fail_ | Retry (reason : RetryReason).

(** [Option::is_some_and]. *)
Definition is_some_and {A} (p : A -> bool) (o : option A) : bool :=
  match o with Some a => p a | None => false end.

Definition retryable_timeout (e : TimeoutError) : bool :=
  match toe_stage e with
  | TimeoutStage.Connect | TimeoutStage.ResponseHeader | TimeoutStage.FirstEvent =>
      negb (toe_overall_limited e)
  | _ => false
  end.

Definition decide_retry (error : LlmError) (delivery : DeliveryState) (attempt_number : Z)
    (policy : RetryPolicy) (remaining : option Z) (replay_safe : bool) : RetryDecision :=
  if bool_decide (delivery = DomainEventDelivered) || (rp_max_attempts policy <=? attempt_number)
     || is_some_and (fun v => v <? rp_minimum_attempt_budget policy) remaining
  then Fail_
  else
    match error with
    | LlmError.Transport e =>
        match te_stage e with
        | ErrorStage.Connect => Retry ConnectFailure
        | ErrorStage.Body => if replay_safe then Retry EarlyBodyFailure else Fail_
        | _ => Fail_
        end
    | LlmError.Timeout e => if retryable_timeout e then Retry StageTimeout else Fail_
    | LlmError.Credential CredentialFailure.Timeout => Retry CredentialTimeout
    | LlmError.HttpStatus e =>
        if (hse_status e =? 408) && replay_safe then Retry RequestTimeoutStatus
        else if hse_status e =? 429 then Retry RateLimited
        else if in_range 502 504 (hse_status e) && replay_safe then Retry TransientServerError
        else Fail_
    | LlmError.Protocol e =>
        if bool_decide (pe_hint e = Maybe) && replay_safe then Retry EarlyBodyFailure else Fail_
    | LlmError.TruncatedStream => if replay_safe then Retry EarlyTruncation else Fail_
    | _ => Fail_
    end.

(** ** Waits *)
Definition MAX_CONFIGURED_WAIT : Z := from_hours 1.
Record RetryWaitPolicy := mk_retry_wait_policy {
  rw_base_delay : Z; rw_max_delay : Z; rw_server_delay_cap : Z; rw_max_total_wait : Z }.
Definition retry_wait_policy_new : RetryWaitPolicy :=
  mk_retry_wait_policy (from_millis 100) (from_secs 5) (from_mins 1) (from_mins 1).

Definition validate_wait (field : string) (value : Z) : result ValidationError unit :=
  if value =? 0 then
    Err (validation_error field ValidationReason.Zero "retry wait duration must be positive")
  else if MAX_CONFIGURED_WAIT <? value then
    Err (validation_error field ValidationReason.OutOfRange
           "retry wait duration exceeds the SDK hard limit")
  else Ok tt.

Definition with_base_delay (value : Z) (p : RetryWaitPolicy) : result ValidationError RetryWaitPolicy :=
  _ ← validate_wait "base_delay" value;
  Ok (mk_retry_wait_policy value (rw_max_delay p) (rw_server_delay_cap p) (rw_max_total_wait p)).
Definition with_max_delay (value : Z) (p : RetryWaitPolicy) : result ValidationError RetryWaitPolicy :=
  _ ← validate_wait "max_delay" value;
  Ok (mk_retry_wait_policy (rw_base_delay p) value (rw_server_delay_cap p) (rw_max_total_wait p)).
Definition with_server_delay_cap (value : Z) (p : RetryWaitPolicy)
  : result ValidationError RetryWaitPolicy :=
  _ ← validate_wait "server_delay_cap" value;
  Ok (mk_retry_wait_policy (rw_base_delay p) (rw_max_delay p) value (rw_max_total_wait p)).
Definition with_max_total_wait (value : Z) (p : RetryWaitPolicy)
  : result ValidationError RetryWaitPolicy :=
  _ ← validate_wait "max_total_wait" value;
  Ok (mk_retry_wait_policy (rw_base_delay p) (rw_max_delay p) (rw_server_delay_cap p) value).

Definition tighten_waits (self request : RetryWaitPolicy) : RetryWaitPolicy :=
  mk_retry_wait_policy (Z.max (rw_base_delay self) (rw_base_delay request))
    (Z.min (rw_max_delay self) (rw_max_delay request))
    (Z.min (rw_server_delay_cap self) (rw_server_delay_cap request))
    (Z.min (rw_max_total_wait self) (rw_max_total_wait request)).

Record RetryWaitPlan := mk_retry_wait_plan {
  wp_client_delay : Z; wp_server_delay_valid : bool; wp_server_delay_capped : bool;
  wp_effective_delay : Z }.

Definition duration_from_nanos (value : Z) : Z :=
  let seconds := Z.min (value / 1000000000) U64_MAX in
  let nanos := value mod 1000000000 in
  from_secs seconds + nanos.

Definition calculate_retry_wait (policy : RetryWaitPolicy) (retry_index random_sample : Z)
    (server_delay : option Z) (total_waited : Z) (remaining_deadline : option Z)
    (minimum_attempt_budget : Z) : option RetryWaitPlan :=
  let exponent := Z.min retry_index 63 in
  let multiplier := Z.shiftl 1 exponent in
  let multiplier := if multiplier <=? U32_MAX then multiplier else U32_MAX in
  let exponential := duration_saturating_mul (rw_base_delay policy) multiplier in
  let exponential_cap := Z.min exponential (rw_max_delay policy) in
  let cap_nanos := exponential_cap in
  let client_nanos :=
    if cap_nanos =? 0 then 0 else random_sample mod (Z.min (cap_nanos + 1) U128_MAX) in
  let client_delay := duration_from_nanos client_nanos in
  let server_delay_capped := is_some_and (fun d => rw_server_delay_cap policy <? d) server_delay in
  let server_delay := (fun d => Z.min d (rw_server_delay_cap policy)) <$> server_delay in
  let effective_delay :=
    Z.min (Z.max client_delay (default 0 server_delay)) (rw_server_delay_cap policy) in
  if rw_max_total_wait policy <? duration_saturating_add total_waited effective_delay then None
  else if is_some_and
    (fun remaining => remaining <? duration_saturating_add effective_delay minimum_attempt_budget)
    remaining_deadline then None
  else Some (mk_retry_wait_plan client_delay (bool_decide (is_Some server_delay))
               server_delay_capped effective_delay).

(** ** Idempotency *)
Definition MAX_KEY_BYTES : Z := 128.
Definition key_byte (b : ascii) : bool :=
  is_ascii_alphanumeric b || bool_decide (b ∈ ["-"; "_"; "."; ":"]%char).

Definition key_validation (reason : ValidationReason.t) (summary : string) : ValidationError :=
  validation_error "idempotency_key" reason summary.

Definition IdempotencyKey_new (value : string) : result ValidationError string :=
  if str_is_empty value then
    Err (key_validation ValidationReason.Empty "idempotency key is empty")
  else if MAX_KEY_BYTES <? str_len value then
    Err (key_validation ValidationReason.OutOfRange "idempotency key exceeds the SDK byte limit")
  else if negb (str_all key_byte value) then
    Err (key_validation ValidationReason.InvalidIdentifier
           "idempotency key contains an unsupported character")
  else Ok value.

Module IdempotencyCapability.
Inductive t := Supported | Unsupported | Unknown.
End IdempotencyCapability.
#[global] Instance IdempotencyCapability_eq_dec : EqDecision IdempotencyCapability.t.
Proof. solve_decision. Defined.

Inductive IdempotencyKeySource := Caller | SdkGenerated.
Inductive IdempotencyWire := StandardHeader.
Record IdempotencyPolicy := mk_idempotency_policy {
  ip_capability : IdempotencyCapability.t; ip_wire : option IdempotencyWire }.
Definition idempotency_unknown := mk_idempotency_policy IdempotencyCapability.Unknown None.
Definition idempotency_unsupported := mk_idempotency_policy IdempotencyCapability.Unsupported None.
Definition idempotency_standard_header :=
  mk_idempotency_policy IdempotencyCapability.Supported (Some StandardHeader).
Definition idempotency_header_name (p : IdempotencyPolicy) : option string :=
  match ip_wire p with Some StandardHeader => Some "idempotency-key" | None => None end.

Record ResolvedIdempotency := mk_resolved_idempotency {
  ri_key : option string; ri_source : option IdempotencyKeySource;
  ri_capability : IdempotencyCapability.t; ri_header : option string }.

(** [ResolvedIdempotency::resolve]; [generated] is the key the random
    generator would produce. *)
Definition resolve_idempotency (policy : IdempotencyPolicy) (caller_key : option string)
    (generate automatic_for_retry : bool) (generated : string)
  : result LlmError ResolvedIdempotency :=
  let requested := bool_decide (is_Some caller_key) || generate in
  let supported := bool_decide (ip_capability policy = IdempotencyCapability.Supported) in
  if requested && negb supported then
    Err (LlmError.Validation
      (key_validation
         (match ip_capability policy with
          | IdempotencyCapability.Unsupported => ValidationReason.CapabilityUnsupported
          | _ => ValidationReason.CapabilityUnknown
          end) "selected provider does not declare idempotency-key support"))
  else
    let '(key, source) :=
      match caller_key with
      | Some key => (Some key, Some Caller)
      | None =>
          if supported && (generate || automatic_for_retry)
          then (Some generated, Some SdkGenerated) else (None, None)
      end in
    Ok (mk_resolved_idempotency key source (ip_capability policy) (idempotency_header_name policy)).

Definition replay_safe (r : ResolvedIdempotency) : bool :=
  bool_decide (is_Some (ri_key r)) &&
  bool_decide (ri_capability r = IdempotencyCapability.Supported).

(** ** Execution state

    The progress, delivery and terminal cells are atomics shared between the
    stream's owner and the request task; each [load], [store] and
    [compare_exchange] below is one atomic step. *)
Inductive RequestProgress := Planned | Attempting | Streaming | Terminal.
Record RequestExecutionState := mk_execution_state {
  es_progress : RequestProgress; es_delivered : bool; es_terminal : bool }.
Definition execution_state_new : RequestExecutionState := mk_execution_state Planned false false.

Definition store_progress (p : RequestProgress) (s : RequestExecutionState) :=
  mk_execution_state p (es_delivered s) (es_terminal s).

(** The operations run to completion without interference. *)
Definition begin_attempt (s : RequestExecutionState) : RequestExecutionState :=
  if es_terminal s then s else store_progress Attempting s.
Definition mark_delivered (s : RequestExecutionState) : RequestExecutionState :=
  let s := mk_execution_state (es_progress s) true (es_terminal s) in
  if es_terminal s then s else store_progress Streaming s.
Definition delivery_state (s : RequestExecutionState) : DeliveryState :=
  if es_delivered s then DomainEventDelivered else NothingDelivered.
Definition mark_terminal (s : RequestExecutionState) : RequestExecutionState * bool :=
  if es_terminal s then (s, false)
  else (mk_execution_state Terminal (es_delivered s) true, true).

(** The same operations as atomic steps of concurrent callers: where a caller
    stands inside one of them. *)
Inductive caller :=
| Outside
| BeginLoaded (terminal : bool)
| DeliverStored
| DeliverLoaded (terminal : bool)
| TerminalSwapped (won : bool)
| TerminalReturned (won : bool).

Inductive atomic_step : RequestExecutionState * caller -> RequestExecutionState * caller -> Prop :=
| begin_load s : atomic_step (s, Outside) (s, BeginLoaded (es_terminal s))
| begin_store s : atomic_step (s, BeginLoaded false) (store_progress Attempting s, Outside)
| begin_skip s : atomic_step (s, BeginLoaded true) (s, Outside)
| deliver_store s :
    atomic_step (s, Outside) (mk_execution_state (es_progress s) true (es_terminal s), DeliverStored)
| deliver_load s : atomic_step (s, DeliverStored) (s, DeliverLoaded (es_terminal s))
| deliver_progress s : atomic_step (s, DeliverLoaded false) (store_progress Streaming s, Outside)
| deliver_skip s : atomic_step (s, DeliverLoaded true) (s, Outside)
| terminal_swap s : es_terminal s = false ->
    atomic_step (s, Outside)
      (mk_execution_state (es_progress s) (es_delivered s) true, TerminalSwapped true)
| terminal_lost s : es_terminal s = true -> atomic_step (s, Outside) (s, TerminalSwapped false)
| terminal_store s :
    atomic_step (s, TerminalSwapped true) (store_progress Terminal s, TerminalReturned true)
| terminal_answer s : atomic_step (s, TerminalSwapped false) (s, TerminalReturned false).

(** Callers take turns in any order; [callers] maps each to where it stands. *)
Inductive interleaving : RequestExecutionState * gmap Z caller -> Prop :=
| il_start : interleaving (execution_state_new, ∅)
| il_step s s' callers who c' :
    interleaving (s, callers) ->
    atomic_step (s, default Outside (callers !! who)) (s', c') ->
    interleaving (s', <[who := c']> callers).

Definition won (c : caller) : bool :=
  match c with TerminalSwapped b | TerminalReturned b => b | _ => false end.

(** ** Properties *)

(** What the loops of the runner rely on. *)
Definition retry_policy_wf (p : RetryPolicy) : Prop :=
  1 <= rp_max_attempts p <= MAX_ATTEMPTS_HARD_LIMIT /\ duration (rp_minimum_attempt_budget p).
Definition wait_wf (d : Z) : Prop := 0 < d <= MAX_CONFIGURED_WAIT.
Definition wait_policy_wf (p : RetryWaitPolicy) : Prop :=
  wait_wf (rw_base_delay p) /\ wait_wf (rw_max_delay p) /\ wait_wf (rw_server_delay_cap p) /\
  wait_wf (rw_max_total_wait p).

(** The table of retryable failures. *)
Inductive retryable : LlmError -> bool -> RetryReason -> Prop :=
| retry_connect e safe : te_stage e = ErrorStage.Connect ->
    retryable (LlmError.Transport e) safe ConnectFailure
| retry_body e : te_stage e = ErrorStage.Body ->
    retryable (LlmError.Transport e) true EarlyBodyFailure
| retry_timeout e safe :
    toe_stage e ∈ [TimeoutStage.Connect; TimeoutStage.ResponseHeader; TimeoutStage.FirstEvent] ->
    toe_overall_limited e = false -> retryable (LlmError.Timeout e) safe StageTimeout
| retry_credential safe :
    retryable (LlmError.Credential CredentialFailure.Timeout) safe CredentialTimeout
| retry_408 e : hse_status e = 408 -> retryable (LlmError.HttpStatus e) true RequestTimeoutStatus
| retry_429 e safe : hse_status e = 429 -> retryable (LlmError.HttpStatus e) safe RateLimited
| retry_5xx e : 502 <= hse_status e <= 504 ->
    retryable (LlmError.HttpStatus e) true TransientServerError
| retry_protocol e : pe_hint e = Maybe -> retryable (LlmError.Protocol e) true EarlyBodyFailure
| retry_truncated : retryable LlmError.TruncatedStream true EarlyTruncation.

(** The boundary that closes before the table is consulted. *)
Definition may_retry (delivery : DeliveryState) (attempt_number : Z) (policy : RetryPolicy)
    (remaining : option Z) : Prop :=
  delivery = NothingDelivered /\ attempt_number < rp_max_attempts policy /\
  forall rest, remaining = Some rest -> rp_minimum_attempt_budget policy <= rest.

Lemma may_retry_closed delivery n policy remaining :
  bool_decide (delivery = DomainEventDelivered) || (rp_max_attempts policy <=? n)
    || is_some_and (fun v => v <? rp_minimum_attempt_budget policy) remaining = false <->
  may_retry delivery n policy remaining.
Proof.
  unfold may_retry. rewrite !orb_false_iff, bool_decide_eq_false, Z.leb_gt. split.
  - intros [[Hd Hn] Hr]. split; [by destruct delivery|]. split; [done|]. intros l ->. cbn in Hr.
    by apply Z.ltb_ge in Hr.
  - intros (-> & Hn & Hr). split_and!; [done|done|]. destruct remaining as [l|]; [|done]. cbn.
    apply Z.ltb_ge. auto.
Qed.

Lemma decide_retry_iff error delivery n policy remaining safe reason :
  decide_retry error delivery n policy remaining safe = Retry reason <->
  may_retry delivery n policy remaining /\ retryable error safe reason.
Proof.
  rewrite <- may_retry_closed. unfold decide_retry. destruct (_ || _); [naive_solver|].
  split.
  - intros H. split; [done|]. destruct error; try done.
    + destruct kind; simplify_eq. constructor.
    + destruct (te_stage e) eqn:E; simplify_eq; [by constructor|]. destruct safe; simplify_eq.
      by constructor.
    + destruct (hse_status e =? 408) eqn:E1; [apply Z.eqb_eq in E1|]; destruct safe; cbn in H;
        simplify_eq; try (by constructor);
        (destruct (hse_status e =? 429) eqn:E2; [apply Z.eqb_eq in E2; simplify_eq; by constructor|]);
        rewrite ?andb_true_r, ?andb_false_r in H; try done.
      destruct (in_range _ _ _) eqn:E3; simplify_eq. apply in_range_spec in E3. by constructor.
    + destruct (bool_decide _) eqn:E; [apply bool_decide_eq_true in E|done].
      destruct safe; simplify_eq/=. by constructor.
    + destruct safe; simplify_eq. constructor.
    + destruct (retryable_timeout e) eqn:E; simplify_eq. unfold retryable_timeout in E.
      constructor; destruct (toe_stage e); try done; try set_solver; by destruct (toe_overall_limited e).
  - intros [_ H]. destruct H as [e s H|e H|e s H H'| |e H|e s H|e H|e H|]; try rewrite H; try done.
    + unfold retryable_timeout. rewrite H'.
      rewrite !elem_of_cons in H. destruct H as [->|[->|[->|?%elem_of_nil]]]; done.
    + assert (hse_status e = 502 \/ hse_status e = 503 \/ hse_status e = 504) as [->|[->| ->]] by lia; done.
Qed.

(** The retry decision, exactly: a failed attempt is retried for a reason
    if and only if nothing has been delivered to the caller, the attempt limit
    is not reached, the remaining deadline covers the minimum attempt budget,
    and the failure is in the table of retryable ones for that reason; and
    when a replay is not known to be safe, only failures from before the
    provider could act on the request, stage timeouts and rate limits qualify. *)
Theorem decide_retry_exact error delivery n policy remaining safe reason :
  (decide_retry error delivery n policy remaining safe = Retry reason <->
   may_retry delivery n policy remaining /\ retryable error safe reason) /\
  (decide_retry error delivery n policy remaining false = Retry reason ->
   reason ∈ [ConnectFailure; StageTimeout; CredentialTimeout; RateLimited]).
Proof.
  split; [apply decide_retry_iff|]. rewrite decide_retry_iff. intros [_ H].
  inversion H; subst; set_solver.
Qed.

(** A request's policies only tighten the client's: under the combined
    retry policy an attempt is retried exactly when both policies would retry
    it, and every bound of the combined wait and timeout policies is within
    both. *)
Theorem tighten_is_meet a b ta tb wa wb error delivery n remaining safe reason :
  (decide_retry error delivery n (tighten_retries a b) remaining safe = Retry reason <->
   decide_retry error delivery n a remaining safe = Retry reason /\
   decide_retry error delivery n b remaining safe = Retry reason) /\
  (forall field : TimeoutPolicy -> Z,
     field ∈ [tp_credential; tp_response_header; tp_first_event; tp_idle_stream] ->
     field (tighten_timeouts ta tb) = Z.min (field ta) (field tb)) /\
  (forall field : RetryWaitPolicy -> Z,
     field ∈ [rw_max_delay; rw_server_delay_cap; rw_max_total_wait] ->
     field (tighten_waits wa wb) = Z.min (field wa) (field wb)).
Proof.
  split; [|split].
  - rewrite !decide_retry_iff. unfold may_retry, tighten_retries. cbn. split.
    + intros [(-> & Hn & Hr) Ht]. split; (split; [|done]); split_and!; try done; try lia;
        intros l Hl; specialize (Hr l Hl); lia.
    + intros [[(-> & Hn & Hr) Ht] [(_ & Hn' & Hr') _]]. split; [|done]. split_and!; try done; try lia.
      intros l Hl. specialize (Hr l Hl). specialize (Hr' l Hl). lia.
  - intros field Hf. repeat (apply elem_of_cons in Hf as [->|Hf]; [done|]). by apply elem_of_nil in Hf.
  - intros field Hf. repeat (apply elem_of_cons in Hf as [->|Hf]; [done|]). by apply elem_of_nil in Hf.
Qed.

(** The wait as a formula over the integers. *)
Definition backoff_cap (policy : RetryWaitPolicy) (retry_index : Z) : Z :=
  Z.min (rw_base_delay policy * 2 ^ retry_index) (rw_max_delay policy).
Definition wait_formula (policy : RetryWaitPolicy) (retry_index sample : Z) (server : option Z)
    (total : Z) (remaining : option Z) (budget : Z) : option RetryWaitPlan :=
  let client := sample mod (backoff_cap policy retry_index + 1) in
  let effective := Z.min (Z.max client (default 0 server)) (rw_server_delay_cap policy) in
  if (total + effective <=? rw_max_total_wait policy)
     && match remaining with Some rest => effective + budget <=? rest | None => true end
  then Some (mk_retry_wait_plan client (bool_decide (is_Some server))
               (is_some_and (fun d => rw_server_delay_cap policy <? d) server) effective)
  else None.

Lemma duration_from_nanos_id n : 0 <= n <= DURATION_MAX -> duration_from_nanos n = n.
Proof.
  unfold duration_from_nanos, DURATION_MAX, from_secs, NANOS. intros Hn.
  pose proof (Z.div_mod n 1000000000 ltac:(lia)) as Hd.
  pose proof (Z.mod_pos_bound n 1000000000 ltac:(lia)).
  rewrite Z.min_l by lia. lia.
Qed.

Lemma shift_multiplier i :
  0 <= i <= 31 ->
  (if Z.shiftl 1 (Z.min i 63) <=? U32_MAX then Z.shiftl 1 (Z.min i 63) else U32_MAX) = 2 ^ i.
Proof.
  intros Hi. rewrite Z.min_l by lia. rewrite Z.shiftl_1_l.
  assert (2 ^ i <= 2 ^ 31) by (apply Z.pow_le_mono_r; lia).
  rewrite (proj2 (Z.leb_le _ _)); [done|]. unfold U32_MAX. lia.
Qed.

Lemma saturating_le a b m : m < DURATION_MAX -> (m <? duration_saturating_add a b) = (m <? a + b).
Proof.
  intros Hm. unfold duration_saturating_add. destruct (Z.ltb_spec m (a + b)).
  - apply Z.ltb_lt. lia.
  - apply Z.ltb_ge. lia.
Qed.

(** No width or saturation of the implementation is visible: for every
    configurable policy and every retry the runner can reach, the wait is the
    closed formula: full jitter over the capped exponential backoff, raised to
    the server's delay, both cut at the server cap, and refused when the
    cumulative wait or the remaining deadline (less the next attempt's budget)
    would not cover it. *)
Theorem calculate_retry_wait_exact policy i sample server total remaining budget :
  wait_policy_wf policy -> 0 <= i <= 31 -> 0 <= sample <= U128_MAX ->
  (forall rest, remaining = Some rest -> rest < DURATION_MAX) ->
  calculate_retry_wait policy i sample server total remaining budget =
  wait_formula policy i sample server total remaining budget.
Proof.
  intros ([Hb _] & [Hm Hm'] & [Hs _] & [Ht Ht']) Hi Hsample Hrem.
  assert (MAX_CONFIGURED_WAIT < DURATION_MAX) as Hmax by (by vm_compute).
  assert (DURATION_MAX + 1 < U128_MAX) as Hd128 by (by vm_compute).
  unfold calculate_retry_wait, wait_formula. cbv zeta. rewrite shift_multiplier by done.
  assert (0 < 2 ^ i) by (apply Z.pow_pos_nonneg; lia).
  assert (Z.min (duration_saturating_mul (rw_base_delay policy) (2 ^ i)) (rw_max_delay policy)
    = backoff_cap policy i) as -> by (unfold duration_saturating_mul, backoff_cap; lia).
  assert (0 < backoff_cap policy i <= rw_max_delay policy) as Hcap by (unfold backoff_cap; nia).
  rewrite (proj2 (Z.eqb_neq _ _)) by lia. rewrite (Z.min_l (backoff_cap policy i + 1)) by lia.
  pose proof (Z.mod_pos_bound sample (backoff_cap policy i + 1) ltac:(lia)) as Hmod.
  rewrite duration_from_nanos_id by lia.
  set (client := sample mod _). set (cap := rw_server_delay_cap policy).
  assert (Z.min (Z.max client (default 0 ((fun d => Z.min d cap) <$> server))) cap =
    Z.min (Z.max client (default 0 server)) cap) as -> by (destruct server; cbn; lia).
  assert (bool_decide (is_Some ((fun d => Z.min d cap) <$> server)) = bool_decide (is_Some server))
    as -> by (by destruct server).
  rewrite saturating_le by lia. rewrite Z.ltb_antisym.
  destruct (total + _ <=? rw_max_total_wait policy); [|done]. cbn [negb andb].
  destruct remaining as [rest|]; [|done]. cbn [is_some_and].
  rewrite saturating_le by (by apply Hrem). rewrite Z.ltb_antisym. by destruct (_ + budget <=? rest).
Qed.

Lemma calculate_retry_wait_exact_witness :
  calculate_retry_wait retry_wait_policy_new 2 123456789012 (Some (from_secs 90)) 0
    (Some (from_mins 5)) (from_millis 100) =
  wait_formula retry_wait_policy_new 2 123456789012 (Some (from_secs 90)) 0
    (Some (from_mins 5)) (from_millis 100).
Proof.
  apply calculate_retry_wait_exact.
  - unfold wait_policy_wf, wait_wf. cbn. vm_compute. naive_solver.
  - lia.
  - vm_compute. naive_solver.
  - intros rest [= <-]. by vm_compute.
Defined.

(** ** Concurrent callers *)
Lemma won_le_one s callers :
  interleaving (s, callers) ->
  (forall i j ci cj, callers !! i = Some ci -> callers !! j = Some cj ->
     won ci = true -> won cj = true -> i = j) /\
  ((exists i c, callers !! i = Some c /\ won c = true) <-> es_terminal s = true).
Proof.
  intros H. remember (s, callers) as p eqn:E. revert s callers E.
  induction H as [|s s' callers who c' _ IH Hstep]; intros t cs [= <- <-].
  - split; [intros i j ci cj Hi; by rewrite lookup_empty in Hi|]. split; [|done].
    intros (i & c & Hi & _). by rewrite lookup_empty in Hi.
  - destruct (IH _ _ eq_refl) as [Huniq Hterm]. clear IH.
    assert (won c' = won (default Outside (callers !! who)) /\ es_terminal s' = es_terminal s \/
      c' = TerminalSwapped true /\ es_terminal s = false /\ es_terminal s' = true) as Hc.
    { remember (default Outside (callers !! who)) as c. destruct c; inversion Hstep; subst; auto. }
    assert (forall i c, callers !! i = Some c -> won c = true -> es_terminal s = true) as Hno
      by (intros i c Hi Hw; apply Hterm; eauto).
    destruct Hc as [[Hw Ht]|(-> & Ht & Ht')].
    + assert (forall i c, <[who := c']> callers !! i = Some c -> won c = true ->
        exists c0, callers !! i = Some c0 /\ won c0 = true) as Hback.
      { intros i c Hi Hwc. destruct (decide (who = i)) as [<-|Hne].
        - rewrite lookup_insert_eq in Hi. injection Hi as <-. rewrite Hw in Hwc.
          destruct (callers !! who) as [c0|]; [eauto|done].
        - rewrite lookup_insert_ne in Hi by done. eauto. }
      split.
      * intros i j ci cj Hi Hj Hwi Hwj. destruct (Hback _ _ Hi Hwi) as (? & ? & ?).
        destruct (Hback _ _ Hj Hwj) as (? & ? & ?). eauto.
      * rewrite Ht, <- Hterm. split; [intros (i & c & Hi & Hwc); destruct (Hback _ _ Hi Hwc) as (?&?&?); eauto|].
        intros (i & c & Hi & Hwc). destruct (decide (who = i)) as [<-|Hne].
        -- exists who, c'. rewrite lookup_insert_eq. split; [done|]. rewrite Hw, Hi. done.
        -- exists i, c. by rewrite lookup_insert_ne.
    + assert (forall i c, callers !! i = Some c -> won c = true -> False) as Hnone
        by (intros i c Hi Hwc; specialize (Hno _ _ Hi Hwc); congruence).
      split.
      * intros i j ci cj Hi Hj Hwi Hwj.
        rewrite lookup_insert_Some in Hi, Hj. naive_solver.
      * split; [done|]. intros _. exists who, (TerminalSwapped true). by rewrite lookup_insert_eq.
Qed.

(** However the atomic steps of concurrent callers interleave, at most one
    [mark_terminal] call ever answers true, one does as soon as the request is
    terminal, and a recorded delivery is never undone by any later step. *)
Theorem terminal_unique s callers :
  interleaving (s, callers) ->
  (forall i j, callers !! i = Some (TerminalReturned true) ->
     callers !! j = Some (TerminalReturned true) -> i = j) /\
  (es_terminal s = true <-> exists i c, callers !! i = Some c /\ won c = true) /\
  (forall who s' c', atomic_step (s, default Outside (callers !! who)) (s', c') ->
     (es_delivered s = true -> es_delivered s' = true) /\
     (es_terminal s = true -> es_terminal s' = true)).
Proof.
  intros H. destruct (won_le_one _ _ H) as [Hu Ht]. split_and!.
  - intros i j Hi Hj. by apply (Hu i j _ _ Hi Hj).
  - by rewrite Ht.
  - intros who s' c' Hstep. inversion Hstep; subst; done.
Qed.

Lemma terminal_unique_witness :
  exists i c, (<[2 := TerminalSwapped false]> (<[1 := TerminalSwapped true]> ∅) : gmap Z caller) !! i
    = Some c /\ won c = true.
Proof.
  apply (terminal_unique (mk_execution_state Planned false true)); [|done].
  apply il_step with (s := mk_execution_state Planned false true).
  - apply il_step with (s := execution_state_new); [apply il_start|]. by apply terminal_swap.
  - by apply terminal_lost.
Defined.
