(* ===== verification/RetryAfter.v ===== *)
(** * Server retry delays and rate-limit metadata

    The header parsers of [src/src/execution/reliability/wait.rs] (delta
    seconds, Unix seconds, IMF-fixdate) and the typed rate-limit observation of
    [src/src/provider/rate_limit.rs]. Header maps are those of the [http]
    crate, reached through the operations the source uses. [i32] arithmetic is
    written with its wrap-around. *)
From S2P Require Import Prelude Errors Reliability.

(** ** Interfaces *)

(** [http::HeaderMap::get_all] and [HeaderValue::to_str]. *)
Class HttpHeaders := {
  HeaderMap : Type;
  HeaderValue : Type;
  get_all : HeaderMap -> string -> list HeaderValue;
  to_str : HeaderValue -> option string }.

(** ** Time *)

(** [SystemTime] in nanoseconds from [UNIX_EPOCH]; seconds are an [i64]. *)
Definition UNIX_EPOCH : Z := 0.
Definition system_checked_add (t d : Z) : option Z :=
  if (t + d) / NANOS <=? I64_MAX then Some (t + d) else None.
Definition duration_until (now target : Z) : Z := Z.max (target - now) 0.

(** [i32] and [i64] operations. *)
Definition i32_wrap (x : Z) : Z := (x - I32_MIN) mod 4294967296 + I32_MIN.
Definition i32_add (a b : Z) : Z := i32_wrap (a + b).
Definition i32_sub (a b : Z) : Z := i32_wrap (a - b).
Definition i32_mul (a b : Z) : Z := i32_wrap (a * b).
Definition i32_div (a b : Z) : Z := Z.quot a b.
Definition i32_try_from (x : Z) : option Z := checked I32_MIN I32_MAX x.
Definition i64_checked_add (a b : Z) : option Z := checked I64_MIN I64_MAX (a + b).
Definition i64_checked_mul (a b : Z) : option Z := checked I64_MIN I64_MAX (a * b).

(** ** Dates *)
Definition days_in_month (year month : Z) : option Z :=
  match month with
  | 1 | 3 | 5 | 7 | 8 | 10 | 12 => Some 31
  | 4 | 6 | 9 | 11 => Some 30
  | 2 => if (Z.rem year 400 =? 0) || ((Z.rem year 4 =? 0) && negb (Z.rem year 100 =? 0))
         then Some 29 else Some 28
  | _ => None
  end.

Definition parse_month (value : string) : option Z :=
  if str_eqb value "Jan" then Some 1
  else if str_eqb value "Feb" then Some 2
  else if str_eqb value "Mar" then Some 3
  else if str_eqb value "Apr" then Some 4
  else if str_eqb value "May" then Some 5
  else if str_eqb value "Jun" then Some 6
  else if str_eqb value "Jul" then Some 7
  else if str_eqb value "Aug" then Some 8
  else if str_eqb value "Sep" then Some 9
  else if str_eqb value "Oct" then Some 10
  else if str_eqb value "Nov" then Some 11
  else if str_eqb value "Dec" then Some 12
  else None.

Definition days_from_civil (year month day : Z) : option Z :=
  let adjusted_year := i32_sub year (if month <=? 2 then 1 else 0) in
  let era :=
    i32_div (if 0 <=? adjusted_year then adjusted_year else i32_sub adjusted_year 399) 400 in
  let year_of_era := i32_sub adjusted_year (i32_mul era 400) in
  month_i32 ← i32_try_from month;
  let shifted_month := i32_add month_i32 (if 2 <? month then -3 else 9) in
  day_i32 ← i32_try_from day;
  let day_of_year :=
    i32_sub (i32_add (i32_div (i32_add (i32_mul 153 shifted_month) 2) 5) day_i32) 1 in
  let day_of_era :=
    i32_add (i32_sub (i32_add (i32_mul year_of_era 365) (i32_div year_of_era 4))
               (i32_div year_of_era 100)) day_of_year in
  Some (i32_sub (i32_add (i32_mul era 146097) day_of_era) 719468).

(** [str::split_ascii_whitespace] and [str::ends_with]. *)
Definition is_ascii_whitespace (b : ascii) : bool :=
  bool_decide (byte_val b ∈ [32; 9; 10; 12; 13]).
Definition split_ascii_whitespace (s : string) : list string :=
  List.filter (fun part => negb (str_is_empty part)) (split_on is_ascii_whitespace s).
Fixpoint ends_with (c : ascii) (s : string) : bool :=
  match s with
  | EmptyString => false
  | String b EmptyString => Ascii.eqb b c
  | String _ s => ends_with c s
  end.

Definition parse_http_date (value : string) : option Z :=
  match split_ascii_whitespace value with
  | [weekday; day; month; year; time; zone] =>
      day ← parse_u32 day;
      month ← parse_month month;
      year ← parse_i32 year;
      if negb (ends_with "," weekday) || negb (str_eqb zone "GMT") then None
      else
        match split_char ":" time with
        | [hour; minute; second] =>
            hour ← parse_u32 hour;
            minute ← parse_u32 minute;
            second ← parse_u32 second;
            days_max ← days_in_month year month;
            if (day =? 0) || (days_max <? day) || (23 <? hour) || (59 <? minute) || (59 <? second)
            then None
            else
              days ← days_from_civil year month day;
              seconds ← i64_checked_mul days 86400;
              seconds ← i64_checked_add seconds (hour * 3600 + minute * 60 + second);
              if seconds <? 0 then None
              else system_checked_add UNIX_EPOCH (from_secs seconds)
        | _ => None
        end
  | _ => None
  end.

(** ** Retry-After *)
Definition all_digits (value : string) : bool :=
  negb (str_is_empty value) && str_all is_ascii_digit value.

Definition parse_delta_seconds (value : string) : option Z :=
  if all_digits value then from_secs <$> parse_u64 value else None.

Definition parse_unix_seconds (now : Z) (value : string) : option Z :=
  timestamp ← parse_u64 value;
  target ← system_checked_add UNIX_EPOCH (from_secs timestamp);
  Some (duration_until now target).

Inductive RetryAfterHeader :=
| StandardRetryAfter
| ProviderDeltaSeconds (name : string)
| ProviderUnixSeconds (name : string).

Definition retry_header_name (h : RetryAfterHeader) : string :=
  match h with
  | StandardRetryAfter => "retry-after"
  | ProviderDeltaSeconds name | ProviderUnixSeconds name => name
  end.

Record RetryAfterObservation := mk_retry_after_observation {
  ra_present : bool; ra_valid : bool; ra_delay : option Z }.

(** The delay one raw value denotes under its declaration. *)
Definition parse_retry_value (declaration : RetryAfterHeader) (now : Z) (value : string) : option Z :=
  match declaration with
  | StandardRetryAfter =>
      match parse_delta_seconds value with
      | Some delay => Some delay
      | None => duration_until now <$> parse_http_date value
      end
  | ProviderDeltaSeconds _ => parse_delta_seconds value
  | ProviderUnixSeconds _ => parse_unix_seconds now value
  end.

Section Headers.
Context {HH : HttpHeaders}.

(** The inner loop: [None] is an early return with an invalid observation. *)
Fixpoint scan_values (declaration : RetryAfterHeader) (now : Z) (values : list HeaderValue)
    (present : bool) (selected : option Z) : option (bool * option Z) :=
  match values with
  | [] => Some (present, selected)
  | raw :: values =>
      value ← to_str raw;
      delay ← parse_retry_value declaration now value;
      if is_some_and (fun s => negb (s =? delay)) selected then None
      else scan_values declaration now values true (Some delay)
  end.

Fixpoint scan_declarations (headers : HeaderMap) (now : Z) (declarations : list RetryAfterHeader)
    (present : bool) (selected : option Z) : option (bool * option Z) :=
  match declarations with
  | [] => Some (present, selected)
  | declaration :: declarations =>
      '(present, selected) ← scan_values declaration now
          (get_all headers (retry_header_name declaration)) present selected;
      scan_declarations headers now declarations present selected
  end.

Definition parse_retry_after (headers : HeaderMap) (declarations : list RetryAfterHeader) (now : Z)
  : RetryAfterObservation :=
  match scan_declarations headers now declarations false None with
  | Some (present, selected) =>
      mk_retry_after_observation present (bool_decide (is_Some selected)) selected
  | None => mk_retry_after_observation true false None
  end.

(** ** Rate limits *)
Inductive RateLimitHeaderKind :=
| RemainingRequests | RemainingUnits (unit : RateLimitUnit) | ResetAfterSeconds
| ResetAtUnixSeconds | RetryAfterSeconds | RetryAtUnixSeconds.
Record RateLimitHeaderSpec := mk_rate_limit_spec { rs_name : string; rs_kind : RateLimitHeaderKind }.
Definition MAX_DECLARATIONS : Z := 16.
Definition MAX_RESET_DELAY : Z := from_hours 24.
Abbreviation RateLimitPolicy := (list RateLimitHeaderSpec).
Definition standard_only : RateLimitPolicy := [].

Definition with_header (spec : RateLimitHeaderSpec) (policy : RateLimitPolicy)
  : result ValidationError RateLimitPolicy :=
  if MAX_DECLARATIONS <=? Z.of_nat (length policy) then
    Err (validation_error "rate_limit.headers" ValidationReason.OutOfRange
           "rate-limit header declaration count exceeds the SDK limit")
  else if existsb (fun existing => str_eqb (rs_name existing) (rs_name spec)) policy then
    Err (validation_error "rate_limit.headers" ValidationReason.Conflict
           "rate-limit header names must be unique")
  else Ok (policy ++ [spec]).

Definition map_valid {A B} (f : A -> B) (v : RateLimitValue A) : RateLimitValue B :=
  match v with
  | RlUnknown => RlUnknown
  | RlValid a => RlValid (f a)
  | RlInvalid => RlInvalid
  end.

Definition merge_value {A} `{EqDecision A} (target incoming : RateLimitValue A) : RateLimitValue A :=
  match target, incoming with
  | RlUnknown, value => value
  | RlValid l, RlValid r => if decide (l = r) then target else RlInvalid
  | _, RlUnknown => target
  | _, _ => RlInvalid
  end.

Fixpoint parse_consistent {A} `{EqDecision A} (parse : string -> option A)
    (values : list HeaderValue) (selected : option A) : RateLimitValue A :=
  match values with
  | [] => match selected with Some a => RlValid a | None => RlUnknown end
  | raw :: values =>
      match to_str raw with
      | None => RlInvalid
      | Some raw =>
          match parse raw with
          | None => RlInvalid
          | Some value =>
              if is_some_and (fun s => negb (bool_decide (s = value))) selected then RlInvalid
              else parse_consistent parse values (Some value)
          end
      end
  end.

Definition parse_rate_u64 (values : list HeaderValue) : RateLimitValue Z :=
  parse_consistent (fun value => if all_digits value then parse_u64 value else None) values None.
Definition parse_duration (values : list HeaderValue) : RateLimitValue Z :=
  map_valid (fun delay => Z.min delay MAX_RESET_DELAY) (map_valid from_secs (parse_rate_u64 values)).
Definition parse_unix_time (now : Z) (values : list HeaderValue) : RateLimitValue Z :=
  map_valid (fun seconds =>
    let target := default now (system_checked_add UNIX_EPOCH (from_secs seconds)) in
    let delay := duration_until now target in
    default now (system_checked_add now (Z.min delay MAX_RESET_DELAY))) (parse_rate_u64 values).

Record rate_limit_fields := mk_rate_fields {
  rf_requests : RateLimitValue Z; rf_units : RateLimitValue RateLimitQuota;
  rf_reset : RateLimitValue RateLimitReset; rf_present : bool }.

(** One turn of the loop over the declarations. *)
Definition observe_spec (headers : HeaderMap) (now : Z) (f : rate_limit_fields)
    (spec : RateLimitHeaderSpec) : rate_limit_fields :=
  let values := get_all headers (rs_name spec) in
  match values with
  | [] => f
  | _ =>
      match rs_kind spec with
      | RemainingRequests =>
          mk_rate_fields (merge_value (rf_requests f) (parse_rate_u64 values)) (rf_units f)
            (rf_reset f) true
      | RemainingUnits unit =>
          mk_rate_fields (rf_requests f)
            (merge_value (rf_units f) (map_valid (fun n => mk_quota n unit) (parse_rate_u64 values)))
            (rf_reset f) true
      | ResetAfterSeconds =>
          mk_rate_fields (rf_requests f) (rf_units f)
            (merge_value (rf_reset f) (map_valid After (parse_duration values))) true
      | ResetAtUnixSeconds =>
          mk_rate_fields (rf_requests f) (rf_units f)
            (merge_value (rf_reset f) (map_valid At (parse_unix_time now values))) true
      | RetryAfterSeconds | RetryAtUnixSeconds =>
          mk_rate_fields (rf_requests f) (rf_units f) (rf_reset f) true
      end
  end.

Definition observe_rate_limit (status : Z) (headers : HeaderMap) (policy : RateLimitPolicy)
    (retry_after : RateLimitValue Z) (now : Z) : RateLimitObservation :=
  let f := fold_left (observe_spec headers now) policy
             (mk_rate_fields RlUnknown RlUnknown RlUnknown false) in
  let standard_present :=
    (status =? 429) || match retry_after with RlUnknown => false | _ => true end in
  let source :=
    match standard_present, rf_present f with
    | true, true => StandardAndProviderProfile
    | false, true => ProviderProfile
    | _, false => Standard
    end in
  mk_rate_limit_observation (status =? 429) retry_after (rf_requests f) (rf_units f) (rf_reset f)
    source.
End Headers.

(** ** Properties of the dates *)
Definition leap (y : Z) : bool :=
  (Z.rem y 400 =? 0) || ((Z.rem y 4 =? 0) && negb (Z.rem y 100 =? 0)).
Definition date_ok (y m d : Z) : Prop := exists n, days_in_month y m = Some n /\ 1 <= d <= n.

(** The day after a date in the Gregorian calendar. *)
Definition next_day (y m d : Z) : Z * Z * Z :=
  if bool_decide (days_in_month y m = Some d)
  then if m =? 12 then (y + 1, 1, 1) else (y, m + 1, 1)
  else (y, m, d + 1).

(** The years on which [i32] arithmetic is exact. *)
Definition year_ok (y : Z) : Prop := -5800000 <= y <= 5800000.

Lemma i32_wrap_id x : I32_MIN <= x <= I32_MAX -> i32_wrap x = x.
Proof. unfold i32_wrap, I32_MIN, I32_MAX. intros H. rewrite Z.mod_small by lia. lia. Qed.

Ltac dlia := Z.to_euclidean_division_equations; lia.

(** The day count with unbounded integers: years start in March. *)
Definition civil (y m d : Z) : Z :=
  let a := y - (if m <=? 2 then 1 else 0) in
  let sm := m + (if 2 <? m then -3 else 9) in
  365 * a + a / 4 - a / 100 + a / 400 + ((153 * sm + 2) / 5 + d - 1) - 719468.

Lemma era_quot a : (if 0 <=? a then a else a - 399) ÷ 400 = a / 400.
Proof.
  destruct (Z.leb_spec 0 a).
  - apply Z.quot_div_nonneg; lia.
  - assert (a - 399 = - (399 - a)) as -> by lia. rewrite Z.quot_opp_l by lia.
    rewrite Z.quot_div_nonneg by lia. dlia.
Qed.

Ltac i32_exact :=
  repeat match goal with
  | |- context [i32_wrap ?x] => rewrite (i32_wrap_id x) by (unfold I32_MIN, I32_MAX; lia)
  end.

Lemma days_from_civil_exact y m d :
  year_ok y -> 1 <= m <= 12 -> 1 <= d <= 31 -> days_from_civil y m d = Some (civil y m d).
Proof.
  unfold year_ok. intros Hy Hm Hd. unfold days_from_civil, civil, i32_div.
  unfold i32_sub, i32_add, i32_mul, i32_try_from.
  set (b := if m <=? 2 then 1 else 0). assert (0 <= b <= 1) by (subst b; destruct (m <=? 2); lia).
  rewrite (i32_wrap_id (y - b)) by (unfold I32_MIN, I32_MAX; lia). set (a := y - b).
  assert (-5800001 <= a <= 5800000) as Ha by lia. clearbody a.
  rewrite (i32_wrap_id (a - 399)) by (unfold I32_MIN, I32_MAX; lia). rewrite era_quot.
  set (e := a / 400). assert (a = 400 * e + a mod 400) as Hdm by (subst e; apply Z.div_mod; lia).
  pose proof (Z.mod_pos_bound a 400 ltac:(lia)) as Hr. set (r := a mod 400) in *.
  assert (-14501 <= e <= 14500) as He by dlia.
  rewrite (i32_wrap_id (e * 400)) by (unfold I32_MIN, I32_MAX; lia).
  rewrite (i32_wrap_id (a - e * 400)) by (unfold I32_MIN, I32_MAX; lia).
  assert (a - e * 400 = r) as -> by lia.
  rewrite !(proj2 (checked_Some I32_MIN I32_MAX _ _)) by (split; [done|unfold I32_MIN, I32_MAX; lia]).
  cbn [mbind option_bind].
  set (s := if 2 <? m then -3 else 9).
  assert (0 <= m + s <= 11) as Hs by (subst s; destruct (Z.ltb_spec 2 m); lia).
  rewrite (i32_wrap_id (m + s)) by (unfold I32_MIN, I32_MAX; lia). set (sm := m + s) in *. clearbody sm.
  rewrite (i32_wrap_id (153 * sm)) by (unfold I32_MIN, I32_MAX; lia).
  rewrite (i32_wrap_id (153 * sm + 2)) by (unfold I32_MIN, I32_MAX; lia).
  rewrite !Z.quot_div_nonneg by lia.
  assert (0 <= (153 * sm + 2) / 5 <= 337) by dlia. set (q := (153 * sm + 2) / 5) in *. clearbody q.
  assert (0 <= r / 4 <= 99) by dlia. assert (0 <= r / 100 <= 3) by dlia.
  assert (a / 4 = 100 * e + r / 4) as -> by dlia. assert (a / 100 = 4 * e + r / 100) as -> by dlia.
  i32_exact. f_equal. lia.
Qed.

Lemma month_cases m y n : days_in_month y m = Some n -> 1 <= m <= 12 /\ 28 <= n <= 31.
Proof.
  unfold days_in_month. intros H.
  destruct m as [|p|p]; try done.
  repeat (destruct p as [p|p|]; try (done || (simplify_eq; lia)); cbn in H).
  all: try (simplify_eq; lia). all: try (destruct (_ || _); simplify_eq; lia).
Qed.

Lemma leap_step y :
  y / 4 - y / 100 + y / 400 =
  (y - 1) / 4 - (y - 1) / 100 + (y - 1) / 400 + (if leap y then 1 else 0).
Proof.
  unfold leap.
  assert (forall k, 0 < k -> (Z.rem y k =? 0) = (y mod k =? 0)) as Hrem.
  { intros k Hk. apply eq_true_iff_eq. rewrite !Z.eqb_eq, Z.rem_divide, Z.mod_divide by lia. done. }
  rewrite !Hrem by lia.
  destruct (Z.eqb_spec (y mod 400) 0), (Z.eqb_spec (y mod 4) 0), (Z.eqb_spec (y mod 100) 0);
    cbn [orb andb negb]; dlia.
Qed.

Lemma month_values m : 1 <= m <= 12 ->
  m ∈ [1; 2; 3; 4; 5; 6; 7; 8; 9; 10; 11; 12].
Proof. intros H. rewrite !elem_of_cons. lia. Qed.

(** One month end: the month is a numeral. *)
Ltac civil_month y :=
  match goal with
  | Hn : days_in_month _ _ = Some ?d |- context [if ?k =? 12 then _ else _] =>
      cbn [days_in_month] in Hn; fold (leap y) in Hn; try destruct (leap y); injection Hn as <-;
      let k' := eval vm_compute in (k + 1) in change (k + 1) with k';
      cbv beta iota zeta delta [Z.eqb Pos.eqb]; unfold civil; cbv beta zeta;
      repeat match goal with
      | |- context [if ?a <=? ?b then _ else _] => let v := eval vm_compute in (a <=? b) in change (a <=? b) with v
      | |- context [if ?a <? ?b then _ else _] => let v := eval vm_compute in (a <? b) in change (a <? b) with v
      end; cbv iota;
      repeat match goal with
      | |- context [(153 * ?a + 2) / 5] =>
          let v := eval vm_compute in ((153 * a + 2) / 5) in change ((153 * a + 2) / 5) with v
      end; rewrite ?Z.sub_0_r, ?Z.add_simpl_r; lia
  end.

Lemma civil_next y m d :
  date_ok y m d -> let '(y', m', d') := next_day y m d in civil y' m' d' = civil y m d + 1.
Proof.
  intros (n & Hn & Hd). unfold next_day. destruct (bool_decide_reflect (days_in_month y m = Some d)) as [E|E].
  - assert (n = d) as -> by congruence. pose proof (leap_step y) as Hleap.
    pose proof (month_values m (proj1 (month_cases _ _ _ Hn))) as Hm.
    repeat (apply elem_of_cons in Hm as [->|Hm]; [civil_month y|]).
    by apply elem_of_nil in Hm.
  - unfold civil. lia.
Qed.

Lemma next_day_ok y m d :
  date_ok y m d -> let '(y', m', d') := next_day y m d in
  1 <= m' <= 12 /\ 1 <= d' <= 31 /\ y <= y' <= y + 1.
Proof.
  intros (n & Hn & Hd). pose proof (month_cases _ _ _ Hn). unfold next_day.
  destruct (bool_decide_reflect (days_in_month y m = Some d)) as [E|E].
  - destruct (Z.eqb_spec m 12); lia.
  - assert (d <> n) by congruence. lia.
Qed.

(** The civil-date conversion counts days: the epoch is day zero and the
    day after any valid date of the Gregorian calendar, across month ends,
    leap days and year ends, is the next number, for every year up to 5.8
    million on either side. *)
Theorem days_from_civil_counts y m d :
  year_ok y -> year_ok (y + 1) -> date_ok y m d ->
  days_from_civil 1970 1 1 = Some 0 /\
  exists n, days_from_civil y m d = Some n /\
    let '(y', m', d') := next_day y m d in days_from_civil y' m' d' = Some (n + 1).
Proof.
  intros Hy Hy' Hok. split; [done|]. pose proof Hok as (k & Hk & Hd).
  pose proof (month_cases _ _ _ Hk). exists (civil y m d).
  split; [apply days_from_civil_exact; auto; lia|].
  pose proof (civil_next y m d Hok). pose proof (next_day_ok y m d Hok).
  destruct (next_day y m d) as [[y' m'] d']. rewrite days_from_civil_exact; [congruence|..]; try lia.
  unfold year_ok in *. lia.
Qed.

Lemma days_from_civil_counts_witness :
  exists n, days_from_civil 2024 2 29 = Some n /\
    let '(y', m', d') := next_day 2024 2 29 in days_from_civil y' m' d' = Some (n + 1).
Proof.
  apply (days_from_civil_counts 2024 2 29).
  - unfold year_ok. lia.
  - unfold year_ok. lia.
  - exists 29. split; [done|lia].
Defined.

(** Beyond that range the [i32] day count wraps: a later date can denote an
    earlier instant, so a server that sends a far-future retry date may obtain
    no delay at all. *)
Theorem far_dates_wrap :
  parse_http_date "Fri, 31 Dec 9999 23:59:59 GMT" = Some (from_secs 253402300799) /\
  exists t, parse_http_date "Sun, 01 Jan 11761200 00:00:00 GMT" = Some t /\ t < from_secs 784111777.
Proof. split; [by vm_compute|]. eexists. split; [by vm_compute|]. by vm_compute. Qed.

(** ** The preferred date format *)
Definition digit (n : Z) : ascii := ascii_of_N (Z.to_N (48 + n)).
Definition pad2 (n : Z) : string := str_of [digit (n / 10); digit (n mod 10)].
Definition pad4 (n : Z) : string := pad2 (n / 100) +:+ pad2 (n mod 100).
Definition month_name (m : Z) : string :=
  nth (Z.to_nat (m - 1))
    ["Jan"; "Feb"; "Mar"; "Apr"; "May"; "Jun"; "Jul"; "Aug"; "Sep"; "Oct"; "Nov"; "Dec"] "".
Definition clock (h mi s : Z) : string := pad2 h +:+ ":" +:+ pad2 mi +:+ ":" +:+ pad2 s.

(** An IMF-fixdate: [Sun, 06 Nov 1994 08:49:37 GMT]. *)
Definition imf_fixdate (weekday : string) (y m d h mi s : Z) : string :=
  weekday +:+ " " +:+ pad2 d +:+ " " +:+ month_name m +:+ " " +:+ pad4 y +:+ " " +:+
  clock h mi s +:+ " " +:+ "GMT".

Definition token (s : string) : Prop :=
  free_of is_ascii_whitespace s = true /\ str_is_empty s = false.

Lemma tokens_cons s t : token s ->
  split_ascii_whitespace (s +:+ " " +:+ t) = s :: split_ascii_whitespace t.
Proof.
  intros [Hs Hne]. unfold split_ascii_whitespace.
  change (" " +:+ t) with (String " " t). rewrite split_on_sep by done.
  cbn. by rewrite Hne.
Qed.

Lemma tokens_last s : token s -> split_ascii_whitespace s = [s].
Proof.
  intros [Hs Hne]. unfold split_ascii_whitespace. rewrite split_on_free by done. cbn. by rewrite Hne.
Qed.

(** Facts about numerals, by evaluating them all. *)
Definition two_digits (n : Z) : bool :=
  bool_decide (parse_u32 (pad2 n) = Some n) && free_of is_ascii_whitespace (pad2 n) &&
  free_of (Ascii.eqb ":") (pad2 n) && negb (str_is_empty (pad2 n)).
Lemma two_digits_ok n : 0 <= n < 100 ->
  parse_u32 (pad2 n) = Some n /\ token (pad2 n) /\ free_of (Ascii.eqb ":") (pad2 n) = true.
Proof.
  intros Hn. pose proof (for_range two_digits 0 100 ltac:(by vm_compute) n ltac:(lia)) as H.
  unfold two_digits in H. rewrite !andb_true_iff, bool_decide_eq_true, negb_true_iff in H.
  unfold token. tauto.
Qed.

Definition four_digits (n : Z) : bool :=
  bool_decide (parse_i32 (pad4 n) = Some n) && free_of is_ascii_whitespace (pad4 n) &&
  negb (str_is_empty (pad4 n)).
Lemma four_digits_ok n : 1970 <= n <= 9999 -> parse_i32 (pad4 n) = Some n /\ token (pad4 n).
Proof.
  intros Hn. pose proof (for_range four_digits 1970 8030 ltac:(by vm_compute) n ltac:(lia)) as H.
  unfold four_digits in H. rewrite !andb_true_iff, bool_decide_eq_true, negb_true_iff in H.
  unfold token. tauto.
Qed.

Lemma month_name_ok m : 1 <= m <= 12 -> parse_month (month_name m) = Some m /\ token (month_name m).
Proof.
  intros Hm. pose proof (month_values m Hm) as H.
  repeat (apply elem_of_cons in H as [->|H]; [by vm_compute|]). by apply elem_of_nil in H.
Qed.

Lemma clock_ok h mi s : 0 <= h < 24 -> 0 <= mi < 60 -> 0 <= s < 60 ->
  token (clock h mi s) /\ split_char ":" (clock h mi s) = [pad2 h; pad2 mi; pad2 s].
Proof.
  intros Hh Hm Hs. destruct (two_digits_ok h ltac:(lia)) as (_ & [Th Nh] & Ch).
  destruct (two_digits_ok mi ltac:(lia)) as (_ & [Tm _] & Cm).
  destruct (two_digits_ok s ltac:(lia)) as (_ & [Ts _] & Cs). unfold clock, split_char. split.
  - split; [|by destruct (pad2 h)]. rewrite !free_of_app. by rewrite Th, Tm, Ts.
  - transitivity (split_on (Ascii.eqb ":") (pad2 h +:+ String ":" (pad2 mi +:+ String ":" (pad2 s))));
      [done|]. rewrite !split_on_sep by done. by rewrite split_on_free.
Qed.

Lemma civil_nonneg y m d : 1970 <= y <= 9999 -> 1 <= m <= 12 -> 1 <= d <= 31 ->
  0 <= civil y m d <= 4000000.
Proof.
  intros Hy Hm Hd. unfold civil. pose proof (month_values m Hm) as H.
  destruct (Z.leb_spec m 2), (Z.ltb_spec 2 m); try lia; dlia.
Qed.

(** Dates survive the trip through the header: every IMF-fixdate from 1970
    to 9999 with a valid calendar date and time is decoded to the instant it
    denotes, whatever the day name before the comma. *)
Theorem http_date_roundtrip weekday y m d h mi s :
  token weekday -> ends_with "," weekday = true -> 1970 <= y <= 9999 -> date_ok y m d ->
  0 <= h < 24 -> 0 <= mi < 60 -> 0 <= s < 60 ->
  exists days, days_from_civil y m d = Some days /\
    parse_http_date (imf_fixdate weekday y m d h mi s) =
      Some (UNIX_EPOCH + from_secs (days * 86400 + h * 3600 + mi * 60 + s)).
Proof.
  intros Hw Hcomma Hy (n & Hn & Hd) Hh Hmi Hs. destruct (month_cases _ _ _ Hn) as [Hm Hn'].
  destruct (two_digits_ok d ltac:(lia)) as (Pd & Td & _).
  destruct (two_digits_ok h ltac:(lia)) as (Ph & _).
  destruct (two_digits_ok mi ltac:(lia)) as (Pmi & _).
  destruct (two_digits_ok s ltac:(lia)) as (Ps & _).
  destruct (four_digits_ok y Hy) as [Py Ty]. destruct (month_name_ok m Hm) as [Pm Tm].
  destruct (clock_ok h mi s Hh Hmi Hs) as [Tc Sc].
  exists (civil y m d). assert (days_from_civil y m d = Some (civil y m d)) as Hcivil.
  { apply days_from_civil_exact; [unfold year_ok|..]; lia. }
  split; [done|]. unfold imf_fixdate, parse_http_date. rewrite !tokens_cons by done.
  rewrite tokens_last by done. rewrite Pd, Pm, Py, Hcomma. cbn [mbind option_bind].
  rewrite str_eqb_refl. cbn [negb orb]. rewrite Sc, Ph, Pmi, Ps. cbn [mbind option_bind].
  rewrite Hn. cbn [mbind option_bind].
  rewrite (proj2 (Z.eqb_neq d 0)), (proj2 (Z.ltb_ge n d)), (proj2 (Z.ltb_ge 23 h)),
    (proj2 (Z.ltb_ge 59 mi)), (proj2 (Z.ltb_ge 59 s)) by lia. cbn [orb].
  rewrite Hcivil. cbn [mbind option_bind]. pose proof (civil_nonneg y m d Hy Hm ltac:(lia)).
  unfold i64_checked_mul, i64_checked_add.
  rewrite (proj2 (checked_Some I64_MIN I64_MAX _ (civil y m d * 86400)))
    by (split; [done|unfold I64_MIN, I64_MAX; lia]). cbn [mbind option_bind].
  rewrite (proj2 (checked_Some I64_MIN I64_MAX _ (civil y m d * 86400 + (h * 3600 + mi * 60 + s))))
    by (split; [done|unfold I64_MIN, I64_MAX; lia]). cbn [mbind option_bind].
  rewrite (proj2 (Z.ltb_ge _ 0)) by lia. unfold system_checked_add, from_secs, UNIX_EPOCH.
  rewrite !Z.add_0_l, Z.div_mul by done. rewrite (proj2 (Z.leb_le _ _)) by (unfold I64_MAX; lia).
  do 2 f_equal. lia.
Qed.

Lemma http_date_roundtrip_witness :
  exists days, days_from_civil 1994 11 6 = Some days /\
    parse_http_date (imf_fixdate "Sun," 1994 11 6 8 49 37) =
      Some (UNIX_EPOCH + from_secs (days * 86400 + 8 * 3600 + 49 * 60 + 37)).
Proof.
  apply http_date_roundtrip; try lia; [done|done|]. exists 30. split; [done|lia].
Defined.

(** ** Retry-After observations *)
Section Observations.
Context {HH : HttpHeaders}.

(** The declared values of a response, in the order they are inspected. *)
Definition declared (headers : HeaderMap) (declarations : list RetryAfterHeader)
  : list (RetryAfterHeader * HeaderValue) :=
  concat (map (fun h => map (pair h) (get_all headers (retry_header_name h))) declarations).
Definition denotes (now : Z) (p : RetryAfterHeader * HeaderValue) : option Z :=
  value ← to_str p.2; parse_retry_value p.1 now value.

(** Both loops as one pass over the declared values. *)
Fixpoint scan (now : Z) (l : list (RetryAfterHeader * HeaderValue)) (present : bool)
    (selected : option Z) : option (bool * option Z) :=
  match l with
  | [] => Some (present, selected)
  | p :: l =>
      delay ← denotes now p;
      if is_some_and (fun s => negb (s =? delay)) selected then None else scan now l true (Some delay)
  end.

Lemma scan_values_app now h values l : forall present selected,
  scan now (map (pair h) values ++ l) present selected =
  ('(present, selected) ← scan_values h now values present selected; scan now l present selected).
Proof.
  induction values as [|raw values IH]; intros present selected; [done|]. cbn.
  unfold denotes. cbn. destruct (to_str raw) as [v|]; [|done]. cbn.
  destruct (parse_retry_value h now v) as [d|]; [|done]. cbn.
  destruct (is_some_and _ _); [done|]. apply IH.
Qed.

Lemma scan_declarations_scan headers now declarations : forall present selected,
  scan_declarations headers now declarations present selected =
  scan now (declared headers declarations) present selected.
Proof.
  unfold declared. induction declarations as [|h ds IH]; intros present selected; [done|].
  cbn [map concat scan_declarations]. rewrite scan_values_app.
  destruct (scan_values _ _ _ _ _) as [[p s]|]; [|done]. apply IH.
Qed.

Lemma scan_some now l : forall present d,
  scan now l present (Some d) =
    if forallb (fun p => bool_decide (denotes now p = Some d)) l
    then Some (match l with [] => present | _ => true end, Some d) else None.
Proof.
  induction l as [|p l IH]; intros present d; [done|]. cbn [scan forallb].
  destruct (denotes now p) as [x|]; cbn [mbind option_bind is_some_and]; [|done].
  destruct (Z.eqb_spec d x) as [->|Hne]; cbn [negb].
  - rewrite IH. rewrite bool_decide_eq_true_2 by done. cbn [andb].
    destruct (forallb _ l); [|done]. by destruct l.
  - rewrite bool_decide_eq_false_2 by congruence. done.
Qed.

(** A server delay is accepted exactly when at least one declared header
    value is present and every one of them, over all declarations and all
    repetitions, is readable and denotes that same delay; presence is reported
    exactly when some declared value exists. *)
Theorem parse_retry_after_exact headers declarations now d :
  let o := parse_retry_after headers declarations now in
  let values := declared headers declarations in
  (ra_delay o = Some d <->
     values <> [] /\ forall p, p ∈ values -> denotes now p = Some d) /\
  ra_valid o = bool_decide (is_Some (ra_delay o)) /\
  (ra_present o = true <-> values <> []).
Proof.
  cbv zeta. unfold parse_retry_after. rewrite scan_declarations_scan.
  destruct (declared headers declarations) as [|p l]; [by split_and!; naive_solver|].
  cbn [scan]. destruct (denotes now p) as [x|] eqn:Hp; cbn [mbind option_bind is_some_and].
  - rewrite scan_some. destruct (forallb _ l) eqn:Hall; cbn.
    + split_and!; [|done|by destruct l]. split.
      * intros [= ->]. split; [done|]. intros q [->|Hq]%elem_of_cons; [done|].
        rewrite List.forallb_forall in Hall. apply list_elem_of_In, Hall in Hq.
        by apply bool_decide_eq_true in Hq.
      * intros [_ H]. specialize (H p ltac:(set_solver)). congruence.
    + split_and!; try done. split; [done|]. intros [_ H]. exfalso.
      assert (forallb (fun q => bool_decide (denotes now q = Some x)) l = true); [|congruence].
      apply List.forallb_forall. intros q Hq%list_elem_of_In. apply bool_decide_eq_true.
      assert (x = d) as -> by (specialize (H p ltac:(set_solver)); congruence). apply H. set_solver.
  - cbn. split_and!; try done. split; [done|]. intros [_ H]. specialize (H p ltac:(set_solver)). congruence.
Qed.

(** ** Rate-limit bounds *)
Definition rl_all {A} (P : A -> Prop) (v : RateLimitValue A) : Prop :=
  match v with RlValid a => P a | _ => True end.

Lemma rl_all_map {A B} (f : A -> B) (P : A -> Prop) (Q : B -> Prop) v :
  (forall a, P a -> Q (f a)) -> rl_all P v -> rl_all Q (map_valid f v).
Proof. destruct v; cbn; auto. Qed.

Lemma map_valid_compose {A B C} (f : B -> C) (g : A -> B) v :
  map_valid f (map_valid g v) = map_valid (fun a => f (g a)) v.
Proof. by destruct v. Qed.

Lemma rl_all_merge {A} `{EqDecision A} (P : A -> Prop) (u v : RateLimitValue A) :
  rl_all P u -> rl_all P v -> rl_all P (merge_value u v).
Proof. destruct u, v; cbn; try done. by case_decide. Qed.

Lemma rl_all_consistent {A} `{EqDecision A} (P : A -> Prop) parse values : forall selected,
  (forall s a, parse s = Some a -> P a) -> (forall a, selected = Some a -> P a) ->
  rl_all P (parse_consistent parse values selected).
Proof.
  induction values as [|raw values IH]; intros selected Hp Hs; cbn.
  - destruct selected; cbn; auto.
  - destruct (to_str raw) as [s|]; [|done]. destruct (parse s) as [a|] eqn:E; [|done].
    destruct (is_some_and _ _); [done|]. apply IH; naive_solver.
Qed.

Lemma rate_u64_bounded values : rl_all u64 (parse_rate_u64 values).
Proof.
  apply rl_all_consistent; [|done]. intros s a. destruct (all_digits s); [|done].
  apply parse_unsigned_range.
Qed.

Definition reset_bounded (now : Z) (r : RateLimitReset) : Prop :=
  match r with
  | After d => 0 <= d <= MAX_RESET_DELAY
  | At t => now <= t <= now + MAX_RESET_DELAY
  end.
Definition fields_ok (now : Z) (f : rate_limit_fields) : Prop :=
  rl_all u64 (rf_requests f) /\ rl_all (fun q => u64 (q_remaining q)) (rf_units f) /\
  rl_all (reset_bounded now) (rf_reset f).

Lemma observe_spec_ok headers now f spec : fields_ok now f -> fields_ok now (observe_spec headers now f spec).
Proof.
  intros (H1 & H2 & H3). unfold observe_spec. destruct (get_all headers (rs_name spec)) as [|v vs]; [done|].
  assert (0 <= MAX_RESET_DELAY) by done.
  destruct (rs_kind spec); unfold fields_ok; cbn [rf_requests rf_units rf_reset]; split_and!; try done;
    apply rl_all_merge; try done; [apply rate_u64_bounded|..].
  - eapply rl_all_map, rate_u64_bounded. done.
  - unfold parse_duration. rewrite !map_valid_compose. eapply rl_all_map, rate_u64_bounded.
    intros d Hd. unfold reset_bounded, from_secs, u64, NANOS in *. lia.
  - unfold parse_unix_time. rewrite map_valid_compose. eapply rl_all_map, rate_u64_bounded.
    intros s Hs. cbn. unfold system_checked_add, duration_until.
    destruct (_ <=? I64_MAX); cbn; lia.
Qed.

Lemma observe_specs_ok headers now policy : forall f,
  fields_ok now f -> fields_ok now (fold_left (observe_spec headers now) policy f).
Proof.
  induction policy as [|spec policy IH]; intros f Hf; [done|]. by apply IH, observe_spec_ok.
Qed.

(** Rate-limit metadata is bounded whatever the headers say: counts fit
    64 bits, and a reset hint is never more than a day after the response, nor
    before it. *)
Theorem rate_limit_bounded status headers policy retry_after now :
  let o := observe_rate_limit status headers policy retry_after now in
  rl_all u64 (rl_remaining_requests o) /\
  rl_all (fun q => u64 (q_remaining q)) (rl_remaining_units o) /\
  rl_all (reset_bounded now) (rl_reset o).
Proof. apply observe_specs_ok. done. Qed.
End Observations.
