(* ===== verification/Runner.v ===== *)
(** * The request runner and the public stream

    [src/src/execution/request_runner.rs], the lifecycle waits of
    [src/src/transport/mod.rs] and the client's stream of
    [src/src/client/lifecycle.rs]: attempts are opened one after the other,
    failures are retried within the policies of [Reliability], and events are
    handed to the caller through [AssistantStream]. Time, randomness,
    cancellation, the HTTP attempt and the decoded response stream are a world
    the code calls; each of its answers is arbitrary. *)
From S2P Require Import Prelude Errors Usage Domain Structured Collector Reliability.

(** ** Observability *)
Record AttemptIdentity := mk_attempt { at_id : string; at_number : Z }.

Inductive RetryStopReason :=
| NonRetryable | DeliveryBoundaryClosed | AttemptsExhausted | DeadlineInsufficient | ReplayUnsafe.

Module Category.
Inductive t :=
| Configuration | Validation | Capability | Authentication (kind : AuthFailureKind)
| Transport (stage : ErrorStage.t) | HttpStatus | Protocol (stage : ErrorStage.t)
| UnsupportedResponseSemantics | UnknownFinishReason | TruncatedStream | Timeout | Cancelled.
End Category.

Definition from_error (error : LlmError) : Category.t :=
  match error with
  | LlmError.Configuration _ | LlmError.ProviderConfig _ | LlmError.ProviderRegistry _
  | LlmError.Credential _ | LlmError.HeaderPolicy _ => Category.Configuration
  | LlmError.Validation _ | LlmError.Schema _ | LlmError.ToolValidation _ | LlmError.History _
  | LlmError.StructuredOutput _ | LlmError.Cost _ => Category.Validation
  | LlmError.Capability _ => Category.Capability
  | LlmError.Authentication e => Category.Authentication (ae_kind e)
  | LlmError.Transport e => Category.Transport (te_stage e)
  | LlmError.HttpStatus _ => Category.HttpStatus
  | LlmError.Protocol e => Category.Protocol (pe_stage e)
  | LlmError.UnsupportedResponseSemantics _ => Category.UnsupportedResponseSemantics
  | LlmError.UnknownFinishReason _ => Category.UnknownFinishReason
  | LlmError.TruncatedStream => Category.TruncatedStream
  | LlmError.Timeout _ => Category.Timeout
  | LlmError.Cancelled => Category.Cancelled
  end.

(** The transitions reported by the client, the runner and the stream; the
    executor's own transitions happen inside an attempt. *)
Inductive LifecycleEventKind :=
| RequestStarted
| ValidationCompleted
| IdempotencyPrepared (capability : IdempotencyCapability.t) (present : bool)
    (source : option IdempotencyKeySource)
| AttemptStarted (attempt : AttemptIdentity)
| AttemptFailed (attempt : AttemptIdentity) (category : Category.t)
| AttemptTimedOut (attempt : AttemptIdentity) (stage : TimeoutStage.t) (overall_limited : bool)
| RetryDecided (attempt : AttemptIdentity) (reason : option RetryReason)
    (stop_reason : option RetryStopReason)
| RetryScheduled (previous : AttemptIdentity) (next_attempt_number : Z) (reason : RetryReason)
    (delay : Z) (server_delay_applied server_delay_capped : bool)
| RetryExhausted (attempt : AttemptIdentity) (reason : RetryStopReason)
| FirstSseEvent (provider_request_id generation_id : option string)
| FirstDomainEventDelivered
| FinishSeen (finish_reason : FinishReason)
| DoneSeen
| RequestCompleted (event_count : Z) (usage_known : bool)
| RequestFailed (category : Category.t) (partial_output : bool)
| RequestCancelled (partial_output : bool)
| RequestTimedOut (partial_output : bool).

(** ** The world *)

(** How a [select!] between a future, the cancellation token and a deadline
    ends. *)
Inductive race (T : Type) := Output (t : T) | CancelledFirst | DeadlineFirst.
Arguments Output {T} t.
Arguments CancelledFirst {T}.
Arguments DeadlineFirst {T}.

Abbreviation item := (result LlmError AssistantEvent.t).

(** The logical request: its id, policies, deadline and idempotency, all
    immutable. *)
Record Request := mk_request {
  rq_started : Z; rq_deadline : option Z; rq_timeouts : TimeoutPolicy; rq_retries : RetryPolicy;
  rq_retry_wait : RetryWaitPolicy; rq_idempotency : ResolvedIdempotency; rq_observed : bool;
  rq_local_request_id : string }.

(** [W] is everything outside the runner and [H] an open response stream.
    [w_plan] is [CallPlanner::plan] and [w_prepare] the driver's [prepare],
    [w_open] is [AttemptExecutor::execute] with the context of the request,
    followed by [ResponseSession::open], [w_next] the wait for the stream's next
    item and [w_sleep] a timer. *)
Class World (W H : Type) := {
  w_now : W -> Z;
  w_cancelled : W -> bool;
  w_cancel : W -> W;
  w_random : W -> W * Z;
  w_uuid : W -> W * string;
  w_plan : W -> W * result LlmError unit;
  w_prepare : W -> W * result LlmError unit;
  w_open : Request -> AttemptIdentity -> W -> W * result LlmError H;
  w_next : H -> option Z -> W -> W * race (H * option item);
  w_sleep : Z -> option Z -> W -> W * race unit }.

(** The mutable state of a request: the world, the shared execution state, the
    reported transitions, the wait spent so far; and, for the statements only,
    the numbers of the attempts opened. *)
Record RunState (W : Type) := mk_run_state {
  rs_world : W; rs_exec : RequestExecutionState; rs_trace : list LifecycleEventKind;
  rs_total_waited : Z; rs_opened : list Z }.
Arguments mk_run_state {W}.
Arguments rs_world {W}.
Arguments rs_exec {W}.
Arguments rs_trace {W}.
Arguments rs_total_waited {W}.
Arguments rs_opened {W}.

Section Run.
Context {W H : Type} {WD : World W H} (rq : Request).

Definition set_world (w : W) (s : RunState W) :=
  mk_run_state w (rs_exec s) (rs_trace s) (rs_total_waited s) (rs_opened s).
Definition set_exec (x : RequestExecutionState) (s : RunState W) :=
  mk_run_state (rs_world s) x (rs_trace s) (rs_total_waited s) (rs_opened s).
Definition add_waited (d : Z) (s : RunState W) :=
  mk_run_state (rs_world s) (rs_exec s) (rs_trace s)
    (duration_saturating_add (rs_total_waited s) d) (rs_opened s).
Definition note_opened (n : Z) (s : RunState W) :=
  mk_run_state (rs_world s) (rs_exec s) (rs_trace s) (rs_total_waited s) (rs_opened s ++ [n]).
Definition emit (kind : LifecycleEventKind) (s : RunState W) : RunState W :=
  if rq_observed rq
  then mk_run_state (rs_world s) (rs_exec s) (rs_trace s ++ [kind]) (rs_total_waited s) (rs_opened s)
  else s.

(** ** Lifecycle waits *)
Definition elapsed (w : W) : Z := Z.max (w_now w - rq_started rq) 0.
Definition remaining (w : W) : option Z := (fun d => Z.max (d - w_now w) 0) <$> rq_deadline rq.
Definition instant_checked_add (t d : Z) : option Z :=
  if (t + d) / NANOS <=? I64_MAX then Some (t + d) else None.

Definition lifecycle_preflight (w : W) : result LlmError unit :=
  if w_cancelled w then Err LlmError.Cancelled
  else if is_some_and (fun d => d <=? w_now w) (rq_deadline rq) then
    Err (LlmError.Timeout
      (timeout_with_context (timeout_error TimeoutStage.Overall) true (elapsed w) None None false))
  else Ok tt.

Definition effective_deadline (stage_deadline : option Z) : option Z * bool :=
  match rq_deadline rq, stage_deadline with
  | Some overall, Some stage => if overall <=? stage then (Some overall, true) else (Some stage, false)
  | None, Some stage => (Some stage, false)
  | Some overall, None => (Some overall, true)
  | None, None => (None, false)
  end.

Definition await_with_stage {T} (stage : TimeoutStage.t) (stage_limit : option Z)
    (attempt_number : option Z) (delivered : bool) (future : option Z -> W -> W * race T) (w : W)
  : W * result LlmError T :=
  match lifecycle_preflight w with
  | Err e => (w, Err e)
  | Ok _ =>
      let stage_deadline := stage_limit ≫= instant_checked_add (w_now w) in
      let '(deadline, overall_limited) := effective_deadline stage_deadline in
      match future deadline w with
      | (w, Output t) => (w, Ok t)
      | (w, CancelledFirst) => (w, Err LlmError.Cancelled)
      | (w, DeadlineFirst) =>
          (w, Err (LlmError.Timeout (timeout_with_context (timeout_error stage) overall_limited
                    (elapsed w) stage_limit attempt_number delivered)))
      end
  end.

Definition await_with_lifecycle {T} (future : option Z -> W -> W * race T) (w : W)
  : W * result LlmError T :=
  await_with_stage TimeoutStage.Overall None None false future w.

Definition await_stream_with_stage {T} (stage : TimeoutStage.t) (stage_limit : Z)
    (attempt_number : Z) (delivered : bool) (future : option Z -> W -> W * race T) (w : W)
  : W * result LlmError T :=
  if is_some_and (fun d => d <=? w_now w) (rq_deadline rq) then
    (w, Err (LlmError.Timeout
      (timeout_with_context (timeout_error TimeoutStage.Overall) true (elapsed w)
         (Some stage_limit) (Some attempt_number) delivered)))
  else
    let stage_deadline := instant_checked_add (w_now w) stage_limit in
    let '(deadline, overall_limited) := effective_deadline stage_deadline in
    match future deadline w with
    | (w, Output t) => (w, Ok t)
    | (w, CancelledFirst) => (w, Err LlmError.Cancelled)
    | (w, DeadlineFirst) =>
        (w, Err (LlmError.Timeout (timeout_with_context (timeout_error stage) overall_limited
                  (elapsed w) (Some stage_limit) (Some attempt_number) delivered)))
    end.

Definition wait_for_retry (delay : Z) (w : W) : W * result LlmError unit :=
  await_with_lifecycle (w_sleep delay) w.

(** ** The runner *)
Definition open_attempt (attempt_number : Z) (s : RunState W)
  : RunState W * AttemptIdentity * result LlmError H :=
  let '(w, id) := w_uuid (rs_world s) in
  let attempt := mk_attempt id attempt_number in
  let s := set_world w s in
  let s := set_exec (begin_attempt (rs_exec s)) s in
  let s := emit (AttemptStarted attempt) s in
  let '(w, response) := w_open rq attempt (rs_world s) in
  (note_opened attempt_number (set_world w s), attempt, response).

Definition emit_retry_stopped (attempt : AttemptIdentity) (reason : RetryStopReason) (s : RunState W)
  : RunState W :=
  emit (RetryExhausted attempt reason) (emit (RetryDecided attempt None (Some reason)) s).

Definition requires_replay_safety (error : LlmError) : bool :=
  match error with
  | LlmError.Transport e => bool_decide (te_stage e = ErrorStage.Body)
  | LlmError.HttpStatus e => (hse_status e =? 408) || in_range 502 504 (hse_status e)
  | LlmError.TruncatedStream => true
  | _ => false
  end.

Definition retry_stop_reason (error : LlmError) (attempt_number : Z) (s : RunState W)
  : RetryStopReason :=
  if bool_decide (delivery_state (rs_exec s) = DomainEventDelivered) then DeliveryBoundaryClosed
  else if rp_max_attempts (rq_retries rq) <=? attempt_number then AttemptsExhausted
  else if is_some_and (fun v => v <? rp_minimum_attempt_budget (rq_retries rq))
            (remaining (rs_world s)) then DeadlineInsufficient
  else if negb (replay_safe (rq_idempotency rq)) && requires_replay_safety error then ReplayUnsafe
  else NonRetryable.

Definition server_delay_of (error : LlmError) : option Z :=
  match error with LlmError.HttpStatus e => hse_retry_after e | _ => None end.

(** [Ok None]: no further attempt; [Err]: the wait itself failed. *)
Definition retry_after_failure (error : LlmError) (attempt : AttemptIdentity) (s : RunState W)
  : RunState W * result LlmError (option Z) :=
  let s := emit (AttemptFailed attempt (from_error error)) s in
  let s :=
    match error with
    | LlmError.Timeout timeout =>
        emit (AttemptTimedOut attempt (toe_stage timeout) (toe_overall_limited timeout)) s
    | _ => s
    end in
  match u32_checked_add (at_number attempt) 1 with
  | None => (emit_retry_stopped attempt AttemptsExhausted s, Ok None)
  | Some next_attempt_number =>
      match decide_retry error (delivery_state (rs_exec s)) (at_number attempt) (rq_retries rq)
              (remaining (rs_world s)) (replay_safe (rq_idempotency rq)) with
      | Fail_ =>
          (emit_retry_stopped attempt (retry_stop_reason error (at_number attempt) s) s, Ok None)
      | Retry reason =>
          let s := emit (RetryDecided attempt (Some reason) None) s in
          let retry_index := Z.max (at_number attempt - 1) 0 in
          let server_delay := server_delay_of error in
          let '(w, sample) := w_random (rs_world s) in
          let s := set_world w s in
          match calculate_retry_wait (rq_retry_wait rq) retry_index sample server_delay
                  (rs_total_waited s) (remaining (rs_world s))
                  (rp_minimum_attempt_budget (rq_retries rq)) with
          | None => (emit (RetryExhausted attempt DeadlineInsufficient) s, Ok None)
          | Some wait =>
              let s := emit (RetryScheduled attempt next_attempt_number reason
                               (wp_effective_delay wait)
                               (wp_server_delay_valid wait &&
                                is_some_and (fun d => wp_client_delay wait <=? d) server_delay)
                               (wp_server_delay_capped wait)) s in
              match wait_for_retry (wp_effective_delay wait) (rs_world s) with
              | (w, Err e) => (set_world w s, Err e)
              | (w, Ok _) =>
                  (add_waited (wp_effective_delay wait) (set_world w s),
                   Ok (Some next_attempt_number))
              end
          end
      end
  end.

(** The loop that opens attempts until one succeeds or the retries end; [None]
    is fuel exhausted. *)
Fixpoint open_from (fuel : nat) (attempt_number : Z) (s : RunState W)
  : RunState W * option (result LlmError (AttemptIdentity * H)) :=
  match fuel with
  | O => (s, None)
  | S fuel =>
      let '(s, attempt, result) := open_attempt attempt_number s in
      match result with
      | Ok active => (s, Some (Ok (attempt, active)))
      | Err error =>
          match retry_after_failure error attempt s with
          | (s, Err wait_error) => (s, Some (Err wait_error))
          | (s, Ok None) => (s, Some (Err error))
          | (s, Ok (Some next)) => open_from fuel next s
          end
      end
  end.

(** The open stream of a request. *)
Record ActiveAttempt := mk_active {
  ac_attempt : AttemptIdentity; ac_active : H; ac_event_seen : bool; ac_terminal : bool }.

(** One attempt more than the hard limit is never needed. *)
Definition RUN_FUEL : nat := Z.to_nat MAX_ATTEMPTS_HARD_LIMIT.

Definition start (s : RunState W) : RunState W * option (result LlmError ActiveAttempt) :=
  match lifecycle_preflight (rs_world s) with
  | Err e => (s, Some (Err e))
  | Ok _ =>
      let s := emit (IdempotencyPrepared (ri_capability (rq_idempotency rq))
                       (bool_decide (is_Some (ri_key (rq_idempotency rq))))
                       (ri_source (rq_idempotency rq))) s in
      match open_from RUN_FUEL 1 s with
      | (s, Some (Ok (attempt, active))) =>
          (s, Some (Ok (mk_active attempt active false false)))
      | (s, Some (Err e)) => (s, Some (Err e))
      | (s, None) => (s, None)
      end
  end.

Definition close (st : ActiveAttempt) : ActiveAttempt :=
  mk_active (ac_attempt st) (ac_active st) (ac_event_seen st) true.

(** [poll_active_attempt], the step of [stream::unfold]. *)
Fixpoint poll_active (fuel : nat) (st : ActiveAttempt) (s : RunState W)
  : RunState W * option (option (item * ActiveAttempt)) :=
  if ac_terminal st then (s, Some None)
  else
    match fuel with
    | O => (s, None)
    | S fuel =>
        let timeout_stage :=
          if ac_event_seen st then TimeoutStage.IdleStream else TimeoutStage.FirstEvent in
        let timeout :=
          if ac_event_seen st then tp_idle_stream (rq_timeouts rq)
          else tp_first_event (rq_timeouts rq) in
        let delivered := bool_decide (delivery_state (rs_exec s) = DomainEventDelivered) in
        let '(w, result) :=
          await_stream_with_stage timeout_stage timeout (at_number (ac_attempt st)) delivered
            (w_next (ac_active st)) (rs_world s) in
        let s := set_world w s in
        let retry error :=
          match retry_after_failure error (ac_attempt st) s with
          | (s, Err wait_error) => (s, Some (Some (Err wait_error, close st)))
          | (s, Ok None) => (s, Some (Some (Err error, close st)))
          | (s, Ok (Some next)) =>
              match open_from RUN_FUEL next s with
              | (s, Some (Ok (attempt, active))) =>
                  poll_active fuel (mk_active attempt active false (ac_terminal st)) s
              | (s, Some (Err error)) => (s, Some (Some (Err error, close st)))
              | (s, None) => (s, None)
              end
          end in
        match result with
        | Ok (active, Some (Ok event)) =>
            (s, Some (Some (Ok event,
               mk_active (ac_attempt st) active true (ac_terminal st))))
        | Ok (_, Some (Err error)) => retry error
        | Err error => retry error
        | Ok (_, None) => retry LlmError.TruncatedStream
        end
    end.
End Run.

(** ** The public stream *)
Section Stream.
Context {W H : Type} {WD : World W H} (rq : Request).

Record AssistantStream := mk_assistant_stream {
  as_inner : ActiveAttempt (H := H);
  as_first_event_seen : bool;
  as_terminal : bool;
  as_partial_output : bool;
  as_usage_known : bool;
  as_event_count : Z }.

Definition assistant_stream_new (inner : ActiveAttempt (H := H)) : AssistantStream :=
  mk_assistant_stream inner false false false false 0.

Definition observe_first (event : AssistantEvent.t) (seen : bool) (s : RunState W) : RunState W :=
  if seen then s
  else
    let '(provider_request_id, generation_id) :=
      match event with
      | AssistantEvent.Start _ provider generation => (provider, generation)
      | _ => (None, None)
      end in
    emit rq FirstDomainEventDelivered (emit rq (FirstSseEvent provider_request_id generation_id) s).

Definition emit_terminal_error (error : LlmError) (partial_output : bool) (s : RunState W)
  : RunState W :=
  emit rq
    (match error with
     | LlmError.Cancelled => RequestCancelled partial_output
     | LlmError.Timeout _ => RequestTimedOut partial_output
     | _ => RequestFailed (from_error error) partial_output
     end) s.

Definition finish_exec (s : RunState W) : RunState W := set_exec (mark_terminal (rs_exec s)).1 s.

Definition poll_fail (error : LlmError) (st : AssistantStream) (s : RunState W)
  : RunState W * AssistantStream * item :=
  let st := mk_assistant_stream (as_inner st) (as_first_event_seen st) true (as_partial_output st)
              (as_usage_known st) (as_event_count st) in
  (emit_terminal_error error (as_partial_output st) (finish_exec s), st, Err error).

Definition deliver (event : AssistantEvent.t) (inner : ActiveAttempt (H := H)) (st : AssistantStream)
    (s : RunState W) : RunState W * AssistantStream * item :=
  let s := set_exec (mark_delivered (rs_exec s)) s in
  let s := observe_first event (as_first_event_seen st) s in
  let count := u64_saturating_add (as_event_count st) 1 in
  match event with
  | AssistantEvent.Usage _ | AssistantEvent.DetailedUsage _ =>
      (s, mk_assistant_stream inner true (as_terminal st) true true count, Ok event)
  | AssistantEvent.Done finish_reason =>
      let s := emit rq (FinishSeen finish_reason) s in
      let s := emit rq DoneSeen s in
      let s := emit rq (RequestCompleted count (as_usage_known st)) s in
      (finish_exec s, mk_assistant_stream inner true true true (as_usage_known st) count, Ok event)
  | _ => (s, mk_assistant_stream inner true (as_terminal st) true (as_usage_known st) count, Ok event)
  end.

(** [AssistantStream::poll_next], once ready. The outer [None] is fuel
    exhausted. *)
Definition poll_stream (st : AssistantStream) (s : RunState W)
  : RunState W * AssistantStream * option (option item) :=
  if as_terminal st then (s, st, Some None)
  else
    match poll_active rq RUN_FUEL (as_inner st) s with
    | (s, None) => (s, st, None)
    | (s, Some (Some (Ok event, inner))) =>
        let '(s, st, it) := deliver event inner st s in (s, st, Some (Some it))
    | (s, Some (Some (Err error, inner))) =>
        let '(s, st, it) :=
          poll_fail error (mk_assistant_stream inner (as_first_event_seen st) (as_terminal st)
            (as_partial_output st) (as_usage_known st) (as_event_count st)) s in
        (s, st, Some (Some it))
    | (s, Some None) =>
        let '(s, st, it) := poll_fail LlmError.TruncatedStream st s in (s, st, Some (Some it))
    end.

Definition drop_stream (st : AssistantStream) (s : RunState W) : RunState W :=
  if as_terminal st then s
  else
    match mark_terminal (rs_exec s) with
    | (exec, true) =>
        let s := set_exec exec s in
        let s := set_world (w_cancel (rs_world s)) s in
        emit rq (RequestCancelled (as_partial_output st)) s
    | (exec, false) => set_exec exec s
    end.

(** [n] polls in a row; the items the caller received. *)
Fixpoint poll_times (n : nat) (st : AssistantStream) (s : RunState W)
  : RunState W * AssistantStream * option (list (option item)) :=
  match n with
  | O => (s, st, Some [])
  | S n =>
      match poll_stream st s with
      | (s, st, Some out) =>
          match poll_times n st s with
          | (s, st, Some outs) => (s, st, Some (out :: outs))
          | (s, st, None) => (s, st, None)
          end
      | (s, st, None) => (s, st, None)
      end
  end.
End Stream.
Arguments AssistantStream H : clear implicits.

(** ** The client *)
Record LlmClient := mk_client {
  cl_timeout_policy : TimeoutPolicy; cl_retry_policy : RetryPolicy;
  cl_retry_wait_policy : RetryWaitPolicy; cl_idempotency_policy : IdempotencyPolicy;
  cl_observed : bool }.
Record RequestControl := mk_control {
  ct_timeout_policy : option TimeoutPolicy; ct_retry_policy : option RetryPolicy;
  ct_retry_wait_policy : option RetryWaitPolicy; ct_idempotency_key : option string;
  ct_generate_idempotency_key : bool }.

(** [Option::map_or]. *)
Definition map_or {A B} (d : B) (f : A -> B) (o : option A) : B :=
  match o with Some a => f a | None => d end.

Section Client.
Context {W H : Type} {WD : World W H}.

Definition request_deadline (timeout : option RequestTimeout) (w : W) : result LlmError (option Z) :=
  match timeout with
  | None => Ok None
  | Some (TimeoutAt deadline) => Ok (Some deadline)
  | Some (TimeoutAfter d) =>
      match instant_checked_add (w_now w) d with
      | Some deadline => Ok (Some deadline)
      | None => Err (LlmError.Validation (validation_error "timeout" ValidationReason.Overflow
                  "relative timeout cannot be represented as an absolute deadline"))
      end
  end.

(** The request as [start_stream] assembles it for the runner. *)
Definition tightened (cl : LlmClient) (ct : RequestControl) (id : string) (started : Z) (deadline : option Z)
    (idempotency : ResolvedIdempotency) : Request :=
  mk_request started deadline
    (map_or (cl_timeout_policy cl) (tighten_timeouts (cl_timeout_policy cl)) (ct_timeout_policy ct))
    (map_or (cl_retry_policy cl) (tighten_retries (cl_retry_policy cl)) (ct_retry_policy ct))
    (map_or (cl_retry_wait_policy cl) (tighten_waits (cl_retry_wait_policy cl))
       (ct_retry_wait_policy ct))
    idempotency (cl_observed cl) id.

Definition no_idempotency : ResolvedIdempotency :=
  mk_resolved_idempotency None None IdempotencyCapability.Unknown None.

(** Whether [ResolvedIdempotency::resolve] reaches [IdempotencyKey::generate]. *)
Definition generates_key (cl : LlmClient) (ct : RequestControl) (automatic : bool) : bool :=
  bool_decide (ct_idempotency_key ct = None) &&
  bool_decide (ip_capability (cl_idempotency_policy cl) = IdempotencyCapability.Supported) &&
  (ct_generate_idempotency_key ct || automatic).

(** [start_stream]: the runner's answer with the request it ran, or the error
    before it. *)
Definition start_stream (cl : LlmClient) (ct : RequestControl) (id : string) (timeout : option RequestTimeout)
    (s : RunState W) : RunState W * Request * option (result LlmError (ActiveAttempt (H := H))) :=
  let started := w_now (rs_world s) in
  let bare deadline := tightened cl ct id started deadline no_idempotency in
  match request_deadline timeout (rs_world s) with
  | Err e => (s, bare None, Some (Err e))
  | Ok deadline =>
      match lifecycle_preflight (bare deadline) (rs_world s) with
      | Err e => (s, bare deadline, Some (Err e))
      | Ok _ =>
          match w_plan (rs_world s) with
          | (w, Err e) => (set_world w s, bare deadline, Some (Err e))
          | (w, Ok _) =>
              let s := emit (bare deadline) ValidationCompleted (set_world w s) in
              match w_prepare (rs_world s) with
              | (w, Err e) => (set_world w s, bare deadline, Some (Err e))
              | (w, Ok _) =>
                  let s := set_world w s in
                  let automatic := 1 <? rp_max_attempts (rq_retries (bare deadline)) in
                  let '(w, fresh) :=
                    if generates_key cl ct automatic then w_uuid (rs_world s)
                    else (rs_world s, EmptyString) in
                  let s := set_world w s in
                  match resolve_idempotency (cl_idempotency_policy cl) (ct_idempotency_key ct)
                          (ct_generate_idempotency_key ct) automatic ("philo_" +:+ fresh) with
                  | Err e => (s, bare deadline, Some (Err e))
                  | Ok idempotency =>
                      let rq := tightened cl ct id started deadline idempotency in
                      let '(s, r) := start rq s in (s, rq, r)
                  end
              end
          end
      end
  end.

(** [stream_with_control]. *)
Definition stream_with_control (cl : LlmClient) (ct : RequestControl)
    (timeout : option RequestTimeout) (w : W)
  : RunState W * Request * option (result LlmError (AssistantStream H)) :=
  let '(w, id) := w_uuid w in
  let s := mk_run_state w execution_state_new [] 0 [] in
  let bare := tightened cl ct id 0 None no_idempotency in
  match LocalRequestId_new id with
  | Err e => (s, bare, Some (Err (LlmError.Validation e)))
  | Ok _ =>
      match start_stream cl ct id timeout (emit bare RequestStarted s) with
      | (s, rq, None) => (s, rq, None)
      | (s, rq, Some (Ok inner)) => (s, rq, Some (Ok (assistant_stream_new inner)))
      | (s, rq, Some (Err error)) =>
          (emit_terminal_error rq error false (finish_exec s), rq, Some (Err error))
      end
  end.
End Client.
