(* ===== verification/RunnerSpec.v ===== *)
(** * What a request promises its caller

    Invariants of [Runner] and the theorems over whole requests: the attempts
    opened and the time waited are bounded, the retry loop always answers,
    nothing is replayed once an event was delivered, and a stream ends exactly
    once, for the caller and for the observer. *)
From S2P Require Import Prelude Errors Usage Domain Structured Collector Reliability Runner.

(** The transitions that end a request. *)
Definition terminal_kind (k : LifecycleEventKind) : bool :=
  match k with
  | RequestCompleted _ _ | RequestFailed _ _ | RequestCancelled _ | RequestTimedOut _ => true
  | _ => false
  end.
Definition terminals {W} (s : RunState W) : nat :=
  length (List.filter terminal_kind (rs_trace s)).

Section Spec.
Context {W H : Type} {WD : World W H} (rq : Request).

(** A step that neither delivers, nor ends the request, nor reports its end. *)
Record quiet (s s' : RunState W) : Prop := {
  q_delivered : es_delivered (rs_exec s') = es_delivered (rs_exec s);
  q_terminal : es_terminal (rs_exec s') = es_terminal (rs_exec s);
  q_terminals : terminals s' = terminals s }.

(** A quiet step that opens nothing and keeps the waited time bounded. *)
Record idle (s s' : RunState W) : Prop := {
  i_quiet : quiet s s';
  i_opened : rs_opened s' = rs_opened s;
  i_waited : rs_total_waited s <= rw_max_total_wait (rq_retry_wait rq) ->
             rs_total_waited s' <= rw_max_total_wait (rq_retry_wait rq) }.

#[global] Instance quiet_refl : Reflexive quiet.
Proof. done. Qed.
#[global] Instance quiet_trans : Transitive quiet.
Proof. intros a b c [] []. split; congruence. Qed.
#[global] Instance idle_refl : Reflexive idle.
Proof. split; done. Qed.
#[global] Instance idle_trans : Transitive idle.
Proof. intros a b c [] []. split; [by etrans|congruence|auto]. Qed.

Lemma idle_world w s : idle s (set_world w s).
Proof. done. Qed.

Lemma idle_emit k s : terminal_kind k = false -> idle s (emit rq k s).
Proof.
  intros Hk. unfold emit. destruct (rq_observed rq); [|done].
  split; [|done|done]. split; [done|done|]. unfold terminals. cbn.
  rewrite List.filter_app, length_app. cbn. rewrite Hk. cbn. lia.
Qed.

Lemma emit_exec k (s : RunState W) : rs_exec (emit rq k s) = rs_exec s.
Proof. unfold emit. by destruct (rq_observed rq). Qed.
Lemma emit_opened k (s : RunState W) : rs_opened (emit rq k s) = rs_opened s.
Proof. unfold emit. by destruct (rq_observed rq). Qed.
Lemma emit_waited k (s : RunState W) : rs_total_waited (emit rq k s) = rs_total_waited s.
Proof. unfold emit. by destruct (rq_observed rq). Qed.

Create HintDb idle.
#[local] Hint Resolve idle_world idle_emit idle_refl : idle.

Lemma calculate_retry_wait_total policy i sample server total rem budget wait :
  calculate_retry_wait policy i sample server total rem budget = Some wait ->
  duration_saturating_add total (wp_effective_delay wait) <= rw_max_total_wait policy.
Proof.
  unfold calculate_retry_wait. cbv zeta.
  match goal with |- (if ?a <? ?b then _ else _) = _ -> _ => destruct (Z.ltb_spec a b) as [|Hle] end;
    [done|].
  destruct (is_some_and _ _); [done|]. intros [= <-]. exact Hle.
Qed.

(** What a failed attempt leads to. *)
Lemma retry_after_failure_spec error attempt s :
  let '(s', r) := retry_after_failure rq error attempt s in
  idle s s' /\
  forall next, r = Ok (Some next) ->
    next = at_number attempt + 1 /\ at_number attempt < rp_max_attempts (rq_retries rq) /\
    es_delivered (rs_exec s) = false.
Proof.
  unfold retry_after_failure. set (s1 := emit rq (AttemptFailed _ _) s). cbv zeta.
  assert (idle s s1) as H1 by (subst s1; auto with idle).
  set (s2 := match error with LlmError.Timeout _ => _ | _ => s1 end).
  assert (idle s s2) as H2 by (subst s2; destruct error; try done; etrans; [exact H1|auto with idle]).
  clearbody s2. clear s1 H1.
  assert (forall reason, idle s (emit_retry_stopped rq attempt reason s2)) as Hstop.
  { intros reason. unfold emit_retry_stopped. etrans; [exact H2|]. etrans; by apply idle_emit. }
  destruct (u32_checked_add _ _) as [next|] eqn:Hnext; [|done].
  apply checked_Some in Hnext as [-> _].
  destruct (decide_retry _ _ _ _ _ _) as [|reason] eqn:Hdecide; [done|].
  apply decide_retry_iff in Hdecide as [(Hd & Hn & _) _].
  assert (es_delivered (rs_exec s) = false) as Hnd.
  { rewrite <- (q_delivered _ _ (i_quiet _ _ H2)). unfold delivery_state in Hd.
    by destruct (es_delivered (rs_exec s2)). }
  set (s3 := emit rq (RetryDecided _ _ _) s2). assert (idle s s3) as H3
    by (etrans; [exact H2|subst s3; auto with idle]). clearbody s3. clear s2 H2 Hd Hstop.
  destruct (w_random (rs_world s3)) as [w sample].
  destruct (calculate_retry_wait _ _ _ _ _ _ _) as [wait|] eqn:Hwait.
  - set (s4 := emit rq (RetryScheduled _ _ _ _ _ _) _).
    assert (idle s s4 /\ rs_total_waited s4 = rs_total_waited s3) as [H4 Ht4].
    { split; [|subst s4; by rewrite emit_waited]. etrans; [exact H3|]. etrans; [apply (idle_world w)|].
      by apply idle_emit. }
    clearbody s4. destruct (wait_for_retry _ _ _) as [w' [[]|e]].
    + split.
      * etrans; [exact H4|]. split; [done|done|]. intros _. cbn. rewrite Ht4.
        by apply calculate_retry_wait_total in Hwait.
      * intros next [= <-]. done.
    + split; [|done]. etrans; [exact H4|done].
  - split; [|done]. etrans; [exact H3|]. etrans; [apply (idle_world w)|]. by apply idle_emit.
Qed.

Lemma open_attempt_spec n s :
  let '(s', attempt, r) := open_attempt rq n s in
  quiet s s' /\ rs_opened s' = rs_opened s ++ [n] /\ rs_total_waited s' = rs_total_waited s /\
  at_number attempt = n.
Proof.
  unfold open_attempt. destruct (w_uuid _) as [w id]. cbv zeta.
  set (s1 := set_exec _ _). set (s2 := emit rq _ s1).
  assert (quiet s s1) as H1.
  { split; try done; subst s1; cbn; unfold begin_attempt;
    destruct (es_terminal (rs_exec s)) eqn:E; cbn; congruence. }
  assert (quiet s s2) as H2 by (etrans; [exact H1|by apply i_quiet, idle_emit]).
  destruct (w_open _ _) as [w' response]. split_and!; [by destruct H2|..|done].
  - cbn. subst s2. by rewrite emit_opened.
  - cbn. subst s2. by rewrite emit_waited.
Qed.

(** The attempts are numbered from one without gaps, within the limit, and
    the time waited is within its limit. *)
Record run_ok (k : Z) (s : RunState W) : Prop := {
  ro_opened : rs_opened s = seqZ 1 k;
  ro_count : 0 <= k <= rp_max_attempts (rq_retries rq);
  ro_waited : rs_total_waited s <= rw_max_total_wait (rq_retry_wait rq) }.

Lemma run_ok_idle k s s' : idle s s' -> run_ok k s -> run_ok k s'.
Proof. intros [] []. split; [congruence|done|auto]. Qed.

Lemma seqZ_snoc k : 0 <= k -> seqZ 1 k ++ [k + 1] = seqZ 1 (k + 1).
Proof. intros Hk. rewrite seqZ_app by lia. f_equal. cbn. by rewrite Z.add_comm. Qed.

Lemma open_from_spec fuel : forall k s,
  run_ok k s -> k < rp_max_attempts (rq_retries rq) ->
  rp_max_attempts (rq_retries rq) - k <= Z.of_nat fuel ->
  let '(s', r) := open_from rq fuel (k + 1) s in
  quiet s s' /\ exists k', k < k' /\ run_ok k' s' /\
    ((exists e, r = Some (Err e)) \/ exists attempt h, r = Some (Ok (attempt, h)) /\ at_number attempt = k').
Proof.
  induction fuel as [|fuel IH]; intros k s Hok Hk Hfuel; [lia|]. cbn [open_from].
  pose proof (open_attempt_spec (k + 1) s) as Ho.
  destruct (open_attempt rq (k + 1) s) as [[s1 attempt] [h|e]]; destruct Ho as (Hq & Hop & Hw & Ha).
  all: assert (run_ok (k + 1) s1) as Hok1 by (destruct Hok; split;
    [rewrite Hop, ro_opened0; apply seqZ_snoc; lia|lia|by rewrite Hw]).
  - split; [done|]. exists (k + 1). split_and!; [lia|done|]. eauto.
  - pose proof (retry_after_failure_spec e attempt s1) as Hr.
    destruct (retry_after_failure rq e attempt s1) as [s2 [[next|]|e']]; destruct Hr as [Hi Hnext].
    + destruct (Hnext next eq_refl) as (-> & Hlt & _). rewrite Ha in *.
      pose proof (IH (k + 1) s2 (run_ok_idle _ _ _ Hi Hok1) Hlt ltac:(lia)) as HIH.
      destruct (open_from rq fuel (k + 1 + 1) s2) as [s3 r].
      destruct HIH as (Hq3 & k' & Hk' & Hok' & Hr'). split; [by do 2 (etrans; [first [apply Hq|apply Hi]|])|].
      exists k'. split; [lia|done].
    + split; [etrans; [apply Hq|apply Hi]|]. exists (k + 1).
      split; [lia|]. split; [by eapply run_ok_idle|]. eauto.
    + split; [etrans; [apply Hq|apply Hi]|]. exists (k + 1).
      split; [lia|]. split; [by eapply run_ok_idle|]. eauto.
Qed.

Hypothesis Hmax : 1 <= rp_max_attempts (rq_retries rq) <= MAX_ATTEMPTS_HARD_LIMIT.

(** What one poll of the open attempt leads to. *)
Definition polled (k : Z) (s s' : RunState W) (r : option (option (item * ActiveAttempt (H := H))))
  : Prop :=
  quiet s s' /\ exists k', k <= k' /\ run_ok k' s' /\
    (es_delivered (rs_exec s) = true -> k' = k) /\
    ((exists e st, r = Some (Some (Err e, st))) \/
     exists ev st, r = Some (Some (Ok ev, st)) /\ at_number (ac_attempt st) = k' /\ ac_terminal st = false).

Lemma polled_after k s s1 s2 r k1 :
  quiet s s1 -> k <= k1 -> (es_delivered (rs_exec s) = true -> k1 = k) ->
  polled k1 s1 s2 r -> polled k s s2 r.
Proof.
  intros Hq Hk Hd (Hq2 & k' & Hk' & Hok & Hd' & Hr). split; [by etrans|]. exists k'.
  split_and!; [lia|done| |done]. intros Hdel. rewrite Hd', Hd; auto. rewrite (q_delivered _ _ Hq). done.
Qed.

Lemma polled_error k s s' e st : quiet s s' -> run_ok k s' -> polled k s s' (Some (Some (Err e, st))).
Proof. intros Hq Hok. split; [done|]. exists k. split_and!; [lia|done|done|]. eauto. Qed.

Lemma poll_active_spec fuel : forall st k s,
  run_ok k s -> 1 <= k -> at_number (ac_attempt st) = k -> ac_terminal st = false ->
  rp_max_attempts (rq_retries rq) - k < Z.of_nat fuel ->
  let '(s', r) := poll_active rq fuel st s in polled k s s' r.
Proof.
  induction fuel as [|fuel IH]; intros st k s Hok Hk Hn Ht Hfuel; [destruct Hok; lia|].
  cbn [poll_active]. rewrite Ht.
  destruct (await_stream_with_stage _ _ _ _ _ _ _) as [w result].
  set (s1 := set_world w s). assert (idle s s1) as Hi1 by done.
  assert (forall error,
    let '(s', r) :=
      match retry_after_failure rq error (ac_attempt st) s1 with
      | (s, Err wait_error) => (s, Some (Some (Err wait_error, close st)))
      | (s, Ok None) => (s, Some (Some (Err error, close st)))
      | (s, Ok (Some next)) =>
          match open_from rq RUN_FUEL next s with
          | (s, Some (Ok (attempt, active))) => poll_active rq fuel (mk_active attempt active false false) s
          | (s, Some (Err error)) => (s, Some (Some (Err error, close st)))
          | (s, None) => (s, None)
          end
      end in polled k s s' r) as Hretry.
  { intros error. pose proof (retry_after_failure_spec error (ac_attempt st) s1) as Hr.
    destruct (retry_after_failure rq error (ac_attempt st) s1) as [s2 [[next|]|e]];
      destruct Hr as [Hi2 Hnext];
      assert (idle s s2) as Hi by (by etrans); pose proof (run_ok_idle _ _ _ Hi Hok) as Hok2;
      [|apply polled_error; [apply Hi|done]..].
    destruct (Hnext next eq_refl) as (-> & Hlt & Hnd). rewrite Hn in *.
    pose proof (open_from_spec RUN_FUEL k s2 Hok2 Hlt) as Hopen.
    destruct (open_from rq RUN_FUEL (k + 1) s2) as [s3 r]. destruct Hopen as (Hq3 & k' & Hk' & Hok3 & Hr).
    { unfold RUN_FUEL. destruct Hmax. lia. }
    assert (quiet s s3) as Hq by (etrans; [apply Hi|done]).
    assert (es_delivered (rs_exec s) = true -> k' = k) as Hd by (cbn in Hnd; congruence).
    destruct Hr as [[e ->]|(attempt & h & -> & Ha)].
    - eapply (polled_after k s s3 s3 _ k' Hq); [lia|done|]. apply polled_error; done.
    - pose proof (IH (mk_active attempt h false false) k' s3 Hok3 ltac:(lia) Ha eq_refl ltac:(lia)) as HIH.
      destruct (poll_active rq fuel _ s3) as [s4 r]. eapply (polled_after k s s3 s4 _ k' Hq); [lia|done|done]. }
  destruct result as [[active [[event|error]|]]|error]; [|apply Hretry..].
  split; [apply Hi1|]. exists k. split_and!; [lia|by eapply run_ok_idle|done|]. right.
  eexists event, _. split; [reflexivity|]. done.
Qed.

(** ** The public stream *)
Record stream_ok (k : Z) (st : AssistantStream H) (s : RunState W) : Prop := {
  so_run : run_ok k s;
  so_first : 1 <= k;
  so_inner : as_terminal st = false ->
             ac_terminal (as_inner st) = false /\ at_number (ac_attempt (as_inner st)) = k;
  so_terminal : es_terminal (rs_exec s) = as_terminal st;
  so_partial : as_partial_output st = es_delivered (rs_exec s);
  so_reported : terminals s = if as_terminal st && rq_observed rq then 1%nat else 0%nat }.

Definition is_done (ev : AssistantEvent.t) : bool :=
  match ev with AssistantEvent.Done _ => true | _ => false end.

Lemma terminals_emit k (s : RunState W) :
  terminals (emit rq k s) = (terminals s + if terminal_kind k && rq_observed rq then 1 else 0)%nat.
Proof.
  unfold emit, terminals. destruct (rq_observed rq); [|rewrite andb_false_r; lia]. cbn.
  rewrite List.filter_app, length_app, andb_true_r. cbn. by destruct (terminal_kind k).
Qed.

Lemma run_ok_same k (s s' : RunState W) :
  rs_opened s' = rs_opened s -> rs_total_waited s' = rs_total_waited s -> run_ok k s -> run_ok k s'.
Proof. intros Ho Hw []. split; congruence. Qed.

Lemma mark_terminal_first x : es_terminal x = false ->
  mark_terminal x = (mk_execution_state Terminal (es_delivered x) true, true).
Proof. intros E. unfold mark_terminal. by rewrite E. Qed.

(** What a failing poll reports. *)
Lemma poll_fail_spec k error st s :
  run_ok k s -> 1 <= k -> es_terminal (rs_exec s) = false -> terminals s = 0%nat ->
  as_partial_output st = es_delivered (rs_exec s) ->
  let '(s', st', it) := poll_fail rq error st s in
  stream_ok k st' s' /\ as_terminal st' = true /\ it = Err error /\
  es_delivered (rs_exec s') = es_delivered (rs_exec s).
Proof.
  intros Hok Hk Ht Hn Hp. unfold poll_fail, emit_terminal_error, finish_exec.
  rewrite mark_terminal_first by done. set (kind := match error with LlmError.Cancelled => _ | _ => _ end).
  assert (terminal_kind kind = true) as Hkind by (by destruct error). clearbody kind.
  split_and!; [|done|done|by rewrite emit_exec]. split; cbn [as_terminal as_partial_output].
  - apply (run_ok_same k s); [by rewrite emit_opened|by rewrite emit_waited|done].
  - done.
  - done.
  - by rewrite emit_exec.
  - by rewrite emit_exec.
  - rewrite terminals_emit, Hkind. unfold terminals in *. cbn. rewrite Hn. done.
Qed.

Lemma observe_first_quiet event seen s : idle s (observe_first rq event seen s).
Proof.
  unfold observe_first. destruct seen; [done|].
  destruct event; etrans; by apply idle_emit.
Qed.

(** What a delivering poll reports. *)
Lemma deliver_spec k event inner st s :
  run_ok k s -> 1 <= k -> es_terminal (rs_exec s) = false -> terminals s = 0%nat ->
  as_terminal st = false -> at_number (ac_attempt inner) = k -> ac_terminal inner = false ->
  let '(s', st', it) := deliver rq event inner st s in
  stream_ok k st' s' /\ as_terminal st' = is_done event /\ it = Ok event /\
  es_delivered (rs_exec s') = true.
Proof.
  intros Hok Hk Ht Hn Hst Ha Hi. unfold deliver.
  set (s1 := set_exec (mark_delivered (rs_exec s)) s).
  assert (es_delivered (rs_exec s1) = true /\ es_terminal (rs_exec s1) = false) as [Hd1 Ht1].
  { subst s1. unfold mark_delivered. cbn. rewrite Ht. done. }
  set (s2 := observe_first rq event (as_first_event_seen st) s1).
  pose proof (observe_first_quiet event (as_first_event_seen st) s1) as Hi2. fold s2 in Hi2.
  assert (run_ok k s2) as Hok2 by (eapply run_ok_idle; [exact Hi2|]; by apply (run_ok_same k s)).
  assert (es_delivered (rs_exec s2) = true) as Hd2 by (rewrite (q_delivered _ _ (i_quiet _ _ Hi2)); done).
  assert (es_terminal (rs_exec s2) = false) as Ht2 by (rewrite (q_terminal _ _ (i_quiet _ _ Hi2)); done).
  assert (terminals s2 = 0%nat) as Hn2 by (rewrite (q_terminals _ _ (i_quiet _ _ Hi2)); done).
  clearbody s2. clear s1 Hi2 Hd1 Ht1 Hok Ht Hn s.
  destruct event; try (by split_and!; [split; cbn; rewrite ?Hst|..|]).
  split_and!; [|done|done|].
  - unfold finish_exec. rewrite mark_terminal_first by (by rewrite !emit_exec).
    split; cbn [as_terminal as_partial_output].
    + eapply run_ok_same; [..|exact Hok2]; cbn; by rewrite ?emit_opened, ?emit_waited.
    + done.
    + done.
    + done.
    + cbn. by rewrite !emit_exec.
    + unfold terminals at 1. cbn [set_exec rs_trace]. fold (terminals (W := W)).
      change (length (List.filter terminal_kind (rs_trace ?s))) with (terminals s).
      rewrite !terminals_emit, Hn2. cbn. by destruct (rq_observed rq).
  - unfold finish_exec. rewrite mark_terminal_first by (by rewrite !emit_exec). cbn. by rewrite !emit_exec.
Qed.

(** One poll of the public stream, on every branch. *)
Lemma poll_stream_spec k st s :
  stream_ok k st s ->
  let '(s', st', out) := poll_stream rq st s in
  (exists k', k <= k' /\ stream_ok k' st' s' /\ (es_delivered (rs_exec s) = true -> k' = k)) /\
  (es_delivered (rs_exec s) = true -> es_delivered (rs_exec s') = true) /\
  if as_terminal st then s' = s /\ st' = st /\ out = Some None
  else (exists e, out = Some (Some (Err e)) /\ as_terminal st' = true) \/
       (exists ev, out = Some (Some (Ok ev)) /\ as_terminal st' = is_done ev /\
          es_delivered (rs_exec s') = true).
Proof.
  intros Hok. unfold poll_stream. destruct (as_terminal st) eqn:Ht.
  { split_and!; [|done..]. exists k. split_and!; [lia|done|done]. }
  destruct Hok as [Hrun Hk Hin Hte Hpa Hre]. rewrite Ht in *. destruct (Hin eq_refl) as [Hi Ha].
  pose proof (poll_active_spec RUN_FUEL (as_inner st) k s Hrun Hk Ha Hi) as Hpoll.
  destruct (poll_active rq RUN_FUEL (as_inner st) s) as [s1 r]. destruct Hpoll as (Hq & k' & Hk' & Hrun' & Hd & Hr).
  { unfold RUN_FUEL. destruct Hmax. lia. }
  destruct Hq as [Hq1 Hq2 Hq3]. cbn in Hre.
  destruct Hr as [(e & st1 & ->)|(ev & st1 & -> & Ha1 & Ht1)].
  - pose proof (poll_fail_spec k' e (mk_assistant_stream st1 (as_first_event_seen st) false
      (as_partial_output st) (as_usage_known st) (as_event_count st)) s1 Hrun' ltac:(lia)
      ltac:(congruence) ltac:(congruence) ltac:(cbn; congruence)) as Hf.
    destruct (poll_fail _ _ _ _) as [[s2 st2] it]. destruct Hf as (Hok2 & Ht2 & -> & Hd2).
    split_and!; [by eauto|congruence|]. left. eauto.
  - pose proof (deliver_spec k' ev st1 st s1 Hrun' ltac:(lia) ltac:(congruence) ltac:(congruence) Ht Ha1 Ht1)
      as Hf.
    destruct (deliver _ _ _ _ _) as [[s2 st2] it]. destruct Hf as (Hok2 & Ht2 & -> & Hd2).
    split_and!; [by eauto|done|]. right. eauto.
Qed.

(** The shape of what a caller reads: events, then one last item, [Done] or an
    error, then nothing; and nothing only after the last item. *)
Fixpoint well_ended (ended : bool) (outs : list (option item)) : bool :=
  match outs with
  | [] => true
  | None :: outs => ended && well_ended ended outs
  | Some (Ok ev) :: outs => negb ended && well_ended (is_done ev) outs
  | Some (Err _) :: outs => negb ended && well_ended true outs
  end.

Lemma poll_times_spec n : forall k st s,
  stream_ok k st s ->
  let '(s', st', outs) := poll_times rq n st s in
  (exists k', k <= k' /\ stream_ok k' st' s' /\ (es_delivered (rs_exec s) = true -> k' = k)) /\
  (es_delivered (rs_exec s) = true -> es_delivered (rs_exec s') = true) /\
  exists l, outs = Some l /\ length l = n /\ well_ended (as_terminal st) l = true /\
    forall ev, Some (Ok ev) ∈ l -> es_delivered (rs_exec s') = true.
Proof.
  induction n as [|n IH]; intros k st s Hok; cbn [poll_times].
  { split; [exists k; split_and!; [lia|done|done]|]. split; [done|]. exists [].
    split_and!; try done. by intros ev ?%elem_of_nil. }
  pose proof (poll_stream_spec k st s Hok) as Hp. destruct (poll_stream rq st s) as [[s1 st1] out].
  destruct Hp as ((k1 & Hk1 & Hok1 & Hd1) & Hmono & Hout). pose proof (IH k1 st1 s1 Hok1) as HIH.
  assert (exists o, out = Some o /\ (forall l, well_ended (as_terminal st1) l = true ->
    well_ended (as_terminal st) (o :: l) = true) /\
    forall ev, o = Some (Ok ev) -> es_delivered (rs_exec s1) = true) as (o & -> & Hend & Hdel).
  { destruct (as_terminal st) eqn:Ht.
    - destruct Hout as (-> & -> & ->). exists None. split_and!; [done| |done].
      intros l Hl. by rewrite Ht in Hl.
    - destruct Hout as [(e & -> & Ht1)|(ev & -> & Ht1 & Hd)]; eexists; (split_and!; [done| |done]);
        intros l Hl; cbn; congruence. }
  destruct (poll_times rq n st1 s1) as [[s2 st2] outs].
  destruct HIH as ((k2 & Hk2 & Hok2 & Hd2) & Hmono2 & l & -> & Hlen & Hl & Hev). split_and!.
  - exists k2. split_and!; [lia|done|]. intros Hd. rewrite Hd2, Hd1; auto.
  - auto.
  - exists (o :: l). split_and!; [done|cbn; lia|auto|].
    intros ev [<-|Hin]%elem_of_cons; eauto.
Qed.

(** The stream a started runner hands out. *)
Lemma start_spec s :
  run_ok 0 s -> es_delivered (rs_exec s) = false -> es_terminal (rs_exec s) = false ->
  terminals s = 0%nat ->
  let '(s', r) := start rq s in
  exists k, run_ok k s' /\ quiet s s' /\
    ((exists e, r = Some (Err e)) \/
     (exists inner, r = Some (Ok inner) /\ stream_ok k (assistant_stream_new inner) s')).
Proof.
  intros Hok Hd Ht Hn. unfold start. destruct (lifecycle_preflight _ _); [|exists 0; split_and!; by eauto].
  set (s1 := emit rq _ s). assert (idle s s1) as Hi by (by apply idle_emit).
  pose proof (open_from_spec RUN_FUEL 0 s1 (run_ok_idle _ _ _ Hi Hok)) as Ho.
  change (0 + 1) with 1 in Ho. destruct (open_from rq RUN_FUEL 1 s1) as [s2 r].
  destruct Ho as (Hq & k & Hk & Hok2 & Hr); [lia|unfold RUN_FUEL; destruct Hmax; lia|].
  assert (quiet s s2) as Hq2 by (etrans; [apply Hi|done]).
  destruct Hr as [[e ->]|(attempt & h & -> & Ha)]; [exists k; split_and!; by eauto|].
  exists k. split_and!; [done|done|]. right. eexists. split; [done|]. destruct Hq2.
  split; cbn; try done; try lia; congruence.
Qed.
End Spec.

(** ** Whole requests *)
Section Requests.
Context {W H : Type} {WD : World W H}.
Context (cl : LlmClient) (ct : RequestControl).

(** Policies as their constructors leave them. *)
Definition policies_wf : Prop :=
  retry_policy_wf (cl_retry_policy cl) /\
  (forall p, ct_retry_policy ct = Some p -> retry_policy_wf p) /\
  wait_policy_wf (cl_retry_wait_policy cl) /\
  (forall p, ct_retry_wait_policy ct = Some p -> wait_policy_wf p).

Lemma tightened_wf id started deadline i : policies_wf ->
  let rq := tightened cl ct id started deadline i in
  1 <= rp_max_attempts (rq_retries rq) <= MAX_ATTEMPTS_HARD_LIMIT /\
  0 <= rw_max_total_wait (rq_retry_wait rq).
Proof.
  intros ([H1 _] & H2 & (_ & _ & _ & [H3 _]) & H4). unfold tightened. cbn. split.
  - destruct (ct_retry_policy ct) as [p|]; cbn; [|done]. destruct (H2 p eq_refl) as [? _]. lia.
  - destruct (ct_retry_wait_policy ct) as [p|]; cbn; [|lia].
    destruct (H4 p eq_refl) as (_ & _ & _ & [? _]). lia.
Qed.

Lemma run_ok_transfer id t d i k (s : RunState W) :
  run_ok (tightened cl ct id 0 None no_idempotency) k s -> run_ok (tightened cl ct id t d i) k s.
Proof. by intros []. Qed.

Lemma idle_transfer id t d i (s s' : RunState W) :
  idle (tightened cl ct id t d i) s s' -> idle (tightened cl ct id 0 None no_idempotency) s s'.
Proof. by intros []. Qed.

Lemma stream_with_control_spec timeout w : policies_wf ->
  let '(s, rq, r) := stream_with_control (H := H) cl ct timeout w in
  (exists id started deadline i, rq = tightened cl ct id started deadline i) /\
  exists k, run_ok rq k s /\
    ((exists e, r = Some (Err e)) \/
     exists st, r = Some (Ok st) /\ stream_ok rq k st s /\ as_terminal st = false).
Proof.
  intros Hwf. unfold stream_with_control. destruct (w_uuid w) as [w1 id].
  set (s0 := mk_run_state w1 execution_state_new [] 0 []). cbv zeta.
  set (bare := tightened cl ct id 0 None no_idempotency).
  assert (run_ok bare 0 s0) as Hok0.
  { destruct (tightened_wf id 0 None no_idempotency Hwf). split; cbn in *; try done; lia. }
  destruct (LocalRequestId_new id) as [local|]; [|split; [by repeat eexists|]; exists 0; split; by eauto].
  set (s1 := emit bare RequestStarted s0).
  assert (idle bare s0 s1) as Hi1 by (by apply idle_emit).
  assert (forall t d i s' e, idle bare s0 s' -> run_ok (tightened cl ct id t d i) 0
    (emit_terminal_error (tightened cl ct id t d i) e false (finish_exec s'))) as Hfail.
  { intros t d i s' e Hi. unfold emit_terminal_error.
    eapply (run_ok_same _ 0 s'); [by rewrite emit_opened|by rewrite emit_waited|].
    apply (run_ok_transfer id t d i), (run_ok_idle _ _ s0); done. }
  unfold start_stream. cbv zeta. destruct (request_deadline timeout _) as [deadline|e];
    [|split; [by repeat eexists|]; exists 0; split; [by apply Hfail|by eauto]].
  set (t0 := w_now _). destruct (lifecycle_preflight _ _) as [[]|e];
    [|split; [by repeat eexists|]; exists 0; split; [by apply Hfail|by eauto]].
  destruct (w_plan _) as [w2 [[]|e]];
    [|split; [by repeat eexists|]; exists 0; split; [apply Hfail; by etrans|by eauto]].
  set (s2 := emit _ ValidationCompleted _).
  assert (idle bare s0 s2) as Hi2.
  { etrans; [exact Hi1|]. etrans; [apply (idle_world _ w2)|].
    by eapply idle_transfer, idle_emit. }
  clearbody s2. destruct (w_prepare _) as [wp [[]|e]];
    [|split; [by repeat eexists|]; exists 0; split; [apply Hfail; by etrans|by eauto]].
  set (sp := set_world wp s2). assert (idle bare s0 sp) as Hip by (etrans; [exact Hi2|done]).
  set (automatic := 1 <? _).
  destruct (if generates_key _ _ _ then _ else _) as [w3 fresh].
  set (s3 := set_world w3 sp). assert (idle bare s0 s3) as Hi3 by (etrans; [exact Hip|done]).
  destruct (resolve_idempotency _ _ _ _ _) as [i|e];
    [|split; [by repeat eexists|]; exists 0; split; [by apply Hfail|by eauto]].
  set (rq := tightened cl ct id t0 deadline i).
  pose proof (start_spec rq (proj1 (tightened_wf id t0 deadline i Hwf)) s3
    (run_ok_transfer id t0 deadline i _ _ (run_ok_idle bare _ _ _ Hi3 Hok0))) as Hstart.
  destruct Hi3 as [[Hd3 Ht3 Hn3] _ _].
  destruct (start rq s3) as [s4 r]. destruct Hstart as (k & Hok & Hq & Hr); [done..|].
  destruct Hr as [[e ->]|(inner & -> & Hst)].
  - split; [by repeat eexists|]. exists k. split; [|by eauto]. unfold emit_terminal_error.
    by eapply (run_ok_same _ k s4); [rewrite emit_opened|rewrite emit_waited|].
  - split; [by repeat eexists|]. exists k. split; [done|]. right. eauto.
Qed.

(** The limits of the client and of the request's own policies. *)
Definition within_limits (s : RunState W) : Prop :=
  exists k, rs_opened s = seqZ 1 k /\ 0 <= k <= rp_max_attempts (cl_retry_policy cl) /\
    (forall p, ct_retry_policy ct = Some p -> k <= rp_max_attempts p) /\
    rs_total_waited s <= rw_max_total_wait (cl_retry_wait_policy cl) /\
    (forall p, ct_retry_wait_policy ct = Some p -> rs_total_waited s <= rw_max_total_wait p).

Lemma run_ok_within id t d i k (s : RunState W) : run_ok (tightened cl ct id t d i) k s -> within_limits s.
Proof.
  intros [Ho Hk Hw]. exists k. unfold tightened in *. cbn in *. split_and!; [done|..].
  - destruct (ct_retry_policy ct); cbn in *; lia.
  - destruct (ct_retry_policy ct); cbn in *; lia.
  - intros p E. rewrite E in Hk. cbn in Hk. lia.
  - destruct (ct_retry_wait_policy ct); cbn in *; lia.
  - intros p E. rewrite E in Hw. cbn in Hw. lia.
Qed.

(** C7. A request is bounded in every world: whatever the provider, the
    network, the clock and the caller do, starting a request and polling its
    stream any number of times always yields an answer, the attempts opened
    are numbered 1, 2, 3, ... within both the client's and the request's
    attempt limit, and the time spent waiting between them stays within both
    cumulative wait limits. *)
Theorem request_bounded timeout w n :
  policies_wf ->
  let '(s, rq, r) := stream_with_control (H := H) cl ct timeout w in
  within_limits s /\
  match r with
  | None => False
  | Some (Err _) => True
  | Some (Ok st) =>
      let '(s', _, outs) := poll_times rq n st s in
      within_limits s' /\ exists l, outs = Some l /\ length l = n
  end.
Proof.
  intros Hwf. pose proof (stream_with_control_spec timeout w Hwf) as Hs.
  destruct (stream_with_control cl ct timeout w) as [[s rq] r].
  destruct Hs as ((id & t & d & i & ->) & k & Hok & Hr). split; [by eapply run_ok_within|].
  destruct Hr as [[e ->]|(st & -> & Hst & _)]; [done|].
  pose proof (poll_times_spec _ (proj1 (tightened_wf id t d i Hwf)) n k st s Hst) as Hp.
  destruct (poll_times _ n st s) as [[s' st'] outs].
  destruct Hp as ((k' & _ & Hok' & _) & _ & l & -> & Hlen & _).
  split; [by eapply run_ok_within, so_run|eauto].
Qed.

(** C8. Nothing is replayed past the delivery boundary: once the caller has
    received an event, no later poll opens another attempt, however the rest
    of the stream fails. *)
Theorem delivery_commits timeout w s rq st n m s1 st1 l1 ev :
  policies_wf ->
  stream_with_control (H := H) cl ct timeout w = (s, rq, Some (Ok st)) ->
  poll_times rq n st s = (s1, st1, Some l1) -> Some (Ok ev) ∈ l1 ->
  rs_opened (poll_times rq m st1 s1).1.1 = rs_opened s1.
Proof.
  intros Hwf Hs Hp Hev. pose proof (stream_with_control_spec timeout w Hwf) as Hspec.
  rewrite Hs in Hspec. destruct Hspec as ((id & t & d & i & ->) & k & Hok & Hr).
  destruct Hr as [[e ?]|(st' & [= <-] & Hst & _)]; [done|].
  pose proof (proj1 (tightened_wf id t d i Hwf)) as Hmax.
  pose proof (poll_times_spec _ Hmax n k st s Hst) as H1. rewrite Hp in H1.
  destruct H1 as ((k1 & _ & Hok1 & _) & _ & l & [= <-] & _ & _ & Hd). specialize (Hd ev Hev).
  pose proof (poll_times_spec _ Hmax m k1 st1 s1 Hok1) as H2.
  destruct (poll_times _ m st1 s1) as [[s2 st2] outs]. cbn.
  destruct H2 as ((k2 & _ & Hok2 & Heq) & _). rewrite (Heq Hd) in Hok2.
  by rewrite (ro_opened _ _ _ (so_run _ _ _ _ Hok2)), (ro_opened _ _ _ (so_run _ _ _ _ Hok1)).
Qed.

(** C19. A stream never ends silently and ends only once: what a caller reads
    is events, then exactly one last item that is [Done] or an error, and end
    of stream only after it. *)
Theorem stream_ends_once timeout w s rq st n :
  policies_wf ->
  stream_with_control (H := H) cl ct timeout w = (s, rq, Some (Ok st)) ->
  exists l, (poll_times rq n st s).2 = Some l /\ well_ended false l = true.
Proof.
  intros Hwf Hs. pose proof (stream_with_control_spec timeout w Hwf) as Hspec.
  rewrite Hs in Hspec. destruct Hspec as ((id & t & d & i & ->) & k & Hok & Hr).
  destruct Hr as [[e ?]|(st' & [= <-] & Hst & Ht)]; [done|].
  pose proof (poll_times_spec _ (proj1 (tightened_wf id t d i Hwf)) n k st s Hst) as H1.
  destruct (poll_times _ n st s) as [[s1 st1] outs].
  destruct H1 as (_ & _ & l & -> & _ & Hl & _). exists l. by rewrite <- Ht.
Qed.

(** C18. The observer sees exactly one end: with an observer installed, a
    request whose stream was handed out, polled any number of times and then
    dropped has reported exactly one of completed, failed, cancelled or timed
    out, and has been marked terminal. *)
Theorem one_terminal_transition timeout w s rq st n :
  policies_wf -> cl_observed cl = true ->
  stream_with_control (H := H) cl ct timeout w = (s, rq, Some (Ok st)) ->
  let '(s1, st1, _) := poll_times rq n st s in
  terminals (drop_stream rq st1 s1) = 1%nat /\
  es_terminal (rs_exec (drop_stream rq st1 s1)) = true.
Proof.
  intros Hwf Hob Hs. pose proof (stream_with_control_spec timeout w Hwf) as Hspec.
  rewrite Hs in Hspec. destruct Hspec as ((id & t & d & i & ->) & k & Hok & Hr).
  destruct Hr as [[e ?]|(st' & [= <-] & Hst & Ht)]; [done|].
  pose proof (poll_times_spec _ (proj1 (tightened_wf id t d i Hwf)) n k st s Hst) as H1.
  destruct (poll_times _ n st s) as [[s1 st1] outs].
  destruct H1 as ((k1 & _ & Hok1 & _) & _). destruct Hok1 as [_ _ _ Hte _ Hre].
  set (rq := tightened cl ct id t d i) in *. assert (rq_observed rq = true) as Hobs by done.
  rewrite Hobs, andb_true_r in Hre. unfold drop_stream. destruct (as_terminal st1); [done|].
  rewrite mark_terminal_first by done. split; [|by rewrite emit_exec].
  rewrite terminals_emit, Hobs. unfold terminals in *. cbn. by rewrite Hre.
Qed.
End Requests.

(** The reason reported when a replay would be unsafe misses a case: the
    failures recognised as needing replay safety are exactly those the decision
    retries only when a replay is safe, except provider-reported stream errors,
    for which a refused replay is reported as not retryable. *)
Theorem replay_safety_gap error :
  requires_replay_safety error = true <->
  (exists reason, retryable error true reason) /\ (~ exists reason, retryable error false reason) /\
  (forall e, error <> LlmError.Protocol e).
Proof.
  split.
  - intros Hr. split_and!.
    + destruct error; try done; cbn in Hr.
      * apply bool_decide_eq_true in Hr. eexists. by apply retry_body.
      * apply orb_true_iff in Hr as [Hr%Z.eqb_eq|Hr%in_range_spec]; eexists;
          [by apply retry_408|by apply retry_5xx].
      * eexists. apply retry_truncated.
    + intros [reason Hf]. inversion Hf; subst; cbn in Hr; try done.
      * apply bool_decide_eq_true in Hr. congruence.
      * by rewrite H in Hr.
    + intros e ->. done.
  - intros ([reason Ht] & Hn & Hp). inversion Ht as [| | | | | | | |]; subst; cbn;
      try (exfalso; apply Hn; eexists; by constructor); try done.
    + by apply bool_decide_eq_true.
    + by rewrite H.
    + rewrite (proj2 (in_range_spec _ _ _)) by done. apply orb_true_r.
    + by destruct (Hp e).
Qed.

(** ** A concrete world

    Time stands still; the first attempt cannot connect, the second streams a
    start, a delta and then breaks off. *)
Definition connect_failure : LlmError :=
  LlmError.Transport (mk_transport_error ErrorStage.Connect Maybe false).
#[local] Instance flaky_world : World unit (list AssistantEvent.t) := {
  w_now _ := 0;
  w_cancelled _ := false;
  w_cancel w := w;
  w_random w := (w, 7);
  w_uuid w := (w, "id");
  w_plan w := (w, Ok tt);
  w_prepare w := (w, Ok tt);
  w_open _ attempt w :=
    (w, if at_number attempt =? 1 then Err connect_failure
        else Ok [AssistantEvent.Start "id" None None; AssistantEvent.TextStart 0]);
  w_next h _ w := (w, Output (tail h, Ok <$> head h));
  w_sleep _ _ w := (w, Output tt) }.

Definition sample_client : LlmClient :=
  mk_client timeout_policy_new retry_policy_standard retry_wait_policy_new
    idempotency_standard_header true.
Definition sample_control : RequestControl :=
  mk_control None (Some retry_policy_standard) None None false.
Definition sample_run := stream_with_control sample_client sample_control None tt.
Definition sample_stream : AssistantStream (list AssistantEvent.t) :=
  assistant_stream_new (mk_active (mk_attempt "id" 2)
    [AssistantEvent.Start "id" None None; AssistantEvent.TextStart 0] false false).

Lemma standard_wf : retry_policy_wf retry_policy_standard.
Proof.
  split; [by cbn|]. apply (conj (A := 0 <= _)); apply Z.leb_le; vm_compute; reflexivity.
Qed.
Lemma waits_wf : wait_policy_wf retry_wait_policy_new.
Proof.
  assert (forall d, (0 <? d) && (d <=? MAX_CONFIGURED_WAIT) = true -> wait_wf d) as Hw.
  { intros d [?%Z.ltb_lt ?%Z.leb_le]%andb_true_iff. done. }
  split; [|split; [|split]]; apply Hw; vm_compute; reflexivity.
Qed.
Lemma sample_wf : policies_wf sample_client sample_control.
Proof.
  split; [exact standard_wf|]. split; [intros p [= <-]; exact standard_wf|].
  split; [exact waits_wf|]. intros p E. discriminate E.
Qed.

Lemma request_bounded_witness :
  let '(s, rq, r) := sample_run in
  within_limits sample_client sample_control s /\
  match r with
  | None => False
  | Some (Err _) => True
  | Some (Ok st) =>
      let '(s', _, outs) := poll_times rq 4 st s in
      within_limits sample_client sample_control s' /\ exists l, outs = Some l /\ length l = 4%nat
  end.
Proof. apply (request_bounded sample_client sample_control None tt 4). apply sample_wf. Defined.

Lemma delivery_commits_witness :
  rs_opened (poll_times sample_run.1.2 3
    (poll_times sample_run.1.2 2 sample_stream sample_run.1.1).1.2
    (poll_times sample_run.1.2 2 sample_stream sample_run.1.1).1.1).1.1 = [1; 2].
Proof.
  rewrite (delivery_commits sample_client sample_control None tt sample_run.1.1 sample_run.1.2
    sample_stream 2 3 _ _ [Some (Ok (AssistantEvent.Start "id" None None));
                     Some (Ok (AssistantEvent.TextStart 0))] (AssistantEvent.TextStart 0)).
  - by vm_compute.
  - apply sample_wf.
  - by vm_compute.
  - by vm_compute.
  - set_solver.
Defined.

Lemma stream_ends_once_witness :
  exists l, (poll_times sample_run.1.2 5 sample_stream sample_run.1.1).2 = Some l /\
    well_ended false l = true.
Proof.
  apply (stream_ends_once sample_client sample_control None tt).
  - apply sample_wf.
  - by vm_compute.
Defined.

Lemma one_terminal_transition_witness :
  let '(s1, st1, _) := poll_times sample_run.1.2 2 sample_stream sample_run.1.1 in
  terminals (drop_stream sample_run.1.2 st1 s1) = 1%nat /\
  es_terminal (rs_exec (drop_stream sample_run.1.2 st1 s1)) = true.
Proof.
  apply (one_terminal_transition sample_client sample_control None tt).
  - apply sample_wf.
  - done.
  - by vm_compute.
Defined.
