(* ===== verification/RunnerTrace.v ===== *)
(** * What a request does to its world

    Two ways to follow a request of [Runner] through an arbitrary world: an
    invariant of the world and of the attempts opened that every operation of
    the world keeps holds in every state the request reaches, and the events a
    caller reads come, in order, from one opened response. *)
From S2P Require Import Prelude Errors Usage Domain Structured Collector Reliability Runner RunnerSpec.

Section Trace.
Context {W H : Type} {WD : World W H}.
(** The invariant: of the world, and the numbers of the attempts opened; and what
    a world remembers of a response that was opened in it. *)
Context (I : W -> list Z -> Prop) (L : W -> H -> Prop).

Class Kept : Prop := {
  k_cancel w o : I w o -> I (w_cancel w) o;
  k_random w o : I w o -> I (w_random w).1 o;
  k_uuid w o : I w o -> I (w_uuid w).1 o;
  k_sleep delay d w o : I w o -> I (w_sleep delay d w).1 o;
  k_next h d w o : I w o -> I (w_next h d w).1 o;
  k_plan w : I w [] -> I (w_plan w).1 [];
  k_prepare w : I w [] -> I (w_prepare w).1 [];
  k_open rq a w o : I w o -> I (w_open rq a w).1 (o ++ [at_number a]);
  k_opened rq a w o w' h : I w o -> w_open rq a w = (w', Ok h) -> L w' h;
  k_read h h' d w : L w h -> L (w_next h' d w).1 h;
  k_dropped h w : L w h -> L (w_cancel w) h }.
Context {K : Kept}.

Definition holds (s : RunState W) : Prop := I (rs_world s) (rs_opened s).

(** A response that some attempt of the request opened. *)
Definition opens (s : RunState W) (h : H) : Prop := L (rs_world s) h.
(** Reading events off a response. *)
Inductive reads (h : H) : list AssistantEvent.t -> H -> Prop :=
| reads_none : reads h [] h
| reads_next evs h1 d w w' h2 ev :
    reads h evs h1 -> w_next h1 d w = (w', Output (h2, Some (Ok ev))) -> reads h (evs ++ [ev]) h2.

Section Run.
Context (rq : Request).

Lemma holds_world w s : I w (rs_opened s) -> holds (set_world w s).
Proof. done. Qed.
Lemma holds_emit k s : holds s -> holds (emit rq k s).
Proof. unfold emit. by destruct (rq_observed rq). Qed.

Lemma await_with_stage_keeps {T} stage limit n d (f : option Z -> W -> W * race T) w o :
  (forall d w, I w o -> I (f d w).1 o) -> I w o -> I (await_with_stage rq stage limit n d f w).1 o.
Proof.
  intros Hf Hw. unfold await_with_stage. destruct (lifecycle_preflight _ _); [|done].
  destruct (effective_deadline _ _) as [dl over]. specialize (Hf dl w Hw). by destruct (f dl w) as [w' [| |]].
Qed.
Lemma await_stream_keeps {T} stage limit n d (f : option Z -> W -> W * race T) w o w' r :
  (forall d w, I w o -> I (f d w).1 o) -> I w o -> await_stream_with_stage rq stage limit n d f w = (w', r) ->
  I w' o /\ exists dl, (w' = w \/ w' = (f dl w).1) /\ forall t, r = Ok t -> f dl w = (w', Output t).
Proof.
  intros Hf Hw. unfold await_stream_with_stage. destruct (is_some_and _ _); [intros [= <- <-]; split; [done|]; exists None; by split; [left|]|].
  destruct (effective_deadline _ _) as [dl over]. specialize (Hf dl w Hw).
  destruct (f dl w) as [w1 [t| |]] eqn:E; intros [= <- <-]; (split; [done|]); exists dl; rewrite E;
    (split; [by right|]); try done. by intros t' [= <-].
Qed.

Lemma retry_keeps error attempt s : holds s -> holds (retry_after_failure rq error attempt s).1.
Proof.
  intros Hs. unfold retry_after_failure. cbv zeta. set (s2 := match error with LlmError.Timeout _ => _ | _ => _ end).
  assert (holds s2) as H2 by (subst s2; destruct error; repeat apply holds_emit; done). clearbody s2.
  assert (forall reason, holds (emit_retry_stopped rq attempt reason s2)) as Hstop by (intros; by do 2 apply holds_emit).
  destruct (u32_checked_add _ _); [|apply Hstop]. destruct (decide_retry _ _ _ _ _ _); [apply Hstop|].
  set (s3 := emit rq _ s2). assert (holds s3) as H3 by (by apply holds_emit). clearbody s3.
  pose proof (k_random _ _ H3) as Hr. destruct (w_random (rs_world s3)) as [w sample].
  set (s4 := set_world w s3). assert (holds s4) as H4 by done. clearbody s4.
  destruct (calculate_retry_wait _ _ _ _ _ _ _) as [wait|]; [|by apply holds_emit].
  set (s5 := emit rq _ s4). assert (holds s5) as H5 by (by apply holds_emit). clearbody s5.
  unfold wait_for_retry, await_with_lifecycle.
  pose proof (await_with_stage_keeps TimeoutStage.Overall None None false (w_sleep (wp_effective_delay wait))
    (rs_world s5) (rs_opened s5) (fun d w => k_sleep _ d w _) H5) as Hw.
  by destruct (await_with_stage _ _ _ _ _ _ _) as [w' [|]].
Qed.
Lemma open_attempt_keeps n s : holds s ->
  let '(s', _, r) := open_attempt rq n s in holds s' /\ forall h, r = Ok h -> opens s' h.
Proof.
  intros Hs. unfold open_attempt. pose proof (k_uuid _ _ Hs) as Hu. destruct (w_uuid (rs_world s)) as [w id]. cbv zeta.
  set (s1 := emit rq _ _). assert (holds s1) as H1 by (by apply holds_emit). clearbody s1.
  pose proof (k_open rq (mk_attempt id n) _ _ H1) as Ho.
  destruct (w_open rq (mk_attempt id n) (rs_world s1)) as [w' r] eqn:E. split; [done|].
  intros h ->. exact (k_opened _ _ _ _ _ _ H1 E).
Qed.
Lemma open_from_keeps fuel : forall n s, holds s ->
  let '(s', r) := open_from rq fuel n s in
  holds s' /\ forall attempt h, r = Some (Ok (attempt, h)) -> opens s' h.
Proof.
  induction fuel as [|fuel IH]; intros n s Hs; [done|]. cbn [open_from].
  pose proof (open_attempt_keeps n s Hs) as Ho. destruct (open_attempt rq n s) as [[s1 attempt] [h|e]];
    destruct Ho as [H1 Hh]; [split; [done|]; intros ? ? [= _ <-]; auto|].
  pose proof (retry_keeps e attempt s1 H1) as Hr.
  destruct (retry_after_failure rq e attempt s1) as [s2 [[next|]|e']]; [by apply IH|done|done].
Qed.
Lemma start_keeps s : holds s ->
  let '(s', r) := start rq s in holds s' /\ forall st, r = Some (Ok st) -> opens s' (ac_active st).
Proof.
  intros Hs. unfold start. destruct (lifecycle_preflight _ _); [|done].
  pose proof (open_from_keeps RUN_FUEL 1 (emit rq (IdempotencyPrepared (ri_capability (rq_idempotency rq))
    (bool_decide (is_Some (ri_key (rq_idempotency rq)))) (ri_source (rq_idempotency rq))) s) (holds_emit _ _ Hs)) as Ho.
  destruct (open_from _ _ _ _) as [s2 [[[attempt h]|e]|]]; destruct Ho as [H2 Hh]; [|done..].
  split; [done|]. intros st [= <-]. by eapply Hh.
Qed.

(** The events read so far come from one response; nothing is read before the
    first delivery. *)
Definition follows (st : ActiveAttempt (H := H)) (evs : list AssistantEvent.t) (s : RunState W) : Prop :=
  holds s /\ (exists h, opens s h /\ reads h evs (ac_active st)) /\ (evs <> [] -> es_delivered (rs_exec s) = true).

Lemma poll_active_follows fuel : forall st s evs, follows st evs s ->
  let '(s', r) := poll_active rq fuel st s in
  holds s' /\ forall ev st', r = Some (Some (Ok ev, st')) ->
    (exists h, opens s' h /\ reads h (evs ++ [ev]) (ac_active st')) /\
    (evs <> [] -> exists d w w', w_next (ac_active st) d w = (w', Output (ac_active st', Some (Ok ev)))).
Proof.
  induction fuel as [|fuel IH]; intros st s evs (Hs & (h & Hh & Hreads) & Hd); cbn [poll_active];
    destruct (ac_terminal st); try done.
  destruct (await_stream_with_stage _ _ _ _ _ _ _) as [w result] eqn:Ea.
  apply (await_stream_keeps _ _ _ _ _ _ (rs_opened s)) in Ea as (Hw & dl & Hdl & Hres); [|intros; by apply k_next|done].
  set (s1 := set_world w s). assert (holds s1) as H1 by done.
  assert (forall error,
    let '(s', r) :=
      match retry_after_failure rq error (ac_attempt st) s1 with
      | (s, Err wait_error) => (s, Some (Some (Err wait_error, close st)))
      | (s, Ok None) => (s, Some (Some (Err error, close st)))
      | (s, Ok (Some next)) =>
          match open_from rq RUN_FUEL next s with
          | (s, Some (Ok (attempt, active))) => poll_active rq fuel (mk_active attempt active false false) s
          | (s, Some (Err error)) => (s, Some (Some (Err error, close st)))
          | (s, None) => (s, None)
          end
      end in
    holds s' /\ forall ev st', r = Some (Some (Ok ev, st')) ->
      (exists h, opens s' h /\ reads h (evs ++ [ev]) (ac_active st')) /\
      (evs <> [] -> exists d w w', w_next (ac_active st) d w = (w', Output (ac_active st', Some (Ok ev))))) as Hretry.
  { intros error. pose proof (retry_keeps error (ac_attempt st) s1 H1) as H2.
    pose proof (retry_after_failure_spec rq error (ac_attempt st) s1) as Hr.
    destruct (retry_after_failure rq error (ac_attempt st) s1) as [s2 [[next|]|e]]; [|done..].
    destruct Hr as [_ Hr]. destruct (Hr next eq_refl) as (_ & _ & Hnd).
    assert (evs = []) as -> by (destruct evs; [done|]; cbn in Hnd; rewrite Hd in Hnd by done; done).
    pose proof (open_from_keeps RUN_FUEL next s2 H2) as Ho.
    destruct (open_from rq RUN_FUEL next s2) as [s3 [[[attempt h']|e]|]]; destruct Ho as [H3 Ho]; [|done..].
    specialize (IH (mk_active attempt h' false false) s3 []). destruct (poll_active rq fuel _ s3) as [s4 r].
    destruct IH as [H4 IH].
    { split_and!; [done|exists h'; split; [by eapply Ho|constructor]|done]. }
    split; [done|]. intros ev st' E. destruct (IH ev st' E) as [Hone _]. done. }
  destruct result as [[active [[event|error]|]]|error]; [|apply Hretry..].
  split; [done|]. intros ev st' [= <- <-]. specialize (Hres _ eq_refl) as Hn. split.
  - exists h. split; [|by eapply reads_next]. unfold opens. cbn. pose proof (k_read h (ac_active st) dl _ Hh) as Hk.
    by rewrite Hn in Hk.
  - intros _. by eexists _, _, _.
Qed.

(** ** The public stream *)
Lemma holds_same s s' : rs_world s' = rs_world s -> rs_opened s' = rs_opened s -> holds s -> holds s'.
Proof. unfold holds. congruence. Qed.
Lemma fail_keeps error partial s : holds s -> holds (emit_terminal_error rq error partial (finish_exec s)).
Proof. intros Hs. unfold emit_terminal_error. by apply holds_emit. Qed.
Lemma emit_same k (s : RunState W) : rs_world (emit rq k s) = rs_world s.
Proof. unfold emit. by destruct (rq_observed rq). Qed.
Lemma deliver_same event inner (st : AssistantStream H) (s : RunState W) :
  let '(s', st', _) := deliver rq event inner st s in
  rs_world s' = rs_world s /\ rs_opened s' = rs_opened s /\ as_inner st' = inner.
Proof.
  assert (forall seen (s0 : RunState W), rs_world (observe_first rq event seen s0) = rs_world s0 /\
    rs_opened (observe_first rq event seen s0) = rs_opened s0) as Hf.
  { intros [] s0; [done|]. unfold observe_first. by destruct event; rewrite !emit_same, !emit_opened. }
  specialize (Hf (as_first_event_seen st) (set_exec (mark_delivered (rs_exec s)) s)). destruct Hf as [Hw Ho].
  unfold deliver. destruct event; (split_and!; [..|done]); try done; cbn [finish_exec set_exec rs_world rs_opened];
    by rewrite ?emit_same, ?emit_opened.
Qed.
Lemma drop_keeps (st : AssistantStream H) s : holds s -> holds (drop_stream rq st s).
Proof.
  intros Hs. unfold drop_stream. destruct (as_terminal st); [done|]. destruct (mark_terminal _) as [x []]; [|done].
  apply holds_emit. by apply k_cancel.
Qed.

Lemma poll_stream_follows k st s evs :
  1 <= rp_max_attempts (rq_retries rq) <= MAX_ATTEMPTS_HARD_LIMIT ->
  stream_ok rq k st s -> as_terminal st = false -> follows (as_inner st) evs s ->
  let '(s', st', out) := poll_stream rq st s in
  holds s' /\ (exists k', stream_ok rq k' st' s') /\
  ((exists e, out = Some (Some (Err e)) /\ as_terminal st' = true) \/
   exists ev, out = Some (Some (Ok ev)) /\ as_terminal st' = is_done ev /\ follows (as_inner st') (evs ++ [ev]) s' /\
     (evs <> [] -> exists d w w',
        w_next (ac_active (as_inner st)) d w = (w', Output (ac_active (as_inner st'), Some (Ok ev))))).
Proof.
  intros Hmax Hok Ht Hf. pose proof (poll_stream_spec rq Hmax k st s Hok) as Hspec. rewrite Ht in Hspec.
  pose proof (poll_active_follows RUN_FUEL (as_inner st) s evs Hf) as Hp. unfold poll_stream in *. rewrite Ht in *.
  destruct (poll_active rq RUN_FUEL (as_inner st) s) as [s1 [[[[event|error] inner]|]|]]; destruct Hp as [H1 Hp].
  - pose proof (deliver_same event inner st s1) as Hd. destruct (deliver rq event inner st s1) as [[s2 st2] it] eqn:E.
    destruct Hd as (Hw & Ho & Hi). assert (holds s2) as H2 by (by apply (holds_same s1)). destruct Hspec as ((k' & _ & Hk' & _) & _ & Hout). split_and!; [done|by eauto|].
    assert (it = Ok event) as -> by (unfold deliver in E; destruct event; by injection E as _ _ <-).
    destruct Hout as [(e & [=] & _)|(ev & [= <-] & Hte & Hdel)]. right. exists event.
    destruct (Hp event inner eq_refl) as [Hh Hn]. rewrite Hi.
    split; [done|]. split; [done|]. split; [|done]. split; [done|]. split; [|done].
    unfold opens in *. by rewrite Hw.
  - pose proof (fail_keeps error (as_partial_output st) s1 H1) as H2. destruct Hspec as ((k' & _ & Hk' & _) & _ & _).
    split_and!; [exact H2|by eexists|]. left. by eexists.
  - pose proof (fail_keeps LlmError.TruncatedStream (as_partial_output st) s1 H1) as H2.
    destruct Hspec as ((k' & _ & Hk' & _) & _ & _). split_and!; [exact H2|by eexists|]. left. by eexists.
  - destruct Hspec as (_ & _ & [(e & [=] & _)|(ev & [=] & _)]).
Qed.
End Run.

(** ** Whole requests *)
Lemma stream_with_control_follows cl ct timeout w : I w [] ->
  let '(s, rq, r) := stream_with_control (H := H) cl ct timeout w in
  holds s /\ forall st, r = Some (Ok st) -> follows (as_inner st) [] s.
Proof.
  intros Hw. unfold stream_with_control. pose proof (k_uuid _ _ Hw) as Hu. destruct (w_uuid w) as [w1 id]. cbv zeta.
  destruct (LocalRequestId_new id) as [|]; [|done].
  set (s1 := emit _ RequestStarted _).
  assert (I (rs_world s1) [] /\ rs_opened s1 = []) as [H1 E1] by (unfold s1, emit; by destruct (rq_observed _)). clearbody s1.
  assert (forall rq e s, holds s -> holds (emit_terminal_error rq e false (finish_exec s))) as Hfail
    by (intros; by apply fail_keeps).
  assert (holds s1) as Hs1 by (unfold holds; by rewrite E1). unfold start_stream. cbv zeta.
  destruct (request_deadline _ _) as [deadline|]; [|split; [by apply Hfail|done]].
  destruct (lifecycle_preflight _ _); [|split; [by apply Hfail|done]].
  pose proof (k_plan _ H1) as H2. destruct (w_plan (rs_world s1)) as [w2 [[]|e]];
    [|split; [apply Hfail; unfold holds; cbn; by rewrite E1|done]].
  set (s2 := emit _ ValidationCompleted _).
  assert (I (rs_world s2) [] /\ rs_opened s2 = []) as [Hs2 E2] by (unfold s2, emit; by destruct (rq_observed _)). clearbody s2.
  pose proof (k_prepare _ Hs2) as H3. destruct (w_prepare (rs_world s2)) as [w3 [[]|e]];
    [|split; [apply Hfail; unfold holds; cbn; by rewrite E2|done]].
  pose proof (k_uuid _ _ H3) as H4. cbn [rs_world set_world fst] in *.
  match goal with |- context [if ?b then _ else _] => destruct (if b then w_uuid w3 else (w3, EmptyString)) as [w4 fresh] eqn:E4 end.
  assert (I w4 []) as Hw4 by (revert E4; destruct (generates_key _ _ _); [intros E4; by rewrite E4 in H4|by intros [= <- _]]).
  assert (holds (set_world w4 (set_world w3 s2))) as Hs4 by (unfold holds; cbn; by rewrite E2).
  destruct (resolve_idempotency _ _ _ _ _) as [i|e]; [|split; [by apply Hfail|done]].
  pose proof (start_keeps (tightened cl ct id (w_now (rs_world s1)) deadline i) _ Hs4) as Hstart.
  destruct (start _ _) as [s5 [[inner|e]|]]; destruct Hstart as [H5 Ho]; [|split; [by apply Hfail|done]|done].
  split; [done|]. intros st [= <-]. split; [done|]. split; [|done]. exists (ac_active inner).
  split; [by apply Ho|constructor].
Qed.

(** Every state a request reaches: started, polled any number of times, and
    dropped. *)
Lemma poll_times_keeps rq n : forall k st s evs,
  1 <= rp_max_attempts (rq_retries rq) <= MAX_ATTEMPTS_HARD_LIMIT ->
  stream_ok rq k st s -> holds s -> (as_terminal st = false -> follows (as_inner st) evs s) ->
  let '(s', st', _) := poll_times rq n st s in holds s' /\ exists k', stream_ok rq k' st' s'.
Proof.
  induction n as [|n IH]; intros k st s evs Hmax Hok Hs Hf; cbn [poll_times]; [by eauto|].
  destruct (as_terminal st) eqn:Ht.
  - assert (poll_stream rq st s = (s, st, Some None)) as -> by (unfold poll_stream; by rewrite Ht).
    specialize (IH k st s evs Hmax Hok Hs). rewrite Ht in IH. specialize (IH ltac:(done)).
    by destruct (poll_times rq n st s) as [[s2 st2] [outs|]].
  - pose proof (poll_stream_follows rq k st s evs Hmax Hok Ht (Hf eq_refl)) as Hp.
    destruct (poll_stream rq st s) as [[s1 st1] out]. destruct Hp as (H1 & (k1 & Hok1) & Hout).
    assert (exists o evs', out = Some o /\ (as_terminal st1 = false -> follows (as_inner st1) evs' s1)) as (o & evs' & -> & Hf1).
    { destruct Hout as [(e & -> & Hte)|(ev & -> & _ & Hf1 & _)]; [exists (Some (Err e)), []; split; [done|congruence]|].
      by exists (Some (Ok ev)), (evs ++ [ev]). }
    specialize (IH k1 st1 s1 evs' Hmax Hok1 H1 Hf1). by destruct (poll_times rq n st1 s1) as [[s2 st2] [outs|]].
Qed.
End Trace.

(** ** Growing worlds *)

(** A relation every operation moves along. *)
Class Grows {W H : Type} {WD : World W H} (M : W -> W -> Prop) : Prop := {
  g_refl w : M w w;
  g_trans w1 w2 w3 : M w1 w2 -> M w2 w3 -> M w1 w3;
  g_cancel w : M w (w_cancel w);
  g_random w : M w (w_random w).1;
  g_uuid w : M w (w_uuid w).1;
  g_sleep delay d w : M w (w_sleep delay d w).1;
  g_next h d w : M w (w_next h d w).1;
  g_plan w : M w (w_plan w).1;
  g_prepare w : M w (w_prepare w).1;
  g_open rq a w : M w (w_open rq a w).1 }.
Section Grows.
Context {W H : Type} {WD : World W H} {I : W -> list Z -> Prop} {L : W -> H -> Prop} {K : Kept I L}.
Context {M : W -> W -> Prop} {G : Grows M}.

Lemma grows_kept w0 : Kept (fun w o => I w o /\ M w0 w) L.
Proof.
  destruct K as [], G as [_ tr]; split; try (intros * [HI HM]; split; [by auto|by eapply tr; eauto]); try done.
  intros rq a w o w' h [HI _]. by eauto.
Qed.
End Grows.

(** ** What an open response will give *)
Section Items.
Context {W H : Type} {WD : World W H}.
(** Responses in good order, and the items each still has. *)
Class Itemised (good : H -> Prop) (items : H -> list item) : Prop :=
  next_item h d w w' h' it : good h -> w_next h d w = (w', Output (h', Some it)) -> good h' /\ items h = it :: items h'.
Context {good : H -> Prop} {items : H -> list item} {IT : Itemised good items}.

Lemma reads_items h evs h' : good h -> reads h evs h' -> good h' /\ items h = map Ok evs ++ items h'.
Proof.
  intros Hg. induction 1 as [|evs h1 d w w' h2 ev _ IH Hn]; [done|]. destruct IH as [Hg1 IH].
  apply next_item in Hn as [Hg2 E]; [|done]. split; [done|]. by rewrite map_app, <- app_assoc, IH, E.
Qed.
End Items.
