(* ===== verification/History.v ===== *)
(** * History normalization

    [src/src/domain/history/{normalize,policy,diagnostics,replay}.rs]: a
    conversation is checked for tool-call/result pairing, content the target
    does not support is rejected or dropped, tool-call ids are rewritten to the
    dialect's alphabet, and message and text budgets are enforced. *)
From S2P Require Import Prelude Errors Domain.

(** ** Policies *)
Module CapabilityStatus.
Inductive t := Supported | Unsupported | Unknown.
End CapabilityStatus.
#[global] Instance CapabilityStatus_eq_dec : EqDecision CapabilityStatus.t.
Proof. solve_decision. Defined.

Inductive MissingToolResultPolicy := RejectMissing.
Inductive UnsupportedContentPolicy := RejectContent | DropWithDiagnostic.
Inductive ThinkingReplayPolicy := SameSourceOnly | DropAll.
Record HistoryPolicy := mk_history_policy {
  hp_missing_tool_result : MissingToolResultPolicy;
  hp_unsupported_content : UnsupportedContentPolicy;
  hp_thinking_replay : ThinkingReplayPolicy }.
Definition history_policy_official_openai : HistoryPolicy :=
  mk_history_policy RejectMissing RejectContent DropAll.

Record HistoryCapabilities := mk_history_capabilities {
  hc_developer_role : CapabilityStatus.t; hc_vision_input : CapabilityStatus.t }.
Definition official_openai_defaults : HistoryCapabilities :=
  mk_history_capabilities CapabilityStatus.Supported CapabilityStatus.Unknown.

Inductive ToolCallIdPolicy := PreserveIds | OpenAiIds.

(** ** Diagnostics *)
Inductive DiagnosticCode :=
| ConvertedDeveloperToSystem | DroppedThinkingOpaque | SanitizedToolCallId
| RemovedEmptyAssistant | SynthesizedMissingToolResult | DroppedUnsupportedImage
| MergedAdjacentMessages.
Definition code_order (c : DiagnosticCode) : Z :=
  match c with
  | ConvertedDeveloperToSystem => 0 | DroppedThinkingOpaque => 1 | SanitizedToolCallId => 2
  | RemovedEmptyAssistant => 3 | SynthesizedMissingToolResult => 4 | DroppedUnsupportedImage => 5
  | MergedAdjacentMessages => 6
  end.
Definition all_codes : list DiagnosticCode :=
  [ConvertedDeveloperToSystem; DroppedThinkingOpaque; SanitizedToolCallId; RemovedEmptyAssistant;
   SynthesizedMissingToolResult; DroppedUnsupportedImage; MergedAdjacentMessages].

Record IdMapping := mk_id_mapping { im_original : string; im_normalized : string }.
Record NormalizedContext := mk_normalized_context {
  nc_messages : list Message; nc_id_mappings : list IdMapping;
  nc_diagnostics : list (DiagnosticCode * Z) }.

(** [DiagnosticCounter], a [BTreeMap] from codes to [u32] counts. *)
Abbreviation DiagnosticCounter := (gmap Z Z).
Definition increment (code : DiagnosticCode) (counts : DiagnosticCounter) : DiagnosticCounter :=
  <[code_order code := (default 0 (counts !! code_order code) + 1) mod 4294967296]> counts.
Definition into_vec (counts : DiagnosticCounter) : list (DiagnosticCode * Z) :=
  omap (fun c => pair c <$> counts !! code_order c) all_codes.

(** ** Tool-call ids *)
Definition fnv1a64 (bytes : list ascii) : Z :=
  fold_left (fun hash b => u64_wrap (Z.lxor hash (byte_val b) * 1099511628211)) bytes
    14695981039346656037.

Definition hex_digit (n : Z) : ascii :=
  ascii_of_N (Z.to_N (if n <? 10 then 48 + n else 87 + n)).
(** [{:012x}] of a value below 2^48. *)
Definition hex12 (n : Z) : string :=
  str_of (map (fun i => hex_digit (Z.land (Z.shiftr n (4 * i)) 15))
    [11; 10; 9; 8; 7; 6; 5; 4; 3; 2; 1; 0]).

Definition id_byte (b : ascii) : bool :=
  is_ascii_alphanumeric b || (byte_val b =? 95) || (byte_val b =? 45).

Inductive SanitizeError := Collision | EmptyId.

(** Returns the id and the enlarged set of occupied ids. *)
Definition sanitize_openai_tool_call_id (original : string) (occupied : gset string)
  : result SanitizeError (string * gset string) :=
  let filtered := str_of (List.filter id_byte (bytes_of original)) in
  if in_range 1 40 (str_len filtered) && negb (bool_decide (filtered ∈ occupied))
  then Ok (filtered, {[filtered]} ∪ occupied)
  else
    let candidate := str_of (take 27 (bytes_of filtered)) in
    let prefix := if str_is_empty candidate then "call" else candidate in
    let hash := fnv1a64 (bytes_of original) in
    let candidate := prefix +:+ "_" +:+ hex12 (Z.land hash 281474976710655) in
    if bool_decide (candidate ∈ occupied) then Err Collision
    else if str_is_empty candidate then Err EmptyId
    else Ok (candidate, {[candidate]} ∪ occupied).

Definition at_message (index : Z) : string := "messages[" +:+ show index +:+ "]".
Definition at_content (index part : Z) : string :=
  "messages[" +:+ show index +:+ "].content[" +:+ show part +:+ "]".

Definition normalize_tool_call (call : ToolCall) (index part : Z) (policy : ToolCallIdPolicy)
    (occupied : gset string) : result HistoryError (ToolCall * option IdMapping * gset string) :=
  let here := Some (at_content index part) in
  let field := at_content index part +:+ ".id" in
  match policy with
  | PreserveIds =>
      if bool_decide (tc_id call ∈ occupied) then
        Err (history_error field DuplicateToolCall here
               "tool call id collides with an earlier normalized id")
      else Ok (call, None, {[tc_id call]} ∪ occupied)
  | OpenAiIds =>
      '(sanitized, occupied) ← map_err (fun e =>
          match e with
          | Collision => history_error field ToolCallIdCollision here
                           "sanitized tool call id collided with another call id"
          | EmptyId => history_error field InvalidMessageOrder here
                         "tool call id became empty after sanitization"
          end) (sanitize_openai_tool_call_id (tc_id call) occupied);
      normalized_id ← map_err (fun _ => history_error field InvalidMessageOrder here
          "sanitized tool call id is invalid") (ToolCallId_new sanitized);
      let mapping :=
        if str_eqb normalized_id (tc_id call) then None
        else Some (mk_id_mapping (tc_id call) normalized_id) in
      Ok (mk_tool_call normalized_id (tc_name call) (tc_arguments call), mapping, occupied)
  end.

Fixpoint collect_calls (content : list ContentPart) (index part : Z) (seen : gset string)
  : result HistoryError (list (string * string)) :=
  match content with
  | [] => Ok []
  | PToolCall call :: content =>
      if bool_decide (tc_id call ∈ seen) then
        Err (history_error (at_content index part +:+ ".id") DuplicateToolCall
               (Some (at_content index part)) "assistant turn contains duplicate tool call ids")
      else
        calls ← collect_calls content index (part + 1) ({[tc_id call]} ∪ seen);
        Ok ((tc_id call, tc_name call) :: calls)
  | _ :: content => collect_calls content index (part + 1) seen
  end.
Definition collect_assistant_tool_calls (content : list ContentPart) (index : Z)
  : result HistoryError (list (string * string)) := collect_calls content index 0 ∅.

Definition resolve_mapped_id (original_id : string) (mappings : list IdMapping)
    (tool_calls : list (string * string)) : result HistoryError string :=
  match List.find (fun m => str_eqb (im_original m) original_id) mappings with
  | Some mapping => Ok (im_normalized mapping)
  | None =>
      if existsb (fun m => str_eqb (im_normalized m) original_id) mappings
         || existsb (fun c : string * string => str_eqb c.1 original_id) tool_calls
      then map_err (fun _ => history_error "tool_call_id" UnknownToolCall None
             "tool result references an invalid tool call id") (ToolCallId_new original_id)
      else Err (history_error "tool_call_id" UnknownToolCall None
                  "tool result references an unknown tool call id")
  end.

(** ** The pass *)
Record NormalizeState := mk_normalize_state {
  ns_output : list Message; ns_mappings : list IdMapping; ns_counts : DiagnosticCounter;
  ns_total : Z }.

Section Normalize.
Context (capabilities : HistoryCapabilities) (id_policy : ToolCallIdPolicy) (policy : HistoryPolicy).
Context (max_messages max_total_text_bytes : Z).

Abbreviation N := (M NormalizeState HistoryError).

Definition count (code : DiagnosticCode) : N unit :=
  modify (fun s => mk_normalize_state (ns_output s) (ns_mappings s) (increment code (ns_counts s))
                     (ns_total s)).
Definition push_output (ms : list Message) : N unit :=
  modify (fun s => mk_normalize_state (ns_output s ++ ms) (ns_mappings s) (ns_counts s) (ns_total s)).
Definition extend_mappings (ms : list IdMapping) : N unit :=
  modify (fun s => mk_normalize_state (ns_output s) (ns_mappings s ++ ms) (ns_counts s) (ns_total s)).

Definition add_text_bytes (added : Z) : N unit :=
  s ← get;
  next ← lift (ok_or (usize_checked_add (ns_total s) added)
           (history_error "messages" TextTooLarge None "history text size overflowed"));
  _ ← guard_err (max_total_text_bytes <? next)
        (history_error "messages" TextTooLarge None
           "history exceeds the allowed total text byte limit");
  put (mk_normalize_state (ns_output s) (ns_mappings s) (ns_counts s) next).

Definition normalize_content_part (p : ContentPart) (index part : Z) (allow_refusal : bool)
  : N (option ContentPart) :=
  let path := at_content index part in
  match p with
  | PText text => _ ← add_text_bytes (str_len text); mret (Some (PText text))
  | PImage _ =>
      if bool_decide (hc_vision_input capabilities = CapabilityStatus.Supported) then mret (Some p)
      else
        match hp_unsupported_content policy with
        | RejectContent =>
            throw (history_error path UnsupportedContent (Some path)
                     "image content is not supported by the target profile")
        | DropWithDiagnostic => _ ← count DroppedUnsupportedImage; mret None
        end
  | PThinking thinking =>
      match hp_thinking_replay policy with
      | DropAll =>
          match tc_opaque thinking with
          | Some _ => _ ← count DroppedThinkingOpaque; mret None
          | None => mret None
          end
      | SameSourceOnly =>
          _ ← add_text_bytes (str_len (tc_text thinking)); mret (Some (PThinking thinking))
      end
  | PRefusal text =>
      _ ← guard_err (negb allow_refusal)
            (history_error path UnsupportedContent (Some path)
               "refusal content is only valid on assistant turns");
      _ ← add_text_bytes (str_len text); mret (Some (PRefusal text))
  | PToolCall _ =>
      throw (history_error path InvalidMessageOrder (Some path)
               "tool calls are only valid on assistant turns")
  end.

Fixpoint plain_parts (content : list ContentPart) (index part : Z) : N (list ContentPart) :=
  match content with
  | [] => mret []
  | p :: content =>
      normalized ← normalize_content_part p index part false;
      parts ← plain_parts content index (part + 1);
      mret (option_list normalized ++ parts)
  end.

Definition normalize_plain_message (message : Message) (index : Z) : N (option Message) :=
  _ ← guard_err (bool_decide (is_Some (msg_tool_result message)))
        (history_error (at_message index) InvalidMessageOrder (Some (at_message index))
           "non-tool role must not carry a tool result payload");
  parts ← plain_parts (msg_content message) index 0;
  match parts with
  | [] => mret None
  | _ => mret (Some (message_new (msg_role message) parts))
  end.

Fixpoint assistant_parts (content : list ContentPart) (index part : Z) (seen_tool_call : bool)
    (occupied : gset string) : N (list ContentPart * list IdMapping) :=
  match content with
  | [] => mret ([], [])
  | PToolCall call :: content =>
      '(normalized, mapping, occupied) ← lift (normalize_tool_call call index part id_policy occupied);
      _ ← match mapping with Some _ => count SanitizedToolCallId | None => mret tt end;
      '(parts, mappings) ← assistant_parts content index (part + 1) true occupied;
      mret (PToolCall normalized :: parts, option_list mapping ++ mappings)
  | p :: content =>
      _ ← guard_err seen_tool_call
            (history_error (at_content index part) InvalidMessageOrder (Some (at_content index part))
               "assistant content after tool calls is not allowed");
      normalized ← normalize_content_part p index part true;
      '(parts, mappings) ← assistant_parts content index (part + 1) seen_tool_call occupied;
      mret (option_list normalized ++ parts, mappings)
  end.

Definition normalize_assistant_message (content : list ContentPart) (index : Z)
  : N (option Message * list IdMapping) :=
  '(parts, mappings) ← assistant_parts content index 0 false ∅;
  match parts with
  | [] => mret (None, mappings)
  | _ => mret (Some (message_new MessageRole.Assistant parts), mappings)
  end.

Fixpoint result_text (content : list ContentPart) : N unit :=
  match content with
  | [] => mret tt
  | PText text :: content => _ ← add_text_bytes (str_len text); result_text content
  | _ :: _ =>
      throw (history_error "tool_result.content" UnsupportedContent None
               "tool result content is not supported by the official profile")
  end.

Definition remap_tool_result (r : ToolResultMessage) (mapped_id : string) : N ToolResultMessage :=
  _ ← result_text (tr_content r);
  lift (tool_result_new mapped_id (tr_tool_name r) (tr_content r) (tr_is_error r)
          (tr_source_generation_id r)).

(** The ids a turn's results must carry. *)
Fixpoint expected_ids (tool_calls : list (string * string)) (mappings : list IdMapping) (index : Z)
    (expected : gmap string string) : result HistoryError (gmap string string) :=
  match tool_calls with
  | [] => Ok expected
  | (original_id, name) :: tool_calls =>
      let normalized_id :=
        match List.find (fun m => str_eqb (im_original m) original_id) mappings with
        | Some m => im_normalized m
        | None => original_id
        end in
      if bool_decide (is_Some (expected !! normalized_id)) then
        Err (history_error (at_message index) DuplicateToolCall (Some (at_message index))
               "assistant turn contains duplicate tool call ids")
      else expected_ids tool_calls mappings index (<[normalized_id := name]> expected)
  end.

(** The loop over the tool messages after a turn: the results collected, the
    ids still pending and the number of messages consumed. *)
Fixpoint collect_results (rest : list Message) (index : Z) (mappings : list IdMapping)
    (tool_calls : list (string * string)) (expected pending : gmap string string)
    (results : list ToolResultMessage)
  : N (list ToolResultMessage * gmap string string * nat) :=
  match rest with
  | message :: rest =>
      if bool_decide (msg_role message = MessageRole.Tool) then
        result ← lift (ok_or (msg_tool_result message)
                   (history_error (at_message index) InvalidMessageOrder (Some (at_message index))
                      "tool role message is missing a tool result payload"));
        mapped_id ← lift (resolve_mapped_id (tr_tool_call_id result) mappings tool_calls);
        _ ← match pending !! mapped_id with
            | Some _ => mret tt
            | None =>
                if bool_decide (is_Some (expected !! mapped_id))
                   || existsb (fun e => str_eqb (tr_tool_call_id e) mapped_id) results
                then throw (history_error (at_message index +:+ ".tool_call_id") DuplicateToolResult
                       (Some (at_message index)) "tool result id was submitted more than once")
                else throw (history_error (at_message index +:+ ".tool_call_id") UnknownToolCall
                       (Some (at_message index)) "tool result references an unknown tool call id")
            end;
        remapped ← remap_tool_result result mapped_id;
        '(results, pending, consumed) ← collect_results rest (index + 1) mappings tool_calls expected
            (delete mapped_id pending) (results ++ [remapped]);
        mret (results, pending, S consumed)
      else mret (results, pending, 0%nat)
  | [] => mret (results, pending, 0%nat)
  end.

(** One assistant message and the tool messages it owns; the number of those. *)
Definition normalize_turn (content : list ContentPart) (rest : list Message) (index : Z) : N nat :=
  tool_calls ← lift (collect_assistant_tool_calls content index);
  match content with
  | [] => _ ← count RemovedEmptyAssistant; mret 0%nat
  | _ =>
      '(assistant_message, mappings) ← normalize_assistant_message content index;
      _ ← extend_mappings mappings;
      match tool_calls with
      | [] =>
          match assistant_message with
          | Some message => _ ← push_output [message]; mret 0%nat
          | None => _ ← count RemovedEmptyAssistant; mret 0%nat
          end
      | _ =>
          message ← lift (ok_or assistant_message
              (history_error (at_message index) InvalidMessageOrder (Some (at_message index))
                 "assistant tool-call turn became empty after normalization"));
          expected ← lift (expected_ids tool_calls mappings index ∅);
          _ ← push_output [message];
          '(results, pending, consumed) ←
              collect_results rest (index + 1) mappings tool_calls expected expected [];
          _ ← guard_err (negb (bool_decide (pending = ∅)))
                (history_error (at_message index) MissingToolResult (Some (at_message index))
                   "assistant tool-call turn is missing one or more tool results");
          _ ← push_output (map from_tool_result results);
          mret consumed
      end
  end.

Definition normalize_plain (message : Message) (index : Z) : N unit :=
  normalized ← normalize_plain_message message index;
  match normalized with Some message => push_output [message] | None => mret tt end.

(** The main loop; [skip] counts the tool messages the last turn consumed. *)
Fixpoint normalize_from (messages : list Message) (index : Z) (skip : nat) : N unit :=
  match messages with
  | [] => mret tt
  | message :: rest =>
      match skip with
      | S skip => normalize_from rest (index + 1) skip
      | O =>
          match msg_role message with
          | MessageRole.Tool =>
              throw (history_error (at_message index) ResultBeforeCall (Some (at_message index))
                       "tool result appeared before an assistant tool-call turn")
          | MessageRole.Developer =>
              _ ← guard_err
                    (negb (bool_decide (hc_developer_role capabilities = CapabilityStatus.Supported)))
                    (history_error (at_message index +:+ ".role") UnsupportedContent
                       (Some (at_message index))
                       "developer role is not supported by the target profile");
              _ ← normalize_plain message index;
              normalize_from rest (index + 1) 0
          | MessageRole.System | MessageRole.User =>
              _ ← normalize_plain message index;
              normalize_from rest (index + 1) 0
          | MessageRole.Assistant =>
              consumed ← normalize_turn (msg_content message) rest index;
              normalize_from rest (index + 1) consumed
          end
      end
  end.

Definition too_many_messages : HistoryError :=
  history_error "messages" TooManyMessages None "history exceeds the allowed message count".

Definition normalize_history_with_limits (messages : list Message)
  : result HistoryError NormalizedContext :=
  if max_messages <? Z.of_nat (length messages) then Err too_many_messages
  else
    match normalize_from messages 0 0 (mk_normalize_state [] [] ∅ 0) with
    | (_, Err e) => Err e
    | (s, Ok _) =>
        if max_messages <? Z.of_nat (length (ns_output s)) then Err too_many_messages
        else Ok (mk_normalized_context (ns_output s) (ns_mappings s) (into_vec (ns_counts s)))
    end.
End Normalize.

Definition normalize_history (messages : list Message) (capabilities : HistoryCapabilities)
    (id_policy : ToolCallIdPolicy) (policy : HistoryPolicy) : result HistoryError NormalizedContext :=
  normalize_history_with_limits capabilities id_policy policy (max_messages official)
    (max_total_text_bytes official) messages.

(** ** Replay of reasoning *)
Definition drop_opaque_reasoning (opaque : OpaqueReasoning) : DiagnosticCode * Z :=
  (DroppedThinkingOpaque, 1).

Definition apply_thinking_replay_policy (thinking : ThinkingContent) (policy : ThinkingReplayPolicy)
    (target : option SourceIdentity) : option ThinkingContent * list (DiagnosticCode * Z) :=
  match policy with
  | DropAll =>
      (None, match tc_opaque thinking with Some _ => [(DroppedThinkingOpaque, 1)] | None => [] end)
  | SameSourceOnly =>
      match tc_opaque thinking with
      | None => (Some thinking, [])
      | Some opaque =>
          match target with
          | None => (Some (thinking_new (tc_text thinking)), [(DroppedThinkingOpaque, 1)])
          | Some target =>
              if matches_source (or_source opaque) target then (Some thinking, [])
              else (Some (thinking_new (tc_text thinking)), [(DroppedThinkingOpaque, 1)])
          end
      end
  end.
