(* ===== verification/HistorySpec.v ===== *)
(** * What a normalized history guarantees

    [normal] describes histories a target accepts: tool turns followed by
    exactly the results of their calls, only supported content, ids of the
    dialect. Normalization produces normal histories within the budgets, and
    leaves a normal history as it is. *)
From S2P Require Import Prelude Errors Domain History.

(** ** Text *)
Definition part_bytes (p : ContentPart) : Z :=
  match p with
  | PText t | PRefusal t => str_len t
  | PThinking t => str_len (tc_text t)
  | PImage _ | PToolCall _ => 0
  end.
Definition sum (l : list Z) : Z := foldr Z.add 0 l.
Definition parts_bytes (parts : list ContentPart) : Z := sum (map part_bytes parts).
Definition message_bytes (m : Message) : Z :=
  match msg_payload m with
  | Content parts => parts_bytes parts
  | ToolResult r => parts_bytes (tr_content r)
  end.
Definition text_bytes (ms : list Message) : Z := sum (map message_bytes ms).

Lemma sum_app l1 l2 : sum (l1 ++ l2) = sum l1 + sum l2.
Proof. unfold sum. induction l1; cbn in *; lia. Qed.
Lemma parts_bytes_app l1 l2 : parts_bytes (l1 ++ l2) = parts_bytes l1 + parts_bytes l2.
Proof. unfold parts_bytes. by rewrite map_app, sum_app. Qed.
Lemma text_bytes_app l1 l2 : text_bytes (l1 ++ l2) = text_bytes l1 + text_bytes l2.
Proof. unfold text_bytes. by rewrite map_app, sum_app. Qed.
Lemma text_bytes_cons m ms : text_bytes (m :: ms) = message_bytes m + text_bytes ms.
Proof. done. Qed.
Lemma message_bytes_new role parts : message_bytes (message_new role parts) = parts_bytes parts.
Proof. done. Qed.
Lemma parts_bytes_calls calls : parts_bytes (map PToolCall calls) = 0.
Proof. unfold parts_bytes, sum. induction calls; cbn in *; lia. Qed.
Lemma part_bytes_nonneg p : 0 <= part_bytes p.
Proof. destruct p; cbn; try lia; apply str_len_nonneg. Qed.
Lemma parts_bytes_nonneg parts : 0 <= parts_bytes parts.
Proof.
  unfold parts_bytes, sum. induction parts as [|p parts IH]; cbn in *; [lia|]. pose proof (part_bytes_nonneg p). lia.
Qed.
Lemma message_bytes_nonneg m : 0 <= message_bytes m.
Proof. unfold message_bytes. destruct (msg_payload m); apply parts_bytes_nonneg. Qed.
Lemma text_bytes_nonneg ms : 0 <= text_bytes ms.
Proof.
  unfold text_bytes, sum. induction ms as [|m ms IH]; cbn in *; [lia|]. pose proof (message_bytes_nonneg m). lia.
Qed.

(** ** Ids *)
Lemma hex_digit_ok n : 0 <= n < 16 -> id_byte (hex_digit n) = true.
Proof. apply (for_range (fun n => id_byte (hex_digit n)) 0 16). by vm_compute. Qed.

Lemma hex12_ok n : str_all id_byte (hex12 n) = true /\ str_len (hex12 n) = 12.
Proof.
  split; [|done]. unfold hex12, str_all. rewrite bytes_of_str_of. apply List.forallb_forall.
  intros b Hb. apply in_map_iff in Hb as (i & <- & _). apply hex_digit_ok.
  change 15 with (Z.ones 4). rewrite Z.land_ones by lia. apply Z.mod_pos_bound. lia.
Qed.

Lemma forallb_filter {A} (p : A -> bool) l : forallb p (List.filter p l) = true.
Proof. induction l as [|x l IH]; [done|]. cbn. destruct (p x) eqn:E; cbn; by rewrite ?E. Qed.

Lemma forallb_take {A} (p : A -> bool) n l : forallb p l = true -> forallb p (take n l) = true.
Proof.
  revert n. induction l as [|x l IH]; intros [|n] H; cbn in *; try done.
  apply andb_true_iff in H as [-> H]. by apply IH.
Qed.

(** A sanitized id is fresh and in the dialect's alphabet and length. *)
Lemma sanitize_ok original occupied id occupied' :
  sanitize_openai_tool_call_id original occupied = Ok (id, occupied') ->
  id ∉ occupied /\ occupied' = {[id]} ∪ occupied /\ str_all id_byte id = true /\ 1 <= str_len id <= 40.
Proof.
  unfold sanitize_openai_tool_call_id. set (filtered := str_of (List.filter id_byte (bytes_of original))).
  assert (str_all id_byte filtered = true) as Hall
    by (unfold str_all, filtered; rewrite bytes_of_str_of; apply forallb_filter).
  clearbody filtered. destruct (in_range _ _ _ && _) eqn:E.
  - apply andb_true_iff in E as [Hr%in_range_spec Hn]. apply negb_true_iff, bool_decide_eq_false in Hn.
    intros [= <- <-]. done.
  - clear E. set (cand := str_of (take 27 (bytes_of filtered))).
    set (prefix := if str_is_empty cand then "call" else cand).
    assert (str_all id_byte prefix = true /\ 1 <= str_len prefix <= 27) as [Hp Hlp].
    { subst prefix. destruct (str_is_empty cand) eqn:Ec; [by vm_compute|]. split.
      - unfold str_all, cand. rewrite bytes_of_str_of. by apply forallb_take.
      - split; [by apply str_len_pos|]. unfold cand. rewrite str_len_bytes, bytes_of_str_of.
        rewrite length_take. lia. }
    clearbody prefix. set (h := hex12 _). destruct (hex12_ok (Z.land (fnv1a64 (bytes_of original)) 281474976710655)) as [Hh Hlh].
    fold h in Hh, Hlh. clearbody h. destruct (bool_decide_reflect (prefix +:+ "_" +:+ h ∈ occupied)); [done|].
    destruct (str_is_empty _); [done|]. intros [= <- <-]. split_and!; try done.
    + by rewrite !str_all_app, Hp, Hh.
    + rewrite !str_len_app. change (str_len "_") with 1. lia.
    + rewrite !str_len_app. change (str_len "_") with 1. lia.
Qed.

Lemma filter_all {A} (p : A -> bool) l : forallb p l = true -> List.filter p l = l.
Proof.
  induction l as [|x l IH]; [done|]. cbn. intros [-> H]%andb_true_iff. by rewrite IH.
Qed.

(** An id that is already fine is kept. *)
Lemma sanitize_id id occupied :
  str_all id_byte id = true -> 1 <= str_len id <= 40 -> id ∉ occupied ->
  sanitize_openai_tool_call_id id occupied = Ok (id, {[id]} ∪ occupied).
Proof.
  intros Hall Hlen Hfree. unfold sanitize_openai_tool_call_id. rewrite filter_all by done.
  replace (str_of (bytes_of id)) with id
    by (symmetry; apply String.string_of_list_ascii_of_string).
  rewrite (proj2 (in_range_spec 1 40 _)) by done. by rewrite bool_decide_eq_false_2.
Qed.

(** The calls of a turn, as the source collects them. *)
Definition content_calls (content : list ContentPart) : list (string * string) :=
  omap (fun p => match p with PToolCall c => Some (tc_id c, tc_name c) | _ => None end) content.

Lemma collect_calls_iff content index : forall part seen tcs,
  collect_calls content index part seen = Ok tcs <->
  tcs = content_calls content /\ NoDup (map fst tcs) /\ (forall id, id ∈ map fst tcs -> id ∉ seen).
Proof.
  induction content as [|p content IH]; intros part seen tcs; cbn.
  - split; [intros [= <-]; split_and!; [done|constructor|by intros ? ?%elem_of_nil]|by intros [-> _]].
  - destruct p; try apply IH.
    destruct (bool_decide_reflect (tc_id call ∈ seen)) as [Hin|Hin].
    + split; [done|]. intros (-> & _ & Hf). cbn in Hf. destruct (Hf (tc_id call)); set_solver.
    + destruct (collect_calls content index (part + 1) ({[tc_id call]} ∪ seen)) as [calls|e] eqn:E; cbn.
      * apply IH in E as (-> & Hnd & Hf). split.
        -- intros [= <-]. cbn. split_and!; [done| |].
           ++ constructor; [|done]. intros Hin'. apply Hf in Hin'. set_solver.
           ++ intros id [->|Hid]%elem_of_cons; [done|]. apply Hf in Hid. set_solver.
        -- by intros [-> _].
      * split; [done|]. intros (-> & Hnd & Hf). cbn in *. apply NoDup_cons in Hnd as [Hn Hnd].
        assert (collect_calls content index (part + 1) ({[tc_id call]} ∪ seen) = Ok (content_calls content)) as E'.
        { apply IH. split_and!; [done|done|]. intros id Hid. specialize (Hf id). set_solver. }
        congruence.
Qed.

(** The id a call's results must carry. *)
Definition mapped (mappings : list IdMapping) (original : string) : string :=
  match List.find (fun m => str_eqb (im_original m) original) mappings with
  | Some m => im_normalized m
  | None => original
  end.

Section Normal.
Context (capabilities : HistoryCapabilities) (id_policy : ToolCallIdPolicy) (policy : HistoryPolicy).
Context (max_messages max_text : Z).

(** Content the target accepts. *)
Definition normal_part (allow_refusal : bool) (p : ContentPart) : Prop :=
  match p with
  | PText _ => True
  | PImage _ => hc_vision_input capabilities = CapabilityStatus.Supported
  | PThinking _ => hp_thinking_replay policy = SameSourceOnly
  | PRefusal _ => allow_refusal = true
  | PToolCall _ => False
  end.

(** Ids of the dialect. *)
Definition normal_id (id : string) : Prop :=
  match id_policy with
  | PreserveIds => True
  | OpenAiIds => str_all id_byte id = true /\ 1 <= str_len id <= 40
  end.

(** A result with the one non-empty text part it may have. *)
Definition normal_result (r : ToolResultMessage) : Prop :=
  valid_tool_call_id (tr_tool_call_id r) /\
  exists t, tr_content r = [PText t] /\ str_is_empty t = false.

Definition plain_role (role : MessageRole.t) : Prop :=
  match role with
  | MessageRole.System | MessageRole.User => True
  | MessageRole.Developer => hc_developer_role capabilities = CapabilityStatus.Supported
  | _ => False
  end.

(** The results of a turn: exactly one per call, in any order. *)
Definition answers (calls : list ToolCall) (results : list ToolResultMessage) : Prop :=
  calls <> [] /\ NoDup (map tc_id calls) /\ map tr_tool_call_id results ≡ₚ map tc_id calls /\
  Forall (fun c => normal_id (tc_id c)) calls /\ Forall normal_result results.

Inductive normal : list Message -> Prop :=
| normal_nil : normal []
| normal_plain role parts ms :
    plain_role role -> parts <> [] -> Forall (normal_part false) parts -> normal ms ->
    normal (message_new role parts :: ms)
| normal_assistant parts ms :
    parts <> [] -> Forall (normal_part true) parts -> normal ms ->
    normal (message_new MessageRole.Assistant parts :: ms)
| normal_turn parts calls results ms :
    Forall (normal_part true) parts -> answers calls results -> normal ms ->
    normal (message_new MessageRole.Assistant (parts ++ map PToolCall calls)
              :: map from_tool_result results ++ ms).

Lemma normal_app ms1 ms2 : normal ms1 -> normal ms2 -> normal (ms1 ++ ms2).
Proof.
  intros H1 H2. induction H1; cbn; [done|by constructor..|].
  rewrite <- app_assoc. by constructor.
Qed.

(** ** Normalization produces normal histories *)
Abbreviation NS := NormalizeState.

(** [k] more bytes of text were accepted and the output is as before. *)
Definition adv (k : Z) (s s' : NS) : Prop :=
  ns_output s' = ns_output s /\ ns_total s' = ns_total s + k /\
  (ns_total s <= max_text -> ns_total s' <= max_text).

Lemma adv_refl s : adv 0 s s.
Proof. split_and!; try done; lia. Qed.
Lemma adv_trans k1 k2 s1 s2 s3 : adv k1 s1 s2 -> adv k2 s2 s3 -> adv (k1 + k2) s1 s3.
Proof. intros (? & ? & ?) (? & ? & ?). split_and!; [congruence|lia|auto]. Qed.

Lemma adv_count code s k s' : adv k s s' ->
  adv k s (mk_normalize_state (ns_output s') (ns_mappings s') (increment code (ns_counts s')) (ns_total s')).
Proof. done. Qed.

Lemma add_text_bytes_ok n s : wp_ok (add_text_bytes max_text n) (fun _ s' => adv n s s') s.
Proof.
  unfold add_text_bytes. wp_step. wp_step. wp_step. wp_step.
  destruct (usize_checked_add _ _) as [next|] eqn:E; [|done]. apply checked_Some in E as [-> _].
  cbn [ok_or]. wp_step. apply wp_guard; [done|]. intros Hle%Z.ltb_ge. wp_step.
  split_and!; cbn; try done; lia.
Qed.

Lemma adv_one allow p s s' : adv (part_bytes p) s s' -> normal_part allow p ->
  adv (parts_bytes (option_list (Some p))) s s' /\ Forall (normal_part allow) (option_list (Some p)).
Proof.
  intros H Hp. change (parts_bytes (option_list (Some p))) with (part_bytes p + 0).
  rewrite Z.add_0_r. split; [done|]. constructor; [done|constructor].
Qed.

Ltac use H := eapply wp_mono; [apply H| |done].

Lemma content_part_ok p index part allow s :
  wp_ok (normalize_content_part capabilities policy max_text p index part allow)
    (fun o s' => adv (parts_bytes (option_list o)) s s' /\
       Forall (normal_part allow) (option_list o)) s.
Proof.
  unfold normalize_content_part, count. destruct p as [t|img|th|t|call].
  - wp_step. use add_text_bytes_ok. intros [] s' H. wp_step. by apply adv_one.
  - destruct (bool_decide_reflect (hc_vision_input capabilities = CapabilityStatus.Supported)).
    + wp_step. apply adv_one; [apply adv_refl|done].
    + destruct (hp_unsupported_content policy); [done|]. wp_step. wp_step. wp_step.
      split; [apply adv_count, adv_refl|constructor].
  - destruct (hp_thinking_replay policy) eqn:E.
    + wp_step. use add_text_bytes_ok. intros [] s' H. wp_step. by apply adv_one.
    + destruct (tc_opaque th).
      * wp_step. wp_step. wp_step. split; [apply adv_count, adv_refl|constructor].
      * wp_step. split; [apply adv_refl|constructor].
  - wp_step. apply wp_guard; [done|]. intros Ha%negb_false_iff. wp_step. use add_text_bytes_ok.
    intros [] s' H. wp_step. by apply adv_one.
  - done.
Qed.

Lemma plain_parts_ok content index : forall part s,
  wp_ok (plain_parts capabilities policy max_text content index part)
    (fun parts s' => adv (parts_bytes parts) s s' /\ Forall (normal_part false) parts) s.
Proof.
  induction content as [|p content IH]; intros part s; cbn [plain_parts].
  - wp_step. split; [apply adv_refl|constructor].
  - wp_step. use content_part_ok. intros o s1 [H1 F1]. wp_step. use IH. intros parts s2 [H2 F2]. wp_step.
    rewrite parts_bytes_app. split; [by eapply adv_trans|by apply Forall_app].
Qed.

Lemma normalize_tool_call_ok call index part occupied call' mapping occupied' :
  normalize_tool_call call index part id_policy occupied = Ok (call', mapping, occupied') ->
  tc_id call' ∉ occupied /\ occupied' = {[tc_id call']} ∪ occupied /\ normal_id (tc_id call') /\
  ((mapping = None /\ tc_id call' = tc_id call) \/
   mapping = Some (mk_id_mapping (tc_id call) (tc_id call')) /\ valid_tool_call_id (tc_id call')).
Proof.
  unfold normalize_tool_call, normal_id. destruct id_policy.
  - destruct (bool_decide_reflect (tc_id call ∈ occupied)); [done|]. intros [= <- <- <-]. split_and!; auto.
  - destruct (sanitize_openai_tool_call_id _ _) as [[id occ]|e] eqn:E; [|done]. cbn.
    apply sanitize_ok in E as (H1 & -> & H2 & H3).
    destruct (ToolCallId_new id) as [id'|] eqn:E'; [|done]. apply ToolCallId_new_ok in E' as [-> Hv]. cbn.
    intros [= <- <- <-]. cbn. split_and!; try done; try lia.
    destruct (str_eqb id (tc_id call)) eqn:Heq; [|auto]. apply str_eqb_spec in Heq. auto.
Qed.

Lemma mapped_head m ms original :
  mapped (m :: ms) original =
  if str_eqb (im_original m) original then im_normalized m else mapped ms original.
Proof. unfold mapped. cbn. by destruct (str_eqb _ _). Qed.

Lemma mapped_absent ms original :
  original ∉ map im_original ms -> mapped ms original = original.
Proof.
  induction ms as [|m ms IH]; [done|]. cbn. intros Hn. rewrite mapped_head.
  destruct (str_eqb _ _) eqn:E; [apply str_eqb_spec in E; set_solver|]. apply IH. set_solver.
Qed.

(** The parts of an assistant message: supported content, then the calls. *)
Record turn_parts (occupied : gset string) (tcs : list (string * string)) (parts : list ContentPart)
    (mappings : list IdMapping) (pre : list ContentPart) (calls : list ToolCall) : Prop := {
  tp_parts : parts = pre ++ map PToolCall calls;
  tp_pre : Forall (normal_part true) pre;
  tp_nodup : NoDup (map tc_id calls);
  tp_fresh : forall id, id ∈ map tc_id calls -> id ∉ occupied;
  tp_ids : Forall (fun c => normal_id (tc_id c)) calls;
  tp_mapped : map (fun tc => mapped mappings tc.1) tcs = map tc_id calls;
  tp_originals : forall o, o ∈ map im_original mappings -> o ∈ map fst tcs;
  tp_valid : Forall (fun m => valid_tool_call_id (im_normalized m)) mappings }.

Lemma turn_parts_call occupied tcs parts mappings calls call call' mapping :
  turn_parts ({[tc_id call']} ∪ occupied) tcs parts mappings [] calls ->
  tc_id call ∉ map fst tcs -> tc_id call' ∉ occupied -> normal_id (tc_id call') ->
  ((mapping = None /\ tc_id call' = tc_id call) \/
   mapping = Some (mk_id_mapping (tc_id call) (tc_id call')) /\ valid_tool_call_id (tc_id call')) ->
  turn_parts occupied ((tc_id call, tc_name call) :: tcs) (PToolCall call' :: parts)
    (option_list mapping ++ mappings) [] (call' :: calls).
Proof.
  intros [Hp _ Hnd Hfr Hid Hm Ho Hv] Hn Hf Hid' Hmap. cbn in Hp. subst parts. split; cbn; try done.
  - constructor; [|done]. intros Hin. apply Hfr in Hin. set_solver.
  - intros id [->|Hin]%elem_of_cons; [done|]. apply Hfr in Hin. set_solver.
  - by constructor.
  - rewrite <- Hm. destruct Hmap as [[-> ->]|[-> _]]; cbn.
    + f_equal. apply mapped_absent. intros Hin. apply Ho in Hin. done.
    + rewrite mapped_head. cbn. rewrite str_eqb_refl. f_equal. apply map_ext_in.
      intros tc Hin%list_elem_of_In. rewrite mapped_head. cbn.
      destruct (str_eqb (tc_id call) tc.1) eqn:E; [|done]. apply str_eqb_spec in E.
      destruct Hn. rewrite E. apply list_elem_of_fmap. eauto.
  - intros o. destruct Hmap as [[-> _]|[-> _]]; cbn; intros Hin; [set_solver|].
    apply elem_of_cons in Hin as [->|Hin]; set_solver.
  - destruct Hmap as [[-> _]|[-> ?]]; cbn; [done|]. by constructor.
Qed.

Lemma turn_parts_pre occupied tcs parts mappings pre calls o :
  turn_parts occupied tcs parts mappings pre calls -> Forall (normal_part true) (option_list o) ->
  turn_parts occupied tcs (option_list o ++ parts) mappings (option_list o ++ pre) calls.
Proof.
  intros [-> Hp Hnd Hfr Hid Hm Ho Hv] Hf. split; try done; [by rewrite app_assoc|by apply Forall_app].
Qed.

Lemma assistant_parts_ok content index : forall part seen occupied s,
  NoDup (map fst (content_calls content)) ->
  wp_ok (assistant_parts capabilities id_policy policy max_text content index part seen occupied)
    (fun '(parts, mappings) s' => exists pre calls,
       turn_parts occupied (content_calls content) parts mappings pre calls /\
       (seen = true -> pre = []) /\ adv (parts_bytes pre) s s') s.
Proof.
  induction content as [|p content IH]; intros part seen occupied s Hnd; cbn [assistant_parts].
  { wp_step. exists [], []. split_and!; [|done|apply adv_refl]. split; cbn; try done; try constructor; set_solver. }
  destruct p as [t|img|th|t|call].
  5: { cbn in Hnd. apply NoDup_cons in Hnd as [Hn Hnd]. wp_step. wp_step.
    destruct (normalize_tool_call call index part id_policy occupied) as [[[call' mapping] occ']|e] eqn:E; [|done].
    apply normalize_tool_call_ok in E as (Hf & -> & Hid & Hm). wp_step.
    match goal with |- wp ?c _ _ _ => assert (wp c (fun _ s' => adv 0 s s') (fun _ _ => True) s) as Hcount end.
    { destruct mapping; [apply wp_modify, adv_count, adv_refl|apply wp_ret, adv_refl]. }
    use Hcount. clear Hcount. intros [] s1 H1. wp_step. use (IH (part + 1) true); [done|].
    intros [parts mappings] s2 (pre & calls & Ht & Hpre & H2). wp_step.
    rewrite (Hpre eq_refl) in Ht, H2. exists [], (call' :: calls).
    split_and!; [by apply turn_parts_call|done|]. eapply (adv_trans 0); done. }
  all: wp_step; apply wp_guard; [done|]; intros ->; wp_step; use content_part_ok; intros o s1 [H1 F1];
    wp_step; use (IH (part + 1) false); [done|]; intros [parts mappings] s2 (pre & calls & Ht & _ & H2);
    wp_step; exists (option_list o ++ pre), calls; split_and!; [by apply turn_parts_pre|done|];
    rewrite parts_bytes_app; by eapply adv_trans.
Qed.

Lemma expected_ids_ok tcs mappings index : forall expected expected',
  expected_ids tcs mappings index expected = Ok expected' ->
  forall id, is_Some (expected' !! id) <->
    is_Some (expected !! id) \/ id ∈ map (fun tc => mapped mappings tc.1) tcs.
Proof.
  induction tcs as [|[o name] tcs IH]; intros expected expected'; cbn [expected_ids].
  - intros [= <-] id. cbn. set_solver.
  - fold (mapped mappings o). destruct (bool_decide_reflect (is_Some (expected !! mapped mappings o))); [done|].
    intros H id. rewrite (IH _ _ H). cbn. rewrite elem_of_cons, lookup_insert_is_Some'. naive_solver.
Qed.

Lemma result_text_ok content s :
  wp_ok (result_text max_text content) (fun _ s' => adv (parts_bytes content) s s') s.
Proof.
  revert s. induction content as [|p content IH]; intros s; cbn [result_text].
  - wp_step. apply adv_refl.
  - destruct p; try done. wp_step. use add_text_bytes_ok. intros [] s1 H1. use IH. intros [] s2 H2.
    change (parts_bytes (PText text :: content)) with (str_len text + parts_bytes content).
    by eapply adv_trans.
Qed.

Lemma remap_ok r mapped_id s :
  valid_tool_call_id mapped_id ->
  wp_ok (remap_tool_result max_text r mapped_id)
    (fun r' s' => tr_tool_call_id r' = mapped_id /\ normal_result r' /\
       adv (message_bytes (from_tool_result r')) s s') s.
Proof.
  intros Hv. unfold remap_tool_result. wp_step. use result_text_ok. intros [] s1 H1. wp_step.
  unfold tool_result_new. destruct (tr_content r) as [|[t| | | |] [|]] eqn:E; try done. cbn.
  destruct (str_is_empty t) eqn:Et; [done|]. cbn. split_and!; [done| |].
  - split; [done|]. by exists t.
  - done.
Qed.

Lemma resolve_valid original mappings tcs id :
  Forall (fun m => valid_tool_call_id (im_normalized m)) mappings ->
  resolve_mapped_id original mappings tcs = Ok id -> valid_tool_call_id id.
Proof.
  intros Hv. unfold resolve_mapped_id. destruct (List.find _ mappings) as [m|] eqn:E.
  - intros [= <-]. apply List.find_some in E as [Hin%list_elem_of_In _].
    rewrite Forall_forall in Hv. by apply Hv.
  - destruct (_ || _); [|done]. destruct (ToolCallId_new original) as [i|] eqn:Ei; [|done].
    intros [= <-]. apply ToolCallId_new_ok in Ei as [-> Hi]. done.
Qed.

(** The results collected after a turn are distinct pending ids, each answered
    once. *)
Record collected_results (pending pending' : gmap string string) (new : list ToolResultMessage)
  : Prop := {
  cr_nodup : NoDup (map tr_tool_call_id new);
  cr_pending : forall id, is_Some (pending !! id) <->
                 is_Some (pending' !! id) \/ id ∈ map tr_tool_call_id new;
  cr_gone : forall id, id ∈ map tr_tool_call_id new -> pending' !! id = None;
  cr_normal : Forall normal_result new }.

Lemma collect_results_ok mappings tcs expected :
  Forall (fun m => valid_tool_call_id (im_normalized m)) mappings ->
  forall rest index pending results s,
  wp_ok (collect_results max_text rest index mappings tcs expected pending results)
    (fun '(results', pending', _) s' => exists new, results' = results ++ new /\
       collected_results pending pending' new /\ adv (text_bytes (map from_tool_result new)) s s') s.
Proof.
  intros Hv. induction rest as [|m rest IH]; intros index pending results s; cbn [collect_results].
  { wp_step. exists []. rewrite app_nil_r. split_and!; [done| |apply adv_refl].
    split; try constructor; set_solver. }
  destruct (bool_decide (msg_role m = MessageRole.Tool)).
  2: { wp_step. exists []. rewrite app_nil_r. split_and!; [done| |apply adv_refl].
    split; try constructor; set_solver. }
  wp_step. wp_step. destruct (msg_tool_result m) as [r|]; [|done]. cbn [ok_or]. wp_step. wp_step.
  destruct (resolve_mapped_id _ mappings tcs) as [id|] eqn:Er; [|done]. wp_step.
  destruct (pending !! id) as [name|] eqn:Ep; [|destruct (_ || _); done]. wp_step. wp_step.
  use remap_ok; [by eapply resolve_valid|]. intros r' s1 (Hid & Hn & H1). wp_step. use IH.
  intros [[results' pending'] consumed] s2 (new & -> & [Hnd Hpe Hgone Hnorm] & H2). wp_step.
  assert (forall x, x ∈ map tr_tool_call_id new -> x <> id) as Hne.
  { intros x Hx ->. assert (is_Some (delete id pending !! id)) as Hsome by (apply Hpe; auto).
    rewrite lookup_delete_eq in Hsome. by destruct Hsome. }
  exists (r' :: new). rewrite <- app_assoc. split_and!; [done| |].
  - split; cbn; rewrite ?Hid.
    + constructor; [|done]. intros Hin. by apply Hne in Hin.
    + intros x. rewrite elem_of_cons. destruct (decide (x = id)) as [->|Hx].
      * rewrite Ep. split; [auto|eauto].
      * specialize (Hpe x). rewrite lookup_delete_ne in Hpe by done. naive_solver.
    + intros x [->|Hx]%elem_of_cons; [|auto]. destruct (pending' !! id) eqn:E; [|done].
      assert (is_Some (delete id pending !! id)) as Hsome by (apply Hpe; rewrite E; eauto).
      rewrite lookup_delete_eq in Hsome. by destruct Hsome.
    + by constructor.
  - change (text_bytes (map from_tool_result (r' :: new))) with
      (message_bytes (from_tool_result r') + text_bytes (map from_tool_result new)).
    by eapply adv_trans.
Qed.
(** What the pass maintains. *)
Definition pass_ok (s : NS) : Prop :=
  normal (ns_output s) /\ ns_total s = text_bytes (ns_output s) /\ ns_total s <= max_text.

Lemma pass_push k s s' ms output mappings counts :
  pass_ok s -> adv k s s' -> normal ms -> k = text_bytes ms -> output = ns_output s' ++ ms ->
  pass_ok (mk_normalize_state output mappings counts (ns_total s')).
Proof.
  intros (Hn & Ht & Hm) (Ho & Hk & Hb) Hms -> ->. unfold pass_ok. cbn [ns_output ns_total].
  rewrite Ho, text_bytes_app. split_and!; [by apply normal_app|lia|auto].
Qed.

Lemma pass_same s s' mappings counts :
  pass_ok s -> adv 0 s s' -> pass_ok (mk_normalize_state (ns_output s') mappings counts (ns_total s')).
Proof. intros H Ha. eapply (pass_push 0 s s' []); try done; [constructor|by rewrite app_nil_r]. Qed.

Lemma normalize_plain_ok message index s :
  plain_role (msg_role message) -> pass_ok s ->
  wp_ok (normalize_plain capabilities policy max_text message index) (fun _ => pass_ok) s.
Proof.
  intros Hrole Hok. unfold normalize_plain, normalize_plain_message. wp_step. wp_step.
  apply wp_guard; [done|]. intros _. wp_step. use plain_parts_ok. intros parts s1 [H1 F1].
  destruct parts as [|p parts]; wp_step.
  - wp_step. destruct s1. by eapply (pass_same s (mk_normalize_state _ _ _ _)).
  - unfold push_output. wp_step. eapply (pass_push _ s s1); [done|exact H1| | |reflexivity].
    + constructor; try done. constructor.
    + cbn. unfold message_bytes. cbn. lia.
Qed.

Lemma assistant_message_ok content index s :
  NoDup (map fst (content_calls content)) ->
  wp_ok (normalize_assistant_message capabilities id_policy policy max_text content index)
    (fun '(message, mappings) s' => exists pre calls,
       turn_parts ∅ (content_calls content) (pre ++ map PToolCall calls) mappings pre calls /\
       adv (parts_bytes pre) s s' /\
       message = match pre ++ map PToolCall calls with
                 | [] => None
                 | parts => Some (message_new MessageRole.Assistant parts)
                 end) s.
Proof.
  intros Hnd. unfold normalize_assistant_message. wp_step. use (assistant_parts_ok content index 0 false ∅); [done|].
  intros [parts mappings] s1 (pre & calls & Ht & _ & H1). pose proof (tp_parts _ _ _ _ _ _ Ht) as ->.
  destruct (pre ++ map PToolCall calls) eqn:E; wp_step; exists pre, calls; rewrite E; done.
Qed.

Lemma turn_answers calls mappings tcs index expected new :
  calls <> [] -> NoDup (map tc_id calls) -> Forall (fun c => normal_id (tc_id c)) calls ->
  map (fun tc => mapped mappings tc.1) tcs = map tc_id calls ->
  expected_ids tcs mappings index ∅ = Ok expected -> collected_results expected ∅ new ->
  answers calls new.
Proof.
  intros Hne Hnd Hids Hmap Hexp [Hn Hp _ Hno]. split_and!; [done|done| |done|done].
  apply NoDup_Permutation; [done|done|]. intros x. specialize (Hp x).
  pose proof (expected_ids_ok _ _ _ _ _ Hexp x) as He. rewrite lookup_empty in Hp, He. rewrite Hmap in He.
  assert (~ is_Some (None : option string)) by (by intros []). tauto.
Qed.

Lemma normalize_turn_ok content rest index s :
  pass_ok s ->
  wp_ok (normalize_turn capabilities id_policy policy max_text content rest index)
    (fun _ => pass_ok) s.
Proof.
  intros Hok. unfold normalize_turn, count, push_output, extend_mappings. wp_step. wp_step.
  destruct (collect_assistant_tool_calls content index) as [tcs|] eqn:Ec; [|done].
  apply collect_calls_iff in Ec as (-> & Hnd & _).
  destruct content as [|p content]; [wp_step; wp_step; wp_step; by eapply (pass_same s s); [|apply adv_refl]|].
  set (cs := p :: content) in *. clearbody cs. clear p content. wp_step.
  use assistant_message_ok; [done|].
  intros [message mappings] s1 (pre & calls & [_ Hpre Hcnd _ Hids Hmap _ Hval] & H1 & ->). wp_step. wp_step.
  destruct (content_calls cs) as [|tc tcs].
  - destruct calls as [|c calls]; [|done]. cbn [map]. rewrite app_nil_r. destruct pre as [|p pre].
    + wp_step. wp_step. wp_step. by eapply (pass_same s s1).
    + wp_step. wp_step. wp_step. eapply (pass_push _ s s1); [done|exact H1| | |reflexivity].
      * apply normal_assistant; [done|done|constructor].
      * cbn. unfold message_bytes. cbn. lia.
  - assert (calls <> []) as Hcalls by (by intros ->).
    assert (forall A (f : list ContentPart -> A) d, match pre ++ map PToolCall calls with [] => d | l => f l end
      = f (pre ++ map PToolCall calls)) as Hmatch.
    { intros A f d. destruct pre; [|done]. by destruct calls. }
    rewrite (Hmatch _ (fun l => Some (message_new MessageRole.Assistant l)) None). cbn [ok_or]. wp_step. wp_step. wp_step. wp_step.
    destruct (expected_ids _ _ _ _) as [expected|] eqn:Ee; [|done]. wp_step. wp_step. wp_step.
    use (collect_results_ok mappings (tc :: tcs) expected Hval).
    intros [[results pending] consumed] s3 (new & -> & Hc & (Ho3 & Ht3 & Hb3)). cbn [app].
    wp_step. apply wp_guard; [done|]. intros ->%negb_false_iff%bool_decide_eq_true. wp_step. wp_step. wp_step.
    pose proof (turn_answers _ _ _ _ _ _ Hcalls Hcnd Hids Hmap Ee Hc) as Hans.
    destruct H1 as (Ho1 & Ht1 & Hb1). cbn in Ho3, Ht3, Hb3.
    eapply (pass_push (parts_bytes pre + text_bytes (map from_tool_result new)) s
      (mk_normalize_state (ns_output s) [] ∅ (ns_total s3))).
    + done.
    + split_and!; cbn; [done|lia|auto].
    + apply (normal_turn pre calls new []); [done|done|constructor].
    + rewrite app_nil_r, text_bytes_cons, message_bytes_new, parts_bytes_app, parts_bytes_calls. lia.
    + cbn. rewrite Ho3, Ho1, app_nil_r, <- app_assoc. done.
Qed.

Lemma normalize_from_ok messages : forall index skip s,
  pass_ok s ->
  wp_ok (normalize_from capabilities id_policy policy max_text messages index skip) (fun _ => pass_ok) s.
Proof.
  induction messages as [|m messages IH]; intros index skip s Hok; cbn [normalize_from]; [by wp_step|].
  destruct skip as [|skip]; [|by apply IH]. destruct (msg_role m) eqn:Er.
  - wp_step. apply wp_guard; [done|]. intros Hd%negb_false_iff%bool_decide_eq_true. wp_step.
    use normalize_plain_ok; [by rewrite Er|done|]. intros [] s1 H1. by apply IH.
  - wp_step. use normalize_plain_ok; [by rewrite Er|done|]. intros [] s1 H1. by apply IH.
  - wp_step. use normalize_plain_ok; [by rewrite Er|done|]. intros [] s1 H1. by apply IH.
  - wp_step. use normalize_turn_ok; [done|]. intros consumed s1 H1. by apply IH.
  - done.
Qed.

(** ** Normal histories are kept *)
Hypothesis Hmax : max_text <= USIZE_MAX.

Definition plus (n : Z) (s : NS) : NS :=
  mk_normalize_state (ns_output s) (ns_mappings s) (ns_counts s) (ns_total s + n).
Definition fits (n : Z) (s : NS) : Prop := 0 <= ns_total s /\ ns_total s + n <= max_text.

Lemma plus_plus a b s : plus b (plus a s) = plus (a + b) s.
Proof. unfold plus. cbn. f_equal. lia. Qed.
Lemma plus_0 s : plus 0 s = s.
Proof. destruct s. unfold plus. cbn. f_equal. lia. Qed.
Lemma fits_split a b s : 0 <= a -> 0 <= b -> fits (a + b) s -> fits a s /\ fits b (plus a s).
Proof. unfold fits, plus. cbn. lia. Qed.

Lemma run_bind {A B} (c : M NS HistoryError A) (f : A -> M NS HistoryError B) s s' a :
  c s = (s', Ok a) -> (c ≫= f) s = f a s'.
Proof. unfold mbind, M_bind. by intros ->. Qed.

Lemma add_text_run n s : 0 <= n -> fits n s -> add_text_bytes max_text n s = (plus n s, Ok tt).
Proof.
  intros Hn [H0 Hf]. unfold add_text_bytes, mbind, M_bind, get, lift, guard_err, put, throw, mret, M_ret.
  unfold usize_checked_add. rewrite (proj2 (checked_Some 0 USIZE_MAX _ _)) by (split; [done|lia]).
  cbn [ok_or]. rewrite (proj2 (Z.ltb_ge _ _)) by lia. done.
Qed.

Lemma content_part_run p index part allow s :
  normal_part allow p -> fits (part_bytes p) s ->
  normalize_content_part capabilities policy max_text p index part allow s =
    (plus (part_bytes p) s, Ok (Some p)).
Proof.
  intros Hn Hf. pose proof (part_bytes_nonneg p). unfold normalize_content_part.
  destruct p as [t|img|th|t|call]; cbn in Hn; cbn [part_bytes] in *.
  - by erewrite run_bind by (by apply add_text_run).
  - rewrite Hn, plus_0. done.
  - rewrite Hn. by erewrite run_bind by (by apply add_text_run).
  - subst. erewrite run_bind by done. by erewrite run_bind by (by apply add_text_run).
  - done.
Qed.

Lemma plain_parts_run parts index : forall part s,
  Forall (normal_part false) parts -> fits (parts_bytes parts) s ->
  plain_parts capabilities policy max_text parts index part s = (plus (parts_bytes parts) s, Ok parts).
Proof.
  induction parts as [|p parts IH]; intros part s Hall Hf; cbn [plain_parts].
  - change (parts_bytes []) with 0. by rewrite plus_0.
  - apply Forall_cons in Hall as [Hp Hall].
    change (parts_bytes (p :: parts)) with (part_bytes p + parts_bytes parts) in *.
    apply fits_split in Hf as [H1 H2]; [|apply part_bytes_nonneg|apply parts_bytes_nonneg].
    erewrite run_bind by (by apply content_part_run). erewrite run_bind by (by apply IH).
    by rewrite plus_plus.
Qed.

Lemma normalize_tool_call_run call index part occupied :
  normal_id (tc_id call) -> valid_tool_call_id (tc_id call) -> tc_id call ∉ occupied ->
  normalize_tool_call call index part id_policy occupied = Ok (call, None, {[tc_id call]} ∪ occupied).
Proof.
  unfold normal_id, normalize_tool_call. intros Hid Hv Hf. destruct id_policy.
  - by rewrite bool_decide_eq_false_2.
  - destruct Hid as [Hall Hlen]. rewrite sanitize_id by done. cbn.
    rewrite (proj2 (ToolCallId_new_ok _ _)) by done. cbn. rewrite str_eqb_refl. by destruct call.
Qed.

Lemma calls_run calls index : forall part seen occupied s,
  NoDup (map tc_id calls) -> (forall id, id ∈ map tc_id calls -> id ∉ occupied) ->
  Forall (fun c => normal_id (tc_id c) /\ valid_tool_call_id (tc_id c)) calls ->
  assistant_parts capabilities id_policy policy max_text (map PToolCall calls) index part seen occupied s
    = (s, Ok (map PToolCall calls, [])).
Proof.
  induction calls as [|c calls IH]; intros part seen occupied s Hnd Hf Hall; [done|].
  cbn in Hnd. apply NoDup_cons in Hnd as [Hn Hnd]. apply Forall_cons in Hall as [[Hid Hv] Hall].
  cbn [map assistant_parts]. rewrite normalize_tool_call_run by (try done; apply Hf; set_solver).
  erewrite run_bind by done. cbv beta iota. erewrite run_bind by done. cbv beta iota.
  erewrite run_bind; [|apply IH; try done]; [done|].
  intros id Hid'. specialize (Hf id). set_solver.
Qed.

Lemma assistant_parts_run pre calls index : forall part s,
  Forall (normal_part true) pre -> NoDup (map tc_id calls) ->
  Forall (fun c => normal_id (tc_id c) /\ valid_tool_call_id (tc_id c)) calls ->
  fits (parts_bytes pre) s ->
  assistant_parts capabilities id_policy policy max_text (pre ++ map PToolCall calls) index part false ∅ s
    = (plus (parts_bytes pre) s, Ok (pre ++ map PToolCall calls, [])).
Proof.
  induction pre as [|p pre IH]; intros part s Hall Hnd Hc Hf.
  - change (parts_bytes []) with 0. rewrite plus_0. by apply calls_run.
  - apply Forall_cons in Hall as [Hp Hall].
    change (parts_bytes (p :: pre)) with (part_bytes p + parts_bytes pre) in *.
    apply fits_split in Hf as [H1 H2]; [|apply part_bytes_nonneg|apply parts_bytes_nonneg].
    cbn [app assistant_parts]. rewrite <- plus_plus.
    destruct p; try done; (erewrite run_bind by done; erewrite run_bind by (by apply content_part_run);
      erewrite run_bind; [|by apply IH]; done).
Qed.

Lemma expected_ids_run tcs index : forall expected,
  NoDup (map fst tcs) -> (forall id, id ∈ map fst tcs -> expected !! id = None) ->
  exists expected', expected_ids tcs [] index expected = Ok expected' /\
    forall id, is_Some (expected' !! id) <-> is_Some (expected !! id) \/ id ∈ map fst tcs.
Proof.
  induction tcs as [|[o name] tcs IH]; intros expected Hnd Hf; cbn [expected_ids].
  - exists expected. split; [done|]. set_solver.
  - cbn in Hnd. apply NoDup_cons in Hnd as [Hn Hnd]. cbn [List.find].
    rewrite bool_decide_eq_false_2 by (rewrite Hf by set_solver; by intros []).
    destruct (IH (<[o := name]> expected)) as (expected' & -> & He); [done| |].
    { intros id Hid. rewrite lookup_insert_ne by set_solver. apply Hf. set_solver. }
    exists expected'. split; [done|]. intros id. rewrite He, lookup_insert_is_Some'. set_solver.
Qed.

(** The messages after a turn. *)
Definition no_tool_head (ms : list Message) : Prop :=
  match ms with m :: _ => msg_role m <> MessageRole.Tool | [] => True end.

Lemma result_run r s : normal_result r -> fits (message_bytes (from_tool_result r)) s ->
  remap_tool_result max_text r (tr_tool_call_id r) s = (plus (message_bytes (from_tool_result r)) s, Ok r).
Proof.
  intros (Hv & t & Ht & Hne) Hf. unfold remap_tool_result. unfold message_bytes in *. cbn in *.
  rewrite Ht in *. cbn [result_text].
  change (parts_bytes [PText t]) with (str_len t + 0) in *. rewrite Z.add_0_r in *.
  erewrite run_bind; [|erewrite run_bind; [|apply add_text_run; [apply str_len_nonneg|done]]; done].
  unfold lift, tool_result_new, validate_official_tool_result_content. rewrite Hne. cbn. rewrite <- Ht.
  by destruct r.
Qed.

Lemma collect_results_run tcs expected rest : no_tool_head rest ->
  forall results index pending acc s,
  Forall normal_result results -> NoDup (map tr_tool_call_id results) ->
  (forall id, id ∈ map tr_tool_call_id results -> is_Some (pending !! id) /\ id ∈ map fst tcs) ->
  fits (text_bytes (map from_tool_result results)) s ->
  exists pending',
    collect_results max_text (map from_tool_result results ++ rest) index [] tcs expected pending acc s =
      (plus (text_bytes (map from_tool_result results)) s, Ok (acc ++ results, pending', length results)) /\
    forall id, is_Some (pending' !! id) <-> is_Some (pending !! id) /\ id ∉ map tr_tool_call_id results.
Proof.
  intros Hrest. induction results as [|r results IH]; intros index pending acc s Hn Hnd Hp Hf.
  - exists pending. change (text_bytes (map from_tool_result [])) with 0. rewrite plus_0, app_nil_r. split.
    + cbn [map app]. destruct rest as [|m rest]; [done|]. cbn in Hrest. cbn [collect_results].
      by rewrite bool_decide_eq_false_2.
    + set_solver.
  - apply Forall_cons in Hn as [Hr Hn]. cbn in Hnd. apply NoDup_cons in Hnd as [Hnotin Hnd].
    cbn [map] in Hf. rewrite text_bytes_cons in Hf.
    apply fits_split in Hf as [H1 H2]; [|apply message_bytes_nonneg|apply text_bytes_nonneg].
    destruct (Hp (tr_tool_call_id r)) as [[name Hname] Hin]; [set_solver|].
    cbn [map app collect_results]. rewrite bool_decide_eq_true_2 by done.
    change (msg_tool_result (from_tool_result r)) with (Some r). cbn [ok_or]. erewrite run_bind by done.
    erewrite run_bind; [|unfold lift, resolve_mapped_id; cbn [List.find existsb orb];
      rewrite (proj2 (List.existsb_exists _ _)), (proj2 (ToolCallId_new_ok _ _))
        by first [by (apply list_elem_of_fmap in Hin as (tc & Heq & Hin); exists tc;
                      split; [by apply list_elem_of_In|by rewrite Heq, str_eqb_refl])|by destruct Hr];
      reflexivity].
    rewrite Hname. erewrite run_bind by done. erewrite run_bind by (by apply result_run).
    destruct (IH (index + 1) (delete (tr_tool_call_id r) pending) (acc ++ [r]) (plus (message_bytes (from_tool_result r)) s))
      as (pending' & Hrun & Hpend); [done|done| |done|].
    { intros id Hid. rewrite lookup_delete_ne by (intros <-; done). apply Hp. set_solver. }
    exists pending'. erewrite run_bind; [|exact Hrun]. split.
    + rewrite plus_plus, text_bytes_cons, <- app_assoc. done.
    + intros id. rewrite Hpend, lookup_delete_is_Some. set_solver.
Qed.

Lemma normalize_skip l1 l2 : forall index s,
  normalize_from capabilities id_policy policy max_text (l1 ++ l2) index (length l1) s =
  normalize_from capabilities id_policy policy max_text l2 (index + Z.of_nat (length l1)) 0 s.
Proof.
  induction l1 as [|m l1 IH]; intros index s; cbn [app length].
  - by rewrite Z.add_0_r.
  - cbn [normalize_from]. rewrite IH. f_equal. lia.
Qed.

Lemma normal_no_tool_head ms : normal ms -> no_tool_head ms.
Proof. intros H. destruct H; cbn; try done. by destruct role. Qed.

Lemma content_calls_turn pre calls : Forall (normal_part true) pre ->
  content_calls (pre ++ map PToolCall calls) = map (fun c => (tc_id c, tc_name c)) calls.
Proof.
  intros H. induction H as [|p pre Hp _ IH]; cbn; [|by destruct p].
  induction calls as [|c calls IH]; [done|]. unfold content_calls in *. cbn. by rewrite IH.
Qed.

Lemma answers_valid calls results : answers calls results ->
  Forall (fun c => normal_id (tc_id c) /\ valid_tool_call_id (tc_id c)) calls.
Proof.
  intros (_ & _ & Hperm & Hids & Hres). rewrite Forall_forall in Hids. rewrite Forall_forall in Hres.
  apply Forall_forall. intros c Hc. split; [auto|].
  assert (tc_id c ∈ map tr_tool_call_id results) as Hin.
  { rewrite Hperm. apply list_elem_of_fmap. eauto. }
  apply list_elem_of_fmap in Hin as (r & -> & Hr). by destruct (Hres r Hr).
Qed.

Lemma map_map_fst calls : map fst (map (fun c : ToolCall => (tc_id c, tc_name c)) calls) = map tc_id calls.
Proof. by rewrite map_map. Qed.

(** A turn that already pairs is kept. *)
Lemma turn_run pre calls results rest index s :
  Forall (normal_part true) pre -> answers calls results -> no_tool_head rest ->
  fits (parts_bytes pre + text_bytes (map from_tool_result results)) s ->
  normalize_turn capabilities id_policy policy max_text (pre ++ map PToolCall calls)
    (map from_tool_result results ++ rest) index s =
  (mk_normalize_state
     ((ns_output s ++ [message_new MessageRole.Assistant (pre ++ map PToolCall calls)])
        ++ map from_tool_result results) (ns_mappings s) (ns_counts s)
     (ns_total s + (parts_bytes pre + text_bytes (map from_tool_result results))),
   Ok (length results)).
Proof.
  intros Hpre Hans Hrest Hf. pose proof (answers_valid _ _ Hans) as Hval.
  destruct Hans as (Hne & Hnd & Hperm & Hids & Hres).
  apply fits_split in Hf as [H1 H2]; [|apply parts_bytes_nonneg|apply text_bytes_nonneg].
  assert (collect_assistant_tool_calls (pre ++ map PToolCall calls) index =
    Ok (map (fun c => (tc_id c, tc_name c)) calls)) as Hcollect.
  { apply collect_calls_iff. rewrite content_calls_turn, map_map_fst by done. by split_and!. }
  unfold normalize_turn. rewrite Hcollect. erewrite run_bind by done. clear Hcollect.
  pose proof (map_map_fst calls) as Hfst. set (tcs := map (fun c => (tc_id c, tc_name c)) calls) in *.
  clearbody tcs.
  assert (exists p ps, pre ++ map PToolCall calls = p :: ps) as (p & ps & Hcons).
  { destruct pre; [destruct calls; [done|]|]; cbn; eauto. }
  rewrite Hcons. rewrite <- Hcons. unfold normalize_assistant_message.
  erewrite run_bind; [|erewrite run_bind by (by apply assistant_parts_run); cbv beta iota; rewrite Hcons;
    rewrite <- Hcons; reflexivity]. cbv beta iota. erewrite run_bind by reflexivity. cbv beta.
  destruct tcs as [|tc tcs]; [by destruct calls|]. cbn [ok_or]. erewrite run_bind by done. cbv beta.
  destruct (expected_ids_run (tc :: tcs) index ∅) as (expected & Hexp & Hdom);
    [by rewrite Hfst|done|]. rewrite Hexp. erewrite run_bind by done. cbv beta.
  erewrite run_bind by reflexivity. cbv beta.
  match goal with |- mbind _ _ ?s1 = _ =>
    destruct (collect_results_run (tc :: tcs) expected rest Hrest results
      (index + 1) expected [] s1) as (pending & Hrun & Hpend) end.
  { done. }
  { by rewrite Hperm. }
  { intros id Hid. rewrite Hperm in Hid. rewrite Hdom, Hfst. auto. }
  { unfold fits, plus in *. cbn in *. lia. }
  erewrite run_bind; [|exact Hrun]. cbv beta iota.
  assert (pending = ∅) as ->.
  { apply map_empty. intros id. destruct (pending !! id) as [n|] eqn:E; [|done].
    destruct (proj1 (Hpend id)) as [Hs Hn]; [by rewrite E|]. exfalso. apply Hn. rewrite Hperm.
    apply Hdom in Hs as [Hs|Hs]; [rewrite lookup_empty in Hs; by destruct Hs|]. by rewrite Hfst in Hs. }
  erewrite run_bind by (by rewrite bool_decide_eq_true_2). cbv beta.
  erewrite run_bind by reflexivity. cbv beta. unfold mret, M_ret. cbn. rewrite app_nil_r.
  by rewrite Z.add_assoc.
Qed.

Lemma plain_run role parts index s :
  parts <> [] -> Forall (normal_part false) parts -> fits (parts_bytes parts) s ->
  normalize_plain capabilities policy max_text (message_new role parts) index s =
  (mk_normalize_state (ns_output s ++ [message_new role parts]) (ns_mappings s) (ns_counts s)
     (ns_total s + parts_bytes parts), Ok tt).
Proof.
  intros Hne Hall Hf. unfold normalize_plain, normalize_plain_message.
  destruct parts as [|p parts]; [done|].
  erewrite run_bind; [|erewrite run_bind by done; erewrite run_bind by (by apply plain_parts_run);
    reflexivity]. done.
Qed.

Lemma assistant_run parts rest index s :
  parts <> [] -> Forall (normal_part true) parts -> fits (parts_bytes parts) s ->
  normalize_turn capabilities id_policy policy max_text parts rest index s =
  (mk_normalize_state (ns_output s ++ [message_new MessageRole.Assistant parts]) (ns_mappings s)
     (ns_counts s) (ns_total s + parts_bytes parts), Ok 0%nat).
Proof.
  intros Hne Hall Hf. assert (content_calls parts = []) as Hcalls.
  { pose proof (content_calls_turn parts [] Hall) as H. cbn in H. by rewrite app_nil_r in H. }
  assert (collect_assistant_tool_calls parts index = Ok []) as Hcollect.
  { apply collect_calls_iff. split_and!; [done|constructor|set_solver]. }
  pose proof (assistant_parts_run parts [] index 0 s Hall (NoDup_nil_2) (List.Forall_nil _) Hf) as Hrun.
  cbn [map] in Hrun. rewrite app_nil_r in Hrun.
  unfold normalize_turn. rewrite Hcollect. erewrite run_bind by done. destruct parts as [|p parts]; [done|].
  unfold normalize_assistant_message.
  erewrite run_bind; [|erewrite run_bind by exact Hrun; reflexivity]. cbv beta iota.
  erewrite run_bind by reflexivity. cbv beta iota. erewrite run_bind by reflexivity.
  unfold mret, M_ret. cbn. by rewrite app_nil_r.
Qed.

Lemma normal_run ms : normal ms -> forall index s,
  fits (text_bytes ms) s ->
  normalize_from capabilities id_policy policy max_text ms index 0 s =
  (mk_normalize_state (ns_output s ++ ms) (ns_mappings s) (ns_counts s) (ns_total s + text_bytes ms), Ok tt).
Proof.
  induction 1 as [|role parts ms Hrole Hne Hall Hms IH|parts ms Hne Hall Hms IH|pre calls results ms Hpre Hans Hms IH];
    intros index s Hf.
  - cbn. rewrite app_nil_r. change (text_bytes []) with 0. rewrite Z.add_0_r. by destruct s.
  - rewrite text_bytes_cons, message_bytes_new in *.
    apply fits_split in Hf as [H1 H2]; [|apply parts_bytes_nonneg|apply text_bytes_nonneg].
    pose proof (plain_run role parts index s Hne Hall H1) as Hrun.
    cbn [normalize_from msg_role message_new]. destruct role; try done; cbn in Hrole.
    1: rewrite Hrole; erewrite run_bind by done.
    all: erewrite run_bind by exact Hrun; rewrite IH by done; cbn; rewrite <- app_assoc; by rewrite Z.add_assoc.
  - rewrite text_bytes_cons, message_bytes_new in *.
    apply fits_split in Hf as [H1 H2]; [|apply parts_bytes_nonneg|apply text_bytes_nonneg].
    cbn [normalize_from msg_role message_new]. erewrite run_bind by (by apply assistant_run).
    rewrite IH by done. cbn. rewrite <- app_assoc. by rewrite Z.add_assoc.
  - rewrite text_bytes_cons, message_bytes_new, text_bytes_app, parts_bytes_app, parts_bytes_calls, Z.add_0_r, Z.add_assoc in *.
    apply fits_split in Hf as [H1 H2]; [| |apply text_bytes_nonneg];
      [|pose proof (parts_bytes_nonneg pre); pose proof (text_bytes_nonneg (map from_tool_result results)); lia].
    cbn [normalize_from msg_role message_new]. change (msg_content (message_new MessageRole.Assistant ?l)) with l.
    pose proof (normal_no_tool_head ms Hms) as Hhead. erewrite run_bind by (by apply turn_run).
    rewrite <- (length_map from_tool_result results). rewrite normalize_skip, IH by done. cbn.
    rewrite <- !app_assoc. by rewrite !Z.add_assoc.
Qed.

Lemma limits_yield_normal messages ctx :
  0 <= max_text ->
  normalize_history_with_limits capabilities id_policy policy max_messages max_text messages = Ok ctx ->
  normal (nc_messages ctx) /\ Z.of_nat (length (nc_messages ctx)) <= max_messages /\
  text_bytes (nc_messages ctx) <= max_text.
Proof.
  intros H0. unfold normalize_history_with_limits. destruct (_ <? _); [done|].
  assert (pass_ok (mk_normalize_state [] [] ∅ 0)) as Hinit by (split_and!; [constructor|done|done]).
  pose proof (normalize_from_ok messages 0 0 _ Hinit) as Hpass. unfold wp in Hpass.
  destruct (normalize_from _ _ _ _ messages 0 0 _) as [s [[]|e]]; [|done].
  destruct (Z.ltb_spec max_messages (Z.of_nat (length (ns_output s)))); [done|]. intros [= <-]. cbn [nc_messages].
  destruct Hpass as (Hn & Ht & Hb). split_and!; [done|lia|lia].
Qed.

Lemma normal_kept ms :
  normal ms -> Z.of_nat (length ms) <= max_messages -> text_bytes ms <= max_text ->
  normalize_history_with_limits capabilities id_policy policy max_messages max_text ms =
    Ok (mk_normalized_context ms [] []).
Proof.
  intros Hn Hl Ht. unfold normalize_history_with_limits. rewrite (proj2 (Z.ltb_ge _ _)) by done.
  rewrite (normal_run ms Hn) by (split; cbn; lia). cbn [ns_output app].
  rewrite (proj2 (Z.ltb_ge _ _)) by done. done.
Qed.
End Normal.

(** ** Theorems *)
Section Statements.
Context (capabilities : HistoryCapabilities) (id_policy : ToolCallIdPolicy) (policy : HistoryPolicy).
Context (max_messages max_text : Z).
Abbreviation normalize :=
  (normalize_history_with_limits capabilities id_policy policy max_messages max_text).
Abbreviation normal_history := (normal capabilities id_policy policy).

(** C23. Whatever the input, a history that normalizes is one the target
    accepts: every assistant turn with tool calls is followed at once by
    exactly one result per call and no result stands elsewhere, the calls of a
    turn have distinct ids in the dialect's alphabet and length and come after
    its other content, only supported content is left, and the message and
    text budgets hold. *)
Theorem normalize_yields_normal messages ctx :
  0 <= max_text -> normalize messages = Ok ctx ->
  normal_history (nc_messages ctx) /\ Z.of_nat (length (nc_messages ctx)) <= max_messages /\
  text_bytes (nc_messages ctx) <= max_text.
Proof. apply limits_yield_normal. Qed.

(** C24. The histories normalization leaves untouched, with no id rewritten and
    no diagnostic, are exactly the normal ones within the budgets: nothing
    that the target accepts is rejected or changed. *)
Theorem normal_exactly_kept messages :
  0 <= max_text <= USIZE_MAX ->
  normalize messages = Ok (mk_normalized_context messages [] []) <->
  normal_history messages /\ Z.of_nat (length messages) <= max_messages /\
  text_bytes messages <= max_text.
Proof.
  intros Hmax. split.
  - intros H. by apply limits_yield_normal in H; [|lia].
  - intros (Hn & Hl & Ht). by apply normal_kept; [lia|..].
Qed.

(** Normalization is idempotent: running it on its own output changes
    nothing, rewrites no id and reports no diagnostic. *)
Theorem normalize_idempotent messages ctx :
  0 <= max_text <= USIZE_MAX -> normalize messages = Ok ctx ->
  normalize (nc_messages ctx) = Ok (mk_normalized_context (nc_messages ctx) [] []).
Proof.
  intros Hmax H. apply limits_yield_normal in H as (Hn & Hl & Ht); [|lia]. by apply normal_kept; [lia|..].
Qed.
End Statements.

(** Opaque reasoning is replayed only to its source: if the replay policy
    hands out thinking with opaque data, the policy allows same-source replay,
    the data is the original, and the target's provider, model and protocol are
    those it came from. *)
Theorem opaque_only_to_source thinking policy target kept diagnostics opaque :
  apply_thinking_replay_policy thinking policy target = (Some kept, diagnostics) ->
  tc_opaque kept = Some opaque ->
  policy = SameSourceOnly /\ kept = thinking /\ diagnostics = [] /\
  exists t, target = Some t /\ si_provider (or_source opaque) = si_provider t /\
    si_model (or_source opaque) = si_model t /\ si_protocol (or_source opaque) = si_protocol t.
Proof.
  unfold apply_thinking_replay_policy. destruct policy; [|done].
  destruct (tc_opaque thinking) as [o|] eqn:Eo; [|naive_solver].
  destruct target as [t|]; [|by intros [= <- <-]].
  destruct (matches_source (or_source o) t) eqn:Em; [|by intros [= <- <-]].
  intros [= <- <-] Hop. rewrite Eo in Hop. injection Hop as <-.
  unfold matches_source in Em. rewrite !andb_true_iff, !str_eqb_spec in Em. naive_solver.
Qed.

(** ** A concrete history *)
Definition sample_arguments : ToolArguments := mk_tool_arguments "{}" (JObject []).
Definition sample_history : list Message :=
  [message_new MessageRole.User [PText "hi"];
   message_new MessageRole.Assistant
     [PThinking (thinking_new "hmm"); PText "calling";
      PToolCall (mk_tool_call "a.b" "f" sample_arguments);
      PToolCall (mk_tool_call "ab" "g" sample_arguments)];
   from_tool_result (mk_tool_result "ab" "g" [PText "2"] false None);
   from_tool_result (mk_tool_result "a.b" "f" [PText "1"] false None)].
Definition sample_normalize (ms : list Message) : result HistoryError NormalizedContext :=
  normalize_history_with_limits official_openai_defaults OpenAiIds history_policy_official_openai 16 64 ms.
Definition sample_context : NormalizedContext :=
  match sample_normalize sample_history with Ok ctx => ctx | Err _ => mk_normalized_context [] [] [] end.

Lemma normalize_yields_normal_witness :
  normal official_openai_defaults OpenAiIds history_policy_official_openai (nc_messages sample_context) /\
  length (nc_messages sample_context) = 4%nat.
Proof.
  split; [|by vm_compute].
  apply (normalize_yields_normal official_openai_defaults OpenAiIds history_policy_official_openai 16 64
    sample_history sample_context); [lia|]. vm_compute. reflexivity.
Defined.

Lemma normal_exactly_kept_witness :
  normal official_openai_defaults OpenAiIds history_policy_official_openai (nc_messages sample_context).
Proof.
  apply (normal_exactly_kept official_openai_defaults OpenAiIds history_policy_official_openai 16 64).
  - unfold USIZE_MAX, U64_MAX. lia.
  - vm_compute. reflexivity.
Defined.

Lemma normalize_idempotent_witness :
  sample_normalize (nc_messages sample_context) =
    Ok (mk_normalized_context (nc_messages sample_context) [] []).
Proof.
  apply (normalize_idempotent official_openai_defaults OpenAiIds history_policy_official_openai 16 64
    sample_history sample_context).
  - unfold USIZE_MAX, U64_MAX. lia.
  - vm_compute. reflexivity.
Defined.

Definition sample_source : SourceIdentity := mk_source_identity "p" "m" "x" None.
Definition sample_thinking : ThinkingContent :=
  with_opaque (thinking_new "hmm") (mk_opaque [] sample_source false).
Lemma opaque_only_to_source_witness : exists t, Some sample_source = Some t /\ si_provider t = "p".
Proof.
  destruct (opaque_only_to_source sample_thinking SameSourceOnly (Some sample_source) sample_thinking []
    (mk_opaque [] sample_source false) eq_refl eq_refl) as (_ & _ & _ & t & Ht & Hp & _).
  exists t. by split.
Defined.
