(* ===== verification/Request.v ===== *)
(** * Requests: [src/src/domain/tools.rs] and [src/src/domain/request.rs]

    Tool declarations and choices, capabilities, generation options, and the
    validation a request passes before it is planned and encoded. The current
    instant is an argument of the checks that read the clock. *)
From Stdlib Require Import SpecFloat.
From S2P Require Import Prelude Errors Domain Structured ChatWire Schema Options History.

(** ** Capabilities *)
Module ReasoningEffort.
Inductive t := None_ | Minimal | Low | Medium | High | XHigh | Max.
End ReasoningEffort.
#[global] Instance ReasoningEffort_eq_dec : EqDecision ReasoningEffort.t.
Proof. solve_decision. Defined.

Inductive ReasoningEffortSupport :=
| EffortUnsupported | EffortUnknown | EffortSupported (values : list ReasoningEffort.t).
Inductive ThinkingRequest := Disabled | Effort (e : ReasoningEffort.t) | ProviderDefault.

Record CapabilitySet := mk_capability_set {
  cs_temperature : CapabilityStatus.t; cs_max_output_tokens : CapabilityStatus.t;
  cs_function_tools : CapabilityStatus.t; cs_tool_choice_required : CapabilityStatus.t;
  cs_tool_choice_specific : CapabilityStatus.t; cs_parallel_tool_calls : CapabilityStatus.t;
  cs_strict_tools : CapabilityStatus.t; cs_vision_input : CapabilityStatus.t;
  cs_image_detail_original : CapabilityStatus.t;
  cs_response_format_json_object : CapabilityStatus.t;
  cs_response_format_json_schema : CapabilityStatus.t;
  cs_reasoning_efforts : ReasoningEffortSupport }.

Import CapabilityStatus.
Definition capability_set_default : CapabilitySet :=
  mk_capability_set Supported Supported Unknown Unknown Unknown Unknown Unknown Unknown Unknown
    Unknown Unknown EffortUnknown.

(** [check_capability] of [tools.rs], and of [request.rs], which names the
    capability after the field. *)
Definition check_capability (field capability : string) (status : CapabilityStatus.t)
  : result LlmError unit :=
  match status with
  | Supported => Ok tt
  | Unsupported => Err (LlmError.Capability (mk_capability_error field capability "Unsupported"))
  | Unknown => Err (LlmError.Capability (mk_capability_error field capability "Unknown"))
  end.
Definition check_field_capability (field : string) (status : CapabilityStatus.t)
  : result LlmError unit := check_capability field field status.

Definition invalid {A} (field : string) (reason : ValidationReason.t) (summary : string)
  : result LlmError A := Err (LlmError.Validation (validation_error field reason summary)).
Definition invalid_if (b : bool) (field : string) (reason : ValidationReason.t) (summary : string)
  : result LlmError unit := if b then invalid field reason summary else Ok tt.

(** ** Tools *)
Record ToolLimits := mk_tool_limits { tl_max_tools : Z; tl_max_tool_description_bytes : Z }.
Definition tool_limits_official : ToolLimits := mk_tool_limits 128 1024.

Definition from_raw_json {JS : JsonSyntax} (raw : string) : result json_error ToolArguments :=
  value ← from_str raw; Ok (mk_tool_arguments raw value).

Record ToolDefinition := mk_tool_definition {
  td_name : string; td_description : option string; td_parameters : ToolSchema; td_strict : bool }.
Definition tool_definition_new (name : string) (parameters : ToolSchema) : ToolDefinition :=
  mk_tool_definition name None parameters false.
Definition with_description (t : ToolDefinition) (description : string)
  : result ValidationError ToolDefinition :=
  if tl_max_tool_description_bytes tool_limits_official <? str_len description
  then Err (validation_error "tools.description" ValidationReason.OutOfRange
              "tool description exceeds the allowed byte limit")
  else Ok (mk_tool_definition (td_name t) (Some description) (td_parameters t) (td_strict t)).

Module ToolChoice.
Inductive t := Auto | None_ | Required | Specific (name : string).
End ToolChoice.
Inductive ParallelToolCalls := Enabled | Disallowed.

Section Tools.
Context {SE : SchemaEngine}.

Definition tool_call_error {A} (field : string) (reason : ToolValidationFailure) (path : option string)
    (message : string) : result ToolValidationError A :=
  Err (mk_tool_validation_error field reason path message).

(** A [ValidatedToolCall] is the call. *)
Definition validate_tool_call_with_limits (call : ToolCall) (tools : list ToolDefinition)
    (schema_limits : SchemaLimits) (resource_limits : ResourceLimits)
  : result ToolValidationError ToolCall :=
  match List.find (fun tool => str_eqb (td_name tool) (tc_name call)) tools with
  | None => tool_call_error "tool_call.name" ToolUnknown None
              "tool call name is not present in the declared tools"
  | Some tool =>
      if max_tool_arguments_bytes resource_limits <? str_len (raw_json (tc_arguments call))
      then tool_call_error "tool_call.arguments" ArgumentsTooLarge (Some "#")
             "tool arguments exceed the allowed byte limit"
      else
        let limits := mk_schema_limits (sl_max_schema_bytes schema_limits)
          (Z.min (sl_max_schema_depth schema_limits) (max_schema_depth resource_limits))
          (Z.min (sl_max_json_array_items schema_limits) (max_json_array_items resource_limits)) in
        _ ← validate_instance (td_parameters tool) (ta_value (tc_arguments call)) limits;
        Ok call
  end.
Definition validate_tool_call (call : ToolCall) (tools : list ToolDefinition)
  : result ToolValidationError ToolCall :=
  validate_tool_call_with_limits call tools schema_limits_official official.
End Tools.

Definition at_tool (index : Z) (suffix : string) : string :=
  "tools[" +:+ show index +:+ "]." +:+ suffix.

(** One declaration: its name is new, its description fits, and strictness is
    possible. *)
Definition validate_strict (index : Z) (tool : ToolDefinition)
    (capabilities : CapabilitySet) : result LlmError unit :=
  _ ← check_capability (at_tool index "strict") "strict_tools" (cs_strict_tools capabilities);
  if strict_compatible (td_parameters tool) then Ok tt
  else
    let reason :=
      match as_object (schema_value (td_parameters tool)) ≫= fun o => obj_get o "additionalProperties" with
      | Some (JBool false) => StrictPropertyNotRequired
      | _ => StrictObjectMissingAdditionalPropertiesFalse
      end in
    Err (LlmError.Schema (mk_schema_error (at_tool index "parameters") reason (Some "#")
           "strict tools require a strict-compatible object schema")).

Fixpoint validate_tool_list (tools : list ToolDefinition) (index : Z)
    (names : gset string) (capabilities : CapabilitySet) (limits : ToolLimits) : result LlmError unit :=
  match tools with
  | [] => Ok tt
  | tool :: tools =>
      _ ← invalid_if (bool_decide (td_name tool ∈ names)) (at_tool index "name")
            ValidationReason.DuplicateToolName "tool names must be unique within one request";
      _ ← invalid_if (match td_description tool with
                      | Some d => tl_max_tool_description_bytes limits <? str_len d
                      | None => false
                      end) (at_tool index "description") ValidationReason.OutOfRange
            "tool description exceeds the allowed byte limit";
      _ ← (if td_strict tool then validate_strict index tool capabilities else Ok tt);
      validate_tool_list tools (index + 1) ({[td_name tool]} ∪ names) capabilities limits
  end.

Definition is_empty {A} (l : list A) : bool := match l with [] => true | _ => false end.

Definition validate_tool_choice (tools : list ToolDefinition) (choice : ToolChoice.t)
    (capabilities : CapabilitySet) : result LlmError unit :=
  match choice with
  | ToolChoice.Auto =>
      invalid_if (is_empty tools) "tool_choice" ValidationReason.EmptyToolList
        "auto tool choice requires at least one tool"
  | ToolChoice.None_ => Ok tt
  | ToolChoice.Required =>
      _ ← invalid_if (is_empty tools) "tool_choice" ValidationReason.EmptyToolList
            "required tool choice requires at least one tool";
      check_capability "tool_choice" "tool_choice_required" (cs_tool_choice_required capabilities)
  | ToolChoice.Specific name =>
      _ ← invalid_if (is_empty tools) "tool_choice" ValidationReason.EmptyToolList
            "specific tool choice requires at least one tool";
      _ ← check_capability "tool_choice" "tool_choice_specific" (cs_tool_choice_specific capabilities);
      invalid_if (negb (existsb (fun tool => str_eqb (td_name tool) name) tools)) "tool_choice.name"
        ValidationReason.UnknownTool "specific tool choice must reference a declared tool"
  end.

Definition validate_tool_options_with_limits (tools : list ToolDefinition)
    (tool_choice : option ToolChoice.t) (parallel_tool_calls : option ParallelToolCalls)
    (capabilities : CapabilitySet) (limits : ToolLimits) : result LlmError unit :=
  _ ← invalid_if (tl_max_tools limits <? Z.of_nat (length tools)) "tools" ValidationReason.OutOfRange
        "tool count exceeds the allowed limit";
  _ ← (if is_empty tools then Ok tt
       else check_capability "tools" "function_tools" (cs_function_tools capabilities));
  _ ← validate_tool_list tools 0 ∅ capabilities limits;
  _ ← match tool_choice with
      | Some choice => validate_tool_choice tools choice capabilities
      | None => Ok tt
      end;
  match parallel_tool_calls with
  | Some _ =>
      _ ← check_capability "parallel_tool_calls" "parallel_tool_calls"
            (cs_parallel_tool_calls capabilities);
      invalid_if (is_empty tools) "parallel_tool_calls" ValidationReason.EmptyToolList
        "parallel_tool_calls requires at least one tool"
  | None => Ok tt
  end.
Definition validate_tool_options (tools : list ToolDefinition)
    (tool_choice : option ToolChoice.t) (parallel_tool_calls : option ParallelToolCalls)
    (capabilities : CapabilitySet) : result LlmError unit :=
  validate_tool_options_with_limits tools tool_choice parallel_tool_calls capabilities
    tool_limits_official.

(** ** Options and requests *)

(** [RequestMetadata::insert]. *)
Definition metadata_insert (key value : string) (metadata : gmap string string)
  : result ValidationError (gmap string string) :=
  if str_is_empty key || has_boundary_whitespace key
  then Err (validation_error "request_metadata" ValidationReason.InvalidMetadata
              "metadata keys must be non-empty and trimmed")
  else Ok (<[key := value]> metadata).

(** [RequestTimeout::after] and [RequestTimeout::at]. *)
Definition timeout_after (duration : Z) : result ValidationError RequestTimeout :=
  if duration =? 0
  then Err (validation_error "timeout" ValidationReason.Zero "timeout must be non-zero")
  else Ok (TimeoutAfter duration).
Definition timeout_at (now deadline : Z) : result ValidationError RequestTimeout :=
  if deadline <=? now
  then Err (validation_error "deadline" ValidationReason.Expired "deadline has elapsed")
  else Ok (TimeoutAt deadline).

(** Headers are listed in the order their map iterates them. *)
Record GenerationOptions := mk_generation_options {
  go_temperature : option f64; go_max_output_tokens : option Z; go_reasoning : ThinkingRequest;
  go_response_format : ResponseFormat; go_tools : list ToolDefinition;
  go_tool_choice : option ToolChoice.t; go_parallel_tool_calls : option ParallelToolCalls;
  go_timeout : option RequestTimeout; go_headers : list (string * list ascii);
  go_metadata : gmap string string; go_protocol_options : option ProtocolOptions }.
Definition generation_options_default : GenerationOptions :=
  mk_generation_options None None ProviderDefault FText [] None None None [] ∅ None.

Record GenerateRequest := mk_generate_request {
  gr_model : ModelRef; gr_messages : list Message; gr_options : GenerationOptions }.

Record RequestValidationLimits := mk_request_limits {
  rv_max_body_bytes : Z; rv_max_messages : Z; rv_max_text_bytes : Z; rv_max_tools : Z;
  rv_max_tool_description_bytes : Z; rv_max_schema_bytes : Z; rv_max_schema_depth : Z;
  rv_max_json_array_items : Z; rv_max_images : Z; rv_max_inline_image_bytes : Z;
  rv_max_image_url_bytes : Z }.

(** [str::trim(s).is_empty()]: every character is white space. *)
Fixpoint blank (l : list ascii) : bool :=
  match l with
  | [] => true
  | b0 :: l1 =>
      if ws1 b0 then blank l1
      else match l1 with
           | [] => false
           | b1 :: l2 =>
               if ws2 b0 b1 then blank l2
               else match l2 with
                    | [] => false
                    | b2 :: l3 => if ws3 b0 b1 b2 then blank l3 else false
                    end
           end
  end.
Definition trim_is_empty (s : string) : bool := blank (bytes_of s).

(** ** Messages *)
Definition at_message_content (index : Z) : string := "messages[" +:+ show index +:+ "].content".

(** What the loop over the messages has seen. *)
Record Scan := mk_scan {
  sc_has_user : bool; sc_has_text : bool; sc_images : Z; sc_original : bool }.
Definition scan_start : Scan := mk_scan false false 0 false.

Definition is_original (d : ImageDetail) : bool := match d with Original => true | _ => false end.

Definition validate_image_source (source : ImageSource) (index part : Z) (url_bytes inline_bytes : Z)
    (url_summary inline_summary : string) : result LlmError unit :=
  match source with
  | ImgUrl url =>
      invalid_if (url_bytes <? str_len url) (at_content index part) ValidationReason.OutOfRange url_summary
  | ImgInline _ bytes =>
      invalid_if (inline_bytes <? Z.of_nat (length bytes)) (at_content index part)
        ValidationReason.OutOfRange inline_summary
  | ImgDataUrl _ => Ok tt
  end.

Fixpoint validate_user_parts (parts : list ContentPart) (index part : Z) (s : Scan)
  : result LlmError Scan :=
  match parts with
  | [] => Ok s
  | PText text :: parts =>
      validate_user_parts parts index (part + 1)
        (mk_scan (sc_has_user s) (negb (trim_is_empty text) || sc_has_text s) (sc_images s)
           (sc_original s))
  | PImage image :: parts =>
      _ ← validate_image_source (img_source image) index part (max_image_url_bytes official)
            (max_inline_image_bytes official) "image URL exceeds the frozen UTF-8 byte limit"
            "inline image exceeds the frozen byte limit";
      validate_user_parts parts index (part + 1)
        (mk_scan (sc_has_user s) (sc_has_text s) (usize_saturating_add (sc_images s) 1)
           (is_original (img_detail image) || sc_original s))
  | (PThinking _ | PRefusal _ | PToolCall _) :: _ =>
      invalid (at_content index part) ValidationReason.TextPartCount
        "user messages only accept text and image parts"
  end.

Definition validate_single_text_message (message : Message) (index : Z) : result LlmError unit :=
  match msg_content message with
  | [PText text] =>
      invalid_if (str_is_empty text) (at_content index 0) ValidationReason.Empty
        "developer and system text must be non-empty"
  | [_] => invalid (at_content index 0) ValidationReason.TextPartCount
             "developer and system messages require text content"
  | _ => invalid (at_message_content index) ValidationReason.TextPartCount
           "developer and system messages require exactly one text part"
  end.

Fixpoint validate_assistant_parts (parts : list ContentPart) (index part : Z) (seen_tool_call : bool)
  : result LlmError unit :=
  match parts with
  | [] => Ok tt
  | p :: parts =>
      seen ← match p with
             | PText _ =>
                 _ ← invalid_if seen_tool_call (at_content index part) ValidationReason.TextPartCount
                       "assistant text after tool calls is not allowed";
                 Ok seen_tool_call
             | PToolCall _ => Ok true
             | PThinking _ =>
                 _ ← invalid_if seen_tool_call (at_content index part) ValidationReason.TextPartCount
                       "assistant thinking after tool calls is not allowed";
                 Ok seen_tool_call
             | PImage _ | PRefusal _ =>
                 invalid (at_content index part) ValidationReason.TextPartCount
                   "assistant request messages do not accept image or refusal content"
             end;
      validate_assistant_parts parts index (part + 1) seen
  end.
Definition validate_assistant_request_message (message : Message) (index : Z) : result LlmError unit :=
  _ ← invalid_if (is_empty (msg_content message)) (at_message_content index) ValidationReason.Empty
        "assistant messages require at least one content part";
  validate_assistant_parts (msg_content message) index 0 false.

Definition validate_tool_message (message : Message) (index : Z) : result LlmError unit :=
  match msg_tool_result message with
  | None => invalid (at_message index) ValidationReason.TextPartCount
              "tool role requires a tool result payload"
  | Some r =>
      match tr_content r with
      | [PText text] =>
          invalid_if (str_is_empty text) (at_content index 0) ValidationReason.Empty
            "official tool results require non-empty text"
      | _ => invalid (at_message_content index) ValidationReason.TextPartCount
               "official tool results require exactly one text part"
      end
  end.

Definition validate_message (message : Message) (index : Z) (s : Scan) : result LlmError Scan :=
  match msg_role message with
  | MessageRole.Tool => _ ← validate_tool_message message index; Ok s
  | MessageRole.Developer | MessageRole.System =>
      _ ← validate_single_text_message message index; Ok s
  | MessageRole.User =>
      let s := mk_scan true (sc_has_text s) (sc_images s) (sc_original s) in
      _ ← invalid_if (is_empty (msg_content message)) (at_message_content index) ValidationReason.Empty
            "user messages require at least one content part";
      validate_user_parts (msg_content message) index 0 s
  | MessageRole.Assistant => _ ← validate_assistant_request_message message index; Ok s
  end.
Fixpoint validate_messages (messages : list Message) (index : Z) (s : Scan) : result LlmError Scan :=
  match messages with
  | [] => Ok s
  | message :: messages =>
      s ← validate_message message index s; validate_messages messages (index + 1) s
  end.

(** ** Options *)
(** The literals [0.0] and [2.0]. *)
Definition f64_zero : f64 := S754_zero false.
Definition f64_two : f64 := S754_finite false 4503599627370496 (-51).

Definition validate_reasoning_request (request : ThinkingRequest) (support : ReasoningEffortSupport)
  : result LlmError unit :=
  let supports effort :=
    match support with
    | EffortSupported values =>
        if bool_decide (effort ∈ values) then Ok tt
        else Err (LlmError.Capability (mk_capability_error "reasoning" "reasoning_effort" "Unsupported"))
    | EffortUnsupported =>
        Err (LlmError.Capability (mk_capability_error "reasoning" "reasoning_effort" "Unsupported"))
    | EffortUnknown =>
        Err (LlmError.Capability (mk_capability_error "reasoning" "reasoning_effort" "Unknown"))
    end in
  match request with
  | ProviderDefault => Ok tt
  | Disabled => supports ReasoningEffort.None_
  | Effort effort => supports effort
  end.

Definition validate_response_format (format : ResponseFormat) (capabilities : CapabilitySet)
  : result LlmError unit :=
  match format with
  | FText => Ok tt
  | FJsonObject => check_field_capability "response_format.json_object"
                     (cs_response_format_json_object capabilities)
  | FJsonSchema _ => check_field_capability "response_format.json_schema"
                       (cs_response_format_json_schema capabilities)
  end.

Definition validate_temperature (value : f64) (capabilities : CapabilitySet) : result LlmError unit :=
  _ ← invalid_if (negb (f64_is_finite value)) "temperature" ValidationReason.NonFinite
        "temperature must be finite";
  _ ← invalid_if (negb (SFleb f64_zero value && SFleb value f64_two)) "temperature"
        ValidationReason.OutOfRange "temperature must be in 0..=2";
  check_field_capability "temperature" (cs_temperature capabilities).

Definition line_break (b : ascii) : bool := Ascii.eqb b "013" || Ascii.eqb b "010".
Fixpoint validate_headers (headers : list (string * list ascii)) : result LlmError unit :=
  match headers with
  | [] => Ok tt
  | (name, _) :: headers =>
      _ ← invalid_if (existsb line_break (bytes_of name)) ("request_headers." +:+ name)
            ValidationReason.InvalidHeader "header name contains line break";
      _ ← invalid_if (is_protected_header name) ("request_headers." +:+ name)
            ValidationReason.ProtectedHeader "protected headers are adapter-owned";
      validate_headers headers
  end.

Definition validate_generation_options (now : Z) (options : GenerationOptions)
    (capabilities : CapabilitySet) : result LlmError unit :=
  _ ← match go_temperature options with
      | Some value => validate_temperature value capabilities
      | None => Ok tt
      end;
  _ ← match go_max_output_tokens options with
      | Some value =>
          _ ← invalid_if (value =? 0) "max_output_tokens" ValidationReason.Zero
                "max_output_tokens must be positive";
          check_field_capability "max_output_tokens" (cs_max_output_tokens capabilities)
      | None => Ok tt
      end;
  _ ← validate_reasoning_request (go_reasoning options) (cs_reasoning_efforts capabilities);
  _ ← validate_response_format (go_response_format options) capabilities;
  _ ← validate_tool_options (go_tools options) (go_tool_choice options)
        (go_parallel_tool_calls options) capabilities;
  _ ← match go_timeout options with
      | Some (TimeoutAt deadline) =>
          invalid_if (deadline <=? now) "deadline" ValidationReason.Expired "deadline has elapsed"
      | _ => Ok tt
      end;
  validate_headers (go_headers options).

(** [GenerateRequest::validate]. *)
Definition validate (now : Z) (request : GenerateRequest) (capabilities : CapabilitySet)
  : result LlmError unit :=
  _ ← invalid_if (str_is_empty (mr_provider (gr_model request))) "model.provider"
        ValidationReason.MissingProvider "provider is required";
  _ ← invalid_if (is_empty (gr_messages request)) "messages" ValidationReason.Empty
        "at least one message is required";
  s ← validate_messages (gr_messages request) 0 scan_start;
  _ ← invalid_if (negb (sc_has_user s)) "messages" ValidationReason.MissingUserMessage
        "at least one user message is required";
  _ ← invalid_if (negb (sc_has_text s)) "messages" ValidationReason.EmptyUserText
        "at least one user text part must contain non-whitespace";
  _ ← (if 0 <? sc_images s
       then check_field_capability "messages.image" (cs_vision_input capabilities) else Ok tt);
  _ ← invalid_if (max_images official <? sc_images s) "messages.image" ValidationReason.OutOfRange
        "image count exceeds the frozen request limit";
  _ ← (if sc_original s
       then check_field_capability "image.detail" (cs_image_detail_original capabilities) else Ok tt);
  validate_generation_options now (gr_options request) capabilities.

(** ** Resolved limits *)
Fixpoint count_images (parts : list ContentPart) (index part : Z) (limits : RequestValidationLimits)
    (count : Z) : result LlmError Z :=
  match parts with
  | [] => Ok count
  | PImage image :: parts =>
      _ ← validate_image_source (img_source image) index part (rv_max_image_url_bytes limits)
            (rv_max_inline_image_bytes limits) "image URL exceeds the resolved request limit"
            "inline image exceeds the resolved request limit";
      count_images parts index (part + 1) limits (usize_saturating_add count 1)
  | _ :: parts => count_images parts index (part + 1) limits count
  end.
Fixpoint count_all_images (messages : list Message) (index : Z) (limits : RequestValidationLimits)
    (count : Z) : result LlmError Z :=
  match messages with
  | [] => Ok count
  | message :: messages =>
      count ← count_images (msg_content message) index 0 limits count;
      count_all_images messages (index + 1) limits count
  end.

Definition all_supported : CapabilitySet :=
  mk_capability_set Supported Supported Supported Supported Supported Supported Supported Supported
    Supported Supported Supported EffortUnknown.

Section Resources.
Context {JP : JsonPrinter} {JV : JsonValues}.

(** Compiling a schema again under the resolved limits; the compiler does not
    run out of fuel ([SchemaCompile.compile_total]). *)
Definition recompile (limits : SchemaLimits) (schema : ToolSchema) : result LlmError unit :=
  match tool_schema_with_limits (schema_value schema) limits with
  | Ok _ => Ok tt
  | Err (Some e) => Err (LlmError.Schema e)
  | Err None => Err (LlmError.Configuration "schema compilation did not terminate")
  end.

Definition validate_request_resources (messages : list Message) (options : GenerationOptions)
    (limits : RequestValidationLimits) : result LlmError unit :=
  _ ← invalid_if (rv_max_messages limits <? Z.of_nat (length messages)) "messages"
        ValidationReason.OutOfRange "message count exceeds the resolved request limit";
  count ← count_all_images messages 0 limits 0;
  _ ← invalid_if (rv_max_images limits <? count) "messages.image" ValidationReason.OutOfRange
        "image count exceeds the resolved request limit";
  _ ← validate_tool_options_with_limits (go_tools options) (go_tool_choice options)
        (go_parallel_tool_calls options) all_supported
        (mk_tool_limits (rv_max_tools limits) (rv_max_tool_description_bytes limits));
  let schema_limits := mk_schema_limits (rv_max_schema_bytes limits) (rv_max_schema_depth limits)
                         (rv_max_json_array_items limits) in
  _ ← all_ok (fun tool => recompile schema_limits (td_parameters tool)) (go_tools options);
  match go_response_format options with
  | FJsonSchema structured => recompile schema_limits (ss_schema structured)
  | _ => Ok tt
  end.

Definition validate_request_shape (now : Z) (request : GenerateRequest) (capabilities : CapabilitySet)
    (limits : RequestValidationLimits) : result LlmError unit :=
  _ ← invalid_if (str_is_empty (mr_provider (gr_model request))) "model.provider"
        ValidationReason.MissingProvider "provider is required";
  _ ← validate_generation_options now (gr_options request) capabilities;
  validate_request_resources (gr_messages request) (gr_options request) limits.

Definition validate_planned_request (now : Z) (model : ModelRef) (messages : list Message)
    (options : GenerationOptions) (capabilities : CapabilitySet) (limits : RequestValidationLimits)
  : result LlmError unit :=
  _ ← validate now (mk_generate_request model messages options) capabilities;
  validate_request_resources messages options limits.
End Resources.
