(* ===== verification/RequestSpec.v ===== *)
(** * What a validated request is

    [well_formed_request] says, without loops or early returns, which requests
    [GenerateRequest::validate] accepts; [tool_options_fit] says it of the tool
    declarations and [accepted_call] of the calls a model makes.  The files that
    encode requests rely on these facts. *)
From Stdlib Require Import SpecFloat.
From S2P Require Import Prelude Errors Domain Structured ChatWire Schema Options History Request.
Import CapabilityStatus.

(** ** Reading the success path *)
Lemma then_ok {E B} (x : result E unit) (k : result E B) b :
  (_ ← x; k) = Ok b <-> x = Ok tt /\ k = Ok b.
Proof. destruct x as [[]|]; simpl; naive_solver. Qed.
Lemma bind_ok {E A B} (x : result E A) (k : A -> result E B) b :
  x ≫= k = Ok b <-> exists a, x = Ok a /\ k a = Ok b.
Proof. destruct x as [a|]; simpl; naive_solver. Qed.
Lemma invalid_if_ok b field reason summary :
  invalid_if b field reason summary = Ok tt <-> b = false.
Proof. destruct b; done. Qed.
Lemma check_capability_ok field capability status :
  check_capability field capability status = Ok tt <-> status = Supported.
Proof. destruct status; done. Qed.
Lemma check_field_capability_ok field status :
  check_field_capability field status = Ok tt <-> status = Supported.
Proof. apply check_capability_ok. Qed.
Lemma when_ok {E} (b : bool) (x : result E unit) :
  (if b then x else Ok tt) = Ok tt <-> (b = true -> x = Ok tt).
Proof. destruct b; naive_solver. Qed.
Lemma opt_ok {E A} (o : option A) (f : A -> result E unit) :
  match o with Some a => f a | None => Ok tt end = Ok tt <-> forall a, o = Some a -> f a = Ok tt.
Proof. destruct o; naive_solver. Qed.
Lemma is_empty_false {A} (l : list A) : is_empty l = false <-> l <> [].
Proof. destruct l; naive_solver. Qed.
Lemma str_is_empty_false s : str_is_empty s = false <-> s <> EmptyString.
Proof. destruct s; naive_solver. Qed.
#[local] Hint Rewrite @then_ok invalid_if_ok check_capability_ok check_field_capability_ok
  @when_ok @is_empty_false str_is_empty_false Z.ltb_ge : ok.

(** ** Tool options *)
Definition description_fits (limits : ToolLimits) (tool : ToolDefinition) : Prop :=
  forall d, td_description tool = Some d -> str_len d <= tl_max_tool_description_bytes limits.
Definition strict_fits (caps : CapabilitySet) (tool : ToolDefinition) : Prop :=
  td_strict tool = true ->
  cs_strict_tools caps = Supported /\ strict_compatible (td_parameters tool) = true.

Definition choice_fits (caps : CapabilitySet) (tools : list ToolDefinition) (choice : ToolChoice.t)
  : Prop :=
  match choice with
  | ToolChoice.None_ => True
  | ToolChoice.Auto => tools <> []
  | ToolChoice.Required => tools <> [] /\ cs_tool_choice_required caps = Supported
  | ToolChoice.Specific name => name ∈ map td_name tools /\ cs_tool_choice_specific caps = Supported
  end.

Record tool_options_fit (caps : CapabilitySet) (limits : ToolLimits) (tools : list ToolDefinition)
    (choice : option ToolChoice.t) (parallel : option ParallelToolCalls) : Prop := {
  tf_count : Z.of_nat (length tools) <= tl_max_tools limits;
  tf_supported : tools <> [] -> cs_function_tools caps = Supported;
  tf_unique : NoDup (map td_name tools);
  tf_each : Forall (fun t => description_fits limits t /\ strict_fits caps t) tools;
  tf_choice : forall c, choice = Some c -> choice_fits caps tools c;
  tf_parallel : forall p, parallel = Some p -> tools <> [] /\ cs_parallel_tool_calls caps = Supported }.

Lemma validate_strict_ok index tool caps :
  validate_strict index tool caps = Ok tt <->
  cs_strict_tools caps = Supported /\ strict_compatible (td_parameters tool) = true.
Proof.
  unfold validate_strict. rewrite then_ok, check_capability_ok.
  destruct (strict_compatible _); naive_solver.
Qed.
Lemma description_ok limits tool :
  match td_description tool with
  | Some d => tl_max_tool_description_bytes limits <? str_len d
  | None => false
  end = false <-> description_fits limits tool.
Proof.
  unfold description_fits. destruct (td_description tool); [|naive_solver].
  rewrite Z.ltb_ge. naive_solver.
Qed.

(** The set the loop keeps is the names it has seen. *)
Lemma validate_tool_list_ok tools index names caps limits :
  validate_tool_list tools index names caps limits = Ok tt <->
  NoDup (map td_name tools) /\ (forall n, n ∈ map td_name tools -> n ∉ names) /\
  Forall (fun t => description_fits limits t /\ strict_fits caps t) tools.
Proof.
  revert index names. induction tools as [|t tools IH]; intros index names; simpl.
  - split; [|done]. intros _. split_and!; [constructor|by intros n []%elem_of_nil|constructor].
  - rewrite !then_ok, !invalid_if_ok, bool_decide_eq_false, description_ok, when_ok,
      validate_strict_ok, IH, NoDup_cons, Forall_cons.
    unfold strict_fits. split.
    + intros (Hn & Hd & Hs & Hnd & Hns & Hf). split_and!; try done.
      * intros Hin. apply (Hns _ Hin). set_solver.
      * intros n [->|Hin]%elem_of_cons; [done|]. specialize (Hns n Hin). set_solver.
    + intros ([Hnt Hnd] & Hns & ([Hd Hs] & Hf)). split_and!; try done.
      * apply Hns. left.
      * intros n Hin [->%elem_of_singleton|Hn]%elem_of_union; [done|]. by apply (Hns n); [right|].
Qed.

Lemma validate_tool_choice_ok tools choice caps :
  validate_tool_choice tools choice caps = Ok tt <-> choice_fits caps tools choice.
Proof.
  destruct choice as [| | |name]; simpl; autorewrite with ok; try done.
  rewrite negb_false_iff, existsb_exists. split.
  - intros (_ & Hc & t & Hin & Ht%bool_decide_eq_true). split; [|done]. subst name.
    apply list_elem_of_fmap. exists t. split; [done|]. by apply list_elem_of_In.
  - intros [(t & -> & Hin)%list_elem_of_fmap Hc]. split_and!; [by destruct tools; [inversion Hin|]|done|].
    exists t. split; [by apply list_elem_of_In|]. by apply bool_decide_eq_true.
Qed.

Lemma validate_tool_options_ok tools choice parallel caps limits :
  validate_tool_options_with_limits tools choice parallel caps limits = Ok tt <->
  tool_options_fit caps limits tools choice parallel.
Proof.
  unfold validate_tool_options_with_limits.
  rewrite !then_ok, validate_tool_list_ok, !opt_ok. autorewrite with ok.
  setoid_rewrite validate_tool_choice_ok. setoid_rewrite then_ok.
  setoid_rewrite check_capability_ok. setoid_rewrite invalid_if_ok. setoid_rewrite is_empty_false.
  assert ((if is_empty tools then Ok tt
           else check_capability "tools" "function_tools" (cs_function_tools caps)) = Ok tt <->
          (tools <> [] -> cs_function_tools caps = Supported)) as ->.
  { destruct tools; simpl; [naive_solver|]. rewrite check_capability_ok. naive_solver. }
  split.
  - intros (? & ? & (? & _ & ?) & ? & Hp). constructor; try done. intros p [??]%Hp. done.
  - intros [? ? ? ? ? Hp]. split_and!; try done. intros p [??]%Hp. done.
Qed.

(** ** Messages *)
Definition image_fits (image : ImageContent) : Prop :=
  match img_source image with
  | ImgUrl url => str_len url <= max_image_url_bytes official
  | ImgInline _ bytes => Z.of_nat (length bytes) <= max_inline_image_bytes official
  | ImgDataUrl _ => True
  end.
Definition user_part_fits (p : ContentPart) : Prop :=
  match p with PText _ => True | PImage image => image_fits image | _ => False end.
Definition text_or_thinking (p : ContentPart) : Prop :=
  match p with PText _ | PThinking _ => True | _ => False end.
Definition single_text (parts : list ContentPart) : Prop :=
  exists t, parts = [PText t] /\ t <> EmptyString.

(** Assistant turns are texts and reasoning followed by calls. *)
Definition message_fits (m : Message) : Prop :=
  match msg_role m with
  | MessageRole.Tool => exists r, msg_tool_result m = Some r /\ single_text (tr_content r)
  | MessageRole.Developer | MessageRole.System => single_text (msg_content m)
  | MessageRole.User => msg_content m <> [] /\ Forall user_part_fits (msg_content m)
  | MessageRole.Assistant =>
      msg_content m <> [] /\
      exists said calls, msg_content m = said ++ calls /\ Forall text_or_thinking said /\
        Forall (fun p => is_tool_call p = true) calls
  end.

Definition is_user (m : Message) : bool :=
  match msg_role m with MessageRole.User => true | _ => false end.
Definition user_parts (messages : list Message) : list ContentPart :=
  concat (map (fun m => if is_user m then msg_content m else []) messages).
Definition has_text (parts : list ContentPart) : bool :=
  existsb (fun p => match p with PText t => negb (trim_is_empty t) | _ => false end) parts.
Definition has_original (parts : list ContentPart) : bool :=
  existsb (fun p => match p with PImage i => is_original (img_detail i) | _ => false end) parts.
Fixpoint image_count (parts : list ContentPart) : Z :=
  match parts with
  | [] => 0
  | PImage _ :: parts => 1 + image_count parts
  | _ :: parts => image_count parts
  end.

Definition scanned (user : bool) (parts : list ContentPart) (s : Scan) : Scan :=
  mk_scan (user || sc_has_user s) (has_text parts || sc_has_text s)
    (Z.min (sc_images s + image_count parts) USIZE_MAX) (has_original parts || sc_original s).

Lemma image_count_nonneg parts : 0 <= image_count parts.
Proof. induction parts as [|[] parts IH]; simpl; lia. Qed.
Lemma image_count_app l l' : image_count (l ++ l') = image_count l + image_count l'.
Proof. induction l as [|[] l IH]; simpl; lia. Qed.
Lemma scanned_app u l u' l' s :
  0 <= sc_images s -> scanned u' l' (scanned u l s) = scanned (u || u') (l ++ l') s.
Proof.
  intros Hs. pose proof (image_count_nonneg l). pose proof (image_count_nonneg l').
  unfold scanned, has_text, has_original. simpl. rewrite !existsb_app, image_count_app.
  f_equal; [by destruct u, u'|by destruct (existsb _ l), (existsb _ l')|lia|
            by destruct (existsb _ l), (existsb _ l')].
Qed.
Lemma scanned_nil s : sc_images s <= USIZE_MAX -> scanned false [] s = s.
Proof. destruct s as [u t i o]. unfold scanned. simpl. intros. f_equal. lia. Qed.

Lemma validate_image_source_ok source index part url inline su si :
  validate_image_source source index part url inline su si = Ok tt <->
  match source with
  | ImgUrl u => str_len u <= url
  | ImgInline _ bytes => Z.of_nat (length bytes) <= inline
  | ImgDataUrl _ => True
  end.
Proof. destruct source; simpl; rewrite ?invalid_if_ok, ?Z.ltb_ge; done. Qed.

Lemma validate_user_parts_ok parts index part s s' :
  0 <= sc_images s <= USIZE_MAX ->
  validate_user_parts parts index part s = Ok s' <->
  Forall user_part_fits parts /\ s' = scanned false parts s.
Proof.
  revert part s. induction parts as [|p parts IH]; intros part s Hs; simpl.
  - rewrite scanned_nil by lia. naive_solver.
  - destruct p as [t|image|th|r|c]; simpl;
      try (split; [done|by intros [[[] ?]%Forall_cons ?]]).
    + rewrite IH by done. rewrite Forall_cons. simpl.
      assert (scanned false parts (mk_scan (sc_has_user s) (negb (trim_is_empty t) || sc_has_text s)
                (sc_images s) (sc_original s)) = scanned false (PText t :: parts) s) as ->.
      { unfold scanned. simpl. f_equal. by destruct (trim_is_empty t), (has_text parts). }
      naive_solver.
    + pose proof (image_count_nonneg parts).
      rewrite then_ok, validate_image_source_ok, IH by (simpl; unfold usize_saturating_add; lia).
      rewrite Forall_cons. unfold user_part_fits at 2, image_fits.
      assert (scanned false parts (mk_scan (sc_has_user s) (sc_has_text s)
                (usize_saturating_add (sc_images s) 1)
                (is_original (img_detail image) || sc_original s))
              = scanned false (PImage image :: parts) s) as ->.
      { unfold scanned, usize_saturating_add. simpl. f_equal; [lia|].
        by destruct (is_original _), (has_original parts). }
      naive_solver.
Qed.

(** A turn whose calls have started when [seen]; before them are parts in [P]. *)
Definition turn (P : ContentPart -> Prop) (seen : bool) (parts : list ContentPart) : Prop :=
  exists said calls, parts = said ++ calls /\ Forall P said /\
    Forall (fun p => is_tool_call p = true) calls /\ (seen = true -> said = []).
Section Turns.
Context (P : ContentPart -> Prop) (HP : forall p, P p -> is_tool_call p = false).
Lemma turn_said p parts seen :
  P p -> turn P seen (p :: parts) <-> seen = false /\ turn P false parts.
Proof using HP.
  intros Hp. split.
  - intros ([|q said] & calls & Heq & Hs & Hc & Hn).
    + simpl in Heq. subst calls. apply Forall_cons in Hc as [Hq _]. by rewrite HP in Hq.
    + injection Heq as <- ->. apply Forall_cons in Hs as [_ Hs].
      split; [by destruct seen; [specialize (Hn eq_refl)|]|]. by exists said, calls.
  - intros [-> (said & calls & -> & Hs & Hc & _)]. exists (p :: said), calls.
    split_and!; try done. by constructor.
Qed.
Lemma turn_call p parts seen :
  is_tool_call p = true -> turn P seen (p :: parts) <-> turn P true parts.
Proof using HP.
  intros Hp. split.
  - intros ([|q said] & calls & Heq & Hs & Hc & Hn).
    + simpl in Heq. subst calls. apply Forall_cons in Hc as [_ Hc]. by exists [], parts.
    + injection Heq as <- _. apply Forall_cons in Hs as [Hq _]. by rewrite HP in Hp.
  - intros (said & calls & -> & Hs & Hc & Hn). rewrite (Hn eq_refl). exists [], (p :: calls).
    split_and!; try done. by constructor.
Qed.
Lemma turn_other p parts seen :
  ~ P p -> is_tool_call p = false -> ~ turn P seen (p :: parts).
Proof using Type.
  intros Hp Hq ([|q said] & calls & Heq & Hs & Hc & _).
  - simpl in Heq. subst calls. apply Forall_cons in Hc as [Hc _]. by rewrite Hq in Hc.
  - injection Heq as <- _. by apply Forall_cons in Hs as [? _].
Qed.
End Turns.
Lemma text_or_thinking_call p : text_or_thinking p -> is_tool_call p = false.
Proof. by destruct p. Qed.
#[local] Hint Resolve text_or_thinking_call : core.

Lemma validate_assistant_parts_ok parts index part seen :
  validate_assistant_parts parts index part seen = Ok tt <-> turn text_or_thinking seen parts.
Proof.
  revert part seen. induction parts as [|p parts IH]; intros part seen; simpl.
  - split; [|done]. intros _. by exists [], [].
  - destruct p as [t|image|th|r|c]; simpl.
    + rewrite turn_said by (done || eauto). destruct seen; simpl; [naive_solver|]. rewrite IH. naive_solver.
    + split; [done|]. intros H. exfalso. revert H. by apply turn_other; [intros []|].
    + rewrite turn_said by (done || eauto). destruct seen; simpl; [naive_solver|]. rewrite IH. naive_solver.
    + split; [done|]. intros H. exfalso. revert H. by apply turn_other; [intros []|].
    + rewrite IH, turn_call by (done || eauto). done.
Qed.

Lemma single_text_message_ok m index :
  validate_single_text_message m index = Ok tt <-> single_text (msg_content m).
Proof.
  unfold validate_single_text_message, single_text.
  destruct (msg_content m) as [|[t|?|?|?|?] [|? ?]];
    rewrite ?invalid_if_ok, ?str_is_empty_false; naive_solver.
Qed.
Lemma tool_message_ok m index :
  validate_tool_message m index = Ok tt <->
  exists r, msg_tool_result m = Some r /\ single_text (tr_content r).
Proof.
  unfold validate_tool_message, single_text. destruct (msg_tool_result m) as [r|]; [|naive_solver].
  destruct (tr_content r) as [|[t|?|?|?|?] [|? ?]] eqn:Hr;
    rewrite ?invalid_if_ok, ?str_is_empty_false; (split; [|intros (r' & [= <-] & t' & Ht & ?)]);
    rewrite ?Hr in *; naive_solver.
Qed.

Lemma validate_message_ok m index s s' :
  0 <= sc_images s <= USIZE_MAX ->
  validate_message m index s = Ok s' <->
  message_fits m /\ s' = scanned (is_user m) (if is_user m then msg_content m else []) s.
Proof.
  intros Hs. unfold validate_message, message_fits, is_user.
  destruct (msg_role m); simpl; rewrite ?then_ok, ?scanned_nil by lia.
  1, 2: rewrite single_text_message_ok; naive_solver.
  - rewrite invalid_if_ok, is_empty_false, validate_user_parts_ok by done.
    unfold scanned. simpl. naive_solver.
  - unfold validate_assistant_request_message.
    rewrite then_ok, invalid_if_ok, is_empty_false, validate_assistant_parts_ok.
    unfold turn. naive_solver.
  - rewrite tool_message_ok. naive_solver.
Qed.

Lemma validate_messages_ok messages index s s' :
  0 <= sc_images s <= USIZE_MAX ->
  validate_messages messages index s = Ok s' <->
  Forall message_fits messages /\
  s' = scanned (existsb is_user messages) (user_parts messages) s.
Proof.
  revert index s. induction messages as [|m messages IH]; intros index s Hs; simpl.
  - rewrite scanned_nil by lia. naive_solver.
  - rewrite bind_ok, Forall_cons. unfold user_parts. simpl. fold (user_parts messages).
    rewrite <- scanned_app by lia.
    set (s1 := scanned (is_user m) _ s).
    assert (0 <= sc_images s1 <= USIZE_MAX).
    { subst s1. simpl. pose proof (image_count_nonneg (if is_user m then msg_content m else [])). lia. }
    setoid_rewrite validate_message_ok; [|done]. split.
    + intros (? & [Hm ->] & H1). apply IH in H1 as [Hf ->]; done.
    + intros [[Hm Hf] ->]. exists s1. split; [done|]. by apply IH.
Qed.

(** ** Options *)
Definition temperature_fits (caps : CapabilitySet) (t : f64) : Prop :=
  f64_is_finite t = true /\ SFleb f64_zero t = true /\ SFleb t f64_two = true /\
  cs_temperature caps = Supported.
Definition effort_listed (caps : CapabilitySet) (e : ReasoningEffort.t) : Prop :=
  exists values, cs_reasoning_efforts caps = EffortSupported values /\ e ∈ values.
Definition reasoning_fits (caps : CapabilitySet) (request : ThinkingRequest) : Prop :=
  match request with
  | ProviderDefault => True
  | Disabled => effort_listed caps ReasoningEffort.None_
  | Effort e => effort_listed caps e
  end.
Definition format_fits (caps : CapabilitySet) (format : ResponseFormat) : Prop :=
  match format with
  | FText => True
  | FJsonObject => cs_response_format_json_object caps = Supported
  | FJsonSchema _ => cs_response_format_json_schema caps = Supported
  end.
Definition header_fits (header : string * list ascii) : Prop :=
  existsb line_break (bytes_of header.1) = false /\ is_protected_header header.1 = false.

Record options_fit (now : Z) (caps : CapabilitySet) (o : GenerationOptions) : Prop := {
  of_temperature : forall t, go_temperature o = Some t -> temperature_fits caps t;
  of_output : forall n, go_max_output_tokens o = Some n ->
                n <> 0 /\ cs_max_output_tokens caps = Supported;
  of_reasoning : reasoning_fits caps (go_reasoning o);
  of_format : format_fits caps (go_response_format o);
  of_tools : tool_options_fit caps tool_limits_official (go_tools o) (go_tool_choice o)
               (go_parallel_tool_calls o);
  of_deadline : forall d, go_timeout o = Some (TimeoutAt d) -> now < d;
  of_headers : Forall header_fits (go_headers o) }.

Lemma validate_temperature_ok t caps :
  validate_temperature t caps = Ok tt <-> temperature_fits caps t.
Proof.
  unfold validate_temperature, temperature_fits. autorewrite with ok.
  rewrite !negb_false_iff, andb_true_iff. naive_solver.
Qed.
Lemma reasoning_request_ok request caps :
  validate_reasoning_request request (cs_reasoning_efforts caps) = Ok tt <->
  reasoning_fits caps request.
Proof.
  destruct request as [|e|]; simpl; unfold effort_listed;
    destruct (cs_reasoning_efforts caps) as [| |vs]; try case_bool_decide; naive_solver.
Qed.
Lemma validate_format_ok format caps :
  validate_response_format format caps = Ok tt <-> format_fits caps format.
Proof. destruct format; simpl; rewrite ?check_field_capability_ok; done. Qed.
Lemma validate_headers_ok headers :
  validate_headers headers = Ok tt <-> Forall header_fits headers.
Proof.
  induction headers as [|[name v] headers IH]; simpl; [naive_solver|].
  rewrite !then_ok, !invalid_if_ok, IH, Forall_cons. unfold header_fits. naive_solver.
Qed.
Lemma deadline_ok now timeout :
  match timeout with
  | Some (TimeoutAt deadline) =>
      invalid_if (deadline <=? now) "deadline" ValidationReason.Expired "deadline has elapsed"
  | _ => Ok tt
  end = Ok tt <-> forall d, timeout = Some (TimeoutAt d) -> now < d.
Proof.
  destruct timeout as [[]|]; try naive_solver. rewrite invalid_if_ok, Z.leb_gt. naive_solver.
Qed.
Lemma validate_options_ok now o caps :
  validate_generation_options now o caps = Ok tt <-> options_fit now caps o.
Proof.
  unfold validate_generation_options, validate_tool_options.
  rewrite !then_ok, reasoning_request_ok, validate_format_ok, validate_tool_options_ok,
    deadline_ok, validate_headers_ok, !opt_ok.
  setoid_rewrite validate_temperature_ok. setoid_rewrite then_ok. setoid_rewrite invalid_if_ok.
  setoid_rewrite check_field_capability_ok. setoid_rewrite Z.eqb_neq.
  split; [intros (?&?&?&?&?&?&?); by constructor|intros []; done].
Qed.

(** ** Requests *)
Record well_formed_request (now : Z) (caps : CapabilitySet) (r : GenerateRequest) : Prop := {
  wr_provider : mr_provider (gr_model r) <> EmptyString;
  wr_messages : Forall message_fits (gr_messages r);
  wr_text : has_text (user_parts (gr_messages r)) = true;
  wr_vision : 0 < image_count (user_parts (gr_messages r)) -> cs_vision_input caps = Supported;
  wr_images : image_count (user_parts (gr_messages r)) <= max_images official;
  wr_original : has_original (user_parts (gr_messages r)) = true ->
                cs_image_detail_original caps = Supported;
  wr_options : options_fit now caps (gr_options r) }.

(** A user text needs a user message. *)
Lemma has_text_user messages :
  has_text (user_parts messages) = true -> messages <> [] /\ existsb is_user messages = true.
Proof.
  intros H. cut (existsb is_user messages = true); [by destruct messages|].
  revert H. unfold user_parts. induction messages as [|m l IH]; simpl; [done|].
  unfold has_text. rewrite existsb_app. destruct (is_user m); [done|]. exact IH.
Qed.

Lemma validate_ok now r caps :
  validate now r caps = Ok tt <-> well_formed_request now caps r.
Proof.
  unfold validate. rewrite !then_ok, bind_ok. setoid_rewrite validate_messages_ok; [|done].
  rewrite !invalid_if_ok, str_is_empty_false, is_empty_false.
  pose proof (image_count_nonneg (user_parts (gr_messages r))) as Hn.
  assert (max_images official < USIZE_MAX) as Hm by done.
  set (cap := max_images official) in *. split.
  - intros (Hp & He & s & [Hf ->] & H).
    rewrite !then_ok, !when_ok, !invalid_if_ok, !check_field_capability_ok, validate_options_ok in H.
    simpl in H. rewrite !orb_false_r, !negb_false_iff, Z.ltb_ge, Z.ltb_lt in H.
    destruct H as (Hu & Ht & Hv & Hi & Ho & Hopt).
    constructor; try done; [|subst cap; lia]. intros ?. apply Hv. lia.
  - intros [Hp Hf Ht Hv Hi Ho Hopt]. destruct (has_text_user _ Ht) as [He Hu].
    split_and!; try done. eexists. split; [done|].
    rewrite !then_ok, !when_ok, !invalid_if_ok, !check_field_capability_ok, validate_options_ok.
    simpl. rewrite !orb_false_r, !negb_false_iff, Z.ltb_ge, Z.ltb_lt.
    split_and!; try done; [|lia]. intros ?. apply Hv. lia.
Qed.

(** ** Resolved limits *)
Definition part_within (limits : RequestValidationLimits) (p : ContentPart) : Prop :=
  match p with
  | PImage image =>
      match img_source image with
      | ImgUrl url => str_len url <= rv_max_image_url_bytes limits
      | ImgInline _ bytes => Z.of_nat (length bytes) <= rv_max_inline_image_bytes limits
      | ImgDataUrl _ => True
      end
  | _ => True
  end.
Definition all_parts (messages : list Message) : list ContentPart := concat (map msg_content messages).

Lemma count_images_ok parts index part limits count n :
  0 <= count <= USIZE_MAX ->
  count_images parts index part limits count = Ok n <->
  Forall (part_within limits) parts /\ n = Z.min (count + image_count parts) USIZE_MAX.
Proof.
  revert part count. induction parts as [|p parts IH]; intros part count Hc; simpl.
  - rewrite Z.min_l by lia. rewrite Z.add_0_r. naive_solver.
  - pose proof (image_count_nonneg parts). rewrite Forall_cons.
    destruct p as [t|image|th|r|c]; try (rewrite IH by done; naive_solver).
    unfold usize_saturating_add.
    rewrite then_ok, validate_image_source_ok, IH by lia. unfold part_within at 2.
    rewrite Z.add_assoc.
    replace (Z.min (Z.min (count + 1) USIZE_MAX + image_count parts) USIZE_MAX)
      with (Z.min (count + 1 + image_count parts) USIZE_MAX) by lia.
    naive_solver.
Qed.
Lemma count_all_images_ok messages index limits count n :
  0 <= count <= USIZE_MAX ->
  count_all_images messages index limits count = Ok n <->
  Forall (part_within limits) (all_parts messages) /\
  n = Z.min (count + image_count (all_parts messages)) USIZE_MAX.
Proof.
  revert index count. induction messages as [|m messages IH]; intros index count Hc; simpl.
  - rewrite Z.min_l by lia. rewrite Z.add_0_r. naive_solver.
  - unfold all_parts. simpl. fold (all_parts messages).
    rewrite bind_ok, Forall_app, image_count_app. setoid_rewrite count_images_ok; [|done].
    pose proof (image_count_nonneg (msg_content m)). pose proof (image_count_nonneg (all_parts messages)).
    split.
    + intros (k & [Hf ->] & H'). apply IH in H' as [Hf' ->]; [|lia]. split; [done|lia].
    + intros [[Hf Hf'] ->]. eexists. split; [done|]. apply IH; [lia|]. split; [done|lia].
Qed.
Lemma all_ok_iff {E A} (f : A -> result E unit) l :
  all_ok f l = Ok tt <-> Forall (fun x => f x = Ok tt) l.
Proof.
  induction l as [|x l IH]; simpl; [naive_solver|]. rewrite then_ok, IH, Forall_cons. done.
Qed.

Section Planned.
Context {JP : JsonPrinter} {JV : JsonValues}.

Definition compiles (limits : SchemaLimits) (schema : ToolSchema) : Prop :=
  exists s, tool_schema_with_limits (schema_value schema) limits = Ok s.
Definition planned_schema_limits (limits : RequestValidationLimits) : SchemaLimits :=
  mk_schema_limits (rv_max_schema_bytes limits) (rv_max_schema_depth limits)
    (rv_max_json_array_items limits).
Lemma recompile_ok limits schema : recompile limits schema = Ok tt <-> compiles limits schema.
Proof.
  unfold recompile, compiles. destruct (tool_schema_with_limits _ _) as [s|[e|]]; naive_solver.
Qed.

Record resources_fit (limits : RequestValidationLimits) (messages : list Message)
    (o : GenerationOptions) : Prop := {
  rf_messages : Z.of_nat (length messages) <= rv_max_messages limits;
  rf_image_sizes : Forall (part_within limits) (all_parts messages);
  rf_images : Z.min (image_count (all_parts messages)) USIZE_MAX <= rv_max_images limits;
  rf_tools : tool_options_fit all_supported
               (mk_tool_limits (rv_max_tools limits) (rv_max_tool_description_bytes limits))
               (go_tools o) (go_tool_choice o) (go_parallel_tool_calls o);
  rf_schemas : Forall (fun t => compiles (planned_schema_limits limits) (td_parameters t)) (go_tools o);
  rf_format : forall s, go_response_format o = FJsonSchema s ->
                compiles (planned_schema_limits limits) (ss_schema s) }.

Lemma format_recompile_ok limits format :
  match format with FJsonSchema s => recompile limits (ss_schema s) | _ => Ok tt end = Ok tt <->
  forall s, format = FJsonSchema s -> compiles limits (ss_schema s).
Proof. destruct format; rewrite ?recompile_ok; naive_solver. Qed.

Lemma validate_request_resources_ok messages o limits :
  validate_request_resources messages o limits = Ok tt <-> resources_fit limits messages o.
Proof.
  unfold validate_request_resources. fold (planned_schema_limits limits).
  rewrite then_ok, invalid_if_ok, Z.ltb_ge, bind_ok.
  setoid_rewrite count_all_images_ok; [|done]. split.
  - intros (Hm & n & [Hs ->] & H).
    rewrite !then_ok, invalid_if_ok, Z.ltb_ge, validate_tool_options_ok, all_ok_iff,
      format_recompile_ok in H.
    setoid_rewrite recompile_ok in H. destruct H as (?&?&?&?). by constructor.
  - intros []. split; [done|]. eexists. split; [done|].
    rewrite !then_ok, invalid_if_ok, Z.ltb_ge, validate_tool_options_ok, all_ok_iff,
      format_recompile_ok.
    setoid_rewrite recompile_ok. done.
Qed.

(** C15. The request the planner hands to an encoder is accepted exactly when it
    is well formed and within the resolved limits: the provider is named; every
    message has the content its role allows (system texts, tool results, user
    texts and images, and assistant texts and reasoning followed by calls); some
    user text is not blank; images, options, tools and headers are supported and
    within bounds; and every schema compiles under the resolved limits. *)
Theorem planned_request_exact now model messages o caps limits :
  validate_planned_request now model messages o caps limits = Ok tt <->
  well_formed_request now caps (mk_generate_request model messages o) /\
  resources_fit limits messages o.
Proof.
  unfold validate_planned_request. by rewrite then_ok, validate_ok, validate_request_resources_ok.
Qed.
End Planned.

(** ** Calls *)
Section Calls.
Context {SE : SchemaEngine}.

Definition call_limits (schema_limits : SchemaLimits) (resource_limits : ResourceLimits)
  : SchemaLimits :=
  mk_schema_limits (sl_max_schema_bytes schema_limits)
    (Z.min (sl_max_schema_depth schema_limits) (max_schema_depth resource_limits))
    (Z.min (sl_max_json_array_items schema_limits) (max_json_array_items resource_limits)).

(** The call names a declared tool and its arguments fit that tool's schema. *)
Definition accepted_call (schema_limits : SchemaLimits) (resource_limits : ResourceLimits)
    (tools : list ToolDefinition) (call : ToolCall) (tool : ToolDefinition) : Prop :=
  tool ∈ tools /\ td_name tool = tc_name call /\
  str_len (raw_json (tc_arguments call)) <= max_tool_arguments_bytes resource_limits /\
  validate_instance (td_parameters tool) (ta_value (tc_arguments call))
    (call_limits schema_limits resource_limits) = Ok tt.

Lemma find_unique tools tool name :
  NoDup (map td_name tools) -> tool ∈ tools -> td_name tool = name ->
  List.find (fun t => str_eqb (td_name t) name) tools = Some tool.
Proof.
  intros Hnd Hin <-. induction tools as [|t tools IH]; [by apply elem_of_nil in Hin|].
  apply NoDup_cons in Hnd as [Ht Hnd]. simpl. unfold str_eqb.
  apply elem_of_cons in Hin as [<-|Hin]; [by rewrite bool_decide_true|].
  rewrite bool_decide_false; [by apply IH|]. intros Heq. apply Ht. rewrite Heq.
  by apply list_elem_of_fmap_2.
Qed.

(** Against the tools of a validated request, a call the model makes is
    accepted exactly when it names one of them, its arguments are within the
    byte limit and they are an instance of that tool's schema under the smaller
    of the two depth and array limits; the tool is the only one with that name. *)
Theorem tool_call_exact call tools choice parallel caps L R :
  validate_tool_options tools choice parallel caps = Ok tt ->
  (validate_tool_call_with_limits call tools L R = Ok call <->
   exists tool, accepted_call L R tools call tool /\
     forall other, other ∈ tools -> td_name other = tc_name call -> other = tool).
Proof.
  intros Hopts%validate_tool_options_ok. destruct Hopts as [_ _ Hnd _ _ _].
  unfold validate_tool_call_with_limits, accepted_call. fold (call_limits L R). split.
  - destruct (List.find _ tools) as [tool|] eqn:Hf; [|done].
    apply find_some in Hf as [Hin Hname%bool_decide_eq_true]. apply list_elem_of_In in Hin.
    case_match eqn:Hlen; [done|]. intros [Hv _]%then_ok. exists tool. split_and!; try done; [lia|].
    intros other Ho Hon. pose proof (find_unique tools tool _ Hnd Hin Hname) as E1.
    rewrite (find_unique tools other _ Hnd Ho Hon) in E1. by injection E1.
  - intros (tool & (Hin & Hname & Hlen & Hv) & _).
    rewrite (find_unique tools tool _ Hnd Hin Hname).
    rewrite (proj2 (Z.ltb_ge _ _)) by done. by rewrite Hv.
Qed.
End Calls.

(** ** Samples *)
Definition lookup_tool : ToolDefinition :=
  tool_definition_new "lookup" (mk_tool_schema
    (JObject [("type", JString "object"); ("required", JArray [JString "city"])]) false).
Definition clock_tool : ToolDefinition :=
  tool_definition_new "clock" (mk_tool_schema (JObject [("type", JString "object")]) false).
Definition lookup_call (arguments : list (string * json)) : ToolCall :=
  mk_tool_call "call_1" "lookup" (mk_tool_arguments "{}" (JObject arguments)).
Definition tool_capabilities : CapabilitySet := all_supported.
Definition plain_values : JsonValues :=
  {| as_u64 _ := None; as_i64 _ := None; as_f64 _ := None; value_eqb _ _ := false |}.
Definition plain_engine : SchemaEngine :=
  schema_engine (JP := fun _ => Ok EmptyString) (JV := plain_values).

Lemma tool_call_exact_witness :
  validate_tool_options [clock_tool; lookup_tool] (Some ToolChoice.Auto) None tool_capabilities = Ok tt /\
  validate_tool_call_with_limits (SE := plain_engine) (lookup_call [("city", JString "Oslo")])
    [clock_tool; lookup_tool] schema_limits_official official
  = Ok (lookup_call [("city", JString "Oslo")]) /\
  validate_tool_call_with_limits (SE := plain_engine) (lookup_call [])
    [clock_tool; lookup_tool] schema_limits_official official <> Ok (lookup_call []).
Proof.
  assert (validate_tool_options [clock_tool; lookup_tool] (Some ToolChoice.Auto) None
            tool_capabilities = Ok tt) as H by (vm_compute; reflexivity).
  split; [exact H|]. split.
  - apply (proj2 (tool_call_exact (SE := plain_engine) _ _ _ _ _ schema_limits_official official H)).
    exists lookup_tool. split.
    + split; [right; left|]. split; [reflexivity|]. split; [vm_compute; congruence|].
      vm_compute. reflexivity.
    + intros other [->|[->|[]%elem_of_nil]%elem_of_cons]%elem_of_cons; [|done].
      vm_compute. discriminate.
  - vm_compute. discriminate.
Defined.
