(* ===== verification/Headers.v ===== *)
(** * Header layers and client identity

    [src/src/provider/headers.rs], [headers/identity.rs] and the layers
    [src/src/provider/runtime.rs] resolves for a request: eight sources of header
    operations, applied by priority, each limited to the headers it owns. *)
From S2P Require Import Prelude Errors Domain Structured ChatWire Schema Options History Request.

(** ** Operations *)
Module HeaderSource.
Inductive t := Transport | Protocol | Provider | ClientIdentity | Model | DynamicPolicy | Request | Auth.
Definition all : list t :=
  [Transport; Protocol; Provider; ClientIdentity; Model; DynamicPolicy; Request; Auth].
End HeaderSource.
#[global] Instance HeaderSource_eq_dec : EqDecision HeaderSource.t.
Proof. solve_decision. Defined.

(** A [HeaderName] is its lower-case text. *)
Abbreviation HeaderName := string (only parsing).
Record SensitiveHeaderValue := mk_header_value { hv_value : list ascii; hv_sensitive : bool }.
Module HeaderOperation.
Inductive t := Set_ (name : string) (value : SensitiveHeaderValue) | Remove (name : string).
End HeaderOperation.
Definition op_set (name : string) (value : list ascii) : HeaderOperation.t :=
  HeaderOperation.Set_ name (mk_header_value value false).
Definition op_set_sensitive (name : string) (value : list ascii) : HeaderOperation.t :=
  HeaderOperation.Set_ name (mk_header_value value true).
Definition op_name (o : HeaderOperation.t) : string :=
  match o with HeaderOperation.Set_ name _ | HeaderOperation.Remove name => name end.
Definition op_sensitive (o : HeaderOperation.t) : bool :=
  match o with HeaderOperation.Set_ _ v => hv_sensitive v | HeaderOperation.Remove _ => false end.

Record HeaderLayer := mk_layer {
  la_source : HeaderSource.t; la_operations : list HeaderOperation.t }.

(** A step of the resolution: name, source, whether the header was set, whether
    it is protected and whether its value is sensitive. *)
Record HeaderStep := mk_step {
  st_name : string; st_source : HeaderSource.t; st_present : bool; st_protected : bool;
  st_sensitive : bool }.
Record ResolvedHeaders := mk_resolved_headers {
  rh_headers : gmap string (list ascii); rh_steps : list HeaderStep }.
Definition final_source (r : ResolvedHeaders) (name : string) : option HeaderSource.t :=
  match rh_headers r !! name with
  | None => None
  | Some _ =>
      st_source <$> List.find (fun s => str_eqb (st_name s) name && st_present s) (rev (rh_steps r))
  end.

(** ** Policy *)
Record HeaderPolicy := mk_header_policy { hpo_auth : gset string; hpo_provider : gset string }.
Definition header_policy_new : HeaderPolicy := mk_header_policy {["authorization"]} ∅.
Definition with_registered_headers (auth provider : list string) : HeaderPolicy :=
  mk_header_policy (list_to_set auth) (list_to_set provider).

Fixpoint starts_with (prefix s : list ascii) : bool :=
  match prefix, s with
  | [], _ => true
  | a :: prefix, b :: s => Ascii.eqb a b && starts_with prefix s
  | _, [] => false
  end.
Definition x_header (name : string) : bool := starts_with (bytes_of "x-") (bytes_of name).
Definition ordinary_header (name : string) : bool := x_header name || str_eqb name "idempotency-key".

Section Policy.
Context (policy : HeaderPolicy).

Definition is_auth_header (name : string) : bool := bool_decide (name ∈ hpo_auth policy).
Definition is_provider_header (name : string) : bool := bool_decide (name ∈ hpo_provider policy).
Definition is_protected (name : string) : bool :=
  is_protected_header name || is_auth_header name || is_provider_header name.

Definition is_source (a b : HeaderSource.t) : bool := bool_decide (a = b).
Definition allows (source : HeaderSource.t) (name : string) : bool :=
  if contains ["authorization"; "proxy-authorization"] name
  then is_source source HeaderSource.Auth && is_auth_header name
  else if contains ["content-type"; "accept"] name then is_source source HeaderSource.Protocol
  else if str_eqb name "user-agent" then is_source source HeaderSource.ClientIdentity
  else if contains ["host"; "content-length"; "transfer-encoding"; "connection"; "cookie"; "set-cookie"] name
  then false
  else if is_auth_header name then is_source source HeaderSource.Auth
  else if is_provider_header name then is_source source HeaderSource.Provider
  else
    match source with
    | HeaderSource.Transport | HeaderSource.Auth => false
    | HeaderSource.Protocol => true
    | HeaderSource.Provider => is_provider_header name || ordinary_header name
    | HeaderSource.Model | HeaderSource.DynamicPolicy | HeaderSource.Request => ordinary_header name
    | HeaderSource.ClientIdentity => x_header name
    end.

Definition header_invalid (name summary : string) : result LlmError unit :=
  invalid ("request_headers." +:+ name) ValidationReason.ProtectedHeader summary.
Definition validate_operation (source : HeaderSource.t) (name : string) (sensitive : bool)
  : result LlmError unit :=
  if allows source name
  then
    if is_source source HeaderSource.Auth && negb sensitive
    then header_invalid name "authentication headers must be sensitive"
    else
      let provider_owned_sensitive :=
        is_source source HeaderSource.Provider && is_provider_header name in
      if negb (is_source source HeaderSource.Auth) && sensitive && negb provider_owned_sensitive
      then header_invalid name "ordinary header layers cannot carry sensitive values"
      else Ok tt
  else header_invalid name "header is protected for this source".

(** ** Resolution *)
Definition apply_operation (source : HeaderSource.t) (o : HeaderOperation.t) (r : ResolvedHeaders)
  : result LlmError ResolvedHeaders :=
  _ ← validate_operation source (op_name o) (op_sensitive o);
  Ok match o with
     | HeaderOperation.Set_ name value =>
         mk_resolved_headers (<[name := hv_value value]> (rh_headers r))
           (rh_steps r ++ [mk_step name source true (is_protected name) (hv_sensitive value)])
     | HeaderOperation.Remove name =>
         mk_resolved_headers (delete name (rh_headers r))
           (rh_steps r ++ [mk_step name source false (is_protected name) false])
     end.
(** [sort_by_key] is stable: the layers of one source keep their order. *)
Definition sort_layers (layers : list HeaderLayer) : list HeaderLayer :=
  concat (map (fun s => List.filter (fun l => is_source (la_source l) s) layers) HeaderSource.all).
Definition resolve_layers (layers : list HeaderLayer) : result LlmError ResolvedHeaders :=
  fold_ok (fun l r => fold_ok (apply_operation (la_source l)) (la_operations l) r)
    (sort_layers layers) (mk_resolved_headers ∅ []).

Definition application_json : list ascii := bytes_of "application/json".
Definition event_stream : list ascii := bytes_of "text/event-stream".
Definition validate_compatibility (headers : gmap string (list ascii)) : result LlmError unit :=
  _ ← (if bool_decide (headers !! "content-type" = Some application_json) then Ok tt
       else header_invalid "content-type" "protocol must set application/json");
  if negb (bool_decide (hpo_auth policy = ∅))
     && negb (existsb (fun name => bool_decide (is_Some (headers !! name))) (elements (hpo_auth policy)))
  then header_invalid "auth" "auth layer must set a registered authentication header"
  else Ok tt.
Definition resolve (layers : list HeaderLayer) : result LlmError ResolvedHeaders :=
  resolved ← resolve_layers layers;
  _ ← validate_compatibility (rh_headers resolved);
  Ok resolved.
End Policy.

(** ** Client identity: [identity.rs] *)

(** [HeaderValue::from_str]. *)
Class HttpValues := header_value_from_str : string -> option (list ascii).

Record ClientIdentityFragment := mk_fragment { cf_name : string; cf_version : option string }.
Record ClientIdentity := mk_identity {
  ci_product : string; ci_version : string; ci_contact : option string;
  ci_application : option ClientIdentityFragment; ci_fragments : list ClientIdentityFragment }.

Definition token_byte (b : ascii) : bool :=
  is_ascii_alphanumeric b || Ascii.eqb b "-" || Ascii.eqb b "_" || Ascii.eqb b ".".
Definition bounded_token (value : string) : bool :=
  negb (str_is_empty value) && (str_len value <=? 128) && str_all token_byte value.
Definition validate_token (field value : string) : result LlmError unit :=
  if bounded_token value then Ok tt
  else invalid field ValidationReason.InvalidHeader "identity values must be bounded ASCII tokens".
Definition invalid_identity {A} (summary : string) : result LlmError A :=
  invalid "client_identity" ValidationReason.InvalidHeader summary.

(** [str::contains]. *)
Fixpoint has_infix (needle s : list ascii) : bool :=
  starts_with needle s || match s with [] => false | _ :: s => has_infix needle s end.
Definition IMPERSONATED : list string := ["openai"; "mozilla"; "chrome"; "safari"; "firefox"; "curl"].
Definition impersonates (value : string) : bool :=
  let lower := bytes_of (to_ascii_lowercase value) in
  existsb (fun needle => has_infix (bytes_of needle) lower) IMPERSONATED.
Definition reject_impersonation (value : string) : result LlmError unit :=
  if impersonates value
  then invalid_identity "identity must not impersonate an official SDK or browser"
  else Ok tt.

Definition fragment_new (name : string) (version : option string)
  : result LlmError ClientIdentityFragment :=
  _ ← validate_token "client_identity.fragment.name" name;
  _ ← match version with
      | Some version => validate_token "client_identity.fragment.version" version
      | None => Ok tt
      end;
  Ok (mk_fragment name version).
Definition format_fragment (f : ClientIdentityFragment) : string :=
  match cf_version f with Some v => cf_name f +:+ "/" +:+ v | None => cf_name f end.
Definition user_agent (i : ClientIdentity) : string :=
  let parts := (ci_product i +:+ "/" +:+ ci_version i)
    :: match ci_application i with Some a => [format_fragment a] | None => [] end
    ++ map format_fragment (ci_fragments i) in
  String.concat " " parts
  +:+ match ci_contact i with Some contact => " (" +:+ contact +:+ ")" | None => EmptyString end.

Section Identity.
Context {HV : HttpValues}.
Definition header_value (i : ClientIdentity) : result LlmError (list ascii) :=
  if 512 <? str_len (user_agent i) then invalid_identity "User-Agent exceeds 512 bytes"
  else match header_value_from_str (user_agent i) with
       | Some v => Ok v
       | None => invalid_identity "client identity is not a valid User-Agent"
       end.
Definition checked_identity (i : ClientIdentity) : result LlmError ClientIdentity :=
  _ ← header_value i; Ok i.
Definition identity_new (product version : string) : result LlmError ClientIdentity :=
  _ ← validate_token "client_identity.product" product;
  _ ← validate_token "client_identity.version" version;
  _ ← reject_impersonation product;
  checked_identity (mk_identity product version None None []).
Definition contact_byte (b : ascii) : bool :=
  byte_in 33 126 b && negb (Ascii.eqb b "(") && negb (Ascii.eqb b ")").
Definition with_contact (i : ClientIdentity) (contact : string) : result LlmError ClientIdentity :=
  if str_is_empty contact || (128 <? str_len contact) || negb (str_all contact_byte contact)
  then invalid_identity "contact must be a bounded visible token"
  else checked_identity (mk_identity (ci_product i) (ci_version i) (Some contact) (ci_application i)
                           (ci_fragments i)).
Definition with_application (i : ClientIdentity) (a : ClientIdentityFragment)
  : result LlmError ClientIdentity :=
  _ ← reject_impersonation (cf_name a);
  checked_identity (mk_identity (ci_product i) (ci_version i) (ci_contact i) (Some a) (ci_fragments i)).
Definition with_fragment (i : ClientIdentity) (f : ClientIdentityFragment)
  : result LlmError ClientIdentity :=
  _ ← reject_impersonation (cf_name f);
  if 4 <=? Z.of_nat (length (ci_fragments i))
  then invalid_identity "at most four identity fragments are allowed"
  else checked_identity (mk_identity (ci_product i) (ci_version i) (ci_contact i) (ci_application i)
                           (ci_fragments i ++ [f])).
Definition identity_operation (i : ClientIdentity) : result LlmError HeaderOperation.t :=
  v ← header_value i; Ok (op_set "user-agent" v).

(** ** The layers of a request: [ProviderRuntime::resolve_headers_for_attempt] *)
Record HeaderInputs := mk_header_inputs {
  hi_protocol : list HeaderOperation.t; hi_provider : list HeaderOperation.t;
  hi_identity : ClientIdentity; hi_model : list HeaderOperation.t; hi_dynamic : list HeaderOperation.t;
  hi_request : list (string * list ascii); hi_auth : list HeaderOperation.t }.
Definition runtime_layers (i : HeaderInputs) : result LlmError (list HeaderLayer) :=
  identity ← identity_operation (hi_identity i);
  Ok [mk_layer HeaderSource.Transport [];
      mk_layer HeaderSource.Protocol (hi_protocol i);
      mk_layer HeaderSource.Provider (hi_provider i);
      mk_layer HeaderSource.ClientIdentity [identity];
      mk_layer HeaderSource.Model (hi_model i);
      mk_layer HeaderSource.DynamicPolicy (hi_dynamic i);
      mk_layer HeaderSource.Request (map (fun h => op_set h.1 h.2) (hi_request i));
      mk_layer HeaderSource.Auth (hi_auth i)].
Definition resolve_headers (policy : HeaderPolicy) (validate_final : gmap string (list ascii) -> result LlmError unit)
    (i : HeaderInputs) : result LlmError ResolvedHeaders :=
  layers ← runtime_layers i;
  resolved ← resolve_layers policy layers;
  _ ← (if bool_decide (rh_headers resolved !! "content-type" = Some application_json) then Ok tt
       else header_invalid "content-type" "generation protocol must set application/json");
  _ ← validate_final (rh_headers resolved);
  Ok resolved.
End Identity.

(** [standard_json_sse_header_operations] of [protocol/preparation.rs]. *)
Definition standard_json_sse_header_operations : list HeaderOperation.t :=
  [op_set "content-type" application_json; op_set "accept" event_stream].
