(* ===== verification/HeadersSpec.v ===== *)
(** * Properties of header resolution

    The final headers are those of the last permitted operation on each name,
    and a protected header comes only from the source that owns it. *)
From S2P Require Import Prelude Errors Domain Structured ChatWire Schema SchemaCompile Options History Request RequestSpec Headers.

(** ** Operations in order *)
Definition op : Type := HeaderSource.t * HeaderOperation.t.
Definition layer_ops (l : HeaderLayer) : list op := map (pair (la_source l)) (la_operations l).
Definition sorted_ops (layers : list HeaderLayer) : list op := concat (map layer_ops (sort_layers layers)).
Definition permitted (policy : HeaderPolicy) (o : op) : Prop :=
  validate_operation policy o.1 (op_name o.2) (op_sensitive o.2) = Ok tt.
Definition on_name (name : string) (o : op) : bool := str_eqb (op_name o.2) name.
Definition last_op (name : string) (ops : list op) : option op := last (List.filter (on_name name) ops).

Lemma fold_ok_app {E S A} (f : A -> S -> result E S) l1 l2 s :
  fold_ok f (l1 ++ l2) s = (s' ← fold_ok f l1 s; fold_ok f l2 s').
Proof.
  revert s. induction l1 as [|x l1 IH]; intros s; simpl; [done|].
  destruct (f x s); simpl; [apply IH|done].
Qed.
Lemma fold_ok_map {E S A B} (g : B -> A) (f : A -> S -> result E S) l s :
  fold_ok f (map g l) s = fold_ok (fun b => f (g b)) l s.
Proof. revert s. induction l as [|x l IH]; intros s; simpl; [done|]. by destruct (f (g x) s); simpl. Qed.
Definition apply_op (policy : HeaderPolicy) (o : op) : ResolvedHeaders -> result LlmError ResolvedHeaders :=
  apply_operation policy o.1 o.2.
Lemma resolve_layers_flat policy layers :
  resolve_layers policy layers = fold_ok (apply_op policy) (sorted_ops layers) (mk_resolved_headers ∅ []).
Proof.
  unfold resolve_layers, sorted_ops. generalize (mk_resolved_headers ∅ []).
  induction (sort_layers layers) as [|l ls IH]; intros r; simpl; [done|].
  rewrite fold_ok_app. unfold layer_ops. rewrite fold_ok_map.
  unfold apply_op. simpl. destruct (fold_ok _ (la_operations l) r); simpl; [apply IH|done].
Qed.

(** ** The final state *)
Definition step_of (policy : HeaderPolicy) (o : op) : HeaderStep :=
  match o.2 with
  | HeaderOperation.Set_ name v => mk_step name o.1 true (is_protected policy name) (hv_sensitive v)
  | HeaderOperation.Remove name => mk_step name o.1 false (is_protected policy name) false
  end.
Definition value_of (o : option op) : option (list ascii) :=
  match o with Some (_, HeaderOperation.Set_ _ v) => Some (hv_value v) | _ => None end.
Definition source_of (o : option op) : option HeaderSource.t :=
  match o with Some (s, HeaderOperation.Set_ _ _) => Some s | _ => None end.

Lemma last_op_snoc name ops o :
  last_op name (ops ++ [o]) = if on_name name o then Some o else last_op name ops.
Proof.
  unfold last_op. rewrite List.filter_app. simpl. destruct (on_name name o); [by rewrite last_snoc|].
  by rewrite app_nil_r.
Qed.

Definition reaches (policy : HeaderPolicy) (ops : list op) (r : ResolvedHeaders) : Prop :=
  rh_steps r = map (step_of policy) ops /\
  forall name, rh_headers r !! name = value_of (last_op name ops).
Lemma fold_ops policy ops :
  (is_ok (fold_ok (apply_op policy) ops (mk_resolved_headers ∅ [])) = true <-> Forall (permitted policy) ops) /\
  forall r, fold_ok (apply_op policy) ops (mk_resolved_headers ∅ []) = Ok r -> reaches policy ops r.
Proof.
  induction ops as [|o ops [IHok IH]] using rev_ind; simpl.
  - split; [split; [constructor|done]|]. intros r [= <-]. split; [done|]. intros name. apply lookup_empty.
  - rewrite fold_ok_app, Forall_app, Forall_singleton.
    destruct (fold_ok (apply_op policy) ops _) as [r0|e]; simpl.
    2:{ split; [|done]. split; [done|]. intros [Hf _]. by apply IHok in Hf. }
    destruct (IH r0 eq_refl) as [Hs Hl]. unfold permitted, apply_op, apply_operation.
    destruct (validate_operation policy o.1 (op_name o.2) (op_sensitive o.2)) as [[]|e]; simpl.
    2:{ split; [|done]. split; [done|]. by intros [_ ?]. }
    split; [split; [|done]; intros _; split; [by apply IHok|done]|].
    intros r [= <-]. unfold reaches. rewrite map_app. destruct o as [s [name v|name]]; simpl; rewrite Hs;
      (split; [done|]); intros n; rewrite last_op_snoc; unfold on_name, str_eqb; simpl; case_bool_decide as E.
    + subst n. by rewrite lookup_insert_eq.
    + by rewrite lookup_insert_ne, Hl.
    + subst n. by rewrite lookup_delete_eq.
    + by rewrite lookup_delete_ne, Hl.
Qed.

Lemma last_filter_in {A} (f : A -> bool) l x : last (List.filter f l) = Some x -> x ∈ l /\ f x = true.
Proof.
  intros H. apply last_Some_elem_of, list_elem_of_In, filter_In in H as [H ?].
  split; [by apply list_elem_of_In|done].
Qed.
Lemma find_rev_last policy name ops s v :
  last_op name ops = Some (s, HeaderOperation.Set_ name v) ->
  st_source <$> List.find (fun s => str_eqb (st_name s) name && st_present s)
    (rev (map (step_of policy) ops)) = Some s.
Proof.
  induction ops as [|o ops IH] using rev_ind; [done|]. rewrite last_op_snoc, map_app, rev_app_distr. simpl.
  unfold on_name. destruct o as [s' [n w|n]]; simpl; destruct (str_eqb n name) eqn:E; simpl.
  - by intros [= -> -> ->].
  - apply IH.
  - done.
  - apply IH.
Qed.
Lemma final_source_ok policy ops r name :
  reaches policy ops r -> final_source r name = source_of (last_op name ops).
Proof.
  intros [Hs Hl]. unfold final_source. rewrite Hl, Hs.
  destruct (last_op name ops) as [[s [n v|n]]|] eqn:Ho; simpl; try done.
  assert (n = name) as ->. { apply last_filter_in in Ho as [_ Hn]. by apply str_eqb_spec in Hn. }
  by eapply find_rev_last.
Qed.

(** ** Who may touch which header *)
(** The only source that may touch a protected header; the transport's own
    headers have none. *)
Definition owner (policy : HeaderPolicy) (name : string) : option HeaderSource.t :=
  if contains ["authorization"; "proxy-authorization"] name then Some HeaderSource.Auth
  else if contains ["content-type"; "accept"] name then Some HeaderSource.Protocol
  else if str_eqb name "user-agent" then Some HeaderSource.ClientIdentity
  else if contains ["host"; "content-length"; "transfer-encoding"; "connection"; "cookie"; "set-cookie"] name
  then None
  else if is_auth_header policy name then Some HeaderSource.Auth
  else if is_provider_header policy name then Some HeaderSource.Provider
  else None.

Definition transport_names : list string :=
  ["host"; "content-length"; "transfer-encoding"; "connection"; "cookie"; "set-cookie"].
(** A header with an owner is its owner's; the others are open to the protocol,
    and to the provider, the model, the dynamic policy and the caller when they
    are ordinary; the client's identity is in extension headers. *)
Definition may_touch (policy : HeaderPolicy) (source : HeaderSource.t) (name : string) : Prop :=
  match owner policy name with
  | Some o => source = o /\ (name ∈ ["authorization"; "proxy-authorization"] -> name ∈ hpo_auth policy)
  | None => name ∉ transport_names /\
      match source with
      | HeaderSource.Transport | HeaderSource.Auth => False
      | HeaderSource.Protocol => True
      | HeaderSource.ClientIdentity => x_header name = true
      | HeaderSource.Provider | HeaderSource.Model | HeaderSource.DynamicPolicy | HeaderSource.Request =>
          x_header name = true \/ name = "idempotency-key"
      end
  end.
(** Authentication is always sensitive; of the others only the provider's own
    headers may be. *)
Definition may (policy : HeaderPolicy) (o : op) : Prop :=
  may_touch policy o.1 (op_name o.2) /\
  if op_sensitive o.2 then o.1 = HeaderSource.Auth \/ o.1 = HeaderSource.Provider /\ op_name o.2 ∈ hpo_provider policy
  else o.1 <> HeaderSource.Auth.
Lemma ordinary_spec name : ordinary_header name = true <-> x_header name = true \/ name = "idempotency-key".
Proof. unfold ordinary_header. by rewrite orb_true_iff, str_eqb_spec. Qed.
Lemma allows_spec policy s name : allows policy s name = true <-> may_touch policy s name.
Proof.
  unfold allows, may_touch, owner, is_source, transport_names.
  destruct (contains ["authorization"; _] name) eqn:H1.
  { unfold contains in H1. apply bool_decide_eq_true in H1. unfold is_auth_header.
    rewrite andb_true_iff, !bool_decide_eq_true. naive_solver. }
  unfold contains in H1. apply bool_decide_eq_false in H1.
  destruct (contains ["content-type"; _] name); [rewrite bool_decide_eq_true; naive_solver|].
  destruct (str_eqb name "user-agent"); [rewrite bool_decide_eq_true; naive_solver|].
  destruct (contains ["host"; _; _; _; _; _] name) eqn:H4; unfold contains in H4.
  { apply bool_decide_eq_true in H4. naive_solver. }
  apply bool_decide_eq_false in H4.
  destruct (is_auth_header policy name); [rewrite bool_decide_eq_true; naive_solver|].
  destruct (is_provider_header policy name); [rewrite bool_decide_eq_true; naive_solver|].
  split; [intros H; split; [exact H4|]|intros [_ H]]; destruct s; try done; by apply ordinary_spec.
Qed.
Lemma permitted_may policy o : permitted policy o <-> may policy o.
Proof.
  destruct o as [s o]. unfold permitted, validate_operation, may, is_source, is_provider_header.
  cbn [fst snd]. rewrite <- allows_spec. destruct (allows policy s (op_name o)).
  2: split; [done|by intros [? _]].
  destruct s, (op_sensitive o); cbn; repeat case_bool_decide; cbn; intuition (try done).
Qed.

(** ** The order of the layers *)
Definition source_rank (s : HeaderSource.t) : Z :=
  match s with
  | HeaderSource.Transport => 0 | HeaderSource.Protocol => 1 | HeaderSource.Provider => 2
  | HeaderSource.ClientIdentity => 3 | HeaderSource.Model => 4 | HeaderSource.DynamicPolicy => 5
  | HeaderSource.Request => 6 | HeaderSource.Auth => 7
  end.
Definition from (s : HeaderSource.t) (l : list HeaderLayer) : list HeaderLayer :=
  List.filter (fun layer => bool_decide (la_source layer = s)) l.
(** The layers by the priority of their sources, those of one source in the order
    given. *)
Definition layered (layers sorted : list HeaderLayer) : Prop :=
  StronglySorted (fun a b => source_rank (la_source a) <= source_rank (la_source b)) sorted /\
  forall s, from s sorted = from s layers.

Lemma from_from s s' l : from s (from s' l) = if bool_decide (s = s') then from s l else [].
Proof.
  unfold from. induction l as [|x l IH]; simpl; [by case_bool_decide|].
  destruct (decide (la_source x = s')) as [<-|]; [rewrite bool_decide_true by done|rewrite (bool_decide_false (_ = s')) by done].
  - simpl. rewrite IH. repeat case_bool_decide; congruence.
  - rewrite IH. repeat case_bool_decide; congruence.
Qed.
Lemma from_concat s ls : from s (concat ls) = concat (map (from s) ls).
Proof. induction ls as [|l ls IH]; [done|]. simpl. rewrite <- IH. apply List.filter_app. Qed.
Lemma in_from s l x : x ∈ from s l -> la_source x = s.
Proof. intros Hx%list_elem_of_In. apply filter_In in Hx as [_ Hx]. by apply bool_decide_eq_true in Hx. Qed.
Lemma sorted_from ss l : StronglySorted (fun a b => source_rank a <= source_rank b) ss ->
  StronglySorted (fun a b => source_rank (la_source a) <= source_rank (la_source b)) (concat (map (fun s => from s l) ss)).
Proof.
  induction 1 as [|s ss Hss IH Hle]; [constructor|]. simpl. apply StronglySorted_app. split_and!; [|clear|done].
  - intros x y Hx%in_from Hy%list_elem_of_In. apply in_concat in Hy as (? & Hs & Hy).
    apply in_map_iff in Hs as (s' & <- & Hs). apply list_elem_of_In, in_from in Hy. rewrite Hx, Hy.
    rewrite Forall_forall in Hle. by apply Hle, list_elem_of_In.
  - assert (Forall (fun x => la_source x = s) (from s l)) as H by (apply Forall_forall; intros x; apply in_from).
    induction H as [|x k Hx Hk IH]; constructor; [done|]. eapply Forall_impl; [exact Hk|]. simpl. intros y ->. by rewrite Hx.
Qed.
Lemma sort_layers_layered layers : layered layers (sort_layers layers).
Proof.
  split; [apply (sorted_from HeaderSource.all); repeat constructor; simpl; lia|]. intros s.
  change (sort_layers layers) with (concat (map (fun s => from s layers) HeaderSource.all)).
  rewrite from_concat, map_map. rewrite (map_ext _ _ (fun a => from_from s a layers)).
  by destruct s; cbn; rewrite ?app_nil_r.
Qed.
Lemma layered_unique l k : layered l k -> forall k', layered l k' -> k' = k.
Proof.
  revert l. induction k as [|a k IH]; intros l [Hk Hf] k' [Hk' Hf'].
  - destruct k' as [|b k']; [done|]. specialize (Hf (la_source b)). specialize (Hf' (la_source b)). rewrite <- Hf in Hf'.
    unfold from in Hf'. simpl in Hf'. by rewrite bool_decide_true in Hf'.
  - assert (forall s, from s k' = from s (a :: k)) as He by (intros s; by rewrite Hf, Hf').
    destruct k' as [|b k']; [specialize (He (la_source a)); unfold from in He; simpl in He; by rewrite bool_decide_true in He|].
    assert (forall x y xs ys, StronglySorted (fun a b => source_rank (la_source a) <= source_rank (la_source b)) (y :: ys) ->
      from (la_source x) (x :: xs) = from (la_source x) (y :: ys) -> source_rank (la_source y) <= source_rank (la_source x)) as Hle.
    { intros x y xs ys Hs E. assert (x ∈ from (la_source x) (y :: ys)) as Hin.
      { rewrite <- E. unfold from. simpl. rewrite bool_decide_true by done. left. }
      apply list_elem_of_In, filter_In in Hin as [[->|Hin] _]; [done|]. apply StronglySorted_inv in Hs as [_ Hs].
      rewrite Forall_forall in Hs. by apply Hs, list_elem_of_In. }
    assert (la_source a = la_source b) as Es.
    { pose proof (Hle b a k' k Hk (He _)). pose proof (Hle a b k k' Hk' (eq_sym (He _))).
      destruct (la_source a), (la_source b); simpl in *; try done; lia. }
    pose proof (He (la_source a)) as E. unfold from in E. simpl in E. rewrite !bool_decide_true in E by done.
    injection E as -> E. f_equal. apply (IH k); [by apply StronglySorted_inv in Hk as [? _]; split|].
    split; [by apply StronglySorted_inv in Hk' as [? _]|]. intros s. specialize (He s). unfold from in *. simpl in He.
    destruct (bool_decide _); congruence.
Qed.

(** C37. Headers resolve exactly when every operation is one its source may make;
    then each header has the value of the last operation on its name in the order
    of the sources' priorities (the layers of one source as they are given), is
    absent when that operation removes it or there is none, and the reported
    source is the source of that operation. The order is the only one there is. *)
Theorem header_resolution_exact policy layers : exists sorted,
  layered layers sorted /\ (forall other, layered layers other -> other = sorted) /\
  let ops := concat (map layer_ops sorted) in
  (is_ok (resolve_layers policy layers) = true <-> Forall (may policy) ops) /\
  forall r, resolve_layers policy layers = Ok r ->
    forall name, rh_headers r !! name = value_of (last_op name ops) /\
                 final_source r name = source_of (last_op name ops).
Proof.
  exists (sort_layers layers). pose proof (sort_layers_layered layers) as Hl.
  split; [done|]. split; [by apply layered_unique|]. fold (sorted_ops layers). cbv zeta.
  rewrite resolve_layers_flat. destruct (fold_ops policy (sorted_ops layers)) as [Hok Hr]. split.
  - rewrite Hok. apply Forall_iff. intros o. apply permitted_may.
  - intros r H name. specialize (Hr r H). split; [apply Hr|by apply (final_source_ok policy)].
Qed.

(** ** Ownership *)

Lemma permitted_inv policy s o : permitted policy (s, o) ->
  allows policy s (op_name o) = true /\ (s = HeaderSource.Auth -> op_sensitive o = true).
Proof.
  unfold permitted, validate_operation. simpl. destruct (allows policy s (op_name o)); [|done].
  intros H. split; [done|]. intros ->. unfold is_source in H. rewrite bool_decide_true in H by done.
  by destruct (op_sensitive o).
Qed.
Lemma allows_owner policy s name :
  is_protected policy name = true -> allows policy s name = true -> owner policy name = Some s.
Proof.
  unfold is_protected, allows, owner, is_source. intros Hp.
  destruct (contains ["authorization"; _] name) eqn:H1;
    [intros [H _]%andb_true_iff; by apply bool_decide_eq_true in H as ->|].
  destruct (contains ["content-type"; _] name) eqn:H2; [by intros ->%bool_decide_eq_true|].
  destruct (str_eqb name "user-agent") eqn:H3; [by intros ->%bool_decide_eq_true|].
  destruct (contains ["host"; _; _; _; _; _] name) eqn:H4; [done|].
  destruct (is_auth_header policy name); [by intros ->%bool_decide_eq_true|].
  destruct (is_provider_header policy name); [by intros ->%bool_decide_eq_true|].
  rewrite !orb_false_r in Hp. exfalso.
  assert (forallb (fun n => contains ["authorization"; "proxy-authorization"] n
    || contains ["content-type"; "accept"] n || str_eqb n "user-agent"
    || contains ["host"; "content-length"; "transfer-encoding"; "connection"; "cookie"; "set-cookie"] n)
    PROTECTED_HEADERS = true) as Hall by (vm_compute; reflexivity).
  rewrite forallb_forall in Hall. apply bool_decide_eq_true, list_elem_of_In, Hall in Hp.
  by rewrite H1, H2, H3, H4 in Hp.
Qed.

Lemma contains_sub small table name :
  forallb (contains table) small = true -> contains small name = true -> contains table name = true.
Proof.
  intros Hall Hin%bool_decide_eq_true. rewrite forallb_forall in Hall. apply Hall. by apply list_elem_of_In.
Qed.
Lemma owner_auth policy name :
  is_auth_header policy name = true -> is_auth_ineligible_header name = false ->
  owner policy name = Some HeaderSource.Auth.
Proof.
  unfold owner, is_auth_ineligible_header. intros Ha Hel.
  destruct (contains ["authorization"; _] name); [done|].
  destruct (contains ["content-type"; _] name) eqn:H2.
  { eapply contains_sub in H2; [rewrite H2 in Hel; done|by vm_compute]. }
  destruct (str_eqb name "user-agent") eqn:H3; [apply str_eqb_spec in H3 as ->; done|].
  destruct (contains ["host"; _; _; _; _; _] name) eqn:H4.
  { eapply contains_sub in H4; [rewrite H4 in Hel; done|by vm_compute]. }
  by rewrite Ha.
Qed.

(** ** The layers of a request *)
Section Runtime.
Context {HV : HttpValues}.

Lemma runtime_ops i layers :
  runtime_layers i = Ok layers ->
  exists ua, header_value (hi_identity i) = Ok ua /\
    sorted_ops layers =
      map (pair HeaderSource.Protocol) (hi_protocol i) ++ map (pair HeaderSource.Provider) (hi_provider i)
      ++ [(HeaderSource.ClientIdentity, op_set "user-agent" ua)]
      ++ map (pair HeaderSource.Model) (hi_model i) ++ map (pair HeaderSource.DynamicPolicy) (hi_dynamic i)
      ++ map (pair HeaderSource.Request) (map (fun h => op_set h.1 h.2) (hi_request i))
      ++ map (pair HeaderSource.Auth) (hi_auth i).
Proof.
  unfold runtime_layers, identity_operation. destruct (header_value (hi_identity i)) as [ua|]; [|done].
  simpl. intros [= <-]. exists ua. split; [done|]. unfold sorted_ops, layer_ops. simpl.
  by rewrite !app_nil_r.
Qed.

(** Operations of another source on an owned header are not permitted. *)
Lemma filter_foreign policy name s (l : list HeaderOperation.t) :
  is_protected policy name = true -> owner policy name <> Some s ->
  Forall (permitted policy) (map (pair s) l) -> List.filter (on_name name) (map (pair s) l) = [].
Proof.
  intros Hp Ho Hf. induction l as [|o l IH]; simpl; [done|]. apply Forall_cons in Hf as [H Hf].
  rewrite (IH Hf). destruct (on_name name (s, o)) eqn:E; [|done]. exfalso. apply Ho.
  apply str_eqb_spec in E. apply permitted_inv in H as [H _]. simpl in E. subst name.
  by apply allows_owner.
Qed.

Lemma resolve_headers_inv policy validate_final i r :
  resolve_headers policy validate_final i = Ok r ->
  exists layers, runtime_layers i = Ok layers /\ resolve_layers policy layers = Ok r /\
    rh_headers r !! "content-type" = Some application_json /\ validate_final (rh_headers r) = Ok tt.
Proof.
  unfold resolve_headers. rewrite bind_ok. intros (layers & Hl & H). rewrite bind_ok in H.
  destruct H as (r' & Hr & H). rewrite !then_ok in H. destruct H as (Hc & Hv & [= ->]).
  case_bool_decide; [|done]. by exists layers.
Qed.

(** The value of a protected header was set by the header's owner, and is
    sensitive when the owner is the authentication layer. *)
Lemma protected_value policy ops r name v :
  Forall (permitted policy) ops -> reaches policy ops r -> is_protected policy name = true ->
  rh_headers r !! name = Some v ->
  exists s sensitive, (s, HeaderOperation.Set_ name (mk_header_value v sensitive)) ∈ ops /\
    owner policy name = Some s /\ (s = HeaderSource.Auth -> sensitive = true).
Proof.
  intros Hall [_ Hl] Hp. rewrite Hl. destruct (last_op name ops) as [[s [n w|n]]|] eqn:E; try done.
  simpl. intros [= <-]. apply last_filter_in in E as [Hin Hn]. apply str_eqb_spec in Hn. simpl in Hn. subst n.
  rewrite Forall_forall in Hall. pose proof (Hall _ Hin) as [Ha Hs]%permitted_inv. destruct w as [w b].
  exists s, b. split_and!; [done|by apply allows_owner|done].
Qed.
(** A protected header whose owner is neither the provider nor a later layer
    keeps the value of the protocol and the identity. *)
Ltac owned_value :=
  unfold last_op; rewrite !List.filter_app;
  rewrite (filter_foreign _ _ HeaderSource.Provider), (filter_foreign _ _ HeaderSource.Model),
    (filter_foreign _ _ HeaderSource.DynamicPolicy), (filter_foreign _ _ HeaderSource.Request),
    (filter_foreign _ _ HeaderSource.Auth) by done; done.

(** Whatever headers the model, the dynamic policy and the caller add, a
    resolved request carries the protocol's content type and accept header and
    the client's own user agent, has none of the transport's headers, and every
    authentication header it carries was set, as a sensitive value, by the
    authentication layer; the caller's headers are none of the protected ones. *)
Theorem runtime_headers_safe policy validate_final i r :
  hi_protocol i = standard_json_sse_header_operations ->
  resolve_headers policy validate_final i = Ok r ->
  rh_headers r !! "content-type" = Some application_json /\
  rh_headers r !! "accept" = Some event_stream /\
  (exists ua, header_value (hi_identity i) = Ok ua /\ rh_headers r !! "user-agent" = Some ua) /\
  (forall name, is_protected policy name = true -> owner policy name = None -> rh_headers r !! name = None) /\
  (forall name v, is_auth_header policy name = true -> is_auth_ineligible_header name = false ->
     rh_headers r !! name = Some v -> op_set_sensitive name v ∈ hi_auth i) /\
  (forall h, h ∈ hi_request i -> is_protected policy h.1 = false).
Proof.
  intros Hproto H. apply resolve_headers_inv in H as (layers & Hl & Hr & Hct & _).
  apply runtime_ops in Hl as (ua & Hua & Hops). rewrite resolve_layers_flat in Hr.
  destruct (fold_ops policy (sorted_ops layers)) as [Hok Hreach]. rewrite Hr in Hok.
  pose proof (proj1 Hok eq_refl) as Hall. specialize (Hreach r Hr). pose proof Hreach as [_ Hlook].
  rewrite Hops, Hproto in Hall, Hlook, Hreach. pose proof Hall as Hall'. rewrite !Forall_app in Hall'.
  destruct Hall' as (_ & _ & _ & _ & _ & Hcaller & _).
  split_and!; [done| | | | |].
  - rewrite Hlook. rewrite !Forall_app in Hall. destruct_and! Hall. owned_value.
  - exists ua. split; [done|]. rewrite Hlook. rewrite !Forall_app in Hall. destruct_and! Hall. owned_value.
  - intros name Hp Ho. destruct (rh_headers r !! name) as [v|] eqn:E; [|done].
    destruct (protected_value _ _ _ _ _ Hall Hreach Hp E) as (s & b & _ & Hs & _). congruence.
  - intros name v Ha Hel Hv.
    destruct (protected_value _ _ _ name v Hall Hreach) as (s & b & Hin & Hs & Hb); [|done|].
    { unfold is_protected. by rewrite Ha, orb_true_r. }
    rewrite owner_auth in Hs by done. injection Hs as <-. rewrite (Hb eq_refl) in Hin.
    rewrite !elem_of_app, list_elem_of_singleton in Hin.
    destruct Hin as [Hin|[Hin|[Hin|[Hin|[Hin|[Hin|Hin]]]]]]; [| |done|..];
      apply list_elem_of_fmap in Hin as (o & Heq & Ho); [done..|]. by injection Heq as <-.
  - intros h Hh. rewrite Forall_forall in Hcaller.
    assert ((HeaderSource.Request, op_set h.1 h.2) ∈ map (pair HeaderSource.Request)
      (map (fun h : string * list ascii => op_set h.1 h.2) (hi_request i))) as Hin
      by (apply list_elem_of_fmap_2, (list_elem_of_fmap_2 (fun h : string * list ascii => op_set h.1 h.2) _ h Hh)).
    apply Hcaller, permitted_inv in Hin as [Ha _]. simpl in Ha.
    destruct (is_protected policy h.1) eqn:E; [|done]. pose proof (allows_owner _ _ _ E Ha) as Ho.
    unfold owner in Ho. by repeat case_match.
Qed.
End Runtime.

(** ** Samples *)
Definition plain_http : HttpValues := fun s => Some (bytes_of s).
Definition sample_inputs (request : list (string * list ascii)) : HeaderInputs :=
  mk_header_inputs standard_json_sse_header_operations [op_set "x-provider" (bytes_of "acme")]
    (mk_identity "philo" "1" None None []) [] [] request
    [op_set_sensitive "authorization" (bytes_of "Bearer k")].
Definition bearer_policy : HeaderPolicy := with_registered_headers ["authorization"] ["x-provider"].
Lemma runtime_headers_safe_witness :
  exists r, resolve_headers (HV := plain_http) bearer_policy (fun _ => Ok tt)
              (sample_inputs [("x-trace", bytes_of "1")]) = Ok r /\
    rh_headers r !! "accept" = Some event_stream.
Proof.
  destruct (resolve_headers (HV := plain_http) bearer_policy (fun _ => Ok tt)
              (sample_inputs [("x-trace", bytes_of "1")])) as [r|e] eqn:E.
  - exists r. split; [reflexivity|].
    apply (runtime_headers_safe (HV := plain_http) bearer_policy (fun _ => Ok tt)
      (sample_inputs [("x-trace", bytes_of "1")])); [reflexivity|exact E].
  - vm_compute in E. discriminate E.
Defined.
Example caller_credentials_refused :
  is_ok (resolve_headers (HV := plain_http) bearer_policy (fun _ => Ok tt)
           (sample_inputs [("authorization", bytes_of "Bearer mine")])) = false.
Proof. vm_compute. reflexivity. Qed.
