(* ===== verification/Serialize.v ===== *)
(** * Serialization of request bodies

    What both encoders use of serde: a wire type is written as a tree whose
    objects list their fields in declaration order ([#[derive(Serialize)]] with
    its [rename] and [skip_serializing_if] attributes), and [to_value] turns that
    tree into a [Value], whose objects are maps ordered by key. *)
From Stdlib Require Import SpecFloat.
From S2P Require Import Prelude Errors Domain Structured ChatWire Schema SchemaSpec Options.

(** ** Trees *)

(** A field that is always written, and one with
    [skip_serializing_if = "Option::is_none"]. *)
Definition req (name : string) (value : json) : list (string * json) := [(name, value)].
Definition opt {A} (name : string) (f : A -> json) (value : option A) : list (string * json) :=
  match value with Some a => [(name, f a)] | None => [] end.

(** [f64::to_bits] of a finite number, which is how a [Number] keeps it; other
    numbers are written as [null]. *)
Definition f64_bits (x : f64) : Z :=
  match x with
  | S754_finite s m e =>
      let sign := if s then 2 ^ 63 else 0 in
      if Zpos m <? 2 ^ 52 then sign + Zpos m else sign + (e + 1075) * 2 ^ 52 + (Zpos m - 2 ^ 52)
  | S754_zero true => 2 ^ 63
  | _ => 0
  end.
Definition json_of_f64 (x : f64) : json :=
  if f64_is_finite x then JNumber (Float (f64_bits x)) else JNull.
Definition json_of_uint (n : Z) : json := JNumber (PosInt n).

Definition insert_all (fields object : list (string * json)) : list (string * json) :=
  foldl (fun o (e : string * json) => obj_insert e.1 e.2 o) object fields.

(** [serde_json::to_value]. *)
Fixpoint to_value (t : json) : json :=
  match t with
  | JArray items => JArray (map to_value items)
  | JObject entries =>
      JObject (insert_all (map (fun e => (fst e, to_value (snd e))) entries) [])
  | _ => t
  end.

(** [serde_json::to_vec]. *)
Definition to_vec {JP : JsonPrinter} (t : json) : result json_error (list ascii) :=
  s ← to_string t; Ok (bytes_of s).

(** The body of both encoders: a typed tree is written directly, and one with
    an extension through its [Value]. *)
Definition serialize_body {JP : JsonPrinter} (field : string) (failed not_object : LlmError)
    (tree : json) (raw_extension : option RawFields) : result LlmError (list ascii) :=
  match raw_extension with
  | None => map_err (fun _ => failed) (to_vec tree)
  | Some raw =>
      match to_value tree with
      | JObject object =>
          merged ← map_err LlmError.Validation (merge_raw field (rf_fields raw) object);
          map_err (fun _ => failed) (to_vec (JObject merged))
      | _ => Err not_object
      end
  end.

(** ** Reading a map back *)
Lemma insert_all_get fields object k :
  NoDup (map fst fields) ->
  obj_get (insert_all fields object) k =
  match obj_get fields k with Some v => Some v | None => obj_get object k end.
Proof.
  revert object. induction fields as [|[k' v'] fields IH]; intros object; simpl; [done|].
  intros [Hk Hnd]%NoDup_cons. rewrite IH by done. rewrite obj_get_insert.
  destruct (str_eqb k' k) eqn:E; [|done]. apply str_eqb_spec in E as ->.
  destruct (obj_get fields k) eqn:Hg; [|done]. exfalso. apply Hk.
  clear -Hg. induction fields as [|[a b] fields IH]; simpl in *; [done|].
  destruct (str_eqb a k) eqn:E; [apply str_eqb_spec in E as ->; left|right; auto].
Qed.
Lemma obj_get_map (f : json -> json) fields k :
  obj_get (map (fun e => (fst e, f (snd e))) fields) k = f <$> obj_get fields k.
Proof.
  induction fields as [|[a b] fields IH]; simpl; [done|]. by destruct (str_eqb a k).
Qed.

(** The fields of a written object are those of its tree. *)
Lemma to_value_get entries :
  NoDup (map fst entries) -> exists object, to_value (JObject entries) = JObject object /\
    forall k, obj_get object k = to_value <$> obj_get entries k.
Proof.
  intros Hnd. eexists. split; [reflexivity|]. intros k.
  rewrite insert_all_get.
  - rewrite obj_get_map. by destruct (obj_get entries k).
  - rewrite map_map. simpl. done.
Qed.

(** ** Bodies *)

(** The object a body is written from: the typed fields, and with an extension
    the same fields as values beside the extension's own. *)
Definition body_object (fields : list (string * json)) (raw : option RawFields)
    (object : list (string * json)) : Prop :=
  match raw with
  | None => object = fields
  | Some raw =>
      forall k, obj_get object k =
        match obj_get fields k with Some v => Some (to_value v) | None => obj_get (rf_fields raw) k end
  end.
(** Serialization of trees with string keys does not fail. *)
Definition printer_total {JP : JsonPrinter} : Prop := forall v, exists s, to_string v = Ok s.

Lemma serialize_body_ok {JP : JsonPrinter} field failed not_object fields raw :
  printer_total -> NoDup (map fst fields) ->
  (forall r, raw = Some r -> NoDup (map fst (rf_fields r)) /\
     Forall (fun e : string * json => obj_get fields e.1 = None) (rf_fields r)) ->
  exists object text, body_object fields raw object /\ to_string (JObject object) = Ok text /\
    serialize_body field failed not_object (JObject fields) raw = Ok (bytes_of text).
Proof.
  intros Hp Hnd Hraw. unfold serialize_body, to_vec. destruct raw as [r|].
  - destruct (Hraw r eq_refl) as [Hnr Hr]. destruct (to_value_get fields Hnd) as (o & -> & Ho).
    destruct (merge_raw_ok field (rf_fields r) o) as [merged Hm]; [done| |].
    { eapply Forall_impl; [exact Hr|]. simpl. intros e He. by rewrite Ho, He. }
    destruct (Hp (JObject merged)) as [text Ht]. exists merged, text. rewrite Hm. simpl. rewrite Ht. simpl.
    split; [|done]. intros k. rewrite (merge_raw_get _ _ _ _ Hm k), Ho. by destruct (obj_get fields k).
  - destruct (Hp (JObject fields)) as [text Ht]. exists fields, text. by rewrite Ht.
Qed.
(** A required or optional field adds its name to the field names. *)
Lemma opt_sublist {A} name (f : A -> json) v rest names :
  map fst rest `sublist_of` names -> map fst (opt name f v ++ rest) `sublist_of` (name :: names).
Proof. intros. destruct v; simpl; by constructor. Qed.
Lemma obj_get_key object k v : obj_get object k = Some v -> k ∈ map fst object.
Proof.
  induction object as [|[a b] object IH]; simpl; [done|].
  destruct (str_eqb a k) eqn:E; [|by right; auto]. apply str_eqb_spec in E as ->. by left.
Qed.
(** A name outside the protection table is not a field of the SDK's. *)
Lemma unprotected_absent table names fields k :
  forallb (is_protected_body_field table) names = true -> map fst fields `sublist_of` names ->
  is_protected_body_field table k = false -> obj_get fields k = None.
Proof.
  intros Hall Hsub Hk. destruct (obj_get fields k) as [v|] eqn:Hg; [|done]. exfalso.
  apply obj_get_key in Hg. eapply elem_of_sublist in Hg; [|exact Hsub].
  rewrite forallb_forall in Hall. rewrite (Hall k) in Hk; [done|]. by apply list_elem_of_In.
Qed.
