(* ===== verification/Contract.v ===== *)
(** * Capabilities and protocol contracts

    [src/src/provider/capability.rs], [src/src/provider/protocol_contract/] and
    the dialect part of [src/src/domain/history/policy.rs]: what a provider and a
    model support, and the closed protocol behaviour a definition selects. *)
From S2P Require Import Prelude Errors Domain Structured ChatWire Schema Options Messages History Request.
Import CapabilityStatus.

(** ** Capabilities *)
Record ProviderCapabilities := mk_provider_capabilities {
  pc_developer_role : CapabilityStatus.t; pc_temperature : CapabilityStatus.t;
  pc_max_completion_tokens : CapabilityStatus.t; pc_streaming : CapabilityStatus.t;
  pc_streaming_usage : CapabilityStatus.t;
  pc_function_tools : CapabilityStatus.t;
  pc_tool_choice_required : CapabilityStatus.t;
  pc_tool_choice_specific : CapabilityStatus.t;
  pc_parallel_tool_calls : CapabilityStatus.t;
  pc_strict_tools : CapabilityStatus.t;
  pc_vision_input : CapabilityStatus.t;
  pc_image_detail_original : CapabilityStatus.t;
  pc_response_format_json_object : CapabilityStatus.t;
  pc_response_format_json_schema : CapabilityStatus.t;
  pc_reasoning_efforts : ReasoningEffortSupport;
  pc_adaptive_thinking : CapabilityStatus.t;
  pc_adaptive_thinking_effort : CapabilityStatus.t }.

Definition openai_compatible : ProviderCapabilities :=
  mk_provider_capabilities Unknown Supported Supported Supported Supported Unknown Unknown Unknown
    Unknown Unknown Unknown Unknown Unknown Unknown EffortUnknown Unsupported Unsupported.
Definition conservative_chat_completions : ProviderCapabilities := openai_compatible.
Definition conservative_messages : ProviderCapabilities :=
  mk_provider_capabilities Supported Supported Supported Supported Supported Unknown Unknown Unknown
    Unknown Unknown Unknown Unsupported Unknown Unknown EffortUnsupported Unknown Unknown.
Definition official_openai : ProviderCapabilities :=
  mk_provider_capabilities Supported Supported Supported Supported Supported Unknown Unknown Unknown
    Unknown Unknown Unknown Unknown Unknown Unknown EffortUnknown Unsupported Unsupported.
Definition official_anthropic : ProviderCapabilities :=
  mk_provider_capabilities Supported Supported Supported Supported Supported Supported Supported
    Supported Supported Supported Supported Unsupported Unsupported Supported EffortUnsupported
    Unknown Unknown.

Definition generation_options (c : ProviderCapabilities) : CapabilitySet :=
  mk_capability_set (pc_temperature c) (pc_max_completion_tokens c) (pc_function_tools c)
    (pc_tool_choice_required c) (pc_tool_choice_specific c) (pc_parallel_tool_calls c)
    (pc_strict_tools c) (pc_vision_input c) (pc_image_detail_original c)
    (pc_response_format_json_object c) (pc_response_format_json_schema c) (pc_reasoning_efforts c).

Definition configuration {A} (message : string) : result LlmError A :=
  Err (LlmError.Configuration message).
Definition configuration_if (b : bool) (message : string) : result LlmError unit :=
  if b then configuration message else Ok tt.
Definition is_supported (s : CapabilityStatus.t) : bool :=
  match s with Supported => true | _ => false end.

(** [ProviderCapabilities::validate]. *)
Definition validate_capabilities (c : ProviderCapabilities) : result LlmError unit :=
  _ ← configuration_if (negb (is_supported (pc_streaming c))) "profile must declare streaming support";
  configuration_if (negb (is_supported (pc_streaming_usage c)))
    "profile must declare streaming usage support".

(** What a catalog entry or a model profile declares; [CatalogCapabilities] and
    the fields of [ModelCapabilityProfile] other than its model. *)
Record CatalogCapabilities := mk_catalog_capabilities {
  cc_function_tools : CapabilityStatus.t;
  cc_tool_choice_required : CapabilityStatus.t;
  cc_tool_choice_specific : CapabilityStatus.t;
  cc_parallel_tool_calls : CapabilityStatus.t;
  cc_strict_tools : CapabilityStatus.t;
  cc_vision_input : CapabilityStatus.t;
  cc_image_detail_original : CapabilityStatus.t;
  cc_response_format_json_object : CapabilityStatus.t;
  cc_response_format_json_schema : CapabilityStatus.t;
  cc_reasoning_efforts : ReasoningEffortSupport;
  cc_adaptive_thinking : CapabilityStatus.t;
  cc_adaptive_thinking_effort : CapabilityStatus.t }.
Definition catalog_capabilities_default : CatalogCapabilities :=
  mk_catalog_capabilities Unknown Unknown Unknown Unknown Unknown Unknown Unknown Unknown Unknown
    EffortUnknown Unknown Unknown.
Record ModelCapabilityProfile := mk_model_profile {
  mcp_model : string; mcp_capabilities : CatalogCapabilities }.
Definition model_profile_new (model : string) : ModelCapabilityProfile :=
  mk_model_profile model catalog_capabilities_default.

Definition apply_catalog (profile : CatalogCapabilities) (c : ProviderCapabilities)
  : ProviderCapabilities :=
  mk_provider_capabilities (pc_developer_role c) (pc_temperature c) (pc_max_completion_tokens c)
    (pc_streaming c) (pc_streaming_usage c)
    (cc_function_tools profile) (cc_tool_choice_required profile) (cc_tool_choice_specific profile)
    (cc_parallel_tool_calls profile) (cc_strict_tools profile) (cc_vision_input profile)
    (cc_image_detail_original profile) (cc_response_format_json_object profile) (cc_response_format_json_schema profile)
    (cc_reasoning_efforts profile) (cc_adaptive_thinking profile) (cc_adaptive_thinking_effort profile).
Definition apply_model (profile : ModelCapabilityProfile) (c : ProviderCapabilities)
  : ProviderCapabilities := apply_catalog (mcp_capabilities profile) c.

(** ** Dialects *)
Inductive PolicySource := SrcRequest | SrcModelProfile | SrcProviderProfile | SrcProtocolDefault.
Inductive ToolChoiceWireFormat := OpenAiNestedFunction | AnthropicTool.
Module ToolResultNamePolicy.
Inductive t := Omit | Include | Require.
End ToolResultNamePolicy.
Inductive ThinkingWireFormat := ThinkingUnsupported | OpenAiReasoningEffort | AnthropicAdaptive.
Inductive ImageWireFormat := OpenAiImageUrl | AnthropicSource.
Inductive StreamUsagePolicy := IncludeUsage | StreamUsageUnsupported | AnthropicSnapshots.
Inductive StructuredOutputWireFormat := OpenAiResponseFormat | AnthropicOutputConfig.
Record DialectPolicy := mk_dialect_policy {
  dp_source : PolicySource; dp_tool_choice : ToolChoiceWireFormat;
  dp_tool_result_name : ToolResultNamePolicy.t; dp_tool_call_id : ToolCallIdPolicy;
  dp_thinking : ThinkingWireFormat; dp_image : ImageWireFormat;
  dp_stream_usage : StreamUsagePolicy; dp_structured_output : StructuredOutputWireFormat }.
Definition dialect_official_openai : DialectPolicy :=
  mk_dialect_policy SrcProtocolDefault OpenAiNestedFunction ToolResultNamePolicy.Omit OpenAiIds
    OpenAiReasoningEffort OpenAiImageUrl IncludeUsage OpenAiResponseFormat.
Definition dialect_official_anthropic : DialectPolicy :=
  mk_dialect_policy SrcProtocolDefault AnthropicTool ToolResultNamePolicy.Omit PreserveIds
    AnthropicAdaptive AnthropicSource AnthropicSnapshots AnthropicOutputConfig.

(** ** Request, history and profile of a Chat contract *)
Inductive MaxOutputTokensWireFormat := MaxCompletionTokens | MaxTokens.
Module ModelBodyWireFormat.
Inductive t := Include | Omit.
End ModelBodyWireFormat.
Record RequestCompat := mk_request_compat {
  rc_model_body : ModelBodyWireFormat.t; rc_max_output_tokens : MaxOutputTokensWireFormat;
  rc_tool_choice : ToolChoiceWireFormat; rc_thinking : ThinkingWireFormat;
  rc_image : ImageWireFormat; rc_stream_usage : StreamUsagePolicy;
  rc_structured_output : StructuredOutputWireFormat }.
Definition request_compat_default : RequestCompat :=
  mk_request_compat ModelBodyWireFormat.Include MaxCompletionTokens OpenAiNestedFunction
    OpenAiReasoningEffort OpenAiImageUrl IncludeUsage OpenAiResponseFormat.

Record HistoryCompat := mk_history_compat {
  hcp_missing_tool_result : MissingToolResultPolicy;
  hcp_unsupported_content : UnsupportedContentPolicy;
  hcp_thinking_replay : ThinkingReplayPolicy;
  hcp_tool_result_name : ToolResultNamePolicy.t;
  hcp_tool_call_id : ToolCallIdPolicy }.
Definition history_compat_default : HistoryCompat :=
  mk_history_compat RejectMissing RejectContent DropAll ToolResultNamePolicy.Omit OpenAiIds.

Inductive CompatField :=
| RequestModelBody | RequestMaxOutputTokens | RequestToolChoice | RequestThinking | RequestImage
| RequestStreamUsage | RequestStructuredOutput | ResponseFinishReason | ResponseToolArguments
| ResponseUsage | ResponseInlineError | HistoryMissingToolResult | HistoryUnsupportedContent
| HistoryThinkingReplay | HistoryToolResultName | HistoryToolCallId.
#[global] Instance CompatField_eq_dec : EqDecision CompatField.
Proof. solve_decision. Defined.

(** The provenance map has every field from the start ([openai_chat_default])
    and [record_source] only replaces values, so it is a function. *)
Record CompatProfile := mk_compat_profile {
  cp_request : RequestCompat; cp_response : ResponseCompat; cp_history : HistoryCompat;
  cp_provenance : CompatField -> PolicySource }.
Definition compat_profile_default : CompatProfile :=
  mk_compat_profile request_compat_default openai_chat_default history_compat_default
    (fun _ => SrcProtocolDefault).
Definition source (p : CompatProfile) (field : CompatField) : PolicySource := cp_provenance p field.
Definition record_source (field : CompatField) (s : PolicySource) (p : CompatProfile)
  : CompatProfile :=
  mk_compat_profile (cp_request p) (cp_response p) (cp_history p)
    (fun f => if bool_decide (f = field) then s else cp_provenance p f).

Definition with_model_body (v : ModelBodyWireFormat.t) (s : PolicySource) (p : CompatProfile)
  : CompatProfile :=
  let r := cp_request p in
  record_source RequestModelBody s
    (mk_compat_profile
       (mk_request_compat v (rc_max_output_tokens r) (rc_tool_choice r) (rc_thinking r) (rc_image r)
          (rc_stream_usage r) (rc_structured_output r))
       (cp_response p) (cp_history p) (cp_provenance p)).
Definition with_max_output_tokens (v : MaxOutputTokensWireFormat) (s : PolicySource)
    (p : CompatProfile) : CompatProfile :=
  let r := cp_request p in
  record_source RequestMaxOutputTokens s
    (mk_compat_profile
       (mk_request_compat (rc_model_body r) v (rc_tool_choice r) (rc_thinking r) (rc_image r)
          (rc_stream_usage r) (rc_structured_output r))
       (cp_response p) (cp_history p) (cp_provenance p)).
Definition with_finish_reason (v : FinishReasonCompat) (s : PolicySource) (p : CompatProfile)
  : CompatProfile :=
  let r := cp_response p in
  record_source ResponseFinishReason s
    (mk_compat_profile (cp_request p)
       (mk_response_compat v (compat_tool_arguments r) (compat_usage r) (compat_inline_error r))
       (cp_history p) (cp_provenance p)).
Definition with_tool_arguments (v : ToolArgumentsCompat) (s : PolicySource) (p : CompatProfile)
  : CompatProfile :=
  let r := cp_response p in
  record_source ResponseToolArguments s
    (mk_compat_profile (cp_request p)
       (mk_response_compat (compat_finish_reason r) v (compat_usage r) (compat_inline_error r))
       (cp_history p) (cp_provenance p)).
Definition with_usage (v : UsageCompat) (s : PolicySource) (p : CompatProfile) : CompatProfile :=
  let r := cp_response p in
  record_source ResponseUsage s
    (mk_compat_profile (cp_request p)
       (mk_response_compat (compat_finish_reason r) (compat_tool_arguments r) v
          (compat_inline_error r))
       (cp_history p) (cp_provenance p)).

Definition compat_dialect_policy (p : CompatProfile) : DialectPolicy :=
  let r := cp_request p in let h := cp_history p in
  mk_dialect_policy SrcProtocolDefault (rc_tool_choice r) (hcp_tool_result_name h)
    (hcp_tool_call_id h) (rc_thinking r) (rc_image r) (rc_stream_usage r) (rc_structured_output r).

Definition validate_against (p : CompatProfile) (c : ProviderCapabilities) : result LlmError unit :=
  _ ← configuration_if
        (match rc_stream_usage (cp_request p) with IncludeUsage => true | _ => false end
         && negb (is_supported (pc_streaming_usage c)))
        "stream usage compatibility requires explicit streaming usage support";
  configuration_if
    (match compat_tool_arguments (cp_response p) with StringOrObject => true | _ => false end
     && negb (is_supported (pc_function_tools c)))
    "tool argument compatibility requires explicit function tool support".

(** ** Contracts *)
Record OpenAiChatContract := mk_chat_contract { occ_compat : CompatProfile }.
Definition chat_contract_strict : OpenAiChatContract := mk_chat_contract compat_profile_default.

(** The other policies of an Anthropic contract have one value each. *)
Record AnthropicMessagesContract := mk_messages_contract {
  amc_usage : AnthropicUsageCompat; amc_missing_tool_result : MissingToolResultPolicy;
  amc_unsupported_content : UnsupportedContentPolicy; amc_thinking_replay : ThinkingReplayPolicy }.
Definition messages_contract_strict : AnthropicMessagesContract :=
  mk_messages_contract StrictStableFields RejectMissing RejectContent SameSourceOnly.
Definition with_usage_compat (u : AnthropicUsageCompat) (c : AnthropicMessagesContract)
  : AnthropicMessagesContract :=
  mk_messages_contract u (amc_missing_tool_result c) (amc_unsupported_content c)
    (amc_thinking_replay c).

Definition validate_protocol_capability (field : string) (status : CapabilityStatus.t)
  : result LlmError unit :=
  match status with
  | Supported => Ok tt
  | Unsupported => invalid field ValidationReason.CapabilityUnsupported
                     "selected model does not support this protocol-scoped option"
  | Unknown => invalid field ValidationReason.CapabilityUnknown
                 "selected model support for this protocol-scoped option is unknown"
  end.
Definition validate_messages_options (o : AnthropicMessagesOptions) (c : ProviderCapabilities)
  : result LlmError unit :=
  _ ← match ao_adaptive_thinking o with
      | Some _ => validate_protocol_capability "protocol_options.anthropic.adaptive_thinking"
                    (pc_adaptive_thinking c)
      | None => Ok tt
      end;
  match ao_effort o with
  | Some _ => validate_protocol_capability "protocol_options.anthropic.effort"
                (pc_adaptive_thinking_effort c)
  | None => Ok tt
  end.

Module ProtocolContract.
Inductive t := OpenAiChat (c : OpenAiChatContract) | AnthropicMessages (c : AnthropicMessagesContract).

Definition strict_openai_chat : t := OpenAiChat chat_contract_strict.
Definition strict_anthropic_messages : t := AnthropicMessages messages_contract_strict.
Definition label (c : t) : string :=
  match c with OpenAiChat _ => "openai-chat" | AnthropicMessages _ => "anthropic-messages" end.
Definition openai_chat (c : t) : option OpenAiChatContract :=
  match c with OpenAiChat c => Some c | AnthropicMessages _ => None end.
Definition anthropic_messages (c : t) : option AnthropicMessagesContract :=
  match c with AnthropicMessages c => Some c | OpenAiChat _ => None end.
Definition dialect_policy (c : t) : DialectPolicy :=
  match c with
  | OpenAiChat c => compat_dialect_policy (occ_compat c)
  | AnthropicMessages _ => dialect_official_anthropic
  end.
Definition history_policy (c : t) : HistoryPolicy :=
  match c with
  | OpenAiChat c =>
      let h := cp_history (occ_compat c) in
      mk_history_policy (hcp_missing_tool_result h) (hcp_unsupported_content h)
        (hcp_thinking_replay h)
  | AnthropicMessages c =>
      mk_history_policy (amc_missing_tool_result c) (amc_unsupported_content c)
        (amc_thinking_replay c)
  end.
Definition validate_options (c : t) (options : option ProtocolOptions) (caps : ProviderCapabilities)
  : result LlmError unit :=
  match c, options with
  | _, None | OpenAiChat _, Some (Options.OpenAiChat _) => Ok tt
  | AnthropicMessages _, Some (Options.AnthropicMessages o) => validate_messages_options o caps
  | OpenAiChat _, Some (Options.AnthropicMessages _)
  | AnthropicMessages _, Some (Options.OpenAiChat _) =>
      invalid "protocol_options" ValidationReason.Conflict
        "protocol-scoped options do not match the selected runtime protocol"
  end.
Definition validate_capabilities (c : t) (caps : ProviderCapabilities) : result LlmError unit :=
  match c with
  | OpenAiChat c => validate_against (occ_compat c) caps
  | AnthropicMessages _ => Ok tt
  end.
Definition provenance_source (c : t) : PolicySource :=
  match c with
  | OpenAiChat c => source (occ_compat c) RequestMaxOutputTokens
  | AnthropicMessages _ => SrcProtocolDefault
  end.
End ProtocolContract.

(** ** Bindings *)
Module ProtocolDialect.
Inductive t := OpenAiChatCompletions | AnthropicMessages.
End ProtocolDialect.
Module ProtocolKind.
Inductive t := OpenAiChatCompletions | AnthropicMessages.
End ProtocolKind.
#[global] Instance ProtocolDialect_eq_dec : EqDecision ProtocolDialect.t.
Proof. solve_decision. Defined.

Definition matches_dialect (c : ProtocolContract.t) (d : ProtocolDialect.t) : bool :=
  match c, d with
  | ProtocolContract.OpenAiChat _, ProtocolDialect.OpenAiChatCompletions
  | ProtocolContract.AnthropicMessages _, ProtocolDialect.AnthropicMessages => true
  | _, _ => false
  end.

Record ValidatedProtocolBinding := mk_binding {
  vb_id : string; vb_kind : ProtocolKind.t; vb_dialect : ProtocolDialect.t;
  vb_contract : ProtocolContract.t }.
Definition binding_new (id : string) (dialect : ProtocolDialect.t) (contract : ProtocolContract.t)
  : result LlmError ValidatedProtocolBinding :=
  let kind :=
    match dialect, contract with
    | ProtocolDialect.OpenAiChatCompletions, ProtocolContract.OpenAiChat _ =>
        if str_eqb id "openai-chat-completions" then Some ProtocolKind.OpenAiChatCompletions else None
    | ProtocolDialect.AnthropicMessages, ProtocolContract.AnthropicMessages _ =>
        if str_eqb id "anthropic-messages" then Some ProtocolKind.AnthropicMessages else None
    | _, _ => None
    end in
  match kind with
  | Some kind => Ok (mk_binding id kind dialect contract)
  | None => configuration "protocol id, dialect, and contract do not form a supported binding"
  end.
Definition validate_contract (b : ValidatedProtocolBinding) (contract : ProtocolContract.t)
  : result LlmError unit :=
  if matches_dialect contract (vb_dialect b) then Ok tt
  else configuration "model protocol contract does not match the provider protocol binding".
