(* ===== verification/Catalog.v ===== *)
(** * The model catalog: [src/src/provider/catalog/]

    Exact model entries with their evidence, and the merge of catalog layers in
    which a later layer replaces what it knows. *)
From S2P Require Import Prelude Errors Usage Domain Structured ChatWire Schema Options History Request Contract.
Import CapabilityStatus.

(** ** Identifiers: [ids.rs] *)

(** The constructor the [catalog_id!] macro gives to [ProductId],
    [ProviderModelId], [DeploymentId], [WireModelValue] and [CatalogSourceId],
    which are strings here. *)
Definition catalog_id (label value : string) : result ValidationError string :=
  if str_is_empty value
  then Err (validation_error label ValidationReason.Empty "identifier must not be empty")
  else if has_boundary_whitespace value
  then Err (validation_error label ValidationReason.BoundaryWhitespace
              "identifier must not have boundary whitespace")
  else if 256 <? str_len value
  then Err (validation_error label ValidationReason.OutOfRange "identifier exceeds 256 bytes")
  else Ok value.
Definition provider_model_id_new : string -> result ValidationError string := catalog_id "provider_model_id".

(** ** Evidence: [source.rs] *)
Record CatalogSource := mk_catalog_source {
  csr_id : string; csr_reviewed_at : string; csr_expires_at : option string }.

(** The value of the decimal digits of a slice. *)
Definition digits_value (l : list ascii) : Z :=
  foldl (fun n b => n * 10 + (byte_val b - 48)) 0 l.
Definition slice (l : list ascii) (from to : nat) : list ascii := take (to - from) (drop from l).
Definition date_shape (l : list ascii) : bool :=
  (Z.of_nat (length l) =? 10)
  && bool_decide (l !! 4%nat = Some "-"%char) && bool_decide (l !! 7%nat = Some "-"%char)
  && forallb is_ascii_digit (slice l 0 4) && forallb is_ascii_digit (slice l 5 7)
  && forallb is_ascii_digit (slice l 8 10).
Definition month_days (year month : Z) : Z :=
  let leap := (year mod 4 =? 0) && (negb (year mod 100 =? 0) || (year mod 400 =? 0)) in
  if bool_decide (month ∈ [1; 3; 5; 7; 8; 10; 12]) then 31
  else if bool_decide (month ∈ [4; 6; 9; 11]) then 30
  else if month =? 2 then (if leap then 29 else 28)
  else 0.
Definition validate_date (value : string) : result LlmError unit :=
  let l := bytes_of value in
  if negb (date_shape l) then configuration "catalog dates must use YYYY-MM-DD"
  else
    let year := digits_value (slice l 0 4) in
    let month := digits_value (slice l 5 7) in
    let day := digits_value (slice l 8 10) in
    if (day =? 0) || (month_days year month <? day)
    then configuration "catalog date is not a valid calendar day"
    else Ok tt.
(** [str] comparison. *)
Definition str_ltb (s t : string) : bool :=
  match String.compare s t with Lt => true | _ => false end.
Definition catalog_source_new (id reviewed_at : string) (expires_at : option string)
  : result LlmError CatalogSource :=
  _ ← validate_date reviewed_at;
  _ ← match expires_at with
      | Some date =>
          _ ← validate_date date;
          configuration_if (str_ltb date reviewed_at) "catalog expiry precedes review date"
      | None => Ok tt
      end;
  Ok (mk_catalog_source id reviewed_at expires_at).
Definition is_stale_on (s : CatalogSource) (today : string) : result LlmError bool :=
  _ ← validate_date today;
  Ok match csr_expires_at s with Some expiry => str_ltb expiry today | None => false end.

(** ** Entries: [entry.rs] *)
Record ModelLimits := mk_model_limits {
  ml_context_window_tokens : option Z;
  ml_max_output_tokens : option Z;
  ml_max_messages : option Z;
  ml_max_tools : option Z;
  ml_max_images : option Z;
  ml_max_schema_bytes : option Z }.
Definition model_limits_default : ModelLimits := mk_model_limits None None None None None None.
Definition is_zero (v : option Z) : bool := bool_decide (v = Some 0).
Definition validate_model_limits (l : ModelLimits) : result LlmError unit :=
  _ ← configuration_if (is_zero (ml_context_window_tokens l) || is_zero (ml_max_output_tokens l))
        "catalog token limit must be positive";
  configuration_if (is_zero (ml_max_messages l) || is_zero (ml_max_tools l) || is_zero (ml_max_images l)
                    || is_zero (ml_max_schema_bytes l))
    "catalog resource limit must be positive".
Definition capped (base : Z) (ceiling : option Z) : Z :=
  match ceiling with Some value => Z.min base value | None => base end.
Definition apply_to (l : ModelLimits) (base : ResourceLimits) : ResourceLimits :=
  mk_resource_limits (max_request_body_bytes base) (capped (max_messages base) (ml_max_messages l))
    (max_total_text_bytes base) (capped (max_tools base) (ml_max_tools l))
    (max_tool_description_bytes base) (capped (max_schema_bytes base) (ml_max_schema_bytes l))
    (max_schema_depth base) (max_tool_calls base) (max_tool_arguments_bytes base)
    (max_all_tool_arguments_bytes base) (max_json_array_items base)
    (capped (max_images base) (ml_max_images l)) (max_inline_image_bytes base)
    (max_image_url_bytes base) (max_structured_output_bytes base).

(** [ModelKey]: provider, product and domain model. *)
Abbreviation ModelKey := (string * string * string)%type.
Record ModelEntry := mk_model_entry {
  me_key : ModelKey; me_provider_model_id : string; me_deployment_id : option string;
  me_wire_model_value : string; me_display_name : string; me_protocol_id : string;
  me_capabilities : CatalogCapabilities; me_limits : ModelLimits;
  me_default_max_output_tokens : option Z; me_pricing : option PriceProfile;
  me_source : CatalogSource; me_support_status : CapabilityStatus.t;
  me_provenance : gmap string CatalogSource }.

Definition validate_entry (e : ModelEntry) : result LlmError unit :=
  let '(provider, product, _) := me_key e in
  _ ← configuration_if (str_is_empty provider || str_is_empty product) "catalog key is incomplete";
  _ ← configuration_if (trim_is_empty (me_display_name e)) "catalog display name must not be empty";
  _ ← validate_model_limits (me_limits e);
  _ ← configuration_if (is_zero (me_default_max_output_tokens e))
        "catalog default output limit must be positive";
  configuration_if
    (match me_default_max_output_tokens e, ml_max_output_tokens (me_limits e) with
     | Some default, Some maximum => maximum <? default
     | _, _ => false
     end) "catalog default output tokens exceed the exact model limit".

Definition capability_fields : list string :=
  ["capabilities.function_tools";
   "capabilities.tool_choice_required";
   "capabilities.tool_choice_specific";
   "capabilities.parallel_tool_calls";
   "capabilities.strict_tools";
   "capabilities.vision_input";
   "capabilities.image_detail_original";
   "capabilities.response_format_json_object";
   "capabilities.response_format_json_schema";
   "capabilities.reasoning_efforts";
   "capabilities.adaptive_thinking";
   "capabilities.adaptive_thinking_effort"].
Definition limit_names : list string :=
  ["limits.context_window_tokens";
   "limits.max_output_tokens";
   "limits.max_messages";
   "limits.max_tools";
   "limits.max_images";
   "limits.max_schema_bytes"].
Definition provenance_fields : list string :=
  ["provider_model_id"; "deployment_id"; "wire_model_value"; "display_name"; "protocol_id"]
  ++ capability_fields ++ limit_names
  ++ ["default_max_output_tokens"; "pricing"; "support_status"].

Definition set_provenance (p : gmap string CatalogSource) (e : ModelEntry) : ModelEntry :=
  mk_model_entry (me_key e) (me_provider_model_id e) (me_deployment_id e) (me_wire_model_value e)
    (me_display_name e) (me_protocol_id e) (me_capabilities e) (me_limits e)
    (me_default_max_output_tokens e) (me_pricing e) (me_source e) (me_support_status e) p.
Definition seed_provenance (e : ModelEntry) : ModelEntry :=
  set_provenance
    (foldl (fun p field => match p !! field with Some _ => p | None => <[field := me_source e]> p end)
       (me_provenance e) provenance_fields) e.
Definition field_source (e : ModelEntry) (field : string) : option CatalogSource :=
  me_provenance e !! field.

(** ** Merge: [merge.rs] *)
Definition is_known (s : CapabilityStatus.t) : bool := match s with Unknown => false | _ => true end.
Definition known_status (base overlay : CapabilityStatus.t) : CapabilityStatus.t :=
  if is_known overlay then overlay else base.
Definition efforts_known (s : ReasoningEffortSupport) : bool :=
  match s with EffortUnknown => false | _ => true end.
Definition known_limit (base overlay : option Z) : option Z :=
  match overlay with Some _ => overlay | None => base end.

(** [copy_source], on the provenance of the base. *)
Definition copy_source (overlay : ModelEntry) (field : string) (p : gmap string CatalogSource)
  : gmap string CatalogSource :=
  <[field := default (me_source overlay) (field_source overlay field)]> p.
Definition copy_if (b : bool) (overlay : ModelEntry) (field : string) (p : gmap string CatalogSource)
  : gmap string CatalogSource := if b then copy_source overlay field p else p.

Definition merge_capabilities (b o : CatalogCapabilities) : CatalogCapabilities :=
  mk_catalog_capabilities
    (known_status (cc_function_tools b) (cc_function_tools o))
    (known_status (cc_tool_choice_required b) (cc_tool_choice_required o))
    (known_status (cc_tool_choice_specific b) (cc_tool_choice_specific o))
    (known_status (cc_parallel_tool_calls b) (cc_parallel_tool_calls o))
    (known_status (cc_strict_tools b) (cc_strict_tools o))
    (known_status (cc_vision_input b) (cc_vision_input o))
    (known_status (cc_image_detail_original b) (cc_image_detail_original o))
    (known_status (cc_response_format_json_object b) (cc_response_format_json_object o))
    (known_status (cc_response_format_json_schema b) (cc_response_format_json_schema o))
    (if efforts_known (cc_reasoning_efforts o) then cc_reasoning_efforts o else cc_reasoning_efforts b)
    (known_status (cc_adaptive_thinking b) (cc_adaptive_thinking o))
    (known_status (cc_adaptive_thinking_effort b) (cc_adaptive_thinking_effort o)).
Definition capability_known (o : CatalogCapabilities) : list (string * bool) :=
  [("capabilities.function_tools", is_known (cc_function_tools o));
   ("capabilities.tool_choice_required", is_known (cc_tool_choice_required o));
   ("capabilities.tool_choice_specific", is_known (cc_tool_choice_specific o));
   ("capabilities.parallel_tool_calls", is_known (cc_parallel_tool_calls o));
   ("capabilities.strict_tools", is_known (cc_strict_tools o));
   ("capabilities.vision_input", is_known (cc_vision_input o));
   ("capabilities.image_detail_original", is_known (cc_image_detail_original o));
   ("capabilities.response_format_json_object", is_known (cc_response_format_json_object o));
   ("capabilities.response_format_json_schema", is_known (cc_response_format_json_schema o));
   ("capabilities.reasoning_efforts", efforts_known (cc_reasoning_efforts o));
   ("capabilities.adaptive_thinking", is_known (cc_adaptive_thinking o));
   ("capabilities.adaptive_thinking_effort", is_known (cc_adaptive_thinking_effort o))].
Definition merge_limits (b o : ModelLimits) : ModelLimits :=
  mk_model_limits
    (known_limit (ml_context_window_tokens b) (ml_context_window_tokens o))
    (known_limit (ml_max_output_tokens b) (ml_max_output_tokens o))
    (known_limit (ml_max_messages b) (ml_max_messages o))
    (known_limit (ml_max_tools b) (ml_max_tools o))
    (known_limit (ml_max_images b) (ml_max_images o))
    (known_limit (ml_max_schema_bytes b) (ml_max_schema_bytes o)).
Definition some {A} (o : option A) : bool := match o with Some _ => true | None => false end.
Definition limit_known (o : ModelLimits) : list (string * bool) :=
  [("limits.context_window_tokens", some (ml_context_window_tokens o));
   ("limits.max_output_tokens", some (ml_max_output_tokens o));
   ("limits.max_messages", some (ml_max_messages o));
   ("limits.max_tools", some (ml_max_tools o));
   ("limits.max_images", some (ml_max_images o));
   ("limits.max_schema_bytes", some (ml_max_schema_bytes o))].

(** The fields whose evidence the overlay replaces. *)
Definition replaced_fields (o : ModelEntry) : list (string * bool) :=
  [("provider_model_id", true); ("wire_model_value", true); ("display_name", true);
   ("protocol_id", true); ("deployment_id", some (me_deployment_id o))]
  ++ capability_known (me_capabilities o) ++ limit_known (me_limits o)
  ++ [("default_max_output_tokens", some (me_default_max_output_tokens o));
      ("pricing", some (me_pricing o)); ("support_status", is_known (me_support_status o))].
Definition merge_entry (b o : ModelEntry) : ModelEntry :=
  mk_model_entry (me_key b) (me_provider_model_id o)
    (match me_deployment_id o with Some d => Some d | None => me_deployment_id b end)
    (me_wire_model_value o)
    (if str_is_empty (me_display_name o) then me_display_name b else me_display_name o)
    (me_protocol_id o)
    (merge_capabilities (me_capabilities b) (me_capabilities o))
    (merge_limits (me_limits b) (me_limits o))
    (match me_default_max_output_tokens o with
     | Some n => Some n
     | None => me_default_max_output_tokens b
     end)
    (match me_pricing o with Some p => Some p | None => me_pricing b end)
    (me_source o) (known_status (me_support_status b) (me_support_status o))
    (foldl (fun p (f : string * bool) => copy_if f.2 o f.1 p) (me_provenance b) (replaced_fields o)).

(** A [BTreeMap] by key; its iteration is by increasing key. *)
Abbreviation ModelCatalog := (gmap ModelKey ModelEntry).
Definition key_le (a b : ModelKey) : Prop :=
  let '(p, q, m) := a in let '(p', q', m') := b in
  match String.compare p p' with
  | Lt => True | Gt => False
  | Eq => match String.compare q q' with
          | Lt => True | Gt => False
          | Eq => match String.compare m m' with Gt => False | _ => True end
          end
  end.
#[global] Instance key_le_dec : RelDecision key_le.
Proof. intros [[p q] m] [[p' q'] m']. unfold Decision, key_le. repeat case_match; auto. Defined.
Definition entries (c : ModelCatalog) : list ModelEntry :=
  omap (fun k => c !! k) (merge_sort key_le (elements (dom c))).

Definition catalog_insert (c : ModelCatalog) (e : ModelEntry) : result LlmError ModelCatalog :=
  _ ← validate_entry e;
  let e := seed_provenance e in
  match c !! me_key e with
  | Some _ => configuration "duplicate exact catalog key"
  | None => Ok (<[me_key e := e]> c)
  end.
Definition from_entries (l : list ModelEntry) : result LlmError ModelCatalog :=
  fold_ok (fun e c => catalog_insert c e) l ∅.
Definition merge_one (e : ModelEntry) (c : ModelCatalog) : result LlmError ModelCatalog :=
  match c !! me_key e with
  | Some previous =>
      let merged := merge_entry previous e in
      _ ← validate_entry merged; Ok (<[me_key e := merged]> c)
  | None => catalog_insert c e
  end.
Definition catalog_merge (layers : list ModelCatalog) : result LlmError ModelCatalog :=
  fold_ok (fun layer c => fold_ok merge_one (entries layer) c) layers ∅.
