(* ===== verification/CatalogSpec.v ===== *)
(** * Properties of the model catalog

    Every catalog is well keyed, valid and has evidence for each fact; a merge
    gives each model the last known fact of its layers. *)
From S2P Require Import Prelude Errors Usage Domain Structured ChatWire Schema SchemaCompile Options History Request RequestSpec Contract Catalog.
Import CapabilityStatus.

(** ** The invariant *)
Record entry_ok (k : ModelKey) (e : ModelEntry) : Prop := {
  eo_key : me_key e = k;
  eo_valid : validate_entry e = Ok tt;
  eo_sources : Forall (fun f => is_Some (field_source e f)) provenance_fields }.
Definition catalog_ok (c : ModelCatalog) : Prop := map_Forall entry_ok c.

Lemma seed_keeps fields source (p : gmap string CatalogSource) f s :
  p !! f = Some s ->
  foldl (fun p field => match p !! field with Some _ => p | None => <[field := source]> p end) p fields
    !! f = Some s.
Proof.
  revert p. induction fields as [|g fields IH]; intros p Hp; simpl; [done|]. apply IH.
  destruct (p !! g) eqn:Hg; [done|]. rewrite lookup_insert_ne; [done|]. intros ->. congruence.
Qed.
Lemma seed_all fields source (p : gmap string CatalogSource) :
  Forall (fun f => is_Some
    (foldl (fun p field => match p !! field with Some _ => p | None => <[field := source]> p end) p fields
       !! f)) fields.
Proof.
  revert p. induction fields as [|g fields IH]; intros p; simpl; [constructor|]. constructor; [|apply IH].
  destruct (p !! g) eqn:Hg; [by erewrite seed_keeps|].
  erewrite seed_keeps; [done|]. apply lookup_insert_eq.
Qed.
Lemma seed_complete e :
  Forall (fun f => is_Some (field_source (seed_provenance e) f)) provenance_fields.
Proof. apply seed_all. Qed.
(** Seeding changes nothing once every field has its evidence. *)
Lemma seed_id e : Forall (fun f => is_Some (field_source e f)) provenance_fields -> seed_provenance e = e.
Proof.
  intros H. unfold seed_provenance. assert (forall fields (p : gmap string CatalogSource),
    Forall (fun f => is_Some (p !! f)) fields ->
    foldl (fun p field => match p !! field with Some _ => p | None => <[field := me_source e]> p end)
      p fields = p) as Hfold.
  { induction fields as [|g fields IH]; intros p; simpl; [done|].
    intros [[s Hs] Hf]%Forall_cons. rewrite Hs. by apply IH. }
  rewrite Hfold by done. by destruct e.
Qed.

Lemma copy_keeps o fields p f :
  is_Some (p !! f) ->
  is_Some (foldl (fun p (f : string * bool) => copy_if f.2 o f.1 p) p fields !! f).
Proof.
  revert p. induction fields as [|[g b] fields IH]; intros p Hp; simpl; [done|]. apply IH.
  unfold copy_if, copy_source. destruct b; [|done].
  destruct (decide (g = f)) as [->|]; [by rewrite lookup_insert_eq|by rewrite lookup_insert_ne].
Qed.

Lemma insert_ok c e c' : catalog_ok c -> catalog_insert c e = Ok c' ->
  c !! me_key e = None /\ c' = <[me_key e := seed_provenance e]> c /\ catalog_ok c'.
Proof.
  intros Hc. unfold catalog_insert. rewrite then_ok. intros [Hv H]. simpl in H.
  change (me_key (seed_provenance e)) with (me_key e) in H.
  destruct (c !! me_key e) eqn:Hk; [done|]. injection H as <-. split_and!; [done|done|].
  apply map_Forall_insert_2; [|done]. split; [done|exact Hv|apply seed_complete].
Qed.
Definition step (previous : option ModelEntry) (e : ModelEntry) : ModelEntry :=
  match previous with Some p => merge_entry p e | None => seed_provenance e end.
Lemma merge_one_ok e c c' : catalog_ok c -> merge_one e c = Ok c' ->
  c' = <[me_key e := step (c !! me_key e) e]> c /\ catalog_ok c'.
Proof.
  intros Hc. unfold merge_one. destruct (c !! me_key e) as [p|] eqn:Hk.
  - rewrite then_ok. intros [Hv [= <-]]. split; [done|]. apply map_Forall_insert_2; [|done].
    destruct (Hc _ _ Hk) as [Hkey _ Hs]. split; [done|done|].
    eapply Forall_impl; [exact Hs|]. intros f Hf. by apply copy_keeps.
  - intros H. by destruct (insert_ok _ _ _ Hc H) as (_ & -> & ?).
Qed.

(** ** Layers *)
Lemma fold_merge_ok l c c' :
  catalog_ok c -> NoDup (map me_key l) -> fold_ok merge_one l c = Ok c' ->
  catalog_ok c' /\
  (forall e, e ∈ l -> c' !! me_key e = Some (step (c !! me_key e) e)) /\
  (forall k, k ∉ map me_key l -> c' !! k = c !! k).
Proof.
  revert c. induction l as [|e l IH]; intros c Hc; simpl.
  - intros _ [= <-]. split_and!; [done|by intros e []%elem_of_nil|done].
  - intros [He Hnd]%NoDup_cons. rewrite bind_ok. intros (c1 & H1 & H2).
    destruct (merge_one_ok _ _ _ Hc H1) as [-> Hc1].
    destruct (IH _ Hc1 Hnd H2) as (Hc' & Hin & Hout). split_and!; [done| |].
    + intros e' [->|He']%elem_of_cons; [by rewrite Hout, lookup_insert_eq|].
      rewrite (Hin e' He'), lookup_insert_ne; [done|]. intros Heq. apply He. rewrite Heq.
      by apply list_elem_of_fmap_2.
    + intros k [Hk Hks]%not_elem_of_cons. rewrite Hout by done. by rewrite lookup_insert_ne.
Qed.

Lemma entries_spec c e : catalog_ok c -> e ∈ entries c <-> c !! me_key e = Some e.
Proof.
  intros Hc. unfold entries. rewrite list_elem_of_omap. split.
  - intros (k & _ & Hk). by rewrite (eo_key _ _ (Hc _ _ Hk)).
  - intros He. exists (me_key e). split; [|done]. rewrite merge_sort_Permutation.
    apply elem_of_elements, elem_of_dom. eauto.
Qed.
Lemma entries_nodup c : catalog_ok c -> NoDup (map me_key (entries c)).
Proof.
  intros Hc. unfold entries.
  assert (forall ks : list ModelKey, NoDup ks ->
    NoDup (map me_key (omap (fun k => c !! k) ks)) /\
    forall k, k ∈ map me_key (omap (fun k => c !! k) ks) -> k ∈ ks) as H.
  { induction ks as [|k ks IH]; simpl; [split; [constructor|done]|].
    intros [Hk Hnd]%NoDup_cons. destruct (IH Hnd) as [Hn Hsub].
    destruct (c !! k) as [e|] eqn:He; simpl; [|split; [done|by right; auto]].
    pose proof (eo_key _ _ (Hc _ _ He)) as Hkey. rewrite Hkey. split.
    - constructor; [|done]. intros ?. apply Hk. auto.
    - intros k' [->|?]%elem_of_cons; [by left|right; auto]. }
  apply H. rewrite merge_sort_Permutation. apply NoDup_elements.
Qed.

(** The entries of the layers for one model. *)
Definition stacked (layers : list ModelCatalog) (k : ModelKey) : list ModelEntry :=
  omap (fun c : ModelCatalog => c !! k) layers.
Definition combined (acc : option ModelEntry) (es : list ModelEntry) : option ModelEntry :=
  foldl (fun acc e => Some (step acc e)) acc es.
Lemma fold_layers_ok layers c c' :
  catalog_ok c -> Forall catalog_ok layers ->
  fold_ok (fun layer c => fold_ok merge_one (entries layer) c) layers c = Ok c' ->
  catalog_ok c' /\ forall k, c' !! k = combined (c !! k) (stacked layers k).
Proof.
  revert c. induction layers as [|layer layers IH]; intros c Hc; simpl.
  - intros _ [= <-]. done.
  - intros [Hl Hls]%Forall_cons. rewrite bind_ok. intros (c1 & H1 & H2).
    destruct (fold_merge_ok _ _ _ Hc (entries_nodup _ Hl) H1) as (Hc1 & Hin & Hout).
    destruct (IH _ Hc1 Hls H2) as [Hc' Hk]. split; [done|]. intros k. rewrite Hk.
    unfold combined, stacked. simpl. destruct (layer !! k) as [e|] eqn:He; simpl.
    + pose proof (eo_key _ _ (Hl _ _ He)) as <-. rewrite (Hin e); [done|]. by apply entries_spec.
    + rewrite Hout; [done|]. intros (e & -> & Hin')%list_elem_of_fmap.
      apply entries_spec in Hin'; [|done]. congruence.
Qed.
Lemma combined_some es p : combined (Some p) es = Some (foldl merge_entry p es).
Proof. unfold combined. revert p. by induction es as [|e es IH]; intros p; simpl. Qed.

(** ** Facts *)

(** A fact of an entry: its name in the provenance, whether the entry knows it,
    and agreement of two entries on it. *)
Record Fact := mk_fact {
  fa_name : string; fa_known : ModelEntry -> bool; fa_same : ModelEntry -> ModelEntry -> Prop }.
Definition fact {A} (name : string) (known : A -> bool) (proj : ModelEntry -> A) : Fact :=
  mk_fact name (fun e => known (proj e)) (fun e e' => proj e = proj e').
Definition always (_ : string) : bool := true.
Definition facts : list Fact :=
  [fact "capabilities.function_tools" is_known (fun e : ModelEntry => cc_function_tools (me_capabilities e));
   fact "capabilities.tool_choice_required" is_known (fun e : ModelEntry => cc_tool_choice_required (me_capabilities e));
   fact "capabilities.tool_choice_specific" is_known (fun e : ModelEntry => cc_tool_choice_specific (me_capabilities e));
   fact "capabilities.parallel_tool_calls" is_known (fun e : ModelEntry => cc_parallel_tool_calls (me_capabilities e));
   fact "capabilities.strict_tools" is_known (fun e : ModelEntry => cc_strict_tools (me_capabilities e));
   fact "capabilities.vision_input" is_known (fun e : ModelEntry => cc_vision_input (me_capabilities e));
   fact "capabilities.image_detail_original" is_known (fun e : ModelEntry => cc_image_detail_original (me_capabilities e));
   fact "capabilities.response_format_json_object" is_known (fun e : ModelEntry => cc_response_format_json_object (me_capabilities e));
   fact "capabilities.response_format_json_schema" is_known (fun e : ModelEntry => cc_response_format_json_schema (me_capabilities e));
   fact "capabilities.adaptive_thinking" is_known (fun e : ModelEntry => cc_adaptive_thinking (me_capabilities e));
   fact "capabilities.adaptive_thinking_effort" is_known (fun e : ModelEntry => cc_adaptive_thinking_effort (me_capabilities e));
   fact "capabilities.reasoning_efforts" efforts_known (fun e : ModelEntry => cc_reasoning_efforts (me_capabilities e));
   fact "limits.context_window_tokens" (@some Z) (fun e : ModelEntry => ml_context_window_tokens (me_limits e));
   fact "limits.max_output_tokens" (@some Z) (fun e : ModelEntry => ml_max_output_tokens (me_limits e));
   fact "limits.max_messages" (@some Z) (fun e : ModelEntry => ml_max_messages (me_limits e));
   fact "limits.max_tools" (@some Z) (fun e : ModelEntry => ml_max_tools (me_limits e));
   fact "limits.max_images" (@some Z) (fun e : ModelEntry => ml_max_images (me_limits e));
   fact "limits.max_schema_bytes" (@some Z) (fun e : ModelEntry => ml_max_schema_bytes (me_limits e));
   fact "deployment_id" some me_deployment_id;
   fact "default_max_output_tokens" some me_default_max_output_tokens;
   fact "pricing" some me_pricing;
   fact "support_status" is_known me_support_status;
   fact "provider_model_id" always me_provider_model_id;
   fact "wire_model_value" always me_wire_model_value;
   fact "display_name" always me_display_name;
   fact "protocol_id" always me_protocol_id].

Definition lawful (f : Fact) : Prop :=
  (forall b o, validate_entry o = Ok tt -> fa_same f (merge_entry b o) (if fa_known f o then o else b)) /\
  (forall e, fa_same f e e) /\
  (forall e e' e'', fa_same f e e' -> fa_same f e' e'' -> fa_same f e e'') /\
  (forall o, (fa_name f, fa_known f o) ∈ replaced_fields o) /\ fa_name f ∈ provenance_fields.

Lemma fact_lawful {A} name (known : A -> bool) (proj : ModelEntry -> A) :
  (forall b o, validate_entry o = Ok tt -> proj (merge_entry b o) = if known (proj o) then proj o else proj b) ->
  (forall o, (name, known (proj o)) ∈ replaced_fields o) ->
  bool_decide (name ∈ provenance_fields) = true -> lawful (fact name known proj).
Proof.
  intros Hm Hr Hp. split_and!; simpl; [|done|congruence|done|by apply bool_decide_eq_true in Hp].
  intros b o Hv. rewrite Hm by done. by destruct (known (proj o)).
Qed.

(** A valid entry has a display name, so the base's never stays. *)
Lemma display_name_merges b o : validate_entry o = Ok tt -> me_display_name (merge_entry b o) = me_display_name o.
Proof.
  unfold validate_entry. destruct (me_key o) as [[? ?] ?]. rewrite then_ok. intros [_ H]. apply then_ok in H as [H _].
  simpl. unfold str_is_empty. by destruct (me_display_name o).
Qed.
Lemma facts_lawful : Forall lawful facts.
Proof.
  unfold facts. repeat (apply Forall_cons; split); [..|constructor]; apply fact_lawful;
    try (by vm_compute); try exact display_name_merges; intros; unfold replaced_fields, capability_known, limit_known;
    try (simpl; set_solver); simpl;
    unfold known_status, known_limit, merge_capabilities; simpl; by repeat case_match.
Qed.

Definition replaced_names : list string :=
  ["provider_model_id"; "wire_model_value"; "display_name"; "protocol_id"; "deployment_id"]
  ++ capability_fields ++ limit_names ++ ["default_max_output_tokens"; "pricing"; "support_status"].
Lemma replaced_names_eq o : map fst (replaced_fields o) = replaced_names.
Proof. reflexivity. Qed.
Lemma replaced_nodup o : NoDup (map fst (replaced_fields o)).
Proof. rewrite replaced_names_eq. apply (bool_decide_unpack _). by vm_compute. Qed.

Lemma copy_lookup (o : ModelEntry) (fields : list (string * bool)) p name (b : bool) :
  NoDup (map fst fields) -> (name, b) ∈ fields ->
  foldl (fun p (f : string * bool) => copy_if f.2 o f.1 p) p fields !! name =
  if b then Some (default (me_source o) (field_source o name)) else p !! name.
Proof.
  revert p. induction fields as [|[g c] fields IH]; intros p; simpl; [by intros _ []%elem_of_nil|].
  intros [Hg Hnd]%NoDup_cons [[= -> ->]|Hin]%elem_of_cons.
  - assert (forall fields p, g ∉ map fst fields ->
      foldl (fun p (f : string * bool) => copy_if f.2 o f.1 p) p fields !! g = p !! g) as Hother.
    { induction fields0 as [|[h d] fs IHf]; intros q; simpl; [done|].
      intros [Hh Hhs]%not_elem_of_cons. rewrite IHf by done. unfold copy_if, copy_source.
      destruct d; [|done]. by rewrite lookup_insert_ne. }
    rewrite Hother by done. unfold copy_if, copy_source. destruct c; [by rewrite lookup_insert_eq|done].
  - rewrite IH by done. destruct b; [done|]. unfold copy_if, copy_source. destruct c; [|done].
    rewrite lookup_insert_ne; [done|]. intros ->. apply Hg. by apply (list_elem_of_fmap_2 fst _ _ Hin).
Qed.
(** The evidence of a fact comes with it. *)
Lemma merge_source f b o :
  lawful f -> is_Some (field_source o (fa_name f)) ->
  field_source (merge_entry b o) (fa_name f) =
  field_source (if fa_known f o then o else b) (fa_name f).
Proof.
  intros (_ & _ & _ & Hr & _) [s Hs]. unfold field_source in *.
  change (me_provenance (merge_entry b o))
    with (foldl (fun p (f : string * bool) => copy_if f.2 o f.1 p) (me_provenance b) (replaced_fields o)).
  rewrite (copy_lookup o _ _ _ (fa_known f o) (replaced_nodup o) (Hr o)).
  unfold field_source. rewrite Hs. by destruct (fa_known f o).
Qed.

(** The last layer that knows a fact, or the first layer. *)
Definition teller (f : Fact) (first : ModelEntry) (rest : list ModelEntry) : ModelEntry :=
  default first (last (List.filter (fa_known f) rest)).
Lemma teller_cons f first e rest :
  teller f first (e :: rest) = teller f (if fa_known f e then e else first) rest.
Proof.
  unfold teller. simpl. destruct (fa_known f e); [|done].
  rewrite last_cons. by destruct (last (List.filter (fa_known f) rest)).
Qed.
Definition told (f : Fact) (m t : ModelEntry) : Prop :=
  fa_same f m t /\ field_source m (fa_name f) = field_source t (fa_name f).
Lemma told_teller f first rest k :
  lawful f -> Forall (entry_ok k) rest ->
  forall acc, told f acc first -> told f (foldl merge_entry acc rest) (teller f first rest).
Proof.
  intros Hf. revert first. induction rest as [|e rest IH]; intros first; simpl; [done|].
  intros [He Hrest]%Forall_cons acc [Hs Hsrc]. rewrite teller_cons. apply IH; [done|].
  pose proof Hf as (Hm & Hrefl & Htr & Hr & Hp).
  assert (is_Some (field_source e (fa_name f))) as Hsome.
  { pose proof (eo_sources _ _ He) as Hall. rewrite Forall_forall in Hall. by apply Hall. }
  split.
  - eapply Htr; [apply Hm, (eo_valid _ _ He)|]. by destruct (fa_known f e).
  - rewrite merge_source by done. by destruct (fa_known f e).
Qed.

Lemma stacked_ok layers k : Forall catalog_ok layers -> Forall (entry_ok k) (stacked layers k).
Proof.
  intros H. apply Forall_forall. intros e (c & Hc & He)%list_elem_of_omap.
  rewrite Forall_forall in H. by apply (H c Hc).
Qed.

Lemma merged_source rest : forall first, me_source (foldl merge_entry first rest) = me_source (default first (last rest)).
Proof.
  induction rest as [|e rest IH]; intros first; [done|]. cbn [foldl]. rewrite IH, last_cons. by destruct (last rest).
Qed.

(** C38. Merging catalogs gives each model the last known facts of its layers,
    each with the evidence of the layer it comes from: the model identifiers, the
    display name and the protocol are the last layer's, of the other fields what
    no layer knows stays as the first layer has it. The source of the entry is
    the last layer's; a model is in the result exactly when it is in a layer, and
    every entry of the result is valid, under its own key and has evidence for
    every field. *)
Theorem catalog_merge_exact layers c :
  Forall catalog_ok layers -> catalog_merge layers = Ok c ->
  catalog_ok c /\
  forall k, match stacked layers k with
            | [] => c !! k = None
            | first :: rest =>
                exists m, c !! k = Some m /\ Forall (fun f => told f m (teller f first rest)) facts /\
                  me_source m = me_source (default first (last rest))
            end.
Proof.
  intros Hl H. destruct (fold_layers_ok layers ∅ c (map_Forall_empty _) Hl H) as [Hc Hk].
  split; [done|]. intros k. specialize (Hk k). pose proof (stacked_ok layers k Hl) as Hs.
  destruct (stacked layers k) as [|first rest]; [exact Hk|]. apply Forall_cons in Hs as [Hf Hr].
  unfold combined in Hk. simpl in Hk. fold (combined (Some (seed_provenance first)) rest) in Hk.
  rewrite lookup_empty in Hk. simpl in Hk. rewrite (seed_id first (eo_sources _ _ Hf)) in Hk.
  fold (combined (Some first) rest) in Hk. rewrite combined_some in Hk. eexists. split; [exact Hk|].
  split; [|apply merged_source]. eapply Forall_impl; [apply facts_lawful|]. intros f Hlaw.
  apply (told_teller f first rest k Hlaw Hr). split; [apply Hlaw|done].
Qed.
(** The facts are every field with evidence. *)
Lemma facts_complete : map fa_name facts ≡ₚ provenance_fields.
Proof. apply (bool_decide_unpack _). by vm_compute. Qed.

(** Every catalog that is built from entries is valid, keyed by its entries'
    own keys and complete in its evidence, and has exactly the given models. *)
Theorem catalog_build_invariant l c :
  from_entries l = Ok c ->
  catalog_ok c /\ NoDup (map me_key l) /\ dom c = list_to_set (map me_key l).
Proof.
  unfold from_entries. assert (forall l c c', catalog_ok c ->
    fold_ok (fun e c => catalog_insert c e) l c = Ok c' ->
    catalog_ok c' /\ NoDup (map me_key l) /\ (forall k, k ∈ map me_key l -> c !! k = None) /\
    dom c' = list_to_set (map me_key l) ∪ dom c) as H.
  { clear l c. induction l as [|e l IH]; intros c c' Hc; simpl.
    - intros [= <-]. split_and!; [done|constructor|by intros k []%elem_of_nil|set_solver].
    - rewrite bind_ok. intros (c1 & H1 & H2). destruct (insert_ok _ _ _ Hc H1) as (Hnone & -> & Hc1).
      destruct (IH _ _ Hc1 H2) as (Hc' & Hnd & Hfresh & Hdom). split_and!; [done| | |].
      + constructor; [|done]. intros Hin%Hfresh. by rewrite lookup_insert_eq in Hin.
      + intros k [->|Hin]%elem_of_cons; [done|]. apply Hfresh in Hin.
        by apply lookup_insert_None in Hin as [? _].
      + rewrite Hdom, dom_insert_L. set_solver. }
  intros Hl. destruct (H l ∅ c (map_Forall_empty _) Hl) as (Hc & Hnd & _ & Hdom).
  split_and!; [done|done|]. rewrite Hdom. set_solver.
Qed.

(** ** Samples *)
Definition sample_source (id : string) : CatalogSource := mk_catalog_source id "2026-01-01" None.
Definition sample_entry (id : string) (tools : CapabilityStatus.t) (maximum : option Z) : ModelEntry :=
  mk_model_entry ("acme", "chat", "m1") "m1" None "m1" "Model 1" "openai-chat-completions"
    (mk_catalog_capabilities tools Unknown Unknown Unknown Unknown Unknown Unknown Unknown Unknown
       EffortUnknown Unknown Unknown)
    (mk_model_limits None maximum None None None None) (Some 100) None (sample_source id) Supported ∅.
Definition layer (e : ModelEntry) : ModelCatalog := {[me_key e := seed_provenance e]}.

Lemma catalog_build_invariant_witness :
  exists c, from_entries [sample_entry "vendor" Supported (Some 200)] = Ok c /\ catalog_ok c.
Proof.
  eexists. split; [reflexivity|].
  apply (catalog_build_invariant [sample_entry "vendor" Supported (Some 200)]). reflexivity.
Defined.

(** The second layer knows a limit and not the tools. *)
Definition vendor : ModelEntry := sample_entry "vendor" Supported None.
Definition review : ModelEntry := sample_entry "review" Unknown (Some 200).
Lemma layer_ok e : validate_entry e = Ok tt -> catalog_ok (layer e).
Proof. intros Hv. apply map_Forall_singleton. split; [done|exact Hv|apply seed_complete]. Qed.
Example layers_stack :
  stacked [layer vendor; layer review] ("acme", "chat", "m1")
  = [seed_provenance vendor; seed_provenance review].
Proof. reflexivity. Qed.

Example layers_merge : is_ok (catalog_merge [layer vendor; layer review]) = true.
Proof. vm_compute. reflexivity. Qed.
Lemma catalog_merge_exact_witness :
  exists c m, catalog_merge [layer vendor; layer review] = Ok c /\ c !! ("acme", "chat", "m1") = Some m /\
    Forall (fun f => told f m (teller f (seed_provenance vendor) [seed_provenance review])) facts /\
    me_source m = sample_source "review".
Proof.
  pose proof layers_merge as Hok.
  destruct (catalog_merge [layer vendor; layer review]) as [c|e] eqn:E; [|discriminate Hok].
  destruct (catalog_merge_exact [layer vendor; layer review] c) as [_ H].
  - constructor; [apply layer_ok; reflexivity|]. constructor; [apply layer_ok; reflexivity|constructor].
  - exact E.
  - specialize (H ("acme", "chat", "m1")). rewrite layers_stack in H. destruct H as (m & Hm & Hf).
    exists c, m. split; [reflexivity|]. split; [exact Hm|exact Hf].
Defined.
