(* ===== verification/ChatRequest.v ===== *)
(** * Chat request bodies

    [src/src/protocol/openai_chat/{request,wire,tool_wire,structured_wire}.rs] and
    [compat/request.rs]: a planned request becomes wire types, which are written
    as a JSON tree in the order of their fields. *)
From Stdlib Require Import SpecFloat.
From S2P Require Import Prelude Errors Domain Images Structured ChatWire Schema Options History Request Serialize Contract.

(** ** Compatibility hooks: [compat/request.rs] *)
Definition output_token_fields (value : option Z) (format : MaxOutputTokensWireFormat)
  : option Z * option Z :=
  match format with
  | MaxCompletionTokens => (value, None)
  | MaxTokens => (None, value)
  end.
Definition tool_result_name (name : string) (policy : ToolResultNamePolicy.t) : option string :=
  match policy with
  | ToolResultNamePolicy.Omit => None
  | ToolResultNamePolicy.Include | ToolResultNamePolicy.Require => Some name
  end.

(** ** Wire types: [wire.rs] *)
Module ImageDetailWire.
Inductive t := Low | High | Original.
End ImageDetailWire.
Record ImageUrlWire := mk_image_url { iu_url : string; iu_detail : option ImageDetailWire.t }.
Definition image_url_new (url : string) (detail : ImageDetail) : ImageUrlWire :=
  mk_image_url url
    match detail with
    | Domain.Auto => None
    | Domain.Low => Some ImageDetailWire.Low
    | Domain.High => Some ImageDetailWire.High
    | Domain.Original => Some ImageDetailWire.Original
    end.
Inductive MessageContentPartWire := WPText (text : string) | WPImageUrl (image_url : ImageUrlWire).
Inductive MessageContentWire :=
| WText (s : string) | WOwnedText (s : string) | WParts (parts : list MessageContentPartWire).
Record AssistantFunctionCallWire := mk_function_call { fc_name : string; fc_arguments : string }.
Record AssistantToolCallWire := mk_call_wire { cwr_id : string; cwr_function : AssistantFunctionCallWire }.
Definition tool_call_wire_new (id name arguments : string) : AssistantToolCallWire :=
  mk_call_wire id (mk_function_call name arguments).

Record MessageWire := mk_message_wire {
  mw_role : MessageRole.t; mw_content : option MessageContentWire;
  mw_tool_calls : option (list AssistantToolCallWire); mw_tool_call_id : option string;
  mw_name : option string }.
Definition message_wire_text (role : MessageRole.t) (content : string) : MessageWire :=
  mk_message_wire role (Some (WText content)) None None None.
Definition message_wire_parts (role : MessageRole.t) (parts : list MessageContentPartWire)
  : MessageWire := mk_message_wire role (Some (WParts parts)) None None None.
Definition message_wire_assistant (content : option MessageContentWire)
    (tool_calls : option (list AssistantToolCallWire)) : MessageWire :=
  mk_message_wire MessageRole.Assistant content tool_calls None None.
Definition message_wire_tool_result (tool_call_id content : string) (name : option string)
  : MessageWire :=
  mk_message_wire MessageRole.Tool (Some (WText content)) None (Some tool_call_id) name.

(** ** Tool wire types: [tool_wire.rs], [structured_wire.rs] *)
Record FunctionDefinitionWire := mk_function_definition {
  fdw_name : string; fdw_description : option string; fdw_parameters : json; fdw_strict : bool }.
Record ToolWire := mk_tool_wire { tw_function : FunctionDefinitionWire }.
Inductive ToolChoiceWire := ChoiceNone | ChoiceRequired | ChoiceSpecific (name : string).
Record JsonSchemaWire := mk_json_schema_wire {
  jw_name : string; jw_description : option string; jw_schema : json; jw_strict : bool }.
Module ResponseFormatWire.
Inductive t := JsonObject | JsonSchema (json_schema : JsonSchemaWire).
End ResponseFormatWire.

Record ChatCompletionRequestWire := mk_chat_request {
  cr_model : option string; cr_messages : list MessageWire; cr_stream : bool;
  cr_include_usage : bool; cr_n : Z; cr_temperature : option f64;
  cr_max_completion_tokens : option Z; cr_max_tokens : option Z; cr_tools : option (list ToolWire);
  cr_tool_choice : option ToolChoiceWire; cr_parallel_tool_calls : option bool;
  cr_response_format : option ResponseFormatWire.t; cr_reasoning_effort : option ReasoningEffort.t }.
Definition chat_request_new (model : option string) (messages : list MessageWire)
    (temperature : option f64) (max_completion_tokens : option Z) (tools : option (list ToolWire))
    (tool_choice : option ToolChoiceWire) (parallel_tool_calls : option bool)
    (response_format : option ResponseFormatWire.t) (reasoning_effort : option ReasoningEffort.t)
    (max_output_tokens_format : MaxOutputTokensWireFormat) (include_usage : bool)
  : ChatCompletionRequestWire :=
  let '(max_completion_tokens, max_tokens) :=
    output_token_fields max_completion_tokens max_output_tokens_format in
  mk_chat_request model messages true include_usage 1 temperature max_completion_tokens max_tokens
    tools tool_choice parallel_tool_calls response_format reasoning_effort.

(** ** Trees *)
Definition role_json (r : MessageRole.t) : json :=
  JString match r with
          | MessageRole.Developer => "developer" | MessageRole.System => "system"
          | MessageRole.User => "user" | MessageRole.Assistant => "assistant"
          | MessageRole.Tool => "tool"
          end.
Definition detail_json (d : ImageDetailWire.t) : json :=
  JString match d with
          | ImageDetailWire.Low => "low" | ImageDetailWire.High => "high"
          | ImageDetailWire.Original => "original"
          end.
Definition image_url_json (i : ImageUrlWire) : json :=
  JObject (req "url" (JString (iu_url i)) ++ opt "detail" detail_json (iu_detail i)).
Definition part_json (p : MessageContentPartWire) : json :=
  match p with
  | WPText text => JObject (req "type" (JString "text") ++ req "text" (JString text))
  | WPImageUrl i => JObject (req "type" (JString "image_url") ++ req "image_url" (image_url_json i))
  end.
Definition content_json (c : MessageContentWire) : json :=
  match c with
  | WText s | WOwnedText s => JString s
  | WParts parts => JArray (map part_json parts)
  end.
Definition call_json (c : AssistantToolCallWire) : json :=
  JObject (req "id" (JString (cwr_id c)) ++ req "type" (JString "function") ++
           req "function" (JObject (req "name" (JString (fc_name (cwr_function c))) ++
                                    req "arguments" (JString (fc_arguments (cwr_function c)))))).
Definition message_json (m : MessageWire) : json :=
  JObject (req "role" (role_json (mw_role m)) ++ opt "content" content_json (mw_content m) ++
           opt "tool_calls" (fun calls => JArray (map call_json calls)) (mw_tool_calls m) ++
           opt "tool_call_id" JString (mw_tool_call_id m) ++ opt "name" JString (mw_name m)).
Definition tool_json (t : ToolWire) : json :=
  let f := tw_function t in
  JObject (req "type" (JString "function") ++
           req "function"
             (JObject (req "name" (JString (fdw_name f)) ++
                       opt "description" JString (fdw_description f) ++
                       req "parameters" (fdw_parameters f) ++ req "strict" (JBool (fdw_strict f))))).
Definition tool_choice_json (c : ToolChoiceWire) : json :=
  match c with
  | ChoiceNone => JString "none"
  | ChoiceRequired => JString "required"
  | ChoiceSpecific name =>
      JObject (req "type" (JString "function") ++
               req "function" (JObject (req "name" (JString name))))
  end.
Definition json_schema_json (s : JsonSchemaWire) : json :=
  JObject (req "name" (JString (jw_name s)) ++ opt "description" JString (jw_description s) ++
           req "schema" (jw_schema s) ++ req "strict" (JBool (jw_strict s))).
Definition response_format_json (f : ResponseFormatWire.t) : json :=
  match f with
  | ResponseFormatWire.JsonObject => JObject (req "type" (JString "json_object"))
  | ResponseFormatWire.JsonSchema s =>
      JObject (req "type" (JString "json_schema") ++ req "json_schema" (json_schema_json s))
  end.
Definition effort_json (e : ReasoningEffort.t) : json :=
  JString match e with
          | ReasoningEffort.None_ => "none" | ReasoningEffort.Minimal => "minimal"
          | ReasoningEffort.Low => "low" | ReasoningEffort.Medium => "medium"
          | ReasoningEffort.High => "high" | ReasoningEffort.XHigh => "xhigh"
          | ReasoningEffort.Max => "max"
          end.
Definition chat_request_fields (r : ChatCompletionRequestWire) : list (string * json) :=
  opt "model" JString (cr_model r) ++
  req "messages" (JArray (map message_json (cr_messages r))) ++
  req "stream" (JBool (cr_stream r)) ++
  req "stream_options" (JObject (req "include_usage" (JBool (cr_include_usage r)))) ++
  req "n" (json_of_uint (cr_n r)) ++
  opt "temperature" json_of_f64 (cr_temperature r) ++
  opt "max_completion_tokens" json_of_uint (cr_max_completion_tokens r) ++
  opt "max_tokens" json_of_uint (cr_max_tokens r) ++
  opt "tools" (fun tools => JArray (map tool_json tools)) (cr_tools r) ++
  opt "tool_choice" tool_choice_json (cr_tool_choice r) ++
  opt "parallel_tool_calls" JBool (cr_parallel_tool_calls r) ++
  opt "response_format" response_format_json (cr_response_format r) ++
  opt "reasoning_effort" effort_json (cr_reasoning_effort r).
Definition chat_request_json (r : ChatCompletionRequestWire) : json := JObject (chat_request_fields r).

(** ** Tools *)
Fixpoint encode_tool_list (tools : list ToolDefinition) (index : Z) (capabilities : CapabilitySet)
  : result LlmError (list ToolWire) :=
  match tools with
  | [] => Ok []
  | tool :: tools =>
      strict ← (if td_strict tool
                then _ ← check_capability (at_tool index "strict") "strict_tools"
                           (cs_strict_tools capabilities);
                     Ok true
                else Ok false);
      encoded ← encode_tool_list tools (index + 1) capabilities;
      Ok (mk_tool_wire (mk_function_definition (td_name tool) (td_description tool)
            (schema_value (td_parameters tool)) strict) :: encoded)
  end.
Definition encode_tools (tools : list ToolDefinition) (capabilities : CapabilitySet)
  : result LlmError (option (list ToolWire)) :=
  if is_empty tools then Ok None
  else
    _ ← check_capability "tools" "function_tools" (cs_function_tools capabilities);
    encoded ← encode_tool_list tools 0 capabilities;
    Ok (Some encoded).
Definition encode_tool_choice (tools : list ToolDefinition) (choice : option ToolChoice.t)
    (capabilities : CapabilitySet) : result LlmError (option ToolChoiceWire) :=
  match choice with
  | None => Ok None
  | Some ToolChoice.Auto =>
      if is_empty tools then Err (protocol "auto tool choice requires at least one tool") else Ok None
  | Some ToolChoice.None_ => Ok (Some ChoiceNone)
  | Some ToolChoice.Required =>
      _ ← check_capability "tool_choice" "tool_choice_required" (cs_tool_choice_required capabilities);
      Ok (Some ChoiceRequired)
  | Some (ToolChoice.Specific name) =>
      _ ← check_capability "tool_choice" "tool_choice_specific" (cs_tool_choice_specific capabilities);
      Ok (Some (ChoiceSpecific name))
  end.
Definition encode_parallel_tool_calls (value : option ParallelToolCalls) (capabilities : CapabilitySet)
  : result LlmError (option bool) :=
  match value with
  | None => Ok None
  | Some value =>
      _ ← check_capability "parallel_tool_calls" "parallel_tool_calls"
            (cs_parallel_tool_calls capabilities);
      Ok (Some match value with Enabled => true | Disallowed => false end)
  end.
Definition json_schema_from_domain (s : StructuredSchema) : JsonSchemaWire :=
  mk_json_schema_wire (ss_name s) (ss_description s) (schema_value (ss_schema s)) (ss_strict s).
Definition response_format_from_domain (f : ResponseFormat) : option ResponseFormatWire.t :=
  match f with
  | FText => None
  | FJsonObject => Some ResponseFormatWire.JsonObject
  | FJsonSchema s => Some (ResponseFormatWire.JsonSchema (json_schema_from_domain s))
  end.
Definition encode_reasoning_effort (r : ThinkingRequest) : option ReasoningEffort.t :=
  match r with
  | ProviderDefault => None
  | Disabled => Some ReasoningEffort.None_
  | Effort e => Some e
  end.

(** ** Messages *)
Section Encoder.
Context {B : Base64} {JP : JsonPrinter}.

Definition encode_image_part (image : ImageContent) : result LlmError MessageContentPartWire :=
  url ← match img_source image with
        | ImgUrl url => Ok url
        | ImgDataUrl data_url =>
            _ ← map_err LlmError.Validation (decode_validated_data_url data_url); Ok data_url
        | ImgInline mime bytes => Ok (encode_inline_data_url mime bytes)
        end;
  Ok (WPImageUrl (image_url_new url (img_detail image))).

Definition single_text_of (message : Message) (index : Z) : result LlmError string :=
  match msg_content message with
  | [PText text] =>
      if str_is_empty text
      then invalid (at_message_content index) ValidationReason.TextPartCount
             "developer and system messages require exactly one non-empty text part"
      else Ok text
  | _ => invalid (at_message_content index) ValidationReason.TextPartCount
           "developer and system messages require exactly one non-empty text part"
  end.

Fixpoint encode_user_parts (parts : list ContentPart) : result LlmError (list MessageContentPartWire) :=
  match parts with
  | [] => Ok []
  | p :: parts =>
      w ← match p with
          | PText text => Ok (WPText text)
          | PImage image => encode_image_part image
          | _ => Err (protocol "user messages only accept text and image parts")
          end;
      ws ← encode_user_parts parts;
      Ok (w :: ws)
  end.
Definition encode_user_message (message : Message) : result LlmError MessageWire :=
  match msg_content message with
  | [] => Err (protocol "user message content is empty")
  | [PText text] =>
      if trim_is_empty text then Err (protocol "user text must contain non-whitespace")
      else Ok (message_wire_text MessageRole.User text)
  | parts => ws ← encode_user_parts parts; Ok (message_wire_parts MessageRole.User ws)
  end.

Definition encode_assistant_tool_call (call : ToolCall) : AssistantToolCallWire :=
  tool_call_wire_new (tc_id call) (tc_name call) (raw_json (tc_arguments call)).

(** The loop keeps the texts and calls it has pushed. *)
Fixpoint assistant_loop (parts : list ContentPart) (index part : Z) (texts : list string)
    (calls : list AssistantToolCallWire) (seen_tool_call : bool)
  : result LlmError (list string * list AssistantToolCallWire) :=
  match parts with
  | [] => Ok (texts, calls)
  | PText text :: parts =>
      if seen_tool_call then Err (protocol "assistant text after tool calls is not allowed")
      else assistant_loop parts index (part + 1) (texts ++ [text]) calls seen_tool_call
  | PToolCall call :: parts =>
      assistant_loop parts index (part + 1) texts (calls ++ [encode_assistant_tool_call call]) true
  | _ :: _ =>
      invalid (at_content index part) ValidationReason.TextPartCount
        "official assistant history only accepts text and tool calls"
  end.
Definition encode_assistant_message (message : Message) (index : Z) : result LlmError MessageWire :=
  '(texts, calls) ← assistant_loop (msg_content message) index 0 [] [] false;
  match calls, texts with
  | [], [] => Err (protocol "assistant message content is empty")
  | [], [text] => Ok (message_wire_text MessageRole.Assistant text)
  | [], _ => Ok (message_wire_assistant (Some (WOwnedText (String.concat "" texts))) None)
  | _, _ =>
      let content := match texts with
                     | [] => None
                     | [text] => Some (WText text)
                     | _ => Some (WOwnedText (String.concat "" texts))
                     end in
      Ok (message_wire_assistant content (Some calls))
  end.

Definition encode_message (message : Message) (index : Z) (name_policy : ToolResultNamePolicy.t)
  : result LlmError MessageWire :=
  match msg_role message with
  | MessageRole.Developer | MessageRole.System =>
      text ← single_text_of message index; Ok (message_wire_text (msg_role message) text)
  | MessageRole.User => encode_user_message message
  | MessageRole.Assistant => encode_assistant_message message index
  | MessageRole.Tool =>
      match msg_tool_result message with
      | None => Err (protocol "tool role message is missing a tool result payload")
      | Some r =>
          text ← match tr_content r with
                 | [PText text] =>
                     if str_is_empty text
                     then Err (protocol "official tool results require exactly one non-empty text part")
                     else Ok text
                 | _ => Err (protocol "official tool results require exactly one non-empty text part")
                 end;
          Ok (message_wire_tool_result (tr_tool_call_id r) text
                (tool_result_name (tr_tool_name r) name_policy))
      end
  end.
Fixpoint encode_messages (messages : list Message) (index : Z) (name_policy : ToolResultNamePolicy.t)
  : result LlmError (list MessageWire) :=
  match messages with
  | [] => Ok []
  | m :: messages =>
      w ← encode_message m index name_policy;
      ws ← encode_messages messages (index + 1) name_policy;
      Ok (w :: ws)
  end.

(** ** Bodies *)
Record RequestEncodingContext := mk_encoding_context {
  ec_model : option string; ec_messages : list Message; ec_options : GenerationOptions;
  ec_capabilities : ProviderCapabilities; ec_compat : RequestCompat;
  ec_tool_result_name : ToolResultNamePolicy.t; ec_default_max_output_tokens : option Z;
  ec_max_body_bytes : Z; ec_raw_extension : option RawFields }.

Definition or_else {A} (a b : option A) : option A := match a with Some _ => a | None => b end.

(** The typed request of a context: [encode_request_parts] up to serialization. *)
Definition chat_request_wire (c : RequestEncodingContext) : result LlmError ChatCompletionRequestWire :=
  let options := ec_options c in
  messages ← encode_messages (ec_messages c) 0 (ec_tool_result_name c);
  let capabilities := generation_options (ec_capabilities c) in
  tools ← encode_tools (go_tools options) capabilities;
  tool_choice ← encode_tool_choice (go_tools options) (go_tool_choice options) capabilities;
  parallel ← encode_parallel_tool_calls (go_parallel_tool_calls options) capabilities;
  Ok (chat_request_new (ec_model c) messages (go_temperature options)
        (or_else (go_max_output_tokens options) (ec_default_max_output_tokens c)) tools tool_choice
        parallel (response_format_from_domain (go_response_format options))
        (encode_reasoning_effort (go_reasoning options)) (rc_max_output_tokens (ec_compat c))
        match rc_stream_usage (ec_compat c) with IncludeUsage => true | _ => false end).

Definition chat_serialization_failed : LlmError :=
  protocol "failed to serialize planned OpenAI Chat request".
Definition body_too_large {A} : result LlmError A :=
  invalid "request_body" ValidationReason.OutOfRange
    "encoded request body exceeds the resolved size limit".
Definition encode_request_parts (c : RequestEncodingContext) : result LlmError (list ascii) :=
  wire ← chat_request_wire c;
  body ← serialize_body "protocol_options.openai_chat.raw" chat_serialization_failed
           (protocol "OpenAI Chat request did not serialize as an object")
           (chat_request_json wire) (ec_raw_extension c);
  if ec_max_body_bytes c <? Z.of_nat (length body) then body_too_large else Ok body.
End Encoder.
