(* ===== verification/ChatRequestSpec.v ===== *)
(** * Properties of Chat request bodies

    Which messages can be written, that what is written can be read back, and
    that a validated request has a body whose fields an extension cannot
    change. *)
From Stdlib Require Import SpecFloat.
From S2P Require Import Prelude Errors Domain Images Structured ChatWire Schema SchemaSpec Options History Request RequestSpec Serialize Contract ChatRequest.

(** ** Messages that can be written *)
Section Messages.
Context {B : Base64}.

Definition image_sendable (image : ImageContent) : Prop :=
  forall u, img_source image = ImgDataUrl u -> exists v, decode_validated_data_url u = Ok v.
Definition user_part_sendable (p : ContentPart) : Prop :=
  match p with PText _ => True | PImage image => image_sendable image | _ => False end.
Definition said (p : ContentPart) : Prop := match p with PText _ => True | _ => False end.

Definition chat_encodable (m : Message) : Prop :=
  match msg_role m with
  | MessageRole.Developer | MessageRole.System => single_text (msg_content m)
  | MessageRole.User =>
      msg_content m <> [] /\ Forall user_part_sendable (msg_content m) /\
      forall t, msg_content m = [PText t] -> trim_is_empty t = false
  | MessageRole.Assistant =>
      msg_content m <> [] /\
      exists texts calls, msg_content m = texts ++ calls /\ Forall said texts /\
        Forall (fun p => is_tool_call p = true) calls
  | MessageRole.Tool => exists r, msg_tool_result m = Some r /\ single_text (tr_content r)
  end.

(** ** What a reader of the body finds *)
Inductive ReadPart := RText (s : string) | RImage (url : string) (detail : ImageDetail).
Record ReadMessage := mk_read {
  rd_role : MessageRole.t; rd_parts : list ReadPart;
  rd_calls : list (string * string * string); rd_call_id : option string; rd_name : option string }.

Definition read_role (v : json) : option MessageRole.t :=
  s ← as_str v;
  if str_eqb s "developer" then Some MessageRole.Developer
  else if str_eqb s "system" then Some MessageRole.System
  else if str_eqb s "user" then Some MessageRole.User
  else if str_eqb s "assistant" then Some MessageRole.Assistant
  else if str_eqb s "tool" then Some MessageRole.Tool else None.
Definition read_detail (v : option json) : option ImageDetail :=
  match v with
  | None => Some Auto
  | Some v =>
      s ← as_str v;
      if str_eqb s "low" then Some Low else if str_eqb s "high" then Some High
      else if str_eqb s "original" then Some Original else None
  end.
Definition read_part (v : json) : option ReadPart :=
  o ← as_object v;
  kind ← obj_get o "type" ≫= as_str;
  if str_eqb kind "text" then RText <$> (obj_get o "text" ≫= as_str)
  else if str_eqb kind "image_url"
  then image ← obj_get o "image_url" ≫= as_object;
       url ← obj_get image "url" ≫= as_str;
       detail ← read_detail (obj_get image "detail");
       Some (RImage url detail)
  else None.
Definition read_content (v : option json) : option (list ReadPart) :=
  match v with
  | None => Some []
  | Some (JString s) => Some [RText s]
  | Some (JArray items) => mapM read_part items
  | Some _ => None
  end.
Definition read_call (v : json) : option (string * string * string) :=
  o ← as_object v;
  id ← obj_get o "id" ≫= as_str;
  f ← obj_get o "function" ≫= as_object;
  name ← obj_get f "name" ≫= as_str;
  arguments ← obj_get f "arguments" ≫= as_str;
  Some (id, name, arguments).
Definition read_calls (v : option json) : option (list (string * string * string)) :=
  match v with
  | None => Some []
  | Some v => items ← as_array v; mapM read_call items
  end.
Definition read_message (v : json) : option ReadMessage :=
  o ← as_object v;
  role ← obj_get o "role" ≫= read_role;
  parts ← read_content (obj_get o "content");
  calls ← read_calls (obj_get o "tool_calls");
  Some (mk_read role parts calls (obj_get o "tool_call_id" ≫= as_str) (obj_get o "name" ≫= as_str)).

(** ** What a message means to its reader *)
Definition image_url_of (image : ImageContent) : string :=
  match img_source image with
  | ImgUrl url | ImgDataUrl url => url
  | ImgInline mime bytes => encode_inline_data_url mime bytes
  end.
Definition part_meaning (p : ContentPart) : list ReadPart :=
  match p with
  | PText t => [RText t]
  | PImage image => [RImage (image_url_of image) (img_detail image)]
  | _ => []
  end.
Definition call_meaning (p : ContentPart) : list (string * string * string) :=
  match p with
  | PToolCall c => [(tc_id c, tc_name c, raw_json (tc_arguments c))]
  | _ => []
  end.
(** The texts of an assistant turn are joined. *)
Definition joined (parts : list ContentPart) : list ReadPart :=
  match omap text_value parts with [] => [] | texts => [RText (String.concat "" texts)] end.
Definition meaning (policy : ToolResultNamePolicy.t) (m : Message) : ReadMessage :=
  match msg_role m with
  | MessageRole.Tool =>
      match msg_tool_result m with
      | Some r => mk_read MessageRole.Tool (concat (map part_meaning (tr_content r))) []
                    (Some (tr_tool_call_id r)) (tool_result_name (tr_tool_name r) policy)
      | None => mk_read MessageRole.Tool [] [] None None
      end
  | MessageRole.Assistant =>
      mk_read MessageRole.Assistant (joined (msg_content m)) (concat (map call_meaning (msg_content m)))
        None None
  | role => mk_read role (concat (map part_meaning (msg_content m))) [] None None
  end.

(** *** Reading wire types *)
Definition wire_part_meaning (p : MessageContentPartWire) : ReadPart :=
  match p with
  | WPText t => RText t
  | WPImageUrl i =>
      RImage (iu_url i)
        match iu_detail i with
        | None => Auto
        | Some ImageDetailWire.Low => Low
        | Some ImageDetailWire.High => High
        | Some ImageDetailWire.Original => Original
        end
  end.
Definition wire_meaning (w : MessageWire) : ReadMessage :=
  mk_read (mw_role w)
    match mw_content w with
    | None => []
    | Some (WText s | WOwnedText s) => [RText s]
    | Some (WParts parts) => map wire_part_meaning parts
    end
    match mw_tool_calls w with
    | None => []
    | Some calls => map (fun c => (cwr_id c, fc_name (cwr_function c), fc_arguments (cwr_function c))) calls
    end (mw_tool_call_id w) (mw_name w).

Lemma mapM_map {A C D} (f : A -> C) (g : C -> option D) (h : A -> D) l :
  (forall a, g (f a) = Some (h a)) -> mapM g (map f l) = Some (map h l).
Proof.
  intros H. induction l as [|a l IH]; [done|]. simpl. rewrite H. simpl. by rewrite IH.
Qed.
Lemma read_part_json p : read_part (to_value (part_json p)) = Some (wire_part_meaning p).
Proof. destruct p as [t|[u [[]|]]]; reflexivity. Qed.
Lemma read_call_json c :
  read_call (to_value (call_json c)) =
  Some (cwr_id c, fc_name (cwr_function c), fc_arguments (cwr_function c)).
Proof. by destruct c as [id [n a]]. Qed.

Lemma read_message_json w : read_message (to_value (message_json w)) = Some (wire_meaning w).
Proof.
  destruct w as [role content calls id name]. unfold message_json.
  destruct (to_value_get (req "role" (role_json role) ++ opt "content" content_json content ++
    opt "tool_calls" (fun calls => JArray (map call_json calls)) calls ++
    opt "tool_call_id" JString id ++ opt "name" JString name)) as (o & Ho & Hget).
  { apply (bool_decide_unpack _). by destruct content, calls, id, name. }
  simpl mw_role. simpl mw_content. simpl mw_tool_calls. simpl mw_tool_call_id. simpl mw_name.
  rewrite Ho. unfold read_message. simpl. rewrite !Hget. unfold wire_meaning. simpl.
  assert (forall parts, mapM read_part (map to_value (map part_json parts)) =
            Some (map wire_part_meaning parts)) as Hp.
  { intros. rewrite map_map. apply mapM_map, read_part_json. }
  assert (forall cs, mapM read_call (map to_value (map call_json cs)) =
            Some (map (fun c => (cwr_id c, fc_name (cwr_function c), fc_arguments (cwr_function c))) cs))
    as Hc.
  { intros. rewrite map_map. apply mapM_map, read_call_json. }
  destruct role, content as [[]|], calls, id, name; simpl; rewrite ?Hp; simpl; rewrite ?Hc; done.
Qed.

(** *** Writing messages *)
Lemma encode_image_part_spec image :
  (image_sendable image -> exists w, encode_image_part image = Ok w) /\
  forall w, encode_image_part image = Ok w ->
    image_sendable image /\ wire_part_meaning w = RImage (image_url_of image) (img_detail image).
Proof.
  destruct image as [[u|mime bytes|u] d]; unfold encode_image_part, image_sendable, image_url_of; simpl.
  1, 2: split; [eauto|]; intros w [= <-]; split; [done|]; by destruct d.
  split.
  - intros H. destruct (H u eq_refl) as [v ->]. simpl. eauto.
  - intros w. destruct (decode_validated_data_url u) as [v|] eqn:Hv; [|done]. simpl. intros [= <-].
    split; [intros ? [= <-]; eauto|]. by destruct d.
Qed.
Lemma encode_user_parts_spec parts :
  (Forall user_part_sendable parts -> exists ws, encode_user_parts parts = Ok ws) /\
  forall ws, encode_user_parts parts = Ok ws ->
    Forall user_part_sendable parts /\ map wire_part_meaning ws = concat (map part_meaning parts).
Proof.
  induction parts as [|p parts [IH1 IH2]]; simpl; [split; [eauto|by intros ws [= <-]]|].
  split.
  - intros [Hp Hps]%Forall_cons. destruct (IH1 Hps) as [ws Hws]. rewrite Hws.
    destruct p as [t|image| | | ]; try done; simpl; [eauto|].
    destruct (proj1 (encode_image_part_spec image) Hp) as [w ->]. simpl. eauto.
  - intros ws. rewrite Forall_cons.
    destruct p as [t|image| | | ]; try done; simpl.
    + destruct (encode_user_parts parts) as [ws'|] eqn:Hws; [|done]. simpl. intros [= <-].
      destruct (IH2 _ eq_refl) as [Hf Hm]. simpl. by rewrite Hm.
    + destruct (encode_image_part image) as [w|] eqn:Hw; [|done]. simpl.
      apply encode_image_part_spec in Hw as [Hi Hwm].
      destruct (encode_user_parts parts) as [ws'|] eqn:Hws; [|done]. simpl. intros [= <-].
      destruct (IH2 _ eq_refl) as [Hf Hm]. simpl. by rewrite Hm, Hwm.
Qed.

Lemma said_call p : said p -> is_tool_call p = false.
Proof. by destruct p. Qed.
#[local] Hint Resolve said_call : core.
Definition call_wires (parts : list ContentPart) : list AssistantToolCallWire :=
  concat (map (fun p => match p with PToolCall c => [encode_assistant_tool_call c] | _ => [] end) parts).
Lemma assistant_loop_ok parts index part texts calls seen r :
  assistant_loop parts index part texts calls seen = Ok r <->
  turn said seen parts /\ r = (texts ++ omap text_value parts, calls ++ call_wires parts).
Proof.
  revert part texts calls seen. induction parts as [|p parts IH]; intros part texts calls seen; simpl.
  - rewrite !app_nil_r. split; [|by intros [_ ->]]. intros [= <-]. split; [by exists [], []|done].
  - destruct p as [t|image|th|r'|c]; simpl.
    2, 3, 4: split; [done|]; intros [H _]; exfalso; revert H; (apply turn_other; [by intros []|done]).
    + rewrite turn_said by (done || eauto). destruct seen; simpl; [naive_solver|].
      rewrite IH, <- (assoc_L (++)). simpl. naive_solver.
    + rewrite turn_call by (done || eauto). rewrite IH, <- (assoc_L (++)). unfold call_wires. simpl. done.
Qed.
Lemma call_wires_meaning parts :
  map (fun c => (cwr_id c, fc_name (cwr_function c), fc_arguments (cwr_function c))) (call_wires parts)
  = concat (map call_meaning parts).
Proof.
  unfold call_wires. induction parts as [|[] parts IH]; simpl; [done|done|done|done|done|]. by rewrite IH.
Qed.
Lemma concat_single s : String.concat "" [s] = s.
Proof. done. Qed.

Lemma encode_assistant_spec m index :
  (msg_content m <> [] /\ turn said false (msg_content m) ->
   exists w, encode_assistant_message m index = Ok w) /\
  forall w, encode_assistant_message m index = Ok w ->
    msg_content m <> [] /\ turn said false (msg_content m) /\
    wire_meaning w = mk_read MessageRole.Assistant (joined (msg_content m))
                       (concat (map call_meaning (msg_content m))) None None.
Proof.
  unfold encode_assistant_message, joined. rewrite <- call_wires_meaning.
  split.
  - intros [Hne Ht]. rewrite (proj2 (assistant_loop_ok _ index 0 [] [] false _) (conj Ht eq_refl)).
    simpl. destruct (call_wires _) as [|c cs] eqn:Hc, (omap text_value _) as [|t [|t' ts]] eqn:Ho; eauto.
    exfalso. destruct (msg_content m) as [|p parts]; [done|].
    destruct Ht as (ss & cs & Heq & Hs & Hcs & _).
    destruct p; simpl in *; try done;
      (destruct ss; simplify_eq/=; [by inversion Hcs|by inversion Hs]).
  - intros w. destruct (assistant_loop _ _ _ _ _ _) as [r|] eqn:Hl; [|done].
    apply assistant_loop_ok in Hl as [Ht ->]. simpl. intros Hw.
    assert (msg_content m <> []) as Hne by (intros Hnil; by rewrite Hnil in Hw).
    split_and!; [done|done|].
    destruct (call_wires _) as [|c cs], (omap text_value _) as [|t [|t' ts]]; simplify_eq/=; done.
Qed.

Lemma encode_user_message_spec m :
  (msg_role m = MessageRole.User -> chat_encodable m -> exists w, encode_user_message m = Ok w) /\
  forall w, msg_role m = MessageRole.User -> encode_user_message m = Ok w ->
    chat_encodable m /\
    wire_meaning w = mk_read MessageRole.User (concat (map part_meaning (msg_content m))) [] None None.
Proof.
  unfold encode_user_message, chat_encodable. split.
  - intros -> (Hne & Hs & Hb). destruct (proj1 (encode_user_parts_spec _) Hs) as [ws Hws].
    destruct (msg_content m) as [|[t| | | | ] [|q parts]]; try done; try (rewrite Hws; simpl; eauto).
    rewrite (Hb t eq_refl). eauto.
  - intros w -> Hw.
    assert ((exists t, msg_content m = [PText t] /\ trim_is_empty t = false /\
               w = message_wire_text MessageRole.User t) \/
            (msg_content m <> [] /\ (forall t, msg_content m <> [PText t]) /\
             exists ws, encode_user_parts (msg_content m) = Ok ws /\
               w = message_wire_parts MessageRole.User ws)) as [(t & Ht & Hb & ->)|(Hne & Hns & ws & Hws & ->)].
    { destruct (msg_content m) as [|[t| | | | ] [|q parts]]; try done;
        try (right; split; [done|]; split; [done|];
             destruct (encode_user_parts _) as [ws|]; [|done]; simpl in Hw; injection Hw as <-; eauto; done).
      left. destruct (trim_is_empty t) eqn:Hb; [done|]. injection Hw as <-. eauto. }
    + rewrite Ht. split; [|done]. split_and!; [done|by repeat constructor|]. by intros ? [= <-].
    + apply encode_user_parts_spec in Hws as [Hf Hm]. split.
      * split_and!; [done|done|]. intros t Ht. by destruct (Hns t).
      * unfold wire_meaning. simpl. by rewrite Hm.
Qed.
End Messages.

(** ** Conversations *)
Section Conversations.
Context {B : Base64}.

Lemma encode_message_spec m index policy :
  (chat_encodable m -> exists w, encode_message m index policy = Ok w) /\
  forall w, encode_message m index policy = Ok w ->
    chat_encodable m /\ wire_meaning w = meaning policy m.
Proof.
  unfold encode_message, meaning. destruct (msg_role m) eqn:Hr.
  1, 2: unfold chat_encodable; rewrite Hr; unfold single_text_of, single_text;
    (split; [intros (t & -> & Hne%str_is_empty_false); rewrite Hne; simpl; eauto|]);
    intros w; destruct (msg_content m) as [|[t| | | | ] [|? ?]]; try done;
    destruct (str_is_empty t) eqn:He; [done|]; simpl; intros [= <-];
    apply str_is_empty_false in He; split; [eauto|done].
  - pose proof (encode_user_message_spec m) as [H1 H2]. split; [by apply H1|]. intros w Hw. by apply H2.
  - pose proof (encode_assistant_spec m index) as [H1 H2].
    unfold chat_encodable; rewrite Hr. unfold turn in *. split.
    + intros (Hne & ts & cs & ? & ? & ?). apply H1. split; [done|]. by exists ts, cs.
    + intros w (Hne & (ts & cs & ? & ? & ? & _) & Hm)%H2. split; [|done]. split; [done|]. by exists ts, cs.
  - unfold chat_encodable; rewrite Hr. unfold single_text. split.
    + intros (r & -> & t & -> & Hne%str_is_empty_false). rewrite Hne. simpl. eauto.
    + intros w. destruct (msg_tool_result m) as [r|]; [|done].
      destruct (tr_content r) as [|[t| | | | ] [|? ?]] eqn:Hc; try done.
      destruct (str_is_empty t) eqn:He; [done|]. simpl. intros [= <-]. apply str_is_empty_false in He.
      split; [|done]. exists r. split; [done|]. by exists t.
Qed.

Lemma encode_messages_spec messages index policy :
  (Forall chat_encodable messages -> exists ws, encode_messages messages index policy = Ok ws) /\
  forall ws, encode_messages messages index policy = Ok ws ->
    Forall chat_encodable messages /\ map wire_meaning ws = map (meaning policy) messages.
Proof.
  revert index. induction messages as [|m messages IH]; intros index; simpl.
  - split; [eauto|]. by intros ws [= <-].
  - destruct (encode_message_spec m index policy) as [H1 H2]. destruct (IH (index + 1)) as [I1 I2].
    split.
    + intros [(w & ->)%H1 (ws & ->)%I1]%Forall_cons. simpl. eauto.
    + intros ws. destruct (encode_message m index policy) as [w|] eqn:Hw; [|done]. simpl.
      destruct (encode_messages messages (index + 1) policy) as [ws'|] eqn:Hws; [|done]. simpl.
      intros [= <-]. destruct (H2 w eq_refl) as [He Hm]. destruct (I2 ws' eq_refl) as [Hes Hms].
      simpl. rewrite Hm, Hms. split; [by constructor|done].
Qed.

(** C16. A conversation is written exactly when every message is encodable, and
    reading the JSON of the written messages gives back their meaning: the role,
    the texts and images (in order; an assistant's texts joined), the calls with
    their ids, names and arguments, and the id and name of a tool result. *)
Theorem chat_messages_roundtrip messages policy :
  (Forall chat_encodable messages <-> is_ok (encode_messages messages 0 policy) = true) /\
  forall ws, encode_messages messages 0 policy = Ok ws ->
    mapM read_message (map (fun w => to_value (message_json w)) ws)
    = Some (map (meaning policy) messages).
Proof.
  destruct (encode_messages_spec messages 0 policy) as [H1 H2]. split.
  - split; [by intros (ws & ->)%H1|].
    destruct (encode_messages messages 0 policy) as [ws|]; [|done]. intros _. by destruct (H2 ws eq_refl).
  - intros ws [_ <-]%H2. apply mapM_map. intros w. apply read_message_json.
Qed.
End Conversations.

(** ** Validated requests *)
Section Bodies.
Context {B : Base64} {JP : JsonPrinter} {JV : JsonValues}.

(** What validation leaves open: no reasoning, data URLs that decode, and no
    message that is one blank text. *)
Definition chat_sendable (m : Message) : Prop :=
  Forall (fun p => match p with PThinking _ => False | PImage i => image_sendable i | _ => True end)
    (msg_content m) /\
  (msg_role m = MessageRole.User -> forall t, msg_content m = [PText t] -> trim_is_empty t = false).
Lemma fits_encodable m : message_fits m -> chat_sendable m -> chat_encodable m.
Proof.
  unfold message_fits, chat_sendable, chat_encodable. destruct (msg_role m); try done.
  - intros [Hne Hf] [Hs Hb]. split_and!; [done| |auto].
    apply Forall_forall. intros p Hp. rewrite Forall_forall in Hf, Hs.
    specialize (Hf p Hp). specialize (Hs p Hp). by destruct p.
  - intros [Hne (ts & cs & Heq & Ht & Hc)] [Hs _]. split; [done|]. exists ts, cs.
    split_and!; [done| |done]. rewrite Heq in Hs. apply Forall_app in Hs as [Hs _].
    apply Forall_forall. intros p Hp. rewrite Forall_forall in Ht, Hs.
    specialize (Ht p Hp). specialize (Hs p Hp). by destruct p.
Qed.

Lemma encode_tool_list_ok tools index caps limits :
  Forall (fun t => description_fits limits t /\ strict_fits caps t) tools ->
  exists ws, encode_tool_list tools index caps = Ok ws.
Proof.
  revert index. induction tools as [|t tools IH]; intros index; simpl; [eauto|].
  intros [[_ Hs] Ht]%Forall_cons. destruct (IH (index + 1) Ht) as [ws ->].
  destruct (td_strict t) eqn:Et; simpl; [|eauto]. destruct (Hs Et) as [-> _]. simpl. eauto.
Qed.
Lemma encode_options_ok caps limits tools choice parallel :
  tool_options_fit caps limits tools choice parallel ->
  (exists ws, encode_tools tools caps = Ok ws) /\
  (exists c, encode_tool_choice tools choice caps = Ok c) /\
  (exists p, encode_parallel_tool_calls parallel caps = Ok p).
Proof.
  intros [_ Hf _ He Hc Hp]. split_and!.
  - unfold encode_tools. destruct (is_empty tools) eqn:Hemp; [eauto|].
    apply is_empty_false in Hemp. rewrite (Hf Hemp). simpl.
    destruct (encode_tool_list_ok tools 0 _ _ He) as [ws ->]. simpl. eauto.
  - unfold encode_tool_choice. destruct choice as [c|]; [|eauto]. specialize (Hc c eq_refl).
    destruct c as [| | |name]; simpl in Hc; [|eauto|destruct Hc as [_ ->]; simpl; eauto|].
    + apply is_empty_false in Hc as ->. eauto.
    + destruct Hc as [_ ->]. simpl. eauto.
  - unfold encode_parallel_tool_calls. destruct parallel as [p|]; [|eauto].
    destruct (Hp p eq_refl) as [_ ->]. simpl. eauto.
Qed.

(** *** The SDK's fields *)
Definition chat_field_names : list string :=
  ["model"; "messages"; "stream"; "stream_options"; "n"; "temperature"; "max_completion_tokens";
   "max_tokens"; "tools"; "tool_choice"; "parallel_tool_calls"; "response_format"; "reasoning_effort"].
Lemma chat_fields_sublist r : map fst (chat_request_fields r) `sublist_of` chat_field_names.
Proof.
  unfold chat_request_fields, chat_field_names. apply opt_sublist. do 4 (apply sublist_skip).
  do 7 apply opt_sublist. rewrite <- (app_nil_r (opt "reasoning_effort" _ _)). by apply opt_sublist.
Qed.
Lemma chat_fields_nodup r : NoDup (map fst (chat_request_fields r)).
Proof.
  eapply sublist_NoDup; [|apply chat_fields_sublist]. apply (bool_decide_unpack _). by vm_compute.
Qed.
(** Every field the SDK writes is in the protection table. *)
Lemma chat_fields_unprotected r k :
  is_protected_body_field OPENAI_CHAT_PROTECTED_BODY_FIELDS k = false ->
  obj_get (chat_request_fields r) k = None.
Proof. eapply unprotected_absent; [|apply chat_fields_sublist]. by vm_compute. Qed.

(** An extension comes from its parser, and its map has each key once. *)
Definition chat_extension (raw : option RawFields) : Prop :=
  forall r, raw = Some r ->
    (exists v, openai_dangerous_from_object v = Ok r) /\ NoDup (map fst (rf_fields r)).
Lemma chat_extension_fields raw r w :
  chat_extension raw -> raw = Some r ->
  NoDup (map fst (rf_fields r)) /\
  Forall (fun e : string * json => obj_get (chat_request_fields w) e.1 = None) (rf_fields r).
Proof.
  intros Hext Hr. destruct (Hext r Hr) as [[v Hv] Hnd]. split; [done|].
  apply raw_parse_ok in Hv as (fields & encoded & _ & _ & _ & Hu & _ & _ & ->). simpl.
  eapply Forall_impl; [exact Hu|]. intros e. apply chat_fields_unprotected.
Qed.

Lemma chat_request_wire_ok c now model limits :
  validate_planned_request now model (ec_messages c) (ec_options c)
    (generation_options (ec_capabilities c)) limits = Ok tt ->
  Forall chat_sendable (ec_messages c) -> exists w, chat_request_wire c = Ok w.
Proof.
  unfold validate_planned_request. rewrite then_ok, validate_ok. intros [[_ Hm _ _ _ _ Ho] _] Hs.
  assert (Forall chat_encodable (ec_messages c)) as He.
  { apply Forall_forall. intros m Hin. rewrite Forall_forall in Hm, Hs.
    apply fits_encodable; [apply (Hm m Hin)|apply (Hs m Hin)]. }
  unfold chat_request_wire.
  destruct (proj1 (encode_messages_spec _ 0 (ec_tool_result_name c)) He) as [ws ->]. simpl.
  destruct (encode_options_ok _ _ _ _ _ (of_tools _ _ _ Ho)) as ([ts Ht] & [ch Hc] & [p Hp]).
  simpl in Ht, Hc, Hp. rewrite Ht. simpl. rewrite Hc. simpl. rewrite Hp. simpl. eauto.
Qed.

Lemma chat_body_ok c now model limits :
  validate_planned_request now model (ec_messages c) (ec_options c)
    (generation_options (ec_capabilities c)) limits = Ok tt ->
  Forall chat_sendable (ec_messages c) -> chat_extension (ec_raw_extension c) -> printer_total ->
  exists w object text, chat_request_wire c = Ok w /\
    body_object (chat_request_fields w) (ec_raw_extension c) object /\
    to_string (JObject object) = Ok text /\
    encode_request_parts c =
      if ec_max_body_bytes c <? Z.of_nat (length (bytes_of text)) then body_too_large
      else Ok (bytes_of text).
Proof.
  intros Hv Hs Hext Hp. destruct (chat_request_wire_ok c now model limits Hv Hs) as [w Hw].
  unfold encode_request_parts. rewrite Hw. simpl.
  destruct (serialize_body_ok "protocol_options.openai_chat.raw" chat_serialization_failed
    (protocol "OpenAI Chat request did not serialize as an object") (chat_request_fields w)
    (ec_raw_extension c) Hp (chat_fields_nodup w)) as (object & text & Hb & Ht & Hser).
  { intros r. by apply chat_extension_fields. }
  exists w, object, text. split_and!; try done. unfold chat_request_json. by rewrite Hser.
Qed.

(** A validated request whose messages can be sent has a Chat body: encoding
    fails only when the text is longer than the resolved limit. The body is
    written from the typed request, and an accepted extension never conflicts
    with it: every field the SDK owns keeps its value and every other field is
    the extension's. *)
Theorem planned_chat_body c now model limits :
  validate_planned_request now model (ec_messages c) (ec_options c)
    (generation_options (ec_capabilities c)) limits = Ok tt ->
  Forall chat_sendable (ec_messages c) -> chat_extension (ec_raw_extension c) -> printer_total ->
  exists w object text, chat_request_wire c = Ok w /\
    body_object (chat_request_fields w) (ec_raw_extension c) object /\
    to_string (JObject object) = Ok text /\
    encode_request_parts c =
      if ec_max_body_bytes c <? Z.of_nat (length (bytes_of text)) then body_too_large
      else Ok (bytes_of text).
Proof. apply chat_body_ok. Qed.
End Bodies.

(** ** Samples *)
Definition sample_model : ModelRef := mk_model_ref "openai" "gpt".
Definition sample_request_limits : RequestValidationLimits :=
  mk_request_limits 1000 10 1000 10 1000 1000 10 100 10 1000 1000.
Definition sample_options : GenerationOptions :=
  mk_generation_options None (Some 64) ProviderDefault FText [clock_tool] (Some ToolChoice.Required)
    (Some Disallowed) None [] ∅ None.
Definition sample_capabilities : ProviderCapabilities :=
  apply_catalog (mk_catalog_capabilities CapabilityStatus.Supported CapabilityStatus.Supported
    CapabilityStatus.Supported CapabilityStatus.Supported CapabilityStatus.Supported
    CapabilityStatus.Supported CapabilityStatus.Supported CapabilityStatus.Supported
    CapabilityStatus.Supported EffortUnknown CapabilityStatus.Unknown CapabilityStatus.Unknown)
    official_openai.
Definition user_text (t : string) : Message := message_new MessageRole.User [PText t].
Definition sample_raw : RawFields := mk_raw_fields [("seed", JNumber (PosInt 7))] 10.
Definition sample_context (messages : list Message) : RequestEncodingContext :=
  mk_encoding_context (Some "gpt") messages sample_options sample_capabilities request_compat_default
    ToolResultNamePolicy.Omit None 1000 (Some sample_raw).
Definition fixed_printer : JsonPrinter := fun _ => Ok "{'seed':7}".

Lemma planned_chat_body_witness :
  exists body, encode_request_parts (B := letter_codec) (JP := fixed_printer)
    (sample_context [user_text "What time is it?"]) = Ok body.
Proof.
  destruct (planned_chat_body (B := letter_codec) (JP := fixed_printer) (JV := plain_values)
    (sample_context [user_text "What time is it?"]) 0 sample_model sample_request_limits)
    as (w & object & text & Hw & Hb & Ht & He).
  - vm_compute. reflexivity.
  - constructor; [|constructor]. split.
    + constructor; [exact I|constructor].
    + intros _ t Ht. injection Ht as <-. vm_compute. reflexivity.
  - intros r Hr. injection Hr as <-. split.
    + exists (JObject [("seed", JNumber (PosInt 7))]). vm_compute. reflexivity.
    + constructor; [apply not_elem_of_nil|constructor].
  - intros v. exists "{'seed':7}". reflexivity.
  - injection Ht as <-. exists (bytes_of "{'seed':7}"). exact He.
Defined.

(** A conversation with a user message that is one blank text passes
    validation when another user message has text, and is then refused by the
    Chat encoder. *)
Theorem blank_user_message_refused :
  validate 0 (mk_generate_request sample_model [user_text "Hello"; user_text " "]
                generation_options_default) (generation_options official_openai) = Ok tt /\
  encode_messages (B := letter_codec) [user_text "Hello"; user_text " "] 0 ToolResultNamePolicy.Omit
  = Err (protocol "user text must contain non-whitespace").
Proof. split; vm_compute; reflexivity. Qed.
