(* ===== verification/MessagesRequest.v ===== *)
(** * Anthropic request bodies

    [src/src/protocol/anthropic_messages/{history,request,wire}.rs]: a planned
    conversation becomes system blocks and turns that alternate between user and
    assistant, and with the options a Messages request body. *)
From Stdlib Require Import SpecFloat.
From S2P Require Import Prelude Errors Domain Images Structured ChatWire Schema Options History Request Serialize Contract.

(** ** Wire types: [wire.rs] *)
Module MessageRoleWire.
Inductive t := User | Assistant.
End MessageRoleWire.
#[global] Instance MessageRoleWire_eq_dec : EqDecision MessageRoleWire.t.
Proof. solve_decision. Defined.

Module ImageSourceWire.
Inductive t := Base64 (media_type data : string) | Url (url : string).
End ImageSourceWire.
Module Block.
Inductive t :=
| Text (text : string)
| Image (source : ImageSourceWire.t)
| ToolUse (id name : string) (input : json)
| ToolResult (tool_use_id content : string) (is_error : bool)
| Thinking (thinking signature : string)
| RedactedThinking (data : string).
End Block.
Record TurnWire := mk_turn_wire { tu_role : MessageRoleWire.t; tu_content : list Block.t }.
Record MessagesToolWire := mk_messages_tool {
  mt_name : string; mt_description : option string; mt_input_schema : json; mt_strict : bool }.
Module MessagesToolChoice.
Inductive t :=
| None_ (disable_parallel_tool_use : bool)
| Auto (disable_parallel_tool_use : bool)
| Any (disable_parallel_tool_use : bool)
| Tool (name : string) (disable_parallel_tool_use : bool).
End MessagesToolChoice.
Record OutputConfigWire := mk_output_config {
  oc_format : option json; oc_effort : option AnthropicEffort.t }.
Record MessagesRequestWire := mk_messages_request {
  mq_model : string; mq_max_tokens : Z; mq_messages : list TurnWire; mq_system : option (list string);
  mq_stream : bool; mq_temperature : option f64; mq_tools : option (list MessagesToolWire);
  mq_tool_choice : option MessagesToolChoice.t; mq_thinking : option AnthropicThinkingDisplay;
  mq_output_config : option OutputConfigWire }.

(** ** Trees *)
Definition turn_role_json (r : MessageRoleWire.t) : json :=
  JString match r with MessageRoleWire.User => "user" | MessageRoleWire.Assistant => "assistant" end.
Definition image_source_json (s : ImageSourceWire.t) : json :=
  match s with
  | ImageSourceWire.Base64 media_type data =>
      JObject (req "type" (JString "base64") ++ req "media_type" (JString media_type) ++
               req "data" (JString data))
  | ImageSourceWire.Url url => JObject (req "type" (JString "url") ++ req "url" (JString url))
  end.
Definition block_json (b : Block.t) : json :=
  match b with
  | Block.Text text => JObject (req "type" (JString "text") ++ req "text" (JString text))
  | Block.Image source =>
      JObject (req "type" (JString "image") ++ req "source" (image_source_json source))
  | Block.ToolUse id name input =>
      JObject (req "type" (JString "tool_use") ++ req "id" (JString id) ++ req "name" (JString name) ++
               req "input" input)
  | Block.ToolResult id content is_error =>
      JObject (req "type" (JString "tool_result") ++ req "tool_use_id" (JString id) ++
               req "content" (JString content) ++ req "is_error" (JBool is_error))
  | Block.Thinking thinking signature =>
      JObject (req "type" (JString "thinking") ++ req "thinking" (JString thinking) ++
               req "signature" (JString signature))
  | Block.RedactedThinking data =>
      JObject (req "type" (JString "redacted_thinking") ++ req "data" (JString data))
  end.
Definition turn_json (t : TurnWire) : json :=
  JObject (req "role" (turn_role_json (tu_role t)) ++
           req "content" (JArray (map block_json (tu_content t)))).
Definition system_block_json (text : string) : json :=
  JObject (req "type" (JString "text") ++ req "text" (JString text)).
Definition messages_tool_json (t : MessagesToolWire) : json :=
  JObject (req "name" (JString (mt_name t)) ++ opt "description" JString (mt_description t) ++
           req "input_schema" (mt_input_schema t) ++
           (if mt_strict t then req "strict" (JBool true) else [])).
Definition messages_choice_json (c : MessagesToolChoice.t) : json :=
  let tagged (kind : string) (fields : list (string * json)) (disable : bool) :=
    JObject (req "type" (JString kind) ++ fields ++ req "disable_parallel_tool_use" (JBool disable)) in
  match c with
  | MessagesToolChoice.None_ d => tagged "none" [] d
  | MessagesToolChoice.Auto d => tagged "auto" [] d
  | MessagesToolChoice.Any d => tagged "any" [] d
  | MessagesToolChoice.Tool name d => tagged "tool" (req "name" (JString name)) d
  end.
Definition messages_effort_json (e : AnthropicEffort.t) : json :=
  JString match e with
          | AnthropicEffort.Low => "low" | AnthropicEffort.Medium => "medium"
          | AnthropicEffort.High => "high" | AnthropicEffort.Max => "max"
          end.
Definition output_config_json (c : OutputConfigWire) : json :=
  JObject (opt "format" (fun schema => JObject (req "type" (JString "json_schema") ++ req "schema" schema))
             (oc_format c) ++
           opt "effort" messages_effort_json (oc_effort c)).
Definition thinking_config_json (d : AnthropicThinkingDisplay) : json :=
  JObject (req "type" (JString "adaptive") ++
           req "display" (JString match d with Omitted => "omitted" | Summarized => "summarized" end)).
Definition messages_request_fields (r : MessagesRequestWire) : list (string * json) :=
  req "model" (JString (mq_model r)) ++
  req "max_tokens" (json_of_uint (mq_max_tokens r)) ++
  req "messages" (JArray (map turn_json (mq_messages r))) ++
  opt "system" (fun blocks => JArray (map system_block_json blocks)) (mq_system r) ++
  req "stream" (JBool (mq_stream r)) ++
  opt "temperature" json_of_f64 (mq_temperature r) ++
  opt "tools" (fun tools => JArray (map messages_tool_json tools)) (mq_tools r) ++
  opt "tool_choice" messages_choice_json (mq_tool_choice r) ++
  opt "thinking" thinking_config_json (mq_thinking r) ++
  opt "output_config" output_config_json (mq_output_config r).

(** ** History: [history.rs] *)
Definition Diagnostics : Type := list (DiagnosticCode * Z).
Record PlanState := mk_plan_state {
  ps_system : list string; ps_messages : list TurnWire; ps_diagnostics : Diagnostics;
  ps_images : Z }.
Definition plan_start : PlanState := mk_plan_state [] [] [] 0.

Fixpoint increment_diagnostic (code : DiagnosticCode) (d : Diagnostics) : Diagnostics :=
  match d with
  | [] => [(code, 1)]
  | (c, n) :: d =>
      if code_order c =? code_order code then (code, Z.min (n + 1) U32_MAX) :: d
      else (c, n) :: increment_diagnostic code d
  end.

Section History.
Context {B : Base64} (limits : RequestValidationLimits) (replay : ThinkingReplayPolicy)
  (target : SourceIdentity).
Abbreviation P := (M PlanState LlmError).

Definition diagnose (code : DiagnosticCode) : P unit :=
  modify (fun s => mk_plan_state (ps_system s) (ps_messages s)
                     (increment_diagnostic code (ps_diagnostics s)) (ps_images s)).
Definition push_system (text : string) : P unit :=
  modify (fun s => mk_plan_state (ps_system s ++ [text]) (ps_messages s) (ps_diagnostics s)
                     (ps_images s)).
Definition refuse {A} (message : string) : P A := throw (protocol message).

(** Appends to the last turn when it has the role, and starts a turn otherwise. *)
Fixpoint append_turn (role : MessageRoleWire.t) (content : list Block.t) (turns : list TurnWire)
  : list TurnWire * bool :=
  match turns with
  | [] => ([mk_turn_wire role content], false)
  | [last] =>
      if bool_decide (tu_role last = role)
      then ([mk_turn_wire role (tu_content last ++ content)], true)
      else ([last; mk_turn_wire role content], false)
  | t :: turns => let '(turns, merged) := append_turn role content turns in (t :: turns, merged)
  end.
Definition push_turn (role : MessageRoleWire.t) (content : list Block.t) : P unit :=
  s ← get;
  let '(turns, merged) := append_turn role content (ps_messages s) in
  _ ← put (mk_plan_state (ps_system s) turns (ps_diagnostics s) (ps_images s));
  if merged then diagnose MergedAdjacentMessages else mret tt.

Definition encode_thinking (thinking : ThinkingContent) : P (option Block.t) :=
  match tc_opaque thinking with
  | None => _ ← diagnose DroppedThinkingOpaque; mret None
  | Some opaque =>
      if negb (match replay with SameSourceOnly => true | DropAll => false end)
         || negb (matches_source (or_source opaque) target)
      then _ ← diagnose DroppedThinkingOpaque; mret None
      else if negb (utf8_valid (or_bytes opaque))
      then refuse "Anthropic opaque thinking must be valid UTF-8"
      else
        let value := str_of (or_bytes opaque) in
        if or_redacted opaque
        then if negb (str_is_empty (tc_text thinking))
             then refuse "redacted Anthropic thinking cannot carry visible text"
             else mret (Some (Block.RedactedThinking value))
        else mret (Some (Block.Thinking (tc_text thinking) value))
  end.

Definition inline_source (mime : ImageMime) (bytes : list ascii) : P ImageSourceWire.t :=
  if rv_max_inline_image_bytes limits <? Z.of_nat (length bytes)
  then refuse "Anthropic inline image exceeds resource limit"
  else mret (ImageSourceWire.Base64 (mime_as_str mime) (b64_encode bytes)).
Definition encode_image (image : ImageContent) : P (option Block.t) :=
  match img_detail image with
  | Domain.Auto =>
      s ← get;
      match usize_checked_add (ps_images s) 1 with
      | None => refuse "Anthropic image count overflow"
      | Some count =>
          _ ← put (mk_plan_state (ps_system s) (ps_messages s) (ps_diagnostics s) count);
          if rv_max_images limits <? count
          then refuse "Anthropic image count exceeds resource limit"
          else
            source ← match img_source image with
                     | ImgUrl url =>
                         if rv_max_image_url_bytes limits <? str_len url
                         then refuse "Anthropic image URL exceeds resource limit"
                         else mret (ImageSourceWire.Url url)
                     | ImgInline mime bytes => inline_source mime bytes
                     | ImgDataUrl data_url =>
                         '(mime, bytes) ← lift (map_err LlmError.Validation
                                                  (decode_validated_data_url data_url));
                         inline_source mime bytes
                     end;
            mret (Some (Block.Image source))
      end
  | _ => refuse "Anthropic Messages does not support image detail selection"
  end.

Definition encode_content (p : ContentPart) (role : MessageRole.t) : P (option Block.t) :=
  match p with
  | PText text =>
      if str_is_empty text then refuse "Anthropic text blocks must not be empty"
      else mret (Some (Block.Text text))
  | PImage image =>
      match role with
      | MessageRole.User => encode_image image
      | _ => refuse "Anthropic image content is only valid in user messages"
      end
  | PToolCall call =>
      match role with
      | MessageRole.Assistant =>
          mret (Some (Block.ToolUse (tc_id call) (tc_name call) (ta_value (tc_arguments call))))
      | _ => refuse "Anthropic tool_use content is only valid in assistant messages"
      end
  | PThinking thinking =>
      match role with
      | MessageRole.Assistant => encode_thinking thinking
      | _ => refuse "Anthropic thinking content is only valid in assistant messages"
      end
  | PRefusal _ => refuse "Anthropic refusal replay is not supported by the current Domain contract"
  end.
Fixpoint encode_contents (parts : list ContentPart) (role : MessageRole.t) : P (list Block.t) :=
  match parts with
  | [] => mret []
  | p :: parts =>
      block ← encode_content p role;
      blocks ← encode_contents parts role;
      mret match block with Some b => b :: blocks | None => blocks end
  end.

Definition system_part (p : ContentPart) : P unit :=
  match p with
  | PText text =>
      if str_is_empty text then refuse "Anthropic system text blocks must not be empty"
      else push_system text
  | _ => refuse "Anthropic system content only accepts text blocks"
  end.
Definition encode_tool_result (message : Message) : P Block.t :=
  match msg_tool_result message with
  | None => refuse "tool role message is missing its typed tool result"
  | Some r =>
      match head (tr_content r) ≫= text_value with
      | None => refuse "Anthropic tool result requires text"
      | Some text => mret (Block.ToolResult (tr_tool_call_id r) text (tr_is_error r))
      end
  end.
Definition is_thinking (p : ContentPart) : bool := match p with PThinking _ => true | _ => false end.

Definition turn_role (r : MessageRole.t) : MessageRoleWire.t :=
  match r with MessageRole.Assistant => MessageRoleWire.Assistant | _ => MessageRoleWire.User end.
Definition plan_message (message : Message) : P unit :=
  match msg_role message with
  | MessageRole.System => for_each system_part (msg_content message)
  | MessageRole.Developer =>
      _ ← diagnose ConvertedDeveloperToSystem; for_each system_part (msg_content message)
  | (MessageRole.User | MessageRole.Assistant) as role =>
      content ← encode_contents (msg_content message) role;
      if is_empty content
      then if bool_decide (role = MessageRole.Assistant) && forallb is_thinking (msg_content message)
           then mret tt
           else refuse "Anthropic message content must not be empty"
      else push_turn (turn_role role) content
  | MessageRole.Tool =>
      block ← encode_tool_result message; push_turn MessageRoleWire.User [block]
  end.

Definition starts_with_user (turns : list TurnWire) : bool :=
  match turns with [] => false | t :: _ => bool_decide (tu_role t = MessageRoleWire.User) end.
Record AnthropicHistoryPlan := mk_history_plan {
  hp_system : option (list string); hp_messages : list TurnWire; hp_diagnostics : Diagnostics }.
Definition plan_history (messages : list Message) : result LlmError AnthropicHistoryPlan :=
  match for_each plan_message messages plan_start with
  | (_, Err e) => Err e
  | (s, Ok _) =>
      if negb (starts_with_user (ps_messages s))
      then Err (protocol "Anthropic Messages history must begin with a non-empty user turn")
      else Ok (mk_history_plan (if is_empty (ps_system s) then None else Some (ps_system s))
                 (ps_messages s) (ps_diagnostics s))
  end.
End History.

(** ** Requests: [request.rs] *)
Section Encoder.
Context {B : Base64} {JP : JsonPrinter}.

(** What the encoder reads of a plan. *)
Record MessagesContext := mk_messages_context {
  mx_wire_model : string; mx_messages : list Message; mx_source : SourceIdentity;
  mx_options : GenerationOptions; mx_replay : ThinkingReplayPolicy;
  mx_limits : RequestValidationLimits; mx_default_max_output_tokens : option Z }.

Definition f64_one : f64 := S754_finite false 4503599627370496 (-52).
Definition messages_options (o : GenerationOptions) : option AnthropicMessagesOptions :=
  go_protocol_options o ≫= anthropic_messages.

Definition messages_tool (t : ToolDefinition) : MessagesToolWire :=
  mk_messages_tool (td_name t) (td_description t) (schema_value (td_parameters t)) (td_strict t).
Definition messages_tool_choice (choice : option ToolChoice.t) (disable : bool)
  : option MessagesToolChoice.t :=
  match choice with
  | None => None
  | Some ToolChoice.None_ => Some (MessagesToolChoice.None_ disable)
  | Some ToolChoice.Auto => Some (MessagesToolChoice.Auto disable)
  | Some ToolChoice.Required => Some (MessagesToolChoice.Any disable)
  | Some (ToolChoice.Specific name) => Some (MessagesToolChoice.Tool name disable)
  end.

Definition messages_request_wire (c : MessagesContext) : result LlmError MessagesRequestWire :=
  let options := mx_options c in
  max_tokens ← ok_or
    (match go_max_output_tokens options with
     | Some n => Some n
     | None => mx_default_max_output_tokens c
     end)
    (LlmError.Validation (validation_error "max_output_tokens" ValidationReason.Empty
       "Anthropic Messages requires an explicit or profile default max output token limit"));
  _ ← invalid_if (max_tokens =? 0) "max_output_tokens" ValidationReason.Zero
        "Anthropic Messages max_tokens must be positive";
  _ ← invalid_if (match go_temperature options with
                  | Some t => negb (SFleb f64_zero t && SFleb t f64_one)
                  | None => false
                  end) "temperature" ValidationReason.OutOfRange
        "Anthropic Messages temperature must be between zero and one";
  _ ← match go_reasoning options with
      | ProviderDefault => Ok tt
      | _ => Err (protocol "common thinking intent requires Anthropic typed protocol options")
      end;
  history ← plan_history (mx_limits c) (mx_replay c) (mx_source c) (mx_messages c);
  let tools := if is_empty (go_tools options) then None
               else Some (map messages_tool (go_tools options)) in
  let disable := match go_parallel_tool_calls options with Some Disallowed => true | _ => false end in
  let tool_choice := messages_tool_choice (go_tool_choice options) disable in
  _ ← match tool_choice, tools with
      | Some _, None => Err (protocol "Anthropic tool_choice requires declared tools")
      | _, _ => Ok tt
      end;
  format ← match go_response_format options with
           | FText => Ok None
           | FJsonObject => Err (protocol "generic JSON object mode is unsupported by Anthropic Messages")
           | FJsonSchema s => Ok (Some (schema_value (ss_schema s)))
           end;
  let effort := messages_options options ≫= ao_effort in
  let output_config := match format, effort with
                       | None, None => None
                       | _, _ => Some (mk_output_config format effort)
                       end in
  Ok (mk_messages_request (mx_wire_model c) max_tokens (hp_messages history) (hp_system history) true
        (go_temperature options) tools tool_choice (messages_options options ≫= ao_adaptive_thinking)
        output_config).

Definition messages_serialization_failed : LlmError :=
  protocol "failed to serialize Anthropic Messages request".
(** The typed request becomes a [Value] before an extension is merged. *)
Definition messages_body (fields : list (string * json)) (raw : option RawFields)
  : result LlmError (list ascii) :=
  match to_value (JObject fields) with
  | JObject object =>
      merged ← match raw with
               | Some raw => map_err LlmError.Validation
                               (merge_raw "protocol_options.anthropic.raw" (rf_fields raw) object)
               | None => Ok object
               end;
      map_err (fun _ => messages_serialization_failed) (to_vec (JObject merged))
  | _ => Err (protocol "Anthropic Messages request did not serialize as an object")
  end.
Definition encode_messages_request (c : MessagesContext) : result LlmError (list ascii) :=
  wire ← messages_request_wire c;
  body ← messages_body (messages_request_fields wire) (messages_options (mx_options c) ≫= ao_raw);
  if rv_max_body_bytes (mx_limits c) <? Z.of_nat (length body)
  then invalid "request_body" ValidationReason.OutOfRange
         "encoded Anthropic Messages request exceeds the resolved body limit"
  else Ok body.
End Encoder.
