(* ===== verification/MessagesRequestSpec.v ===== *)
(** * Properties of Anthropic request bodies

    The planner of turns groups exactly the encoded blocks of the conversation:
    nothing is lost, reordered or invented, roles alternate and the first turn is
    the user's. *)
From Stdlib Require Import SpecFloat Sorted.
From S2P Require Import Prelude Errors Domain Images Structured ChatWire Schema Options History Request RequestSpec Serialize Contract MessagesRequest.

(** ** Turns *)
Definition flat (turns : list TurnWire) : list (MessageRoleWire.t * Block.t) :=
  concat (map (fun t => map (pair (tu_role t)) (tu_content t)) turns).
Definition alternating : list TurnWire -> Prop := Sorted (fun t u => tu_role t <> tu_role u).
Record proper_turns (turns : list TurnWire) : Prop := {
  pt_alternating : alternating turns;
  pt_nonempty : Forall (fun t => tu_content t <> []) turns }.

Lemma append_turn_flat role content turns :
  flat (append_turn role content turns).1 = flat turns ++ map (pair role) content.
Proof.
  unfold flat. induction turns as [|t [|u turns] IH]; [by simpl; rewrite app_nil_r| |].
  - simpl. case_bool_decide as H; simpl; rewrite !app_nil_r; [subst role; by rewrite map_app|done].
  - change (append_turn role content (t :: u :: turns))
      with (let '(turns, merged) := append_turn role content (u :: turns) in (t :: turns, merged)).
    destruct (append_turn role content (u :: turns)) as [ts b]. simpl in *. rewrite IH. by rewrite !(assoc_L (++)).
Qed.
Lemma append_turn_head role content t turns :
  exists c rest, (append_turn role content (t :: turns)).1 = mk_turn_wire (tu_role t) c :: rest.
Proof.
  destruct turns as [|u turns].
  - simpl. destruct t as [r c]. case_bool_decide as H; simpl in *; [subst r|]; eauto.
  - change (append_turn role content (t :: u :: turns))
      with (let '(turns, merged) := append_turn role content (u :: turns) in (t :: turns, merged)).
    destruct (append_turn role content (u :: turns)) as [ts b]. destruct t. simpl. eauto.
Qed.
Lemma append_turn_proper role content turns :
  content <> [] -> proper_turns turns -> proper_turns (append_turn role content turns).1.
Proof.
  intros Hc [Ha Hn]. induction turns as [|t [|u turns] IH].
  - split; [by repeat constructor|by constructor].
  - apply Forall_cons in Hn as [Ht _]. simpl. case_bool_decide as H; simpl.
    + split; [by repeat constructor|]. constructor; [|done]. simpl. by destruct (tu_content t).
    + split; [by repeat constructor|]. by repeat constructor.
  - change (append_turn role content (t :: u :: turns))
      with (let '(turns, merged) := append_turn role content (u :: turns) in (t :: turns, merged)).
    apply Sorted_inv in Ha as [Ha Hd]. apply Forall_cons in Hn as [Ht Hn].
    destruct (append_turn_head role content u turns) as (c & rest & Hh).
    destruct (IH Ha Hn) as [Ha' Hn']. destruct (append_turn role content (u :: turns)) as [ts b].
    simpl in *. subst ts. split; [|by constructor]. constructor; [done|].
    apply HdRel_inv in Hd. by constructor.
Qed.

(** ** Parts *)
Section History.
Context {B : Base64} (limits : RequestValidationLimits) (replay : ThinkingReplayPolicy)
  (target : SourceIdentity).

Definition source_of (image : ImageContent) : ImageSourceWire.t :=
  match img_source image with
  | ImgUrl url => ImageSourceWire.Url url
  | ImgInline mime bytes => ImageSourceWire.Base64 (mime_as_str mime) (b64_encode bytes)
  | ImgDataUrl u =>
      match decode_validated_data_url u with
      | Ok (mime, bytes) => ImageSourceWire.Base64 (mime_as_str mime) (b64_encode bytes)
      | Err _ => ImageSourceWire.Url u
      end
  end.
(** Opaque reasoning goes back to its source only. *)
Definition replayed (opaque : OpaqueReasoning) : bool :=
  match replay with SameSourceOnly => matches_source (or_source opaque) target | DropAll => false end.
Definition thinking_block (t : ThinkingContent) : option Block.t :=
  match tc_opaque t with
  | Some opaque =>
      if replayed opaque
      then Some (if or_redacted opaque then Block.RedactedThinking (str_of (or_bytes opaque))
                 else Block.Thinking (tc_text t) (str_of (or_bytes opaque)))
      else None
  | None => None
  end.
Definition part_block (p : ContentPart) : option Block.t :=
  match p with
  | PText t => Some (Block.Text t)
  | PImage image => Some (Block.Image (source_of image))
  | PToolCall c => Some (Block.ToolUse (tc_id c) (tc_name c) (ta_value (tc_arguments c)))
  | PThinking t => thinking_block t
  | PRefusal _ => None
  end.

Definition image_ok (image : ImageContent) : Prop :=
  img_detail image = Auto /\
  match img_source image with
  | ImgUrl url => str_len url <= rv_max_image_url_bytes limits
  | ImgInline _ bytes => Z.of_nat (length bytes) <= rv_max_inline_image_bytes limits
  | ImgDataUrl u => exists mime bytes, decode_validated_data_url u = Ok (mime, bytes) /\
                      Z.of_nat (length bytes) <= rv_max_inline_image_bytes limits
  end.
Definition thinking_ok (t : ThinkingContent) : Prop :=
  forall opaque, tc_opaque t = Some opaque -> replayed opaque = true ->
    utf8_valid (or_bytes opaque) = true /\ (or_redacted opaque = true -> tc_text t = EmptyString).
Definition part_ok (role : MessageRole.t) (p : ContentPart) : Prop :=
  match p with
  | PText t => t <> EmptyString
  | PImage image => role = MessageRole.User /\ image_ok image
  | PToolCall _ => role = MessageRole.Assistant
  | PThinking t => role = MessageRole.Assistant /\ thinking_ok t
  | PRefusal _ => False
  end.
Definition image_weight (p : ContentPart) : Z := match p with PImage _ => 1 | _ => 0 end.

(** The state a part leaves: its output is in the result, not in the state. *)
Definition stays (n : Z) (s s' : PlanState) : Prop :=
  ps_system s' = ps_system s /\ ps_messages s' = ps_messages s /\ ps_images s' = ps_images s + n.
Ltac solve_stays := unfold stays; simpl; split_and!; (done || lia).
Lemma stays_refl s : stays 0 s s.
Proof. split_and!; [done|done|lia]. Qed.
Lemma stays_trans n n' s s' s'' : stays n s s' -> stays n' s' s'' -> stays (n + n') s s''.
Proof. intros (?&?&?) (?&?&?). split_and!; [congruence|congruence|lia]. Qed.

(** [counted Ok-part]: a part that is encoded, or why it is not. *)
Definition part_spec (ok : Prop) (n : Z) (block : option Block.t) (c : M PlanState LlmError (option Block.t))
  : Prop :=
  forall s, 0 <= ps_images s <= rv_max_images limits -> rv_max_images limits <= USIZE_MAX ->
    wp c (fun b s' => ok /\ b = block /\ stays n s s' /\ ps_images s' <= rv_max_images limits)
         (fun _ _ => ok -> rv_max_images limits < ps_images s + n) s.

Ltac encoded := refine (conj _ (conj eq_refl (conj _ _))); [|solve_stays|simpl; lia].
Lemma encode_thinking_spec t :
  part_spec (thinking_ok t) 0 (thinking_block t) (encode_thinking replay target t).
Proof.
  intros s Hs _. unfold encode_thinking, thinking_ok, thinking_block, replayed, wp.
  destruct (tc_opaque t) as [opaque|]; [|by encoded].
  destruct replay; [|by encoded].
  simpl. destruct (matches_source (or_source opaque) target) eqn:Hm; simpl.
  2:{ encoded. intros o [= <-]. by rewrite Hm. }
  destruct (utf8_valid (or_bytes opaque)) eqn:Hu; simpl.
  2:{ intros H. destruct (H opaque eq_refl Hm) as [H' _]. by rewrite Hu in H'. }
  destruct (or_redacted opaque) eqn:Hr; simpl.
  - destruct (str_is_empty (tc_text t)) eqn:He; simpl.
    + encoded. intros o [= <-] _. split; [done|]. by destruct (tc_text t).
    + intros H. destruct (H opaque eq_refl Hm) as [_ H']. apply str_is_empty_false in He.
      by destruct (He (H' Hr)).
  - encoded. intros o [= <-] _. by rewrite Hr.
Qed.

Lemma inline_source_spec mime bytes s :
  wp (inline_source limits mime bytes)
    (fun w s' => Z.of_nat (length bytes) <= rv_max_inline_image_bytes limits /\ s' = s /\
       w = ImageSourceWire.Base64 (mime_as_str mime) (b64_encode bytes))
    (fun _ _ => rv_max_inline_image_bytes limits < Z.of_nat (length bytes)) s.
Proof.
  unfold inline_source, wp.
  destruct (Z.ltb_spec (rv_max_inline_image_bytes limits) (Z.of_nat (length bytes))); simpl; [lia|].
  split_and!; [lia|done|done].
Qed.

(** The source of an image, once it is counted. *)
Definition image_source_step (image : ImageContent) : M PlanState LlmError ImageSourceWire.t :=
  match img_source image with
  | ImgUrl url =>
      if rv_max_image_url_bytes limits <? str_len url
      then refuse "Anthropic image URL exceeds resource limit"
      else mret (ImageSourceWire.Url url)
  | ImgInline mime bytes => inline_source limits mime bytes
  | ImgDataUrl data_url =>
      '(mime, bytes) ← lift (map_err LlmError.Validation (decode_validated_data_url data_url));
      inline_source limits mime bytes
  end.
Lemma image_source_spec image s :
  img_detail image = Auto ->
  wp (image_source_step image)
    (fun w s' => image_ok image /\ s' = s /\ w = source_of image)
    (fun _ _ => ~ image_ok image) s.
Proof.
  intros Hd. unfold image_source_step, image_ok, source_of, wp.
  destruct (img_source image) as [url|mime bytes|u].
  - destruct (Z.ltb_spec (rv_max_image_url_bytes limits) (str_len url)); simpl; [intros [_ ?]; lia|].
    split_and!; try done.
  - pose proof (inline_source_spec mime bytes s) as H. unfold wp in H.
    destruct (inline_source limits mime bytes s) as [s' [w|e]]; [naive_solver|]. intros [_ ?]. lia.
  - simpl. destruct (decode_validated_data_url u) as [[mime bytes]|e]; simpl.
    + pose proof (inline_source_spec mime bytes s) as H. unfold wp in H.
      unfold mbind, M_bind. simpl. destruct (inline_source limits mime bytes s) as [s' [w|e]].
      * destruct H as (? & -> & ->). split_and!; try done. eauto.
      * intros (_ & m & b & [= <- <-] & ?). lia.
    + by intros (_ & m & b & ? & _).
Qed.
Lemma encode_image_spec image :
  part_spec (image_ok image) 1 (Some (Block.Image (source_of image))) (encode_image limits image).
Proof.
  intros s Hs Hmax. unfold encode_image. fold (image_source_step image).
  destruct (img_detail image) eqn:Hd; try by intros [H _]; rewrite Hd in H.
  unfold wp at 1. unfold mbind, M_bind, get. unfold usize_checked_add.
  destruct (checked 0 USIZE_MAX (ps_images s + 1)) as [count|] eqn:Hc.
  2:{ simpl. intros _. apply checked_None in Hc. lia. }
  apply checked_Some in Hc as [-> Hc]. simpl.
  destruct (Z.ltb_spec (rv_max_images limits) (ps_images s + 1)); simpl; [done|].
  match goal with |- context [image_source_step image ?s1] =>
    pose proof (image_source_spec image s1 Hd) as Hi end.
  unfold wp in Hi. unfold mbind, M_bind. destruct (image_source_step image _) as [s' [w|e]]; [|done].
  destruct Hi as (Hok & -> & ->). simpl. encoded. done.
Qed.

Lemma part_spec_impl (ok ok' : Prop) n block c :
  (ok <-> ok') -> part_spec ok n block c -> part_spec ok' n block c.
Proof.
  intros Hok H s Hs Hmax. specialize (H s Hs Hmax). unfold wp in *.
  destruct (c s) as [s' [b|e]]; naive_solver.
Qed.
Lemma refuse_spec (ok : Prop) n block message : ~ ok -> part_spec ok n block (refuse message).
Proof. by intros Hn s _ _ H. Qed.
Lemma encode_content_spec p role :
  part_spec (part_ok role p) (image_weight p) (part_block p)
    (encode_content limits replay target p role).
Proof.
  destruct p as [t|image|t|r|c]; simpl.
  - intros s Hs _. destruct (str_is_empty t) eqn:He; unfold wp; simpl.
    + intros Hne%str_is_empty_false. congruence.
    + encoded. by apply str_is_empty_false.
  - destruct role; try (apply refuse_spec; by intros [? _]).
    eapply part_spec_impl; [|apply encode_image_spec]. naive_solver.
  - destruct role; try (apply refuse_spec; by intros [? _]).
    eapply part_spec_impl; [|apply encode_thinking_spec]. naive_solver.
  - apply refuse_spec; tauto.
  - destruct role; try by apply refuse_spec. intros s Hs _. unfold wp. simpl. by encoded.
Qed.

Lemma encode_contents_spec parts role s :
  0 <= ps_images s <= rv_max_images limits -> rv_max_images limits <= USIZE_MAX ->
  wp (encode_contents limits replay target parts role)
    (fun bs s' => Forall (part_ok role) parts /\ bs = omap part_block parts /\
       stays (image_count parts) s s' /\ ps_images s' <= rv_max_images limits)
    (fun _ _ => Forall (part_ok role) parts -> rv_max_images limits < ps_images s + image_count parts) s.
Proof.
  revert s. induction parts as [|p parts IH]; intros s Hs Hmax; simpl.
  - unfold wp. simpl. split_and!; [done|done|solve_stays|lia].
  - pose proof (image_count_nonneg parts) as Hn.
    assert (image_count (p :: parts) = image_weight p + image_count parts) as Hcount by by destruct p.
    simpl in Hcount. rewrite Hcount. apply wp_bind.
    pose proof (encode_content_spec p role s Hs Hmax) as Hp. unfold wp in Hp |- * at 1.
    destruct (encode_content limits replay target p role s) as [s1 [b|e]].
    + destruct Hp as (Hok & -> & Hst & Hle).
      assert (0 <= image_weight p) as Hw by by destruct p.
      assert (0 <= ps_images s1 <= rv_max_images limits) as Hs1 by (destruct Hst as (_&_&?); lia).
      pose proof (IH s1 Hs1 Hmax) as H. apply wp_bind. unfold wp in H |- * at 1.
      destruct (encode_contents limits replay target parts role s1) as [s2 [bs|e]].
      * destruct H as (Hoks & -> & Hst' & Hle'). unfold wp. simpl. split_and!.
        -- by constructor.
        -- by destruct (part_block p).
        -- by eapply stays_trans.
        -- done.
      * intros [_ Hf]%Forall_cons. specialize (H Hf). destruct Hst as (_&_&?). lia.
    + intros [Hf _]%Forall_cons. specialize (Hp Hf). lia.
Qed.

(** ** Messages *)
Definition message_blocks (m : Message) : list (MessageRoleWire.t * Block.t) :=
  match msg_role m with
  | MessageRole.User | MessageRole.Assistant =>
      map (pair (turn_role (msg_role m))) (omap part_block (msg_content m))
  | MessageRole.Tool =>
      match msg_tool_result m with
      | Some r =>
          match head (tr_content r) ≫= text_value with
          | Some text => [(MessageRoleWire.User, Block.ToolResult (tr_tool_call_id r) text (tr_is_error r))]
          | None => []
          end
      | None => []
      end
  | _ => []
  end.
Definition system_texts (m : Message) : list string :=
  match msg_role m with
  | MessageRole.System | MessageRole.Developer => omap text_value (msg_content m)
  | _ => []
  end.
Definition system_part_ok (p : ContentPart) : Prop := exists t, p = PText t /\ t <> EmptyString.
Definition message_ok (m : Message) : Prop :=
  match msg_role m with
  | MessageRole.System | MessageRole.Developer => Forall system_part_ok (msg_content m)
  | MessageRole.User | MessageRole.Assistant =>
      Forall (part_ok (msg_role m)) (msg_content m) /\
      (omap part_block (msg_content m) <> [] \/
       msg_role m = MessageRole.Assistant /\ forallb is_thinking (msg_content m) = true)
  | MessageRole.Tool =>
      exists r t, msg_tool_result m = Some r /\ head (tr_content r) ≫= text_value = Some t
  end.
Definition message_images (m : Message) : Z :=
  match msg_role m with
  | MessageRole.User | MessageRole.Assistant => image_count (msg_content m)
  | _ => 0
  end.
Definition image_total (messages : list Message) : Z := foldr (fun m n => message_images m + n) 0 messages.

Record planned (texts : list string) (blocks : list (MessageRoleWire.t * Block.t)) (n : Z)
    (s s' : PlanState) : Prop := {
  pl_system : ps_system s' = ps_system s ++ texts;
  pl_flat : flat (ps_messages s') = flat (ps_messages s) ++ blocks;
  pl_proper : proper_turns (ps_messages s) -> proper_turns (ps_messages s');
  pl_images : ps_images s' = ps_images s + n }.
Lemma planned_trans t t' b b' n n' s s' s'' :
  planned t b n s s' -> planned t' b' n' s' s'' -> planned (t ++ t') (b ++ b') (n + n') s s''.
Proof.
  intros [H1 H2 H3 H4] [I1 I2 I3 I4]. split; [|by rewrite I2, H2, (assoc_L (++))|auto|lia].
  by rewrite I1, H1, (assoc_L (++)).
Qed.
Lemma stays_planned n s s' : stays n s s' -> planned [] [] n s s'.
Proof. intros (H1 & H2 & H3). split; rewrite ?app_nil_r; [done|by rewrite H2|by rewrite H2|done]. Qed.

Lemma push_turn_spec role content s :
  content <> [] ->
  wp (push_turn role content) (fun _ s' => planned [] (map (pair role) content) 0 s s')
    (fun _ _ => False) s.
Proof.
  intros Hc. unfold push_turn, wp. unfold mbind, M_bind, get. simpl.
  pose proof (append_turn_flat role content (ps_messages s)) as Hf.
  pose proof (append_turn_proper role content (ps_messages s) Hc) as Hp.
  destruct (append_turn role content (ps_messages s)) as [turns merged]. simpl in *.
  destruct merged; simpl; (split; simpl; [by rewrite app_nil_r|done|done|lia]).
Qed.
Lemma system_parts_spec parts s :
  wp (for_each system_part parts)
    (fun _ s' => Forall system_part_ok parts /\ planned (omap text_value parts) [] 0 s s')
    (fun _ _ => ~ Forall system_part_ok parts) s.
Proof.
  revert s. induction parts as [|p parts IH]; intros s; simpl.
  - unfold wp. simpl. split; [done|]. apply stays_planned, stays_refl.
  - apply wp_bind. destruct p as [t| | | | ]; unfold wp at 1; simpl.
    2, 3, 4, 5: intros [(t & ? & _) _]%Forall_cons; done.
    destruct (str_is_empty t) eqn:He; simpl.
    + intros [(t' & [= <-] & Hne) _]%Forall_cons. by destruct t.
    + apply str_is_empty_false in He. set (s1 := mk_plan_state _ _ _ _).
      specialize (IH s1). unfold wp in *. destruct (for_each system_part parts s1) as [s2 [[]|e]].
      * destruct IH as [Hf Hpl]. split; [constructor; [by exists t|done]|].
        change (t :: omap text_value parts) with ([t] ++ omap text_value parts).
        apply (planned_trans [t] _ [] [] 0 0 s s1 s2); [|done].
        split; simpl; [done|by rewrite app_nil_r|done|lia].
      * by intros [_ ?]%Forall_cons.
Qed.

Definition message_spec (m : Message) (s : PlanState) : Prop :=
  wp (plan_message limits replay target m)
    (fun _ s' => message_ok m /\
       planned (system_texts m) (message_blocks m) (message_images m) s s' /\
       ps_images s' <= rv_max_images limits)
    (fun _ _ => message_ok m -> rv_max_images limits < ps_images s + message_images m) s.

Lemma system_message_spec m s s0 :
  stays 0 s s0 -> ps_images s <= rv_max_images limits ->
  (msg_role m = MessageRole.System \/ msg_role m = MessageRole.Developer) ->
  wp (for_each system_part (msg_content m))
    (fun _ s' => message_ok m /\
       planned (system_texts m) (message_blocks m) (message_images m) s s' /\
       ps_images s' <= rv_max_images limits)
    (fun _ _ => message_ok m -> rv_max_images limits < ps_images s + message_images m) s0.
Proof.
  intros Hst Hle Hr. pose proof (system_parts_spec (msg_content m) s0) as H. unfold wp in *.
  unfold message_ok, system_texts, message_blocks, message_images.
  destruct (for_each system_part (msg_content m) s0) as [s' [[]|e]].
  - destruct H as [Hf Hpl].
    pose proof (planned_trans _ _ _ _ _ _ _ _ _ (stays_planned _ _ _ Hst) Hpl) as Hpl'.
    simpl in Hpl'. pose proof (pl_images _ _ _ _ _ Hpl') as Hi.
    destruct Hr as [-> | ->]; (split_and!; [done|done|lia]).
  - destruct Hr as [-> | ->]; intros ?; contradiction.
Qed.
Lemma spoken_message_spec m s :
  0 <= ps_images s <= rv_max_images limits -> rv_max_images limits <= USIZE_MAX ->
  (msg_role m = MessageRole.User \/ msg_role m = MessageRole.Assistant) -> message_spec m s.
Proof.
  intros Hs Hmax Hr. unfold message_spec.
  assert (plan_message limits replay target m =
    (content ← encode_contents limits replay target (msg_content m) (msg_role m);
     if is_empty content
     then if bool_decide (msg_role m = MessageRole.Assistant) && forallb is_thinking (msg_content m)
          then mret tt
          else refuse "Anthropic message content must not be empty"
     else push_turn (turn_role (msg_role m)) content)) as ->
    by (unfold plan_message; by destruct Hr as [-> | ->]).
  assert (message_ok m <-> Forall (part_ok (msg_role m)) (msg_content m) /\
      (omap part_block (msg_content m) <> [] \/
       msg_role m = MessageRole.Assistant /\ forallb is_thinking (msg_content m) = true)) as Hok
    by (unfold message_ok; by destruct Hr as [-> | ->]).
  assert (system_texts m = [] /\ message_images m = image_count (msg_content m) /\
      message_blocks m = map (pair (turn_role (msg_role m))) (omap part_block (msg_content m)))
    as (-> & -> & ->)
    by (unfold system_texts, message_images, message_blocks; by destruct Hr as [-> | ->]).
  apply wp_bind. pose proof (encode_contents_spec (msg_content m) (msg_role m) s Hs Hmax) as H.
  unfold wp in H |- * at 1.
  destruct (encode_contents limits replay target (msg_content m) (msg_role m) s) as [s1 [bs|e]].
  2:{ rewrite Hok. intros [Hf _]. auto. }
  destruct H as (Hf & -> & Hst & Hle).
  destruct (is_empty (omap part_block (msg_content m))) eqn:He.
  - assert (omap part_block (msg_content m) = []) as Hnil by (by destruct (omap _ _)).
    rewrite Hnil in Hok |- *. destruct (bool_decide _ && _) eqn:Hb; unfold wp; simpl; rewrite Hok.
    + apply andb_true_iff in Hb as [Ha%bool_decide_eq_true Ht].
      split_and!; [done|by right|by apply stays_planned|done].
    + intros [_ [?|[Ha Ht]]]; [done|]. rewrite bool_decide_true in Hb by done. by rewrite Ht in Hb.
  - apply is_empty_false in He.
    pose proof (push_turn_spec (turn_role (msg_role m)) _ s1 He) as Hp. unfold wp in *.
    destruct (push_turn _ _ s1) as [s2 [[]|e]]; [|done]. rewrite Hok.
    pose proof (planned_trans _ _ _ _ _ _ _ _ _ (stays_planned _ _ _ Hst) Hp) as Hpl.
    simpl in Hpl. rewrite Z.add_0_r in Hpl. split_and!; [done|by left|done|].
    pose proof (pl_images _ _ _ _ _ Hp). lia.
Qed.
Lemma tool_message_spec m s :
  ps_images s <= rv_max_images limits -> msg_role m = MessageRole.Tool -> message_spec m s.
Proof.
  intros Hle Hr. unfold message_spec, plan_message, message_ok, system_texts, message_blocks,
    message_images, encode_tool_result. rewrite Hr. apply wp_bind.
  destruct (msg_tool_result m) as [r|]; [|unfold wp; simpl; by intros (? & ? & ? & _)].
  destruct (head (tr_content r) ≫= text_value) as [t|] eqn:Ht.
  2:{ unfold wp. simpl. intros (? & ? & [= <-] & H). congruence. }
  set (b := Block.ToolResult _ _ _). unfold wp at 1. cbn [mret M_ret].
  pose proof (push_turn_spec MessageRoleWire.User [b] s ltac:(done)) as Hp. unfold wp in *.
  destruct (push_turn MessageRoleWire.User [b] s) as [s2 [[]|e]]; [|done].
  pose proof (pl_images _ _ _ _ _ Hp). split_and!; [by exists r, t|done|lia].
Qed.
Lemma plan_message_spec m s :
  0 <= ps_images s <= rv_max_images limits -> rv_max_images limits <= USIZE_MAX -> message_spec m s.
Proof.
  intros Hs Hmax. destruct (msg_role m) eqn:Hr.
  - unfold message_spec, plan_message. rewrite Hr. apply wp_bind. unfold wp at 1. simpl.
    apply system_message_spec; [solve_stays|lia|by right].
  - unfold message_spec, plan_message. rewrite Hr.
    apply system_message_spec; [solve_stays|lia|by left].
  - apply spoken_message_spec; auto.
  - apply spoken_message_spec; auto.
  - apply tool_message_spec; [lia|done].
Qed.

Lemma message_images_nonneg m : 0 <= message_images m.
Proof. unfold message_images. pose proof (image_count_nonneg (msg_content m)). by destruct (msg_role m). Qed.
Lemma image_total_nonneg messages : 0 <= image_total messages.
Proof. induction messages as [|m l IH]; simpl; [done|]. pose proof (message_images_nonneg m). lia. Qed.

Lemma plan_messages_spec messages s :
  0 <= ps_images s <= rv_max_images limits -> rv_max_images limits <= USIZE_MAX ->
  wp (for_each (plan_message limits replay target) messages)
    (fun _ s' => Forall message_ok messages /\
       planned (concat (map system_texts messages)) (concat (map message_blocks messages))
         (image_total messages) s s' /\ ps_images s' <= rv_max_images limits)
    (fun _ _ => Forall message_ok messages -> rv_max_images limits < ps_images s + image_total messages) s.
Proof.
  revert s. induction messages as [|m messages IH]; intros s Hs Hmax; simpl.
  - unfold wp. simpl. split_and!; [done|apply stays_planned, stays_refl|lia].
  - apply wp_bind. pose proof (plan_message_spec m s Hs Hmax) as Hm. unfold message_spec in Hm.
    pose proof (message_images_nonneg m). pose proof (image_total_nonneg messages).
    unfold wp in Hm |- * at 1. destruct (plan_message limits replay target m s) as [s1 [[]|e]].
    + destruct Hm as (Hok & Hpl & Hle).
      assert (0 <= ps_images s1 <= rv_max_images limits) as Hs1
        by (pose proof (pl_images _ _ _ _ _ Hpl); lia).
      pose proof (IH s1 Hs1 Hmax) as H'. unfold wp in *.
      destruct (for_each _ messages s1) as [s2 [[]|e]].
      * destruct H' as (Hoks & Hpl' & Hle'). split_and!; [by constructor|by eapply planned_trans|done].
      * intros [_ Hf]%Forall_cons. specialize (H' Hf). pose proof (pl_images _ _ _ _ _ Hpl). lia.
    + intros [Hf _]%Forall_cons. specialize (Hm Hf). lia.
Qed.

Lemma flat_head turns :
  proper_turns turns ->
  starts_with_user turns = true <-> exists b rest, flat turns = (MessageRoleWire.User, b) :: rest.
Proof.
  intros [_ Hn]. destruct turns as [|[role content] turns]; simpl; [split; [done|by intros (?&?&?)]|].
  apply Forall_cons in Hn as [Hc _]. simpl in Hc. destruct content as [|b content]; [done|].
  unfold flat. simpl. rewrite bool_decide_eq_true. split; [intros ->; eauto|]. by intros (?&?&[= -> _ _]).
Qed.

Lemma plan_history_spec messages :
  0 <= rv_max_images limits <= USIZE_MAX ->
  (is_ok (plan_history limits replay target messages) = true <->
     Forall message_ok messages /\ image_total messages <= rv_max_images limits /\
     exists b rest, concat (map message_blocks messages) = (MessageRoleWire.User, b) :: rest) /\
  forall h, plan_history limits replay target messages = Ok h ->
    flat (hp_messages h) = concat (map message_blocks messages) /\
    alternating (hp_messages h) /\ Forall (fun t => tu_content t <> []) (hp_messages h) /\
    default [] (hp_system h) = concat (map system_texts messages).
Proof.
  intros Hmax. pose proof (plan_messages_spec messages plan_start ltac:(simpl; lia) ltac:(lia)) as H.
  unfold plan_history, wp in *.
  destruct (for_each (plan_message limits replay target) messages plan_start) as [s [[]|e]].
  - destruct H as (Hok & [H1 H2 H3 H4] & Hle). simpl in H1, H2, H4.
    assert (proper_turns (ps_messages s)) as Hp by (apply H3; split; constructor).
    pose proof (flat_head _ Hp) as Hh. rewrite H2 in Hh. change (flat []) with (@nil (MessageRoleWire.t * Block.t)) in *.
    simpl in Hh, H2. destruct (starts_with_user (ps_messages s)); simpl.
    + split; [split; [|done]; intros _; split_and!; [done|lia|by apply Hh]|].
      intros h [= <-]. simpl. destruct Hp. split_and!; try done. rewrite <- H1. by destruct (ps_system s).
    + split; [|done]. split; [done|]. intros (_ & _ & Hex%Hh). done.
  - simpl in H. split; [|done]. split; [done|]. intros (Hok & Hle & _). specialize (H Hok). lia.
Qed.

(** C17. The history of an Anthropic request is planned exactly when every message
    can be written, the images are within the limit and the first block is the
    user's.  Its turns then hold the blocks of the conversation in order, each
    once: their roles alternate, none is empty, and the system texts are the
    system and developer messages in order. *)
Theorem messages_history_exact messages :
  0 <= rv_max_images limits <= USIZE_MAX ->
  (is_ok (plan_history limits replay target messages) = true <->
     Forall message_ok messages /\ image_total messages <= rv_max_images limits /\
     exists b rest, concat (map message_blocks messages) = (MessageRoleWire.User, b) :: rest) /\
  forall h, plan_history limits replay target messages = Ok h ->
    flat (hp_messages h) = concat (map message_blocks messages) /\
    alternating (hp_messages h) /\ Forall (fun t => tu_content t <> []) (hp_messages h) /\
    default [] (hp_system h) = concat (map system_texts messages).
Proof. apply plan_history_spec. Qed.
End History.

(** ** Bodies *)
Section Bodies.
Context {B : Base64} {JP : JsonPrinter}.

(** What the encoder asks of a plan. *)
Record messages_ready (c : MessagesContext) : Prop := {
  my_tokens : exists n, match go_max_output_tokens (mx_options c) with
                          | Some n => Some n | None => mx_default_max_output_tokens c
                          end = Some n /\ n <> 0;
  my_temperature : forall t, go_temperature (mx_options c) = Some t ->
                     SFleb f64_zero t = true /\ SFleb t f64_one = true;
  my_reasoning : go_reasoning (mx_options c) = ProviderDefault;
  my_choice : go_tool_choice (mx_options c) <> None -> go_tools (mx_options c) <> [];
  my_format : go_response_format (mx_options c) <> FJsonObject;
  my_messages : Forall (message_ok (mx_limits c) (mx_replay c) (mx_source c)) (mx_messages c);
  my_images : image_total (mx_messages c) <= rv_max_images (mx_limits c);
  my_first : exists b rest,
    concat (map (message_blocks (mx_replay c) (mx_source c)) (mx_messages c))
    = (MessageRoleWire.User, b) :: rest }.

Lemma is_ok_bind {E A C} (x : result E A) (f : A -> result E C) :
  is_ok (x ≫= f) = true <-> exists a, x = Ok a /\ is_ok (f a) = true.
Proof. destruct x; simpl; naive_solver. Qed.

Lemma messages_request_ok c :
  0 <= rv_max_images (mx_limits c) <= USIZE_MAX ->
  is_ok (messages_request_wire c) = true <-> messages_ready c.
Proof.
  intros Hmax. destruct (plan_history_spec (mx_limits c) (mx_replay c) (mx_source c) (mx_messages c) Hmax)
    as [Hh _].
  unfold messages_request_wire. rewrite !is_ok_bind. split.
  - intros (n & Hn%ok_or_ok & H). rewrite !is_ok_bind in H.
    destruct H as ([] & Hz%invalid_if_ok & H). apply is_ok_bind in H as ([] & Ht%invalid_if_ok & H).
    apply is_ok_bind in H as ([] & Hr & H). apply is_ok_bind in H as (h & Hp & H).
    apply is_ok_bind in H as ([] & Hc & H). apply is_ok_bind in H as (f & Hf & _).
    rewrite Hp in Hh. destruct (proj1 Hh eq_refl) as (Hm & Hi & Hfirst). constructor; try done.
    + exists n. split; [done|]. by apply Z.eqb_neq.
    + intros t Et. rewrite Et in Ht. apply negb_false_iff in Ht. by apply andb_true_iff in Ht.
    + by destruct (go_reasoning (mx_options c)).
    + destruct (go_tools (mx_options c)); [|done]. simpl in Hc.
      by destruct (go_tool_choice (mx_options c)) as [[]|].
    + intros E. by rewrite E in Hf.
  - intros [(n & Hn & Hz) Ht Hr Hc Hf Hm Hi Hfirst]. exists n. rewrite ok_or_ok. split; [done|].
    rewrite (proj2 (Z.eqb_neq n 0) Hz). simpl.
    assert (match go_temperature (mx_options c) with
            | Some t => negb (SFleb f64_zero t && SFleb t f64_one)
            | None => false
            end = false) as ->.
    { destruct (go_temperature (mx_options c)) as [t|]; [|done]. by destruct (Ht t eq_refl) as [-> ->]. }
    simpl. rewrite Hr. simpl.
    destruct (plan_history _ _ _ _) as [h|] eqn:Hp; [|by discriminate (proj2 Hh (conj Hm (conj Hi Hfirst)))].
    simpl. destruct (go_tools (mx_options c)) as [|t ts] eqn:Hts; simpl.
    + destruct (go_tool_choice (mx_options c)); [by destruct (Hc ltac:(done))|]. simpl.
      by destruct (go_response_format (mx_options c)).
    + destruct (messages_tool_choice _ _); simpl; by destruct (go_response_format (mx_options c)).
Qed.

(** *** The SDK's fields *)
Definition messages_field_names : list string :=
  ["model"; "max_tokens"; "messages"; "system"; "stream"; "temperature"; "tools"; "tool_choice";
   "thinking"; "output_config"].
Lemma messages_fields_sublist r : map fst (messages_request_fields r) `sublist_of` messages_field_names.
Proof.
  unfold messages_request_fields, messages_field_names. do 3 (apply sublist_skip). apply opt_sublist.
  apply sublist_skip. do 4 apply opt_sublist. rewrite <- (app_nil_r (opt "output_config" _ _)).
  by apply opt_sublist.
Qed.
Lemma messages_fields_nodup r : NoDup (map fst (messages_request_fields r)).
Proof.
  eapply sublist_NoDup; [|apply messages_fields_sublist]. apply (bool_decide_unpack _). by vm_compute.
Qed.
Lemma messages_fields_unprotected r k :
  is_protected_body_field ANTHROPIC_MESSAGES_PROTECTED_BODY_FIELDS k = false ->
  obj_get (messages_request_fields r) k = None.
Proof. eapply unprotected_absent; [|apply messages_fields_sublist]. by vm_compute. Qed.

Definition messages_extension (raw : option RawFields) : Prop :=
  forall r, raw = Some r ->
    (exists v, anthropic_dangerous_from_object v = Ok r) /\ NoDup (map fst (rf_fields r)).

(** The object of the body: the typed fields as values, and the extension's. *)
Definition messages_object (fields : list (string * json)) (raw : option RawFields)
    (object : list (string * json)) : Prop :=
  forall k, obj_get object k =
    match obj_get fields k with
    | Some v => Some (to_value v)
    | None => raw ≫= fun r => obj_get (rf_fields r) k
    end.
Lemma messages_body_ok w raw :
  messages_extension raw -> printer_total ->
  exists object text, messages_object (messages_request_fields w) raw object /\
    to_string (JObject object) = Ok text /\
    messages_body (messages_request_fields w) raw = Ok (bytes_of text).
Proof.
  intros Hext Hp. unfold messages_body, to_vec, messages_object.
  destruct (to_value_get _ (messages_fields_nodup w)) as (o & -> & Ho). destruct raw as [r|].
  - destruct (Hext r eq_refl) as [[v Hv] Hnd].
    apply raw_parse_ok in Hv as (fields & encoded & _ & _ & _ & Hu & _ & _ & ->). cbn [rf_fields] in *.
    destruct (merge_raw_ok "protocol_options.anthropic.raw" fields o) as [merged Hm]; [done| |].
    { eapply Forall_impl; [exact Hu|]. intros e He. by rewrite Ho, messages_fields_unprotected. }
    destruct (Hp (JObject merged)) as [text Ht]. exists merged, text.
    split; [|split; [done|by rewrite Hm; cbn [map_err mbind result_bind]; rewrite Ht]].
    intros k. rewrite (merge_raw_get _ _ _ _ Hm k), Ho.
    by destruct (obj_get (messages_request_fields w) k).
  - destruct (Hp (JObject o)) as [text Ht]. exists o, text.
    split; [|split; [done|by cbn [map_err mbind result_bind]; rewrite Ht]].
    intros k. rewrite Ho. by destruct (obj_get (messages_request_fields w) k).
Qed.

(** A plan that is ready has an Anthropic body, and encoding it fails only
    when the text is longer than the resolved limit; a plan that is not ready is
    refused.  Every field the SDK owns is written as planned, and an accepted
    extension adds its fields beside them without a conflict. *)
Theorem messages_body_exact c :
  0 <= rv_max_images (mx_limits c) <= USIZE_MAX ->
  messages_extension (messages_options (mx_options c) ≫= ao_raw) -> printer_total ->
  (~ messages_ready c -> is_ok (encode_messages_request c) = false) /\
  (messages_ready c ->
   exists w object text, messages_request_wire c = Ok w /\
     messages_object (messages_request_fields w) (messages_options (mx_options c) ≫= ao_raw) object /\
     to_string (JObject object) = Ok text /\
     encode_messages_request c =
       if rv_max_body_bytes (mx_limits c) <? Z.of_nat (length (bytes_of text))
       then invalid "request_body" ValidationReason.OutOfRange
              "encoded Anthropic Messages request exceeds the resolved body limit"
       else Ok (bytes_of text)).
Proof.
  intros Hmax Hext Hp. rewrite <- (messages_request_ok c Hmax). unfold encode_messages_request. split.
  - by destruct (messages_request_wire c).
  - destruct (messages_request_wire c) as [w|]; [|done]. intros _.
    destruct (messages_body_ok w _ Hext Hp) as (object & text & Ho & Ht & Hb).
    exists w, object, text. simpl. by rewrite Hb.
Qed.

(** Without a tool choice the wish to have no parallel calls is lost: the
    request is the one of a caller who did not ask. *)
Theorem parallel_wish_lost c o :
  let with_parallel p := mk_generation_options (go_temperature o) (go_max_output_tokens o)
    (go_reasoning o) (go_response_format o) (go_tools o) None p (go_timeout o) (go_headers o)
    (go_metadata o) (go_protocol_options o) in
  let request p := encode_messages_request
    (mk_messages_context (mx_wire_model c) (mx_messages c) (mx_source c) (with_parallel p)
       (mx_replay c) (mx_limits c) (mx_default_max_output_tokens c)) in
  request (Some Disallowed) = request None /\ request (Some Disallowed) = request (Some Enabled).
Proof. done. Qed.
End Bodies.

(** ** Samples *)
Definition chat_source : SourceIdentity := mk_source_identity "anthropic" "claude" "anthropic-messages" None.
Definition signed_thought (source : SourceIdentity) : ContentPart :=
  PThinking (mk_thinking "so" (Some (mk_opaque (bytes_of "sig") source false))).
Definition city_call : ContentPart :=
  PToolCall (mk_tool_call "call_1" "lookup" (mk_tool_arguments "{}" (JObject []))).
Definition city_result : Message :=
  from_tool_result (mk_tool_result "call_1" "lookup" [PText "Oslo"] false None).
Definition sample_dialogue : list Message :=
  [message_new MessageRole.System [PText "Be brief."];
   message_new MessageRole.User [PText "Where?"];
   message_new MessageRole.Assistant [signed_thought chat_source; city_call];
   city_result;
   message_new MessageRole.User [PText "Thanks."]].
Definition messages_limits : RequestValidationLimits :=
  mk_request_limits 1000 10 1000 10 1000 1000 10 100 10 1000 1000.

(** The signed thought goes back to its source, and the tool result and the text
    after it share one user turn. *)
Lemma messages_history_exact_witness :
  0 <= rv_max_images messages_limits <= USIZE_MAX /\
  exists h, plan_history (B := letter_codec) messages_limits SameSourceOnly chat_source sample_dialogue = Ok h /\
    alternating (hp_messages h) /\
    flat (hp_messages h) =
      [(MessageRoleWire.User, Block.Text "Where?");
       (MessageRoleWire.Assistant, Block.Thinking "so" "sig");
       (MessageRoleWire.Assistant, Block.ToolUse "call_1" "lookup" (JObject []));
       (MessageRoleWire.User, Block.ToolResult "call_1" "Oslo" false);
       (MessageRoleWire.User, Block.Text "Thanks.")].
Proof.
  assert (0 <= rv_max_images messages_limits <= USIZE_MAX) as Hmax by (vm_compute; split; discriminate).
  split; [exact Hmax|].
  destruct (messages_history_exact (B := letter_codec) messages_limits SameSourceOnly chat_source
    sample_dialogue Hmax) as [_ H].
  destruct (plan_history (B := letter_codec) messages_limits SameSourceOnly chat_source sample_dialogue)
    as [h|e] eqn:E.
  - destruct (H h eq_refl) as (Hf & Ha & _ & _). exists h. split; [reflexivity|]. split; [exact Ha|].
    rewrite Hf. vm_compute. reflexivity.
  - vm_compute in E. discriminate E.
Defined.

Definition messages_sample_context : MessagesContext :=
  mk_messages_context "claude" sample_dialogue chat_source
    (mk_generation_options None None ProviderDefault FText [clock_tool] (Some ToolChoice.Required)
       (Some Disallowed) None [] ∅
       (Some (Options.AnthropicMessages (mk_anthropic_options (Some Summarized) (Some AnthropicEffort.High)
          (Some (mk_raw_fields [("top_k", JNumber (PosInt 5))] 2))))))
    SameSourceOnly messages_limits (Some 64).
Definition braces_printer : JsonPrinter := fun _ => Ok "{}".

Lemma messages_body_exact_witness :
  exists body, encode_messages_request (B := letter_codec) (JP := braces_printer)
    messages_sample_context = Ok body.
Proof.
  destruct (messages_body_exact (B := letter_codec) (JP := braces_printer) messages_sample_context)
    as [_ H].
  - vm_compute. split; discriminate.
  - intros r Hr. injection Hr as <-. split.
    + exists (JObject [("top_k", JNumber (PosInt 5))]). vm_compute. reflexivity.
    + constructor; [apply not_elem_of_nil|constructor].
  - intros v. exists "{}". reflexivity.
  - destruct H as (w & object & text & _ & _ & Ht & He).
    + apply (messages_request_ok (B := letter_codec)); [vm_compute; split; discriminate|].
      vm_compute. reflexivity.
    + injection Ht as <-. exists (bytes_of "{}"). exact He.
Defined.
