(* ===== verification/Plan.v ===== *)
(** * Planning and preparing a call

    [src/src/plan/], the planning part of [src/src/provider/runtime.rs],
    [src/src/execution/planner.rs] and [src/src/protocol/{mod,preparation}.rs] with
    the two drivers: a request and a runtime become a plan, and a plan becomes the
    call that is executed. *)
From Stdlib Require Import SpecFloat.
From S2P Require Import Prelude Errors Usage Sse Domain Images Structured ChatWire Schema Options Messages History Request Headers Serialize Contract Catalog ChatRequest MessagesRequest.

(** ** Limits: [plan/policy.rs] *)
Record ModelPlanLimits := mk_plan_limits {
  mpl_max_output_tokens : option Z; mpl_default_max_output_tokens : option Z }.
Record TransportLimits := mk_transport_limits {
  trl_max_http_error_body_bytes : Z; trl_sse : SseConfig }.
Record ResolvedLimits := mk_resolved_limits {
  rsl_request : RequestValidationLimits; rsl_response : ResponseLimits;
  rsl_transport : TransportLimits; rsl_model : ModelPlanLimits }.

Definition request_limits_of (r : ResourceLimits) : RequestValidationLimits :=
  mk_request_limits (max_request_body_bytes r) (max_messages r) (max_total_text_bytes r) (max_tools r)
    (max_tool_description_bytes r) (max_schema_bytes r) (max_schema_depth r) (max_json_array_items r)
    (max_images r) (max_inline_image_bytes r) (max_image_url_bytes r).
(** [ResolvedLimits::compile]. *)
Definition compile_limits (resources : ResourceLimits) (sse : SseConfig) (max_http_error_body_bytes : Z)
    (max_output_tokens default_max_output_tokens : option Z) : result ValidationError ResolvedLimits :=
  _ ← validate_limits resources;
  if max_http_error_body_bytes =? 0
  then Err (validation_error "max_http_error_body_bytes" ValidationReason.Zero
              "HTTP error body limit must be positive")
  else Ok (mk_resolved_limits (request_limits_of resources) (response_limits_from resources)
             (mk_transport_limits max_http_error_body_bytes sse)
             (mk_plan_limits max_output_tokens default_max_output_tokens)).

Record ResolvedTarget := mk_target {
  ta_provider_id : string; ta_product_id : string; ta_protocol_id : string;
  ta_protocol_kind : ProtocolKind.t; ta_domain_model : string; ta_provider_model : string;
  ta_deployment_id : option string; ta_wire_model : string }.
Record CallPolicySnapshot := mk_policy {
  po_target : ResolvedTarget; po_capabilities : ProviderCapabilities;
  po_protocol : ProtocolContract.t; po_history : HistoryPolicy; po_limits : ResolvedLimits;
  po_response_format : ResponseFormat }.

(** ** Plans: [plan/contract.rs] *)
Record NormalizationReport := mk_normalization_report {
  nr_mappings : list IdMapping; nr_diagnostics : list (DiagnosticCode * Z);
  nr_input_message_count : Z; nr_output_message_count : Z }.
Record PlannedRequest := mk_planned_request {
  pq_model : ModelRef; pq_source : SourceIdentity; pq_messages : list Message;
  pq_options : GenerationOptions; pq_normalization : NormalizationReport }.
Record PlanProvenance := mk_provenance {
  pv_capability_source : PolicySource; pv_compat_source : PolicySource;
  pv_model_override_applied : bool }.
Record CallExecutionIntent := mk_intent {
  xi_request_headers : list (string * list ascii); xi_timeout : option RequestTimeout }.
Record ResolvedCallPlan := mk_call_plan {
  cpl_planned : PlannedRequest; cpl_policy : CallPolicySnapshot; cpl_execution : CallExecutionIntent;
  cpl_provenance : PlanProvenance }.

(** ** The runtime: [provider/runtime.rs]

    The fields planning reads; the header pipeline is in [Headers]. *)
Record ProviderRuntime := mk_runtime {
  rt_provider_id : string; rt_product_id : string; rt_protocol : ValidatedProtocolBinding;
  rt_capabilities : ProviderCapabilities;
  rt_model_capabilities : gmap string ModelCapabilityProfile; rt_catalog : ModelCatalog;
  rt_model_protocol_contracts : gmap string ProtocolContract.t;
  rt_resource_limits : ResourceLimits; rt_sse : SseConfig; rt_max_http_error_body_bytes : Z }.

Definition model_entry (rt : ProviderRuntime) (model : string) : option ModelEntry :=
  rt_catalog rt !! (rt_provider_id rt, rt_product_id rt, model).
Definition capabilities_for (rt : ProviderRuntime) (model : string) : ProviderCapabilities :=
  let capabilities := rt_capabilities rt in
  let capabilities := match model_entry rt model with
                      | Some entry => apply_catalog (me_capabilities entry) capabilities
                      | None => capabilities
                      end in
  match rt_model_capabilities rt !! model with
  | Some profile => apply_model profile capabilities
  | None => capabilities
  end.
Definition contract_for (rt : ProviderRuntime) (model : string) : ProtocolContract.t :=
  default (vb_contract (rt_protocol rt)) (rt_model_protocol_contracts rt !! model).

(** The checks [ProviderRuntime::build] makes of capabilities, catalog and
    contracts, and [validate_contracts]; endpoints and credentials are not part
    of the runtime here. *)
Definition validate_contracts (rt : ProviderRuntime) : result LlmError unit :=
  _ ← ProtocolContract.validate_capabilities (vb_contract (rt_protocol rt)) (rt_capabilities rt);
  all_ok (fun e : string * ProtocolContract.t =>
            ProtocolContract.validate_capabilities e.2 (capabilities_for rt e.1))
    (map_to_list (rt_model_protocol_contracts rt)).
Definition validate_runtime (rt : ProviderRuntime) : result LlmError unit :=
  _ ← Contract.validate_capabilities (rt_capabilities rt);
  _ ← all_ok (fun e =>
        let '(provider, product, _) := me_key e in
        configuration_if (negb (str_eqb provider (rt_provider_id rt) && str_eqb product (rt_product_id rt)
                                && str_eqb (me_protocol_id e) (vb_id (rt_protocol rt))))
          "catalog entry does not match provider product protocol") (entries (rt_catalog rt));
  _ ← all_ok (fun e : string * ModelCapabilityProfile =>
        configuration_if (negb (str_eqb e.1 (mcp_model e.2)))
          "model capability map key does not match its declaration")
        (map_to_list (rt_model_capabilities rt));
  _ ← all_ok (fun e : string * ProtocolContract.t => validate_contract (rt_protocol rt) e.2)
        (map_to_list (rt_model_protocol_contracts rt));
  _ ← configuration_if
        (bool_decide (vb_dialect (rt_protocol rt) = ProtocolDialect.AnthropicMessages)
         && negb (bool_decide (rt_model_protocol_contracts rt = ∅)))
        "Anthropic Messages profiles cannot carry OpenAI compatibility policy";
  validate_contracts rt.

Definition plan_policy_for (rt : ProviderRuntime) (request : GenerateRequest)
  : result LlmError CallPolicySnapshot :=
  let model := mr_model (gr_model request) in
  _ ← invalid_if (negb (str_eqb (mr_provider (gr_model request)) (rt_provider_id rt))) "model.provider"
        ValidationReason.ProviderMismatch
        "request provider does not match configured client runtime";
  _ ← match go_protocol_options (gr_options request) with
      | Some options =>
          invalid_if (negb (str_eqb (protocol_id options) (vb_id (rt_protocol rt)))) "protocol_options"
            ValidationReason.Conflict
            "protocol-scoped options do not match the selected runtime protocol"
      | None => Ok tt
      end;
  let entry := model_entry rt model in
  let capabilities := capabilities_for rt model in
  _ ← Contract.validate_capabilities capabilities;
  let protocol := contract_for rt model in
  _ ← ProtocolContract.validate_options protocol (go_protocol_options (gr_options request)) capabilities;
  let model_limits := match entry with Some e => me_limits e | None => model_limits_default end in
  limits ← map_err LlmError.Validation
    (compile_limits (apply_to model_limits (rt_resource_limits rt)) (rt_sse rt)
       (rt_max_http_error_body_bytes rt) (ml_max_output_tokens model_limits)
       (entry ≫= me_default_max_output_tokens));
  let history := ProtocolContract.history_policy protocol in
  provider_model ← match entry with
                   | Some e => Ok (me_provider_model_id e)
                   | None => map_err LlmError.Validation (provider_model_id_new model)
                   end;
  wire_model ← match entry with
               | Some e => map_err LlmError.Validation (ModelId_new (me_wire_model_value e))
               | None => Ok model
               end;
  Ok (mk_policy
        (mk_target (rt_provider_id rt) (rt_product_id rt) (vb_id (rt_protocol rt))
           (vb_kind (rt_protocol rt)) model provider_model (entry ≫= me_deployment_id) wire_model)
        capabilities protocol history limits (go_response_format (gr_options request))).

Definition policy_provenance_for (rt : ProviderRuntime) (model : string) : PolicySource * bool :=
  let applied := bool_decide (is_Some (rt_model_capabilities rt !! model))
                 || bool_decide (is_Some (model_entry rt model))
                 || bool_decide (is_Some (rt_model_protocol_contracts rt !! model)) in
  (if applied then SrcModelProfile else SrcProviderProfile, applied).

(** ** The planner: [execution/planner.rs] *)
Section Planner.
Context {JP : JsonPrinter} {JV : JsonValues}.

Definition plan (now : Z) (rt : ProviderRuntime) (request : GenerateRequest)
  : result LlmError ResolvedCallPlan :=
  policy ← plan_policy_for rt request;
  let '(capability_source, model_override_applied) :=
    policy_provenance_for rt (mr_model (gr_model request)) in
  let capabilities := generation_options (po_capabilities policy) in
  let limits := rsl_request (po_limits policy) in
  _ ← invalid_if
        (match go_max_output_tokens (gr_options request),
               mpl_max_output_tokens (rsl_model (po_limits policy)) with
         | Some requested, Some maximum => maximum <? requested
         | _, _ => false
         end) "max_output_tokens" ValidationReason.OutOfRange
        "max_output_tokens exceeds the exact model catalog limit";
  _ ← validate_request_shape now request capabilities limits;
  normalized ← map_err LlmError.History
    (normalize_history_with_limits
       (mk_history_capabilities (pc_developer_role (po_capabilities policy))
          (pc_vision_input (po_capabilities policy)))
       (dp_tool_call_id (ProtocolContract.dialect_policy (po_protocol policy)))
       (po_history policy) (rv_max_messages limits) (rv_max_text_bytes limits) (gr_messages request));
  let planned :=
    mk_planned_request (gr_model request)
      (mk_source_identity (ta_provider_id (po_target policy)) (mr_model (gr_model request))
         (ta_protocol_id (po_target policy)) None)
      (nc_messages normalized) (gr_options request)
      (mk_normalization_report (nc_id_mappings normalized) (nc_diagnostics normalized)
         (Z.of_nat (length (gr_messages request))) (Z.of_nat (length (nc_messages normalized)))) in
  _ ← validate_planned_request now (pq_model planned) (pq_messages planned) (pq_options planned)
        capabilities limits;
  Ok (mk_call_plan planned policy
        (mk_intent (go_headers (gr_options request)) (go_timeout (gr_options request)))
        (mk_provenance capability_source (ProtocolContract.provenance_source (po_protocol policy))
           model_override_applied)).
End Planner.

(** ** Prepared calls: [protocol/mod.rs], [protocol/preparation.rs] *)
Inductive ProtocolOperation := ChatCompletions | MessagesOperation.
Inductive MaxOutputTokensSource := TokensRequest | TokensModelDefault | TokensOmitted.
Module ResponseFormatKind.
Inductive t := Text | JsonObject | JsonSchema.
End ResponseFormatKind.
Definition response_format_kind (f : ResponseFormat) : ResponseFormatKind.t :=
  match f with
  | FText => ResponseFormatKind.Text
  | FJsonObject => ResponseFormatKind.JsonObject
  | FJsonSchema _ => ResponseFormatKind.JsonSchema
  end.
Record CommonRequestFacts := mk_common_facts {
  cfa_contains_tools : bool; cfa_contains_images : bool; cfa_response_format : ResponseFormatKind.t;
  cfa_reasoning : bool; cfa_max_output_tokens : bool }.
Definition is_image (p : ContentPart) : bool := match p with PImage _ => true | _ => false end.
Definition scan_facts (r : PlannedRequest) : CommonRequestFacts :=
  mk_common_facts
    (negb (is_empty (go_tools (pq_options r)))
     || existsb (fun m => bool_decide (msg_role m = MessageRole.Tool)
                          || existsb is_tool_call (msg_content m)) (pq_messages r))
    (existsb (fun m => existsb is_image (msg_content m)) (pq_messages r))
    (response_format_kind (go_response_format (pq_options r)))
    match go_reasoning (pq_options r) with ProviderDefault => false | _ => true end
    (some (go_max_output_tokens (pq_options r))).
Record RequestFacts := mk_request_facts {
  rfa_contains_tools : bool; rfa_contains_images : bool; rfa_reasoning_enabled : bool;
  rfa_response_format : ResponseFormatKind.t; rfa_max_output_tokens_source : MaxOutputTokensSource }.
Definition request_facts (c : CommonRequestFacts) (reasoning : bool) (source : MaxOutputTokensSource)
  : RequestFacts :=
  mk_request_facts (cfa_contains_tools c) (cfa_contains_images c) reasoning (cfa_response_format c) source.

Record ProtocolRequestParts := mk_request_parts {
  rp_operation : ProtocolOperation; rp_protocol_headers : list HeaderOperation.t; rp_body : list ascii }.
Module ProtocolResponsePlan.
Inductive t :=
| OpenAiChat (model : ModelRef) (format : ResponseFormat) (contract : OpenAiChatContract)
    (limits : ResponseLimits) (sse : SseConfig)
| AnthropicMessages (source : SourceIdentity) (format : ResponseFormat)
    (contract : AnthropicMessagesContract) (limits : ResponseLimits) (sse : SseConfig).
End ProtocolResponsePlan.
(** [ResponsePlan]: the expected content type is always an event stream. *)
Record ResponsePlan := mk_response_plan {
  rpl_max_error_body_bytes : Z; rpl_protocol : ProtocolResponsePlan.t }.
Record PreparedCall := mk_prepared_call {
  prc_target : ResolvedTarget; prc_request : ProtocolRequestParts; prc_response : ResponsePlan;
  prc_facts : RequestFacts; prc_execution : CallExecutionIntent }.

(** ** Encoders of a plan: [openai_chat/request.rs], [anthropic_messages/request.rs] *)
Section Encoders.
Context {B : Base64} {JP : JsonPrinter}.

Definition chat_context (p : ResolvedCallPlan) (compat : CompatProfile) : RequestEncodingContext :=
  let options := pq_options (cpl_planned p) in
  mk_encoding_context
    match rc_model_body (cp_request compat) with
    | ModelBodyWireFormat.Include => Some (ta_wire_model (po_target (cpl_policy p)))
    | ModelBodyWireFormat.Omit => None
    end
    (pq_messages (cpl_planned p)) options (po_capabilities (cpl_policy p)) (cp_request compat)
    (hcp_tool_result_name (cp_history compat))
    (mpl_default_max_output_tokens (rsl_model (po_limits (cpl_policy p))))
    (rv_max_body_bytes (rsl_request (po_limits (cpl_policy p))))
    ((go_protocol_options options ≫= Options.openai_chat) ≫= oo_raw).
Definition encode_planned_chat (p : ResolvedCallPlan) : result LlmError (list ascii) :=
  contract ← ok_or (ProtocolContract.openai_chat (po_protocol (cpl_policy p)))
    (protocol "OpenAI Chat request requires an OpenAI compatibility profile");
  encode_request_parts (chat_context p (occ_compat contract)).

Definition messages_context (p : ResolvedCallPlan) : MessagesContext :=
  mk_messages_context (ta_wire_model (po_target (cpl_policy p))) (pq_messages (cpl_planned p))
    (pq_source (cpl_planned p)) (pq_options (cpl_planned p))
    (hp_thinking_replay (po_history (cpl_policy p))) (rsl_request (po_limits (cpl_policy p)))
    (mpl_default_max_output_tokens (rsl_model (po_limits (cpl_policy p)))).
Definition encode_planned_messages (p : ResolvedCallPlan) : result LlmError (list ascii) :=
  _ ← ok_or (ProtocolContract.anthropic_messages (po_protocol (cpl_policy p)))
        (protocol "Anthropic Messages request requires an Anthropic protocol contract");
  encode_messages_request (messages_context p).

(** [OpenAiChatDriver::prepare] and [AnthropicMessagesDriver::prepare]. *)
Definition chat_prepare (p : ResolvedCallPlan) : result LlmError PreparedCall :=
  contract ← ok_or (ProtocolContract.openai_chat (po_protocol (cpl_policy p)))
    (protocol "OpenAI Chat driver requires an OpenAI Chat protocol contract");
  body ← encode_planned_chat p;
  let common := scan_facts (cpl_planned p) in
  let limits := po_limits (cpl_policy p) in
  let source :=
    if cfa_max_output_tokens common then TokensRequest
    else if some (mpl_default_max_output_tokens (rsl_model limits)) then TokensModelDefault
    else TokensOmitted in
  Ok (mk_prepared_call (po_target (cpl_policy p))
        (mk_request_parts ChatCompletions standard_json_sse_header_operations body)
        (mk_response_plan (trl_max_http_error_body_bytes (rsl_transport limits))
           (ProtocolResponsePlan.OpenAiChat (pq_model (cpl_planned p)) (po_response_format (cpl_policy p))
              contract (rsl_response limits) (trl_sse (rsl_transport limits))))
        (request_facts common (cfa_reasoning common) source) (cpl_execution p)).
Definition messages_prepare (p : ResolvedCallPlan) : result LlmError PreparedCall :=
  contract ← ok_or (ProtocolContract.anthropic_messages (po_protocol (cpl_policy p)))
    (protocol "Anthropic Messages driver requires an Anthropic Messages protocol contract");
  body ← encode_planned_messages p;
  let common := scan_facts (cpl_planned p) in
  let limits := po_limits (cpl_policy p) in
  let reasoning := cfa_reasoning common
    || some (messages_options (pq_options (cpl_planned p)) ≫= ao_adaptive_thinking) in
  let source := if cfa_max_output_tokens common then TokensRequest else TokensModelDefault in
  Ok (mk_prepared_call (po_target (cpl_policy p))
        (mk_request_parts MessagesOperation standard_json_sse_header_operations body)
        (mk_response_plan (trl_max_http_error_body_bytes (rsl_transport limits))
           (ProtocolResponsePlan.AnthropicMessages (pq_source (cpl_planned p))
              (po_response_format (cpl_policy p)) contract (rsl_response limits)
              (trl_sse (rsl_transport limits))))
        (request_facts common reasoning source) (cpl_execution p)).
(** [ProtocolDispatch::for_kind] and [ProtocolDispatch::prepare]. *)
Definition dispatch_prepare (kind : ProtocolKind.t) (p : ResolvedCallPlan) : result LlmError PreparedCall :=
  match kind with
  | ProtocolKind.OpenAiChatCompletions => chat_prepare p
  | ProtocolKind.AnthropicMessages => messages_prepare p
  end.
End Encoders.
