(* ===== verification/PlanSpec.v ===== *)
(** * Properties of planning

    A plan holds a normal history and a validated request under limits no larger
    than the runtime's, and a planned Chat call can be prepared. *)
From Stdlib Require Import SpecFloat.
From S2P Require Import Prelude Errors Usage Sse Domain Images Structured ChatWire Schema SchemaCompile Options Messages History HistorySpec Request RequestSpec Headers Serialize Contract Catalog ChatRequest ChatRequestSpec MessagesRequest Plan.

Lemma map_err_ok {E F A} (f : E -> F) (r : result E A) a : map_err f r = Ok a <-> r = Ok a.
Proof. destruct r; simpl; naive_solver. Qed.

Lemma validate_limits_wf l : validate_limits l = Ok tt -> limits_wf l.
Proof.
  intros H. apply (builder_build_spec l l). unfold builder_build. by rewrite H.
Qed.

(** ** Policies *)

(** A limit lowered to the maximum a model declares, if it declares one. *)
Definition lowered (base : Z) (declared : option Z) (v : Z) : Prop :=
  v <= base /\ (forall m, declared = Some m -> v <= m) /\ (v = base \/ declared = Some v).
(** The resource limits of a call to a model: the runtime's, of which messages,
    tools, images and schema bytes are lowered to what the model declares. *)
Record model_lowers (declared : (ModelLimits -> option Z) -> option Z) (base r : ResourceLimits) : Prop := {
  lo_messages : lowered (max_messages base) (declared ml_max_messages) (max_messages r);
  lo_tools : lowered (max_tools base) (declared ml_max_tools) (max_tools r);
  lo_images : lowered (max_images base) (declared ml_max_images) (max_images r);
  lo_schema_bytes : lowered (max_schema_bytes base) (declared ml_max_schema_bytes) (max_schema_bytes r);
  lo_bytes : max_request_body_bytes r = max_request_body_bytes base /\
    max_total_text_bytes r = max_total_text_bytes base /\
    max_tool_description_bytes r = max_tool_description_bytes base /\
    max_inline_image_bytes r = max_inline_image_bytes base /\ max_image_url_bytes r = max_image_url_bytes base;
  lo_response : max_schema_depth r = max_schema_depth base /\ max_tool_calls r = max_tool_calls base /\
    max_tool_arguments_bytes r = max_tool_arguments_bytes base /\
    max_all_tool_arguments_bytes r = max_all_tool_arguments_bytes base /\
    max_json_array_items r = max_json_array_items base /\
    max_structured_output_bytes r = max_structured_output_bytes base }.
(** The catalog's entry for the requested model, and what it declares. *)
Definition requested_entry (rt : ProviderRuntime) (request : GenerateRequest) : option ModelEntry :=
  rt_catalog rt !! (rt_provider_id rt, rt_product_id rt, mr_model (gr_model request)).
Definition declares (rt : ProviderRuntime) (request : GenerateRequest) (f : ModelLimits -> option Z) : option Z :=
  requested_entry rt request ≫= fun e => f (me_limits e).
Record policy_sound (rt : ProviderRuntime) (request : GenerateRequest) (p : CallPolicySnapshot) : Prop := {
  ps_provider : mr_provider (gr_model request) = rt_provider_id rt;
  ps_options : forall o, go_protocol_options (gr_options request) = Some o ->
                 protocol_id o = vb_id (rt_protocol rt);
  ps_contract : po_protocol p = contract_for rt (mr_model (gr_model request));
  ps_history : po_history p = ProtocolContract.history_policy (po_protocol p);
  ps_capabilities : po_capabilities p = capabilities_for rt (mr_model (gr_model request));
  ps_target : ta_provider_id (po_target p) = rt_provider_id rt /\
              ta_protocol_id (po_target p) = vb_id (rt_protocol rt) /\
              ta_protocol_kind (po_target p) = vb_kind (rt_protocol rt);
  ps_model : ta_product_id (po_target p) = rt_product_id rt /\
             ta_domain_model (po_target p) = mr_model (gr_model request) /\
             match requested_entry rt request with
             | Some e => ta_provider_model (po_target p) = me_provider_model_id e /\
                         ta_deployment_id (po_target p) = me_deployment_id e /\
                         ta_wire_model (po_target p) = me_wire_model_value e
             | None => ta_provider_model (po_target p) = mr_model (gr_model request) /\
                       ta_deployment_id (po_target p) = None /\
                       ta_wire_model (po_target p) = mr_model (gr_model request)
             end;
  ps_limits : exists r, model_lowers (declares rt request) (rt_resource_limits rt) r /\ limits_wf r /\
    po_limits p = mk_resolved_limits (request_limits_of r) (response_limits_from r)
      (mk_transport_limits (rt_max_http_error_body_bytes rt) (rt_sse rt))
      (mk_plan_limits (declares rt request ml_max_output_tokens)
         (requested_entry rt request ≫= me_default_max_output_tokens));
  ps_format : po_response_format p = go_response_format (gr_options request) }.

Lemma capped_lowered base declared : lowered base declared (capped base declared).
Proof.
  unfold lowered, capped. destruct declared as [m|]; split_and!; intros; simplify_eq; try lia; auto.
  destruct (Z.min_dec base m) as [-> | ->]; auto.
Qed.
Lemma apply_to_lowers declared l base :
  Forall (fun f => declared f = f l) [ml_max_messages; ml_max_tools; ml_max_images; ml_max_schema_bytes] ->
  model_lowers declared base (apply_to l base).
Proof.
  rewrite !Forall_cons. intros (E1 & E2 & E3 & E4 & _).
  split; rewrite ?E1, ?E2, ?E3, ?E4; try apply capped_lowered; done.
Qed.
Lemma catalog_id_ok label value v : catalog_id label value = Ok v -> v = value.
Proof. unfold catalog_id. repeat case_match; try done. by intros [= <-]. Qed.

Lemma plan_policy_sound rt request p :
  plan_policy_for rt request = Ok p -> policy_sound rt request p.
Proof.
  unfold plan_policy_for. rewrite then_ok, invalid_if_ok, negb_false_iff, str_eqb_spec.
  intros [Hprov H]. apply then_ok in H as [Hopt H]. apply then_ok in H as [_ H].
  apply then_ok in H as [_ H]. apply bind_ok in H as (limits & Hlim & H).
  apply bind_ok in H as (pm & Hpm & H). apply bind_ok in H as (wm & Hwm & [= <-]).
  rewrite map_err_ok in Hlim. fold (requested_entry rt request) in *.
  constructor; simpl; try done.
  - intros o Ho. rewrite Ho in Hopt. apply invalid_if_ok, negb_false_iff, str_eqb_spec in Hopt. done.
  - change (model_entry rt (mr_model (gr_model request))) with (requested_entry rt request) in *.
    destruct (requested_entry rt request) as [e|]; simplify_eq/=.
    + rewrite map_err_ok in Hwm. by apply validated_id_ok in Hwm as [-> _].
    + rewrite map_err_ok in Hpm. by apply catalog_id_ok in Hpm as ->.
  - change (model_entry rt (mr_model (gr_model request))) with (requested_entry rt request) in *.
    unfold compile_limits in Hlim. apply then_ok in Hlim as [Hv%validate_limits_wf Hlim].
    destruct (_ =? 0) in Hlim; [done|]. injection Hlim as <-. eexists. split; [|split; [exact Hv|]]; unfold declares;
      destruct (requested_entry rt request) as [e|]; try (by apply apply_to_lowers; repeat constructor); done.
Qed.
(** What the limits of a plan's request keep of the runtime's. *)
Lemma plan_limits_keep rt request p : policy_sound rt request p ->
  let l := rsl_request (po_limits p) in
  rv_max_body_bytes l = max_request_body_bytes (rt_resource_limits rt) /\
  rv_max_text_bytes l = max_total_text_bytes (rt_resource_limits rt) /\
  rv_max_messages l <= max_messages (rt_resource_limits rt).
Proof.
  intros [_ _ _ _ _ _ _ (r & [Hm _ _ _ (Hb & Ht & _) _] & _ & ->) _]. simpl. split_and!; [done..|exact (proj1 Hm)].
Qed.

(** ** Plans *)
Section Plans.
Context {JP : JsonPrinter} {JV : JsonValues}.

Definition plan_history_capabilities (p : CallPolicySnapshot) : HistoryCapabilities :=
  mk_history_capabilities (pc_developer_role (po_capabilities p)) (pc_vision_input (po_capabilities p)).
Definition plan_ids (p : CallPolicySnapshot) : ToolCallIdPolicy :=
  dp_tool_call_id (ProtocolContract.dialect_policy (po_protocol p)).

Lemma plan_inv now rt request p :
  plan now rt request = Ok p ->
  plan_policy_for rt request = Ok (cpl_policy p) /\
  (exists ctx, normalize_history_with_limits (plan_history_capabilities (cpl_policy p))
     (plan_ids (cpl_policy p)) (po_history (cpl_policy p))
     (rv_max_messages (rsl_request (po_limits (cpl_policy p))))
     (rv_max_text_bytes (rsl_request (po_limits (cpl_policy p)))) (gr_messages request) = Ok ctx /\
     pq_messages (cpl_planned p) = nc_messages ctx) /\
  validate_planned_request now (pq_model (cpl_planned p)) (pq_messages (cpl_planned p))
    (pq_options (cpl_planned p)) (generation_options (po_capabilities (cpl_policy p)))
    (rsl_request (po_limits (cpl_policy p))) = Ok tt /\
  pq_options (cpl_planned p) = gr_options request /\ pq_model (cpl_planned p) = gr_model request /\
  (forall n m, go_max_output_tokens (gr_options request) = Some n ->
     mpl_max_output_tokens (rsl_model (po_limits (cpl_policy p))) = Some m -> n <= m).
Proof.
  unfold plan. rewrite bind_ok. intros (policy & Hp & H).
  destruct (policy_provenance_for rt (mr_model (gr_model request))) as [src ovr].
  apply then_ok in H as [Htok H]. apply then_ok in H as [_ H]. apply bind_ok in H as (ctx & Hn & H).
  apply then_ok in H as [Hv [= <-]]. simpl in *. rewrite map_err_ok in Hn.
  split_and!; try done; [by exists ctx|]. intros n m Hn' Hm. rewrite Hn', Hm in Htok.
  apply invalid_if_ok in Htok. lia.
Qed.

(** C14. A plan is sound: it is for the runtime's provider and protocol; its
    history is normal for the target (calls answered at once and exactly, only
    supported content, ids of the dialect) and within the message and text
    budgets; the request is well formed for the model's capabilities and within
    the resolved limits, which are the runtime's with those on messages, tools,
    images and schema bytes lowered to what the catalog's entry for the model
    declares; the model it names on the wire is that entry's; and it asks for no
    more output tokens than the entry allows. *)
Theorem plan_sound now rt request p :
  0 <= max_total_text_bytes (rt_resource_limits rt) ->
  plan now rt request = Ok p ->
  policy_sound rt request (cpl_policy p) /\
  normal (plan_history_capabilities (cpl_policy p)) (plan_ids (cpl_policy p)) (po_history (cpl_policy p))
    (pq_messages (cpl_planned p)) /\
  text_bytes (pq_messages (cpl_planned p)) <= max_total_text_bytes (rt_resource_limits rt) /\
  Z.of_nat (length (pq_messages (cpl_planned p))) <= max_messages (rt_resource_limits rt) /\
  well_formed_request now (generation_options (po_capabilities (cpl_policy p)))
    (mk_generate_request (gr_model request) (pq_messages (cpl_planned p)) (gr_options request)) /\
  resources_fit (rsl_request (po_limits (cpl_policy p))) (pq_messages (cpl_planned p)) (gr_options request) /\
  (forall n m, go_max_output_tokens (gr_options request) = Some n ->
     declares rt request ml_max_output_tokens = Some m -> n <= m).
Proof.
  intros Htext (Hpol & (ctx & Hn & Hm) & Hv & Ho & Hmod & Htok)%plan_inv.
  pose proof (plan_policy_sound _ _ _ Hpol) as Hs.
  pose proof (plan_limits_keep _ _ _ Hs) as (_ & Ht & Hlm). cbv zeta in Ht, Hlm.
  destruct (ps_limits _ _ _ Hs) as (r & _ & _ & Hl). rewrite Ho, Hmod in Hv. unfold validate_planned_request in Hv.
  rewrite then_ok, validate_ok, validate_request_resources_ok in Hv.
  apply limits_yield_normal in Hn as (Hnormal & Hlen & Hbytes); [|by rewrite Ht].
  rewrite Ht in Hbytes. rewrite <- Hm in *. split_and!; try done; try apply Hv; [lia|].
  intros n m Hn Hd. apply (Htok n m Hn). by rewrite Hl.
Qed.
End Plans.

(** ** Dispatch *)

(** The kind a valid runtime dispatches on is the kind of every contract it
    plans with. *)
Definition contract_kind (c : ProtocolContract.t) : ProtocolKind.t :=
  match c with
  | ProtocolContract.OpenAiChat _ => ProtocolKind.OpenAiChatCompletions
  | ProtocolContract.AnthropicMessages _ => ProtocolKind.AnthropicMessages
  end.
Definition bound (b : ValidatedProtocolBinding) : Prop :=
  binding_new (vb_id b) (vb_dialect b) (vb_contract b) = Ok b.
Lemma bound_kind b : bound b -> contract_kind (vb_contract b) = vb_kind b /\
  forall c, matches_dialect c (vb_dialect b) = true -> contract_kind c = vb_kind b.
Proof.
  destruct b as [id kind dialect contract]. unfold bound, binding_new. simpl.
  destruct dialect, contract; try done; destruct (str_eqb id _); try done; intros [= <-];
    (split; [done|]); by intros [].
Qed.
Lemma contract_for_kind rt model :
  bound (rt_protocol rt) -> validate_runtime rt = Ok tt ->
  contract_kind (contract_for rt model) = vb_kind (rt_protocol rt).
Proof.
  intros Hb Hv. destruct (bound_kind _ Hb) as [Hk Hm]. unfold contract_for.
  destruct (rt_model_protocol_contracts rt !! model) as [c|] eqn:Hc; [|done]. simpl. apply Hm.
  unfold validate_runtime in Hv. do 3 apply then_ok in Hv as [_ Hv]. apply then_ok in Hv as [Hv _].
  rewrite all_ok_iff, Forall_forall in Hv. specialize (Hv (model, c)). simpl in Hv.
  unfold validate_contract in Hv. destruct (matches_dialect c _); [done|].
  by discriminate Hv; apply elem_of_map_to_list.
Qed.

(** ** Prepared Chat calls *)
Lemma normal_no_thinking caps ids policy ms :
  normal caps ids policy ms -> hp_thinking_replay policy = DropAll ->
  Forall (fun m => Forall (fun q => is_thinking q = false) (msg_content m)) ms.
Proof.
  intros Hn Hd. induction Hn as [|role parts ms Hr Hne Hp Hn IH|parts ms Hne Hp Hn IH|
    parts calls results ms Hp Ha Hn IH]; [constructor|..].
  - constructor; [|done]. eapply Forall_impl; [exact Hp|]. intros []; simpl; try done. congruence.
  - constructor; [|done]. eapply Forall_impl; [exact Hp|]. intros []; simpl; try done. congruence.
  - constructor.
    + simpl. apply Forall_app. split.
      * eapply Forall_impl; [exact Hp|]. intros []; simpl; try done. congruence.
      * apply Forall_forall. by intros q (c & -> & _)%list_elem_of_fmap.
    + apply Forall_app. split; [|done]. apply Forall_forall. intros m (r & -> & _)%list_elem_of_fmap.
      constructor.
Qed.

Section Prepared.
Context {B : Base64} {JP : JsonPrinter} {JV : JsonValues}.

(** What validation and normalization leave open. *)
Definition images_decode (ms : list Message) : Prop :=
  Forall (fun m => Forall (fun q => match q with PImage i => image_sendable i | _ => True end)
                     (msg_content m)) ms.
Definition no_blank_message (ms : list Message) : Prop :=
  Forall (fun m => msg_role m = MessageRole.User -> forall t, msg_content m = [PText t] ->
                     trim_is_empty t = false) ms.
Lemma sendable ms :
  images_decode ms -> no_blank_message ms ->
  Forall (fun m => Forall (fun q => is_thinking q = false) (msg_content m)) ms ->
  Forall chat_sendable ms.
Proof.
  unfold images_decode, no_blank_message. rewrite !Forall_forall. intros Hi Hb Ht m Hm.
  split; [|by apply Hb]. specialize (Hi m Hm). specialize (Ht m Hm). rewrite Forall_forall in *.
  intros q Hq. specialize (Hi q Hq). specialize (Ht q Hq). by destruct q.
Qed.

(** C6. Planning and preparing compose: let a call be planned by a valid Chat
    runtime that replays no reasoning. When its images decode, no user turn is a
    single blank text ([blank_user_message_refused] shows why), raw fields of the
    Chat options come from their parser with each key once, the JSON printer
    always answers, and the text budget is not negative, the Chat driver prepares
    it, with a body within the runtime's limit, unless the printed body is longer
    than that limit; the driver never meets another protocol's contract or a
    conflicting extension. *)
Theorem planned_call_prepares now rt request p :
  bound (rt_protocol rt) -> validate_runtime rt = Ok tt ->
  vb_kind (rt_protocol rt) = ProtocolKind.OpenAiChatCompletions ->
  0 <= max_total_text_bytes (rt_resource_limits rt) ->
  plan now rt request = Ok p ->
  hp_thinking_replay (po_history (cpl_policy p)) = DropAll ->
  images_decode (pq_messages (cpl_planned p)) -> no_blank_message (pq_messages (cpl_planned p)) ->
  chat_extension ((go_protocol_options (gr_options request) ≫= Options.openai_chat) ≫= oo_raw) ->
  printer_total ->
  let prepared := dispatch_prepare (ta_protocol_kind (po_target (cpl_policy p))) p in
  prepared = body_too_large \/
  exists call, prepared = Ok call /\ rp_operation (prc_request call) = ChatCompletions /\
    Z.of_nat (length (rp_body (prc_request call))) <= max_request_body_bytes (rt_resource_limits rt) /\
    prc_execution call = cpl_execution p.
Proof.
  intros Hb Hrt Hkind Htext Hplan Hdrop Himg Hblank Hext Hp. simpl.
  apply plan_inv in Hplan as (Hpol & (ctx & Hn & Hm) & Hv & Ho & _ & _).
  pose proof (plan_policy_sound _ _ _ Hpol) as Hs.
  pose proof (plan_limits_keep _ _ _ Hs) as (Hbody & Ht & _). cbv zeta in Hbody, Ht.
  destruct (ps_target _ _ _ Hs) as (_ & _ & ->). rewrite Hkind. simpl. unfold chat_prepare, encode_planned_chat.
  pose proof (contract_for_kind rt (mr_model (gr_model request)) Hb Hrt) as Hck.
  rewrite <- (ps_contract _ _ _ Hs), Hkind in Hck.
  destruct (po_protocol (cpl_policy p)) as [contract|] eqn:Hc; [|done]. simpl.
  apply limits_yield_normal in Hn as (Hnormal & _ & _); [|by rewrite Ht]. rewrite <- Hm in Hnormal.
  destruct (chat_body_ok (chat_context p (occ_compat contract)) now (pq_model (cpl_planned p))
    (rsl_request (po_limits (cpl_policy p)))) as (w & object & text & _ & _ & _ & He); try done.
  - apply sendable; [done|done|]. by eapply normal_no_thinking.
  - simpl. by rewrite Ho.
  - rewrite He. simpl. rewrite Hbody. simpl.
    destruct (Z.ltb_spec (max_request_body_bytes (rt_resource_limits rt))
      (Z.of_nat (length (bytes_of text)))); [by left|]. right. simpl. eexists. split_and!; done.
Qed.
End Prepared.

(** ** Samples *)
Definition chat_binding (contract : OpenAiChatContract) : ValidatedProtocolBinding :=
  mk_binding "openai-chat-completions" ProtocolKind.OpenAiChatCompletions
    ProtocolDialect.OpenAiChatCompletions (ProtocolContract.OpenAiChat contract).
Definition sample_sse : SseConfig := mk_sse_config 1024 1024 None 1024 1024 1024 1024.
Definition sample_runtime (contract : OpenAiChatContract) (capabilities : ProviderCapabilities)
    (models : gmap string ModelCapabilityProfile) : ProviderRuntime :=
  mk_runtime "openai" "chat" (chat_binding contract) capabilities models ∅ ∅ official sample_sse 1024.
Definition hello : GenerateRequest :=
  mk_generate_request sample_model [user_text "Hello"] generation_options_default.
Definition empty_printer : JsonPrinter := fun _ => Ok "{}".
Definition sample_plan (rt : ProviderRuntime) : result LlmError ResolvedCallPlan :=
  plan (JP := empty_printer) (JV := plain_values) 0 rt hello.
Definition strict_runtime : ProviderRuntime := sample_runtime chat_contract_strict official_openai ∅.
Example strict_plan : is_ok (sample_plan strict_runtime) = true.
Proof. vm_compute. reflexivity. Qed.

(** A catalog that lowers the tools of the model and renames it on the wire. *)
Definition lowering_entry : ModelEntry :=
  let unknown := CapabilityStatus.Unknown in
  mk_model_entry ("openai", "chat", "gpt") "gpt-0613" None "gpt-wire" "GPT" "openai-chat-completions"
    (mk_catalog_capabilities unknown unknown unknown unknown unknown unknown unknown unknown unknown
       EffortUnknown unknown unknown)
    (mk_model_limits None (Some 4096) None (Some 4) None None) None None
    (mk_catalog_source "vendor" "2026-01-01" None) CapabilityStatus.Supported ∅.
Definition catalogued_runtime : ProviderRuntime :=
  mk_runtime "openai" "chat" (chat_binding chat_contract_strict) official_openai ∅
    {[me_key lowering_entry := lowering_entry]} ∅ official sample_sse 1024.
Example catalogued_plan : is_ok (sample_plan catalogued_runtime) = true.
Proof. vm_compute. reflexivity. Qed.

Lemma plan_sound_witness :
  exists p, sample_plan catalogued_runtime = Ok p /\
    normal (plan_history_capabilities (cpl_policy p)) (plan_ids (cpl_policy p)) (po_history (cpl_policy p))
      (pq_messages (cpl_planned p)) /\
    rv_max_tools (rsl_request (po_limits (cpl_policy p))) = 4 /\
    ta_wire_model (po_target (cpl_policy p)) = "gpt-wire".
Proof.
  pose proof catalogued_plan as H. destruct (sample_plan catalogued_runtime) as [p|e] eqn:E; [|discriminate H].
  exists p. split; [reflexivity|].
  destruct (plan_sound (JP := empty_printer) (JV := plain_values) 0 catalogued_runtime hello p) as (Hs & Hn & _);
    [vm_compute; discriminate|exact E|].
  split; [exact Hn|]. destruct Hs as [_ _ _ _ _ _ (_ & _ & Hm) (r & [_ [_ [Hle Heq]] _ _ _ _] & _ & ->) _].
  assert (requested_entry catalogued_runtime hello = Some lowering_entry) as He by (vm_compute; reflexivity).
  unfold declares in Hle, Heq. rewrite He in Hm, Hle, Heq. split; [|apply Hm]. cbn.
  destruct Heq as [Heq|Heq]; [|injection Heq as <-; reflexivity].
  specialize (Hle 4 eq_refl). rewrite Heq in Hle. destruct (Hle eq_refl).
Defined.

Example strict_messages : forall p, sample_plan strict_runtime = Ok p ->
  pq_messages (cpl_planned p) = [user_text "Hello"] /\ hp_thinking_replay (po_history (cpl_policy p)) = DropAll.
Proof. intros p H. injection H as <-. vm_compute. split; reflexivity. Qed.

Lemma planned_call_prepares_witness :
  exists p, sample_plan strict_runtime = Ok p /\
    let prepared := dispatch_prepare (B := letter_codec) (JP := empty_printer)
      (ta_protocol_kind (po_target (cpl_policy p))) p in
    prepared = body_too_large \/ exists call, prepared = Ok call.
Proof.
  pose proof strict_plan as H. destruct (sample_plan strict_runtime) as [p|e] eqn:E; [|discriminate H].
  exists p. split; [reflexivity|]. destruct (strict_messages p E) as [Hm Hd].
  destruct (planned_call_prepares (B := letter_codec) (JP := empty_printer) (JV := plain_values)
    0 strict_runtime hello p) as [Hl|(call & Hc & _)].
  - vm_compute. reflexivity.
  - vm_compute. reflexivity.
  - reflexivity.
  - vm_compute. discriminate.
  - exact E.
  - exact Hd.
  - rewrite Hm. constructor; [|constructor]. constructor; [exact I|constructor].
  - rewrite Hm. constructor; [|constructor]. intros _ t Ht. injection Ht as <-. vm_compute. reflexivity.
  - intros r Hr. discriminate Hr.
  - intros v. exists "{}". reflexivity.
  - left. exact Hl.
  - right. exists call. exact Hc.
Defined.

(** ** Contracts and capabilities *)
Definition object_arguments : OpenAiChatContract :=
  mk_chat_contract (with_tool_arguments StringOrObject SrcProviderProfile compat_profile_default).
Definition tools_by_default : ProviderCapabilities :=
  apply_catalog (mk_catalog_capabilities CapabilityStatus.Supported CapabilityStatus.Unknown
    CapabilityStatus.Unknown CapabilityStatus.Unknown CapabilityStatus.Unknown CapabilityStatus.Unknown
    CapabilityStatus.Unknown CapabilityStatus.Unknown CapabilityStatus.Unknown EffortUnknown
    CapabilityStatus.Unknown CapabilityStatus.Unknown) official_openai.
Definition mixed_runtime : ProviderRuntime :=
  sample_runtime object_arguments tools_by_default {["gpt" := model_profile_new "gpt"]}.

(** A runtime passes the construction checks although one of its models
    contradicts its contract, and plans calls for that model under the
    contradiction: the provider's contract is checked against the provider's
    capabilities only, not against those of the models that run under it. *)
Theorem contradicted_contract_plans :
  validate_runtime mixed_runtime = Ok tt /\
  match sample_plan mixed_runtime with
  | Ok p => ProtocolContract.validate_capabilities (po_protocol (cpl_policy p)) (po_capabilities (cpl_policy p))
            = configuration "tool argument compatibility requires explicit function tool support"
  | Err _ => False
  end.
Proof. split; vm_compute; reflexivity. Qed.
