(* ===== verification/Endpoint.v ===== *)
(** * Endpoints: [src/src/provider/endpoint/]

    Where a request may be sent: typed path templates and registered query keys
    ([template.rs], [config.rs]), the network policy with its address classes
    and redirects ([policy.rs]), normalized origins ([origin.rs]) and the
    destinations credentials are bound to ([audience.rs]). *)
From S2P Require Import Prelude Errors Domain Images Structured ChatWire Schema Options History Request Headers Contract Catalog.

(** ** Addresses of [std::net]

    An [Ipv4Addr] is its 32-bit value, an [Ipv6Addr] its 128-bit value. *)
Definition octet (a i : Z) : Z := Z.land (Z.shiftr a (8 * (3 - i))) 255.
Definition ipv4 (a b c d : Z) : Z := ((a * 256 + b) * 256 + c) * 256 + d.
Definition v4_is_private (a : Z) : bool :=
  (octet a 0 =? 10)
  || ((octet a 0 =? 172) && in_range 16 31 (octet a 1))
  || ((octet a 0 =? 192) && (octet a 1 =? 168)).
Definition v4_is_loopback (a : Z) : bool := octet a 0 =? 127.
Definition v4_is_link_local (a : Z) : bool := (octet a 0 =? 169) && (octet a 1 =? 254).
Definition v4_is_unspecified (a : Z) : bool := a =? 0.
Definition v4_is_multicast (a : Z) : bool := in_range 224 239 (octet a 0).
Definition V4_BROADCAST : Z := U32_MAX.
Definition v4_to_string (a : Z) : string :=
  join "." [show (octet a 0); show (octet a 1); show (octet a 2); show (octet a 3)].

Definition segment (a i : Z) : Z := Z.land (Z.shiftr a (16 * (7 - i))) 65535.
Definition segments (a : Z) : list Z := map (segment a) [0; 1; 2; 3; 4; 5; 6; 7].
Definition v6_is_loopback (a : Z) : bool := a =? 1.
Definition v6_is_unspecified (a : Z) : bool := a =? 0.
Definition v6_is_multicast (a : Z) : bool := Z.land (segment a 0) 65280 =? 65280.
Definition to_ipv4_mapped (a : Z) : option Z :=
  if Z.shiftr a 32 =? 65535 then Some (Z.land a U32_MAX) else None.

(** [Display] of an [Ipv6Addr]: the first longest run of two or more zero
    segments is written [::]. *)
Definition hex_char (n : Z) : ascii :=
  ascii_of_N (Z.to_N (if n <? 10 then 48 + n else 87 + n)).
Definition hex_segment (n : Z) : string :=
  let digits := map (fun i => Z.land (Z.shiftr n (4 * i)) 15) [3; 2; 1; 0] in
  let fix strip (l : list Z) :=
    match l with
    | 0 :: l' => match l' with [] => l | _ => strip l' end
    | _ => l
    end in
  str_of (map hex_char (strip digits)).
Fixpoint zero_run (l : list Z) : nat :=
  match l with 0 :: l => S (zero_run l) | _ => O end.
(** Start and length of the first longest run of zeros from position [i] on. *)
Fixpoint longest_run (l : list Z) (i : nat) : nat * nat :=
  match l with
  | [] => (i, O)
  | _ :: l' =>
      let here := zero_run l in
      let '(start, len) := longest_run l' (S i) in
      if (len <=? here)%nat then (i, here) else (start, len)
  end.
Definition write_segments (l : list Z) : string := join ":" (map hex_segment l).
Definition v6_to_string (a : Z) : string :=
  match to_ipv4_mapped a with
  | Some v4 => "::ffff:" +:+ v4_to_string v4
  | None =>
      let l := segments a in
      let '(start, len) := longest_run l O in
      if (1 <? len)%nat
      then write_segments (take start l) +:+ "::" +:+ write_segments (drop (start + len) l)
      else write_segments l
  end.

(** ** URLs

    What the resolver uses of [url::Url] beside the parts [Images] reads. *)
Inductive Host := HostDomain (name : string) | HostIpv4 (address : Z) | HostIpv6 (address : Z).
Class UrlParts {U : Urls} := {
  url_host : Url -> option Host;
  url_port_or_known_default : Url -> option Z;
  url_path : Url -> string;
  url_fragment : Url -> option string;
  url_query : Url -> option string;
  url_query_pairs : Url -> list (string * string);
  url_set_path : string -> Url -> Url;
  url_clear_query : Url -> Url;
  url_append_pair : string -> string -> Url -> Url }.

(** ** String operations of [str] *)
Definition ends_with (suffix s : string) : bool :=
  starts_with (rev (bytes_of suffix)) (rev (bytes_of s)).
Fixpoint trim_start_list (c : ascii) (l : list ascii) : list ascii :=
  match l with b :: l' => if Ascii.eqb b c then trim_start_list c l' else l | [] => [] end.
Definition trim_end_matches (c : ascii) (s : string) : string :=
  str_of (rev (trim_start_list c (rev (bytes_of s)))).
Definition trim_matches (c : ascii) (s : string) : string :=
  str_of (trim_start_list c (rev (trim_start_list c (rev (bytes_of s))))).
Definition contains_any (chars : list ascii) (s : string) : bool :=
  existsb (fun c => str_contains c s) chars.
Definition eq_ignore_ascii_case (s t : string) : bool :=
  str_eqb (to_ascii_lowercase s) (to_ascii_lowercase t).

(** ** Templates: [template.rs] *)
Inductive EndpointPathVariable := VProduct | VProviderModel | VDeployment.
#[global] Instance EndpointPathVariable_eq_dec : EqDecision EndpointPathVariable.
Proof. solve_decision. Defined.
Record EndpointValues := mk_endpoint_values {
  ev_product_id : string; ev_provider_model_id : string; ev_deployment_id : option string }.
Definition endpoint_value (v : EndpointValues) (variable : EndpointPathVariable) : result LlmError string :=
  match variable with
  | VProduct => Ok (ev_product_id v)
  | VProviderModel => Ok (ev_provider_model_id v)
  | VDeployment =>
      match ev_deployment_id v with
      | Some id => Ok id
      | None => configuration "endpoint template requires a deployment id"
      end
  end.
Inductive PathSegment := Literal (value : string) | Variable_ (variable : EndpointPathVariable).
Record EndpointTemplate := mk_template { tpl_segments : list PathSegment }.

Definition parse_segment (segment : string) : result LlmError PathSegment :=
  if str_is_empty segment || str_eqb segment "." || str_eqb segment ".."
  then configuration "endpoint template has an unsafe path segment"
  else if str_eqb segment "{product}" then Ok (Variable_ VProduct)
  else if str_eqb segment "{provider_model}" then Ok (Variable_ VProviderModel)
  else if str_eqb segment "{deployment}" then Ok (Variable_ VDeployment)
  else if contains_any ["{"; "}"; "%"]%char segment
  then configuration "endpoint template contains an unknown or encoded segment"
  else Ok (Literal segment).
Fixpoint parse_segments (l : list string) : result LlmError (list PathSegment) :=
  match l with
  | [] => Ok []
  | s :: l => p ← parse_segment s; ps ← parse_segments l; Ok (p :: ps)
  end.
Definition template_parse (value : string) : result LlmError EndpointTemplate :=
  _ ← configuration_if (str_is_empty value) "endpoint template must not be empty";
  _ ← configuration_if (contains_any ["?"; "#"]%char value)
        "endpoint template must not contain query or fragment";
  let value := trim_matches "/" value in
  _ ← configuration_if (str_is_empty value) "endpoint template must contain a path";
  segments ← parse_segments (split_char "/" value);
  Ok (mk_template segments).

Definition unreserved_byte (b : ascii) : bool :=
  is_ascii_alphanumeric b || Ascii.eqb b "-" || Ascii.eqb b "_" || Ascii.eqb b "~".
Definition upper_hex (n : Z) : ascii :=
  ascii_of_N (Z.to_N (if n <? 10 then 48 + n else 55 + n)).
Definition encode_byte (b : ascii) : string :=
  if unreserved_byte b then String b EmptyString
  else String "%" (String (upper_hex (byte_val b / 16)) (String (upper_hex (byte_val b mod 16)) EmptyString)).
Definition encode_path_segment (value : string) : string := str_concat (map encode_byte (bytes_of value)).

(** The loop of [render], on the path and the variables used so far. *)
Fixpoint render_segments (segments : list PathSegment) (values : option EndpointValues)
    (path : string) (used : list EndpointPathVariable)
  : result LlmError (string * list EndpointPathVariable) :=
  match segments with
  | [] => Ok (path, used)
  | s :: segments =>
      let path := if ends_with "/" path then path else path +:+ "/" in
      match s with
      | Literal value => render_segments segments values (path +:+ value) used
      | Variable_ variable =>
          match values with
          | None => configuration "endpoint template requires catalog mapping values"
          | Some values' =>
              value ← endpoint_value values' variable;
              render_segments segments values (path +:+ encode_path_segment value) (used ++ [variable])
          end
      end
  end.
Definition base_prefix (base_path : string) : string :=
  let path := trim_end_matches "/" base_path in
  if str_is_empty path then "/"
  else if starts_with (bytes_of "/") (bytes_of path) then path
  else "/" +:+ path.
Definition render (t : EndpointTemplate) (base_path : string) (values : option EndpointValues)
  : result LlmError (string * list EndpointPathVariable) :=
  render_segments (tpl_segments t) values (base_prefix base_path) [].
Definition requires_values (t : EndpointTemplate) : bool :=
  existsb (fun s => match s with Variable_ _ => true | Literal _ => false end) (tpl_segments t).

(** ** Registered queries *)
Inductive EndpointQuerySource := ProductProfile | DeploymentMapping | TestConfiguration.
Inductive QueryMergeRule := RejectExisting | Override.
Inductive EndpointQueryAction := ActionSet | ActionRemove.
Record EndpointQueryDiagnostic := mk_query_diagnostic {
  qd_name : string; qd_action : EndpointQueryAction; qd_source : EndpointQuerySource }.
Inductive QueryOperation :=
| QSet (value : string) (merge : QueryMergeRule) (source : EndpointQuerySource)
| QRemove (source : EndpointQuerySource).
(** A [BTreeMap] by name. *)
Record EndpointQuery := mk_query { eq_operations : gmap string QueryOperation }.
Definition query_new : EndpointQuery := mk_query ∅.

Definition query_name_byte (b : ascii) : bool :=
  is_ascii_alphanumeric b || Ascii.eqb b "-" || Ascii.eqb b "_" || Ascii.eqb b "." || Ascii.eqb b "~".
Definition SENSITIVE_QUERY_WORDS : list string :=
  ["key"; "token"; "secret"; "credential"; "signature"; "authorization"].
Definition validate_query_name (name : string) : result LlmError string :=
  let canonical := to_ascii_lowercase name in
  if str_is_empty name || (64 <? str_len name) || negb (str_all query_name_byte name)
  then configuration "invalid endpoint query name"
  else if existsb (fun word => has_infix (bytes_of word) (bytes_of canonical)) SENSITIVE_QUERY_WORDS
  then configuration "sensitive endpoint query name is forbidden"
  else Ok canonical.
Definition is_ascii_control (b : ascii) : bool := byte_in 0 31 b || (byte_val b =? 127).
Definition validate_query_value (value : string) : result LlmError string :=
  if str_is_empty value || (256 <? str_len value) || existsb is_ascii_control (bytes_of value)
  then configuration "invalid endpoint query value"
  else Ok value.

Definition register (name : string) (operation : QueryOperation) (q : EndpointQuery)
  : result LlmError EndpointQuery :=
  if bool_decide (is_Some (eq_operations q !! name))
  then configuration "duplicate endpoint query operation"
  else Ok (mk_query (<[name := operation]> (eq_operations q))).
Definition with_set (name value : string) (merge : QueryMergeRule) (source : EndpointQuerySource)
    (q : EndpointQuery) : result LlmError EndpointQuery :=
  name ← validate_query_name name;
  value ← validate_query_value value;
  register name (QSet value merge source) q.
Definition with_remove (name : string) (source : EndpointQuerySource) (q : EndpointQuery)
  : result LlmError EndpointQuery :=
  name ← validate_query_name name; register name (QRemove source) q.
Definition with_api_version (value : string) (source : EndpointQuerySource) (q : EndpointQuery)
  : result LlmError EndpointQuery := with_set "api-version" value Override source q.

(** The iteration of a [BTreeMap] by its keys. *)
Definition sorted_entries {A} (m : gmap string A) : list (string * A) :=
  omap (fun k => pair k <$> m !! k) (merge_sort String.le (elements (dom m))).

(** The base URL's own pairs: valid names, each once and registered. *)
Fixpoint base_pairs (q : EndpointQuery) (pairs : list (string * string)) (existing : gmap string string)
  : result LlmError (gmap string string) :=
  match pairs with
  | [] => Ok existing
  | (name, value) :: pairs =>
      _ ← validate_query_name name;
      _ ← configuration_if (bool_decide (is_Some (existing !! name))) "duplicate base endpoint query key";
      _ ← configuration_if (negb (bool_decide (is_Some (eq_operations q !! name))))
            "base endpoint query key is not registered";
      base_pairs q pairs (<[name := value]> existing)
  end.
Definition apply_query_operation (entry : string * QueryOperation)
    (s : gmap string string * list EndpointQueryDiagnostic)
  : result LlmError (gmap string string * list EndpointQueryDiagnostic) :=
  let '(name, operation) := entry in
  let '(existing, diagnostics) := s in
  match operation with
  | QSet value merge source =>
      match merge, existing !! name with
      | RejectExisting, Some _ => configuration "endpoint query override is forbidden"
      | _, _ => Ok (<[name := value]> existing,
                    diagnostics ++ [mk_query_diagnostic name ActionSet source])
      end
  | QRemove source =>
      Ok (delete name existing, diagnostics ++ [mk_query_diagnostic name ActionRemove source])
  end.

Section Urls_.
Context {U : Urls} {UP : UrlParts}.

Definition query_apply (q : EndpointQuery) (url : Url) : result LlmError (Url * list EndpointQueryDiagnostic) :=
  existing ← base_pairs q (url_query_pairs url) ∅;
  '(existing, diagnostics) ← fold_ok apply_query_operation (sorted_entries (eq_operations q)) (existing, []);
  let url := foldl (fun u p => url_append_pair p.1 p.2 u) (url_clear_query url) (sorted_entries existing) in
  Ok (url, diagnostics).

(** ** Origins: [origin.rs] *)
Record Origin := mk_origin { og_scheme : string; og_host : string; og_port : Z }.
#[global] Instance Origin_eq_dec : EqDecision Origin.
Proof. solve_decision. Defined.
Definition origin_new (scheme host : string) (port : Z) : Origin :=
  mk_origin (to_ascii_lowercase scheme) (to_ascii_lowercase host) port.
Definition host_to_string (host : Host) : string :=
  match host with
  | HostDomain name => to_ascii_lowercase name
  | HostIpv4 address => v4_to_string address
  | HostIpv6 address => v6_to_string address
  end.
Definition origin_from_url (url : Url) : result LlmError Origin :=
  host ← ok_or (url_host url) (LlmError.Configuration "endpoint must include a host");
  port ← ok_or (url_port_or_known_default url)
           (LlmError.Configuration "endpoint scheme has no effective port");
  Ok (mk_origin (to_ascii_lowercase (url_scheme url)) (host_to_string host) port).
Record EndpointResolutionDiagnostics := mk_endpoint_diagnostics {
  ed_path_variables : list EndpointPathVariable; ed_query : list EndpointQueryDiagnostic }.
Record ResolvedEndpoint := mk_endpoint {
  ep_url : Url; ep_origin : Origin; ep_diagnostics : EndpointResolutionDiagnostics }.
Definition resolved_endpoint_new (url : Url) (diagnostics : EndpointResolutionDiagnostics)
  : result LlmError ResolvedEndpoint :=
  origin ← origin_from_url url; Ok (mk_endpoint url origin diagnostics).

(** ** Destinations of credentials: [audience.rs] *)
Inductive CredentialAudience :=
| OfficialOpenAi | OfficialAnthropic | OpenRouterApi | DeepSeekApi | ZaiStandard | ZaiCoding.
Record CredentialBinding := mk_credential_binding {
  cb_origin : Origin; cb_required_path_prefix : option string; cb_label : string }.
#[global] Instance CredentialBinding_eq_dec : EqDecision CredentialBinding.
Proof. solve_decision. Defined.
Definition binding_official (host label : string) : CredentialBinding :=
  mk_credential_binding (origin_new "https" host 443) None label.
Definition official_with_path (host prefix label : string) : CredentialBinding :=
  mk_credential_binding (origin_new "https" host 443) (Some prefix) label.
Definition binding_official_openai : CredentialBinding := binding_official "api.openai.com" "official-openai".
Definition binding_official_anthropic : CredentialBinding :=
  binding_official "api.anthropic.com" "official-anthropic".
Definition binding_from (audience : CredentialAudience) : CredentialBinding :=
  match audience with
  | OfficialOpenAi => binding_official_openai
  | OfficialAnthropic => binding_official_anthropic
  | OpenRouterApi => binding_official "openrouter.ai" "openrouter"
  | DeepSeekApi => binding_official "api.deepseek.com" "deepseek"
  | ZaiStandard => official_with_path "api.z.ai" "/api/paas/v4/" "zai-standard"
  | ZaiCoding => official_with_path "api.z.ai" "/api/coding/paas/v4/" "zai-coding"
  end.
Definition exact_https_origin (endpoint : ResolvedEndpoint) : result LlmError CredentialBinding :=
  if negb (str_eqb (og_scheme (ep_origin endpoint)) REQUIRED_ENDPOINT_SCHEME)
  then configuration "production credential binding requires an HTTPS endpoint"
  else Ok (mk_credential_binding (ep_origin endpoint) None "exact-https-origin").
Definition binding_validate (b : CredentialBinding) (endpoint : ResolvedEndpoint) : result LlmError unit :=
  if bool_decide (cb_origin b = ep_origin endpoint)
     && match cb_required_path_prefix b with
        | Some prefix => starts_with (bytes_of prefix) (bytes_of (url_path (ep_url endpoint)))
        | None => true
        end
  then Ok tt
  else configuration "credential binding does not match endpoint origin".

(** ** Network policy: [policy.rs] *)
Inductive EndpointMode := Production | TestOnly.
Record EndpointNetworkPolicy := mk_network_policy {
  np_mode : EndpointMode; np_allowed_hosts : gset string }.
Definition public_https : EndpointNetworkPolicy := mk_network_policy Production ∅.
Definition test_loopback : EndpointNetworkPolicy := mk_network_policy TestOnly ∅.
Definition for_mode (mode : EndpointMode) : EndpointNetworkPolicy :=
  match mode with Production => public_https | TestOnly => test_loopback end.
Definition with_allowed_host (host : string) (p : EndpointNetworkPolicy)
  : result LlmError EndpointNetworkPolicy :=
  let host := to_ascii_lowercase host in
  if str_is_empty host || negb (str_all (byte_in 0 127) host) || contains_any ["/"; ":"; "@"]%char host
  then configuration "invalid endpoint allowlist host"
  else Ok (mk_network_policy (np_mode p) ({[host]} ∪ np_allowed_hosts p)).

Definition is_ipv4_range (address network prefix : Z) : bool :=
  let mask := Z.land (Z.shiftl U32_MAX (32 - prefix)) U32_MAX in
  Z.land address mask =? Z.land network mask.
Definition is_public_ipv4 (a : Z) : bool :=
  negb (v4_is_private a || v4_is_loopback a || v4_is_link_local a || v4_is_unspecified a
        || v4_is_multicast a || (a =? V4_BROADCAST)
        || is_ipv4_range a (ipv4 100 64 0 0) 10
        || is_ipv4_range a (ipv4 192 0 0 0) 24
        || is_ipv4_range a (ipv4 198 18 0 0) 15
        || is_ipv4_range a (ipv4 240 0 0 0) 4).
Definition is_public_ipv6 (a : Z) : bool :=
  match to_ipv4_mapped a with
  | Some mapped => is_public_ipv4 mapped
  | None =>
      let first := segment a 0 in
      negb (v6_is_loopback a || v6_is_unspecified a || v6_is_multicast a
            || (Z.land first 65024 =? 64512) || (Z.land first 65472 =? 65152)
            || ((segment a 0 =? 8193) && (segment a 1 =? 3512)))
  end.
(** [name.rsplit_once('.')], its second part. *)
Definition last_label (name : string) : option string :=
  match split_char "." name with
  | [] | [_] => None
  | l => last l
  end.
Definition is_local_domain (name : string) : bool :=
  match last_label name with Some suffix => eq_ignore_ascii_case suffix "local" | None => false end.
Definition validate_public_host (host : Host) : result LlmError unit :=
  let allowed :=
    match host with
    | HostDomain name =>
        let lower := to_ascii_lowercase name in
        negb (str_eqb lower "localhost") && negb (ends_with ".localhost" lower)
        && negb (is_local_domain lower) && negb (starts_with (bytes_of "xn--") (bytes_of lower))
        && negb (has_infix (bytes_of ".xn--") (bytes_of lower))
    | HostIpv4 address => is_public_ipv4 address
    | HostIpv6 address => is_public_ipv6 address
    end in
  if allowed then Ok tt
  else configuration "production endpoint must not target private, loopback, link-local, or IDN hosts".
Definition is_loopback (host : Host) : bool :=
  match host with
  | HostDomain name => eq_ignore_ascii_case name "localhost"
  | HostIpv4 address => v4_is_loopback address
  | HostIpv6 address => v6_is_loopback address
  end.
Definition is_loopback_url (url : Url) : bool :=
  match url_host url with Some host => is_loopback host | None => false end.
Definition http_scheme (url : Url) : bool := str_eqb (url_scheme url) "http" || str_eqb (url_scheme url) "https".
Definition validate_common (url : Url) : result LlmError unit :=
  _ ← configuration_if (negb (str_is_empty (url_username url)) || bool_decide (is_Some (url_password url)))
        "endpoint userinfo is forbidden";
  _ ← configuration_if (bool_decide (is_Some (url_fragment url))) "endpoint fragment is forbidden";
  _ ← configuration_if (negb (http_scheme url)) "endpoint scheme must be HTTP(S)";
  configuration_if (negb (bool_decide (is_Some (url_host url)))) "endpoint must include a host".
Definition policy_validate (p : EndpointNetworkPolicy) (url : Url) : result LlmError unit :=
  _ ← validate_common url;
  host ← ok_or (url_host url) (LlmError.Configuration "endpoint must include a host");
  _ ← match np_mode p with
      | Production =>
          _ ← configuration_if (negb (str_eqb (url_scheme url) REQUIRED_ENDPOINT_SCHEME))
                "production endpoint requires HTTPS";
          validate_public_host host
      | TestOnly =>
          configuration_if (negb (http_scheme url) || negb (is_loopback host))
            "test endpoint must use HTTP(S) on a loopback host"
      end;
  configuration_if (negb (bool_decide (np_allowed_hosts p = ∅))
                    && negb (bool_decide (host_to_string host ∈ np_allowed_hosts p)))
    "endpoint host is not allowlisted".

Inductive IpAddr := V4 (a : Z) | V6 (a : Z).
Definition public_address (a : IpAddr) : bool :=
  match a with V4 a => is_public_ipv4 a | V6 a => is_public_ipv6 a end.
Definition loopback_address (a : IpAddr) : bool :=
  match a with V4 a => v4_is_loopback a | V6 a => v6_is_loopback a end.
Definition validate_resolved_addresses (p : EndpointNetworkPolicy) (addresses : list IpAddr)
  : result LlmError unit :=
  _ ← configuration_if (is_empty addresses) "DNS resolution returned no addresses";
  configuration_if
    (negb (forallb (match np_mode p with Production => public_address | TestOnly => loopback_address end)
             addresses))
    "DNS resolution included a forbidden network address".

(** ** Redirects *)
Inductive RedirectPolicy := RedirectDisabled | RedirectSameOrigin.
Definition validate_hop (p : RedirectPolicy) (from : ResolvedEndpoint) (to : Url)
    (binding : option CredentialBinding) : result LlmError ResolvedEndpoint :=
  _ ← match p with RedirectDisabled => configuration "redirects are disabled" | _ => Ok tt end;
  _ ← configuration_if (bool_decide (is_Some (url_query to))) "redirect query is forbidden";
  let policy :=
    if str_eqb (og_scheme (ep_origin from)) "https" && negb (is_loopback_url (ep_url from))
    then public_https else test_loopback in
  _ ← policy_validate policy to;
  target ← resolved_endpoint_new to (mk_endpoint_diagnostics [] []);
  _ ← configuration_if (negb (bool_decide (ep_origin target = ep_origin from)))
        "cross-origin redirect is forbidden";
  _ ← configuration_if (str_eqb (og_scheme (ep_origin from)) "https"
                        && negb (str_eqb (og_scheme (ep_origin target)) "https"))
        "HTTPS redirect downgrade is forbidden";
  _ ← match binding with Some binding => binding_validate binding target | None => Ok tt end;
  Ok target.

(** ** Configurations: [config.rs] *)
Inductive EndpointConfig :=
| BaseAndPath (base_url : Url) (endpoint_path : string)
| Template (base_url : Url) (template : EndpointTemplate) (query : EndpointQuery)
| Absolute (url : Url).
Definition base_and_path (base_url endpoint_path : string) : result LlmError EndpointConfig :=
  base_url ← ok_or (url_parse base_url) (LlmError.Configuration "invalid base URL");
  Ok (BaseAndPath base_url endpoint_path).
Definition base_and_template (base_url : string) (template : EndpointTemplate) (query : EndpointQuery)
  : result LlmError EndpointConfig :=
  base_url ← ok_or (url_parse base_url) (LlmError.Configuration "invalid base URL");
  Ok (Template base_url template query).
Definition absolute (endpoint : string) : result LlmError EndpointConfig :=
  url ← ok_or (url_parse endpoint) (LlmError.Configuration "invalid absolute endpoint");
  Ok (Absolute url).
Definition requires_mapping (c : EndpointConfig) : bool :=
  match c with Template _ template _ => requires_values template | _ => false end.

Definition endpoint_url (c : EndpointConfig) (values : option EndpointValues)
  : result LlmError (Url * EndpointResolutionDiagnostics) :=
  match c with
  | Absolute url =>
      _ ← configuration_if (bool_decide (is_Some (url_query url))) "absolute endpoint query is forbidden";
      Ok (url, mk_endpoint_diagnostics [] [])
  | BaseAndPath base_url endpoint_path =>
      _ ← configuration_if (bool_decide (is_Some (url_query base_url)))
            "fixed base endpoint query is forbidden";
      template ← template_parse endpoint_path;
      '(path, used) ← render template (url_path base_url) None;
      Ok (url_set_path path base_url, mk_endpoint_diagnostics used [])
  | Template base_url template query =>
      '(path, used) ← render template (url_path base_url) values;
      '(url, query_diagnostics) ← query_apply query (url_set_path path base_url);
      Ok (url, mk_endpoint_diagnostics used query_diagnostics)
  end.
Definition endpoint_resolve (c : EndpointConfig) (mode : EndpointMode) (values : option EndpointValues)
  : result LlmError ResolvedEndpoint :=
  '(url, diagnostics) ← endpoint_url c values;
  _ ← policy_validate (for_mode mode) url;
  resolved_endpoint_new url diagnostics.
Definition resolve_official (c : EndpointConfig) : result LlmError ResolvedEndpoint :=
  endpoint_resolve c Production None.
Definition resolve_official_for (c : EndpointConfig) (values : EndpointValues)
  : result LlmError ResolvedEndpoint := endpoint_resolve c Production (Some values).
Definition resolve_test_only (c : EndpointConfig) : result LlmError ResolvedEndpoint :=
  endpoint_resolve c TestOnly None.
Definition resolve_test_only_for (c : EndpointConfig) (values : EndpointValues)
  : result LlmError ResolvedEndpoint := endpoint_resolve c TestOnly (Some values).
End Urls_.

(** ** Mapping of a catalog entry: [mapping.rs] *)
Record ResolvedModelMapping := mk_model_mapping {
  mm_domain_model_id : string; mm_product_id : string; mm_provider_model_id : string;
  mm_deployment_id : option string; mm_wire_model_value : string }.
Definition mapping_from_entry (e : ModelEntry) : ResolvedModelMapping :=
  let '(_, product, model) := me_key e in
  mk_model_mapping model product (me_provider_model_id e) (me_deployment_id e) (me_wire_model_value e).
Definition mapping_endpoint_values (m : ResolvedModelMapping) : EndpointValues :=
  mk_endpoint_values (mm_product_id m) (mm_provider_model_id m) (mm_deployment_id m).
