(* ===== verification/EndpointSpec.v ===== *)
(** * Endpoints: where a request can go

    The address classes as blocks of addresses, hosts by their labels, the path
    of a template with its values, and what a resolved endpoint, a redirect and a
    credential binding guarantee. *)
From S2P Require Import Prelude Errors Domain Images Structured ChatWire Schema Options History Request RequestSpec Headers Contract Catalog Endpoint.

(** ** Addresses *)

(** First and last address of the IPv4 blocks a production endpoint may not
    name. *)
Definition reserved_ipv4 : list (Z * Z) :=
  [(ipv4 0 0 0 0, ipv4 0 0 0 0); (ipv4 10 0 0 0, ipv4 10 255 255 255);
   (ipv4 100 64 0 0, ipv4 100 127 255 255); (ipv4 127 0 0 0, ipv4 127 255 255 255);
   (ipv4 169 254 0 0, ipv4 169 254 255 255); (ipv4 172 16 0 0, ipv4 172 31 255 255);
   (ipv4 192 0 0 0, ipv4 192 0 0 255); (ipv4 192 168 0 0, ipv4 192 168 255 255);
   (ipv4 198 18 0 0, ipv4 198 19 255 255); (ipv4 224 0 0 0, ipv4 255 255 255 255)].
(** The block of the addresses whose top segments are given, in IPv6. *)
Definition block (top low_bits : Z) : Z * Z := (top * 2 ^ low_bits, (top + 1) * 2 ^ low_bits - 1).
Definition reserved_ipv6 : list (Z * Z) :=
  [(0, 1);                       (* :: and ::1 *)
   block 126 121;                (* fc00::/7 *)
   block 1018 118;               (* fe80::/10 *)
   block 255 120;                (* ff00::/8 *)
   block 536939960 96].          (* 2001:db8::/32 *)
Definition outside (blocks : list (Z * Z)) (a : Z) : Prop :=
  Forall (fun b : Z * Z => ~ (b.1 <= a <= b.2)) blocks.
Definition mapped_block : Z * Z := block 65535 32.   (* ::ffff:0:0/96 *)

Lemma octet_div a i : 0 <= i <= 3 -> octet a i = (a / 2 ^ (8 * (3 - i))) mod 256.
Proof.
  intros Hi. unfold octet. change 255 with (Z.ones 8). rewrite Z.land_ones by lia.
  by rewrite Z.shiftr_div_pow2 by lia.
Qed.
(** A mask of the top bits rounds down to a multiple of a power of two. *)
Lemma land_high a k w : 0 <= k <= w -> 0 <= a < 2 ^ w -> Z.land a (2 ^ w - 2 ^ k) = a / 2 ^ k * 2 ^ k.
Proof.
  intros Hk Ha. replace (2 ^ w - 2 ^ k) with (Z.shiftl (Z.ones (w - k)) k).
  - rewrite <- Z.shiftl_mul_pow2, <- Z.shiftr_div_pow2 by lia. apply Z.bits_inj'. intros n Hn.
    rewrite Z.land_spec, !Z.shiftl_spec by lia. destruct (Z.lt_ge_cases n k).
    + rewrite !(Z.testbit_neg_r _ (n - k)) by lia. apply andb_false_r.
    + rewrite Z.shiftr_spec by lia. replace (n - k + k) with n by lia.
      destruct (Z.lt_ge_cases n w).
      * rewrite Z.ones_spec_low by lia. apply andb_true_r.
      * rewrite Z.ones_spec_high by lia. rewrite andb_false_r. symmetry.
        destruct (Z.eq_dec a 0) as [->|]; [apply Z.bits_0|].
        apply Z.bits_above_log2; [lia|]. apply Z.log2_lt_pow2; [lia|].
        eapply Z.lt_le_trans; [apply Ha|]. apply Z.pow_le_mono_r; lia.
  - rewrite Z.shiftl_mul_pow2, Z.ones_equiv by lia.
    replace (2 ^ w) with (2 ^ (w - k) * 2 ^ k) by (rewrite <- Z.pow_add_r by lia; f_equal; lia). lia.
Qed.
Lemma range_block a network prefix :
  0 <= a <= U32_MAX -> 0 <= network <= U32_MAX -> 1 <= prefix <= 32 ->
  is_ipv4_range a network prefix = true <-> a / 2 ^ (32 - prefix) = network / 2 ^ (32 - prefix).
Proof.
  intros Ha Hn Hp. unfold is_ipv4_range. set (k := 32 - prefix).
  replace (Z.land (Z.shiftl U32_MAX k) U32_MAX) with (2 ^ 32 - 2 ^ k).
  - change U32_MAX with (2 ^ 32 - 1) in *. rewrite Z.eqb_eq, !land_high by (unfold k; lia).
    pose proof (Z.pow_pos_nonneg 2 k). split; [|congruence]. intros. apply (Z.mul_cancel_r _ _ (2 ^ k)); unfold k in *; lia.
  - change U32_MAX with (Z.ones 32). rewrite Z.land_ones by lia.
    rewrite Z.shiftl_mul_pow2, Z.ones_equiv by (unfold k; lia).
    replace (Z.pred (2 ^ 32) * 2 ^ k) with (2 ^ 32 - 2 ^ k + (2 ^ k - 1) * 2 ^ 32) by lia.
    rewrite Z_mod_plus_full. symmetry. apply Z.mod_small.
    assert (2 ^ k <= 2 ^ 31) by (apply Z.pow_le_mono_r; unfold k; lia).
    assert (0 < 2 ^ k) by (apply Z.pow_pos_nonneg; unfold k; lia). lia.
Qed.

(** The tests on octets and prefixes are tests for a block. *)
Lemma first_octet a lo hi : u32 a ->
  in_range lo hi (octet a 0) = in_range (lo * 16777216) (hi * 16777216 + 16777215) a.
Proof.
  unfold u32, U32_MAX. intros Ha. rewrite octet_div by lia. change (2 ^ (8 * (3 - 0))) with 16777216.
  apply eq_true_iff_eq. rewrite !in_range_spec. Z.to_euclidean_division_equations; lia.
Qed.
Lemma two_octets a x lo hi : u32 a -> 0 <= lo -> hi <= 255 ->
  (octet a 0 =? x) && in_range lo hi (octet a 1) =
  in_range (x * 16777216 + lo * 65536) (x * 16777216 + hi * 65536 + 65535) a.
Proof.
  unfold u32, U32_MAX. intros Ha Hl Hh. rewrite !octet_div by lia.
  change (2 ^ (8 * (3 - 0))) with 16777216. change (2 ^ (8 * (3 - 1))) with 65536.
  apply eq_true_iff_eq. rewrite andb_true_iff, !in_range_spec, Z.eqb_eq.
  Z.to_euclidean_division_equations; lia.
Qed.
Lemma eqb_in_range x y : (x =? y) = in_range y y x.
Proof. apply eq_true_iff_eq. rewrite in_range_spec, Z.eqb_eq. lia. Qed.
Lemma div_block a s q : 0 < s -> a / s = q <-> q * s <= a <= (q + 1) * s - 1.
Proof.
  intros Hs. split; intros H.
  - subst q. pose proof (Z.mul_div_le a s). pose proof (Z.mul_succ_div_gt a s). lia.
  - symmetry. apply (Z.div_unique a s q (a - q * s)); lia.
Qed.
Lemma range_in_range a q prefix size :
  u32 a -> 1 <= prefix <= 32 -> size = 2 ^ (32 - prefix) -> u32 (q * size) ->
  is_ipv4_range a (q * size) prefix = in_range (q * size) ((q + 1) * size - 1) a.
Proof.
  intros Ha Hp -> Hn. apply eq_true_iff_eq.
  assert (0 < 2 ^ (32 - prefix)) by (apply Z.pow_pos_nonneg; lia).
  by rewrite range_block, in_range_spec, Z.div_mul, div_block by (done || lia).
Qed.
Lemma negb_in_range lo hi x : negb (in_range lo hi x) = true <-> ~ (lo <= x <= hi).
Proof. rewrite negb_true_iff, <- in_range_spec. by destruct (in_range lo hi x). Qed.

Lemma public_ipv4_exact a : u32 a -> is_public_ipv4 a = true <-> outside reserved_ipv4 a.
Proof.
  intros Ha. unfold is_public_ipv4, v4_is_private, v4_is_loopback, v4_is_link_local, v4_is_unspecified,
    v4_is_multicast, V4_BROADCAST.
  rewrite (eqb_in_range (octet a 1) 168), (eqb_in_range (octet a 1) 254), !two_octets by (done || lia).
  rewrite (eqb_in_range (octet a 0) 10), (eqb_in_range (octet a 0) 127), !first_octet by done.
  rewrite (eqb_in_range a 0), (eqb_in_range a U32_MAX).
  change (ipv4 100 64 0 0) with (401 * 4194304) at 1. change (ipv4 192 0 0 0) with (12582912 * 256) at 1.
  change (ipv4 198 18 0 0) with (25353 * 131072) at 1. change (ipv4 240 0 0 0) with (15 * 268435456) at 1.
  rewrite !range_in_range by (unfold u32, U32_MAX in *; lia || reflexivity).
  unfold outside, reserved_ipv4. rewrite !Forall_cons, Forall_nil, !negb_orb, !andb_true_iff, !negb_in_range.
  unfold u32, U32_MAX in *. simpl. unfold ipv4. lia.
Qed.

Definition u128 (a : Z) : Prop := 0 <= a <= U128_MAX.
Lemma segment_div a i : 0 <= i <= 7 -> segment a i = (a / 2 ^ (16 * (7 - i))) mod 65536.
Proof.
  intros Hi. unfold segment. change 65535 with (Z.ones 16). rewrite Z.land_ones by lia.
  by rewrite Z.shiftr_div_pow2 by lia.
Qed.
Lemma first_segment a : u128 a -> segment a 0 = a / 2 ^ 112 /\ 0 <= a / 2 ^ 112 < 2 ^ 16.
Proof.
  unfold u128, U128_MAX. intros Ha. rewrite segment_div by lia. change (16 * (7 - 0)) with 112.
  assert (0 <= a / 2 ^ 112 < 2 ^ 16) as Hb.
  { split; [apply Z.div_pos; lia|]. apply Z.div_lt_upper_bound; [lia|].
    change (2 ^ 112 * 2 ^ 16) with (2 ^ 128). lia. }
  split; [|done]. apply Z.mod_small, Hb.
Qed.
Lemma top_bits a k v : u128 a -> 0 <= k <= 16 ->
  (Z.land (segment a 0) (2 ^ 16 - 2 ^ k) =? v * 2 ^ k) =
  in_range (v * 2 ^ (112 + k)) ((v + 1) * 2 ^ (112 + k) - 1) a.
Proof.
  intros Ha Hk. destruct (first_segment a Ha) as [-> Hb]. rewrite land_high by done.
  apply eq_true_iff_eq. assert (0 < 2 ^ k) by (apply Z.pow_pos_nonneg; lia).
  rewrite Z.eqb_eq, in_range_spec, <- div_block by (apply Z.pow_pos_nonneg; lia).
  rewrite Z.pow_add_r, <- Z.div_div by lia. split; [|congruence]. intros He.
  apply (Z.mul_cancel_r _ _ (2 ^ k)); [lia|done].
Qed.
Lemma two_segments a x y : u128 a -> 0 <= x -> 0 <= y < 65536 ->
  (segment a 0 =? x) && (segment a 1 =? y) =
  in_range ((x * 65536 + y) * 2 ^ 96) ((x * 65536 + y + 1) * 2 ^ 96 - 1) a.
Proof.
  intros Ha Hx Hy. destruct (first_segment a Ha) as [-> Hb]. rewrite segment_div by lia.
  change (16 * (7 - 1)) with 96. apply eq_true_iff_eq.
  rewrite andb_true_iff, in_range_spec, !Z.eqb_eq, <- div_block by lia.
  replace (a / 2 ^ 112) with (a / 2 ^ 96 / 65536) by (rewrite Z.div_div by lia; reflexivity).
  generalize (a / 2 ^ 96). intros q. Z.to_euclidean_division_equations; lia.
Qed.
Lemma mapped_in_range a : u128 a ->
  to_ipv4_mapped a = if in_range (65535 * 2 ^ 32) ((65535 + 1) * 2 ^ 32 - 1) a
                     then Some (a mod 2 ^ 32) else None.
Proof.
  intros Ha. unfold to_ipv4_mapped. rewrite Z.shiftr_div_pow2 by lia. change U32_MAX with (Z.ones 32).
  rewrite Z.land_ones by lia. replace (a / 2 ^ 32 =? 65535) with
    (in_range (65535 * 2 ^ 32) ((65535 + 1) * 2 ^ 32 - 1) a); [done|].
  apply eq_true_iff_eq. by rewrite in_range_spec, Z.eqb_eq, <- div_block by lia.
Qed.

(** An IPv6 address is public when it is in none of the reserved blocks and,
    being an IPv4-mapped one, its IPv4 address is public. *)
Definition public_v6 (a : Z) : Prop :=
  if in_range mapped_block.1 mapped_block.2 a then outside reserved_ipv4 (a mod 2 ^ 32)
  else outside reserved_ipv6 a.
Lemma public_ipv6_exact a : u128 a -> is_public_ipv6 a = true <-> public_v6 a.
Proof.
  intros Ha. unfold is_public_ipv6, public_v6. rewrite mapped_in_range by done.
  cbn [mapped_block block fst snd]. destruct (in_range _ _ a).
  - apply public_ipv4_exact. unfold u32, U32_MAX. pose proof (Z.mod_pos_bound a (2 ^ 32)). lia.
  - unfold v6_is_loopback, v6_is_unspecified, v6_is_multicast.
    change (Z.land (segment a 0) 65280 =? 65280) with (Z.land (segment a 0) (2 ^ 16 - 2 ^ 8) =? 255 * 2 ^ 8).
    change (Z.land (segment a 0) 65024 =? 64512) with (Z.land (segment a 0) (2 ^ 16 - 2 ^ 9) =? 126 * 2 ^ 9).
    change (Z.land (segment a 0) 65472 =? 65152) with (Z.land (segment a 0) (2 ^ 16 - 2 ^ 6) =? 1018 * 2 ^ 6).
    rewrite !top_bits, two_segments, !eqb_in_range by (done || lia).
    rewrite !negb_orb, !andb_true_iff, !negb_in_range. unfold outside, reserved_ipv6, block.
    rewrite !Forall_cons, Forall_nil. unfold u128 in Ha. simpl fst. simpl snd.
    change (112 + 8) with 120. change (112 + 9) with 121. change (112 + 6) with 118.
    change (8193 * 65536 + 3512) with 536939960. lia.
Qed.

(** ** Hosts *)

(** A domain name is public when its last label is neither [localhost] nor,
    having others before it, [local], and no label is an encoded one. *)
Definition labels (name : string) : list string := split_char "." (to_ascii_lowercase name).
Definition public_domain (name : string) : Prop :=
  last (labels name) <> Some "localhost" /\
  ((1 < length (labels name))%nat -> last (labels name) <> Some "local") /\
  Forall (fun l => starts_with (bytes_of "xn--") (bytes_of l) = false) (labels name).
Definition public_host (h : Host) : Prop :=
  match h with
  | HostDomain name => public_domain name
  | HostIpv4 a => outside reserved_ipv4 a
  | HostIpv6 a => public_v6 a
  end.
Definition host_wf (h : Host) : Prop :=
  match h with HostDomain _ => True | HostIpv4 a => u32 a | HostIpv6 a => u128 a end.

Lemma bytes_cons b s : bytes_of (String b s) = b :: bytes_of s.
Proof. done. Qed.
Lemma free_cons p b s : free_of p (String b s) = negb (p b) && free_of p s.
Proof. done. Qed.

Section Labels.
Context (p : ascii -> bool) (c : ascii) (Hc : forall b, p b = true <-> b = c).
(** The pieces of a split: the first is the longest prefix without a separator,
    and every other one follows a separator. *)
Lemma starts_first w s : free_of p w = true ->
  starts_with (bytes_of w) (bytes_of s) = starts_with (bytes_of w) (bytes_of (hd EmptyString (split_on p s))).
Proof.
  revert s. induction w as [|a w IH]; intros s; [done|]. rewrite free_cons.
  intros [Ha Hw]%andb_true_iff. destruct s as [|b s]; [done|]. cbn [split_on].
  rewrite !bytes_cons. destruct (p b) eqn:Hb; cbn [hd starts_with].
  - destruct (Ascii.eqb_spec a b) as [->|]; [|done]. by rewrite Hb in Ha.
  - specialize (IH s Hw). destruct (split_on_cons p s) as (part & parts & E). rewrite E in *.
    cbn [hd] in *. rewrite !bytes_cons. cbn [starts_with]. by rewrite IH.
Qed.
Lemma later_starts w s : free_of p w = true ->
  has_infix (c :: bytes_of w) (bytes_of s) =
  existsb (fun l => starts_with (bytes_of w) (bytes_of l)) (tail (split_on p s)).
Proof.
  intros Hw. induction s as [|b s IH]; [done|]. rewrite bytes_cons. cbn [has_infix starts_with split_on].
  rewrite IH. destruct (split_on_cons p s) as (part & parts & E). destruct (p b) eqn:Hb; cbn [tail existsb].
  - apply Hc in Hb as ->. rewrite Ascii.eqb_refl, (starts_first w s Hw), E. done.
  - rewrite E. cbn [tail]. destruct (Ascii.eqb_spec c b) as [<-|]; [|done].
    by rewrite (proj2 (Hc c) eq_refl) in Hb.
Qed.
Lemma split_single s x : split_on p s = [x] -> x = s /\ free_of p s = true.
Proof.
  revert x. induction s as [|b s IH]; intros x; cbn [split_on]; [by intros [= <-]|].
  destruct (split_on_cons p s) as (part & parts & E). rewrite E in *. destruct (p b) eqn:Hb; [done|].
  intros [= <- ->]. destruct (IH part eq_refl) as [-> Hs]. split; [done|]. by rewrite free_cons, Hb.
Qed.
Lemma not_free t w : free_of p (t +:+ String c w) = false.
Proof. rewrite free_of_app, free_cons, (proj2 (Hc c) eq_refl). apply andb_false_r. Qed.
(** The last piece is what follows the last separator. *)
Lemma last_split w s : free_of p w = true ->
  last (split_on p s) = Some w <-> s = w \/ exists t, s = t +:+ String c w.
Proof.
  intros Hw. induction s as [|b s IH]; cbn [split_on].
  { split; [intros [= <-]; by left|]. intros [<-|[t Ht]]; [done|]. by destruct t. }
  assert (forall t, String b s = t +:+ String c w ->
    (t = EmptyString /\ b = c /\ s = w) \/ exists u, s = u +:+ String c w) as Hcut.
  { intros [|b' t] [= -> ->]; [by left|]. right. by exists t. }
  destruct (split_on_cons p s) as (part & parts & E). destruct (p b) eqn:Hb.
  - apply Hc in Hb as ->. rewrite E in *. cbn [last] in *. rewrite IH. split.
    + intros [->|[t ->]]; right; [by exists EmptyString|by exists (String c t)].
    + intros [<-|[t [(_ & _ & ->)|Hu]%Hcut]]; [|by left|by right].
      rewrite free_cons, (proj2 (Hc c) eq_refl) in Hw. done.
  - assert (b <> c) as Hbc by (intros ->; by rewrite (proj2 (Hc c) eq_refl) in Hb).
    rewrite E in *. destruct parts as [|q parts].
    + apply split_single in E as [-> Hs]. cbn [last]. split; [intros [= <-]; by left|].
      intros [->|[t [(_ & -> & _)|[u ->]]%Hcut]]; [done..|]. by rewrite not_free in Hs.
    + change (last (String b part :: q :: parts)) with (last (part :: q :: parts)). rewrite IH.
      assert (forall u, free_of p u = true -> s <> u) as Hne.
      { intros u Hu ->. by rewrite (split_on_free p u Hu) in E. }
      split.
      * intros [->|[t ->]]; [by apply Hne in Hw|]. right. by exists (String b t).
      * intros [<-|[t [(_ & -> & _)|Hu]%Hcut]]; [|done|by right].
        rewrite free_cons in Hw. apply andb_true_iff in Hw as [_ Hw]. by apply Hne in Hw.
Qed.
End Labels.

Lemma starts_with_spec x s : starts_with x s = true <-> exists t, s = x ++ t.
Proof.
  revert s. induction x as [|a x IH]; intros s; simpl; [split; eauto|]. destruct s as [|b s].
  { split; [done|]. by intros [t ?]. }
  rewrite andb_true_iff, IH. destruct (Ascii.eqb_spec a b) as [->|Hn].
  - split; [intros [_ [t ->]]; eauto|intros [t [= ->]]; eauto].
  - split; [by intros []|]. intros [t [= ]]. congruence.
Qed.
Lemma ends_with_spec x s : ends_with x s = true <-> exists t, s = t +:+ x.
Proof.
  unfold ends_with. rewrite starts_with_spec. split.
  - intros [t Ht]. exists (str_of (rev t)). rewrite <- (rev_involutive (bytes_of s)) in *.
    apply (f_equal (@rev ascii)) in Ht. rewrite !rev_involutive, rev_app_distr, rev_involutive in Ht.
    apply (f_equal str_of) in Ht. unfold str_of in *.
    rewrite <- (String.string_of_list_ascii_of_string s). fold (bytes_of s). rewrite Ht.
    rewrite <- (String.string_of_list_ascii_of_string (_ +:+ x)). f_equal.
    fold (bytes_of (string_of_list_ascii (rev t) +:+ x)). rewrite bytes_of_app. f_equal.
    symmetry. apply bytes_of_str_of.
  - intros [t ->]. exists (rev (bytes_of t)). by rewrite bytes_of_app, rev_app_distr.
Qed.

(** ** Lower case *)
Lemma lower_lower b : lower_byte (lower_byte b) = lower_byte b.
Proof. destruct b as [[][][][][][][][]]; vm_compute; reflexivity. Qed.
Definition is_lower (s : string) : Prop := Forall (fun b => lower_byte b = b) (bytes_of s).
Lemma is_lower_id s : is_lower s -> to_ascii_lowercase s = s.
Proof.
  intros H. unfold to_ascii_lowercase. transitivity (str_of (bytes_of s));
    [|apply String.string_of_list_ascii_of_string].
  f_equal. unfold is_lower in H. induction H as [|b l Hb _ IH]; simpl; congruence.
Qed.
Lemma lowercase_is_lower s : is_lower (to_ascii_lowercase s).
Proof.
  unfold is_lower, to_ascii_lowercase. rewrite bytes_of_str_of. apply Forall_map, Forall_true.
  intros. apply lower_lower.
Qed.
Lemma split_lower p s l : is_lower s -> l ∈ split_on p s -> is_lower l.
Proof.
  revert l. induction s as [|b s IH]; intros l Hs; cbn [split_on]; [by intros ->%list_elem_of_singleton|].
  unfold is_lower in Hs. rewrite bytes_cons in Hs. apply Forall_cons in Hs as [Hb Hs].
  destruct (split_on_cons p s) as (part & parts & E). rewrite E in *. destruct (p b).
  - intros [->|Hin]%elem_of_cons; [constructor|]. by apply IH.
  - intros [->|Hin]%elem_of_cons; [|apply IH; set_solver].
    unfold is_lower. rewrite bytes_cons. constructor; [done|]. apply IH; set_solver.
Qed.

Lemma is_sep c b : Ascii.eqb c b = true <-> b = c.
Proof. rewrite Ascii.eqb_eq. split; congruence. Qed.
Lemma localhost_label name :
  str_eqb (to_ascii_lowercase name) "localhost" || ends_with ".localhost" (to_ascii_lowercase name) = true
  <-> last (labels name) = Some "localhost".
Proof.
  unfold labels, split_char. rewrite (last_split _ "."%char (is_sep ".")) by done.
  by rewrite orb_true_iff, str_eqb_spec, ends_with_spec.
Qed.
Lemma local_label name :
  is_local_domain (to_ascii_lowercase name) = true <->
  (1 < length (labels name))%nat /\ last (labels name) = Some "local".
Proof.
  unfold is_local_domain, last_label, labels. set (s := to_ascii_lowercase name).
  assert (forall l, last (split_char "." s) = Some l -> eq_ignore_ascii_case l "local" = true <-> l = "local") as Hl.
  { intros l Hl. unfold eq_ignore_ascii_case. rewrite str_eqb_spec.
    rewrite (is_lower_id l); [done|]. apply (split_lower (Ascii.eqb ".") s); [apply lowercase_is_lower|].
    by apply last_Some_elem_of. }
  destruct (split_char "." s) as [|a [|b l]]; simpl in *; [by split; [|intros [? _]; lia]..|].
  destruct (last (b :: l)) as [x|] eqn:E; [|split; [done|by intros [_ ?]]].

  rewrite (Hl x eq_refl). split; [intros ->; split; [lia|done]|by intros [_ [= ->]]].
Qed.
Lemma encoded_label name :
  starts_with (bytes_of "xn--") (bytes_of (to_ascii_lowercase name))
  || has_infix (bytes_of ".xn--") (bytes_of (to_ascii_lowercase name)) = false <->
  Forall (fun l => starts_with (bytes_of "xn--") (bytes_of l) = false) (labels name).
Proof.
  unfold labels, split_char. set (s := to_ascii_lowercase name).
  change (bytes_of ".xn--") with ("."%char :: bytes_of "xn--").
  rewrite (starts_first (Ascii.eqb ".") "xn--") by done.
  rewrite (later_starts (Ascii.eqb ".") "."%char (is_sep ".") "xn--") by done.
  destruct (split_on_cons (Ascii.eqb ".") s) as (a & l & ->). cbn [hd tail].
  rewrite orb_false_iff, Forall_cons. f_equiv. rewrite Forall_forall. split.
  - intros H x Hx. destruct (starts_with (bytes_of "xn--") (bytes_of x)) eqn:E; [|done].
    rewrite <- H. symmetry. apply existsb_exists. exists x. by rewrite <- list_elem_of_In.
  - intros H. apply not_true_iff_false. rewrite existsb_exists. intros (x & Hx & E).
    apply list_elem_of_In, H in Hx. congruence.
Qed.
Lemma public_host_spec h : host_wf h -> validate_public_host h = Ok tt <-> public_host h.
Proof.
  destruct h as [name|a|a]; simpl; intros Hw; unfold validate_public_host.
  - unfold public_domain. rewrite <- localhost_label, <- encoded_label.
    destruct (is_local_domain (to_ascii_lowercase name)) eqn:E;
      [apply local_label in E as [Hn Hl]; rewrite andb_false_r; simpl; split; [done|];
       intros (_ & H & _); by apply H in Hn|].
    assert ((1 < length (labels name))%nat -> last (labels name) <> Some "local") as Hloc.
    { intros Hn Hl. by rewrite (proj2 (local_label name) (conj Hn Hl)) in E. }
    destruct (str_eqb _ _), (ends_with _ _), (starts_with _ _), (has_infix _ _); simpl; naive_solver.
  - rewrite <- public_ipv4_exact by done. by destruct (is_public_ipv4 a).
  - rewrite <- public_ipv6_exact by done. by destruct (is_public_ipv6 a).
Qed.
(** A host passes the production check exactly when it is public: a name whose
    last label is neither [localhost] nor, below other labels, [local] and none of
    whose labels is an encoded one; an IPv4 address outside the reserved blocks;
    an IPv6 address outside its reserved blocks whose mapped IPv4 address, if it
    has one, is public. *)
Theorem public_host_exact h : host_wf h -> validate_public_host h = Ok tt <-> public_host h.
Proof. apply public_host_spec. Qed.

(** ** Paths *)

(** Percent-decoding of one segment. *)
Definition hex_value (b : ascii) : option Z :=
  if is_ascii_digit b then Some (byte_val b - 48)
  else if byte_in 65 70 b then Some (byte_val b - 55)
  else if byte_in 97 102 b then Some (byte_val b - 87)
  else None.
Fixpoint percent_decode (l : list ascii) : option (list ascii) :=
  match l with
  | [] => Some []
  | b :: l' =>
      if Ascii.eqb b "%" then
        match l' with
        | h :: l :: rest =>
            h ← hex_value h; l ← hex_value l; rest ← percent_decode rest;
            Some (ascii_of_N (Z.to_N (h * 16 + l)) :: rest)
        | _ => None
        end
      else rest ← percent_decode l'; Some (b :: rest)
  end.
(** The bytes of a path that a URL keeps as they are. *)
Definition path_byte (b : ascii) : bool :=
  unreserved_byte b || contains ["."; "%"; ":"; "@"; "!"; "$"; "&"; "'"; "("; ")"; "*"; "+"; ","; ";"; "="] (String b EmptyString).
(** The URL Standard's dot segments, written plainly or percent-encoded. *)
Definition dot (s : string) : bool := contains ["."; "%2e"] (to_ascii_lowercase s).
Definition double_dot (s : string) : bool :=
  contains [".."; ".%2e"; "%2e."; "%2e%2e"] (to_ascii_lowercase s).
(** The segments of a path without its dot segments; a dot segment at the end
    leaves an empty one. *)
Fixpoint remove_dots (acc : list string) (ended : bool) (segments : list string) : list string :=
  match segments with
  | [] => rev (if ended then EmptyString :: acc else acc)
  | s :: rest =>
      if double_dot s then remove_dots (tail acc) true rest
      else if dot s then remove_dots acc true rest
      else remove_dots (s :: acc) false rest
  end.
Definition normal_path (path : string) : string :=
  join "/" (EmptyString :: remove_dots [] false (tail (split_char "/" path))).
Definition plain_path (path : string) : bool :=
  starts_with (bytes_of "/") (bytes_of path)
  && str_all (fun b => path_byte b || Ascii.eqb b "/") path.

(** What the documentation of [url::Url] and the URL Standard promise of the
    operations the resolver uses. *)
Definition same_authority {U : Urls} {UP : UrlParts} (u v : Url) : Prop :=
  url_scheme u = url_scheme v /\ url_host u = url_host v /\
  url_port_or_known_default u = url_port_or_known_default v /\
  url_username u = url_username v /\ url_password u = url_password v /\
  url_fragment u = url_fragment v.
Class UrlLaws {U : Urls} {UP : UrlParts} := {
  set_path_keeps : forall path u, same_authority (url_set_path path u) u /\
    url_query_pairs (url_set_path path u) = url_query_pairs u;
  clear_query_keeps : forall u, same_authority (url_clear_query u) u /\
    url_path (url_clear_query u) = url_path u /\ url_query_pairs (url_clear_query u) = [];
  append_pair_keeps : forall n v u, same_authority (url_append_pair n v u) u /\
    url_path (url_append_pair n v u) = url_path u /\
    url_query_pairs (url_append_pair n v u) = url_query_pairs u ++ [(n, v)];
  set_path_normal : forall path u, http_scheme u = true -> plain_path path = true ->
    url_path (url_set_path path u) = normal_path path;
  url_host_wf : forall u h, url_host u = Some h -> host_wf h }.

Lemma same_authority_refl `{UrlParts} u : same_authority u u.
Proof. by repeat split. Qed.
Lemma same_authority_trans `{UrlParts} u v w :
  same_authority u v -> same_authority v w -> same_authority u w.
Proof.
  intros (?&?&?&?&?&?) (?&?&?&?&?&?). unfold same_authority. split_and!; congruence.
Qed.

(** A rendered segment, and the path of a template below a base. *)
Definition segment_text (v : option EndpointValues) (s : PathSegment) : option string :=
  match s with
  | Literal value => Some value
  | Variable_ x =>
      v ← v;
      match x with
      | VProduct => Some (encode_path_segment (ev_product_id v))
      | VProviderModel => Some (encode_path_segment (ev_provider_model_id v))
      | VDeployment => encode_path_segment <$> ev_deployment_id v
      end
  end.
Definition path_variables (l : list PathSegment) : list EndpointPathVariable :=
  omap (fun s => match s with Variable_ x => Some x | Literal _ => None end) l.

Lemma render_segments_spec l v path used r :
  render_segments l v path used = Ok r ->
  exists texts, mapM (segment_text v) l = Some texts /\ r.2 = used ++ path_variables l /\
    r.1 = foldl (fun path t => (if ends_with "/" path then path else path +:+ "/") +:+ t) path texts.
Proof.
  revert path used. induction l as [|s l IH]; intros path used; simpl.
  { intros [= <-]. exists []. by rewrite app_nil_r. }
  destruct s as [value|x]; simpl.
  - intros (texts & Ht & Hu & Hp)%IH. exists (value :: texts). by rewrite Ht.
  - destruct v as [v|]; [|done]. intros H. rewrite bind_ok in H. destruct H as (value & Hv & H).
    apply IH in H as (texts & Ht & Hu & Hp). exists (encode_path_segment value :: texts). rewrite Ht.
    assert (segment_text (Some v) (Variable_ x) = Some (encode_path_segment value)) as Hs.
    { destruct x; simpl in *; [by injection Hv as ->..|]. destruct (ev_deployment_id v); [|done].
      by injection Hv as ->. }
    simpl in Hs |- *. rewrite Hs. simpl. split_and!; [done| |done]. by rewrite Hu, <- app_assoc.
Qed.

(** *** Splitting and joining *)
Section Joined.
Context (c : ascii).
Abbreviation sep := (Ascii.eqb c).
Lemma split_app_sep s t : split_on sep (s +:+ String c t) = split_on sep s ++ split_on sep t.
Proof.
  induction s as [|b s IH]; cbn [split_on String.append].
  - by rewrite str_app_nil_l; cbn [split_on]; rewrite Ascii.eqb_refl.
  - rewrite str_app_cons. cbn [split_on]. rewrite IH. destruct (Ascii.eqb c b); [done|].
    by destruct (split_on_cons sep s) as (part & parts & ->).
Qed.
Lemma join_split s : join (String c EmptyString) (split_on sep s) = s.
Proof.
  induction s as [|b s IH]; [done|]. cbn [split_on].
  destruct (split_on_cons sep s) as (part & parts & E). rewrite E in *.
  destruct (Ascii.eqb_spec c b) as [<-|_]; cbn [join] in *; destruct parts; cbn [join] in *; rewrite <- IH; done.
Qed.
Lemma split_join l : l <> [] -> Forall (fun s => free_of sep s = true) l ->
  split_on sep (join (String c EmptyString) l) = l.
Proof.
  intros Hne H. induction H as [|s l Hs H IH]; [done|]. destruct l as [|t l]; [by apply split_on_free|].
  change (join (String c EmptyString) (s :: t :: l)) with
    (s +:+ String c (join (String c EmptyString) (t :: l))).
  rewrite split_app_sep, (split_on_free _ s Hs), IH; done.
Qed.
End Joined.
Abbreviation slash_free s := (free_of (Ascii.eqb "/") s = true).

Lemma not_ends_with s t : slash_free t -> t <> EmptyString -> ends_with "/" (s +:+ t) = false.
Proof.
  intros Ht Hne. apply not_true_iff_false. rewrite ends_with_spec. intros [u Hu].
  apply (f_equal (fun x => rev (bytes_of x))) in Hu. rewrite !bytes_of_app, !rev_app_distr in Hu.
  unfold free_of, str_all in Ht. rewrite forallb_forall in Ht.
  destruct (rev (bytes_of t)) as [|b l] eqn:E.
  { apply (f_equal (@rev ascii)) in E. rewrite rev_involutive in E. by destruct t. }
  simpl in Hu. injection Hu as Hb _. specialize (Ht b). rewrite Hb in Ht. apply negb_true_iff in Ht; [done|].
  apply in_rev. rewrite E, Hb. by left.
Qed.
(** The path of a template: the base without its final slashes, and the texts. *)
Definition joined (base : string) (texts : list string) : string :=
  base +:+ str_concat (map (String "/") texts).
Lemma joined_cons base t texts : joined base (t :: texts) = joined (base +:+ "/" +:+ t) texts.
Proof. unfold joined, str_concat. cbn [map foldr]. by rewrite str_app_assoc. Qed.
Lemma fold_paths texts base :
  Forall (fun t => slash_free t /\ t <> EmptyString) texts -> ends_with "/" base = false ->
  foldl (fun path t => (if ends_with "/" path then path else path +:+ "/") +:+ t) base texts = joined base texts.
Proof.
  intros H. revert base. induction H as [|t texts [Ht Hne] H IH]; intros base Hb; simpl.
  { symmetry. apply str_app_nil_r. }
  rewrite Hb, joined_cons, IH by (by apply not_ends_with). by rewrite <- str_app_assoc.
Qed.
Lemma trim_end_no_slash s : ends_with "/" (trim_end_matches "/" s) = false.
Proof.
  unfold trim_end_matches, ends_with. rewrite bytes_of_str_of, rev_involutive.
  induction (rev (bytes_of s)) as [|b l IH]; [done|]. cbn [trim_start_list].
  destruct (Ascii.eqb_spec b "/") as [->|Hn]; [exact IH|].
  change (rev (bytes_of "/")) with ["/"%char]. cbn [starts_with].
  destruct (Ascii.eqb_spec "/" b); [congruence|done].
Qed.
Lemma str_of_app l k : str_of (l ++ k) = str_of l +:+ str_of k.
Proof. induction l as [|b l IH]; [done|]. simpl. by rewrite str_app_cons, <- IH. Qed.
Lemma trim_end_prefix c s : exists u, s = trim_end_matches c s +:+ u.
Proof.
  assert (forall l, exists u, l = u ++ trim_start_list c l) as H.
  { induction l as [|b l [u Hu]]; [by exists []|]. cbn. destruct (Ascii.eqb b c); [|by exists []].
    exists (b :: u). by rewrite Hu at 1. }
  destruct (H (rev (bytes_of s))) as [u Hu]. exists (str_of (rev u)). unfold trim_end_matches.
  rewrite <- str_of_app, <- rev_app_distr, <- Hu, rev_involutive. symmetry. apply str_of_bytes_of.
Qed.
Lemma base_prefix_spec base t texts : starts_with (bytes_of "/") (bytes_of base) = true ->
  slash_free t -> t <> EmptyString -> Forall (fun t => slash_free t /\ t <> EmptyString) texts ->
  foldl (fun path t => (if ends_with "/" path then path else path +:+ "/") +:+ t) (base_prefix base)
    (t :: texts) = joined (trim_end_matches "/" base) (t :: texts).
Proof.
  intros Hs Ht Hne H. unfold base_prefix. pose proof (trim_end_no_slash base) as Hend.
  destruct (trim_end_matches "/" base) as [|b s] eqn:E; cbn [str_is_empty].
  - cbn [foldl]. change (ends_with "/" "/") with true. rewrite fold_paths; [by rewrite joined_cons|done|].
    by apply (not_ends_with "/" t).
  - assert (b = "/"%char) as ->.
    { destruct (trim_end_prefix "/" base) as [u Hu]. rewrite E in Hu. rewrite Hu in Hs.
      rewrite str_app_cons, bytes_cons in Hs. change (bytes_of "/") with ["/"%char] in Hs. cbn [starts_with] in Hs.
      apply andb_true_iff in Hs as [Hs _]. by apply Ascii.eqb_eq in Hs. }
    change (starts_with (bytes_of "/") (bytes_of (String "/" s))) with true. cbn iota.
    rewrite fold_paths; [done|by constructor|exact Hend].
Qed.

(** *** Encoded values *)
Lemma encode_cons b v : encode_path_segment (String b v) = encode_byte b +:+ encode_path_segment v.
Proof. done. Qed.
Lemma encode_byte_facts b :
  str_all path_byte (encode_byte b) = true /\ free_of (Ascii.eqb "/") (encode_byte b) = true /\
  encode_byte b <> EmptyString.
Proof. destruct b as [[][][][][][][][]]; vm_compute; done. Qed.
Lemma decode_byte b rest :
  percent_decode (bytes_of (encode_byte b) ++ rest) = (fun r => b :: r) <$> percent_decode rest.
Proof.
  unfold encode_byte. destruct (unreserved_byte b) eqn:E.
  - change (bytes_of (String b EmptyString) ++ rest) with (b :: rest). cbn [percent_decode].
    destruct (Ascii.eqb_spec b "%") as [->|_]; [done|]. by destruct (percent_decode rest).
  - assert (hex_value (upper_hex (byte_val b / 16)) = Some (byte_val b / 16) /\
            hex_value (upper_hex (byte_val b mod 16)) = Some (byte_val b mod 16) /\
            ascii_of_N (Z.to_N (byte_val b / 16 * 16 + byte_val b mod 16)) = b) as (H1 & H2 & H3).
    { clear. destruct b as [[][][][][][][][]]; vm_compute; done. }
    rewrite !bytes_cons. cbn [app percent_decode]. rewrite Ascii.eqb_refl.
    change (bytes_of EmptyString ++ rest) with rest. rewrite H1, H2. cbn [mbind option_bind]. rewrite H3.
    by destruct (percent_decode rest).
Qed.
Lemma decode_encode_segment v : percent_decode (bytes_of (encode_path_segment v)) = Some (bytes_of v).
Proof.
  induction v as [|b v IH]; [done|]. rewrite encode_cons, bytes_of_app, decode_byte, IH. done.
Qed.
Lemma encode_facts v :
  str_all path_byte (encode_path_segment v) = true /\ slash_free (encode_path_segment v) /\
  (v <> EmptyString -> encode_path_segment v <> EmptyString).
Proof.
  induction v as [|b v (IH1 & IH2 & _)]; [done|]. destruct (encode_byte_facts b) as (H1 & H2 & H3).
  rewrite encode_cons, str_all_app, free_of_app, H1, H2, IH1, IH2. split_and!; [done..|].
  intros _ He. apply H3. by destruct (encode_byte b).
Qed.

(** Only [.] and [..] are encoded as dot segments. *)
Definition lower_bytes (s : string) : list ascii := map lower_byte (bytes_of s).
Lemma lower_is s t : contains t (to_ascii_lowercase s) = true -> exists x, x ∈ t /\ lower_bytes s = bytes_of x.
Proof.
  unfold contains. intros H%bool_decide_eq_true. exists (to_ascii_lowercase s). split; [done|].
  unfold to_ascii_lowercase. by rewrite bytes_of_str_of.
Qed.
Lemma lower_encode_cons b v l : lower_bytes (encode_path_segment (String b v)) = l ->
  exists k, lower_bytes (encode_byte b) ++ k = l /\ lower_bytes (encode_path_segment v) = k.
Proof.
  intros <-. exists (lower_bytes (encode_path_segment v)). split; [|done].
  unfold lower_bytes. by rewrite encode_cons, bytes_of_app, map_app.
Qed.
Lemma lower_encode_byte b :
  (exists x, lower_bytes (encode_byte b) = [x] /\ x <> "%"%char /\ x <> "."%char) \/
  (exists h l, lower_bytes (encode_byte b) = ["%"; h; l]%char /\ (h = "2"%char -> l = "e"%char -> b = "."%char)).
Proof.
  destruct b as [[][][][][][][][]]; vm_compute;
    first [left; eexists; split_and!; [reflexivity|done|done]|right; do 2 eexists; split; [reflexivity|done]].
Qed.
Lemma lower_encode_dot v k : lower_bytes (encode_path_segment v) = "."%char :: k -> False.
Proof.
  destruct v as [|b v]; [done|]. intros (k' & Hb & _)%lower_encode_cons.
  destruct (lower_encode_byte b) as [(y & Hy & H1 & H2)|(h & l & Hy & _)]; rewrite Hy in Hb; [|done].
  injection Hb. congruence.
Qed.
Lemma lower_encode_2e v k : lower_bytes (encode_path_segment v) = ("%" :: "2" :: "e" :: k)%char ->
  exists w, v = String "." w /\ lower_bytes (encode_path_segment w) = k.
Proof.
  destruct v as [|b v]; [done|]. intros (k' & Hb & Hk)%lower_encode_cons.
  destruct (lower_encode_byte b) as [(y & Hy & H1 & H2)|(h & l & Hy & Hd)]; rewrite Hy in Hb;
    [injection Hb; congruence|].
  injection Hb as -> -> ->. rewrite (Hd eq_refl eq_refl). eauto.
Qed.
Lemma lower_encode_nil v : lower_bytes (encode_path_segment v) = [] -> v = EmptyString.
Proof.
  destruct v as [|b v]; [done|]. intros (k' & Hb & _)%lower_encode_cons.
  by destruct (lower_encode_byte b) as [(y & Hy & _)|(h & l & Hy & _)]; rewrite Hy in Hb.
Qed.
Lemma encoded_dots v : dot (encode_path_segment v) || double_dot (encode_path_segment v) = true ->
  v = "." \/ v = "..".
Proof.
  rewrite orb_true_iff. intros [(x & Hx & Hl)%lower_is|(x & Hx & Hl)%lower_is];
    rewrite ?elem_of_cons, ?elem_of_nil in Hx; destruct_or! Hx; subst x; try done;
    try (by apply lower_encode_dot in Hl); apply lower_encode_2e in Hl as (w & -> & Hw).
  - apply lower_encode_nil in Hw as ->. by left.
  - by apply lower_encode_dot in Hw.
  - apply lower_encode_2e in Hw as (u & -> & Hu). apply lower_encode_nil in Hu as ->. by right.
Qed.

(** *** Resolved paths *)
Definition plain_segment (s : string) : Prop :=
  str_all path_byte s = true /\ dot s = false /\ double_dot s = false.
Lemma remove_dots_plain acc segs : Forall plain_segment segs -> remove_dots acc false segs = rev acc ++ segs.
Proof.
  intros H. revert acc. induction H as [|s segs (_ & H1 & H2) _ IH]; intros acc; simpl; [by rewrite app_nil_r|].
  rewrite H2, H1, IH. simpl. by rewrite <- app_assoc.
Qed.
Lemma split_bytes s : str_all (fun b => path_byte b || Ascii.eqb b "/") s = true <->
  Forall (fun l => str_all path_byte l = true) (split_char "/" s).
Proof.
  unfold split_char. induction s as [|b s IH]; [by split; [repeat constructor|]|]. cbn [split_on].
  change (str_all (fun b => path_byte b || Ascii.eqb b "/") (String b s)) with
    ((path_byte b || Ascii.eqb b "/") && str_all (fun b => path_byte b || Ascii.eqb b "/") s).
  rewrite andb_true_iff, IH. destruct (split_on_cons (Ascii.eqb "/") s) as (part & parts & E). rewrite E.
  rewrite (Ascii.eqb_sym b "/"). destruct (Ascii.eqb "/" b).
  - rewrite orb_true_r, !Forall_cons. naive_solver.
  - rewrite orb_false_r, !Forall_cons.
    change (str_all path_byte (String b part)) with (path_byte b && str_all path_byte part).
    rewrite andb_true_iff. naive_solver.
Qed.
Lemma split_joined base texts : Forall (fun t => slash_free t) texts ->
  split_char "/" (joined base texts) = split_char "/" base ++ texts.
Proof.
  intros H. revert base. induction H as [|t texts Ht H IH]; intros base.
  { unfold joined. simpl. by rewrite str_app_nil_r, app_nil_r. }
  rewrite joined_cons, IH. unfold split_char. change (base +:+ "/" +:+ t) with (base +:+ String "/" t).
  by rewrite split_app_sep, (split_on_free _ t Ht), <- app_assoc.
Qed.
(** A path with plain segments is its own normal form. *)
Lemma normal_plain path segs : segs <> [] -> split_char "/" path = EmptyString :: segs -> Forall plain_segment segs ->
  plain_path path = true /\ normal_path path = path.
Proof.
  intros Hne Hs Hp. unfold plain_path, normal_path. rewrite Hs. cbn [tail]. rewrite remove_dots_plain by done.
  assert (join "/" (EmptyString :: segs) = path) as Hj by (rewrite <- Hs; apply join_split).
  split; [|done]. apply andb_true_iff. split.
  - unfold split_char in Hs. destruct path as [|b path]; cbn [split_on] in Hs.
    { by injection Hs as <-. }
    destruct (Ascii.eqb "/" b) eqn:E; [apply Ascii.eqb_eq in E as <-; done|].
    by destruct (split_on_cons (Ascii.eqb "/") path) as (x & y & Hxy); rewrite Hxy in Hs.
  - apply split_bytes. rewrite Hs. constructor; [done|]. eapply Forall_impl; [apply Hp|]. by intros x (? & _).
Qed.

(** ** Queries *)
Section Sorted.
Context {A : Type}.
Implicit Types (m : gmap string A).
Lemma elem_of_sorted m k v : (k, v) ∈ sorted_entries m <-> m !! k = Some v.
Proof.
  unfold sorted_entries. rewrite list_elem_of_omap. split.
  - intros (k' & _ & H). destruct (m !! k') eqn:E; [|done]. by injection H as -> ->.
  - intros H. exists k. rewrite merge_sort_Permutation, elem_of_elements, elem_of_dom, H. eauto.
Qed.
Lemma sorted_keys m : (sorted_entries m).*1 = merge_sort String.le (elements (dom m)).
Proof.
  unfold sorted_entries. assert (Forall (fun k => is_Some (m !! k)) (merge_sort String.le (elements (dom m)))) as H.
  { rewrite merge_sort_Permutation, Forall_forall. intros k. by rewrite elem_of_elements, elem_of_dom. }
  induction H as [|k l [v Hv] _ IH]; [done|]. simpl. rewrite Hv. simpl. by f_equal.
Qed.
Lemma sorted_nodup m : NoDup (sorted_entries m).*1.
Proof. rewrite sorted_keys, merge_sort_Permutation. apply NoDup_elements. Qed.
Lemma sorted_map m : list_to_map (sorted_entries m) = m.
Proof.
  apply map_eq. intros k. apply option_eq. intros v. rewrite <- elem_of_list_to_map by apply sorted_nodup.
  apply elem_of_sorted.
Qed.
End Sorted.

Definition rejects (o : QueryOperation) : bool := match o with QSet _ RejectExisting _ => true | _ => false end.
Definition set_value (o : QueryOperation) : option string := match o with QSet v _ _ => Some v | QRemove _ => None end.
Definition diagnostic (e : string * QueryOperation) : EndpointQueryDiagnostic :=
  match e.2 with
  | QSet _ _ source => mk_query_diagnostic e.1 ActionSet source
  | QRemove source => mk_query_diagnostic e.1 ActionRemove source
  end.
(** What the plan leaves of the base's pairs: nothing beside its own values. *)
Definition planned_pairs (q : EndpointQuery) : gmap string string := omap set_value (eq_operations q).
Definition base_accepted (q : EndpointQuery) (pairs : list (string * string)) : Prop :=
  NoDup pairs.*1 /\
  Forall (fun p => is_ok (validate_query_name p.1) = true /\
                   exists o, eq_operations q !! p.1 = Some o /\ rejects o = false) pairs.

Abbreviation plan_of es := (list_to_map es : gmap string QueryOperation).
Lemma fold_query es existing ds :
  NoDup es.*1 ->
  match fold_ok apply_query_operation es (existing, ds) with
  | Ok (m, ds') =>
      Forall (fun e => rejects e.2 = true -> existing !! e.1 = None) es /\ ds' = ds ++ map diagnostic es /\
      forall k, m !! k = match plan_of es !! k with Some o => set_value o | None => existing !! k end
  | Err _ => ~ Forall (fun e => rejects e.2 = true -> existing !! e.1 = None) es
  end.
Proof.
  revert existing ds. induction es as [|[k o] es IH]; intros existing ds Hnd; simpl.
  { split_and!; [constructor|by rewrite app_nil_r|]. intros k. by rewrite lookup_empty. }
  simpl in Hnd. apply NoDup_cons in Hnd as [Hk Hnd].
  assert (forall existing' : gmap string string, (forall k', k' <> k -> existing' !! k' = existing !! k') ->
    Forall (fun e => rejects e.2 = true -> existing' !! e.1 = None) es <->
    Forall (fun e : string * QueryOperation => rejects e.2 = true -> existing !! e.1 = None) es) as Hsame.
  { intros existing' He. rewrite !Forall_forall.
    assert (forall e, e ∈ es -> existing' !! e.1 = existing !! e.1) as Hx
      by (intros e Hin; apply He; intros <-; by apply Hk, list_elem_of_fmap_2).
    split; intros H e Hin Hr; [rewrite <- Hx by done|rewrite Hx by done]; by apply H. }
  assert (forall existing' : gmap string string, (forall k', k' <> k -> existing' !! k' = existing !! k') ->
    existing' !! k = set_value o -> (rejects o = true -> existing !! k = None) ->
    match fold_ok apply_query_operation es (existing', ds ++ [diagnostic (k, o)]) with
    | Ok (m, ds') => Forall (fun e => rejects e.2 = true -> existing !! e.1 = None) ((k, o) :: es) /\
        ds' = ds ++ diagnostic (k, o) :: map diagnostic es /\
        forall k', m !! k' = match <[k := o]> (plan_of es) !! k' with
                             | Some o => set_value o | None => existing !! k' end
    | Err _ => ~ Forall (fun e => rejects e.2 = true -> existing !! e.1 = None) ((k, o) :: es)
    end) as Hstep.
  { intros existing' He Hv Hr. specialize (IH existing' (ds ++ [diagnostic (k, o)]) Hnd).
    destruct (fold_ok _ es _) as [[m ds']|]; rewrite Forall_cons, <- (Hsame existing' He); [|naive_solver].
    destruct IH as (Hf & -> & Hm). split_and!; [done|done|by rewrite <- app_assoc|].
    intros k'. rewrite Hm. destruct (decide (k' = k)) as [->|Hne].
    - rewrite lookup_insert_eq, Hv. by rewrite (not_elem_of_list_to_map_1 es k Hk).
    - rewrite lookup_insert_ne by done. by rewrite (He k' Hne). }
  destruct o as [value [] source|source]; simpl.
  - destruct (existing !! k) as [w|] eqn:E; simpl.
    + rewrite Forall_cons. simpl. rewrite E. intros [H _]. by specialize (H eq_refl).
    + apply Hstep; [intros; by rewrite lookup_insert_ne|by rewrite lookup_insert_eq|done].
  - apply Hstep; [intros; by rewrite lookup_insert_ne|by rewrite lookup_insert_eq|done].
  - apply Hstep; [intros; by rewrite lookup_delete_ne|by rewrite lookup_delete_eq|done].
Qed.
Definition base_registered (q : EndpointQuery) (existing : gmap string string) (pairs : list (string * string)) : Prop :=
  NoDup pairs.*1 /\
  Forall (fun p => is_ok (validate_query_name p.1) = true /\ is_Some (eq_operations q !! p.1) /\
                   existing !! p.1 = None) pairs.
Lemma configuration_if_ok b message : configuration_if b message = Ok tt <-> b = false.
Proof. unfold configuration_if. by destruct b. Qed.
Lemma base_registered_cons q existing k v pairs :
  base_registered q existing ((k, v) :: pairs) <->
  is_ok (validate_query_name k) = true /\ is_Some (eq_operations q !! k) /\ existing !! k = None /\
  base_registered q (<[k := v]> existing) pairs.
Proof.
  unfold base_registered. rewrite fmap_cons, NoDup_cons, Forall_cons, !Forall_forall. simpl. split.
  - intros ((Hn & Hd) & (H1 & H2 & H3) & H). split_and!; [done..|]. intros p Hp.
    rewrite lookup_insert_ne; [by apply H|]. intros ->. by apply Hn, list_elem_of_fmap_2.
  - intros (H1 & H2 & H3 & Hd & H). split; [split; [|done]|split; [done|]].
    + intros (p & -> & Hp)%list_elem_of_fmap. apply H in Hp as (_ & _ & Hp). by rewrite lookup_insert_eq in Hp.
    + intros p Hp. destruct (H p Hp) as (? & ? & Hi). split_and!; [done..|].
      destruct (decide (k = p.1)) as [<-|]; [done|]. by rewrite lookup_insert_ne in Hi.
Qed.
Lemma base_pairs_spec q pairs existing :
  match base_pairs q pairs existing with
  | Ok m => base_registered q existing pairs /\
            forall k, is_Some (m !! k) <-> is_Some (existing !! k) \/ k ∈ pairs.*1
  | Err _ => ~ base_registered q existing pairs
  end.
Proof.
  revert existing. induction pairs as [|[k v] pairs IH]; intros existing; cbn [base_pairs].
  { split; [split; constructor|]. intros k. set_solver. }
  specialize (IH (<[k := v]> existing)). pose proof (base_registered_cons q existing k v pairs) as Hc.
  destruct (validate_query_name k) as [c|]; simpl; [|naive_solver].
  unfold configuration_if. destruct (existing !! k) as [w|] eqn:He.
  { rewrite (bool_decide_true (is_Some (Some w))) by eauto. simpl. intros Hb. apply Hc in Hb. naive_solver. }
  rewrite (bool_decide_false (is_Some None)) by apply is_Some_None. simpl.
  case_bool_decide as Hr; simpl; [|naive_solver].
  destruct (base_pairs q pairs _) as [m|]; [|intros Hb; apply Hc in Hb; naive_solver]. destruct IH as [IH Hm].
  split; [by apply Hc|]. intros k'. rewrite Hm, elem_of_cons.
  destruct (decide (k' = k)) as [->|]; [rewrite lookup_insert_eq; split; eauto|].
  rewrite lookup_insert_ne by done. split; [intros [H|H]; auto|intros [H|[H|H]]; auto; done].
Qed.

Section Endpoints.
Context {U : Urls} {UP : UrlParts} {UL : UrlLaws}.

Lemma append_pairs l u : let r := foldl (fun u p => url_append_pair p.1 p.2 u) u l in
  same_authority r u /\ url_path r = url_path u /\ url_query_pairs r = url_query_pairs u ++ l.
Proof.
  revert u. induction l as [|[n v] l IH]; intros u; simpl.
  { split_and!; [apply same_authority_refl|done|by rewrite app_nil_r]. }
  destruct (IH (url_append_pair n v u)) as (Ha & Hp & Hq).
  destruct (append_pair_keeps n v u) as (Ha' & Hp' & Hq').
  split_and!; [by eapply same_authority_trans|congruence|]. by rewrite Hq, Hq', <- app_assoc.
Qed.

(** When a query plan applies to a URL, and what it makes of it. *)
Lemma query_apply_spec q u :
  (is_ok (query_apply q u) = true <-> base_accepted q (url_query_pairs u)) /\
  forall r ds, query_apply q u = Ok (r, ds) ->
    url_query_pairs r = sorted_entries (planned_pairs q) /\ url_path r = url_path u /\ same_authority r u /\
    ds = map diagnostic (sorted_entries (eq_operations q)).
Proof.
  unfold query_apply. pose proof (base_pairs_spec q (url_query_pairs u) ∅) as Hb.
  assert (base_accepted q (url_query_pairs u) <-> base_registered q ∅ (url_query_pairs u) /\
    Forall (fun e => rejects e.2 = true -> e.1 ∉ (url_query_pairs u).*1) (sorted_entries (eq_operations q))) as Heq.
  { unfold base_accepted, base_registered. rewrite !Forall_forall. split.
    - intros [Hd H]. split; [split; [done|]|].
      + intros p Hp. destruct (H p Hp) as (H1 & o & H2 & H3). rewrite H2, lookup_empty. eauto.
      + intros [k o] Ho%elem_of_sorted Hr (p & Ek & Hp)%list_elem_of_fmap. simpl in *. subst k.
        destruct (H p Hp) as (_ & o' & H2 & H3). congruence.
    - intros [[Hd H] Hr]. split; [done|]. intros p Hp. destruct (H p Hp) as (H1 & [o Ho] & _).
      split; [done|]. exists o. split; [done|]. destruct (rejects o) eqn:E; [|done]. exfalso.
      apply (Hr (p.1, o)); [by apply elem_of_sorted|done|]. exact (list_elem_of_fmap_2 fst _ _ Hp). }
  destruct (base_pairs q (url_query_pairs u) ∅) as [existing|e]; simpl;
    [|split; [split; [done|intros [Hx _]%Heq; by apply Hb in Hx]|done]].
  destruct Hb as [Hreg Hdom].
  pose proof (fold_query (sorted_entries (eq_operations q)) existing [] (sorted_nodup _)) as Hf.
  assert (Forall (fun e => rejects e.2 = true -> existing !! e.1 = None) (sorted_entries (eq_operations q)) <->
    Forall (fun e => rejects e.2 = true -> e.1 ∉ (url_query_pairs u).*1) (sorted_entries (eq_operations q))) as He.
  { apply Forall_iff. intros e. rewrite eq_None_not_Some, Hdom, lookup_empty. split; [intros H Hr Hk; apply H; auto|intros H Hr [[]%is_Some_None|Hk]; by apply H]. }
  rewrite sorted_map in Hf. destruct (fold_ok _ _ _) as [[m ds]|]; simpl;
    [|split; [split; [done|intros [_ Hx]%Heq; by apply He in Hx]|done]].
  destruct Hf as (Hall & -> & Hm). split; [split; [intros _; apply Heq; split; [done|by apply He]|done]|].
  intros r ds [= <- <-].
  destruct (append_pairs (sorted_entries m) (url_clear_query u)) as (Ha & Hp & Hq).
  destruct (clear_query_keeps u) as (Ha' & Hp' & Hq').
  assert (m = planned_pairs q) as ->.
  { apply map_eq. intros k. rewrite Hm. unfold planned_pairs. rewrite lookup_omap.
    destruct (eq_operations q !! k) eqn:Ek; [done|]. simpl. apply eq_None_not_Some. rewrite Hdom, lookup_empty.
    intros [[]%is_Some_None|(p & -> & Hp0)%list_elem_of_fmap]. destruct Hreg as [_ Hreg].
    rewrite Forall_forall in Hreg. apply Hreg in Hp0 as (_ & H & _). rewrite Ek in H. by apply is_Some_None in H. }
  split_and!; [by rewrite Hq, Hq'|congruence|by eapply same_authority_trans|done].
Qed.
(** A query plan is applied exactly when the base URL has valid, distinct and
    registered keys of which none is guarded against an override; then the
    query is the plan's own values in the order of their names, whatever the
    base had, and neither the path nor the authority changes. *)
Theorem query_plan_exact q u :
  (is_ok (query_apply q u) = true <-> base_accepted q (url_query_pairs u)) /\
  forall r ds, query_apply q u = Ok (r, ds) ->
    url_query_pairs r = sorted_entries (planned_pairs q) /\ url_path r = url_path u /\ same_authority r u /\
    ds = map diagnostic (sorted_entries (eq_operations q)).
Proof. apply query_apply_spec. Qed.

(** ** Paths of resolved endpoints *)
Definition variable_value (v : EndpointValues) (x : EndpointPathVariable) : option string :=
  match x with
  | VProduct => Some (ev_product_id v)
  | VProviderModel => Some (ev_provider_model_id v)
  | VDeployment => ev_deployment_id v
  end.
(** A segment of the path that stands for one of the template's: a literal as it
    is, a variable as one segment that decodes to its value. *)
Definition rendered_as (v : EndpointValues) (s : PathSegment) (text : string) : Prop :=
  match s with
  | Literal value => text = value
  | Variable_ x => exists value, variable_value v x = Some value /\ slash_free text /\
                   percent_decode (bytes_of text) = Some (bytes_of value)
  end.
Definition literals_plain (t : EndpointTemplate) : Prop :=
  Forall (fun s => match s with Literal x => str_all path_byte x = true | Variable_ _ => True end) (tpl_segments t).
Definition values_plain (v : EndpointValues) : Prop :=
  forall x w, variable_value v x = Some w -> w <> EmptyString /\ w <> "." /\ w <> "..".
Definition base_plain (u : Url) : Prop :=
  http_scheme u = true /\ starts_with (bytes_of "/") (bytes_of (url_path u)) = true /\
  exists segs, split_char "/" (trim_end_matches "/" (url_path u)) = EmptyString :: segs /\ Forall plain_segment segs.

Lemma split_pieces_free c s : Forall (fun l => free_of (Ascii.eqb c) l = true) (split_char c s).
Proof.
  unfold split_char. induction s as [|b s IH]; cbn [split_on]; [by repeat constructor|].
  destruct (Ascii.eqb c b) eqn:E; [by constructor|].
  destruct (split_on_cons (Ascii.eqb c) s) as (part & parts & Hs). rewrite Hs in *.
  inversion IH as [|? ? Hp Hps]; subst. constructor; [|done]. rewrite free_cons, E. exact Hp.
Qed.
Lemma lower_dot s : lower_bytes s = bytes_of "." -> s = ".".
Proof.
  destruct s as [|b [|b' s]]; try done. unfold lower_bytes. simpl. intros [= H].
  f_equal. revert H. destruct b as [[] [] [] [] [] [] [] []]; vm_compute; congruence.
Qed.
Lemma lower_dots s : lower_bytes s = bytes_of ".." -> s = "..".
Proof.
  destruct s as [|b s]; [done|]. unfold lower_bytes. simpl. intros [= Hb Hs].
  assert (s = ".") as -> by (by apply lower_dot). f_equal.
  revert Hb. destruct b as [[] [] [] [] [] [] [] []]; vm_compute; congruence.
Qed.
Lemma lower_percent s : str_contains "%" s = false -> "%"%char ∉ lower_bytes s.
Proof.
  unfold str_contains, lower_bytes. intros H (b & Hb & Hin)%list_elem_of_fmap.
  assert (b = "%"%char) as -> by (revert Hb; destruct b as [[] [] [] [] [] [] [] []]; vm_compute; congruence).
  apply not_true_iff_false in H. apply H, existsb_exists. exists "%"%char. split; [|done]. by apply list_elem_of_In.
Qed.
Lemma literal_not_dot s : s <> "." -> s <> ".." -> str_contains "%" s = false -> dot s = false /\ double_dot s = false.
Proof.
  intros H1 H2 Hp%lower_percent. unfold dot, double_dot. split; apply not_true_iff_false;
    intros (x & Hx & Hl)%lower_is; rewrite Hl in Hp;
    rewrite ?elem_of_cons, ?elem_of_nil in Hx; destruct_or! Hx; subst x; try done;
    try (by apply H1, lower_dot); try (by apply H2, lower_dots);
    apply Hp; vm_compute; set_solver.
Qed.
(** What [parse] guarantees of a literal. *)
Definition literal_ok (s : PathSegment) : Prop :=
  match s with
  | Literal x => x <> EmptyString /\ slash_free x /\ dot x = false /\ double_dot x = false
  | Variable_ _ => True
  end.
Lemma parse_segment_ok s r : slash_free s -> parse_segment s = Ok r -> literal_ok r.
Proof.
  unfold parse_segment. intros Hs. destruct (str_is_empty s || _ || _) eqn:E; [done|].
  apply orb_false_iff in E as [[E1 E2]%orb_false_iff E3].
  repeat (case_match; [by intros [= <-]|]). destruct (contains_any _ s) eqn:Ec; [done|]. intros [= <-]. simpl.
  apply orb_false_iff in Ec as [_ Ec]. apply orb_false_iff in Ec as [_ Ec]. apply orb_false_iff in Ec as [Ec _].
  split_and!; [by destruct s|done| |]; apply literal_not_dot; try done; intros ->; done.
Qed.
Lemma parse_segments_ok l r : parse_segments l = Ok r -> Forall (fun s => slash_free s) l ->
  Forall literal_ok r /\ length r = length l.
Proof.
  revert r. induction l as [|s l IH]; intros r; simpl; [by intros [= <-]|].
  rewrite bind_ok. intros (p & Hp & H). rewrite bind_ok in H. destruct H as (ps & Hps & [= <-]).
  intros [Hs Hl]%Forall_cons. destruct (IH ps Hps Hl) as [HF HL].
  split; [constructor; [by eapply parse_segment_ok|done]|simpl; congruence].
Qed.
Lemma template_parse_ok text t : template_parse text = Ok t ->
  Forall literal_ok (tpl_segments t) /\ tpl_segments t <> [].
Proof.
  unfold template_parse. intros H. repeat (rewrite bind_ok in H; destruct H as (? & ? & H)).
  injection H as <-. cbn [tpl_segments].
  match goal with H : parse_segments _ = _ |- _ => apply parse_segments_ok in H as [HF HL]; [|apply split_pieces_free] end.
  split; [done|]. intros ->. unfold split_char in HL.
  destruct (split_on_cons (Ascii.eqb "/") (trim_matches "/" text)) as (? & ? & Hs). by rewrite Hs in HL.
Qed.
Definition text_ok (t : string) : Prop := slash_free t /\ t <> EmptyString /\ plain_segment t.
Lemma encoded_text_ok w : w <> EmptyString -> w <> "." -> w <> ".." -> text_ok (encode_path_segment w).
Proof.
  intros H0 H1 H2. destruct (encode_facts w) as (Hp & Hs & He). split_and!; [done|by apply He|].
  pose proof (encoded_dots w) as Hd. unfold plain_segment.
  destruct (dot _), (double_dot _); try (by destruct Hd); done.
Qed.
Lemma rendered_texts v l texts : values_plain v -> Forall literal_ok l ->
  Forall (fun s => match s with Literal x => str_all path_byte x = true | Variable_ _ => True end) l ->
  mapM (segment_text (Some v)) l = Some texts -> Forall2 (rendered_as v) l texts /\ Forall text_ok texts.
Proof.
  intros Hv Hl Hb Hm. apply mapM_Some in Hm.
  induction Hm as [|s t l texts Ht _ IH]; [by repeat constructor|].
  apply Forall_cons in Hl as [Hs Hl]. apply Forall_cons in Hb as [Hsb Hb]. destruct (IH Hl Hb) as [H1 H2].
  cut (rendered_as v s t /\ text_ok t); [by intros [??]; split; constructor|].
  destruct s as [x|x]; simpl in *.
  - injection Ht as <-. destruct Hs as (? & ? & ? & ?). by split_and!.
  - assert (exists w, variable_value v x = Some w /\ t = encode_path_segment w) as (w & Hw & ->).
    { destruct x; simpl in *; [injection Ht as <-; eauto..|]. destruct (ev_deployment_id v); [|done].
      injection Ht as <-. eauto. }
    destruct (Hv x w Hw) as (? & ? & ?). split; [|by apply encoded_text_ok]. exists w.
    split_and!; [done|apply (encode_facts w)|apply decode_encode_segment].
Qed.

(** C29. Below a base URL with a plain path, a parsed template whose literals are
    plain too ([literals_plain]: only bytes that a URL path keeps as they are)
    resolves to the base's segments followed by one segment per segment of the
    template: its literals unchanged and, for a value that is not empty, [.] or
    [..], a segment without a slash whose percent-decoding is that value. Parsing
    does not make the literals plain ([unplain_literals_parse]). *)
Theorem resolved_path_exact text t q base v u d :
  template_parse text = Ok t -> literals_plain t -> base_plain base -> values_plain v ->
  endpoint_url (Template base t q) (Some v) = Ok (u, d) ->
  ed_path_variables d = path_variables (tpl_segments t) /\
  exists texts, split_char "/" (url_path u) = split_char "/" (trim_end_matches "/" (url_path base)) ++ texts /\
    Forall2 (rendered_as v) (tpl_segments t) texts.
Proof.
  intros [Hlit Hne]%template_parse_ok Hb (Hh & Hslash & segs & Hsegs & Hplain) Hv Hu. simpl in Hu.
  rewrite bind_ok in Hu. destruct Hu as ([path used] & Hr & Hu). rewrite bind_ok in Hu.
  destruct Hu as ([u' ds] & Hq & Hu). injection Hu as <- <-. cbn [ed_path_variables].
  apply render_segments_spec in Hr as (texts & Ht & Hused & Hpath). simpl in Hused, Hpath. split; [done|].
  destruct (rendered_texts v (tpl_segments t) texts Hv Hlit Hb Ht) as [H2 Hok]. exists texts. split; [|done].
  destruct (query_apply_spec q (url_set_path path base)) as [_ Hx]. destruct (Hx _ _ Hq) as (_ & -> & _).
  destruct texts as [|x texts]; [apply Forall2_nil_inv_r in H2; done|].
  apply Forall_cons in Hok as Hok'. destruct Hok' as [(Hx1 & Hx2 & _) Hrest].
  rewrite base_prefix_spec in Hpath; [|done..|eapply Forall_impl; [apply Hrest|by intros ? (?&?&_)]].
  assert (split_char "/" path = EmptyString :: segs ++ x :: texts) as Hsplit.
  { rewrite Hpath, split_joined; [by rewrite Hsegs|]. eapply Forall_impl; [apply Hok|by intros ? (?&_)]. }
  destruct (normal_plain path (segs ++ x :: texts)) as [Hp Hn]; [by destruct segs|done| |].
  { apply Forall_app. split; [done|]. eapply Forall_impl; [apply Hok|by intros ? (_&_&?)]. }
  rewrite set_path_normal by done. by rewrite Hn, Hsplit, Hsegs.
Qed.
(** ** Destinations *)

(** What a policy demands of a URL. *)
Definition admitted (p : EndpointNetworkPolicy) (u : Url) : Prop :=
  url_username u = EmptyString /\ url_password u = None /\ url_fragment u = None /\
  exists h, url_host u = Some h /\
    match np_mode p with
    | Production => url_scheme u = "https" /\ public_host h
    | TestOnly => http_scheme u = true /\ is_loopback h = true
    end /\ (np_allowed_hosts p = ∅ \/ host_to_string h ∈ np_allowed_hosts p).
Lemma if_then_ok {A} b message (k : result LlmError A) r :
  (_ ← configuration_if b message; k) = Ok r <-> b = false /\ k = Ok r.
Proof. unfold configuration_if. destruct b; simpl; naive_solver. Qed.
Lemma bind_unit_ok {A} (x : result LlmError unit) (k : result LlmError A) r :
  (_ ← x; k) = Ok r <-> x = Ok tt /\ k = Ok r.
Proof. destruct x as [[]|]; simpl; naive_solver. Qed.
Lemma validate_common_ok u : validate_common u = Ok tt <->
  url_username u = EmptyString /\ url_password u = None /\ url_fragment u = None /\ http_scheme u = true /\
  is_Some (url_host u).
Proof.
  unfold validate_common. rewrite !if_then_ok, configuration_if_ok, orb_false_iff, !negb_false_iff.
  rewrite !bool_decide_eq_false, !bool_decide_eq_true, <- !eq_None_not_Some. by destruct (url_username u); naive_solver.
Qed.
Lemma policy_validate_ok p u : policy_validate p u = Ok tt <-> admitted p u.
Proof.
  unfold policy_validate, admitted. rewrite bind_unit_ok, validate_common_ok.
  destruct (url_host u) as [h|] eqn:Eh; simpl.
  2:{ split; [intros [(_&_&_&_&[]%is_Some_None) _]|intros (_&_&_&?&[=]&_)]. }
  pose proof (public_host_spec h (url_host_wf u h Eh)) as Hp.
  rewrite bind_unit_ok, configuration_if_ok, andb_false_iff, !negb_false_iff, !bool_decide_eq_true.
  destruct (np_mode p); rewrite ?if_then_ok, ?configuration_if_ok, ?orb_false_iff, !negb_false_iff.
  - rewrite str_eqb_spec, Hp. unfold REQUIRED_ENDPOINT_SCHEME. split.
    + intros [(?&?&?&?&?) [[??]?]]. split_and!; [done..|]. exists h. by split_and!.
    + intros (?&?&?&h'&[= <-]&[Hs ?]&?). split_and!; try done. unfold http_scheme. by rewrite Hs.
  - split.
    + intros [(?&?&?&?&?) [[??]?]]. split_and!; [done..|]. exists h. by split_and!.
    + intros (?&?&?&h'&[= <-]&[Hs ?]&?). by split_and!.
Qed.

(** The URL a configuration names, before its path and query. *)
Definition destination (c : EndpointConfig) : Url :=
  match c with BaseAndPath base _ | Template base _ _ | Absolute base => base end.
Lemma endpoint_url_authority c v u d : endpoint_url c v = Ok (u, d) -> same_authority u (destination c).
Proof.
  destruct c as [base path|base t q|base]; simpl.
  - rewrite if_then_ok, bind_ok. intros (_ & t & _ & H). rewrite bind_ok in H.
    destruct H as ([? ?] & _ & [= <- <-]). apply set_path_keeps.
  - rewrite bind_ok. intros ([path used] & _ & H). rewrite bind_ok in H. destruct H as ([u' ds] & Hq & [= <- <-]).
    destruct (query_apply_spec q (url_set_path path base)) as [_ Hx]. destruct (Hx _ _ Hq) as (_ & _ & Ha & _).
    eapply same_authority_trans; [apply Ha|]. apply set_path_keeps.
  - rewrite if_then_ok. intros [_ [= <- <-]]. apply same_authority_refl.
Qed.
Lemma same_origin u w : same_authority u w -> origin_from_url u = origin_from_url w.
Proof. intros (Hs & Hh & Hp & _). unfold origin_from_url. by rewrite Hs, Hh, Hp. Qed.
Lemma endpoint_resolve_ok c mode v ep : endpoint_resolve c mode v = Ok ep ->
  admitted (for_mode mode) (ep_url ep) /\ same_authority (ep_url ep) (destination c) /\
  origin_from_url (ep_url ep) = Ok (ep_origin ep).
Proof.
  unfold endpoint_resolve, resolved_endpoint_new. intros H. rewrite bind_ok in H.
  destruct H as ([u d] & Hu & H). rewrite bind_unit_ok, bind_ok in H. destruct H as (Hp & o & Ho & [= <-]).
  cbn [ep_url ep_origin]. split_and!; [by apply policy_validate_ok|by eapply endpoint_url_authority|done].
Qed.

(** Every endpoint resolved for production is an HTTPS URL without user
    information or fragment on a public host, and its scheme, host and port are
    those of the configured URL: no template value and no query can change where
    the request goes. *)
Theorem production_endpoint_safe c v ep : endpoint_resolve c Production v = Ok ep ->
  url_scheme (ep_url ep) = "https" /\ url_username (ep_url ep) = EmptyString /\ url_password (ep_url ep) = None /\
  url_fragment (ep_url ep) = None /\ (exists h, url_host (ep_url ep) = Some h /\ public_host h) /\
  same_authority (ep_url ep) (destination c) /\ origin_from_url (destination c) = Ok (ep_origin ep).
Proof.
  intros ((H1 & H2 & H3 & h & Hh & [Hs Hp] & _) & Ha & Ho)%endpoint_resolve_ok.
  split_and!; [done..|by exists h|done|]. by rewrite <- (same_origin _ _ Ha).
Qed.
(** ** Redirects and credentials *)
Lemma public_not_loopback h : validate_public_host h = Ok tt -> is_loopback h = false.
Proof.
  unfold validate_public_host. destruct h as [name|a|a]; cbn [is_loopback]; cbv zeta.
  - unfold eq_ignore_ascii_case. change (to_ascii_lowercase "localhost") with "localhost".
    by destruct (str_eqb (to_ascii_lowercase name) "localhost").
  - unfold is_public_ipv4. destruct (v4_is_loopback a); [|done]. by rewrite !orb_true_r.
  - destruct (v6_is_loopback a) eqn:E; [|done]. apply Z.eqb_eq in E as ->. done.
Qed.
Lemma origin_scheme u o : origin_from_url u = Ok o -> og_scheme o = to_ascii_lowercase (url_scheme u).
Proof.
  unfold origin_from_url. rewrite bind_ok. intros (h & _ & H). rewrite bind_ok in H.
  by destruct H as (port & _ & [= <-]).
Qed.
(** What an accepted hop has established. *)
Lemma validate_hop_ok p from to binding r : validate_hop p from to binding = Ok r ->
  p = RedirectSameOrigin /\ url_query to = None /\ ep_url r = to /\ ep_origin r = ep_origin from /\
  origin_from_url to = Ok (ep_origin r) /\
  admitted (if str_eqb (og_scheme (ep_origin from)) "https" && negb (is_loopback_url (ep_url from))
            then public_https else test_loopback) to /\
  match binding with Some b => binding_validate b r = Ok tt | None => True end.
Proof.
  unfold validate_hop. rewrite bind_unit_ok, if_then_ok, bind_unit_ok, policy_validate_ok, bind_ok.
  unfold resolved_endpoint_new. intros (Hp & Hq & Ha & e & He & H). rewrite bind_ok in He.
  destruct He as (o & Ho & [= <-]). rewrite !if_then_ok, bind_unit_ok in H. cbn [ep_origin] in H.
  rewrite negb_false_iff, bool_decide_eq_true in H. destruct H as (Hs & _ & Hb & [= <-]).
  apply bool_decide_eq_false in Hq. rewrite <- eq_None_not_Some in Hq.
  split_and!; [by destruct p|done..|by destruct binding].
Qed.
Definition hop (binding : CredentialBinding) (e e' : ResolvedEndpoint) : Prop :=
  exists to, validate_hop RedirectSameOrigin e to (Some binding) = Ok e'.
(** Where a credential may travel: the bound origin, over HTTPS, on a public host. *)
Definition at_home (binding : CredentialBinding) (e : ResolvedEndpoint) : Prop :=
  admitted public_https (ep_url e) /\ origin_from_url (ep_url e) = Ok (ep_origin e) /\
  binding_validate binding e = Ok tt.
Lemma hop_at_home binding e e' : at_home binding e -> hop binding e e' ->
  at_home binding e' /\ ep_origin e' = ep_origin e.
Proof.
  intros ((_ & _ & _ & h & Hh & [Hs Hp] & _) & Ho & Hb) [to Hv].
  apply validate_hop_ok in Hv as (_ & _ & <- & Hsame & Ho' & Ha & Hb'). split; [|done].
  assert (str_eqb (og_scheme (ep_origin e)) "https" = true) as Hscheme
    by (rewrite (origin_scheme _ _ Ho), Hs; done).
  assert (is_loopback_url (ep_url e) = false) as Hloop.
  { unfold is_loopback_url. rewrite Hh. apply public_not_loopback, public_host_spec; [by eapply url_host_wf|done]. }
  rewrite Hscheme, Hloop in Ha. by split_and!.
Qed.
Lemma hops_at_home binding e e' : at_home binding e -> rtc (hop binding) e e' ->
  at_home binding e' /\ ep_origin e' = ep_origin e.
Proof.
  intros He Hr. induction Hr as [e|e m e' H _ IH]; [done|].
  destruct (hop_at_home binding e m He H) as [Hm Heq]. destruct (IH Hm). split; [done|congruence].
Qed.

(** C28. A credential bound to a production endpoint stays with it: along any
    number of hops that [validate_hop] accepts with the binding, the request keeps
    the origin the configuration and the binding name, over HTTPS and on a public
    host, without user information, and under the binding's path prefix. This is
    about hops validated with the binding; the transport's own redirect policy
    does not check the path prefix. *)
Theorem redirects_keep_binding c v ep binding e :
  endpoint_resolve c Production v = Ok ep -> binding_validate binding ep = Ok tt -> rtc (hop binding) ep e ->
  ep_origin e = cb_origin binding /\ origin_from_url (destination c) = Ok (ep_origin e) /\
  origin_from_url (ep_url e) = Ok (ep_origin e) /\ admitted public_https (ep_url e) /\
  forall prefix, cb_required_path_prefix binding = Some prefix ->
    starts_with (bytes_of prefix) (bytes_of (url_path (ep_url e))) = true.
Proof.
  intros (Hadm & Ha & Ho)%endpoint_resolve_ok Hb Hr.
  destruct (hops_at_home binding ep e) as [(Hadm' & Ho' & Hb') Heq]; [by split_and!|done|].
  unfold binding_validate in Hb'. destruct (bool_decide _) eqn:Eo; [|done]. apply bool_decide_eq_true in Eo. simpl in Hb'.
  split_and!; [done|rewrite <- (same_origin _ _ Ha); congruence|done..|].
  intros prefix Hpre. rewrite Hpre in Hb'. by destruct (starts_with _ _).
Qed.
End Endpoints.

(** ** Examples

    A URL as the list of its parts, whose paths are kept normalized. *)
Module UrlRecord.
Record t := mk {
  scheme : string; username : string; password : option string; host : option Host; port : option Z;
  path : string; query : list (string * string); fragment : option string }.
Definition wf_host (h : Host) : bool :=
  match h with
  | HostDomain _ => true
  | HostIpv4 a => in_range 0 U32_MAX a
  | HostIpv6 a => in_range 0 U128_MAX a
  end.
Definition checked_host (u : t) : option Host :=
  match host u with Some h => if wf_host h then Some h else None | None => None end.
Definition with_path (p : string) (u : t) : t :=
  mk (scheme u) (username u) (password u) (host u) (port u) (normal_path p) (query u) (fragment u).
Definition with_query (q : list (string * string)) (u : t) : t :=
  mk (scheme u) (username u) (password u) (host u) (port u) (path u) q (fragment u).
Definition query_text (u : t) : option string :=
  match query u with [] => None | q => Some (join "&" (map (fun p => p.1 +:+ "=" +:+ p.2) q)) end.
Definition default_port (u : t) : option Z :=
  match port u with
  | Some p => Some p
  | None => if str_eqb (scheme u) "https" then Some 443 else if str_eqb (scheme u) "http" then Some 80 else None
  end.
(** Only absolute HTTPS URLs of a domain, [https://domain/path]. *)
Definition parse (text : string) : option t :=
  match split_char "/" text with
  | "https:" :: EmptyString :: domain :: rest =>
      Some (mk "https" EmptyString None (Some (HostDomain domain)) None (normal_path ("/" +:+ join "/" rest)) [] None)
  | _ => None
  end.
Definition as_str (u : t) : string :=
  scheme u +:+ "://" +:+ match host u with Some h => host_to_string h | None => EmptyString end +:+ path u.
End UrlRecord.
#[local] Instance record_urls : Urls :=
  Build_Urls UrlRecord.t UrlRecord.parse UrlRecord.as_str UrlRecord.scheme UrlRecord.username UrlRecord.password.
#[local] Instance record_parts : UrlParts :=
  Build_UrlParts record_urls UrlRecord.checked_host UrlRecord.default_port UrlRecord.path UrlRecord.fragment
    UrlRecord.query_text UrlRecord.query UrlRecord.with_path (UrlRecord.with_query [])
    (fun n v u => UrlRecord.with_query (UrlRecord.query u ++ [(n, v)]) u).
#[local] Instance record_laws : UrlLaws.
Proof.
  split; try done; try by repeat split.
  intros u h. simpl. unfold UrlRecord.checked_host. destruct (UrlRecord.host u) as [h'|]; [|done].
  destruct (UrlRecord.wf_host h') eqn:E; [|done]. intros [= <-].
  destruct h'; simpl in *; [done|by apply in_range_spec in E..].
Qed.

Definition get_ok {A} (d : A) (r : result LlmError A) : A := match r with Ok x => x | Err _ => d end.
Definition example_base : Url := UrlRecord.mk "https" EmptyString None (Some (HostDomain "eu.example.com")) None "/openai" [] None.
Definition example_template : EndpointTemplate :=
  get_ok (mk_template []) (template_parse "/deployments/{deployment}/chat/completions").
Definition example_query : EndpointQuery :=
  get_ok query_new (with_api_version "2024-10-21" DeploymentMapping query_new).
Definition example_values (deployment : string) : EndpointValues :=
  mk_endpoint_values "chat" "gpt-4o" (Some deployment).
Definition example_config : EndpointConfig := Template example_base example_template example_query.
Definition example_url (deployment : string) : Url :=
  match endpoint_url example_config (Some (example_values deployment)) with Ok (u, _) => u | Err _ => example_base end.
Definition example_endpoint : ResolvedEndpoint :=
  get_ok (mk_endpoint example_base (origin_new EmptyString EmptyString 0) (mk_endpoint_diagnostics [] []))
    (resolve_official_for example_config (example_values "gpt/4 eu")).
Definition example_binding : CredentialBinding :=
  get_ok binding_official_openai (exact_https_origin example_endpoint).
(** The same origin, another path. *)
Definition example_target : Url :=
  UrlRecord.mk "https" EmptyString None (Some (HostDomain "eu.example.com")) (Some 443) "/v2/openai" [] None.

Example example_path : url_path (example_url "gpt/4 eu") = "/openai/deployments/gpt%2F4%20eu/chat/completions".
Proof. vm_compute. reflexivity. Qed.

Lemma public_host_exact_witness :
  (validate_public_host (HostDomain "api.openai.com") = Ok tt <-> public_host (HostDomain "api.openai.com")) /\
  (validate_public_host (HostIpv4 (ipv4 169 254 169 254)) = Ok tt <-> public_host (HostIpv4 (ipv4 169 254 169 254))).
Proof. split; apply public_host_exact; [exact I|]. vm_compute. split; discriminate. Defined.
Lemma query_plan_exact_witness :
  is_ok (query_apply example_query example_base) = true /\ base_accepted example_query (url_query_pairs example_base).
Proof.
  assert (is_ok (query_apply example_query example_base) = true) as H by (vm_compute; reflexivity).
  split; [exact H|]. exact (proj1 (proj1 (query_plan_exact example_query example_base)) H).
Defined.
Lemma resolved_path_exact_witness :
  ed_path_variables (mk_endpoint_diagnostics [VDeployment] [mk_query_diagnostic "api-version" ActionSet DeploymentMapping])
  = path_variables (tpl_segments example_template) /\
  exists texts, split_char "/" (url_path (example_url "gpt/4 eu")) =
      split_char "/" (trim_end_matches "/" (url_path example_base)) ++ texts /\
    Forall2 (rendered_as (example_values "gpt/4 eu")) (tpl_segments example_template) texts.
Proof.
  apply (resolved_path_exact "/deployments/{deployment}/chat/completions" example_template example_query
           example_base (example_values "gpt/4 eu") (example_url "gpt/4 eu")).
  - vm_compute. reflexivity.
  - repeat constructor.
  - split; [reflexivity|]. split; [reflexivity|]. exists ["openai"]. split; [reflexivity|]. repeat constructor.
  - intros [] w; simpl; intros [= <-]; split; try split; discriminate.
  - vm_compute. reflexivity.
Defined.
Lemma production_endpoint_safe_witness : url_scheme (ep_url example_endpoint) = "https".
Proof.
  refine (proj1 (production_endpoint_safe example_config (Some (example_values "gpt/4 eu")) example_endpoint _)).
  vm_cast_no_check (eq_refl (@Ok LlmError _ example_endpoint)).
Defined.
Lemma redirects_keep_binding_witness :
  exists e, rtc (hop example_binding) example_endpoint e /\ url_path (ep_url e) = "/v2/openai" /\
            ep_origin e = cb_origin example_binding.
Proof.
  set (e := mk_endpoint example_target (ep_origin example_endpoint) (mk_endpoint_diagnostics [] [])).
  assert (rtc (hop example_binding) example_endpoint e) as Hr.
  { eapply rtc_l; [|apply rtc_refl]. exists example_target. vm_cast_no_check (eq_refl (@Ok LlmError _ e)). }
  exists e. split; [exact Hr|]. split; [reflexivity|].
  refine (proj1 (redirects_keep_binding example_config (Some (example_values "gpt/4 eu")) example_endpoint
                   example_binding e _ _ Hr));
    [vm_cast_no_check (eq_refl (@Ok LlmError _ example_endpoint))|vm_compute; reflexivity].
Defined.

(** The bound on the values is needed: the identifier [..] is accepted, its
    encoding [%2E%2E] is a dot segment, and the path loses the segment before it. *)
Theorem dotted_value_escapes :
  catalog_id "deployment_id" ".." = Ok ".." /\ encode_path_segment ".." = "%2E%2E" /\
  url_path (example_url "..") = "/openai/chat/completions".
Proof. vm_compute. split_and!; reflexivity. Qed.
(** The bound on the literals is needed too: a template accepts a space, a
    backslash or text outside ASCII, which setting a URL's path rewrites. *)
Example unplain_literals_parse :
  Forall (fun text => exists t, template_parse text = Ok t /\ ~ literals_plain t)
    ["/a b"; "/a\b"; String "/" (String "195" (String "169" EmptyString))].
Proof.
  assert (forall x, str_all path_byte x = false -> ~ literals_plain (mk_template [Literal x])) as H
    by (intros x E Hx; inversion Hx; congruence).
  repeat constructor; (eexists; split; [vm_compute; reflexivity|apply H; reflexivity]).
Qed.
(** A trailing dot makes a local name public. *)
Theorem rooted_localhost_is_public :
  validate_public_host (HostDomain "localhost") <> Ok tt /\ validate_public_host (HostDomain "localhost.") = Ok tt.
Proof. split; [vm_compute; discriminate|vm_compute; reflexivity]. Qed.
