(* ===== verification/Response.v ===== *)
(** * Responses of one attempt

    The bounded error body of [src/src/transport/mod.rs] and its redacted summary
    ([error.rs]), the header checks of [src/src/execution/executor.rs], the
    Anthropic error envelope ([anthropic_messages/response/http_error.rs]) and the
    dispatch of a response to its protocol's stream or error
    ([src/src/protocol/response.rs]). *)
From S2P Require Import Prelude Errors Usage Sse SseStream Domain Images Structured Collector Pipeline ChatWire Schema Options ToolCalls ChatMachine ChatSpec Messages Reliability RetryAfter Runner History Request Headers Serialize Contract Catalog ChatRequest MessagesRequest Plan Endpoint.

(** ** Text *)

(** [String::from_utf8_lossy]: every maximal invalid piece becomes U+FFFD. *)
Definition REPLACEMENT : list ascii := map ascii_of_N [239; 191; 189]%N.
Definition second_of_three (b0 b1 : ascii) : bool :=
  if byte_val b0 =? 224 then byte_in 160 191 b1
  else if byte_val b0 =? 237 then byte_in 128 159 b1
  else utf8_cont b1.
Definition second_of_four (b0 b1 : ascii) : bool :=
  if byte_val b0 =? 240 then byte_in 144 191 b1
  else if byte_val b0 =? 244 then byte_in 128 143 b1
  else utf8_cont b1.
Fixpoint from_utf8_lossy (l : list ascii) : list ascii :=
  match l with
  | [] => []
  | b0 :: r0 =>
      if byte_in 0 127 b0 then b0 :: from_utf8_lossy r0
      else if byte_in 194 223 b0 then
        match r0 with
        | b1 :: r1 => if utf8_cont b1 then b0 :: b1 :: from_utf8_lossy r1 else REPLACEMENT ++ from_utf8_lossy r0
        | [] => REPLACEMENT
        end
      else if byte_in 224 239 b0 then
        match r0 with
        | b1 :: r1 =>
            if second_of_three b0 b1 then
              match r1 with
              | b2 :: r2 =>
                  if utf8_cont b2 then b0 :: b1 :: b2 :: from_utf8_lossy r2 else REPLACEMENT ++ from_utf8_lossy r1
              | [] => REPLACEMENT
              end
            else REPLACEMENT ++ from_utf8_lossy r0
        | [] => REPLACEMENT
        end
      else if byte_in 240 244 b0 then
        match r0 with
        | b1 :: r1 =>
            if second_of_four b0 b1 then
              match r1 with
              | b2 :: r2 =>
                  if utf8_cont b2 then
                    match r2 with
                    | b3 :: r3 =>
                        if utf8_cont b3 then b0 :: b1 :: b2 :: b3 :: from_utf8_lossy r3
                        else REPLACEMENT ++ from_utf8_lossy r2
                    | [] => REPLACEMENT
                    end
                  else REPLACEMENT ++ from_utf8_lossy r1
              | [] => REPLACEMENT
              end
            else REPLACEMENT ++ from_utf8_lossy r0
        | [] => REPLACEMENT
        end
      else REPLACEMENT ++ from_utf8_lossy r0
  end.

(** [str::trim]. *)
Fixpoint trim_start_ws (l : list ascii) : list ascii :=
  match l with
  | b0 :: r0 =>
      if ws1 b0 then trim_start_ws r0
      else match r0 with
           | b1 :: r1 =>
               if ws2 b0 b1 then trim_start_ws r1
               else match r1 with
                    | b2 :: r2 => if ws3 b0 b1 b2 then trim_start_ws r2 else l
                    | [] => l
                    end
           | [] => l
           end
  | [] => []
  end.
Fixpoint trim_rev_ws (l : list ascii) : list ascii :=
  match l with
  | b0 :: r0 =>
      if ws1 b0 then trim_rev_ws r0
      else match r0 with
           | b1 :: r1 =>
               if ws2 b1 b0 then trim_rev_ws r1
               else match r1 with
                    | b2 :: r2 => if ws3 b2 b1 b0 then trim_rev_ws r2 else l
                    | [] => l
                    end
           | [] => l
           end
  | [] => []
  end.
Definition trim (s : string) : string := str_of (rev (trim_rev_ws (rev (trim_start_ws (bytes_of s))))).

(** ** Body summaries: [error.rs] *)
Definition SENSITIVE_MARKERS : list string :=
  ["authorization"; "api_key"; "api-key"; "bearer "; "secret"; "access_token"; "sk-"].
Definition sensitive_text (value : string) : bool :=
  let lower := bytes_of (to_ascii_lowercase value) in
  existsb (fun marker => has_infix (bytes_of marker) lower) SENSITIVE_MARKERS.
Definition redact_body (value : string) : string :=
  if sensitive_text value then "<redacted error body>" else value.
Definition from_prefix (bytes : list ascii) (truncated : bool) : string :=
  let value := redact_body (str_of (from_utf8_lossy bytes)) in
  if truncated then value +:+ "... [truncated]" else value.
Definition summary_from_bytes (bytes : list ascii) (limit : Z) : string :=
  let len := Z.of_nat (length bytes) in
  from_prefix (take (Z.to_nat (Z.min len limit)) bytes) (limit <? len).

(** ** Bounded bodies: [transport/mod.rs]

    A byte stream is the finite list of its items, to its end; a stream that
    never ends has no value here. What the read makes of the items is here; the
    waits for them are in [Attempt.await_body]. *)
Abbreviation ByteStream := (list (result LlmError (list ascii))).
Record LimitedBody := mk_limited_body { lb_bytes : list ascii; lb_truncated : bool }.
Definition body_summary (b : LimitedBody) : string := from_prefix (lb_bytes b) (lb_truncated b).
(** The loop once the limit is reached: any further byte is a truncation. *)
Fixpoint read_past_limit (body : ByteStream) (bytes : list ascii) : result LlmError LimitedBody :=
  match body with
  | [] => Ok (mk_limited_body bytes false)
  | Ok [] :: body => read_past_limit body bytes
  | Ok _ :: _ => Ok (mk_limited_body bytes true)
  | Err e :: _ => Err e
  end.
Fixpoint read_body (body : ByteStream) (limit : Z) (bytes : list ascii) : result LlmError LimitedBody :=
  match body with
  | [] => Ok (mk_limited_body bytes false)
  | Err e :: _ => Err e
  | Ok chunk :: body =>
      let remaining := Z.max (limit - Z.of_nat (length bytes)) 0 in
      if remaining <? Z.of_nat (length chunk)
      then Ok (mk_limited_body (bytes ++ take (Z.to_nat remaining) chunk) true)
      else
        let bytes := bytes ++ chunk in
        if Z.of_nat (length bytes) =? limit then read_past_limit body bytes else read_body body limit bytes
  end.
Definition read_body_limited (body : ByteStream) (limit : Z) : result LlmError LimitedBody := read_body body limit [].

(** ** Response headers: [executor.rs] *)

(** Beside [get_all] and [to_str]: the fields in order, a value's bytes, and the
    names. *)
Class HeaderFields {HH : HttpHeaders} := {
  header_iter : HeaderMap -> list (string * HeaderValue);
  header_bytes : HeaderValue -> list ascii;
  header_keys : HeaderMap -> list string }.
Definition MAX_RESPONSE_HEADER_FIELDS : Z := 128.
Definition MAX_RESPONSE_HEADER_VALUE_BYTES : Z := 16 * 1024.
Definition MAX_RESPONSE_HEADER_TOTAL_BYTES : Z := 64 * 1024.

Section Headers.
Context {HH : HttpHeaders} {HF : HeaderFields}.

Fixpoint scan_header_limits (l : list (string * HeaderValue)) (fields total_bytes : Z) : result LlmError unit :=
  match l with
  | [] => Ok tt
  | (name, value) :: l =>
      let fields := usize_saturating_add fields 1 in
      let value_bytes := Z.of_nat (length (header_bytes value)) in
      let total_bytes := usize_saturating_add (usize_saturating_add total_bytes (str_len name)) value_bytes in
      if (MAX_RESPONSE_HEADER_FIELDS <? fields) || (MAX_RESPONSE_HEADER_VALUE_BYTES <? value_bytes)
         || (MAX_RESPONSE_HEADER_TOTAL_BYTES <? total_bytes)
      then Err (protocol "response header resource limit exceeded")
      else scan_header_limits l fields total_bytes
  end.
Definition validate_response_header_limits (headers : HeaderMap) : result LlmError unit :=
  scan_header_limits (header_iter headers) 0 0.
(** [HeaderMap::get]. *)
Definition header_get (headers : HeaderMap) (name : string) : option HeaderValue := hd_error (get_all headers name).
Definition provider_request_id (headers : HeaderMap) : option string :=
  value ← match header_get headers "x-request-id" with Some v => Some v | None => header_get headers "request-id" end;
  value ← to_str value;
  match ProviderRequestId_new value with Ok id => Some id | Err _ => None end.
Definition validate_success_headers (headers : HeaderMap) : result LlmError unit :=
  let valid :=
    is_some_and (fun media_type => eq_ignore_ascii_case (trim media_type) "text/event-stream")
      (value ← header_get headers "content-type"; value ← to_str value; hd_error (split_char ";" value)) in
  if valid then Ok tt else Err (protocol "successful response is not text/event-stream").

(** [observed_rate_limit], with the event it reports. *)
Record RateLimitReport := mk_rate_limit_report {
  rr_status_is_rate_limited : bool; rr_retry_after_valid : bool; rr_provider_fields_present : bool }.
Definition retry_declarations (policy : list RateLimitHeaderSpec) : list RetryAfterHeader :=
  StandardRetryAfter :: omap (fun spec =>
    match rs_kind spec with
    | RetryAfterSeconds => Some (ProviderDeltaSeconds (rs_name spec))
    | RetryAtUnixSeconds => Some (ProviderUnixSeconds (rs_name spec))
    | _ => None
    end) policy.
Definition is_known {A} (v : RateLimitValue A) : bool := match v with RlUnknown => false | _ => true end.
Definition is_valid {A} (v : RateLimitValue A) : bool := match v with RlValid _ => true | _ => false end.
Definition observed_rate_limit (status : Z) (headers : HeaderMap) (policy : list RateLimitHeaderSpec) (now : Z)
  : RateLimitObservation * option RateLimitReport :=
  let retry := parse_retry_after headers (retry_declarations policy) now in
  let retry_after :=
    if negb (ra_present retry) then RlUnknown
    else match ra_valid retry, ra_delay retry with
         | true, Some delay => RlValid delay
         | _, _ => RlInvalid
         end in
  let observation := observe_rate_limit status headers policy retry_after now in
  let provider_fields_present :=
    is_known (rl_remaining_requests observation) || is_known (rl_remaining_units observation)
    || is_known (rl_reset observation) in
  (observation,
   if ra_present retry || provider_fields_present || rl_status_is_rate_limited observation
   then Some (mk_rate_limit_report (rl_status_is_rate_limited observation)
                (is_valid (rl_retry_after observation)) provider_fields_present)
   else None).
End Headers.

(** ** The Anthropic error envelope: [http_error.rs] *)
Definition MAX_PROVIDER_CODE_BYTES : Z := 128.
Record AnthropicHttpErrorDetails := mk_http_error_details {
  he_summary : string; he_provider_code : option string; he_request_id : option string }.
(** [serde_json::from_slice::<ErrorEnvelopeWire>]: the error's type and the
    request id. *)
Class ErrorEnvelopeSyntax := parse_error_envelope : list ascii -> option (string * option string).
Definition bounded_provider_code (value : string) : option string :=
  if negb (str_is_empty value) && (str_len value <=? MAX_PROVIDER_CODE_BYTES)
     && str_all (fun b => is_ascii_alphanumeric b || Ascii.eqb b "_") value
  then Some value else None.
Definition decode_http_error {ES : ErrorEnvelopeSyntax} (body : LimitedBody) : AnthropicHttpErrorDetails :=
  let parsed := parse_error_envelope (lb_bytes body) in
  let provider_code := wire ← parsed; bounded_provider_code wire.1 in
  let request_id :=
    wire ← parsed; value ← wire.2;
    match ProviderRequestId_new value with Ok id => Some id | Err _ => None end in
  let label :=
    match provider_code with
    | None => "Anthropic HTTP error"
    | Some code => "Anthropic HTTP error (" +:+ code +:+ ")"
    end in
  mk_http_error_details (summary_from_bytes (bytes_of label) (str_len label)) provider_code request_id.

(** ** Dispatch: [protocol/response.rs] *)
Record ResponseMeta := mk_response_meta {
  rm_local_request_id : string; rm_provider_request_id : option string; rm_status : Z;
  rm_header_names : list string; rm_retry_after : option Z; rm_rate_limit : RateLimitObservation }.
Inductive AttemptResponseBody := Success (body : ByteStream) | HttpFailure (body : LimitedBody).
Record AttemptResponse := mk_attempt_response {
  are_plan : ResponsePlan; are_meta : ResponseMeta; are_outcome : AttemptResponseBody }.
(** The decoder of a success body, over the bytes it will read. *)
Inductive EventStream :=
| ChatEvents (stream : SseMachineStream ChatStateMachine) (body : ByteStream)
| MessagesEvents (stream : SseMachineStream MessagesStateMachine) (body : ByteStream).

Definition is_success (status : Z) : bool := in_range 200 299 status.
Definition is_server_error (status : Z) : bool := in_range 500 599 status.
Definition status_retriable (status : Z) : RetriableHint :=
  if (status =? 408) || (status =? 429) || is_server_error status then Maybe else No.
Definition open_openai_chat (model : ModelRef) (format : ResponseFormat) (contract : OpenAiChatContract)
    (limits : ResponseLimits) (sse : SseConfig) (meta : ResponseMeta) (body : ByteStream) : EventStream :=
  ChatEvents (decode_openai_chat_stream_with_policy
                (ChatMachine.mk_context (rm_local_request_id meta) (rm_provider_request_id meta) model)
                format sse limits (cp_response (occ_compat contract))) body.
Definition open_anthropic_messages (source : SourceIdentity) (format : ResponseFormat)
    (contract : AnthropicMessagesContract) (limits : ResponseLimits) (sse : SseConfig) (meta : ResponseMeta)
    (body : ByteStream) : EventStream :=
  MessagesEvents (decode_anthropic_messages_stream sse
                    (Messages.mk_messages_context (rm_local_request_id meta) (rm_provider_request_id meta) source)
                    format limits (amc_usage contract)) body.
Definition response_open {ES : ErrorEnvelopeSyntax} (response : AttemptResponse) : result LlmError EventStream :=
  let meta := are_meta response in
  let failure summary request_id code :=
    Err (LlmError.HttpStatus
      (mk_http_status_error (rm_status meta) ErrorStage.Http summary request_id code
         (status_retriable (rm_status meta)) (rm_retry_after meta) (Some (rm_rate_limit meta)))) in
  match rpl_protocol (are_plan response), are_outcome response with
  | ProtocolResponsePlan.OpenAiChat model format contract limits sse, Success body =>
      Ok (open_openai_chat model format contract limits sse meta body)
  | ProtocolResponsePlan.OpenAiChat _ _ _ _ _, HttpFailure body =>
      failure (body_summary body) (rm_provider_request_id meta) None
  | ProtocolResponsePlan.AnthropicMessages source format contract limits sse, Success body =>
      Ok (open_anthropic_messages source format contract limits sse meta body)
  | ProtocolResponsePlan.AnthropicMessages _ _ _ _ _, HttpFailure body =>
      let details := decode_http_error body in
      failure (he_summary details)
        match rm_provider_request_id meta with Some id => Some id | None => he_request_id details end
        (he_provider_code details)
  end.
