(* ===== verification/ResponseSpec.v ===== *)
(** * Responses: bounded bodies, header limits and redacted summaries *)
From S2P Require Import Prelude Errors Usage Sse Domain Images Structured ChatWire Schema Options Reliability RetryAfter Runner History Request RequestSpec Headers Contract Catalog Plan Endpoint EndpointSpec Response.

(** ** Bounded bodies *)

(** The bytes of a stream up to its first error, and that error. *)
Fixpoint bytes_before_error (body : ByteStream) : list ascii :=
  match body with Ok chunk :: body => chunk ++ bytes_before_error body | _ => [] end.
Fixpoint first_error (body : ByteStream) : option LlmError :=
  match body with [] => None | Err e :: _ => Some e | Ok _ :: body => first_error body end.
Definition bounded_read (body : ByteStream) (limit : Z) (bytes : list ascii) : result LlmError LimitedBody :=
  let all := bytes ++ bytes_before_error body in
  if limit <? Z.of_nat (length all) then Ok (mk_limited_body (take (Z.to_nat limit) all) true)
  else match first_error body with Some e => Err e | None => Ok (mk_limited_body all false) end.

Lemma read_past_limit_spec body bytes : read_past_limit body bytes = bounded_read body (Z.of_nat (length bytes)) bytes.
Proof.
  induction body as [|[chunk|e] body IH]; unfold bounded_read in *; simpl in *.
  - rewrite app_nil_r. by destruct (Z.ltb_spec (Z.of_nat (length bytes)) (Z.of_nat (length bytes))); [lia|].
  - destruct chunk as [|b chunk]; [exact IH|].
    destruct (Z.ltb_spec (Z.of_nat (length bytes)) (Z.of_nat (length (bytes ++ (b :: chunk) ++ bytes_before_error body))))
      as [_|H]; [|rewrite length_app in H; simpl in H; lia].
    by rewrite Nat2Z.id, take_app_length.
  - rewrite app_nil_r. by destruct (Z.ltb_spec (Z.of_nat (length bytes)) (Z.of_nat (length bytes))); [lia|].
Qed.
Lemma read_body_spec body limit bytes : Z.of_nat (length bytes) <= limit ->
  read_body body limit bytes = bounded_read body limit bytes.
Proof.
  revert bytes. induction body as [|[chunk|e] body IH]; intros bytes Hb; unfold bounded_read; simpl.
  - rewrite app_nil_r. by destruct (Z.ltb_spec limit (Z.of_nat (length bytes))); [lia|].
  - replace (Z.max (limit - Z.of_nat (length bytes)) 0) with (limit - Z.of_nat (length bytes)) by lia.
    rewrite app_assoc. destruct (Z.ltb_spec (limit - Z.of_nat (length bytes)) (Z.of_nat (length chunk))) as [H|H].
    + destruct (Z.ltb_spec limit (Z.of_nat (length ((bytes ++ chunk) ++ bytes_before_error body)))) as [_|H'];
        [|rewrite !length_app in H'; lia].
      f_equal. f_equal. rewrite take_app_le by (rewrite length_app; lia).
      rewrite take_app_ge by lia. f_equal. f_equal. lia.
    + destruct (Z.eqb_spec (Z.of_nat (length (bytes ++ chunk))) limit) as [<-|Hne].
      * rewrite read_past_limit_spec. done.
      * rewrite IH; [done|]. rewrite length_app. rewrite length_app in Hne. lia.
  - rewrite app_nil_r. by destruct (Z.ltb_spec limit (Z.of_nat (length bytes))); [lia|].
Qed.

(** C33. Reading an error body returns its first [limit] bytes, marked truncated,
    exactly when more than [limit] bytes precede any error; otherwise the error,
    or else the whole body. *)
Theorem read_body_limited_exact body limit : 0 <= limit ->
  read_body_limited body limit = bounded_read body limit [].
Proof. intros H. by apply read_body_spec. Qed.
Lemma read_body_limited_exact_witness :
  read_body_limited [Ok (bytes_of "abc"); Ok []; Ok (bytes_of "def"); Err LlmError.Cancelled] 4 =
  Ok (mk_limited_body (bytes_of "abcd") true).
Proof.
  rewrite (read_body_limited_exact [Ok (bytes_of "abc"); Ok []; Ok (bytes_of "def"); Err LlmError.Cancelled] 4);
    [reflexivity|lia].
Defined.

(** ** Header limits *)
Section Limits.
Context {HH : HttpHeaders} {HF : HeaderFields}.
Definition field_bytes (f : string * HeaderValue) : Z := str_len f.1 + Z.of_nat (length (header_bytes f.2)).
Definition total_bytes (l : list (string * HeaderValue)) : Z := foldr (fun f n => field_bytes f + n) 0 l.
Lemma total_nonneg l : 0 <= total_bytes l.
Proof.
  induction l as [|f l IH]; simpl; [lia|]. unfold field_bytes at 1. pose proof (str_len_nonneg f.1). lia.
Qed.
Lemma scan_header_limits_spec l fields total :
  0 <= fields <= 128 -> 0 <= total <= 65536 ->
  scan_header_limits l fields total = Ok tt <->
  fields + Z.of_nat (length l) <= 128 /\ total + total_bytes l <= 65536 /\
  Forall (fun f => Z.of_nat (length (header_bytes f.2)) <= 16384) l.
Proof.
  revert fields total. induction l as [|[name value] l IH]; intros fields total Hf Ht; cbn [scan_header_limits].
  { simpl. split; [intros _; split_and!; [lia|lia|constructor]|done]. }
  set (n := Z.of_nat (length (header_bytes value))). assert (0 <= n) as Hn by (unfold n; lia). pose proof (str_len_nonneg name). pose proof (total_nonneg l).
  assert (usize_saturating_add fields 1 = fields + 1) as -> by (unfold usize_saturating_add, USIZE_MAX, U64_MAX; lia).
  unfold MAX_RESPONSE_HEADER_FIELDS, MAX_RESPONSE_HEADER_VALUE_BYTES, MAX_RESPONSE_HEADER_TOTAL_BYTES.
  change (16 * 1024) with 16384. change (64 * 1024) with 65536. rewrite Forall_cons. cbn [length foldr total_bytes snd].
  unfold field_bytes at 1. cbn [fst snd]. fold n. fold (total_bytes l).
  destruct (Z.ltb_spec 128 (fields + 1)) as [|Hx1]; [simpl; split; [done|lia]|].
  destruct (Z.ltb_spec 16384 n) as [|Hx2]; [simpl; split; [done|lia]|]. cbn [orb].
  assert (usize_saturating_add (usize_saturating_add total (str_len name)) n =
          Z.min (total + str_len name + n) USIZE_MAX) as -> by (unfold usize_saturating_add, USIZE_MAX, U64_MAX; lia).
  destruct (Z.ltb_spec 65536 (Z.min (total + str_len name + n) USIZE_MAX)) as [H3|H3]; unfold USIZE_MAX, U64_MAX in *.
  { split; [done|lia]. }
  rewrite Z.min_l by lia. rewrite IH by lia.
  split; [intros (? & ? & ?)|intros (? & ? & ? & ?)]; split_and!; try done; lia.
Qed.

(** Response headers are accepted exactly when there are at most 128 fields,
    no value over 16 KiB, and at most 64 KiB of names and values in all. *)
Theorem header_limits_exact headers :
  validate_response_header_limits headers = Ok tt <->
  Z.of_nat (length (header_iter headers)) <= 128 /\ total_bytes (header_iter headers) <= 65536 /\
  Forall (fun f => Z.of_nat (length (header_bytes f.2)) <= 16384) (header_iter headers).
Proof. unfold validate_response_header_limits. by rewrite scan_header_limits_spec by lia. Qed.
End Limits.

(** ** Redaction *)
Lemma has_infix_spec x s : has_infix x s = true <-> exists p q, s = p ++ x ++ q.
Proof.
  induction s as [|b s IH]; cbn [has_infix].
  - rewrite orb_false_r, starts_with_spec. split.
    + intros [t Ht]. exists [], t. done.
    + intros (p & q & H). destruct p; [by exists q|done].
  - rewrite orb_true_iff, IH, starts_with_spec. split.
    + intros [[t Ht]|(p & q & ->)]; [by exists [], t|by exists (b :: p), q].
    + intros (p & q & H). destruct p as [|b' p]; [left; by exists q|]. right. injection H as _ H. by exists p, q.
Qed.
(** A word without the separator cannot straddle it. *)
Lemma infix_sep x s c t : c ∉ x -> has_infix x (s ++ c :: t) = true -> x <> [] ->
  has_infix x s = true \/ has_infix x t = true.
Proof.
  intros Hc (p & q & H)%has_infix_spec Hx.
  destruct (decide (length p + length x <= length s)%nat) as [Hl|Hl].
  - left. apply has_infix_spec. exists p, (take (length s - length p - length x) q).
    apply (f_equal (take (length s))) in H. rewrite take_app_length in H. rewrite H at 1.
    rewrite !take_app. f_equal; [by rewrite take_ge by lia|]. f_equal. by rewrite take_ge by lia.
  - destruct (decide (length s < length p)%nat) as [Hp|Hp].
    + right. apply has_infix_spec. exists (drop (S (length s)) p), q.
      apply (f_equal (drop (S (length s)))) in H. rewrite drop_app, drop_ge in H by lia.
      replace (S (length s) - length s)%nat with 1%nat in H by lia. simpl in H. rewrite drop_0 in H. rewrite H.
      by rewrite drop_app_le by lia.
    + exfalso. apply Hc. assert ((p ++ x ++ q) !! length s = Some c) as Hlk.
      { rewrite <- H. rewrite lookup_app_r by lia. by rewrite Nat.sub_diag. }
      rewrite lookup_app_r in Hlk by lia. rewrite lookup_app_l in Hlk by lia. by eapply list_elem_of_lookup_2.
Qed.
Lemma lower_bytes_app a b : map lower_byte (bytes_of (a +:+ b)) = map lower_byte (bytes_of a) ++ map lower_byte (bytes_of b).
Proof. by rewrite bytes_of_app, map_app. Qed.
Lemma marker_facts m : m ∈ SENSITIVE_MARKERS ->
  bytes_of m <> [] /\ "."%char ∉ bytes_of m /\ has_infix (bytes_of m) (bytes_of ".. [truncated]") = false /\
  has_infix (bytes_of m) (bytes_of "<redacted error body>") = false.
Proof.
  unfold SENSITIVE_MARKERS. rewrite !elem_of_cons, elem_of_nil. intros Hm.
  destruct_or! Hm; subst m; try done;
    (split_and!; [done|intros Hx; apply list_elem_of_In in Hx; simpl in Hx; intuition discriminate|reflexivity..]).
Qed.
Lemma sensitive_false s : sensitive_text s = false <->
  forall m, m ∈ SENSITIVE_MARKERS -> has_infix (bytes_of m) (map lower_byte (bytes_of s)) = false.
Proof.
  unfold sensitive_text, to_ascii_lowercase. rewrite bytes_of_str_of, <- not_true_iff_false, existsb_exists. split.
  - intros H m Hm. apply not_true_iff_false. intros E. apply H. exists m. split; [by apply list_elem_of_In|done].
  - intros H (m & Hm & E). apply list_elem_of_In, H in Hm. congruence.
Qed.

Lemma summary_redacted bytes truncated : sensitive_text (from_prefix bytes truncated) = false.
Proof.
  unfold from_prefix. set (text := redact_body _).
  assert (sensitive_text text = false) as Ht.
  { unfold text, redact_body. destruct (sensitive_text (str_of (from_utf8_lossy bytes))) eqn:E; [reflexivity|done]. }
  destruct truncated; [|done]. rewrite sensitive_false in Ht |- *. intros m Hm. specialize (Ht m Hm).
  destruct (marker_facts m Hm) as (Hne & Hdot & Htail & _). rewrite lower_bytes_app.
  change (map lower_byte (bytes_of "... [truncated]")) with ("."%char :: bytes_of ".. [truncated]").
  apply not_true_iff_false. intros H. apply infix_sep in H as [H|H]; [congruence|congruence|done|done].
Qed.
(** The summary kept of an error body never contains one of the words that
    mark credentials, in any case, whether or not the body was truncated. *)
Theorem summaries_redacted bytes truncated : sensitive_text (from_prefix bytes truncated) = false.
Proof. apply summary_redacted. Qed.
