(* ===== verification/Network.v ===== *)
(** * The network transport: [src/src/transport/network.rs] and [transport/reqwest.rs]

    The immutable network policy with its bounds, the proxy it resolves to, the
    filtering DNS resolver, the same-origin redirect policy and the
    classification of transport failures. *)
From S2P Require Import Prelude Errors Usage Sse Domain Images Structured ChatWire Schema Options Reliability RetryAfter History Request Headers Contract Catalog Plan Endpoint Response Runner.

(** ** Policies: [network.rs] *)
Definition MAX_PROXY_URL_BYTES : Z := 2048.
Definition MAX_PROXY_CREDENTIAL_BYTES : Z := 512.
Definition MAX_NO_PROXY_ENTRIES : Z := 64.
Definition MAX_NO_PROXY_BYTES : Z := 4096.
Definition MAX_CUSTOM_ROOTS : Z := 8.
Definition MAX_CUSTOM_ROOT_BYTES : Z := 256 * 1024.
Definition MAX_CLIENT_IDENTITY_BYTES : Z := 512 * 1024.
Definition MAX_DNS_TIMEOUT : Z := from_secs 30.
Definition MAX_POOL_IDLE_TIMEOUT : Z := from_mins 10.
Definition MAX_IDLE_PER_HOST : Z := 64.

Inductive IpPreference := IpSystem | Ipv4First | Ipv6First.
Inductive HttpVersionPolicy := Negotiate | Http1Only.
Inductive MinimumTlsVersion := Tls12 | Tls13.

Definition control_chars : list ascii := map ascii_of_N [13; 10; 0]%N.
Definition total_len (l : list string) : Z := foldr (fun s n => str_len s + n) 0 l.
Record NoProxyList := mk_no_proxy { np_entries : list string }.
Definition no_proxy_default : NoProxyList := mk_no_proxy [].
Definition no_proxy_entry_bad (e : string) : bool :=
  str_is_empty e || has_boundary_whitespace e || contains_any control_chars e || str_contains "," e.
Definition no_proxy_new (entries : list string) : result ValidationError NoProxyList :=
  if MAX_NO_PROXY_ENTRIES <? Z.of_nat (length entries)
  then Err (validation_error "network.proxy.no_proxy" ValidationReason.OutOfRange
              "NO_PROXY entry count exceeds the SDK limit")
  else if MAX_NO_PROXY_BYTES <? total_len entries
  then Err (validation_error "network.proxy.no_proxy" ValidationReason.OutOfRange
              "NO_PROXY bytes exceed the SDK limit")
  else if existsb no_proxy_entry_bad entries
  then Err (validation_error "network.proxy.no_proxy" ValidationReason.InvalidIdentifier
              "NO_PROXY contains an invalid entry")
  else Ok (mk_no_proxy entries).
Definition no_proxy_joined (l : NoProxyList) : string := join "," (np_entries l).

Record ProxyCredentials := mk_proxy_credentials { pc_username : string; pc_password : string }.
Definition proxy_credentials_new (username password : string) : result ValidationError ProxyCredentials :=
  if str_is_empty username || str_is_empty password
  then Err (validation_error "network.proxy.credentials" ValidationReason.Empty
              "proxy credentials must be non-empty")
  else if MAX_PROXY_CREDENTIAL_BYTES <? usize_saturating_add (str_len username) (str_len password)
  then Err (validation_error "network.proxy.credentials" ValidationReason.OutOfRange
              "proxy credentials exceed the SDK byte limit")
  else if contains_any control_chars username || contains_any control_chars password
  then Err (validation_error "network.proxy.credentials" ValidationReason.InvalidHeader
              "proxy credentials contain control characters")
  else Ok (mk_proxy_credentials username password).

Section Proxies.
Context {U : Urls} {UP : UrlParts}.

Record ExplicitProxy := mk_proxy {
  px_endpoint : Url; px_credentials : option ProxyCredentials; px_no_proxy : NoProxyList }.
Definition proxy_shape_bad (endpoint : Url) : bool :=
  negb (http_scheme endpoint) || negb (bool_decide (is_Some (url_host endpoint)))
  || negb (str_is_empty (url_username endpoint)) || bool_decide (is_Some (url_password endpoint))
  || bool_decide (is_Some (url_query endpoint)) || bool_decide (is_Some (url_fragment endpoint))
  || (negb (str_eqb (url_path endpoint) "/") && negb (str_is_empty (url_path endpoint))).
Definition explicit_proxy_new (endpoint : string) : result ValidationError ExplicitProxy :=
  if MAX_PROXY_URL_BYTES <? str_len endpoint
  then Err (validation_error "network.proxy.endpoint" ValidationReason.OutOfRange
              "proxy endpoint exceeds the SDK byte limit")
  else
    endpoint ← ok_or (url_parse endpoint)
      (validation_error "network.proxy.endpoint" ValidationReason.InvalidIdentifier
         "proxy endpoint is not a valid absolute URL");
    if proxy_shape_bad endpoint
    then Err (validation_error "network.proxy.endpoint" ValidationReason.InvalidIdentifier
                "proxy endpoint must be an origin without credentials, path, query, or fragment")
    else Ok (mk_proxy endpoint None no_proxy_default).
Definition with_credentials (c : ProxyCredentials) (p : ExplicitProxy) : ExplicitProxy :=
  mk_proxy (px_endpoint p) (Some c) (px_no_proxy p).
Definition with_no_proxy (l : NoProxyList) (p : ExplicitProxy) : ExplicitProxy :=
  mk_proxy (px_endpoint p) (px_credentials p) l.
Inductive ProxyPolicy := ProxyDisabled | ProxyEnvironment | ProxyExplicit (proxy : ExplicitProxy).

(** [std::env::var]. *)
Context (env_var : string -> option string).
Fixpoint first_env (names : list string) : option string :=
  match names with
  | [] => None
  | name :: names =>
      match env_var name with
      | Some value => if str_is_empty value then first_env names else Some value
      | None => first_env names
      end
  end.
Definition validation_llm {A} (r : result ValidationError A) : result LlmError A := map_err LlmError.Validation r.
(** [ResolvedProxy] has the fields of an explicit proxy. *)
Definition resolve_environment_proxy : result LlmError (option ExplicitProxy) :=
  match first_env ["HTTPS_PROXY"; "https_proxy"; "ALL_PROXY"; "all_proxy"] with
  | None => Ok None
  | Some raw =>
      explicit ← validation_llm (explicit_proxy_new raw);
      no_proxy ← match first_env ["NO_PROXY"; "no_proxy"] with
                 | None => Ok no_proxy_default
                 | Some raw => validation_llm (no_proxy_new (map trim (split_char "," raw)))
                 end;
      Ok (Some (mk_proxy (px_endpoint explicit) None no_proxy))
  end.
Definition proxy_resolve (p : ProxyPolicy) : result LlmError (option ExplicitProxy) :=
  match p with
  | ProxyDisabled => Ok None
  | ProxyExplicit proxy => Ok (Some proxy)
  | ProxyEnvironment => resolve_environment_proxy
  end.
End Proxies.

Definition validate_duration (field : string) (value maximum : Z) : result ValidationError unit :=
  if value =? 0
  then Err (validation_error field ValidationReason.Zero "network duration must be positive")
  else if maximum <? value
  then Err (validation_error field ValidationReason.OutOfRange "network duration exceeds the SDK hard limit")
  else Ok tt.

Record TlsPolicy := mk_tls {
  tls_minimum_version : MinimumTlsVersion; tls_custom_roots : list (list ascii);
  tls_client_identity : option (list ascii) }.
Definition tls_secure_defaults : TlsPolicy := mk_tls Tls12 [] None.
Definition with_minimum_version (v : MinimumTlsVersion) (t : TlsPolicy) : TlsPolicy :=
  mk_tls v (tls_custom_roots t) (tls_client_identity t).
Definition with_custom_root_pem (pem : list ascii) (t : TlsPolicy) : result ValidationError TlsPolicy :=
  let len := Z.of_nat (length pem) in
  if (len =? 0) || (MAX_CUSTOM_ROOT_BYTES <? len)
  then Err (validation_error "network.tls.custom_roots" ValidationReason.OutOfRange
              "custom CA material is empty or exceeds the SDK byte limit")
  else if MAX_CUSTOM_ROOTS <=? Z.of_nat (length (tls_custom_roots t))
  then Err (validation_error "network.tls.custom_roots" ValidationReason.OutOfRange
              "custom CA count exceeds the SDK limit")
  else Ok (mk_tls (tls_minimum_version t) (tls_custom_roots t ++ [pem]) (tls_client_identity t)).
Definition with_client_identity_pem (pem : list ascii) (t : TlsPolicy) : result ValidationError TlsPolicy :=
  let len := Z.of_nat (length pem) in
  if (len =? 0) || (MAX_CLIENT_IDENTITY_BYTES <? len)
  then Err (validation_error "network.tls.client_identity" ValidationReason.OutOfRange
              "client identity is empty or exceeds the SDK byte limit")
  else Ok (mk_tls (tls_minimum_version t) (tls_custom_roots t) (Some pem)).

Record DnsPolicy := mk_dns { dns_timeout : Z; dns_ip_preference : IpPreference }.
Definition dns_secure_defaults : DnsPolicy := mk_dns (from_secs 5) IpSystem.
Definition with_dns_timeout (timeout : Z) (d : DnsPolicy) : result ValidationError DnsPolicy :=
  _ ← validate_duration "network.dns.timeout" timeout MAX_DNS_TIMEOUT; Ok (mk_dns timeout (dns_ip_preference d)).
Definition with_ip_preference (p : IpPreference) (d : DnsPolicy) : DnsPolicy := mk_dns (dns_timeout d) p.

Record ConnectionPoolPolicy := mk_pool {
  pl_idle_timeout : Z; pl_max_idle_per_host : Z; pl_tcp_keepalive : Z; pl_http_version : HttpVersionPolicy }.
Definition pool_secure_defaults : ConnectionPoolPolicy := mk_pool (from_secs 90) 8 (from_mins 1) Negotiate.
Definition with_idle_timeout (v : Z) (p : ConnectionPoolPolicy) : result ValidationError ConnectionPoolPolicy :=
  _ ← validate_duration "network.pool.idle_timeout" v MAX_POOL_IDLE_TIMEOUT;
  Ok (mk_pool v (pl_max_idle_per_host p) (pl_tcp_keepalive p) (pl_http_version p)).
Definition with_max_idle_per_host (v : Z) (p : ConnectionPoolPolicy) : result ValidationError ConnectionPoolPolicy :=
  if MAX_IDLE_PER_HOST <? v
  then Err (validation_error "network.pool.max_idle_per_host" ValidationReason.OutOfRange
              "idle connections per host exceed the SDK limit")
  else Ok (mk_pool (pl_idle_timeout p) v (pl_tcp_keepalive p) (pl_http_version p)).
Definition with_tcp_keepalive (v : Z) (p : ConnectionPoolPolicy) : result ValidationError ConnectionPoolPolicy :=
  _ ← validate_duration "network.pool.tcp_keepalive" v MAX_POOL_IDLE_TIMEOUT;
  Ok (mk_pool (pl_idle_timeout p) (pl_max_idle_per_host p) v (pl_http_version p)).
Definition with_http_version (v : HttpVersionPolicy) (p : ConnectionPoolPolicy) : ConnectionPoolPolicy :=
  mk_pool (pl_idle_timeout p) (pl_max_idle_per_host p) (pl_tcp_keepalive p) v.

Section Transport.
Context {U : Urls} {UP : UrlParts}.
Record NetworkPolicy := mk_network {
  nw_proxy : ProxyPolicy; nw_tls : TlsPolicy; nw_dns : DnsPolicy; nw_pool : ConnectionPoolPolicy }.
Definition network_secure_defaults : NetworkPolicy :=
  mk_network ProxyDisabled tls_secure_defaults dns_secure_defaults pool_secure_defaults.
Definition with_proxy (p : ProxyPolicy) (n : NetworkPolicy) := mk_network p (nw_tls n) (nw_dns n) (nw_pool n).
Definition with_tls (t : TlsPolicy) (n : NetworkPolicy) := mk_network (nw_proxy n) t (nw_dns n) (nw_pool n).
Definition with_dns (d : DnsPolicy) (n : NetworkPolicy) := mk_network (nw_proxy n) (nw_tls n) d (nw_pool n).
Definition with_pool (p : ConnectionPoolPolicy) (n : NetworkPolicy) := mk_network (nw_proxy n) (nw_tls n) (nw_dns n) p.

(** ** The resolver: [SecureDnsResolver] of [reqwest.rs] *)
Record SecureDnsResolver := mk_resolver {
  rv_timeout : Z; rv_preference : IpPreference; rv_allowed_private_hosts : gset string }.
(** [Url::host_str], which [build_client] reads of the proxy. *)
Context (url_host_str : Url -> option string).
Definition resolver_for (policy : NetworkPolicy) (proxy : option ExplicitProxy) : SecureDnsResolver :=
  mk_resolver (dns_timeout (nw_dns policy)) (dns_ip_preference (nw_dns policy))
    match proxy ≫= (fun p => url_host_str (px_endpoint p)) with
    | Some host => {[to_ascii_lowercase (trim_end_matches "." host)]}
    | None => ∅
    end.
Definition is_ipv6 (a : IpAddr) : bool := match a with V6 _ => true | V4 _ => false end.
(** [sort_by_key] is stable. *)
Definition sort_addresses (p : IpPreference) (l : list IpAddr) : list IpAddr :=
  match p with
  | IpSystem => l
  | Ipv4First => List.filter (fun a => negb (is_ipv6 a)) l ++ List.filter is_ipv6 l
  | Ipv6First => List.filter is_ipv6 l ++ List.filter (fun a => negb (is_ipv6 a)) l
  end.
(** [lookup] is the answer of [lookup_host] within the timeout. *)
Definition dns_resolve (r : SecureDnsResolver) (lookup : string -> option (list IpAddr)) (name : string)
  : option (list IpAddr) :=
  let host := to_ascii_lowercase (trim_end_matches "." name) in
  addresses ← lookup host;
  let listed := bool_decide (host ∈ rv_allowed_private_hosts r) in
  let allow_private := eq_ignore_ascii_case host "localhost" || listed in
  let policy := if allow_private then test_loopback else public_https in
  if listed || is_ok (validate_resolved_addresses policy addresses)
  then Some (sort_addresses (rv_preference r) addresses) else None.

(** ** Redirects: [same_origin_policy] *)
Definition MAX_REDIRECTS : Z := 5.
(** Whether a redirect to [next] is followed after the requests of [previous]. *)
Definition follow_redirect (previous : list Url) (next : Url) : bool :=
  if MAX_REDIRECTS <? Z.of_nat (length previous) then false
  else
    match previous with
    | [] => false
    | initial :: _ =>
        let safe_shape :=
          str_is_empty (url_username next) && negb (bool_decide (is_Some (url_password next)))
          && negb (bool_decide (is_Some (url_query next))) && negb (bool_decide (is_Some (url_fragment next))) in
        match origin_from_url initial, origin_from_url next with
        | Ok initial, Ok next =>
            safe_shape && bool_decide (initial = next)
            && negb (str_eqb (og_scheme initial) "https" && negb (str_eqb (og_scheme next) "https"))
        | _, _ => false
        end
    end.
End Transport.

(** ** Failures: [map_start_error], [map_body_error]

    An error with what the mapping looks at: whether it is a [rustls::Error], the
    error an [io::Error] carries, and its source. *)
Inductive StdError := mk_std_error (is_rustls : bool) (io_inner source : option StdError).
Fixpoint contains_tls_error (depth : Z) (error : StdError) : bool :=
  match error with
  | mk_std_error rustls inner source =>
      if (12 <? depth) || rustls then rustls
      else match inner with Some e => contains_tls_error (depth + 1) e | None => false end
        || match source with Some e => contains_tls_error (depth + 1) e | None => false end
  end.
(** What a [reqwest::Error] answers. *)
Record ReqwestError := mk_reqwest_error {
  re_timeout : bool; re_connect : bool; re_body : bool; re_error : StdError }.
Definition is_tls_error (e : ReqwestError) : bool := contains_tls_error 0 (re_error e).
Definition map_start_error (e : ReqwestError) : LlmError :=
  if re_timeout e
  then LlmError.Timeout (timeout_error (if re_connect e then TimeoutStage.Connect else TimeoutStage.ResponseHeader))
  else
    let '(stage, hint) :=
      if re_connect e then ((if is_tls_error e then ErrorStage.Tls else ErrorStage.Connect), Maybe)
      else if re_body e then (ErrorStage.Body, Maybe)
      else (ErrorStage.Http, No) in
    LlmError.Transport (mk_transport_error stage hint true).
Definition map_body_error (e : ReqwestError) : LlmError :=
  if re_timeout e then LlmError.Timeout (timeout_error TimeoutStage.UnknownTransport)
  else LlmError.Transport (mk_transport_error ErrorStage.Body Maybe true).

(** ** Clients: [build_client] *)
Definition client_build_error : LlmError :=
  LlmError.Transport (mk_transport_error ErrorStage.Configuration No true).
Section Client.
Context {U : Urls} {UP : UrlParts} (env_var : string -> option string) (url_host_str : Url -> option string).
(** [reqwest]'s reading of certificates, identities and proxy addresses. *)
Context {Certificate Identity : Type}.
Context (from_pem_bundle : list ascii -> option (list Certificate)) (from_pem : list ascii -> option Identity).
Context (proxy_all : string -> bool).

Record ClientProxy := mk_client_proxy {
  cx_address : string; cx_basic_auth : option (string * string); cx_no_proxy : option string }.
(** The options given to the [ClientBuilder]. *)
Record ClientConfig := mk_client_config {
  cc_connect_timeout : Z; cc_redirect : RedirectPolicy; cc_pool_idle_timeout : Z; cc_pool_max_idle : Z;
  cc_tcp_keepalive : Z; cc_resolver : SecureDnsResolver; cc_http1_only : bool;
  cc_http2_keep_alive : option (Z * Z); cc_proxy : option ClientProxy;
  cc_min_tls : option MinimumTlsVersion; cc_roots : list Certificate; cc_identity : option Identity }.
Fixpoint add_roots (pems : list (list ascii)) (roots : list Certificate) : result LlmError (list Certificate) :=
  match pems with
  | [] => Ok roots
  | pem :: pems =>
      certificates ← ok_or (from_pem_bundle pem) client_build_error;
      add_roots pems (roots ++ certificates)
  end.
Definition apply_tls_policy (c : ClientConfig) (policy : NetworkPolicy) : result LlmError ClientConfig :=
  roots ← add_roots (tls_custom_roots (nw_tls policy)) (cc_roots c);
  identity ← match tls_client_identity (nw_tls policy) with
             | Some pem => identity ← ok_or (from_pem pem) client_build_error; Ok (Some identity)
             | None => Ok (cc_identity c)
             end;
  Ok (mk_client_config (cc_connect_timeout c) (cc_redirect c) (cc_pool_idle_timeout c) (cc_pool_max_idle c)
        (cc_tcp_keepalive c) (cc_resolver c) (cc_http1_only c) (cc_http2_keep_alive c) (cc_proxy c)
        (Some (tls_minimum_version (nw_tls policy))) roots identity).
Definition client_proxy (proxy : ExplicitProxy) : result LlmError ClientProxy :=
  if proxy_all (url_as_str (px_endpoint proxy))
  then Ok (mk_client_proxy (url_as_str (px_endpoint proxy))
             ((fun c => (pc_username c, pc_password c)) <$> px_credentials proxy)
             (if is_empty (np_entries (px_no_proxy proxy)) then None
              else Some (no_proxy_joined (px_no_proxy proxy))))
  else Err client_build_error.
Definition build_client (redirect : RedirectPolicy) (policy : NetworkPolicy) : result LlmError ClientConfig :=
  resolved_proxy ← proxy_resolve env_var (nw_proxy policy);
  let http1 := match pl_http_version (nw_pool policy) with Http1Only => true | Negotiate => false end in
  proxy ← match resolved_proxy with
          | Some proxy => proxy ← client_proxy proxy; Ok (Some proxy)
          | None => Ok None
          end;
  apply_tls_policy
    (mk_client_config (from_secs 10) redirect (pl_idle_timeout (nw_pool policy))
       (pl_max_idle_per_host (nw_pool policy)) (pl_tcp_keepalive (nw_pool policy))
       (resolver_for url_host_str policy resolved_proxy) http1
       (if http1 then None else Some (from_secs 30, from_secs 10)) proxy None [] None)
    policy.
(** The two clients of a transport, and the one a request takes. *)
Record ReqwestTransport := mk_reqwest_transport {
  rt_redirects_disabled : ClientConfig; rt_same_origin_redirects : ClientConfig; rt_policy : NetworkPolicy }.
Definition transport_with_policy (policy : NetworkPolicy) : result LlmError ReqwestTransport :=
  disabled ← build_client RedirectDisabled policy;
  same_origin ← build_client RedirectSameOrigin policy;
  Ok (mk_reqwest_transport disabled same_origin policy).
Definition client_for (t : ReqwestTransport) (p : RedirectPolicy) : ClientConfig :=
  match p with RedirectDisabled => rt_redirects_disabled t | RedirectSameOrigin => rt_same_origin_redirects t end.
End Client.

(** ** Bodies: [reqwest_body_stream] *)
Section Body.
Context {W H : Type} {WD : World W H} (lifecycle : Runner.Request).
(** The next item of [reqwest]'s byte stream, raced against the lifecycle. *)
Context (inner_next : option Z -> W -> W * race (option (result ReqwestError (list ascii)))).
(** One step of the unfolding from the [terminated] flag: an item with the next
    flag, or the end. *)
Definition body_step (terminated : bool) (w : W) : W * option (result LlmError (list ascii) * bool) :=
  if terminated then (w, None)
  else
    match await_with_lifecycle lifecycle inner_next w with
    | (w, Err error) => (w, Some (Err error, true))
    | (w, Ok None) => (w, None)
    | (w, Ok (Some (Ok bytes))) => (w, Some (Ok bytes, false))
    | (w, Ok (Some (Err error))) => (w, Some (Err (map_body_error error), true))
    end.
(** The items of the first [fuel] polls, and whether the stream has ended. *)
Fixpoint body_items (fuel : nat) (terminated : bool) (w : W) : W * list (result LlmError (list ascii)) * bool :=
  match fuel with
  | O => (w, [], false)
  | S fuel =>
      match body_step terminated w with
      | (w, None) => (w, [], true)
      | (w, Some (item, terminated)) =>
          let '(w, items, ended) := body_items fuel terminated w in (w, item :: items, ended)
      end
  end.
End Body.
