(* ===== verification/NetworkSpec.v ===== *)
(** * The network transport: where connections go

    The addresses the resolver hands out, the redirects the client follows, the
    bounds of every client a transport is built from, the body stream and the
    classification of failures. *)
From S2P Require Import Prelude Errors Domain Images Structured ChatWire Schema Options Reliability RetryAfter History Request RequestSpec Headers Contract Catalog Plan Endpoint EndpointSpec Response Runner Network.

(** ** Addresses *)
Definition ip_wf (a : IpAddr) : Prop := match a with V4 a => u32 a | V6 a => u128 a end.
Definition public_ip (a : IpAddr) : Prop :=
  match a with V4 a => outside reserved_ipv4 a | V6 a => public_v6 a end.
Lemma public_address_spec a : ip_wf a -> public_address a = true <-> public_ip a.
Proof. destruct a; [apply public_ipv4_exact|apply public_ipv6_exact]. Qed.

(** The place of an address under a preference: smaller comes first. *)
Definition rank (p : IpPreference) (a : IpAddr) : Z :=
  match p with IpSystem => 0 | Ipv4First => Z.b2z (is_ipv6 a) | Ipv6First => Z.b2z (negb (is_ipv6 a)) end.
(** A stable sort: the addresses of each place in their order, the places ascending. *)
Definition stably_sorted (p : IpPreference) (found l : list IpAddr) : Prop :=
  l ≡ₚ found /\ StronglySorted (fun a b => rank p a <= rank p b) l /\
  forall k, List.filter (fun a => rank p a =? k) l = List.filter (fun a => rank p a =? k) found.

Section TwoPlaces.
Context {A : Type} (q : A -> bool) (r : A -> Z) (Hr : forall a, r a = Z.b2z (q a)).
#[local] Abbreviation parted l := (List.filter (fun a => negb (q a)) l ++ List.filter q l).

Lemma filter_twice (f g : A -> bool) l :
  List.filter f (List.filter g l) = List.filter (fun a => g a && f a) l.
Proof. induction l as [|a l IH]; simpl; [done|]. destruct (g a); simpl; [destruct (f a)|]; by rewrite IH. Qed.
Lemma parted_perm (l : list A) : parted l ≡ₚ l.
Proof.
  induction l as [|a l IH]; simpl; [done|]. destruct (q a); simpl; [|by f_equiv].
  by rewrite <- Permutation_middle, IH.
Qed.
Lemma filter_holds (f : A -> bool) l : Forall (fun a => f a = true) (List.filter f l).
Proof. apply Forall_forall. intros a Ha%list_elem_of_In%filter_In. apply Ha. Qed.
Lemma parted_sorted (l : list A) : StronglySorted (fun a b => r a <= r b) (parted l).
Proof.
  pose proof (filter_holds q l) as Hy. pose proof (filter_holds (fun a => negb (q a)) l) as Hn.
  induction Hn as [|a no Ha _ IH]; simpl.
  - induction Hy as [|b yes Hb Hy IH]; constructor; [done|]. eapply Forall_impl; [exact Hy|].
    intros c Hc. simpl in Hc. rewrite !Hr, Hb, Hc. lia.
  - constructor; [done|]. apply Forall_true. intros x. rewrite !Hr. apply negb_true_iff in Ha as ->.
    destruct (q x); simpl; lia.
Qed.
Lemma parted_stable (l : list A) k :
  List.filter (fun a => r a =? k) (parted l) = List.filter (fun a => r a =? k) l.
Proof.
  rewrite List.filter_app, !filter_twice.
  destruct (Z.eq_dec k 0) as [->|H0]; [|destruct (Z.eq_dec k 1) as [->|H1]].
  - rewrite (filter_ext (fun a => q a && (r a =? 0)) (fun _ => false)), filter_false, app_nil_r
      by (intros a; rewrite Hr; by destruct (q a)).
    apply filter_ext. intros a. rewrite Hr. by destruct (q a).
  - rewrite (filter_ext (fun a => negb (q a) && (r a =? 1)) (fun _ => false)), filter_false
      by (intros a; rewrite Hr; by destruct (q a)).
    apply filter_ext. intros a. rewrite Hr. by destruct (q a).
  - assert (forall a, (r a =? k) = false) as Hk by (intros a; rewrite Hr; apply Z.eqb_neq; destruct (q a); simpl; lia).
    assert (forall f : A -> bool, (forall a, f a = false) -> List.filter f l = []) as Hnone
      by (intros f Hf; rewrite (filter_ext f (fun _ => false)) by done; apply filter_false).
    rewrite !Hnone; [done|intros a; by rewrite Hk, ?andb_false_r..].
Qed.
End TwoPlaces.

Lemma sort_addresses_spec p l : stably_sorted p l (sort_addresses p l).
Proof.
  destruct p; simpl.
  - split_and!; [done| |done]. induction l; constructor; [done|]. by apply Forall_true.
  - split_and!; [apply parted_perm|by apply parted_sorted|intros k; by apply parted_stable].
  - assert (forall l, List.filter is_ipv6 l = List.filter (fun a => negb (negb (is_ipv6 a))) l) as E
      by (intros; apply filter_ext; intros; by rewrite negb_involutive).
    rewrite E. split_and!; [apply parted_perm|by apply parted_sorted|intros k; by apply parted_stable].
Qed.

Lemma resolved_addresses_ok p l : is_ok (validate_resolved_addresses p l) = true <->
  l <> [] /\ Forall (fun a => match np_mode p with Production => public_address a | TestOnly => loopback_address a end = true) l.
Proof.
  unfold validate_resolved_addresses, configuration_if. destruct l as [|a l]; [simpl; naive_solver|].
  cbn [is_empty result_bind]. split.
  - destruct (forallb _ _) eqn:E; [|done]. intros _. split; [done|]. rewrite forallb_forall in E.
    apply Forall_forall. intros x Hx%list_elem_of_In. specialize (E x Hx). by destruct (np_mode p).
  - intros [_ H]. replace (forallb _ _) with true; [done|]. symmetry. apply forallb_forall.
    intros x Hx%list_elem_of_In. rewrite Forall_forall in H. specialize (H x Hx). by destruct (np_mode p).
Qed.

(** The name the resolver looks up. *)
Definition looked_up (name : string) : string := to_ascii_lowercase (trim_end_matches "." name).
(** What the addresses of a name may be, for a resolver. *)
Definition reachable (r : SecureDnsResolver) (name : string) (l : list IpAddr) : Prop :=
  looked_up name ∈ rv_allowed_private_hosts r \/
  l <> [] /\ Forall (fun a => if str_eqb (looked_up name) "localhost" then loopback_address a = true else public_ip a) l.
Lemma looked_up_lower name : eq_ignore_ascii_case (looked_up name) "localhost" = str_eqb (looked_up name) "localhost".
Proof.
  unfold eq_ignore_ascii_case, looked_up. change (to_ascii_lowercase "localhost") with "localhost".
  by rewrite (is_lower_id (to_ascii_lowercase _)) by apply lowercase_is_lower.
Qed.
Lemma dns_resolve_spec r lookup name l :
  (forall host found, lookup host = Some found -> Forall ip_wf found) ->
  dns_resolve r lookup name = Some l <->
  exists found, lookup (looked_up name) = Some found /\ l = sort_addresses (rv_preference r) found /\ reachable r name found.
Proof.
  intros Hw. unfold dns_resolve. fold (looked_up name). rewrite looked_up_lower.
  destruct (lookup (looked_up name)) as [found|] eqn:El; simpl; [|naive_solver].
  specialize (Hw _ _ El).
  assert (forall b : bool, is_ok (validate_resolved_addresses (if b then test_loopback else public_https) found) = true <->
    found <> [] /\ Forall (fun a => if b then loopback_address a = true else public_ip a) found) as Hv.
  { intros b. rewrite resolved_addresses_ok. f_equiv. destruct b; simpl; [done|].
    rewrite !Forall_forall. rewrite Forall_forall in Hw. split; intros H a Ha; by apply public_address_spec, H; auto. }
  enough (bool_decide (looked_up name ∈ rv_allowed_private_hosts r)
          || is_ok (validate_resolved_addresses (if str_eqb (looked_up name) "localhost"
               || bool_decide (looked_up name ∈ rv_allowed_private_hosts r) then test_loopback else public_https) found)
          = true <-> reachable r name found) as He.
  { destruct (_ || is_ok _); naive_solver. }
  unfold reachable. rewrite <- Hv, orb_true_iff, bool_decide_eq_true.
  case_bool_decide; [naive_solver|]. by rewrite orb_false_r.
Qed.

(** The resolver answers exactly when the lookup of the lowercased name
    without its root dot answers and either the name is the configured proxy's or
    there is an address and all of them are public, for [localhost] all loopback;
    the answer is the lookup's, stably ordered by the preferred family. *)
Theorem resolver_exact r lookup name :
  (forall host found, lookup host = Some found -> Forall ip_wf found) ->
  (forall l, dns_resolve r lookup name = Some l -> exists found, lookup (looked_up name) = Some found /\
     reachable r name found /\ stably_sorted (rv_preference r) found l) /\
  (forall found, lookup (looked_up name) = Some found -> reachable r name found ->
     is_Some (dns_resolve r lookup name)).
Proof.
  intros Hw. split.
  - intros l (found & Hf & -> & Hr)%dns_resolve_spec; [|done]. exists found. split_and!; [done..|].
    apply sort_addresses_spec.
  - intros found Hf Hr. exists (sort_addresses (rv_preference r) found). apply dns_resolve_spec; [done|]. by exists found.
Qed.

Lemma trim_end_id c s : ends_with (String c EmptyString) s = false -> trim_end_matches c s = s.
Proof.
  unfold ends_with, trim_end_matches. change (rev (bytes_of (String c EmptyString))) with [c].
  intros H. replace (trim_start_list c (rev (bytes_of s))) with (rev (bytes_of s));
    [by rewrite rev_involutive, str_of_bytes_of|].
  destruct (rev (bytes_of s)) as [|b l]; [done|]. simpl in *. rewrite andb_true_r, Ascii.eqb_sym in H. by rewrite H.
Qed.
Lemma public_not_localhost name : public_domain name -> ends_with "." name = false -> looked_up name <> "localhost".
Proof.
  intros [Hp _] Hd Hl. unfold looked_up in Hl. rewrite trim_end_id in Hl by done.
  apply Hp. unfold labels. rewrite Hl. reflexivity.
Qed.

Section Connections.
Context {U : Urls} {UP : UrlParts} {UL : UrlLaws} (env_var : string -> option string) (url_host_str : Url -> option string).
Context {Certificate Identity : Type}.
Context (from_pem_bundle : list ascii -> option (list Certificate)) (from_pem : list ascii -> option Identity).
Context (proxy_all : string -> bool).
#[local] Abbreviation build := (build_client env_var url_host_str from_pem_bundle from_pem proxy_all).

(** What the client of a policy is made of. *)
Lemma apply_tls_ok (c c' : ClientConfig) policy : apply_tls_policy from_pem_bundle from_pem c policy = Ok c' ->
  cc_connect_timeout c' = cc_connect_timeout c /\ cc_redirect c' = cc_redirect c /\
  cc_pool_idle_timeout c' = cc_pool_idle_timeout c /\ cc_pool_max_idle c' = cc_pool_max_idle c /\
  cc_tcp_keepalive c' = cc_tcp_keepalive c /\ cc_resolver c' = cc_resolver c /\ cc_proxy c' = cc_proxy c /\
  cc_min_tls c' = Some (tls_minimum_version (nw_tls policy)).
Proof.
  unfold apply_tls_policy. rewrite bind_ok. intros (roots & _ & H). rewrite bind_ok in H.
  destruct H as (identity & _ & [= <-]). by split_and!.
Qed.
Lemma build_client_ok redirect policy c : build redirect policy = Ok c -> exists proxy,
  proxy_resolve env_var (nw_proxy policy) = Ok proxy /\
  cc_resolver c = resolver_for url_host_str policy proxy /\ cc_redirect c = redirect /\
  cc_connect_timeout c = from_secs 10 /\ cc_pool_idle_timeout c = pl_idle_timeout (nw_pool policy) /\
  cc_pool_max_idle c = pl_max_idle_per_host (nw_pool policy) /\
  cc_tcp_keepalive c = pl_tcp_keepalive (nw_pool policy) /\
  cc_min_tls c = Some (tls_minimum_version (nw_tls policy)) /\
  match proxy with
  | Some p => exists x, client_proxy proxy_all p = Ok x /\ cc_proxy c = Some x
  | None => cc_proxy c = None
  end.
Proof.
  unfold build_client. rewrite bind_ok. intros (proxy & Hp & H). exists proxy. rewrite bind_ok in H.
  destruct H as (x & Hx & (Hc & Hr & Hi & Hm & Hk & Hs & Hy & Ht)%apply_tls_ok). simpl in *.
  split_and!; try done. destruct proxy as [p|].
  - rewrite bind_ok in Hx. destruct Hx as (y & Hy' & [= <-]). by exists y.
  - by injection Hx as <-.
Qed.

(** Without a proxy a client resolves a name other than [localhost] to public
    addresses. *)
Lemma resolver_public redirect policy client name lookup l :
  nw_proxy policy = ProxyDisabled -> build redirect policy = Ok client -> looked_up name <> "localhost" ->
  (forall host found, lookup host = Some found -> Forall ip_wf found) ->
  dns_resolve (cc_resolver client) lookup name = Some l -> l <> [] /\ Forall public_ip l.
Proof.
  intros Hproxy (proxy & Hr & Hs & _)%build_client_ok Hp Hw Hl. rewrite Hproxy in Hr. injection Hr as <-.
  apply dns_resolve_spec in Hl as (found & _ & -> & Hreach); [|done].
  destruct (sort_addresses_spec (rv_preference (cc_resolver client)) found) as [Hperm _].
  destruct Hreach as [Hin|[Hne Hall]]; [by rewrite Hs in Hin; apply not_elem_of_empty in Hin|].
  rewrite <- str_eqb_spec, not_true_iff_false in Hp. rewrite Hp in Hall.
  split; [intros E; rewrite E in Hperm; by apply Permutation_nil in Hperm|]. by rewrite Hperm.
Qed.

(** A connection to a production endpoint reaches public addresses only: the
    client of a policy without a proxy resolves the endpoint's name, unless it is
    written with a root dot, to at least one address, all of them public. *)
Theorem production_connection_public c v ep redirect policy client name lookup l :
  endpoint_resolve c Production v = Ok ep -> url_host (ep_url ep) = Some (HostDomain name) ->
  ends_with "." name = false ->
  nw_proxy policy = ProxyDisabled -> build redirect policy = Ok client ->
  (forall host found, lookup host = Some found -> Forall ip_wf found) ->
  dns_resolve (cc_resolver client) lookup name = Some l ->
  l <> [] /\ Forall public_ip l.
Proof.
  intros ((_ & _ & _ & h & Hh & [_ Hp] & _) & _)%endpoint_resolve_ok Hn Hd Hproxy Hb Hw Hl.
  rewrite Hn in Hh. injection Hh as <-. apply (resolver_public redirect policy client name lookup); try done.
  by apply public_not_localhost.
Qed.

(** ** Redirects *)

(** The URLs of a request and of the redirects followed, in order. *)
Inductive redirect_chain : list Url -> Prop :=
| chain_start u : redirect_chain [u]
| chain_next previous next : redirect_chain previous -> follow_redirect previous next = true ->
    redirect_chain (previous ++ [next]).
Definition redirect_target (initial next : Url) : Prop :=
  url_username next = EmptyString /\ url_password next = None /\ url_query next = None /\
  url_fragment next = None /\
  exists o, origin_from_url initial = Ok o /\ origin_from_url next = Ok o.
Lemma follow_redirect_spec initial rest next :
  follow_redirect (initial :: rest) next = true <-> (length rest < 5)%nat /\ redirect_target initial next.
Proof.
  unfold follow_redirect, redirect_target, MAX_REDIRECTS. simpl length.
  destruct (5 <? Z.of_nat (S (length rest))) eqn:E; [apply Z.ltb_lt in E; split; [done|lia]|apply Z.ltb_ge in E].
  destruct (origin_from_url initial) as [o|e1]; [|split; [done|by intros [_ (_ & _ & _ & _ & o & [=] & _)]]].
  destruct (origin_from_url next) as [o'|e2]; [|split; [done|by intros [_ (_ & _ & _ & _ & o2 & _ & [=])]]].
  rewrite !andb_true_iff, !negb_true_iff, !bool_decide_eq_false, bool_decide_eq_true, <- !eq_None_not_Some.
  split.
  - intros [[[[[Hu ?] ?] ?] <-] _]. split; [lia|]. split_and!; [by destruct (url_username next)|done..|by exists o].
  - intros [_ (-> & -> & -> & -> & o'' & [= <-] & [= <-])]. split_and!; try done. by destruct (str_eqb _ _).
Qed.

(** The redirect policy follows exactly the chains of at most five redirects
    each of whose targets has the origin of the first request and neither user
    information, query nor fragment. *)
Theorem redirect_chains_exact u rest :
  redirect_chain (u :: rest) <-> (length rest <= 5)%nat /\ Forall (redirect_target u) rest.
Proof.
  split.
  - remember (u :: rest) as us eqn:E. intros H. revert rest E.
    induction H as [w|previous next Hp IH Hf]; intros rest E; [injection E as <- <-; split; [simpl; lia|constructor]|].
    destruct previous as [|w previous]; [done|]. injection E as -> <-.
    apply follow_redirect_spec in Hf as [Hlt Ht]. destruct (IH previous eq_refl) as [_ Hall].
    rewrite length_app, Forall_app. split; [simpl; lia|]. auto.
  - intros [Hn Hf]. induction rest as [|next rest IH] using rev_ind; [apply chain_start|].
    rewrite length_app in Hn. simpl in Hn. rewrite Forall_app, Forall_singleton in Hf. destruct Hf as [Hf Ht].
    change (u :: rest ++ [next]) with ((u :: rest) ++ [next]). apply chain_next; [apply IH; [lia|done]|].
    apply follow_redirect_spec. split; [lia|done].
Qed.

(** ** Bounds *)

(** The values the builders can produce. *)
Inductive built_no_proxy : NoProxyList -> Prop :=
| no_proxy_none : built_no_proxy no_proxy_default
| no_proxy_some entries l : no_proxy_new entries = Ok l -> built_no_proxy l.
Inductive built_proxy : ExplicitProxy -> Prop :=
| proxy_made text p : explicit_proxy_new text = Ok p -> built_proxy p
| proxy_credentials name password c p : proxy_credentials_new name password = Ok c ->
    built_proxy p -> built_proxy (with_credentials c p)
| proxy_no_proxy l p : built_no_proxy l -> built_proxy p -> built_proxy (with_no_proxy l p).
Inductive built_dns : DnsPolicy -> Prop :=
| dns_made : built_dns dns_secure_defaults
| dns_timed t d d' : 0 <= t -> built_dns d -> with_dns_timeout t d = Ok d' -> built_dns d'
| dns_preferred p d : built_dns d -> built_dns (with_ip_preference p d).
Inductive built_pool : ConnectionPoolPolicy -> Prop :=
| pool_made : built_pool pool_secure_defaults
| pool_idle t d d' : 0 <= t -> built_pool d -> with_idle_timeout t d = Ok d' -> built_pool d'
| pool_max n d d' : 0 <= n -> built_pool d -> with_max_idle_per_host n d = Ok d' -> built_pool d'
| pool_keepalive t d d' : 0 <= t -> built_pool d -> with_tcp_keepalive t d = Ok d' -> built_pool d'
| pool_version v d : built_pool d -> built_pool (with_http_version v d).
Inductive built_network : NetworkPolicy -> Prop :=
| network_made : built_network network_secure_defaults
| network_proxy p n : match p with ProxyExplicit x => built_proxy x | _ => True end ->
    built_network n -> built_network (with_proxy p n)
| network_tls t n : built_network n -> built_network (with_tls t n)
| network_dns d n : built_dns d -> built_network n -> built_network (with_dns d n)
| network_pool p n : built_pool p -> built_network n -> built_network (with_pool p n).

Definition control_free (s : string) : Prop := contains_any control_chars s = false.
Definition no_proxy_bounds (l : NoProxyList) : Prop :=
  (Z.of_nat (length (np_entries l)) <= MAX_NO_PROXY_ENTRIES /\ total_len (np_entries l) <= MAX_NO_PROXY_BYTES) /\
  Forall (fun e => e <> EmptyString /\ control_free e /\ str_contains "," e = false) (np_entries l).
Definition proxy_bounds (p : ExplicitProxy) : Prop :=
  no_proxy_bounds (px_no_proxy p) /\ proxy_shape_bad (px_endpoint p) = false /\
  match px_credentials p with
  | Some c => pc_username c <> EmptyString /\ pc_password c <> EmptyString /\
      control_free (pc_username c) /\ control_free (pc_password c) /\
      str_len (pc_username c) + str_len (pc_password c) <= MAX_PROXY_CREDENTIAL_BYTES
  | None => True
  end.
Lemma no_proxy_default_ok : no_proxy_bounds no_proxy_default.
Proof. split; [|constructor]. vm_compute. split; discriminate. Qed.
Lemma no_proxy_new_ok entries l : no_proxy_new entries = Ok l -> np_entries l = entries /\ no_proxy_bounds l.
Proof.
  unfold no_proxy_new, no_proxy_bounds. destruct (_ <? _) eqn:E1; [done|]. destruct (MAX_NO_PROXY_BYTES <? _) eqn:E2; [done|].
  destruct (existsb _ _) eqn:E3; [done|]. intros [= <-]. apply Z.ltb_ge in E1, E2. simpl. split; [done|]. split; [done|].
  apply Forall_forall. intros e He%list_elem_of_In.
  assert (no_proxy_entry_bad e = false) as H.
  { apply not_true_iff_false. intros H. rewrite <- not_true_iff_false, existsb_exists in E3. apply E3. by exists e. }
  unfold no_proxy_entry_bad in H. rewrite !orb_false_iff in H. destruct H as [[[H1 _] H2] H3].
  split_and!; [by intros ->|done..].
Qed.
Lemma proxy_made_bounds text p : explicit_proxy_new text = Ok p -> proxy_bounds p /\ px_credentials p = None.
Proof.
  unfold explicit_proxy_new. destruct (_ <? _); [done|]. rewrite bind_ok. intros (u & _ & H).
  destruct (proxy_shape_bad u) eqn:E; [done|]. injection H as <-.
  split; [|reflexivity]. split; [exact no_proxy_default_ok|]. by split.
Qed.
Lemma credentials_ok name password c : proxy_credentials_new name password = Ok c ->
  pc_username c <> EmptyString /\ pc_password c <> EmptyString /\
  control_free (pc_username c) /\ control_free (pc_password c) /\
  str_len (pc_username c) + str_len (pc_password c) <= MAX_PROXY_CREDENTIAL_BYTES.
Proof.
  unfold proxy_credentials_new. destruct (_ || _) eqn:E1; [done|]. destruct (_ <? _) eqn:E2; [done|].
  destruct (contains_any _ _ || _) eqn:E3; [done|]. intros [= <-]. simpl. apply orb_false_iff in E1 as [E1 E1'], E3 as [E3 E3'].
  apply Z.ltb_ge, Z.min_le_iff in E2 as [E2|E2]; [|by vm_compute in E2].
  split; [intros ->; discriminate|]. split; [intros ->; discriminate|]. by repeat split.
Qed.
Lemma built_proxy_bounds p : built_proxy p -> proxy_bounds p.
Proof.
  induction 1 as [text p H|name password c p H _ (H1 & H2 & _)|l p Hl _ (H1 & H2 & H3)].
  - by eapply proxy_made_bounds.
  - split_and!; [done..|]. by eapply credentials_ok.
  - split_and!; [|done..]. destruct Hl as [|entries l Hl]; [exact no_proxy_default_ok|by eapply no_proxy_new_ok].
Qed.
Lemma environment_proxy_bounds p : resolve_environment_proxy env_var = Ok (Some p) ->
  proxy_bounds p /\ px_credentials p = None.
Proof.
  unfold resolve_environment_proxy. destruct (first_env env_var _) as [raw|]; [|done]. rewrite bind_ok.
  intros (x & Hx & H). unfold validation_llm in Hx. destruct (explicit_proxy_new raw) as [x'|] eqn:Ex; [|done].
  injection Hx as ->. destruct (proxy_made_bounds raw x Ex) as [(_ & Hs & _) _]. rewrite bind_ok in H.
  destruct H as (l & Hl & [= <-]). split; [|done]. split; [|by split].
  destruct (first_env env_var _) as [raw'|]; [|injection Hl as <-; exact no_proxy_default_ok].
  unfold validation_llm in Hl. destruct (no_proxy_new _) as [l'|] eqn:En; [|done]. injection Hl as ->.
  by eapply no_proxy_new_ok.
Qed.
Lemma resolved_proxy_bounds policy p : built_network policy -> proxy_resolve env_var (nw_proxy policy) = Ok (Some p) ->
  proxy_bounds p.
Proof.
  intros Hb Hr. assert (match nw_proxy policy with ProxyExplicit x => built_proxy x | _ => True end) as Hx
    by (clear Hr; induction Hb; done).
  destruct (nw_proxy policy) as [| |x]; [done|by eapply environment_proxy_bounds|].
  injection Hr as ->. by apply built_proxy_bounds.
Qed.

Definition within (maximum d : Z) : Prop := 0 < d <= maximum.
Lemma validate_duration_ok {A} field d maximum (k r : A) : 0 <= d ->
  (_ ← validate_duration field d maximum; Ok k) = Ok r -> within maximum d /\ r = k.
Proof.
  unfold validate_duration, within. destruct (d =? 0) eqn:E; [done|]. destruct (_ <? _) eqn:E'; [done|].
  intros Hd [= <-]. split; [lia|done].
Qed.
Definition pool_bounds (p : ConnectionPoolPolicy) : Prop :=
  within MAX_POOL_IDLE_TIMEOUT (pl_idle_timeout p) /\ within MAX_POOL_IDLE_TIMEOUT (pl_tcp_keepalive p) /\
  0 <= pl_max_idle_per_host p <= MAX_IDLE_PER_HOST.
Lemma built_dns_bounds d : built_dns d -> within MAX_DNS_TIMEOUT (dns_timeout d).
Proof.
  induction 1 as [|t d d' Ht _ _ H|]; [by vm_compute| |done].
  by apply validate_duration_ok in H as [Hw ->].
Qed.
Lemma built_pool_bounds p : built_pool p -> pool_bounds p.
Proof.
  induction 1 as [|t d d' Ht _ (H1 & H2 & H3) H|n d d' Hn _ (H1 & H2 & H3) H|t d d' Ht _ (H1 & H2 & H3) H|]; [..|done].
  - vm_compute. repeat split; discriminate.
  - by apply validate_duration_ok in H as [Hw ->].
  - unfold with_max_idle_per_host in H. destruct (_ <? _) eqn:E; [done|]. injection H as <-.
    apply Z.ltb_ge in E. by split_and!.
  - by apply validate_duration_ok in H as [Hw ->].
Qed.
Lemma built_network_bounds n : built_network n ->
  within MAX_DNS_TIMEOUT (dns_timeout (nw_dns n)) /\ pool_bounds (nw_pool n).
Proof.
  induction 1 as [|p n _ _ IH|t n _ IH|d n Hd _ [_ IH]|p n Hp _ [IH _]].
  - split; [apply built_dns_bounds, dns_made|apply built_pool_bounds, pool_made].
  - exact IH.
  - exact IH.
  - split; [by apply built_dns_bounds|done].
  - split; [done|by apply built_pool_bounds].
Qed.

(** Every client of a transport keeps the limits of the SDK, however its
    policy was assembled: positive lookup, idle and keep-alive times of at most
    thirty seconds and ten minutes, at most 64 idle connections, redirects as
    asked for, proxy credentials that are present, short and free of control
    characters and not the environment's, and no private name but the proxy's. *)
Theorem client_bounded policy redirect c : built_network policy -> build redirect policy = Ok c ->
  cc_redirect c = redirect /\ cc_connect_timeout c = from_secs 10 /\
  within (from_secs 30) (rv_timeout (cc_resolver c)) /\
  within (from_mins 10) (cc_pool_idle_timeout c) /\ within (from_mins 10) (cc_tcp_keepalive c) /\
  0 <= cc_pool_max_idle c <= 64 /\ is_Some (cc_min_tls c) /\
  (nw_proxy policy = ProxyDisabled -> cc_proxy c = None /\ rv_allowed_private_hosts (cc_resolver c) = ∅) /\
  (forall x, cc_proxy c = Some x ->
     (size (rv_allowed_private_hosts (cc_resolver c)) <= 1)%nat /\
     (nw_proxy policy = ProxyEnvironment -> cx_basic_auth x = None) /\
     forall name password, cx_basic_auth x = Some (name, password) ->
       name <> EmptyString /\ password <> EmptyString /\ control_free name /\ control_free password /\
       str_len name + str_len password <= 512).
Proof.
  intros Hb (proxy & Hp & Hr & Hd & Hc & Hi & Hm & Hk & Ht & Hx)%build_client_ok.
  destruct (built_network_bounds policy Hb) as (Hdns & Hidle & Hkeep & Hmin & Hmax).
  rewrite Hr, Hi, Hm, Hk, Ht. split_and!; try done.
  - intros E. rewrite E in Hp. injection Hp as <-. by split.
  - intros x Ex. destruct proxy as [p|]; [|congruence]. destruct Hx as (y & Hy & E). rewrite Ex in E. injection E as <-.
    unfold client_proxy in Hy. destruct (proxy_all _); [|done]. injection Hy as <-. simpl. split_and!.
    + destruct (url_host_str _); [by rewrite size_singleton|by rewrite size_empty; lia].
    + intros E. rewrite E in Hp. apply environment_proxy_bounds in Hp as [_ ->]. done.
    + intros name password Hauth. destruct (resolved_proxy_bounds policy p Hb Hp) as (_ & _ & Hcr).
      destruct (px_credentials p) as [cr|]; [|done]. by injection Hauth as <- <-.
Qed.
End Connections.

(** ** Bodies *)
Section Bodies.
Context {W H : Type} {WD : World W H} (lifecycle : Runner.Request).
Context (inner_next : option Z -> W -> W * race (option (result ReqwestError (list ascii)))).

Lemma body_items_ended fuel w : body_items lifecycle inner_next (S fuel) true w = (w, [], true).
Proof. done. Qed.
(** The body of a response is chunks, then at most one error: the stream ends
    at the poll after the error, of the connection or of the lifecycle, and a
    cancelled request gets exactly that error. *)
Theorem body_error_is_last fuel w :
  (let '(_, items, ended) := body_items lifecycle inner_next fuel false w in
   exists chunks : list (list ascii),
     items = map Ok chunks /\ (ended = false -> length chunks = fuel) \/
     exists e, items = map Ok chunks ++ [Err e] /\ (ended = false -> (length chunks + 1)%nat = fuel)) /\
  (w_cancelled w = true -> body_items lifecycle inner_next (S (S fuel)) false w = (w, [Err LlmError.Cancelled], true)).
Proof.
  split.
  - revert w. induction fuel as [|fuel IH]; intros w; simpl; [exists []; by left|].
    unfold body_step. destruct (await_with_lifecycle lifecycle inner_next w) as [w' [[[chunk|e]|]|e]].
    + specialize (IH w'). revert IH. destruct (body_items _ _ _ _ _) as [[w'' items] ended].
      intros (chunks & [[-> He]|(e & -> & He)]); exists (chunk :: chunks); [left|right; exists e];
        simpl; (split; [done|]); intros E; by rewrite <- He.
    + destruct fuel; exists []; right; exists (map_body_error e); by split.
    + exists []. by left.
    + destruct fuel; exists []; right; exists e; by split.
  - intros Hc. simpl. unfold body_step, await_with_lifecycle, await_with_stage, lifecycle_preflight. by rewrite Hc.
Qed.
End Bodies.

(** ** Failures *)

(** A [rustls] error within [n] steps through carried errors and sources. *)
Inductive holds_tls : nat -> StdError -> Prop :=
| tls_here n inner source : holds_tls n (mk_std_error true inner source)
| tls_carried n b e source : holds_tls n e -> holds_tls (S n) (mk_std_error b (Some e) source)
| tls_source n b inner e : holds_tls n e -> holds_tls (S n) (mk_std_error b inner (Some e)).
Lemma contains_tls_spec n e : (n <= 13)%nat -> contains_tls_error (13 - Z.of_nat n) e = true <-> holds_tls n e.
Proof.
  revert e. induction n as [|n IH]; intros [[] inner source] Hn; cbn [contains_tls_error]; rewrite ?orb_true_r.
  1,3: split; [constructor|done].
  - split; [done|]. inversion 1.
  - replace (12 <? 13 - Z.of_nat (S n)) with false by (symmetry; apply Z.ltb_ge; lia).
    replace (13 - Z.of_nat (S n) + 1) with (13 - Z.of_nat n) by lia. simpl. rewrite orb_true_iff. split.
    + intros [E|E]; [destruct inner as [e|]|destruct source as [e|]]; try done;
        apply IH in E; try lia; by constructor.
    + inversion 1; subst; [left|right]; (apply IH; [lia|done]).
Qed.
(** A failure before the response is reported as one of TLS exactly when it is a
    connect error, not a timeout, with a [rustls] error within thirteen causes. *)
Theorem tls_failures_exact e :
  map_start_error e = LlmError.Transport (mk_transport_error ErrorStage.Tls Maybe true) <->
  re_timeout e = false /\ re_connect e = true /\ holds_tls 13 (re_error e).
Proof.
  rewrite <- (contains_tls_spec 13) by lia. change (13 - Z.of_nat 13) with 0. unfold map_start_error, is_tls_error.
  destruct (re_timeout e), (re_connect e), (re_body e), (contains_tls_error 0 (re_error e)); naive_solver.
Qed.

(** ** Examples *)
#[local] Existing Instance record_urls.
#[local] Existing Instance record_parts.
#[local] Existing Instance record_laws.
Definition example_lookup (host : string) : option (list IpAddr) :=
  if str_eqb host "eu.example.com" then Some [V6 (2 ^ 125 + 1); V4 (ipv4 20 50 2 10)]
  else if str_eqb host "localhost" then Some [V4 (ipv4 127 0 0 1)]
  else None.
Lemma example_lookup_wf host found : example_lookup host = Some found -> Forall ip_wf found.
Proof.
  unfold example_lookup. destruct (str_eqb _ _); [intros [= <-]|destruct (str_eqb _ _); [intros [= <-]|done]];
    repeat constructor; vm_compute; discriminate.
Qed.
Definition example_policy : NetworkPolicy :=
  with_dns (with_ip_preference Ipv4First dns_secure_defaults) network_secure_defaults.
Definition example_host_str (u : Url) : option string := host_to_string <$> url_host u.
Definition example_build := build_client (fun _ => None) example_host_str
  (fun pem : list ascii => Some [pem]) (fun pem : list ascii => Some pem) (fun _ => true).
Definition example_client : ClientConfig (Certificate := list ascii) (Identity := list ascii) :=
  mk_client_config (from_secs 10) RedirectDisabled (from_secs 90) 8 (from_mins 1)
    (resolver_for example_host_str example_policy None) false (Some (from_secs 30, from_secs 10)) None (Some Tls12) [] None.
Example example_client_built : example_build RedirectDisabled example_policy = Ok example_client.
Proof. reflexivity. Qed.
Definition example_addresses : list IpAddr := [V4 (ipv4 20 50 2 10); V6 (2 ^ 125 + 1)].
Example example_resolved : dns_resolve (cc_resolver example_client) example_lookup "EU.example.com" = Some example_addresses.
Proof. vm_compute. reflexivity. Qed.

Lemma resolver_exact_witness :
  exists found, example_lookup (looked_up "EU.example.com") = Some found /\
    reachable (cc_resolver example_client) "EU.example.com" found /\ stably_sorted Ipv4First found example_addresses.
Proof.
  exact (proj1 (resolver_exact (cc_resolver example_client) example_lookup "EU.example.com" example_lookup_wf)
           example_addresses example_resolved).
Defined.
Lemma production_connection_public_witness : example_addresses <> [] /\ Forall public_ip example_addresses.
Proof.
  refine (production_connection_public (fun _ => None) example_host_str (fun pem : list ascii => Some [pem])
            (fun pem : list ascii => Some pem) (fun _ => true) example_config (Some (example_values "gpt/4 eu"))
            example_endpoint RedirectDisabled example_policy example_client "eu.example.com" example_lookup example_addresses
            _ _ _ _ example_client_built example_lookup_wf _).
  - vm_cast_no_check (eq_refl (@Ok LlmError _ example_endpoint)).
  - vm_compute. reflexivity.
  - reflexivity.
  - reflexivity.
  - vm_compute. reflexivity.
Defined.
Lemma client_bounded_witness :
  within (from_secs 30) (rv_timeout (cc_resolver example_client)) /\ 0 <= cc_pool_max_idle example_client <= 64.
Proof.
  assert (built_network example_policy) as Hb by exact (network_dns _ _ (dns_preferred _ _ dns_made) network_made).
  destruct (client_bounded (fun _ => None) example_host_str (fun pem : list ascii => Some [pem])
              (fun pem : list ascii => Some pem) (fun _ => true) example_policy RedirectDisabled example_client Hb example_client_built)
    as (_ & _ & Hd & _ & _ & Hm & _).
  split; [exact Hd|exact Hm].
Defined.

(** A root dot defeats both checks at once: the host [localhost.] is a production
    host, and the resolver, which drops the dot, hands out its loopback address. *)
Definition rooted_base : Url :=
  UrlRecord.mk "https" EmptyString None (Some (HostDomain "localhost.")) None "/v1" [] None.
Theorem rooted_localhost_is_reached :
  is_ok (endpoint_resolve (Absolute rooted_base) Production None) = true /\
  dns_resolve (cc_resolver example_client) example_lookup "localhost." = Some [V4 (ipv4 127 0 0 1)].
Proof. split; vm_compute; reflexivity. Qed.
