(* ===== verification/Auth.v ===== *)
(** * Authentication: [src/src/provider/auth.rs], [auth/providers.rs], [auth/dynamic.rs], [auth/cache.rs]

    The static providers and the dynamic one with its cache. A future is a
    function of the deadline of the wait around it and of the world; every
    await point inside it can end with that outer wait's cancellation or
    deadline, which drops the rest of the future. *)
From S2P Require Import Prelude Errors Usage Domain Images Structured ChatWire Schema Options Reliability Runner History Request Headers Contract Catalog Endpoint.

(** ** Futures *)
Section Futures.
Context {W : Type}.
(** A future of [T], polled inside a wait that ends at the given deadline. *)
Definition Future (T : Type) : Type := option Z -> W -> W * race T.
Definition fut_ready {T} (t : T) : Future T := fun _ w => (w, Output t).
Definition fut_bind {T S} (f : Future T) (k : T -> Future S) : Future S := fun deadline w =>
  match f deadline w with
  | (w, Output t) => k t deadline w
  | (w, CancelledFirst) => (w, CancelledFirst)
  | (w, DeadlineFirst) => (w, DeadlineFirst)
  end.
(** [.await?] on a future of a [Result]. *)
Definition fut_try {T S} (f : Future (result LlmError T)) (k : T -> Future (result LlmError S))
  : Future (result LlmError S) :=
  fut_bind f (fun r => match r with Ok t => k t | Err e => fut_ready (Err e) end).
Definition fut_update {T} (f : W -> W * T) : Future T := fun _ w => let '(w, t) := f w in (w, Output t).
End Futures.
Arguments Future : clear implicits.

(** ** Secrets *)
Record ApiKey := mk_api_key { ak_secret : string }.
(** [HeaderValue::to_str]. *)
Class HeaderText := header_value_to_str : list ascii -> option string.

Inductive AuthSchemeKind := SchemeBearer | SchemeApiKeyHeader | SchemeMultiHeader | SchemeDynamic | SchemeNone | SchemeCustom.
Inductive CredentialSourceKind := SourceStatic | SourceDynamic | SourceNone | SourceCustom.
#[global] Instance AuthSchemeKind_eq_dec : EqDecision AuthSchemeKind.
Proof. solve_decision. Defined.

Section Auth.
Context {W H : Type} {WD : World W H} {U : Urls} {UP : UrlParts} {HV : HttpValues} {HT : HeaderText}.

Definition api_key_new (value : string) : result LlmError ApiKey :=
  if str_is_empty value then invalid "api_key" ValidationReason.Empty "API key must not be empty"
  else if has_boundary_whitespace value
  then invalid "api_key" ValidationReason.BoundaryWhitespace "API key must not have boundary whitespace"
  else match header_value_from_str ("Bearer " +:+ value) with
       | None => invalid "api_key" ValidationReason.InvalidHeader "API key is not valid in a Bearer header"
       | Some _ => Ok (mk_api_key value)
       end.

Record BearerCredential := mk_bearer_credential { bc_key : ApiKey; bc_binding : CredentialBinding }.

(** The context of a resolution; the lifecycle is the logical request. *)
Record AuthContext := mk_auth_context {
  ax_endpoint : ResolvedEndpoint; ax_provider_id : option string; ax_product_id : option string;
  ax_lifecycle : option Runner.Request }.
Definition auth_context_new (endpoint : ResolvedEndpoint) : AuthContext :=
  mk_auth_context endpoint None None None.
Definition auth_context_for_attempt (endpoint : ResolvedEndpoint) (provider_id product_id : string)
    (lifecycle : Runner.Request) : AuthContext :=
  mk_auth_context endpoint (Some provider_id) (Some product_id) (Some lifecycle).

(** The operations of the [AuthProvider] trait. *)
Record AuthProvider := mk_auth_provider {
  ap_resolve : AuthContext -> Future W (result LlmError (list HeaderOperation.t));
  ap_resolve_immediate : AuthContext -> result LlmError (list HeaderOperation.t);
  ap_protected_headers : list string;
  ap_credential_binding : option CredentialBinding;
  ap_validate_endpoint : ResolvedEndpoint -> result LlmError unit;
  ap_validate_final : gmap string (list ascii) -> result LlmError unit;
  ap_scheme_kind : AuthSchemeKind;
  ap_credential_source_kind : CredentialSourceKind }.
Definition default_resolve_immediate (_ : AuthContext) : result LlmError (list HeaderOperation.t) :=
  Err (LlmError.Credential CredentialFailure.Unavailable).

(** ** Bearer *)
Record BearerAuth := mk_bearer_auth { ba_credential : BearerCredential }.
Definition bearer_operation (a : BearerAuth) (context : AuthContext) : result LlmError HeaderOperation.t :=
  _ ← binding_validate (bc_binding (ba_credential a)) (ax_endpoint context);
  match header_value_from_str ("Bearer " +:+ ak_secret (bc_key (ba_credential a))) with
  | None => invalid "authorization" ValidationReason.InvalidHeader "Bearer credential cannot form a header"
  | Some value => Ok (op_set_sensitive "authorization" value)
  end.
Definition bearer_validate_final (headers : gmap string (list ascii)) : result LlmError unit :=
  if is_some_and (fun value => starts_with (bytes_of "Bearer ") (bytes_of value) && (7 <? str_len value))
       (headers !! "authorization" ≫= header_value_to_str)
  then Ok tt
  else invalid "request_headers.authorization" ValidationReason.ProtectedHeader
         "Bearer auth provider must set authorization".
Definition bearer_immediate (a : BearerAuth) (context : AuthContext) : result LlmError (list HeaderOperation.t) :=
  o ← bearer_operation a context; Ok [o].
Definition bearer_auth (a : BearerAuth) : AuthProvider :=
  mk_auth_provider (fun context => fut_ready (bearer_immediate a context)) (bearer_immediate a)
    ["authorization"] (Some (bc_binding (ba_credential a)))
    (binding_validate (bc_binding (ba_credential a))) bearer_validate_final SchemeBearer SourceStatic.

(** ** Registered headers: [providers.rs] *)
Definition validate_auth_name (name : string) : result LlmError unit :=
  if (128 <? str_len name) || is_auth_ineligible_header name
  then invalid "auth.header_name" ValidationReason.ProtectedHeader "header belongs to a non-authentication owner"
  else Ok tt.
Definition invalid_auth_value {A} : result LlmError A :=
  invalid "auth.header_value" ValidationReason.InvalidHeader "credential cannot form an HTTP header value".
Definition protected_header_error (summary : string) : result LlmError unit :=
  invalid "request_headers.auth" ValidationReason.ProtectedHeader summary.
Definition contains_key (headers : gmap string (list ascii)) (name : string) : bool :=
  bool_decide (is_Some (headers !! name)).
Definition secret_header (name : string) (key : ApiKey) : result LlmError HeaderOperation.t :=
  match header_value_from_str (ak_secret key) with
  | None => invalid_auth_value
  | Some value => Ok (op_set_sensitive name value)
  end.

Record ApiKeyHeaderAuth := mk_api_key_header_auth {
  kh_name : string; kh_key : ApiKey; kh_binding : CredentialBinding }.
Definition api_key_header_auth_new (name : string) (key : ApiKey) (binding : CredentialBinding)
  : result LlmError ApiKeyHeaderAuth :=
  _ ← validate_auth_name name; Ok (mk_api_key_header_auth name key binding).
Definition api_key_header_operation (a : ApiKeyHeaderAuth) (context : AuthContext)
  : result LlmError HeaderOperation.t :=
  _ ← binding_validate (kh_binding a) (ax_endpoint context);
  secret_header (kh_name a) (kh_key a).
Definition api_key_header_validate_final (a : ApiKeyHeaderAuth) (headers : gmap string (list ascii))
  : result LlmError unit :=
  if contains_key headers (kh_name a) then Ok tt
  else protected_header_error "API-key auth provider must set its registered header".
Definition api_key_header_immediate (a : ApiKeyHeaderAuth) (context : AuthContext)
  : result LlmError (list HeaderOperation.t) := o ← api_key_header_operation a context; Ok [o].
Definition api_key_header_auth (a : ApiKeyHeaderAuth) : AuthProvider :=
  mk_auth_provider (fun context => fut_ready (api_key_header_immediate a context)) (api_key_header_immediate a)
    [kh_name a] (Some (kh_binding a)) (binding_validate (kh_binding a))
    (api_key_header_validate_final a) SchemeApiKeyHeader SourceStatic.

Record MultiHeaderAuth := mk_multi_header_auth {
  mh_entries : list (string * ApiKey); mh_binding : CredentialBinding }.
Fixpoint validate_entries (entries : list (string * ApiKey)) (names : gset string) : result LlmError unit :=
  match entries with
  | [] => Ok tt
  | (name, _) :: entries =>
      _ ← validate_auth_name name;
      if bool_decide (name ∈ names)
      then invalid "auth.multi_header" ValidationReason.InvalidHeader "multi-header auth contains a duplicate name"
      else validate_entries entries ({[name]} ∪ names)
  end.
Definition multi_header_auth_new (entries : list (string * ApiKey)) (binding : CredentialBinding)
  : result LlmError MultiHeaderAuth :=
  if is_empty entries || (8 <? Z.of_nat (length entries))
  then invalid "auth.multi_header" ValidationReason.OutOfRange "multi-header auth requires one to eight entries"
  else _ ← validate_entries entries ∅; Ok (mk_multi_header_auth entries binding).
Fixpoint secret_headers (entries : list (string * ApiKey)) : result LlmError (list HeaderOperation.t) :=
  match entries with
  | [] => Ok []
  | (name, key) :: entries =>
      o ← secret_header name key; os ← secret_headers entries; Ok (o :: os)
  end.
Definition multi_header_operations (a : MultiHeaderAuth) (context : AuthContext)
  : result LlmError (list HeaderOperation.t) :=
  _ ← binding_validate (mh_binding a) (ax_endpoint context);
  secret_headers (mh_entries a).
Definition multi_header_validate_final (a : MultiHeaderAuth) (headers : gmap string (list ascii))
  : result LlmError unit :=
  if forallb (fun e => contains_key headers e.1) (mh_entries a) then Ok tt
  else protected_header_error "multi-header auth provider must set its complete group".
Definition multi_header_auth (a : MultiHeaderAuth) : AuthProvider :=
  mk_auth_provider (fun context => fut_ready (multi_header_operations a context)) (multi_header_operations a)
    (mh_entries a).*1 (Some (mh_binding a)) (binding_validate (mh_binding a))
    (multi_header_validate_final a) SchemeMultiHeader SourceStatic.

Definition no_auth_validate_final (headers : gmap string (list ascii)) : result LlmError unit :=
  if contains_key headers "authorization" || contains_key headers "proxy-authorization"
  then protected_header_error "NoAuth runtime must not contain authorization headers"
  else Ok tt.
Definition no_auth : AuthProvider :=
  mk_auth_provider (fun _ => fut_ready (Ok [])) (fun _ => Ok []) [] None (fun _ => Ok tt)
    no_auth_validate_final SchemeNone SourceNone.
End Auth.
