(* ===== verification/Credentials.v ===== *)
(** * Dynamic credentials: [src/src/provider/auth/dynamic.rs] and [auth/cache.rs]

    Short-lived credentials, the shared cache that refreshes each of them once at
    a time, and the dynamic authentication provider. The two sections of
    [get_or_refresh] that run under the cache's lock are functions of the cache;
    [get_or_refresh] is the loop of one caller in a world that owns the cache,
    and [Tasks] is the interleaving of any number of callers. *)
From S2P Require Import Prelude Errors Usage Domain Images Structured ChatWire Schema Options Reliability Runner History Request Headers Contract Catalog Endpoint Auth.

(** ** Credentials *)

(** The constructor the [private_id!] macro gives to [TenantId] and
    [CredentialIdentity], which are strings here. *)
Definition private_id (field value : string) : result LlmError string :=
  if str_is_empty value then invalid field ValidationReason.Empty "identifier must not be empty"
  else if has_boundary_whitespace value
  then invalid field ValidationReason.BoundaryWhitespace "identifier must not have boundary whitespace"
  else if 256 <? str_len value then invalid field ValidationReason.OutOfRange "identifier exceeds 256 bytes"
  else Ok value.
Definition tenant_id_new : string -> result LlmError string := private_id "tenant_id".
Definition credential_identity_new : string -> result LlmError string := private_id "credential_identity".

Inductive DynamicCredentialScheme := DynBearer | DynApiKeyHeader (name : string).
#[global] Instance DynamicCredentialScheme_eq_dec : EqDecision DynamicCredentialScheme.
Proof. solve_decision. Defined.
#[global] Instance ApiKey_eq_dec : EqDecision ApiKey.
Proof. solve_decision. Defined.
Record DynamicCredential := mk_dynamic_credential {
  dc_key : ApiKey; dc_scheme : DynamicCredentialScheme; dc_expires_at : Z }.
#[global] Instance DynamicCredential_eq_dec : EqDecision DynamicCredential.
Proof. solve_decision. Defined.

Definition dynamic_credential_new (now : Z) (key : ApiKey) (scheme : DynamicCredentialScheme) (expires_at : Z)
  : result CredentialFailure.t DynamicCredential :=
  if expires_at <=? now then Err CredentialFailure.Invalid else Ok (mk_dynamic_credential key scheme expires_at).
Definition dynamic_bearer (now : Z) (key : ApiKey) (expires_at : Z) : result CredentialFailure.t DynamicCredential :=
  dynamic_credential_new now key DynBearer expires_at.
Definition dynamic_api_key_header (now : Z) (name : string) (key : ApiKey) (expires_at : Z)
  : result LlmError DynamicCredential :=
  _ ← validate_auth_name name;
  map_err LlmError.Credential (dynamic_credential_new now key (DynApiKeyHeader name) expires_at).
(** [checked_duration_since] is [None] when [now] is later. *)
Definition is_fresh_at (c : DynamicCredential) (now refresh_window : Z) : bool :=
  (now <=? dc_expires_at c) && (refresh_window <? dc_expires_at c - now).

(** ** The cache *)
Record AuthCacheKey := mk_cache_key {
  ck_tenant_id : string; ck_provider_id : string; ck_product_id : string;
  ck_binding : CredentialBinding; ck_credential_identity : string }.
#[global] Instance AuthCacheKey_eq_dec : EqDecision AuthCacheKey.
Proof. solve_decision. Defined.
#[global] Instance Origin_countable : Countable Origin.
Proof.
  refine (inj_countable' (fun o => (og_scheme o, og_host o, og_port o)) (fun '(s, h, p) => mk_origin s h p) _).
  by intros [].
Defined.
#[global] Instance CredentialBinding_countable : Countable CredentialBinding.
Proof.
  refine (inj_countable' (fun b => (cb_origin b, cb_required_path_prefix b, cb_label b))
            (fun '(o, p, l) => mk_credential_binding o p l) _).
  by intros [].
Defined.
#[global] Instance AuthCacheKey_countable : Countable AuthCacheKey.
Proof.
  refine (inj_countable'
    (fun k => (ck_tenant_id k, ck_provider_id k, ck_product_id k, ck_binding k, ck_credential_identity k))
    (fun '(t, p, q, b, c) => mk_cache_key t p q b c) _).
  by intros [].
Defined.

(** A [Notify] is shared by its identity. *)
Record CacheState := mk_cache {
  cs_credentials : gmap AuthCacheKey DynamicCredential; cs_inflight : gmap AuthCacheKey nat }.
Definition cache_new : CacheState := mk_cache ∅ ∅.

(** What a caller does after the first locked section. *)
Inductive LockOutcome :=
| LockFresh (credential : DynamicCredential)
| LockWait (notify : nat)
| LockLead (fallback : option DynamicCredential).
Definition unexpired (now : Z) (c : DynamicCredential) : option DynamicCredential :=
  if now <? dc_expires_at c then Some c else None.
(** [notify] is the identity of the [Notify] a leader registers. *)
Definition lock_section (key : AuthCacheKey) (refresh_window now : Z) (notify : nat) (s : CacheState)
  : CacheState * LockOutcome :=
  let cached := cs_credentials s !! key in
  match (if is_some_and (fun c => is_fresh_at c now refresh_window) cached then cached else None) with
  | Some c => (s, LockFresh c)
  | None =>
      let fallback := cached ≫= unexpired now in
      match cs_inflight s !! key with
      | Some n => (s, LockWait n)
      | None => (mk_cache (cs_credentials s) (<[key := notify]> (cs_inflight s)), LockLead fallback)
      end
  end.
(** The second locked section; the removed [Notify] is woken after it. *)
Definition commit_section (key : AuthCacheKey) (r : result LlmError DynamicCredential) (s : CacheState)
  : CacheState * option nat :=
  let credentials := match r with Ok c => <[key := c]> (cs_credentials s) | Err _ => cs_credentials s end in
  (mk_cache credentials (delete key (cs_inflight s)), cs_inflight s !! key).
Definition refreshed (allow_still_valid_fallback : bool) (fallback : option DynamicCredential)
    (r : result LlmError DynamicCredential) : result LlmError DynamicCredential :=
  match r with
  | Ok c => Ok c
  | Err e => match fallback with
             | Some c => if allow_still_valid_fallback then Ok c else Err e
             | None => Err e
             end
  end.

(** ** The dynamic provider *)
Record DynamicCredentialContext := mk_credential_context {
  cx_tenant_id : string; cx_provider_id : string; cx_product_id : string; cx_binding : CredentialBinding;
  cx_credential_identity : string; cx_deadline : option Z }.
Record DynamicAuth := mk_dynamic_auth {
  da_tenant_id : string; da_credential_identity : string; da_binding : CredentialBinding;
  da_allowed_schemes : list DynamicCredentialScheme; da_callback_timeout : Z; da_refresh_window : Z;
  da_allow_still_valid_fallback : bool }.
Definition dynamic_auth_new (binding : CredentialBinding) (tenant_id credential_identity : string) : DynamicAuth :=
  mk_dynamic_auth tenant_id credential_identity binding [DynBearer] (from_secs 5) (from_secs 30) true.
Definition with_callback_timeout (timeout : Z) (a : DynamicAuth) : result LlmError DynamicAuth :=
  if timeout =? 0
  then invalid "auth.callback_timeout" ValidationReason.OutOfRange "callback timeout must be positive"
  else Ok (mk_dynamic_auth (da_tenant_id a) (da_credential_identity a) (da_binding a) (da_allowed_schemes a)
             timeout (da_refresh_window a) (da_allow_still_valid_fallback a)).
Definition with_refresh_window (refresh_window : Z) (a : DynamicAuth) : DynamicAuth :=
  mk_dynamic_auth (da_tenant_id a) (da_credential_identity a) (da_binding a) (da_allowed_schemes a)
    (da_callback_timeout a) refresh_window (da_allow_still_valid_fallback a).
Definition allow_api_key_header (name : string) (a : DynamicAuth) : result LlmError DynamicAuth :=
  _ ← validate_auth_name name;
  let scheme := DynApiKeyHeader name in
  let schemes :=
    if bool_decide (scheme ∈ da_allowed_schemes a) then da_allowed_schemes a
    else da_allowed_schemes a ++ [scheme] in
  Ok (mk_dynamic_auth (da_tenant_id a) (da_credential_identity a) (da_binding a) schemes
        (da_callback_timeout a) (da_refresh_window a) (da_allow_still_valid_fallback a)).
Definition with_still_valid_fallback (allowed : bool) (a : DynamicAuth) : DynamicAuth :=
  mk_dynamic_auth (da_tenant_id a) (da_credential_identity a) (da_binding a) (da_allowed_schemes a)
    (da_callback_timeout a) (da_refresh_window a) allowed.

(** The world of a caller: the shared cache, its lock, the notifications and the
    external credential source. The source is asked inside a timeout and a wait
    of its own, inside the wait around the whole resolution: its answer is the
    inner wait's, and within it the outer wait's; [None] is the timeout. *)
Class CredentialWorld (W : Type) := {
  cw_cache : W -> CacheState;
  cw_set_cache : CacheState -> W -> W;
  cw_new_notify : W -> W * nat;
  cw_lock : Future W unit;
  cw_notified : nat -> Future W unit;
  cw_notify_waiters : nat -> W -> W;
  cw_acquire : DynamicCredentialContext -> Z -> option Z -> option Z -> W ->
    W * race (race (option (result CredentialFailure.t DynamicCredential))) }.

Section Dynamic.
Context {W H : Type} {WD : World W H} {CW : CredentialWorld W} {U : Urls} {UP : UrlParts} {HV : HttpValues}.

Definition dynamic_operation (c : DynamicCredential) : result LlmError HeaderOperation.t :=
  let '(name, value) :=
    match dc_scheme c with
    | DynBearer => ("authorization", header_value_from_str ("Bearer " +:+ ak_secret (dc_key c)))
    | DynApiKeyHeader name => (name, header_value_from_str (ak_secret (dc_key c)))
    end in
  match value with
  | None => Err (LlmError.Credential CredentialFailure.Invalid)
  | Some value => Ok (op_set_sensitive name value)
  end.

(** The first section, under the lock. *)
Definition take_turn (key : AuthCacheKey) (refresh_window : Z) : Future W LockOutcome :=
  fut_bind cw_lock (fun _ => fut_update (fun w =>
    let '(w, n) := cw_new_notify w in
    let '(s, outcome) := lock_section key refresh_window (w_now w) n (cw_cache w) in
    (cw_set_cache s w, outcome))).
Definition commit (key : AuthCacheKey) (r : result LlmError DynamicCredential) : Future W unit :=
  fut_bind cw_lock (fun _ => fut_update (fun w =>
    let '(s, notify) := commit_section key r (cw_cache w) in
    let w := cw_set_cache s w in
    (match notify with Some n => cw_notify_waiters n w | None => w end, tt))).
(** The loop; [None] is fuel exhausted. *)
Fixpoint get_or_refresh (fuel : nat) (key : AuthCacheKey) (refresh_window : Z) (allow_still_valid_fallback : bool)
    (fetch : Future W (result LlmError DynamicCredential)) : Future W (option (result LlmError DynamicCredential)) :=
  match fuel with
  | O => fut_ready None
  | S fuel =>
      fut_bind (take_turn key refresh_window) (fun outcome =>
        match outcome with
        | LockFresh c => fut_ready (Some (Ok c))
        | LockWait n =>
            fut_bind (cw_notified n) (fun _ =>
              get_or_refresh fuel key refresh_window allow_still_valid_fallback fetch)
        | LockLead fallback =>
            fut_bind fetch (fun r =>
              fut_bind (commit key r) (fun _ =>
                fut_ready (Some (refreshed allow_still_valid_fallback fallback r))))
        end)
  end.

(** The callback of [resolve_dynamic]. *)
Definition fetch_credential (lifecycle : Runner.Request) (a : DynamicAuth) (context : DynamicCredentialContext)
  : Future W (result LlmError DynamicCredential) := fun deadline w =>
  match await_with_lifecycle lifecycle (cw_acquire context (da_callback_timeout a) deadline) w with
  | (w, Err e) => (w, Output (Err e))
  | (w, Ok CancelledFirst) => (w, CancelledFirst)
  | (w, Ok DeadlineFirst) => (w, DeadlineFirst)
  | (w, Ok (Output acquired)) =>
      (w, Output
        match acquired with
        | None => Err (LlmError.Credential CredentialFailure.Timeout)
        | Some (Err kind) => Err (LlmError.Credential kind)
        | Some (Ok credential) =>
            if negb (bool_decide (dc_scheme credential ∈ da_allowed_schemes a))
               || (dc_expires_at credential <=? w_now w)
            then Err (LlmError.Credential CredentialFailure.Invalid)
            else Ok credential
        end)
  end.
Definition credential_invalid {A} : result LlmError A := Err (LlmError.Credential CredentialFailure.Invalid).
Definition dynamic_request (a : DynamicAuth) (context : AuthContext)
  : result LlmError (AuthCacheKey * DynamicCredentialContext * Runner.Request) :=
  _ ← binding_validate (da_binding a) (ax_endpoint context);
  provider_id ← match ax_provider_id context with Some id => Ok id | None => credential_invalid end;
  product_id ← match ax_product_id context with Some id => Ok id | None => credential_invalid end;
  lifecycle ← match ax_lifecycle context with Some l => Ok l | None => credential_invalid end;
  Ok (mk_cache_key (da_tenant_id a) provider_id product_id (da_binding a) (da_credential_identity a),
      mk_credential_context (da_tenant_id a) provider_id product_id (da_binding a) (da_credential_identity a)
        (rq_deadline lifecycle),
      lifecycle).
(** [None] is fuel exhausted. *)
Definition resolve_dynamic (fuel : nat) (a : DynamicAuth) (context : AuthContext)
  : Future W (option (result LlmError (list HeaderOperation.t))) :=
  match dynamic_request a context with
  | Err e => fut_ready (Some (Err e))
  | Ok (key, callback_context, lifecycle) =>
      fut_bind (get_or_refresh fuel key (da_refresh_window a) (da_allow_still_valid_fallback a)
                  (fetch_credential lifecycle a callback_context)) (fun r =>
        fut_ready match r with
                  | None => None
                  | Some r => Some (credential ← r; o ← dynamic_operation credential; Ok [o])
                  end)
  end.
Definition dynamic_protected_headers (a : DynamicAuth) : list string :=
  map (fun s => match s with DynBearer => "authorization" | DynApiKeyHeader name => name end) (da_allowed_schemes a).
Definition dynamic_validate_final (a : DynamicAuth) (headers : gmap string (list ascii)) : result LlmError unit :=
  if (length (List.filter (contains_key headers) (dynamic_protected_headers a)) =? 1)%nat
  then Ok tt else credential_invalid.
(** [DynamicAuth] as a provider; a caller that is never served ends with the wait
    around it. *)
Definition dynamic_auth (fuel : nat) (a : DynamicAuth) : AuthProvider (W := W) :=
  mk_auth_provider
    (fun context => fut_bind (resolve_dynamic fuel a context) (fun r =>
       match r with Some r => fut_ready r | None => fun _ w => (w, DeadlineFirst) end))
    default_resolve_immediate (dynamic_protected_headers a) (Some (da_binding a)) (binding_validate (da_binding a))
    (dynamic_validate_final a) SchemeDynamic SourceDynamic.
End Dynamic.

(** ** Callers of one cache

    Any number of calls of [get_or_refresh] on one cache, each between two of its
    interleaving points. A [Notified] future is woken by the calls of
    [notify_waiters] that follow its creation: it remembers how many there were. *)
Module Tasks.
Record params := mk_params { tk_key : AuthCacheKey; tk_refresh_window : Z; tk_allow_fallback : bool }.
Inductive phase :=
| Entering                                              (* before the first lock *)
| Subscribing (notify : nat)                            (* lock released, [notified()] not yet created *)
| Waiting (notify generation : nat)
| Fetching (fallback : option DynamicCredential)
| Committing (fallback : option DynamicCredential) (r : result LlmError DynamicCredential)
| Notifying (notify : option nat) (fallback : option DynamicCredential) (r : result LlmError DynamicCredential)
| Returned (r : result LlmError DynamicCredential)
| Dropped.
Record task := mk_task { tk_params : params; tk_phase : phase }.
Record system := mk_system {
  sy_now : Z; sy_cache : CacheState; sy_next_notify : nat; sy_generations : gmap nat nat;
  sy_tasks : list task }.
Definition generation (s : system) (n : nat) : nat := default O (sy_generations s !! n).

Inductive label :=
| Spawn (p : params) | Lock (i : nat) | Subscribe (i : nat) | Wake (i : nat)
| Fetched (i : nat) (r : result LlmError DynamicCredential) | Commit (i : nat) | Notify (i : nat)
| Drop (i : nat) | Tick (d : Z).
Definition init (now : Z) : system := mk_system now cache_new O ∅ [].
Definition set_task (i : nat) (t : task) (ph : phase) (s : system) : system :=
  mk_system (sy_now s) (sy_cache s) (sy_next_notify s) (sy_generations s)
    (<[i := mk_task (tk_params t) ph]> (sy_tasks s)).
Definition set_cache (c : CacheState) (s : system) : system :=
  mk_system (sy_now s) c (sy_next_notify s) (sy_generations s) (sy_tasks s).
Definition notify_all (n : nat) (s : system) : system :=
  mk_system (sy_now s) (sy_cache s) (sy_next_notify s) (<[n := S (generation s n)]> (sy_generations s)) (sy_tasks s).
Definition used_notify (s : system) : system :=
  mk_system (sy_now s) (sy_cache s) (S (sy_next_notify s)) (sy_generations s) (sy_tasks s).

(** What the callback can have returned at [now]. *)
Definition fetchable (now : Z) (r : result LlmError DynamicCredential) : bool :=
  match r with Ok c => now <? dc_expires_at c | Err _ => true end.
(** A call is dropped where it awaits. *)
Definition awaits (ph : phase) : bool :=
  match ph with Entering | Waiting _ _ | Fetching _ | Committing _ _ => true | _ => false end.

Definition task_step (l : label) (i : nat) (t : task) (s : system) : option system :=
  let p := tk_params t in
  match l, tk_phase t with
  | Lock _, Entering =>
      let '(c, outcome) :=
        lock_section (tk_key p) (tk_refresh_window p) (sy_now s) (sy_next_notify s) (sy_cache s) in
      Some (match outcome with
            | LockFresh credential => set_task i t (Returned (Ok credential)) s
            | LockWait n => set_task i t (Subscribing n) s
            | LockLead fallback => used_notify (set_cache c (set_task i t (Fetching fallback) s))
            end)
  | Subscribe _, Subscribing n => Some (set_task i t (Waiting n (generation s n)) s)
  | Wake _, Waiting n g => if (g <? generation s n)%nat then Some (set_task i t Entering s) else None
  | Fetched _ r, Fetching fallback =>
      if fetchable (sy_now s) r then Some (set_task i t (Committing fallback r) s) else None
  | Commit _, Committing fallback r =>
      let '(c, notify) := commit_section (tk_key p) r (sy_cache s) in
      Some (set_cache c (set_task i t (Notifying notify fallback r) s))
  | Notify _, Notifying notify fallback r =>
      let s := set_task i t (Returned (refreshed (tk_allow_fallback p) fallback r)) s in
      Some (match notify with Some n => notify_all n s | None => s end)
  | Drop _, ph => if awaits ph then Some (set_task i t Dropped s) else None
  | _, _ => None
  end.
Definition step (l : label) (s : system) : option system :=
  match l with
  | Spawn p => Some (mk_system (sy_now s) (sy_cache s) (sy_next_notify s) (sy_generations s)
                       (sy_tasks s ++ [mk_task p Entering]))
  | Tick d => if 0 <=? d
              then Some (mk_system (sy_now s + d) (sy_cache s) (sy_next_notify s) (sy_generations s) (sy_tasks s))
              else None
  | Lock i | Subscribe i | Wake i | Fetched i _ | Commit i | Notify i | Drop i =>
      t ← sy_tasks s !! i; task_step l i t s
  end.
Fixpoint run (ls : list label) (s : system) : option system :=
  match ls with
  | [] => Some s
  | l :: ls => s' ← step l s; run ls s'
  end.
End Tasks.
