(* ===== verification/CredentialsSpec.v ===== *)
(** * Dynamic credentials: isolation, single flight, and where a caller can hang

    Invariants of any interleaving of the cache's callers, and the behaviour of
    one resolution of a dynamic provider. *)
From S2P Require Import Prelude Errors Usage Domain Images Structured ChatWire Schema Options Reliability Runner History Request RequestSpec Headers Contract Catalog Endpoint EndpointSpec Auth Credentials.
Import Tasks.

(** ** Steps *)
Abbreviation key_of t := (tk_key (tk_params t)).
Definition leads (ph : phase) : bool := match ph with Fetching _ | Committing _ _ => true | _ => false end.

Lemma run_app ls ls' s : run (ls ++ ls') s = run ls s ≫= run ls'.
Proof. revert s. induction ls as [|l ls IH]; intros s; [done|]. simpl. destruct (step l s); [apply IH|done]. Qed.
(** Invariants of reachable states, by induction on the schedule from its end. *)
Lemma run_ind (P : list label -> system -> Prop) s0 :
  P [] s0 ->
  (forall ls l s s', run ls s0 = Some s -> P ls s -> step l s = Some s' -> P (ls ++ [l]) s') ->
  forall ls s, run ls s0 = Some s -> P ls s.
Proof.
  intros H0 Hs ls. induction ls as [|l ls IH] using rev_ind; intros s H; [by injection H as <-|].
  rewrite run_app in H. destruct (run ls s0) as [s1|] eqn:E; [|done]. simpl in H.
  destruct (step l s1) as [s2|] eqn:E2; [|done]. injection H as <-. eapply Hs; eauto.
Qed.
(** A step adds a caller, lets time pass, or moves one caller. *)
Lemma step_cases l s s' : step l s = Some s' ->
  (exists p, l = Spawn p /\ s' = mk_system (sy_now s) (sy_cache s) (sy_next_notify s) (sy_generations s)
                                   (sy_tasks s ++ [mk_task p Entering])) \/
  (exists d, l = Tick d /\ 0 <= d /\
     s' = mk_system (sy_now s + d) (sy_cache s) (sy_next_notify s) (sy_generations s) (sy_tasks s)) \/
  (exists i t, sy_tasks s !! i = Some t /\ task_step l i t s = Some s' /\
     (match l with Fetched j _ | Lock j | Subscribe j | Wake j | Commit j | Notify j | Drop j => i = j | _ => False end)).
Proof.
  intros H. destruct l as [p|i|i|i|i r|i|i|i|d]; cbn [step] in H;
    try (right; right; destruct (sy_tasks s !! i) as [t|] eqn:E; [|done]; exists i, t; by rewrite E).
  - left. exists p. by injection H as <-.
  - right. left. exists d. destruct (0 <=? d) eqn:E; [|done]. injection H as <-. by rewrite <- Z.leb_le.
Qed.
(** The moves of a caller, by what they change. *)
Inductive move (t : task) (s : system) : label -> phase -> CacheState -> Prop :=
| MoveFresh i c :
    cs_credentials (sy_cache s) !! key_of t = Some c ->
    is_fresh_at c (sy_now s) (tk_refresh_window (tk_params t)) = true ->
    tk_phase t = Entering -> move t s (Lock i) (Returned (Ok c)) (sy_cache s)
| MoveWait i n :
    cs_inflight (sy_cache s) !! key_of t = Some n ->
    tk_phase t = Entering -> move t s (Lock i) (Subscribing n) (sy_cache s)
| MoveLead i :
    cs_inflight (sy_cache s) !! key_of t = None -> tk_phase t = Entering ->
    move t s (Lock i) (Fetching (cs_credentials (sy_cache s) !! key_of t ≫= unexpired (sy_now s)))
      (mk_cache (cs_credentials (sy_cache s)) (<[key_of t := sy_next_notify s]> (cs_inflight (sy_cache s))))
| MoveSubscribe i n : tk_phase t = Subscribing n ->
    move t s (Subscribe i) (Waiting n (generation s n)) (sy_cache s)
| MoveWake i n g : tk_phase t = Waiting n g -> (g < generation s n)%nat -> move t s (Wake i) Entering (sy_cache s)
| MoveFetched i fallback r : tk_phase t = Fetching fallback -> fetchable (sy_now s) r = true ->
    move t s (Fetched i r) (Committing fallback r) (sy_cache s)
| MoveCommit i fallback r : tk_phase t = Committing fallback r ->
    move t s (Commit i) (Notifying (cs_inflight (sy_cache s) !! key_of t) fallback r)
      (mk_cache (match r with Ok c => <[key_of t := c]> (cs_credentials (sy_cache s))
                 | Err _ => cs_credentials (sy_cache s) end)
         (delete (key_of t) (cs_inflight (sy_cache s))))
| MoveNotify i notify fallback r : tk_phase t = Notifying notify fallback r ->
    move t s (Notify i) (Returned (refreshed (tk_allow_fallback (tk_params t)) fallback r)) (sy_cache s)
| MoveDrop i : awaits (tk_phase t) = true -> move t s (Drop i) Dropped (sy_cache s).

Ltac to_move C :=
  cbn [sy_cache set_task set_cache used_notify notify_all]; eapply C; done.
Lemma task_step_move l i t s s' : task_step l i t s = Some s' -> exists ph,
  move t s l ph (sy_cache s') /\ sy_tasks s' = <[i := mk_task (tk_params t) ph]> (sy_tasks s) /\ sy_now s' = sy_now s /\
  sy_next_notify s' = match ph with Fetching _ => S (sy_next_notify s) | _ => sy_next_notify s end /\
  sy_generations s' = match tk_phase t, ph with
                      | Notifying (Some n) _ _, Returned _ => <[n := S (generation s n)]> (sy_generations s)
                      | _, _ => sy_generations s
                      end.
Proof.
  unfold task_step. intros Hs. destruct l, (tk_phase t) eqn:Ep; simpl in Hs; try done; simplify_eq;
    try (eexists; split; [cbn [sy_cache set_task]; eapply MoveDrop; by rewrite Ep|done]).
  - unfold lock_section in Hs. destruct (cs_credentials (sy_cache s) !! key_of t) as [c|] eqn:Ec; simpl in Hs.
    + destruct (is_fresh_at _ _ _) eqn:Ef; simplify_eq; [eexists; split; [to_move MoveFresh|done]|].
      destruct (cs_inflight (sy_cache s) !! key_of t) as [n|] eqn:Ei; simplify_eq;
        [eexists; split; [to_move MoveWait|done]|].
      eexists. split; [to_move MoveLead|]. by rewrite Ec.
    + destruct (cs_inflight (sy_cache s) !! key_of t) as [n|] eqn:Ei; simplify_eq;
        [eexists; split; [to_move MoveWait|done]|].
      eexists. split; [to_move MoveLead|]. by rewrite Ec.
  - eexists. split; [to_move MoveSubscribe|done].
  - destruct (_ <? _)%nat eqn:E; simplify_eq. apply Nat.ltb_lt in E. eexists. split; [to_move MoveWake|done].
  - destruct (fetchable _ _) eqn:E; simplify_eq. eexists. split; [to_move MoveFetched|done].
  - eexists. split; [to_move MoveCommit|done].
  - destruct notify; eexists; (split; [to_move MoveNotify|done]).
Qed.

(** ** One refresh at a time *)

(** The [Notify] a caller holds or will wake. *)
Definition refers (ph : phase) (n : nat) : Prop :=
  match ph with Subscribing m | Waiting m _ | Notifying (Some m) _ _ => m = n | _ => False end.
Record inv (s : system) : Prop := {
  inv_leader : forall i t, sy_tasks s !! i = Some t -> leads (tk_phase t) = true ->
    is_Some (cs_inflight (sy_cache s) !! key_of t);
  inv_unique : forall i j t u, sy_tasks s !! i = Some t -> sy_tasks s !! j = Some u ->
    leads (tk_phase t) = true -> leads (tk_phase u) = true -> key_of t = key_of u -> i = j;
  inv_bound : forall k n, cs_inflight (sy_cache s) !! k = Some n -> (n < sy_next_notify s)%nat;
  inv_distinct : forall k k' n, cs_inflight (sy_cache s) !! k = Some n ->
    cs_inflight (sy_cache s) !! k' = Some n -> k = k';
  inv_refers : forall i t n, sy_tasks s !! i = Some t -> refers (tk_phase t) n -> (n < sy_next_notify s)%nat }.

Lemma moved (i : nat) t ph (l : list task) (j : nat) u : <[i := mk_task (tk_params t) ph]> l !! j = Some u ->
  (j = i /\ u = mk_task (tk_params t) ph) \/ (j <> i /\ l !! j = Some u).
Proof. intros [(-> & <- & _)|[? ?]]%list_lookup_insert_Some; auto. Qed.
Lemma inv_init now : inv (init now).
Proof. split; simpl; try done; intros ???; by rewrite ?lookup_empty. Qed.
Lemma inv_spawn s p : inv s ->
  inv (mk_system (sy_now s) (sy_cache s) (sy_next_notify s) (sy_generations s) (sy_tasks s ++ [mk_task p Entering])).
Proof.
  intros [H1 H2 H3 H4 H5].
  assert (forall i t, (sy_tasks s ++ [mk_task p Entering]) !! i = Some t ->
    sy_tasks s !! i = Some t \/ tk_phase t = Entering) as Hl.
  { intros i t [?|[_ H]]%lookup_app_Some; [by left|]. right. apply list_lookup_singleton_Some in H. naive_solver. }
  split; cbn [sy_tasks sy_cache sy_next_notify]; [..|done|done|].
  - intros i t [?|E]%Hl; [by apply (H1 i)|by rewrite E].
  - intros i j t u [?|E]%Hl [?|E']%Hl; try (rewrite ?E, ?E'; done). by apply H2.
  - intros i t n [?|E]%Hl; [by apply (H5 i)|by rewrite E].
Qed.
Section Step.
Context (s s' : system) (i : nat) (t : task) (ph : phase) (Hinv : inv s) (Ht : sy_tasks s !! i = Some t)
  (Htasks : sy_tasks s' = <[i := mk_task (tk_params t) ph]> (sy_tasks s)).
Lemma inv_same_cache : sy_cache s' = sy_cache s -> sy_next_notify s' = sy_next_notify s ->
  (leads ph = true -> leads (tk_phase t) = true) -> (forall n, refers ph n -> (n < sy_next_notify s)%nat) -> inv s'.
Proof.
  intros Hc Hn Hl Hr. destruct Hinv as [H1 H2 H3 H4 H5]. split; rewrite ?Hc, ?Hn, ?Htasks; [..|done|done|].
  - intros j u [[-> ->]|[_ Hu]]%moved; simpl; [intros; by apply (H1 i t), Hl|by apply (H1 j)].
  - intros j k u v [[-> ->]|[? Hu]]%moved [[-> ->]|[? Hv]]%moved; simpl; auto.
    + intros L1 L2 E. apply (H2 i k t v); auto.
    + intros L1 L2 E. apply (H2 j i u t); auto.
    + by apply H2.
  - intros j u n [[-> ->]|[_ Hu]]%moved; simpl; [by apply Hr|by apply (H5 j)].
Qed.
Lemma inv_lead : ph = Fetching (cs_credentials (sy_cache s) !! key_of t ≫= unexpired (sy_now s)) ->
  cs_inflight (sy_cache s) !! key_of t = None ->
  cs_inflight (sy_cache s') = <[key_of t := sy_next_notify s]> (cs_inflight (sy_cache s)) ->
  sy_next_notify s' = S (sy_next_notify s) -> inv s'.
Proof.
  intros -> Hnone Hc Hn. destruct Hinv as [H1 H2 H3 H4 H5].
  assert (forall j u, sy_tasks s !! j = Some u -> leads (tk_phase u) = true -> key_of u <> key_of t) as Hno.
  { intros j u Hu L E. destruct (H1 j u Hu L) as [n Hx]. congruence. }
  split; rewrite ?Hc, ?Hn, ?Htasks.
  - intros j u [[-> ->]|[_ Hu]]%moved L; simpl; [by rewrite lookup_insert_eq|].
    rewrite lookup_insert_ne by (apply not_eq_sym; by apply (Hno j)). by apply (H1 j).
  - intros j k u v [[-> ->]|[? Hu]]%moved [[-> ->]|[? Hv]]%moved; simpl; auto.
    + intros L1 L2 E. by destruct (Hno k v Hv L2).
    + intros L1 L2 E. by destruct (Hno j u Hu L1).
    + by apply H2.
  - intros k n [[_ <-]|[_ Hk]]%lookup_insert_Some; [lia|]. apply H3 in Hk. lia.
  - intros k k' n [[<- <-]|[_ Hk]]%lookup_insert_Some [[<- Hx]|[_ Hk']]%lookup_insert_Some; auto.
    + apply H3 in Hk'. lia.
    + apply H3 in Hk. lia.
    + by apply (H4 k k' n).
  - intros j u n [[-> ->]|[_ Hu]]%moved Hr; [done|]. specialize (H5 j u n Hu Hr). lia.
Qed.
Lemma inv_commit fallback r : tk_phase t = Committing fallback r ->
  ph = Notifying (cs_inflight (sy_cache s) !! key_of t) fallback r ->
  cs_inflight (sy_cache s') = delete (key_of t) (cs_inflight (sy_cache s)) ->
  sy_next_notify s' = sy_next_notify s -> inv s'.
Proof.
  intros Hp -> Hc Hn. destruct Hinv as [H1 H2 H3 H4 H5].
  split; rewrite ?Hc, ?Hn, ?Htasks.
  - intros j u [[-> ->]|[Hj Hu]]%moved L; simpl; [done|].
    rewrite lookup_delete_ne; [by apply (H1 j)|]. intros E. apply Hj.
    apply (H2 j i u t); auto. by rewrite Hp.
  - intros j k u v [[-> ->]|[? Hu]]%moved [[-> ->]|[? Hv]]%moved; simpl; try done. by apply H2.
  - intros k n [_ Hk]%lookup_delete_Some. by apply (H3 k).
  - intros k k' n [_ Hk]%lookup_delete_Some [_ Hk']%lookup_delete_Some. by apply (H4 k k' n).
  - intros j u n [[-> ->]|[_ Hu]]%moved Hr; [|by apply (H5 j u)]. simpl in Hr.
    destruct (cs_inflight (sy_cache s) !! key_of t) as [m|] eqn:E; [|done]. subst m. by apply (H3 (key_of t)).
Qed.
End Step.
Lemma inv_task_step l i t s s' : inv s -> sy_tasks s !! i = Some t -> task_step l i t s = Some s' -> inv s'.
Proof.
  intros Hi Ht Hs. pose proof (task_step_move _ _ _ _ _ Hs) as (ph & Hm & Htasks & _ & Hn & _).
  pose proof (inv_refers s Hi i t) as Hr. remember (sy_cache s') as c' eqn:Hc. symmetry in Hc.
  destruct Hm as [j c _ _ Hp|j n Hin Hp|j Hin Hp|j n Hp|j n g Hp _|j fb r Hp _|j fb r Hp|j nt fb r Hp|j Ha];
    try (eapply (inv_same_cache s s' i t); [done|done|exact Htasks|done|..]);
    cbn iota in Hn; try exact Hn; try done; try (by rewrite Hp); try (by intros m ->; apply Hr; rewrite ?Hp).
  - by intros m <-; eapply (inv_bound s Hi).
  - eapply (inv_lead s s' i t); [done|exact Htasks|done|done|by rewrite Hc|done].
  - eapply (inv_commit s s' i t); [done|done|exact Htasks|done|done|by rewrite Hc|done].
Qed.
Lemma inv_step l s s' : inv s -> step l s = Some s' -> inv s'.
Proof.
  intros Hi [(p & _ & ->)|[(d & _ & _ & ->)|(i & t & Ht & Hs & _)]]%step_cases.
  - by apply inv_spawn.
  - by destruct Hi.
  - by eapply inv_task_step.
Qed.
Lemma inv_run now ls s : run ls (init now) = Some s -> inv s.
Proof.
  apply (run_ind (fun _ s => inv s)); [apply inv_init|]. intros _ l s1 s2 _ H1 H2. by eapply inv_step.
Qed.

(** C11. However the callers of one cache interleave, and whichever of them are
    dropped, at most one of them is refreshing the credential of a key. *)
Theorem single_flight now ls s i j t u : run ls (init now) = Some s ->
  sy_tasks s !! i = Some t -> sy_tasks s !! j = Some u ->
  leads (tk_phase t) = true -> leads (tk_phase u) = true -> key_of t = key_of u -> i = j.
Proof. intros Hr. by apply inv_unique, (inv_run now ls). Qed.

(** ** Where a credential comes from *)

(** Before this point of the schedule, a caller with that key got the credential
    from the source, and it had not expired. *)
Definition fetched (now : Z) (ls : list label) (k : AuthCacheKey) (c : DynamicCredential) : Prop :=
  exists l1 j l2 s1 t, ls = l1 ++ Fetched j (Ok c) :: l2 /\ run l1 (init now) = Some s1 /\
    sy_tasks s1 !! j = Some t /\ key_of t = k /\ sy_now s1 < dc_expires_at c.
Lemma fetched_app now ls ls' k c : fetched now ls k c -> fetched now (ls ++ ls') k c.
Proof.
  intros (l1 & j & l2 & s1 & t & -> & Hx). exists l1, j, (l2 ++ ls'), s1, t. split; [|done]. by rewrite <- app_assoc.
Qed.
(** The credentials a caller holds. *)
Definition holds (ph : phase) (c : DynamicCredential) : Prop :=
  match ph with
  | Fetching fb => fb = Some c
  | Committing fb r | Notifying _ fb r => fb = Some c \/ r = Ok c
  | Returned r => r = Ok c
  | _ => False
  end.
Definition traced (now : Z) (ls : list label) (s : system) : Prop :=
  (forall k c, cs_credentials (sy_cache s) !! k = Some c -> fetched now ls k c) /\
  (forall i t c, sy_tasks s !! i = Some t -> holds (tk_phase t) c -> fetched now ls (key_of t) c).
Lemma refreshed_ok allow fb r c : refreshed allow fb r = Ok c -> r = Ok c \/ (exists e, r = Err e /\ fb = Some c /\ allow = true).
Proof. unfold refreshed. destruct r; [auto|]. destruct fb, allow; naive_solver. Qed.
Lemma unexpired_some now c d : unexpired now c = Some d -> d = c /\ now < dc_expires_at d.
Proof. unfold unexpired. destruct (_ <? _) eqn:E; [|done]. intros [= <-]. by rewrite <- Z.ltb_lt. Qed.
Lemma fallback_some (o : option DynamicCredential) now d : o ≫= unexpired now = Some d -> o = Some d /\ now < dc_expires_at d.
Proof. destruct o as [c|]; [|done]. simpl. intros [-> ?]%unexpired_some. done. Qed.
Lemma traced_run now ls s : run ls (init now) = Some s -> traced now ls s.
Proof.
  apply (run_ind (traced now)); [by split; intros ?? **|]. clear ls s. intros ls l s s' Hrun [Hc Ht] Hstep.
  assert (traced now (ls ++ [l]) s) as [Hc' Ht'].
  { split; intros; apply fetched_app; eauto. }
  destruct (step_cases _ _ _ Hstep) as [(p & _ & ->)|[(d & _ & _ & ->)|(i & t & Hi & Hs & Hl)]]; [|by split|].
  { split; [done|]. intros i t c [?|[_ Hx]]%lookup_app_Some; [by apply (Ht' i)|].
    apply list_lookup_singleton_Some in Hx as [_ <-]. done. }
  pose proof (task_step_move _ _ _ _ _ Hs) as (ph & Hm & Htasks & _).
  enough ((forall k c, cs_credentials (sy_cache s') !! k = Some c -> fetched now (ls ++ [l]) k c) /\
          forall c, holds ph c -> fetched now (ls ++ [l]) (key_of t) c) as [Ha Hb].
  { split; [done|]. rewrite Htasks. intros j u c [[-> ->]|[_ Hu]]%moved; [apply Hb|by apply (Ht' j)]. }
  specialize (Ht' i t). remember (sy_cache s') as cache'.
  destruct Hm as [j c Hcr _ Hp|j n _ Hp|j _ Hp|j n Hp|j n g Hp _|j fb r Hp Hf|j fb r Hp|j nt fb r Hp|j Ha];
    (split; [try done|intros d Hd; simpl in Hd; try done]); rewrite ?Hp in Ht'; simpl in Ht'.
  - injection Hd as <-. by apply Hc'.
  - apply fallback_some in Hd as [Hd _]. by apply Hc'.
  - destruct Hd as [Hd| ->]; [by apply Ht'|]. subst i. exists ls, j, [], s, t. apply Z.ltb_lt in Hf. done.
  - intros k c. simpl. destruct r as [c'|]; [|by apply Hc']. intros [[<- <-]|[_ Hk]]%lookup_insert_Some; [|by apply Hc'].
    apply Ht'; auto.
  - by apply Ht'.
  - apply refreshed_ok in Hd as [->|(e & -> & -> & _)]; apply Ht'; auto.
Qed.

(** C30. A caller only gets a credential that the source returned, before it had
    expired, to a caller with the same tenant, provider, product, destination
    binding and credential identity. *)
Theorem credentials_isolated now ls s i t c : run ls (init now) = Some s -> sy_tasks s !! i = Some t ->
  tk_phase t = Returned (Ok c) -> fetched now ls (key_of t) c.
Proof. intros Hr Hi Hp. destruct (traced_run now ls s Hr) as [_ Ht]. apply (Ht i); [done|]. by rewrite Hp. Qed.

(** ** A dropped refresh *)
Definition idle (ph : phase) : bool :=
  match ph with Entering | Subscribing _ | Waiting _ _ | Dropped => true | _ => false end.
(** A refresh is registered, nobody runs it, and there is nothing to return. *)
Definition orphaned (k : AuthCacheKey) (s : system) : Prop :=
  is_Some (cs_inflight (sy_cache s) !! k) /\ cs_credentials (sy_cache s) !! k = None /\
  forall i t, sy_tasks s !! i = Some t -> key_of t = k -> idle (tk_phase t) = true.
Lemma orphaned_step k l s s' : orphaned k s -> step l s = Some s' -> orphaned k s'.
Proof.
  intros (Hin & Hcr & Hidle) [(p & _ & ->)|[(d & _ & _ & ->)|(i & t & Hi & Hs & _)]]%step_cases; [|done|].
  { split_and!; [done..|]. intros i t [?|[_ Hx]]%lookup_app_Some; [by apply (Hidle i)|].
    by apply list_lookup_singleton_Some in Hx as [_ <-]. }
  pose proof (task_step_move _ _ _ _ _ Hs) as (ph & Hm & Htasks & _). remember (sy_cache s') as cache' eqn:Hc.
  assert (is_Some (cs_inflight cache' !! k) /\ cs_credentials cache' !! k = None /\ (key_of t = k -> idle ph = true))
    as (H1 & H2 & H3).
  { specialize (Hidle i t Hi). destruct (decide (key_of t = k)) as [E|E].
    - specialize (Hidle E).
      destruct Hm as [j c Hx _ Hp|j n _ Hp|j Hx Hp|j n Hp|j n g Hp _|j fb r Hp Hf|j fb r Hp|j nt fb r Hp|j Ha];
        rewrite ?Hp in Hidle; try done; rewrite E in Hx; [congruence|]. rewrite Hx in Hin. by destruct Hin.
    - destruct Hm as [| |j Hx Hp| | | |j fb r Hp| |]; simpl; try done; rewrite ?lookup_insert_ne, ?lookup_delete_ne by done.
      + done.
      + split_and!; [done| |done]. destruct r; [by rewrite lookup_insert_ne|done]. }
  unfold orphaned. rewrite <- Hc. split_and!; [done..|]. rewrite Htasks.
  intros j u [[-> ->]|[_ Hu]]%moved; [done|by apply (Hidle j)].
Qed.
Lemma orphaned_run k ls s s' : orphaned k s -> run ls s = Some s' -> orphaned k s'.
Proof.
  revert s. induction ls as [|l ls IH]; intros s Ho H; simpl in H; [by injection H as <-|].
  destruct (step l s) as [s1|] eqn:E; [|done]. simpl in H. eapply IH; [|exact H]. by eapply orphaned_step.
Qed.
Lemma abandoned now p : exists s, run [Spawn p; Lock 0; Drop 0] (init now) = Some s /\ orphaned (tk_key p) s.
Proof.
  simpl. unfold lock_section. simpl. rewrite !lookup_empty. simpl. eexists. split; [reflexivity|].
  split_and!; simpl; [by rewrite lookup_insert_eq|done|].
  intros i t. destruct i as [|i]; simpl; [by intros [= <-]|by destruct i].
Qed.

(** A caller dropped while it refreshes leaves its registration behind: from
    then on no caller with the same key ever returns, however many follow and
    whatever they do. *)
Theorem dropped_refresh_blocks_key now p ls s : run (Spawn p :: Lock 0 :: Drop 0 :: ls) (init now) = Some s ->
  forall i t r, sy_tasks s !! i = Some t -> key_of t = tk_key p -> tk_phase t <> Returned r.
Proof.
  intros Hr i t r Hi Hk Hp. destruct (abandoned now p) as (s0 & H0 & Ho).
  change (Spawn p :: Lock 0 :: Drop 0 :: ls) with ([Spawn p; Lock 0; Drop 0] ++ ls) in Hr.
  rewrite run_app, H0 in Hr. simpl in Hr. destruct (orphaned_run _ _ _ _ Ho Hr) as (_ & _ & Hidle).
  specialize (Hidle i t Hi Hk). by rewrite Hp in Hidle.
Qed.

(** ** A missed notification *)

(** Caller [i] waits for a [Notify] nobody will call again. *)
Definition lost (n i : nat) (s : system) : Prop :=
  (n < sy_next_notify s)%nat /\ (forall k, cs_inflight (sy_cache s) !! k <> Some n) /\
  (forall j t fb r, sy_tasks s !! j = Some t -> tk_phase t <> Notifying (Some n) fb r) /\
  exists t, sy_tasks s !! i = Some t /\ (tk_phase t = Waiting n (generation s n) \/ tk_phase t = Dropped).
Lemma lost_step n i l s s' : lost n i s -> step l s = Some s' -> lost n i s'.
Proof.
  intros (Hb & Hin & Hno & t0 & Ht0 & Hp0) [(p & _ & ->)|[(d & _ & _ & ->)|(j & t & Hj & Hs & _)]]%step_cases.
  { split_and!; [done..| |].
    - intros j t fb r [?|[_ Hx]]%lookup_app_Some; [by apply (Hno j)|].
      by apply list_lookup_singleton_Some in Hx as [_ <-].
    - exists t0. split; [|done]. by apply lookup_app_l_Some. }
  { split_and!; try done. by exists t0. }
  pose proof (task_step_move _ _ _ _ _ Hs) as (ph & Hm & Htasks & _ & Hn & Hg).
  pose proof (Hno j t) as Hnj. remember (sy_cache s') as cache' eqn:Hc.
  assert (generation s' n = generation s n) as Hgen.
  { unfold generation. rewrite Hg. destruct (tk_phase t) as [| | | | |[m|] fb r| |] eqn:Ep; try done. destruct ph; try done.
    rewrite lookup_insert_ne; [done|]. intros ->. by apply (Hnj fb r). }
  assert ((forall k, cs_inflight cache' !! k <> Some n) /\ (forall fb r, ph <> Notifying (Some n) fb r)) as [H1 H2].
  { destruct Hm as [| |k Hx Hp| | | |k fb r Hp| |]; simpl; try (split; [done|by intros]).
    - split; [|done]. intros k' [[_ E]|[_ E]]%lookup_insert_Some; [lia|by apply (Hin k')].
    - split; [by intros k' [_ E]%lookup_delete_Some; apply (Hin k')|]. intros fb' r' [= E _ _]. by apply Hin in E. }
  split_and!; [rewrite Hn; destruct ph; lia|by rewrite <- Hc| |]; rewrite ?Hgen, Htasks.
  - intros k u fb r [[-> ->]|[_ Hu]]%moved; [apply H2|by apply (Hno k)].
  - destruct (decide (i = j)) as [->|Hne]; [|exists t0; by rewrite list_lookup_insert_ne].
    simplify_eq. eexists. rewrite list_lookup_insert_eq by (by eapply lookup_lt_Some). split; [done|].
    destruct Hp0 as [Hp|Hp]; destruct Hm; simplify_eq; rewrite ?Hp in *; simplify_eq/=; try done; auto. lia.
Qed.
Lemma lost_run n i ls s s' : lost n i s -> run ls s = Some s' -> lost n i s'.
Proof.
  revert s. induction ls as [|l ls IH]; intros s Ho H; simpl in H; [by injection H as <-|].
  destruct (step l s) as [s1|] eqn:E; [|done]. simpl in H. eapply IH; [|exact H]. by eapply lost_step.
Qed.
(** The second caller finds the refresh under way and releases the lock; the
    refresh ends before it subscribes. *)
Definition missed (p : params) (c : DynamicCredential) : list label :=
  [Spawn p; Spawn p; Lock 0; Lock 1; Fetched 0 (Ok c); Commit 0; Notify 0; Subscribe 1].
Lemma run_step l ls s s1 s2 : step l s = Some s1 -> run ls s1 = Some s2 -> run (l :: ls) s = Some s2.
Proof. intros H. simpl. by rewrite H. Qed.
Ltac sim_step :=
  eapply run_step; [simpl; unfold lock_section; simpl; rewrite ?lookup_insert_eq, ?lookup_empty; simpl; reflexivity|].
Lemma missed_lost now p c : now < dc_expires_at c -> exists s, run (missed p c) (init now) = Some s /\ lost 0 1 s /\
  cs_credentials (sy_cache s) !! tk_key p = Some c /\
  exists t, sy_tasks s !! 0%nat = Some t /\ tk_phase t = Returned (Ok c).
Proof.
  intros Hc. apply Z.ltb_lt in Hc. unfold missed. eexists. split.
  { do 4 sim_step. eapply run_step; [simpl; rewrite Hc; reflexivity|]. do 3 sim_step. reflexivity. }
  split; [|split; [apply lookup_insert_eq|by eexists]].
  split_and!; simpl; [lia| | |].
  - intros k [Hne Hk]%lookup_delete_Some. by apply lookup_insert_Some in Hk as [[? _]|[_ Hk]].
  - intros [|[|j]] t fb r; simpl; [by intros [= <-]..|by destruct j].
  - eexists. split; [reflexivity|]. left. reflexivity.
Qed.

(** A caller that finds a refresh under way can miss its end: when the
    refresh ends between the caller's release of the lock and its subscription,
    it never returns, although the credential is cached. *)
Theorem notification_missed now p c ls s : now < dc_expires_at c ->
  run (missed p c ++ ls) (init now) = Some s ->
  exists t, sy_tasks s !! 1%nat = Some t /\ forall r, tk_phase t <> Returned r.
Proof.
  intros Hc Hr. destruct (missed_lost now p c Hc) as (s0 & H0 & Hl & _). rewrite run_app, H0 in Hr.
  destruct (lost_run _ _ _ _ _ Hl Hr) as (_ & _ & _ & t & Ht & Hp). exists t. split; [done|].
  intros r E. rewrite E in Hp. by destruct Hp.
Qed.

(** ** An expired fallback *)
Definition example_key : AuthCacheKey := mk_cache_key "tenant" "provider" "product" binding_official_openai "identity".
Definition example_credential (expires : Z) : DynamicCredential :=
  mk_dynamic_credential (mk_api_key "secret") DynBearer expires.
Definition example_params : params := mk_params example_key (from_secs 30) true.
(** The first credential lasts a minute; the second call finds it inside the
    refresh window with ten seconds left, and the source fails after eleven. *)
Definition late_failure : list label :=
  [Spawn example_params; Lock 0; Fetched 0 (Ok (example_credential (from_secs 60))); Commit 0; Notify 0;
   Tick (from_secs 50); Spawn example_params; Lock 1; Tick (from_secs 11);
   Fetched 1 (Err (LlmError.Credential CredentialFailure.Timeout)); Commit 1; Notify 1].
Theorem expired_fallback :
  (fun s => (tk_phase <$> sy_tasks s !! 1%nat, sy_now s)) <$> run late_failure (init 0) =
  Some (Some (Returned (Ok (example_credential (from_secs 60)))), from_secs 61).
Proof. vm_compute. reflexivity. Qed.

(** ** No one waits in vain otherwise *)
Definition subscribing (t : task) : bool := match tk_phase t with Subscribing _ => true | _ => false end.
(** Nobody is dropped, and a caller subscribes before anything else happens. *)
Definition prompt (l : label) (s : system) : bool :=
  match l with
  | Drop _ => false
  | Subscribe _ => true
  | _ => negb (existsb subscribing (sy_tasks s))
  end.
Fixpoint prompt_run (ls : list label) (s : system) : option system :=
  match ls with
  | [] => Some s
  | l :: ls => if prompt l s then s' ← step l s; prompt_run ls s' else None
  end.
(** Someone will wake, or has woken, the waiters of [n] for a key. *)
Definition attended (s : system) (k : AuthCacheKey) (n g : nat) : Prop :=
  (g <= generation s n)%nat /\
  ((g < generation s n)%nat \/ cs_inflight (sy_cache s) !! k = Some n \/
   exists j u fb r, sy_tasks s !! j = Some u /\ tk_phase u = Notifying (Some n) fb r).
Record live (s : system) : Prop := {
  live_leader : forall k n, cs_inflight (sy_cache s) !! k = Some n ->
    exists j u, sy_tasks s !! j = Some u /\ key_of u = k /\ leads (tk_phase u) = true;
  live_subscribing : forall i t n, sy_tasks s !! i = Some t -> tk_phase t = Subscribing n ->
    cs_inflight (sy_cache s) !! key_of t = Some n;
  live_waiting : forall i t n g, sy_tasks s !! i = Some t -> tk_phase t = Waiting n g -> attended s (key_of t) n g }.

Lemma not_subscribing l s i t n : prompt l s = true -> (forall j, l <> Subscribe j) ->
  sy_tasks s !! i = Some t -> tk_phase t <> Subscribing n.
Proof.
  intros Hp Hl Hi Hph. assert (existsb subscribing (sy_tasks s) = true) as Hx.
  { apply existsb_exists. exists t. split; [|unfold subscribing; by rewrite Hph]. by eapply list_elem_of_In, list_elem_of_lookup_2. }
  destruct l; simpl in Hp; rewrite ?Hx in Hp; try done. by destruct (Hl i0).
Qed.
Section Live.
Context (s s' : system) (l : label) (i : nat) (t : task) (ph : phase) (Hinv : inv s) (Hlive : live s)
  (Ht : sy_tasks s !! i = Some t) (Hm : move t s l ph (sy_cache s')) (Hprompt : prompt l s = true)
  (Htasks : sy_tasks s' = <[i := mk_task (tk_params t) ph]> (sy_tasks s))
  (Hg : sy_generations s' = match tk_phase t, ph with
                            | Notifying (Some n) _ _, Returned _ => <[n := S (generation s n)]> (sy_generations s)
                            | _, _ => sy_generations s
                            end).
Lemma task_at : sy_tasks s' !! i = Some (mk_task (tk_params t) ph).
Proof. rewrite Htasks. apply list_lookup_insert_eq. by eapply lookup_lt_Some. Qed.
Lemma task_elsewhere j u : j <> i -> sy_tasks s !! j = Some u -> sy_tasks s' !! j = Some u.
Proof. intros. rewrite Htasks. by rewrite list_lookup_insert_ne. Qed.
Lemma generation_grows n : (generation s n <= generation s' n)%nat.
Proof.
  unfold generation at 2. rewrite Hg. destruct (tk_phase t) as [| | | | |[m|]| |]; try done. destruct ph; try done.
  destruct (decide (m = n)) as [->|]; [rewrite lookup_insert_eq; simpl; lia|by rewrite lookup_insert_ne].
Qed.
(** Leaders go on or commit. *)
Lemma live_leader_step k n : cs_inflight (sy_cache s') !! k = Some n ->
  exists j u, sy_tasks s' !! j = Some u /\ key_of u = k /\ leads (tk_phase u) = true.
Proof.
  intros Hk. destruct (decide (cs_inflight (sy_cache s) !! k = Some n)) as [Hold|Hnew].
  - destruct (live_leader s Hlive k n Hold) as (j & u & Hj & Hu & L).
    destruct (decide (j = i)) as [->|Hne]; [|by exists j, u; rewrite (task_elsewhere j u)].
    simplify_eq. destruct (leads ph) eqn:Lp; [exists i; eexists; by rewrite task_at|].
    destruct Hm; try (match goal with E : tk_phase t = _ |- _ => by rewrite E in L end); try done.
    simpl in Hk. by rewrite lookup_delete_eq in Hk.
  - exists i, (mk_task (tk_params t) ph). rewrite task_at. destruct Hm; simpl in *; try done.
    + by apply lookup_insert_Some in Hk as [[<- _]|[_ Hk]].
    + by apply lookup_delete_Some in Hk as [_ Hk].
Qed.
(** Waiters stay attended: a commit passes the [Notify] on, a notification wakes. *)
Lemma attended_step k n g : (forall j, l <> Subscribe j) -> attended s k n g -> attended s' k n g.
Proof.
  intros Hns [Hle Hat]. pose proof (generation_grows n) as Hgrow. split; [lia|].
  destruct Hat as [Hlt|[Hin|(j & u & fb & r & Hj & Hu)]]; [left; lia| |].
  - destruct (decide (cs_inflight (sy_cache s') !! k = Some n)) as [|Hno]; [by right; left|]. right. right.
    exists i, (mk_task (tk_params t) ph). rewrite task_at. destruct Hm; simpl in *; try done.
    + destruct (decide (key_of t = k)) as [<-|]; [congruence|]. by rewrite lookup_insert_ne in Hno.
    + destruct (decide (key_of t = k)) as [<-|]; [rewrite Hin; eauto|]. by rewrite lookup_delete_ne in Hno.
  - destruct (decide (j = i)) as [->|Hne]; [|right; right; exists j, u, fb, r; by rewrite (task_elsewhere j u)].
    simplify_eq. left. rewrite Hu in Hg. destruct Hm; simplify_eq; try congruence.
    unfold generation. rewrite Hg, lookup_insert_eq. simpl. lia.
Qed.
Lemma live_task_step : live s'.
Proof.
  pose proof Hlive as [H1 H2 H3]. split; [by apply live_leader_step| |].
  all: assert ((exists j, l = Subscribe j) \/ forall j, l <> Subscribe j) as Hl
    by (clear; destruct l; (left; by eexists) || by right).
  - intros j u n Hj Hu. rewrite Htasks in Hj. apply moved in Hj as [[-> ->]|[Hne Hj]]; simpl in *.
    + subst ph. by inversion Hm; subst.
    + destruct Hl as [[j' El]|Hl]; [|by destruct (not_subscribing l s j u n)].
      assert (sy_cache s' = sy_cache s) as -> by (clear - Hm El; subst l; by inversion Hm). by eapply H2.
  - intros j u n g Hj Hu. rewrite Htasks in Hj. apply moved in Hj as [[-> ->]|[Hne Hj]]; simpl in *.
    + subst ph. inversion Hm as [| | |j' n' Hp E1 E2 E3| | | | |]. subst. specialize (H2 i t n Ht Hp).
      assert (generation s' n = generation s n) as Hgen by (unfold generation; by rewrite Hg, Hp).
      split; [by rewrite Hgen|]. right. left. congruence.
    + specialize (H3 j u n g Hj Hu). destruct Hl as [[j' El]|Hl]; [|by apply attended_step].
      assert (exists n', tk_phase t = Subscribing n' /\ sy_cache s' = sy_cache s) as (n' & Hp & E3)
        by (clear - Hm El; subst l; inversion Hm; eauto).
      destruct H3 as [Hle Hat].
      assert (generation s' n = generation s n) as Hgen by (unfold generation; by rewrite Hg, Hp).
      split; [by rewrite Hgen|]. rewrite Hgen, E3. destruct Hat as [?|[?|(k & v & fb & r & Hk & Hv)]]; [auto..|].
      right. right. exists k, v, fb, r. split; [|done]. apply task_elsewhere; [|done]. intros ->. simplify_eq. congruence.
Qed.
End Live.
Lemma live_run ls s s' : inv s -> live s -> prompt_run ls s = Some s' -> inv s' /\ live s'.
Proof.
  revert s. induction ls as [|l ls IH]; intros s Hi Hl H; simpl in H; [by injection H as <-|].
  destruct (prompt l s) eqn:Hp; [|done]. destruct (step l s) as [s1|] eqn:Hs; [|done]. simpl in H.
  apply (IH s1); [by eapply inv_step| |done]. clear H.
  apply step_cases in Hs as [(p & -> & ->)|[(d & -> & _ & ->)|(i & t & Ht & Hts & _)]]; [|by destruct Hl|].
  - assert (forall i t, (sy_tasks s ++ [mk_task p Entering]) !! i = Some t ->
      sy_tasks s !! i = Some t \/ tk_phase t = Entering) as Hx.
    { intros i t [?|[_ H]]%lookup_app_Some; [by left|]. right. apply list_lookup_singleton_Some in H. naive_solver. }
    destruct Hl as [H1 H2 H3]. split; cbn [sy_tasks sy_cache].
    + intros k n (j & u & Hj & Hu)%H1. exists j, u. split; [|done]. by apply lookup_app_l_Some.
    + intros i t n [Hi'|E]%Hx; [by apply (H2 i)|by rewrite E].
    + intros i t n g [Hi'|E]%Hx; [|by rewrite E]. intros Hph. destruct (H3 i t n g Hi' Hph) as [Hle Hat].
      split; [done|]. destruct Hat as [?|[?|(j & u & fb & r & Hj & Hu)]]; [auto..|]. right. right.
      exists j, u, fb, r. split; [|done]. by apply lookup_app_l_Some.
  - pose proof (task_step_move _ _ _ _ _ Hts) as (ph & Hm & Htasks & _ & _ & Hg). by eapply live_task_step.
Qed.

(** C31. When no caller is dropped and each caller subscribes as soon as it has
    seen a refresh under way, nobody waits in vain: a waiting caller can be woken
    at once, or a caller with its key is refreshing, or a caller is about to wake
    it. *)
Theorem waiters_are_attended now ls s i t n g : prompt_run ls (init now) = Some s ->
  sy_tasks s !! i = Some t -> tk_phase t = Waiting n g ->
  (exists s', step (Wake i) s = Some s') \/
  (exists j u, sy_tasks s !! j = Some u /\ key_of u = key_of t /\ leads (tk_phase u) = true) \/
  (exists j u fb r, sy_tasks s !! j = Some u /\ tk_phase u = Notifying (Some n) fb r).
Proof.
  intros Hr Ht Hp. destruct (live_run ls (init now) s) as [_ [H1 _ H3]]; [apply inv_init| |done|].
  { split; simpl; [intros k m Hk; by rewrite lookup_empty in Hk|done..]. }
  destruct (H3 i t n g Ht Hp) as [_ [Hlt|[Hin|Hn]]]; [left|right; left; by eapply H1|by right; right].
  simpl. rewrite Ht. simpl. unfold task_step. rewrite Hp. apply Nat.ltb_lt in Hlt. rewrite Hlt. eauto.
Qed.

(** ** Examples *)
Definition example_run (ls : list label) : system := default (init 0) (run ls (init 0)).
Lemma run_example ls : bool_decide (is_Some (run ls (init 0))) = true -> run ls (init 0) = Some (example_run ls).
Proof. unfold example_run. rewrite bool_decide_eq_true. by intros [s ->]. Qed.
Lemma prompt_is_run ls s s' : prompt_run ls s = Some s' -> run ls s = Some s'.
Proof.
  revert s. induction ls as [|l ls IH]; intros s; [done|]. simpl. destruct (prompt l s); [|done].
  destruct (step l s); [apply IH|done].
Qed.
Lemma prompt_example ls : bool_decide (is_Some (prompt_run ls (init 0))) = true ->
  prompt_run ls (init 0) = Some (example_run ls).
Proof.
  unfold example_run. rewrite bool_decide_eq_true. intros [s Hs]. rewrite Hs. by rewrite (prompt_is_run _ _ _ Hs).
Qed.
Definition two_callers : list label :=
  [Spawn example_params; Lock 0; Spawn example_params; Lock 1; Subscribe 1;
   Fetched 0 (Ok (example_credential (from_secs 60)))].
Definition both_served : list label := two_callers ++ [Commit 0; Notify 0; Wake 1; Lock 1].
(** The lead passes on: the first caller's refresh fails while the second waits,
    the second wakes and refreshes itself, a third one waits for it, and a caller
    with another key refreshes at the same time. *)
Definition other_params : params :=
  mk_params (mk_cache_key "other" "provider" "product" binding_official_openai "identity") (from_secs 30) true.
Definition lead_passes : list label :=
  [Spawn example_params; Spawn example_params; Lock 0; Lock 1; Subscribe 1;
   Fetched 0 (Err (LlmError.Credential CredentialFailure.Timeout)); Commit 0; Notify 0; Wake 1; Lock 1;
   Spawn example_params; Lock 2; Subscribe 2; Spawn other_params; Lock 3].
Example lead_passes_to : map tk_phase (sy_tasks (example_run lead_passes)) =
  [Returned (Err (LlmError.Credential CredentialFailure.Timeout)); Fetching None; Waiting 1 0; Fetching None].
Proof. vm_compute. reflexivity. Qed.
Lemma single_flight_witness :
  let s := example_run lead_passes in
  sy_tasks s !! 1%nat = Some (mk_task example_params (Fetching None)) /\
  sy_tasks s !! 3%nat = Some (mk_task other_params (Fetching None)) /\
  forall j u, sy_tasks s !! j = Some u -> leads (tk_phase u) = true -> key_of u = example_key -> j = 1%nat.
Proof.
  assert (sy_tasks (example_run lead_passes) !! 1%nat = Some (mk_task example_params (Fetching None))) as H1
    by (vm_compute; reflexivity).
  split; [exact H1|]. split; [vm_compute; reflexivity|]. intros j u Hu L E.
  refine (single_flight 0 lead_passes (example_run lead_passes) j 1 u (mk_task example_params (Fetching None))
            _ Hu H1 L _ E); [apply run_example; vm_compute; reflexivity|reflexivity].
Defined.
Lemma credentials_isolated_witness : fetched 0 both_served example_key (example_credential (from_secs 60)).
Proof.
  refine (credentials_isolated 0 both_served (example_run both_served) 1
            (mk_task example_params (Returned (Ok (example_credential (from_secs 60))))) _ _ _ _);
    [apply run_example|..]; vm_compute; reflexivity.
Defined.
Definition after_drop : list label := [Spawn example_params; Lock 1; Subscribe 1].
Lemma dropped_refresh_blocks_key_witness : forall r,
  Waiting 0 0 <> Returned r.
Proof.
  intros r.
  refine (dropped_refresh_blocks_key 0 example_params after_drop
            (example_run (Spawn example_params :: Lock 0 :: Drop 0 :: after_drop)) _ 1
            (mk_task example_params (Waiting 0 0)) r _ _);
    [apply run_example|..]; vm_compute; reflexivity.
Defined.
Lemma notification_missed_witness :
  exists t, sy_tasks (example_run (missed example_params (example_credential (from_secs 60)) ++ [Tick 5])) !! 1%nat = Some t /\
            forall r, tk_phase t <> Returned r.
Proof.
  refine (notification_missed 0 example_params (example_credential (from_secs 60)) [Tick 5] _ _ _);
    [reflexivity|apply run_example; vm_compute; reflexivity].
Defined.
Lemma waiters_are_attended_witness :
  let s := example_run two_callers in
  (exists s', step (Wake 1) s = Some s') \/
  (exists j u, sy_tasks s !! j = Some u /\ key_of u = example_key /\ leads (tk_phase u) = true) \/
  (exists j u fb r, sy_tasks s !! j = Some u /\ tk_phase u = Notifying (Some 0%nat) fb r).
Proof.
  refine (waiters_are_attended 0 two_callers (example_run two_callers) 1
            (mk_task example_params (Waiting 0 0)) 0 0 _ _ _);
    [apply prompt_example|..]; vm_compute; reflexivity.
Defined.
