(* ===== verification/Attempt.v ===== *)
(** * One attempt

    [src/src/provider/headers/dynamic.rs], [src/src/provider/profile.rs], the
    endpoint, credential and header parts of [src/src/provider/runtime.rs], and
    [AttemptExecutor::execute] of [src/src/execution/executor.rs]. *)
From S2P Require Import Prelude Errors Usage Sse SseStream Domain Images Structured Collector Pipeline ChatWire Schema Options ToolCalls ChatMachine ChatSpec Messages Reliability RetryAfter Runner History Request Headers Serialize Contract Catalog ChatRequest MessagesRequest Plan Endpoint Response Auth Credentials.

(** ** Dynamic headers: [headers/dynamic.rs] *)
Inductive DynamicResponseFormat := DynText | DynJsonObject | DynJsonSchema.
Definition dynamic_format (k : ResponseFormatKind.t) : DynamicResponseFormat :=
  match k with
  | ResponseFormatKind.Text => DynText
  | ResponseFormatKind.JsonObject => DynJsonObject
  | ResponseFormatKind.JsonSchema => DynJsonSchema
  end.
Record DynamicHeaderContext := mk_header_context {
  hx_provider_id : string; hx_product_id : string; hx_model_id : string; hx_protocol_id : string;
  hx_local_request_id : string; hx_attempt_number : Z; hx_contains_tools : bool; hx_contains_images : bool;
  hx_reasoning_enabled : bool; hx_response_format : DynamicResponseFormat; hx_deadline : option Z }.
Record DynamicHeaderPolicy := mk_dynamic_policy {
  dp_allowed_headers : list string; dp_timeout : Z; dp_max_operations : Z; dp_max_bytes : Z }.
Definition header_policy_error {A} (kind : HeaderPolicyFailure.t) : result LlmError A :=
  Err (LlmError.HeaderPolicy kind).
Definition dynamic_policy_new (allowed_headers : list string) : result LlmError DynamicHeaderPolicy :=
  if is_empty allowed_headers || (32 <? Z.of_nat (length allowed_headers))
  then header_policy_error HeaderPolicyFailure.InvalidOperation
  else if existsb is_protected_header allowed_headers
  then header_policy_error HeaderPolicyFailure.InvalidOperation
  else Ok (mk_dynamic_policy allowed_headers (from_secs 1) 16 4096).
Definition with_policy_timeout (timeout : Z) (p : DynamicHeaderPolicy) : result LlmError DynamicHeaderPolicy :=
  if timeout =? 0 then header_policy_error HeaderPolicyFailure.Timeout
  else Ok (mk_dynamic_policy (dp_allowed_headers p) timeout (dp_max_operations p) (dp_max_bytes p)).
Definition with_budget (max_operations max_bytes : Z) (p : DynamicHeaderPolicy) : result LlmError DynamicHeaderPolicy :=
  if (max_operations =? 0) || (64 <? max_operations) || (max_bytes =? 0) || (64 * 1024 <? max_bytes)
  then header_policy_error HeaderPolicyFailure.BudgetExceeded
  else Ok (mk_dynamic_policy (dp_allowed_headers p) (dp_timeout p) max_operations max_bytes).

(** The loop over the operations a callback returned, with the bytes so far. *)
Definition dynamic_operation_ok (p : DynamicHeaderPolicy) (o : HeaderOperation.t) : bool :=
  existsb (fun allowed => str_eqb allowed (op_name o)) (dp_allowed_headers p)
  && negb (op_sensitive o) && negb (is_protected_header (op_name o)).
Definition dynamic_operation_bytes (o : HeaderOperation.t) : Z :=
  match o with
  | HeaderOperation.Set_ name value => str_len name + Z.of_nat (length (hv_value value))
  | HeaderOperation.Remove name => str_len name
  end.
Fixpoint check_operations (p : DynamicHeaderPolicy) (l : list HeaderOperation.t) (bytes : Z) : result LlmError Z :=
  match l with
  | [] => Ok bytes
  | o :: l =>
      if dynamic_operation_ok p o
      then check_operations p l (usize_saturating_add bytes (dynamic_operation_bytes o))
      else header_policy_error HeaderPolicyFailure.InvalidOperation
  end.
Definition accept_operations (p : DynamicHeaderPolicy) (operations : list HeaderOperation.t)
  : result LlmError (list HeaderOperation.t) :=
  if dp_max_operations p <? Z.of_nat (length operations) then header_policy_error HeaderPolicyFailure.BudgetExceeded
  else
    bytes ← check_operations p operations 0;
    if dp_max_bytes p <? bytes then header_policy_error HeaderPolicyFailure.BudgetExceeded else Ok operations.

(** How a callback's future ends inside its timeout. *)
Inductive CallbackOutcome := TimedOut | Panicked | Failed | Returned_ (operations : list HeaderOperation.t).
(** The external callback: [None] is a panic before the future exists. *)
Class HeaderSourceWorld (W : Type) := {
  hw_resolve : DynamicHeaderContext -> W -> W * bool;
  hw_await : DynamicHeaderContext -> Z -> option Z -> option Z -> W -> W * race (race CallbackOutcome) }.

(** ** The transport: [transport/mod.rs] *)
Section Attempt.
Context {W H : Type} {WD : World W H} {CW : CredentialWorld W} {HW : HeaderSourceWorld W}.
Context {U : Urls} {UP : UrlParts} {HV : HttpValues} {HT : HeaderText}.
Context {HH : HttpHeaders} {HF : HeaderFields}.

Definition resolve_dynamic_headers (p : DynamicHeaderPolicy) (lifecycle : Runner.Request)
    (context : DynamicHeaderContext) : Future W (result LlmError (list HeaderOperation.t)) := fun deadline w =>
  match hw_resolve context w with
  | (w, false) => (w, Output (header_policy_error HeaderPolicyFailure.Callback))
  | (w, true) =>
      match await_with_lifecycle lifecycle (hw_await context (dp_timeout p) deadline) w with
      | (w, Err e) => (w, Output (Err e))
      | (w, Ok CancelledFirst) => (w, CancelledFirst)
      | (w, Ok DeadlineFirst) => (w, DeadlineFirst)
      | (w, Ok (Output outcome)) =>
          (w, Output match outcome with
                     | TimedOut => header_policy_error HeaderPolicyFailure.Timeout
                     | Panicked | Failed => header_policy_error HeaderPolicyFailure.Callback
                     | Returned_ operations => accept_operations p operations
                     end)
      end
  end.

Record HttpRequest := mk_http_request {
  hr_endpoint : ResolvedEndpoint; hr_headers : gmap string (list ascii); hr_body : list ascii;
  hr_lifecycle : Runner.Request; hr_local_request_id : string; hr_redirect_policy : RedirectPolicy }.
Record HttpResponse := mk_http_response { hp_status : Z; hp_headers : HeaderMap; hp_body : ByteStream }.

(** ** Profiles: [profile.rs] *)
Record ProviderProfile := mk_profile {
  pp_runtime : ProviderRuntime; pp_endpoint : EndpointConfig; pp_credential_binding : CredentialBinding;
  pp_auth : AuthProvider (W := W); pp_client_identity : ClientIdentity;
  pp_provider_headers : list HeaderOperation.t; pp_model_headers : list HeaderOperation.t;
  pp_dynamic_header_policy : option DynamicHeaderPolicy; pp_redirect_policy : RedirectPolicy;
  pp_rate_limit : list RateLimitHeaderSpec; pp_idempotency : IdempotencyPolicy; pp_test_only : bool }.
Definition resolve_entry_endpoint (config : EndpointConfig) (mode : EndpointMode) (entry : ModelEntry)
  : result LlmError ResolvedEndpoint :=
  let values := mapping_endpoint_values (mapping_from_entry entry) in
  match mode with
  | Production => resolve_official_for config values
  | TestOnly => resolve_test_only_for config values
  end.
Definition profile_mode (p : ProviderProfile) : EndpointMode := if pp_test_only p then TestOnly else Production.
(** The endpoint a profile is checked with: the first entry's, when the template
    has variables. *)
Definition profile_endpoint (p : ProviderProfile) : result LlmError ResolvedEndpoint :=
  if requires_mapping (pp_endpoint p) then
    match entries (rt_catalog (pp_runtime p)) with
    | [] => configuration "endpoint template variables require an exact catalog entry"
    | first :: _ => resolve_entry_endpoint (pp_endpoint p) (profile_mode p) first
    end
  else if pp_test_only p then resolve_test_only (pp_endpoint p) else resolve_official (pp_endpoint p).
Definition validate_profile_credentials (p : ProviderProfile) (endpoint : ResolvedEndpoint) : result LlmError unit :=
  _ ← binding_validate (pp_credential_binding p) endpoint;
  _ ← ap_validate_endpoint (pp_auth p) endpoint;
  match ap_credential_binding (pp_auth p) with
  | Some binding =>
      configuration_if (negb (bool_decide (binding = pp_credential_binding p)))
        "authentication binding does not match provider credential binding"
  | None =>
      configuration_if (negb (bool_decide (ap_scheme_kind (pp_auth p) = SchemeNone)))
        "credential-bearing authentication must expose its destination binding"
  end.
Definition profile_from_parts (p : ProviderProfile) : result LlmError ProviderProfile :=
  let rt := pp_runtime p in
  _ ← configuration_if (rt_max_http_error_body_bytes rt =? 0) "HTTP error body limit must be positive";
  _ ← Contract.validate_capabilities (rt_capabilities rt);
  _ ← all_ok (fun e : string * ModelCapabilityProfile =>
        configuration_if (negb (str_eqb e.1 (mcp_model e.2)))
          "model capability map key does not match its declaration")
        (map_to_list (rt_model_capabilities rt));
  _ ← all_ok (fun e : string * ProtocolContract.t => validate_contract (rt_protocol rt) e.2)
        (map_to_list (rt_model_protocol_contracts rt));
  endpoint ← profile_endpoint p;
  _ ← validate_profile_credentials p endpoint;
  Ok p.

(** ** The runtime: [ProviderRuntime::build] *)
Record Runtime := mk_full_runtime {
  ru_runtime : ProviderRuntime; ru_endpoint : ResolvedEndpoint; ru_endpoint_config : EndpointConfig;
  ru_endpoint_mode : EndpointMode; ru_auth : AuthProvider (W := W); ru_client_identity : ClientIdentity;
  ru_provider_headers : list HeaderOperation.t; ru_model_headers : list HeaderOperation.t;
  ru_dynamic_header_policy : option DynamicHeaderPolicy; ru_redirect_policy : RedirectPolicy;
  ru_rate_limit : list RateLimitHeaderSpec; ru_idempotency : IdempotencyPolicy; ru_pipeline : HeaderPolicy }.
Definition validate_entry_endpoint (p : ProviderProfile) (entry : ModelEntry) : result LlmError unit :=
  mapped ← resolve_entry_endpoint (pp_endpoint p) (profile_mode p) entry;
  _ ← binding_validate (pp_credential_binding p) mapped;
  ap_validate_endpoint (pp_auth p) mapped.
Definition runtime_build (p : ProviderProfile) : result LlmError Runtime :=
  _ ← validate_runtime (pp_runtime p);
  endpoint ← profile_endpoint p;
  _ ← validate_profile_credentials p endpoint;
  _ ← all_ok (validate_entry_endpoint p) (entries (rt_catalog (pp_runtime p)));
  let provider_header_names :=
    map op_name (pp_provider_headers p)
    ++ match idempotency_header_name (pp_idempotency p) with Some name => [name] | None => [] end in
  Ok (mk_full_runtime (pp_runtime p) endpoint (pp_endpoint p) (profile_mode p) (pp_auth p) (pp_client_identity p)
        (pp_provider_headers p) (pp_model_headers p) (pp_dynamic_header_policy p) (pp_redirect_policy p)
        (pp_rate_limit p) (pp_idempotency p)
        (with_registered_headers (ap_protected_headers (pp_auth p)) provider_header_names)).

Definition resolve_target_endpoint (rt : Runtime) (target : ResolvedTarget) : result LlmError ResolvedEndpoint :=
  _ ← configuration_if
        (negb (str_eqb (ta_provider_id target) (rt_provider_id (ru_runtime rt)))
         || negb (str_eqb (ta_protocol_id target) (vb_id (rt_protocol (ru_runtime rt)))))
        "prepared call target does not match provider runtime";
  _ ← configuration_if (negb (str_eqb (ta_product_id target) (rt_product_id (ru_runtime rt))))
        "prepared call product does not match provider runtime";
  let values := mk_endpoint_values (ta_product_id target) (ta_provider_model target) (ta_deployment_id target) in
  match ru_endpoint_mode rt with
  | Production => resolve_official_for (ru_endpoint_config rt) values
  | TestOnly => resolve_test_only_for (ru_endpoint_config rt) values
  end.

(** The inputs of the header layers that do not come from a callback. *)
Definition header_inputs (rt : Runtime) (protocol model request_identity : list HeaderOperation.t)
    (request : list (string * list ascii)) (dynamic auth : list HeaderOperation.t) : HeaderInputs :=
  mk_header_inputs protocol (ru_provider_headers rt ++ request_identity) (ru_client_identity rt)
    (ru_model_headers rt ++ model) dynamic request auth.
Record HeaderAttemptContext := mk_attempt_header_context {
  hc_endpoint : ResolvedEndpoint; hc_facts : RequestFacts; hc_lifecycle : Runner.Request; hc_model_id : string;
  hc_local_request_id : string; hc_attempt_number : Z }.
Definition dynamic_header_context (rt : Runtime) (c : HeaderAttemptContext) : DynamicHeaderContext :=
  mk_header_context (rt_provider_id (ru_runtime rt)) (rt_product_id (ru_runtime rt)) (hc_model_id c)
    (vb_id (rt_protocol (ru_runtime rt))) (hc_local_request_id c) (hc_attempt_number c)
    (rfa_contains_tools (hc_facts c)) (rfa_contains_images (hc_facts c)) (rfa_reasoning_enabled (hc_facts c))
    (dynamic_format (rfa_response_format (hc_facts c))) (rq_deadline (hc_lifecycle c)).
Definition resolve_headers_for_attempt (rt : Runtime) (protocol model request_identity : list HeaderOperation.t)
    (request : list (string * list ascii)) (c : HeaderAttemptContext) : Future W (result LlmError ResolvedHeaders) :=
  fut_try (ap_resolve (ru_auth rt)
             (auth_context_for_attempt (hc_endpoint c) (rt_provider_id (ru_runtime rt))
                (rt_product_id (ru_runtime rt)) (hc_lifecycle c))) (fun auth =>
  fut_try match ru_dynamic_header_policy rt with
          | Some policy => resolve_dynamic_headers policy (hc_lifecycle c) (dynamic_header_context rt c)
          | None => fut_ready (Ok [])
          end (fun dynamic =>
  fut_ready (resolve_headers (ru_pipeline rt) (ap_validate_final (ru_auth rt))
               (header_inputs rt protocol model request_identity request dynamic auth)))).
(** The synchronous variants, with an immediately available credential. *)
Definition resolve_headers_with_protocol_operations (rt : Runtime) (protocol model : list HeaderOperation.t)
    (request : list (string * list ascii)) : result LlmError ResolvedHeaders :=
  auth ← ap_resolve_immediate (ru_auth rt) (auth_context_new (ru_endpoint rt));
  resolve_headers (ru_pipeline rt) (ap_validate_final (ru_auth rt))
    (header_inputs rt protocol model [] request [] auth).
Definition resolve_headers_with_protocol (rt : Runtime) (protocol : list (string * list ascii))
    (model : list HeaderOperation.t) (request : list (string * list ascii)) : result LlmError ResolvedHeaders :=
  resolve_headers_with_protocol_operations rt (map (fun h => op_set h.1 h.2) protocol) model request.
Definition runtime_resolve_headers (rt : Runtime) (model : list HeaderOperation.t)
    (request : list (string * list ascii)) : result LlmError ResolvedHeaders :=
  resolve_headers_with_protocol rt [("content-type", application_json); ("accept", event_stream)] model request.

(** ** The executor *)
Inductive AttemptEvent :=
| EndpointResolved
| CredentialResolved (attempt : AttemptIdentity)
| HeadersResolved (steps : list HeaderStep)
| TransportStarted
| StatusReceived (status : Z) (provider_request_id : option string)
| RateLimitObserved (report : RateLimitReport).
Record AttemptContext := mk_attempt_context {
  atc_local_request_id : string; atc_attempt : AttemptIdentity; atc_lifecycle : Runner.Request;
  atc_timeouts : TimeoutPolicy; atc_observed : bool; atc_idempotency : ResolvedIdempotency }.
Definition idempotency_operation (r : ResolvedIdempotency) : result LlmError (list HeaderOperation.t) :=
  match ri_key r, ri_header r with
  | Some key, Some name =>
      match header_value_from_str key with
      | Some value => Ok [op_set_sensitive name value]
      | None => invalid "idempotency_key" ValidationReason.InvalidHeader
                  "idempotency key cannot be encoded as an HTTP header"
      end
  | _, _ => Ok []
  end.

(** The transport, the wall clock the rate limits are read against, and the wait
    for the next item of a body. *)
Context (transport_execute : HttpRequest -> Future W (result LlmError HttpResponse)) (system_now : W -> Z).
Context (item_wait : Future W unit).

(** The events are reported only when the call is observed. *)
Definition note (c : AttemptContext) (e : AttemptEvent) (trace : list AttemptEvent) : list AttemptEvent :=
  if atc_observed c then trace ++ [e] else trace.
Definition await_stage {T} (c : AttemptContext) (stage : TimeoutStage.t) (limit : Z)
    (future : Future W (result LlmError T)) (w : W) : W * result LlmError T :=
  match await_with_stage (atc_lifecycle c) stage (Some limit) (Some (at_number (atc_attempt c))) false future w with
  | (w, Err e) => (w, Err e)
  | (w, Ok r) => (w, r)
  end.
(** [read_body_limited] on the body of a failure: each item is waited for, without
    a stage limit, in a race of the body with the lifecycle; when the lifecycle
    ends first, its error is the item. *)
Definition await_item {T} (c : AttemptContext) (k : W -> W * result LlmError T) (w : W) : W * result LlmError T :=
  match await_with_lifecycle (atc_lifecycle c) item_wait w with
  | (w, Ok _) => k w
  | (w, Err e) => (w, Err e)
  end.
Fixpoint await_past_limit (c : AttemptContext) (body : ByteStream) (bytes : list ascii) (w : W)
  : W * result LlmError LimitedBody :=
  await_item c (fun w =>
    match body with
    | [] => (w, Ok (mk_limited_body bytes false))
    | Ok [] :: body => await_past_limit c body bytes w
    | Ok _ :: _ => (w, Ok (mk_limited_body bytes true))
    | Err e :: _ => (w, Err e)
    end) w.
Fixpoint await_body (c : AttemptContext) (body : ByteStream) (limit : Z) (bytes : list ascii) (w : W)
  : W * result LlmError LimitedBody :=
  await_item c (fun w =>
    match body with
    | [] => (w, Ok (mk_limited_body bytes false))
    | Err e :: _ => (w, Err e)
    | Ok chunk :: body =>
        let remaining := Z.max (limit - Z.of_nat (length bytes)) 0 in
        if remaining <? Z.of_nat (length chunk)
        then (w, Ok (mk_limited_body (bytes ++ take (Z.to_nat remaining) chunk) true))
        else
          let bytes := bytes ++ chunk in
          if Z.of_nat (length bytes) =? limit then await_past_limit c body bytes w else await_body c body limit bytes w
    end) w.
(** What follows the response head, at the wall-clock time [now]. *)
Definition receive (rt : Runtime) (plan : ResponsePlan) (c : AttemptContext) (response : HttpResponse) (now : Z)
    (trace : list AttemptEvent) (w : W) : W * list AttemptEvent * result LlmError AttemptResponse :=
  match validate_response_header_limits (hp_headers response) with
  | Err e => (w, trace, Err e)
  | Ok _ =>
      let id := provider_request_id (hp_headers response) in
      let trace := note c (StatusReceived (hp_status response) id) trace in
      let '(observation, report) :=
        observed_rate_limit (hp_status response) (hp_headers response) (ru_rate_limit rt) now in
      let trace := match report with Some r => note c (RateLimitObserved r) trace | None => trace end in
      let meta := mk_response_meta (atc_local_request_id c) id (hp_status response)
                    (header_keys (hp_headers response)) (retry_after_delay observation) observation in
      let '(w, outcome) :=
        if is_success (hp_status response)
        then (w, _ ← validate_success_headers (hp_headers response); Ok (Success (hp_body response)))
        else
          let '(w, body) := await_body c (hp_body response) (rpl_max_error_body_bytes plan) [] w in
          (w, body ← body; Ok (HttpFailure body)) in
      (w, trace, outcome ← outcome; Ok (mk_attempt_response plan meta outcome))
  end.
Definition attempt_request (rt : Runtime) (call : PreparedCall) (c : AttemptContext) (endpoint : ResolvedEndpoint)
    (resolved : ResolvedHeaders) : HttpRequest :=
  mk_http_request endpoint (rh_headers resolved) (rp_body (prc_request call)) (atc_lifecycle c)
    (atc_local_request_id c) (ru_redirect_policy rt).
(** [execute] up to the request it sends. *)
Definition prepare_attempt (rt : Runtime) (call : PreparedCall) (c : AttemptContext) (w : W)
  : W * list AttemptEvent * result LlmError HttpRequest :=
  if at_number (atc_attempt c) =? 0
  then (w, [], invalid "attempt_number" ValidationReason.Zero "attempt number starts at one")
  else
    match lifecycle_preflight (atc_lifecycle c) w with
    | Err e => (w, [], Err e)
    | Ok _ =>
        match resolve_target_endpoint rt (prc_target call) with
        | Err e => (w, [], Err e)
        | Ok endpoint =>
            let trace := note c EndpointResolved [] in
            match idempotency_operation (atc_idempotency c) with
            | Err e => (w, trace, Err e)
            | Ok identity =>
                match await_stage c TimeoutStage.Credential (tp_credential (atc_timeouts c))
                        (resolve_headers_for_attempt rt (rp_protocol_headers (prc_request call)) [] identity
                           (xi_request_headers (prc_execution call))
                           (mk_attempt_header_context endpoint (prc_facts call) (atc_lifecycle c)
                              (ta_domain_model (prc_target call)) (atc_local_request_id c)
                              (at_number (atc_attempt c)))) w with
                | (w, Err e) => (w, trace, Err e)
                | (w, Ok resolved) =>
                    let trace := note c (CredentialResolved (atc_attempt c)) trace in
                    let trace := note c (HeadersResolved (rh_steps resolved)) trace in
                    let trace := note c TransportStarted trace in
                    (w, trace, Ok (attempt_request rt call c endpoint resolved))
                end
            end
        end
    end.
Definition execute (rt : Runtime) (call : PreparedCall) (c : AttemptContext) (w : W)
  : W * list AttemptEvent * result LlmError AttemptResponse :=
  match prepare_attempt rt call c w with
  | (w, trace, Err e) => (w, trace, Err e)
  | (w, trace, Ok request) =>
      match await_stage c TimeoutStage.ResponseHeader (tp_response_header (atc_timeouts c))
              (transport_execute request) w with
      | (w, Err e) => (w, trace, Err e)
      | (w, Ok response) =>
          receive rt (prc_response call) c response (system_now w) trace w
      end
  end.
(** The attempt as the runner opens it: [execute], then [ResponseSession::open]. *)
Definition open_response {ES : ErrorEnvelopeSyntax} (rt : Runtime) (call : PreparedCall) (c : AttemptContext) (w : W)
  : W * list AttemptEvent * result LlmError EventStream :=
  let '(w, trace, r) := execute rt call c w in (w, trace, response ← r; response_open response).
End Attempt.
