(* ===== verification/AttemptSpec.v ===== *)
(** * One attempt: what is sent, to whom, and what is reported

    The interface of authentication providers with its laws, their
    implementations, and the request an attempt sends. *)
From S2P Require Import Prelude Errors Usage Sse SseStream Domain Images Structured Collector Pipeline ChatWire Schema Options ToolCalls ChatMachine ChatSpec Messages Reliability RetryAfter Runner History Request RequestSpec Headers HeadersSpec Serialize Contract Catalog ChatRequest MessagesRequest Plan PlanSpec Endpoint EndpointSpec Response ResponseSpec Auth Credentials CredentialsSpec Attempt.

(** ** The laws of an authentication provider *)
Section Providers.
Context {W H : Type} {WD : World W H} {CW : CredentialWorld W} {U : Urls} {UP : UrlParts} {UL : UrlLaws}.
Context {HV : HttpValues} {HT : HeaderText}.

(** Whatever a provider resolves is a list of sensitive headers, and it resolves
    one only for an endpoint its declared binding matches. *)
Class LawfulAuth (p : AuthProvider (W := W)) : Prop := {
  law_sensitive : forall c d w w' ops, ap_resolve p c d w = (w', Output (Ok ops)) ->
    Forall (fun o => exists name value, o = op_set_sensitive name value) ops;
  law_bound : forall c d w w' ops, ap_resolve p c d w = (w', Output (Ok ops)) -> ops <> [] ->
    exists b, ap_credential_binding p = Some b /\ binding_validate b (ax_endpoint c) = Ok tt;
  law_endpoint : forall b e, ap_credential_binding p = Some b -> ap_validate_endpoint p e = binding_validate b e }.

Lemma secret_header_ok name key o : secret_header name key = Ok o -> exists value, o = op_set_sensitive name value.
Proof. unfold secret_header. destruct (header_value_from_str _); [|done]. intros [= <-]. eauto. Qed.
Lemma ready_output {T} (x : T) (w w' : W) (d : option Z) y : fut_ready x d w = (w', Output y) -> x = y.
Proof. by intros [= _ ->]. Qed.

#[global] Instance bearer_lawful a : LawfulAuth (bearer_auth a).
Proof.
  split; [..|by intros b e [= <-]]; simpl; intros c d w w' ops Hr%ready_output;
    unfold bearer_immediate, bearer_operation in Hr; rewrite bind_ok in Hr;
    destruct Hr as (o & Ho & [= <-]); rewrite bind_unit_ok in Ho; destruct Ho as [Hb Ho].
  - destruct (header_value_from_str _); [|done]. injection Ho as <-. repeat constructor. eauto.
  - intros _. by eexists.
Qed.
#[global] Instance api_key_header_lawful a : LawfulAuth (api_key_header_auth a).
Proof.
  split; [..|by intros b e [= <-]]; simpl; intros c d w w' ops Hr%ready_output;
    unfold api_key_header_immediate, api_key_header_operation in Hr; rewrite bind_ok in Hr;
    destruct Hr as (o & Ho & [= <-]); rewrite bind_unit_ok in Ho; destruct Ho as [Hb Ho].
  - apply secret_header_ok in Ho as [v ->]. repeat constructor. eauto.
  - intros _. by eexists.
Qed.
Lemma secret_headers_ok entries ops : secret_headers entries = Ok ops ->
  Forall (fun o => exists name value, o = op_set_sensitive name value) ops.
Proof.
  revert ops. induction entries as [|[name key] entries IH]; intros ops; simpl; [by intros [= <-]|].
  rewrite bind_ok. intros (o & [v ->]%secret_header_ok & Hr). rewrite bind_ok in Hr.
  destruct Hr as (os & Hos & [= <-]). constructor; eauto.
Qed.
#[global] Instance multi_header_lawful a : LawfulAuth (multi_header_auth a).
Proof.
  split; [..|by intros b e [= <-]]; simpl; intros c d w w' ops Hr%ready_output;
    unfold multi_header_operations in Hr; rewrite bind_unit_ok in Hr; destruct Hr as [Hb Ho].
  - by eapply secret_headers_ok.
  - intros _. by eexists.
Qed.
#[global] Instance no_auth_lawful : LawfulAuth no_auth.
Proof. split; simpl; [..|done]; intros c d w w' ops Hr%ready_output; injection Hr as <-; [constructor|done]. Qed.
#[global] Instance dynamic_lawful fuel a : LawfulAuth (dynamic_auth fuel a).
Proof.
  assert (forall c d w w' ops, ap_resolve (dynamic_auth fuel a) c d w = (w', Output (Ok ops)) ->
    binding_validate (da_binding a) (ax_endpoint c) = Ok tt /\ exists cr o, dynamic_operation cr = Ok o /\ ops = [o]) as Hd.
  { intros c d w w' ops. simpl. unfold fut_bind at 1, resolve_dynamic.
    destruct (dynamic_request a c) as [[[key cx] l]|e] eqn:Er; [|by intros [= _ ?]].
    unfold dynamic_request in Er. rewrite bind_unit_ok in Er. destruct Er as [Hb _].
    unfold fut_bind at 1. destruct (get_or_refresh _ _ _ _ _ d w) as [w1 [r| |]]; [|done|done]. simpl.
    destruct r as [r|]; [|done]. simpl. intros [= _ Hr]. split; [done|]. rewrite bind_ok in Hr.
    destruct Hr as (cr & _ & Hr). rewrite bind_ok in Hr. destruct Hr as (o & Ho & [= <-]). eauto. }
  split; [..|by intros b e [= <-]]; intros c d w w' ops Hr; apply Hd in Hr as (Hb & cr & o & Ho & ->).
  - constructor; [|constructor]. unfold dynamic_operation in Ho.
    destruct (dc_scheme cr); destruct (header_value_from_str _); try done; injection Ho as <-; eauto.
  - intros _. by eexists.
Qed.
End Providers.

(** ** Building a runtime *)
Section Runtimes.
Context {W H : Type} {WD : World W H} {CW : CredentialWorld W} {HW : HeaderSourceWorld W}.
Context {U : Urls} {UP : UrlParts} {UL : UrlLaws} {HV : HttpValues} {HT : HeaderText}.
Context {HH : HttpHeaders} {HF : HeaderFields}.
Abbreviation Runtime := (Runtime (W := W)).
Abbreviation ProviderProfile := (ProviderProfile (W := W)).

Lemma all_ok_forall {A} (f : A -> result LlmError unit) l : all_ok f l = Ok tt -> Forall (fun x => f x = Ok tt) l.
Proof.
  induction l as [|x l IH]; simpl; [by constructor|]. rewrite bind_unit_ok. intros [Hx Hl]. constructor; auto.
Qed.
Lemma runtime_build_ok (p : ProviderProfile) (rt : Runtime) : runtime_build p = Ok rt ->
  validate_profile_credentials p (ru_endpoint rt) = Ok tt /\
  Forall (fun e => validate_entry_endpoint p e = Ok tt) (entries (rt_catalog (pp_runtime p))) /\
  ru_endpoint_config rt = pp_endpoint p /\ ru_endpoint_mode rt = profile_mode p /\ ru_auth rt = pp_auth p /\
  hpo_auth (ru_pipeline rt) = list_to_set (ap_protected_headers (pp_auth p)) /\
  profile_endpoint p = Ok (ru_endpoint rt).
Proof.
  unfold runtime_build. rewrite bind_unit_ok, bind_ok. intros (_ & e & He & Hr).
  rewrite !bind_unit_ok in Hr. destruct Hr as (Hc & Hall & [= <-]). cbn. split_and!; try done.
  by apply all_ok_forall.
Qed.
Lemma profile_credentials_ok (p : ProviderProfile) e : validate_profile_credentials p e = Ok tt ->
  binding_validate (pp_credential_binding p) e = Ok tt /\
  forall b, ap_credential_binding (pp_auth p) = Some b -> b = pp_credential_binding p.
Proof.
  unfold validate_profile_credentials. rewrite !bind_unit_ok. intros (Hb & _ & Hm). split; [done|].
  intros b Eb. rewrite Eb in Hm. apply configuration_if_ok, negb_false_iff in Hm. by apply bool_decide_eq_true in Hm.
Qed.

(** A runtime is built only when the credential destination holds everywhere:
    the endpoint it was checked with and the endpoint of every catalog entry
    resolve, are admitted by the network policy, keep the configured origin and
    match the profile's binding, and a credential's own binding is that one. *)
Theorem built_runtime_bound (p : ProviderProfile) (rt : Runtime) : runtime_build p = Ok rt ->
  (forall b, ap_credential_binding (pp_auth p) = Some b -> b = pp_credential_binding p) /\
  (forall entry, entry ∈ entries (rt_catalog (pp_runtime p)) -> exists ep,
     resolve_entry_endpoint (pp_endpoint p) (profile_mode p) entry = Ok ep /\
     admitted (for_mode (profile_mode p)) (ep_url ep) /\ same_authority (ep_url ep) (destination (pp_endpoint p)) /\
     binding_validate (pp_credential_binding p) ep = Ok tt) /\
  binding_validate (pp_credential_binding p) (ru_endpoint rt) = Ok tt.
Proof.
  intros (Hc & Hall & _)%runtime_build_ok. apply profile_credentials_ok in Hc as [Hb Hs]. split_and!; [done| |done].
  intros entry Hin. rewrite Forall_forall in Hall. specialize (Hall entry Hin). unfold validate_entry_endpoint in Hall.
  rewrite bind_ok in Hall. destruct Hall as (ep & He & Hv). rewrite bind_unit_ok in Hv. destruct Hv as [Hv _].
  exists ep. unfold resolve_entry_endpoint in *.
  assert (endpoint_resolve (pp_endpoint p) (profile_mode p)
            (Some (mapping_endpoint_values (mapping_from_entry entry))) = Ok ep) as Hr by (by destruct (profile_mode p)).
  apply endpoint_resolve_ok in Hr as (Ha & Hsame & _). by split_and!.
Qed.

(** ** The request of an attempt *)
Lemma await_stage_ok {T} c stage limit (f : Future W (result LlmError T)) w w' t :
  await_stage c stage limit f w = (w', Ok t) -> exists d, f d w = (w', Output (Ok t)).
Proof.
  unfold await_stage, await_with_stage. destruct (lifecycle_preflight _ w); [|done].
  destruct (effective_deadline _ _) as [d o]. destruct (f d w) as [w1 [r| |]] eqn:E; try done.
  intros [= -> ->]. by exists d.
Qed.
Lemma fut_try_ok {T S} (f : Future W (result LlmError T)) (k : T -> Future W (result LlmError S)) d w w' y :
  fut_try f k d w = (w', Output (Ok y)) -> exists w1 x, f d w = (w1, Output (Ok x)) /\ k x d w1 = (w', Output (Ok y)).
Proof.
  unfold fut_try, fut_bind. destruct (f d w) as [w1 [[x|e]| |]]; try done. eauto.
Qed.
Lemma resolve_target_ok (rt : Runtime) target ep : resolve_target_endpoint rt target = Ok ep ->
  exists v, endpoint_resolve (ru_endpoint_config rt) (ru_endpoint_mode rt) v = Ok ep.
Proof.
  unfold resolve_target_endpoint. rewrite !if_then_ok. intros (_ & _ & Hr).
  destruct (ru_endpoint_mode rt); by eexists.
Qed.
(** Everything an attempt has established when it has its request. *)
Lemma prepare_attempt_ok (rt : Runtime) call c w w' trace rq :
  prepare_attempt rt call c w = (w', trace, Ok rq) ->
  exists identity auth dynamic resolved d w0 w1,
    resolve_target_endpoint rt (prc_target call) = Ok (hr_endpoint rq) /\
    ap_resolve (ru_auth rt) (auth_context_for_attempt (hr_endpoint rq) (rt_provider_id (ru_runtime rt))
      (rt_product_id (ru_runtime rt)) (atc_lifecycle c)) d w0 = (w1, Output (Ok auth)) /\
    resolve_headers (ru_pipeline rt) (ap_validate_final (ru_auth rt))
      (header_inputs rt (rp_protocol_headers (prc_request call)) [] identity
         (xi_request_headers (prc_execution call)) dynamic auth) = Ok resolved /\
    hr_headers rq = rh_headers resolved /\ hr_body rq = rp_body (prc_request call) /\
    hr_redirect_policy rq = ru_redirect_policy rt /\
    trace = if atc_observed c
            then [EndpointResolved; CredentialResolved (atc_attempt c); HeadersResolved (rh_steps resolved);
                  TransportStarted] else [].
Proof.
  unfold prepare_attempt. destruct (_ =? 0); [done|]. destruct (lifecycle_preflight _ w); [|done].
  destruct (resolve_target_endpoint rt (prc_target call)) as [ep|] eqn:Eep; [|done].
  destruct (idempotency_operation _) as [identity|]; [|done].
  destruct (await_stage _ _ _ _ w) as [w1 [resolved|]] eqn:Ea; [|done]. intros [= <- <- <-].
  apply await_stage_ok in Ea as (d & Ea). unfold resolve_headers_for_attempt in Ea.
  apply fut_try_ok in Ea as (w2 & auth & Hauth & Ea). apply fut_try_ok in Ea as (w3 & dynamic & _ & Ea).
  apply ready_output in Ea. exists identity, auth, dynamic, resolved, d, w, w2. cbn.
  split_and!; try done. unfold note. by destruct (atc_observed c).
Qed.

(** What a request owes to the profile it is sent for: its destination, the
    protocol's headers, and that a credential travels only to its binding. *)
Record safe_request (p : ProviderProfile) (rq : HttpRequest) : Prop := {
  sr_admitted : admitted public_https (ep_url (hr_endpoint rq));
  sr_authority : same_authority (ep_url (hr_endpoint rq)) (destination (pp_endpoint p));
  sr_content_type : hr_headers rq !! "content-type" = Some application_json;
  sr_accept : hr_headers rq !! "accept" = Some event_stream;
  sr_credential name v : name ∈ ap_protected_headers (pp_auth p) -> is_auth_ineligible_header name = false ->
    hr_headers rq !! name = Some v ->
    ap_credential_binding (pp_auth p) = Some (pp_credential_binding p) /\
    binding_validate (pp_credential_binding p) (hr_endpoint rq) = Ok tt }.
Lemma prepared_request_safe (p : ProviderProfile) (rt : Runtime) call c w w' trace rq :
  LawfulAuth (pp_auth p) -> pp_test_only p = false -> runtime_build p = Ok rt ->
  rp_protocol_headers (prc_request call) = standard_json_sse_header_operations ->
  prepare_attempt rt call c w = (w', trace, Ok rq) -> safe_request p rq.
Proof.
  intros Hlaw Htest (Hc & _ & Hcfg & Hmode & Hauth & Hpol & _)%runtime_build_ok Hproto Hp.
  apply profile_credentials_ok in Hc as [_ Hsame].
  apply prepare_attempt_ok in Hp as (identity & auth & dyn & res & d & w0 & w1 & Hep & Hr & Hh & Hhd & _).
  apply resolve_target_ok in Hep as [v Hep]. rewrite Hcfg, Hmode in Hep. unfold profile_mode in Hep. rewrite Htest in Hep.
  apply endpoint_resolve_ok in Hep as (Hadm & Ha & _). rewrite Hauth in *.
  apply runtime_headers_safe in Hh as (Hct & Hac & _ & _ & Hcred & _); [|done].
  split; rewrite ?Hhd; try done. intros name value Hname Hel Hv.
  assert (op_set_sensitive name value ∈ auth) as Hin.
  { apply Hcred; [|done|done]. unfold is_auth_header. rewrite Hpol. apply bool_decide_eq_true. by apply elem_of_list_to_set. }
  destruct (law_bound _ _ _ _ _ Hr) as (b & Hb & Hval); [by intros ->; apply not_elem_of_nil in Hin|].
  pose proof (Hsame b Hb) as Eb. by subst b.
Qed.

(** The request of an attempt of a production runtime goes, over HTTPS and
    without user information, to a public host with the configured scheme, host
    and port; it carries the protocol's content type and accept header, and it
    carries a credential in one of its provider's headers only when the provider
    resolved it for this endpoint and the endpoint matches the profile's
    credential binding. *)
Theorem attempt_request_safe (p : ProviderProfile) (rt : Runtime) call c w w' trace rq :
  LawfulAuth (pp_auth p) -> pp_test_only p = false -> runtime_build p = Ok rt ->
  rp_protocol_headers (prc_request call) = standard_json_sse_header_operations ->
  prepare_attempt rt call c w = (w', trace, Ok rq) ->
  admitted public_https (ep_url (hr_endpoint rq)) /\
  same_authority (ep_url (hr_endpoint rq)) (destination (pp_endpoint p)) /\
  hr_headers rq !! "content-type" = Some application_json /\ hr_headers rq !! "accept" = Some event_stream /\
  forall name v, name ∈ ap_protected_headers (pp_auth p) -> is_auth_ineligible_header name = false ->
    hr_headers rq !! name = Some v ->
    ap_credential_binding (pp_auth p) = Some (pp_credential_binding p) /\
    binding_validate (pp_credential_binding p) (hr_endpoint rq) = Ok tt.
Proof. intros Hl Ht Hb Hp Hr. by destruct (prepared_request_safe p rt call c w w' trace rq Hl Ht Hb Hp Hr). Qed.

(** ** What an attempt reports *)
Context (transport_execute : HttpRequest -> Future W (result LlmError HttpResponse)) (system_now : W -> Z).
Context (item_wait : Future W unit).

(** An observed attempt reports its transitions in one order, each at most
    once and only after the ones before it; an attempt that is not observed
    reports none, and a response was only received once the first five were
    reported. *)
Theorem attempt_events_ordered (rt : Runtime) call c w w' trace r :
  execute transport_execute system_now item_wait rt call c w = (w', trace, r) ->
  (atc_observed c = false -> trace = []) /\
  exists steps status id report,
    trace `prefix_of` [EndpointResolved; CredentialResolved (atc_attempt c); HeadersResolved steps; TransportStarted;
                       StatusReceived status id; RateLimitObserved report] /\
    (atc_observed c = true -> is_ok r = true -> (5 <= length trace)%nat).
Proof.
  unfold execute. destruct (prepare_attempt rt call c w) as [[w1 t1] r1] eqn:Ep.
  assert (forall l, (atc_observed c = false -> l = []) /\ (exists steps, l `prefix_of`
      [EndpointResolved; CredentialResolved (atc_attempt c); HeadersResolved steps; TransportStarted]) ->
    (atc_observed c = false -> l = []) /\ exists steps status id report,
      l `prefix_of` [EndpointResolved; CredentialResolved (atc_attempt c); HeadersResolved steps; TransportStarted;
                     StatusReceived status id; RateLimitObserved report]) as Hext.
  { intros l [H0 (steps & k & Hk)]. split; [done|]. exists steps, 0, None, (mk_rate_limit_report false false false).
    exists (k ++ [StatusReceived 0 None; RateLimitObserved (mk_rate_limit_report false false false)]).
    rewrite app_assoc, <- Hk. done. }
  assert ((atc_observed c = false -> t1 = []) /\ exists steps, t1 `prefix_of`
      [EndpointResolved; CredentialResolved (atc_attempt c); HeadersResolved steps; TransportStarted]) as Ht1.
  { destruct r1 as [rq|e].
    - apply prepare_attempt_ok in Ep as (? & ? & ? & res & ? & ? & ? & _ & _ & _ & _ & _ & _ & ->).
      split; [by intros ->|]. exists (rh_steps res). destruct (atc_observed c); [done|apply prefix_nil].
    - unfold prepare_attempt, note in Ep. split.
      + intros Hf. rewrite Hf in Ep. repeat case_match; simplify_eq; done.
      + exists []. repeat case_match; simplify_eq; try apply prefix_nil; by eexists. }
  destruct r1 as [rq|e].
  2:{ intros [= <- <- <-]. destruct (Hext t1 Ht1) as [H0 (st & s & i & rp & Hp)]. split; [done|].
      exists st, s, i, rp. by split. }
  apply prepare_attempt_ok in Ep as (? & ? & ? & res & ? & ? & ? & _ & _ & _ & _ & _ & _ & Htr).
  destruct (await_stage _ _ _ _ w1) as [w2 [resp|e]]; [|intros [= <- <- <-];
    destruct (Hext t1 Ht1) as [H0 (st & s & i & rp & Hp)]; split; [done|]; exists st, s, i, rp; by split].
  clear Ht1. unfold receive. destruct (validate_response_header_limits _).
  2:{ intros [= <- <- <-]. subst t1. split; [by intros ->|].
      exists (rh_steps res), 0, None, (mk_rate_limit_report false false false). split; [|done].
      destruct (atc_observed c); [by eexists|apply prefix_nil]. }
  match goal with |- context [if is_success ?st then (?a, ?x) else ?y] =>
    destruct (if is_success st then (a, x) else y) as [w3 outcome] end.
  destruct (observed_rate_limit _ _ _ _) as [obs [rep|]]; intros [= <- <- _]; subst t1; unfold note;
    (split; [by intros ->|]); eexists (rh_steps res), _, _.
  - exists rep. destruct (atc_observed c); simpl; [split; [done|lia]|split; [apply prefix_nil|done]].
  - exists (mk_rate_limit_report false false false).
    destruct (atc_observed c); simpl; [split; [by eexists|lia]|split; [apply prefix_nil|done]].
Qed.
End Runtimes.

(** ** Dynamic headers *)
Definition operations_bytes (l : list HeaderOperation.t) : Z := foldr (fun o n => dynamic_operation_bytes o + n) 0 l.
Lemma operation_bytes_nonneg o : 0 <= dynamic_operation_bytes o.
Proof. destruct o as [name value|name]; simpl; pose proof (str_len_nonneg name); lia. Qed.
Lemma check_operations_ok p l bytes n : 0 <= bytes <= USIZE_MAX ->
  check_operations p l bytes = Ok n <->
  Forall (fun o => dynamic_operation_ok p o = true) l /\ n = Z.min (bytes + operations_bytes l) USIZE_MAX.
Proof.
  revert bytes. induction l as [|o l IH]; intros bytes Hb; simpl.
  { rewrite Z.add_0_r, Z.min_l by lia. split; [intros [= <-]; by split|by intros [_ ->]]. }
  pose proof (operation_bytes_nonneg o). rewrite Forall_cons.
  assert (0 <= operations_bytes l) as Hl.
  { clear. induction l as [|o l IH]; simpl; [lia|]. pose proof (operation_bytes_nonneg o). lia. }
  destruct (dynamic_operation_ok p o); [|split; [done|by intros [[]]]].
  rewrite IH by (unfold usize_saturating_add, USIZE_MAX, U64_MAX in *; lia).
  assert (Z.min (usize_saturating_add bytes (dynamic_operation_bytes o) + operations_bytes l) USIZE_MAX =
          Z.min (bytes + (dynamic_operation_bytes o + operations_bytes l)) USIZE_MAX) as ->
    by (unfold usize_saturating_add; lia).
  split; intros ?; destruct_and?; by split_and!.
Qed.
(** What a dynamic header callback returns is accepted exactly when there are
    no more operations than the policy allows, each is an allowlisted,
    unprotected and insensitive one, and their bytes are within the budget. *)
Theorem dynamic_operations_exact p ops : 0 <= dp_max_bytes p < USIZE_MAX ->
  accept_operations p ops = Ok ops <->
  Z.of_nat (length ops) <= dp_max_operations p /\ operations_bytes ops <= dp_max_bytes p /\
  Forall (fun o => op_name o ∈ dp_allowed_headers p /\ op_sensitive o = false /\
                   is_protected_header (op_name o) = false) ops.
Proof.
  intros Hm. unfold accept_operations.
  assert (Forall (fun o => dynamic_operation_ok p o = true) ops <->
    Forall (fun o => op_name o ∈ dp_allowed_headers p /\ op_sensitive o = false /\
                     is_protected_header (op_name o) = false) ops) as <-.
  { apply Forall_iff. intros o. unfold dynamic_operation_ok. rewrite !andb_true_iff, !negb_true_iff, existsb_exists.
    split; [intros [[(x & Hx & E) ?] ?]|intros (? & ? & ?)]; split_and!; try done.
    - apply str_eqb_spec in E as <-. by apply list_elem_of_In.
    - exists (op_name o). split; [by apply list_elem_of_In|by apply str_eqb_spec]. }
  destruct (Z.ltb_spec (dp_max_operations p) (Z.of_nat (length ops))); [split; [done|lia]|]. rewrite bind_ok. split.
  - intros (n & Hn & Hb). apply check_operations_ok in Hn as [Hf ->]; [|unfold USIZE_MAX, U64_MAX; lia].
    destruct (Z.ltb_spec (dp_max_bytes p) (Z.min (0 + operations_bytes ops) USIZE_MAX)); [done|].
    split_and!; [lia|lia|done].
  - intros (_ & Hb & Hf). eexists. split; [apply check_operations_ok; [unfold USIZE_MAX, U64_MAX; lia|by split]|].
    by destruct (Z.ltb_spec (dp_max_bytes p) (Z.min (0 + operations_bytes ops) USIZE_MAX)); [lia|].
Qed.
(** An allowlisted header the policy and the callback accept, and the header
    pipeline then refuses on every request. *)
Theorem dynamic_allowlist_too_wide policy : is_provider_header policy "traceparent" = false ->
  is_auth_header policy "traceparent" = false ->
  let p := mk_dynamic_policy ["traceparent"] (from_secs 1) 16 4096 in
  let o := op_set "traceparent" (bytes_of "00-1") in
  dynamic_policy_new ["traceparent"] = Ok p /\ accept_operations p [o] = Ok [o] /\
  validate_operation policy HeaderSource.DynamicPolicy (op_name o) (op_sensitive o) =
    header_invalid "traceparent" "header is protected for this source".
Proof.
  intros Hp Ha p o. split; [reflexivity|]. split; [reflexivity|].
  unfold validate_operation, allows. simpl op_name. rewrite Hp, Ha. reflexivity.
Qed.

(** ** HTTP failures *)
Lemma summary_from_bytes_redacted bytes limit : sensitive_text (summary_from_bytes bytes limit) = false.
Proof. apply summary_redacted. Qed.
Lemma status_retriable_spec st : status_retriable st = Maybe <-> st = 408 \/ st = 429 \/ 500 <= st <= 599.
Proof.
  unfold status_retriable, is_server_error. destruct ((st =? 408) || (st =? 429) || in_range 500 599 st) eqn:E.
  - split; [|done]. intros _. rewrite !orb_true_iff, !Z.eqb_eq, in_range_spec in E. naive_solver.
  - split; [done|]. intros Hx. rewrite !orb_false_iff, !Z.eqb_neq in E. destruct E as [[? ?] E].
    destruct Hx as [?|[?|Hx]]; [done..|]. apply in_range_spec in Hx. congruence.
Qed.
Section Failures.
Context {W H : Type} {WD : World W H} {CW : CredentialWorld W} {HW : HeaderSourceWorld W}.
Context {U : Urls} {UP : UrlParts} {HV : HttpValues} {HT : HeaderText} {HH : HttpHeaders} {HF : HeaderFields}.
Context {ES : ErrorEnvelopeSyntax}.
Context (transport_execute : HttpRequest -> Future W (result LlmError HttpResponse)) (system_now : W -> Z).
Context (item_wait : Future W unit).

(** Waiting for the items of an error body reads the body, unless the lifecycle
    ends a wait first. *)
Lemma await_body_reads c body limit : forall bytes w,
  let ended (w' : W) r := exists w0 e, await_with_lifecycle (atc_lifecycle c) item_wait w0 = (w', Err e) /\ r = Err e in
  (let '(w', r) := await_past_limit item_wait c body bytes w in r = read_past_limit body bytes \/ ended w' r) /\
  let '(w', r) := await_body item_wait c body limit bytes w in r = read_body body limit bytes \/ ended w' r.
Proof.
  induction body as [|[chunk|e] body IH]; intros bytes w ended; cbn [await_past_limit await_body]; unfold await_item;
    destruct (await_with_lifecycle (atc_lifecycle c) item_wait w) as [w1 [[]|e']] eqn:E;
    try (split; right; by exists w, e'); try by split; left.
  cbn [read_past_limit read_body]. split.
  - destruct chunk as [|b chunk]; [|by left]. apply (IH bytes w1).
  - destruct (_ <? _); [by left|]. destruct (_ =? _); apply (IH (bytes ++ chunk) w1).
Qed.
(** Without a deadline nothing limits the wait for an item of an error body. *)
Theorem error_body_wait_unlimited {T} c (k : W -> W * result LlmError T) w :
  rq_deadline (atc_lifecycle c) = None -> w_cancelled w = false ->
  await_item item_wait c k w =
    match item_wait None w with
    | (w', Output _) => k w'
    | (w', CancelledFirst) => (w', Err LlmError.Cancelled)
    | (w', DeadlineFirst) =>
        (w', Err (LlmError.Timeout (timeout_with_context (timeout_error TimeoutStage.Overall) false
                    (elapsed (atc_lifecycle c) w') None None false)))
    end.
Proof.
  intros Hd Hc. unfold await_item, await_with_lifecycle, await_with_stage, lifecycle_preflight, effective_deadline.
  rewrite Hc, Hd. cbn. by destruct (item_wait None w) as [w' [[]| |]].
Qed.
Lemma await_body_ok c body limit w w' b :
  await_body item_wait c body limit [] w = (w', Ok b) -> read_body_limited body limit = Ok b.
Proof.
  intros E. pose proof (proj2 (await_body_reads c body limit [] w)) as Hr. rewrite E in Hr.
  destruct Hr as [Hr|(w0 & e & _ & [=])]. by symmetry.
Qed.

Lemma execute_outcome (rt : Runtime (W := W)) call c w w' trace resp :
  execute transport_execute system_now item_wait rt call c w = (w', trace, Ok resp) ->
  are_plan resp = prc_response call /\
  match are_outcome resp with
  | Success _ => is_success (rm_status (are_meta resp)) = true
  | HttpFailure body => is_success (rm_status (are_meta resp)) = false /\
      exists items, read_body_limited items (rpl_max_error_body_bytes (prc_response call)) = Ok body
  end.
Proof.
  unfold execute. destruct (prepare_attempt rt call c w) as [[w1 t1] [rq|e]]; [|done].
  destruct (await_stage _ _ _ _ w1) as [w2 [response|e]]; [|done]. unfold receive.
  destruct (validate_response_header_limits _); [|done]. destruct (observed_rate_limit _ _ _ _) as [obs rep].
  destruct (is_success (hp_status response)) eqn:Es.
  - intros [= _ _ Hr]. rewrite bind_ok in Hr. destruct Hr as (outcome & Ho & [= <-]). split; [done|].
    rewrite bind_unit_ok in Ho. by destruct Ho as [_ [= <-]].
  - destruct (await_body _ _ _ _ _ _) as [w3 [body|e]] eqn:Ea; intros [= _ _ Hr].
    subst resp. split; [done|]. split; [done|]. apply await_body_ok in Ea. eauto.
Qed.
(** C32. An executed attempt opens its protocol's stream exactly when the status is
    a success; any other status is reported as an HTTP error with that status,
    the parsed retry delay, a hint to retry exactly for 408, 429 and 5xx, and a
    summary without credential markers. *)
Theorem response_dispatch (rt : Runtime (W := W)) call c w w' trace resp :
  execute transport_execute system_now item_wait rt call c w = (w', trace, Ok resp) ->
  let status := rm_status (are_meta resp) in
  if is_success status then exists events, response_open resp = Ok events
  else exists e, response_open resp = Err (LlmError.HttpStatus e) /\ hse_status e = status /\
    hse_retry_after e = rm_retry_after (are_meta resp) /\
    (hse_hint e = Maybe <-> status = 408 \/ status = 429 \/ 500 <= status <= 599) /\
    sensitive_text (hse_body e) = false.
Proof.
  intros [_ Ho]%execute_outcome. cbn zeta. unfold response_open.
  destruct (are_outcome resp) as [body|body].
  - rewrite Ho. destruct (rpl_protocol (are_plan resp)); eauto.
  - destruct Ho as [-> _]. destruct (rpl_protocol (are_plan resp)); eexists; (split; [reflexivity|]);
      cbn; (split_and!; [done|done|apply status_retriable_spec|]).
    + apply summary_redacted.
    + apply summary_from_bytes_redacted.
Qed.
End Failures.

(** ** Examples *)
#[local] Instance still_world : World nat unit := {
  w_now _ := 0; w_cancelled _ := false; w_cancel w := w; w_random w := (w, 7); w_uuid w := (w, "id");
  w_plan w := (w, Ok tt); w_prepare w := (w, Ok tt); w_open _ _ w := (w, Ok tt); w_next h _ w := (w, Output (h, None));
  w_sleep _ _ w := (w, Output tt) }.
#[local] Instance still_credentials : CredentialWorld nat := {
  cw_cache _ := cache_new; cw_set_cache _ w := w; cw_new_notify w := (S w, w); cw_lock _ w := (w, Output tt);
  cw_notified _ _ w := (w, Output tt); cw_notify_waiters _ w := w;
  cw_acquire _ _ _ _ w := (w, Output (Output None)) }.
#[local] Instance still_headers : HeaderSourceWorld nat := {
  hw_resolve _ w := (w, true); hw_await _ _ _ _ w := (w, Output (Output (Returned_ []))) }.
#[local] Instance ascii_values : HttpValues := plain_http.
#[local] Instance ascii_text : HeaderText := fun v => Some (str_of v).
#[local] Instance example_header_maps : HttpHeaders := {
  HeaderMap := list (string * string); HeaderValue := string;
  get_all m name := map snd (List.filter (fun f => str_eqb f.1 name) m); to_str v := Some v }.
#[local] Instance example_header_fields : HeaderFields := {
  header_iter m := m; header_bytes v := bytes_of v; header_keys m := map fst m }.
#[local] Existing Instances record_urls record_parts record_laws.

Definition example_openai_url : Url :=
  UrlRecord.mk "https" EmptyString None (Some (HostDomain "api.openai.com")) None "/v1" [] None.
Definition example_bearer : AuthProvider (W := nat) :=
  bearer_auth (mk_bearer_auth (mk_bearer_credential (mk_api_key "key") binding_official_openai)).
Definition example_profile : ProviderProfile (W := nat) :=
  mk_profile strict_runtime (BaseAndPath example_openai_url "/chat/completions") binding_official_openai
    example_bearer (mk_identity "philo" "1" None None []) [] [] None RedirectDisabled standard_only
    idempotency_unknown false.
Definition example_runtime : Runtime (W := nat) :=
  get_ok (mk_full_runtime strict_runtime (mk_endpoint example_openai_url (origin_new "https" "" 443)
            (mk_endpoint_diagnostics [] [])) (Absolute example_openai_url) TestOnly no_auth
            (mk_identity "philo" "1" None None []) [] [] None RedirectDisabled [] idempotency_unknown header_policy_new)
    (runtime_build example_profile).
Definition example_call : PreparedCall :=
  mk_prepared_call
    (mk_target "openai" "chat" "openai-chat-completions" ProtocolKind.OpenAiChatCompletions "gpt" "gpt" None "gpt")
    (mk_request_parts ChatCompletions standard_json_sse_header_operations (bytes_of "{}"))
    (mk_response_plan 16 (ProtocolResponsePlan.OpenAiChat (mk_model_ref "openai" "gpt") FText chat_contract_strict
                            (response_limits_from official) sample_sse))
    (mk_request_facts false false false ResponseFormatKind.Text TokensOmitted) (mk_intent [] None).
Definition example_lifecycle : Runner.Request :=
  mk_request 0 None timeout_policy_new retry_policy_standard retry_wait_policy_new
    (mk_resolved_idempotency None None IdempotencyCapability.Unknown None) true "local".
Definition example_context : AttemptContext :=
  mk_attempt_context "local" (mk_attempt "a" 1) example_lifecycle timeout_policy_new true
    (mk_resolved_idempotency None None IdempotencyCapability.Unknown None).
Definition example_attempt : nat * list AttemptEvent * result LlmError HttpRequest :=
  prepare_attempt example_runtime example_call example_context 0%nat.
Example example_built : is_ok (runtime_build example_profile) = true.
Proof. vm_compute. reflexivity. Qed.
Example example_prepared : is_ok example_attempt.2 = true /\ length example_attempt.1.2 = 4%nat.
Proof. vm_compute. split; reflexivity. Qed.
Lemma get_ok_eq {A} (d : A) (r : result LlmError A) : is_ok r = true -> r = Ok (get_ok d r).
Proof. by destruct r. Qed.
Lemma built_runtime_bound_witness :
  binding_validate (pp_credential_binding example_profile) (ru_endpoint example_runtime) = Ok tt.
Proof.
  refine (proj2 (proj2 (built_runtime_bound example_profile example_runtime _))).
  apply get_ok_eq. exact example_built.
Defined.
Lemma attempt_request_safe_witness :
  exists rq, example_attempt.2 = Ok rq /\ hr_headers rq !! "accept" = Some event_stream.
Proof.
  destruct example_attempt as [[w t] [rq|e]] eqn:E.
  - exists rq. split; [reflexivity|].
    destruct (attempt_request_safe example_profile example_runtime example_call example_context 0%nat w t rq)
      as (_ & _ & _ & Ha & _); [apply bearer_lawful|reflexivity|apply get_ok_eq; exact example_built|reflexivity|exact E|].
    exact Ha.
  - exfalso. pose proof example_prepared as [Hx _]. rewrite E in Hx. discriminate Hx.
Defined.
Definition rate_limited_transport : HttpRequest -> Future nat (result LlmError HttpResponse) := fun _ _ w =>
  (w, Output (Ok (mk_http_response 429 [("retry-after", "2")] [Ok (bytes_of "slow down, api_key rejected")]))).
Definition example_item_wait : Future nat unit := fun _ w => (w, Output tt).
Definition example_execution : nat * list AttemptEvent * result LlmError AttemptResponse :=
  execute rate_limited_transport (fun _ => 0) example_item_wait example_runtime example_call example_context 0%nat.
Example example_executed : is_ok example_execution.2 = true /\ length example_execution.1.2 = 6%nat.
Proof. vm_compute. split; reflexivity. Qed.
Lemma attempt_events_ordered_witness :
  exists steps status id report, example_execution.1.2 `prefix_of`
    [EndpointResolved; CredentialResolved (atc_attempt example_context); HeadersResolved steps; TransportStarted;
     StatusReceived status id; RateLimitObserved report].
Proof.
  destruct example_execution as [[w t] r] eqn:E.
  destruct (attempt_events_ordered rate_limited_transport (fun _ => 0) example_item_wait example_runtime example_call example_context
              0%nat w t r E) as [_ (st & s & i & rp & Hp & _)].
  exists st, s, i, rp. exact Hp.
Defined.
#[local] Instance no_envelope : ErrorEnvelopeSyntax := fun _ => None.
Lemma response_dispatch_witness :
  exists resp, example_execution.2 = Ok resp /\
    exists e, response_open resp = Err (LlmError.HttpStatus e) /\ sensitive_text (hse_body e) = false.
Proof.
  destruct example_execution as [[w t] [resp|e]] eqn:E.
  - exists resp. split; [reflexivity|].
    pose proof (response_dispatch rate_limited_transport (fun _ => 0) example_item_wait example_runtime example_call example_context
                  0%nat w t resp E) as Hd. cbn zeta in Hd.
    assert (is_success (rm_status (are_meta resp)) = false) as Hs.
    { assert (match example_execution.2 with Ok r => rm_status (are_meta r) | Err _ => 0 end = 429) as Hst
        by (vm_compute; reflexivity). rewrite E in Hst. cbn in Hst. rewrite Hst. reflexivity. }
    rewrite Hs in Hd. destruct Hd as (e & He & _ & _ & _ & Hb). exists e. split; [exact He|exact Hb].
  - exfalso. pose proof example_executed as [Hx _]. rewrite E in Hx. discriminate Hx.
Defined.
Lemma dynamic_operations_exact_witness :
  let p := mk_dynamic_policy ["x-trace"] (from_secs 1) 16 4096 in
  accept_operations p [op_set "x-trace" (bytes_of "1")] = Ok [op_set "x-trace" (bytes_of "1")].
Proof.
  intros p. apply (dynamic_operations_exact p [op_set "x-trace" (bytes_of "1")]).
  - vm_compute. split; [discriminate|reflexivity].
  - split; [vm_compute; discriminate|]. split; [vm_compute; discriminate|].
    constructor; [|constructor]. split; [apply list_elem_of_here|]. split; reflexivity.
Defined.
