(* ===== verification/Definitions.v ===== *)
(** * Provider definitions

    [src/src/provider/definition.rs], [secret.rs] and [factory.rs]: the
    secret-free declaration of a provider product, the builder that checks it and
    its compilation with a deployment's credential into a profile. *)
From S2P Require Import Prelude Errors Usage Sse SseStream Domain Images Structured Collector Pipeline ChatWire Schema Options ToolCalls ChatMachine ChatSpec Messages Reliability RetryAfter Runner History Request Headers Serialize Contract Catalog ChatRequest MessagesRequest Plan Endpoint Response Auth Credentials Attempt.

(** ** Secrets: [secret.rs] *)
Inductive SecretReference := EnvironmentVariable (name : string).
Definition secret_name (r : SecretReference) : string := match r with EnvironmentVariable name => name end.
Definition provider_config_error (field : string) (reason : ProviderConfigFailure) (message : string) : ProviderConfigError :=
  mk_provider_config_error field reason message None.
Definition variable_byte (first : bool) (b : ascii) : bool :=
  (if first then is_ascii_alphabetic b else is_ascii_alphanumeric b) || Ascii.eqb b "_".
Definition variable_name (name : string) : bool :=
  match name with
  | EmptyString => false
  | String b rest => (str_len name <=? 128) && variable_byte true b && str_all (variable_byte false) rest
  end.
Definition environment_variable (name : string) : result ProviderConfigError SecretReference :=
  if variable_name name then Ok (EnvironmentVariable name)
  else Err (provider_config_error "credential.name" InvalidValue
              "environment secret reference must be a valid variable name").
Definition validate_reference (r : SecretReference) : result ProviderConfigError unit :=
  _ ← environment_variable (secret_name r); Ok tt.
(** The trait [SecretResolver]. *)
Definition SecretResolver : Type := SecretReference -> result ProviderConfigError ApiKey.
Section Environment.
Context {HV : HttpValues} (env_var : string -> option string).
Definition environment_resolve : SecretResolver := fun reference =>
  match env_var (secret_name reference) with
  | None => Err (provider_config_error "credential" SecretUnavailable "referenced environment secret is unavailable")
  | Some value =>
      match api_key_new value with
      | Ok key => Ok key
      | Err _ => Err (provider_config_error "credential" InvalidValue "referenced secret is not a valid API key")
      end
  end.
End Environment.

(** ** Selection: [factory.rs] *)
Inductive ProviderSelectionSource := RequestExplicit | ModelExplicit | ProviderExplicit | BuiltInProfile | Undeclared.
Record ProviderSelectionInput := mk_selection_input {
  si_request : option string; si_model : option string; si_provider : option string;
  si_built_in_profile : option string }.
Record ProviderSelection := mk_selection { sl_provider_id : option string; sl_source : ProviderSelectionSource }.
Definition select (input : ProviderSelectionInput) : ProviderSelection :=
  match omap (fun t : option string * ProviderSelectionSource =>
                (fun provider => mk_selection (Some provider) t.2) <$> t.1)
          [(si_request input, RequestExplicit); (si_model input, ModelExplicit);
           (si_provider input, ProviderExplicit); (si_built_in_profile input, BuiltInProfile)] with
  | selection :: _ => selection
  | [] => mk_selection None Undeclared
  end.

Section Definitions.
Context {W H : Type} {WD : World W H}.
Context {U : Urls} {UP : UrlParts} {HV : HttpValues} {HT : HeaderText}.
#[local] Abbreviation AuthProvider := (AuthProvider (W := W)).

(** ** Authentication shapes *)
Inductive AuthScheme :=
| AsBearer | AsApiKeyHeader (name : string) | AsCustom (kind : AuthSchemeKind) (protected_headers : list string) | AsNone.
Definition scheme_api_key_header (name : string) : result LlmError AuthScheme :=
  _ ← validate_auth_name name; Ok (AsApiKeyHeader name).
Definition header_set (headers : list string) : gset string := list_to_set headers.
Definition from_auth_provider (auth : AuthProvider) : result LlmError AuthScheme :=
  match ap_scheme_kind auth with
  | SchemeBearer => Ok AsBearer
  | SchemeApiKeyHeader =>
      match ap_protected_headers auth with
      | [name] => scheme_api_key_header name
      | _ => configuration "API-key authentication must protect exactly one header"
      end
  | SchemeNone => Ok AsNone
  | kind =>
      let protected_headers := ap_protected_headers auth in
      _ ← configuration_if (is_empty protected_headers) "custom authentication must declare protected headers";
      _ ← all_ok validate_auth_name protected_headers;
      _ ← configuration_if (negb (size (header_set protected_headers) =? length protected_headers)%nat)
            "custom authentication protected headers must be unique";
      Ok (AsCustom kind protected_headers)
  end.
Definition scheme_kind (s : AuthScheme) : AuthSchemeKind :=
  match s with
  | AsBearer => SchemeBearer | AsApiKeyHeader _ => SchemeApiKeyHeader | AsCustom kind _ => kind | AsNone => SchemeNone
  end.
Definition scheme_protected_headers (s : AuthScheme) : list string :=
  match s with
  | AsBearer => ["authorization"] | AsApiKeyHeader name => [name] | AsCustom _ names => names | AsNone => []
  end.

(** ** Deployments *)
Definition identity_default : ClientIdentity := mk_identity "philo" "1.0.0-rc.1" None None [].
Inductive DeploymentCredential := CredReference (r : SecretReference) | CredAuthProvider (a : AuthProvider) | CredNone.
Record ProviderDeploymentConfig := mk_deployment_config {
  dc_provider_id : string; dc_credential : DeploymentCredential; dc_client_identity : ClientIdentity;
  dc_resource_limits : ResourceLimits; dc_sse : SseConfig; dc_max_http_error_body_bytes : Z }.
Definition deployment_of (provider_id : string) (credential : DeploymentCredential) : ProviderDeploymentConfig :=
  mk_deployment_config provider_id credential identity_default official sse_config_default (16 * 1024).
Definition deployment_new (provider_id : string) (credential : SecretReference) := deployment_of provider_id (CredReference credential).
Definition deployment_with_auth_provider (provider_id : string) (auth : AuthProvider) :=
  deployment_of provider_id (CredAuthProvider auth).
Definition deployment_without_auth (provider_id : string) := deployment_of provider_id CredNone.
Definition dc_with_client_identity (identity : ClientIdentity) (d : ProviderDeploymentConfig) :=
  mk_deployment_config (dc_provider_id d) (dc_credential d) identity (dc_resource_limits d) (dc_sse d)
    (dc_max_http_error_body_bytes d).
Definition dc_with_resource_limits (limits : ResourceLimits) (d : ProviderDeploymentConfig) :=
  mk_deployment_config (dc_provider_id d) (dc_credential d) (dc_client_identity d) limits (dc_sse d)
    (dc_max_http_error_body_bytes d).
Definition dc_with_sse_config (sse : SseConfig) (d : ProviderDeploymentConfig) :=
  mk_deployment_config (dc_provider_id d) (dc_credential d) (dc_client_identity d) (dc_resource_limits d) sse
    (dc_max_http_error_body_bytes d).
Definition dc_with_max_http_error_body_bytes (limit : Z) (d : ProviderDeploymentConfig)
  : result LlmError ProviderDeploymentConfig :=
  if limit =? 0 then configuration "HTTP error body limit must be positive"
  else Ok (mk_deployment_config (dc_provider_id d) (dc_credential d) (dc_client_identity d) (dc_resource_limits d)
             (dc_sse d) limit).

Record ResolvedProviderDeployment := mk_resolved_deployment {
  rd_auth : AuthProvider; rd_client_identity : ClientIdentity; rd_resource_limits : ResourceLimits;
  rd_sse : SseConfig; rd_max_http_error_body_bytes : Z }.
Definition resolved_deployment_new (auth : AuthProvider) (identity : ClientIdentity) : ResolvedProviderDeployment :=
  mk_resolved_deployment auth identity official sse_config_default (16 * 1024).
Definition rd_with_resource_limits (limits : ResourceLimits) (d : ResolvedProviderDeployment) :=
  mk_resolved_deployment (rd_auth d) (rd_client_identity d) limits (rd_sse d) (rd_max_http_error_body_bytes d).
Definition rd_with_sse_config (sse : SseConfig) (d : ResolvedProviderDeployment) :=
  mk_resolved_deployment (rd_auth d) (rd_client_identity d) (rd_resource_limits d) sse (rd_max_http_error_body_bytes d).
Definition rd_with_max_http_error_body_bytes (limit : Z) (d : ResolvedProviderDeployment)
  : result LlmError ResolvedProviderDeployment :=
  if limit =? 0 then configuration "HTTP error body limit must be positive"
  else Ok (mk_resolved_deployment (rd_auth d) (rd_client_identity d) (rd_resource_limits d) (rd_sse d) limit).

(** Every ceiling of a deployment is at most the SDK's. *)
Definition limits_within (limits maximum : ResourceLimits) : bool :=
  forallb (fun p : (string * Z) * (string * Z) => p.1.2 <=? p.2.2) (zip (limit_fields limits) (limit_fields maximum)).
Definition sse_within (sse maximum : SseConfig) : bool :=
  (max_event_bytes sse <=? max_event_bytes maximum) && (max_line_bytes sse <=? max_line_bytes maximum)
  && (max_chunk_bytes sse <=? max_chunk_bytes maximum) && (max_bytes_per_poll sse <=? max_bytes_per_poll maximum)
  && (max_chunks_per_poll sse <=? max_chunks_per_poll maximum)
  && (max_events_per_poll sse <=? max_events_per_poll maximum)
  && match max_fields_per_event sse, max_fields_per_event maximum with
     | Some actual, Some maximum => (0 <? actual) && (actual <=? maximum)
     | _, _ => false
     end.
Definition validate_deployment_limits (d : ResolvedProviderDeployment) : result LlmError unit :=
  _ ← map_err LlmError.Validation (validate_limits (rd_resource_limits d));
  _ ← configuration_if (negb (limits_within (rd_resource_limits d) official))
        "deployment resource limits exceed the SDK production ceiling";
  configuration_if (negb (sse_within (rd_sse d) sse_config_default))
    "deployment SSE limits must be positive and within the SDK production ceiling".

(** ** The builder *)
Record DefinitionBuilder := mk_definition_builder {
  db_provider_id : string; db_product_id : string; db_protocol_id : string; db_dialect : ProtocolDialect.t;
  db_contract : ProtocolContract.t; db_endpoint : option EndpointConfig;
  db_credential_binding : option CredentialBinding; db_bind_to_endpoint_origin : bool;
  db_auth_scheme : option AuthScheme; db_provider_headers : list HeaderOperation.t;
  db_model_headers : list HeaderOperation.t; db_dynamic_header_policy : option DynamicHeaderPolicy;
  db_capabilities : option ProviderCapabilities; db_model_capabilities : gmap string ModelCapabilityProfile;
  db_catalog : option ModelCatalog; db_allow_unregistered_models : bool;
  db_model_compat : gmap string CompatProfile; db_transport : RedirectPolicy; db_rate_limit : list RateLimitHeaderSpec;
  db_idempotency : IdempotencyPolicy }.
Definition definition_builder_new (provider_id product_id protocol_id : string) (dialect : ProtocolDialect.t)
    (contract : ProtocolContract.t) : DefinitionBuilder :=
  mk_definition_builder provider_id product_id protocol_id dialect contract None None false None [] [] None None ∅
    None false ∅ RedirectDisabled standard_only idempotency_unknown.
Definition definition_openai_chat (provider_id product_id : string) : DefinitionBuilder :=
  definition_builder_new provider_id product_id "openai-chat-completions" ProtocolDialect.OpenAiChatCompletions
    (ProtocolContract.OpenAiChat chat_contract_strict).
Definition definition_anthropic_messages (provider_id product_id : string) : DefinitionBuilder :=
  definition_builder_new provider_id product_id "anthropic-messages" ProtocolDialect.AnthropicMessages
    (ProtocolContract.AnthropicMessages messages_contract_strict).
Definition with_endpoint (endpoint : EndpointConfig) (b : DefinitionBuilder) : DefinitionBuilder :=
  mk_definition_builder (db_provider_id b) (db_product_id b) (db_protocol_id b) (db_dialect b) (db_contract b)
    (Some endpoint) (db_credential_binding b) (db_bind_to_endpoint_origin b) (db_auth_scheme b)
    (db_provider_headers b) (db_model_headers b) (db_dynamic_header_policy b) (db_capabilities b)
    (db_model_capabilities b) (db_catalog b) (db_allow_unregistered_models b) (db_model_compat b)
    (db_transport b) (db_rate_limit b) (db_idempotency b).
Definition with_credential_binding (binding : CredentialBinding) (b : DefinitionBuilder) : DefinitionBuilder :=
  mk_definition_builder (db_provider_id b) (db_product_id b) (db_protocol_id b) (db_dialect b) (db_contract b)
    (db_endpoint b) (Some binding) (false) (db_auth_scheme b) (db_provider_headers b) (db_model_headers b)
    (db_dynamic_header_policy b) (db_capabilities b) (db_model_capabilities b) (db_catalog b)
    (db_allow_unregistered_models b) (db_model_compat b) (db_transport b) (db_rate_limit b) (db_idempotency b).
Definition bind_credential_to_endpoint_origin  (b : DefinitionBuilder) : DefinitionBuilder :=
  mk_definition_builder (db_provider_id b) (db_product_id b) (db_protocol_id b) (db_dialect b) (db_contract b)
    (db_endpoint b) (None) (true) (db_auth_scheme b) (db_provider_headers b) (db_model_headers b)
    (db_dynamic_header_policy b) (db_capabilities b) (db_model_capabilities b) (db_catalog b)
    (db_allow_unregistered_models b) (db_model_compat b) (db_transport b) (db_rate_limit b) (db_idempotency b).
Definition with_auth_scheme (scheme : AuthScheme) (b : DefinitionBuilder) : DefinitionBuilder :=
  mk_definition_builder (db_provider_id b) (db_product_id b) (db_protocol_id b) (db_dialect b) (db_contract b)
    (db_endpoint b) (db_credential_binding b) (db_bind_to_endpoint_origin b) (Some scheme)
    (db_provider_headers b) (db_model_headers b) (db_dynamic_header_policy b) (db_capabilities b)
    (db_model_capabilities b) (db_catalog b) (db_allow_unregistered_models b) (db_model_compat b)
    (db_transport b) (db_rate_limit b) (db_idempotency b).
Definition with_provider_headers (headers : list HeaderOperation.t) (b : DefinitionBuilder) : DefinitionBuilder :=
  mk_definition_builder (db_provider_id b) (db_product_id b) (db_protocol_id b) (db_dialect b) (db_contract b)
    (db_endpoint b) (db_credential_binding b) (db_bind_to_endpoint_origin b) (db_auth_scheme b) (headers)
    (db_model_headers b) (db_dynamic_header_policy b) (db_capabilities b) (db_model_capabilities b)
    (db_catalog b) (db_allow_unregistered_models b) (db_model_compat b) (db_transport b) (db_rate_limit b)
    (db_idempotency b).
Definition with_model_headers (headers : list HeaderOperation.t) (b : DefinitionBuilder) : DefinitionBuilder :=
  mk_definition_builder (db_provider_id b) (db_product_id b) (db_protocol_id b) (db_dialect b) (db_contract b)
    (db_endpoint b) (db_credential_binding b) (db_bind_to_endpoint_origin b) (db_auth_scheme b)
    (db_provider_headers b) (headers) (db_dynamic_header_policy b) (db_capabilities b) (db_model_capabilities b)
    (db_catalog b) (db_allow_unregistered_models b) (db_model_compat b) (db_transport b) (db_rate_limit b)
    (db_idempotency b).
Definition with_shared_dynamic_header_policy (policy : option DynamicHeaderPolicy) (b : DefinitionBuilder) : DefinitionBuilder :=
  mk_definition_builder (db_provider_id b) (db_product_id b) (db_protocol_id b) (db_dialect b) (db_contract b)
    (db_endpoint b) (db_credential_binding b) (db_bind_to_endpoint_origin b) (db_auth_scheme b)
    (db_provider_headers b) (db_model_headers b) (policy) (db_capabilities b) (db_model_capabilities b)
    (db_catalog b) (db_allow_unregistered_models b) (db_model_compat b) (db_transport b) (db_rate_limit b)
    (db_idempotency b).
Definition with_capabilities (capabilities : ProviderCapabilities) (b : DefinitionBuilder) : DefinitionBuilder :=
  mk_definition_builder (db_provider_id b) (db_product_id b) (db_protocol_id b) (db_dialect b) (db_contract b)
    (db_endpoint b) (db_credential_binding b) (db_bind_to_endpoint_origin b) (db_auth_scheme b)
    (db_provider_headers b) (db_model_headers b) (db_dynamic_header_policy b) (Some capabilities)
    (db_model_capabilities b) (db_catalog b) (db_allow_unregistered_models b) (db_model_compat b)
    (db_transport b) (db_rate_limit b) (db_idempotency b).
Definition with_model_capabilities (profile : ModelCapabilityProfile) (b : DefinitionBuilder) : DefinitionBuilder :=
  mk_definition_builder (db_provider_id b) (db_product_id b) (db_protocol_id b) (db_dialect b) (db_contract b)
    (db_endpoint b) (db_credential_binding b) (db_bind_to_endpoint_origin b) (db_auth_scheme b)
    (db_provider_headers b) (db_model_headers b) (db_dynamic_header_policy b) (db_capabilities b)
    (<[mcp_model profile := profile]> (db_model_capabilities b)) (db_catalog b) (db_allow_unregistered_models b)
    (db_model_compat b) (db_transport b) (db_rate_limit b) (db_idempotency b).
Definition with_catalog (catalog : ModelCatalog) (b : DefinitionBuilder) : DefinitionBuilder :=
  mk_definition_builder (db_provider_id b) (db_product_id b) (db_protocol_id b) (db_dialect b) (db_contract b)
    (db_endpoint b) (db_credential_binding b) (db_bind_to_endpoint_origin b) (db_auth_scheme b)
    (db_provider_headers b) (db_model_headers b) (db_dynamic_header_policy b) (db_capabilities b)
    (db_model_capabilities b) (Some catalog) (false) (db_model_compat b) (db_transport b) (db_rate_limit b)
    (db_idempotency b).
Definition allow_unregistered_models  (b : DefinitionBuilder) : DefinitionBuilder :=
  mk_definition_builder (db_provider_id b) (db_product_id b) (db_protocol_id b) (db_dialect b) (db_contract b)
    (db_endpoint b) (db_credential_binding b) (db_bind_to_endpoint_origin b) (db_auth_scheme b)
    (db_provider_headers b) (db_model_headers b) (db_dynamic_header_policy b) (db_capabilities b)
    (db_model_capabilities b) (None) (true) (db_model_compat b) (db_transport b) (db_rate_limit b)
    (db_idempotency b).
Definition with_protocol_contract (contract : ProtocolContract.t) (b : DefinitionBuilder) : DefinitionBuilder :=
  mk_definition_builder (db_provider_id b) (db_product_id b) (db_protocol_id b) (db_dialect b) (contract)
    (db_endpoint b) (db_credential_binding b) (db_bind_to_endpoint_origin b) (db_auth_scheme b)
    (db_provider_headers b) (db_model_headers b) (db_dynamic_header_policy b) (db_capabilities b)
    (db_model_capabilities b) (db_catalog b) (db_allow_unregistered_models b) (db_model_compat b)
    (db_transport b) (db_rate_limit b) (db_idempotency b).
Definition with_model_openai_chat_compat (model : string) (compat : CompatProfile) (b : DefinitionBuilder) : DefinitionBuilder :=
  mk_definition_builder (db_provider_id b) (db_product_id b) (db_protocol_id b) (db_dialect b) (db_contract b)
    (db_endpoint b) (db_credential_binding b) (db_bind_to_endpoint_origin b) (db_auth_scheme b)
    (db_provider_headers b) (db_model_headers b) (db_dynamic_header_policy b) (db_capabilities b)
    (db_model_capabilities b) (db_catalog b) (db_allow_unregistered_models b)
    (<[model := compat]> (db_model_compat b)) (db_transport b) (db_rate_limit b) (db_idempotency b).
Definition with_transport_options (transport : RedirectPolicy) (b : DefinitionBuilder) : DefinitionBuilder :=
  mk_definition_builder (db_provider_id b) (db_product_id b) (db_protocol_id b) (db_dialect b) (db_contract b)
    (db_endpoint b) (db_credential_binding b) (db_bind_to_endpoint_origin b) (db_auth_scheme b)
    (db_provider_headers b) (db_model_headers b) (db_dynamic_header_policy b) (db_capabilities b)
    (db_model_capabilities b) (db_catalog b) (db_allow_unregistered_models b) (db_model_compat b) (transport)
    (db_rate_limit b) (db_idempotency b).
Definition with_rate_limit_policy (policy : list RateLimitHeaderSpec) (b : DefinitionBuilder) : DefinitionBuilder :=
  mk_definition_builder (db_provider_id b) (db_product_id b) (db_protocol_id b) (db_dialect b) (db_contract b)
    (db_endpoint b) (db_credential_binding b) (db_bind_to_endpoint_origin b) (db_auth_scheme b)
    (db_provider_headers b) (db_model_headers b) (db_dynamic_header_policy b) (db_capabilities b)
    (db_model_capabilities b) (db_catalog b) (db_allow_unregistered_models b) (db_model_compat b)
    (db_transport b) (policy) (db_idempotency b).
Definition with_idempotency_policy (policy : IdempotencyPolicy) (b : DefinitionBuilder) : DefinitionBuilder :=
  mk_definition_builder (db_provider_id b) (db_product_id b) (db_protocol_id b) (db_dialect b) (db_contract b)
    (db_endpoint b) (db_credential_binding b) (db_bind_to_endpoint_origin b) (db_auth_scheme b)
    (db_provider_headers b) (db_model_headers b) (db_dynamic_header_policy b) (db_capabilities b)
    (db_model_capabilities b) (db_catalog b) (db_allow_unregistered_models b) (db_model_compat b)
    (db_transport b) (db_rate_limit b) (policy).
Definition with_dynamic_header_policy (policy : DynamicHeaderPolicy) (b : DefinitionBuilder) : DefinitionBuilder :=
  with_shared_dynamic_header_policy (Some policy) b.
Definition with_openai_chat_compat (compat : CompatProfile) (b : DefinitionBuilder) : DefinitionBuilder :=
  with_protocol_contract (ProtocolContract.OpenAiChat (mk_chat_contract compat)) b.
Definition version_byte (b : ascii) : bool := is_ascii_digit b || Ascii.eqb b "-".
Definition with_anthropic_version (version : string) (b : DefinitionBuilder) : result LlmError DefinitionBuilder :=
  if negb (bool_decide (db_dialect b = ProtocolDialect.AnthropicMessages)) || str_is_empty version
     || (64 <? str_len version) || negb (str_all version_byte version)
  then configuration "invalid Anthropic API version declaration"
  else
    let retained := List.filter (fun o => negb (contains ["anthropic-version"; "anthropic-beta"] (op_name o)))
                      (db_provider_headers b) in
    value ← ok_or (header_value_from_str version)
              (LlmError.Configuration "invalid Anthropic API version declaration");
    Ok (with_provider_headers
          (retained ++ [op_set "anthropic-version" value; HeaderOperation.Remove "anthropic-beta"]) b).
Definition with_anthropic_usage_compat (usage : AnthropicUsageCompat) (b : DefinitionBuilder)
  : result LlmError DefinitionBuilder :=
  match db_contract b with
  | ProtocolContract.AnthropicMessages contract =>
      Ok (with_protocol_contract (ProtocolContract.AnthropicMessages (with_usage_compat usage contract)) b)
  | _ => configuration "Anthropic usage compatibility requires an Anthropic Messages definition"
  end.

(** ** Definitions *)
Record ProviderDefinition := mk_definition {
  pd_provider_id : string; pd_product_id : string; pd_protocol : ValidatedProtocolBinding;
  pd_endpoint : EndpointConfig; pd_credential_binding : CredentialBinding; pd_auth_scheme : AuthScheme;
  pd_provider_headers : list HeaderOperation.t; pd_model_headers : list HeaderOperation.t;
  pd_dynamic_header_policy : option DynamicHeaderPolicy; pd_capabilities : ProviderCapabilities;
  pd_model_capabilities : gmap string ModelCapabilityProfile; pd_catalog : ModelCatalog;
  pd_model_protocol_contracts : gmap string ProtocolContract.t; pd_transport : RedirectPolicy;
  pd_rate_limit : list RateLimitHeaderSpec; pd_idempotency : IdempotencyPolicy }.

Definition resolve_definition_endpoint (endpoint : EndpointConfig) (catalog : ModelCatalog)
  : result LlmError ResolvedEndpoint :=
  if requires_mapping endpoint then
    match entries catalog with
    | [] => configuration "endpoint template variables require an exact catalog entry"
    | entry :: _ => resolve_official_for endpoint (mapping_endpoint_values (mapping_from_entry entry))
    end
  else resolve_official endpoint.
Definition entry_matches (provider_id product_id protocol_id : string) (e : ModelEntry) : bool :=
  let '(provider, product, _) := me_key e in
  str_eqb provider provider_id && str_eqb product product_id && str_eqb (me_protocol_id e) protocol_id.
Definition validate_catalog (catalog : ModelCatalog) (provider_id product_id protocol_id : string) : result LlmError unit :=
  configuration_if (existsb (fun e => negb (entry_matches provider_id product_id protocol_id e)) (entries catalog))
    "catalog entry does not match provider product protocol".
Definition validate_model_capabilities (m : gmap string ModelCapabilityProfile) : result LlmError unit :=
  configuration_if (existsb (fun e : string * ModelCapabilityProfile => negb (str_eqb e.1 (mcp_model e.2)))
                      (sorted_entries m))
    "model capability map key does not match its declaration".
Definition validate_header_owners (scheme : AuthScheme) (provider_headers model_headers : list HeaderOperation.t)
  : result LlmError unit :=
  let policy := with_registered_headers (scheme_protected_headers scheme) (map op_name provider_headers) in
  _ ← resolve_layers policy
        [mk_layer HeaderSource.Protocol standard_json_sse_header_operations;
         mk_layer HeaderSource.Provider provider_headers; mk_layer HeaderSource.Model model_headers];
  Ok tt.
(** The capabilities [build] checks a model's contract against. *)
Definition definition_capabilities (b : DefinitionBuilder) (capabilities : ProviderCapabilities) (catalog : ModelCatalog)
    (model : string) : ProviderCapabilities :=
  let capabilities := match db_model_capabilities b !! model with
                      | Some profile => apply_model profile capabilities
                      | None => capabilities
                      end in
  match catalog !! (db_provider_id b, db_product_id b, model) with
  | Some entry => apply_catalog (me_capabilities entry) capabilities
  | None => capabilities
  end.
Definition add_model_contract (b : DefinitionBuilder) (protocol : ValidatedProtocolBinding)
    (capabilities : ProviderCapabilities) (catalog : ModelCatalog) (e : string * CompatProfile)
    (contracts : gmap string ProtocolContract.t) : result LlmError (gmap string ProtocolContract.t) :=
  _ ← validate_against e.2 (definition_capabilities b capabilities catalog e.1);
  let contract := ProtocolContract.OpenAiChat (mk_chat_contract e.2) in
  _ ← validate_contract protocol contract;
  Ok (<[e.1 := contract]> contracts).
Definition definition_build (b : DefinitionBuilder) : result LlmError ProviderDefinition :=
  protocol ← binding_new (db_protocol_id b) (db_dialect b) (db_contract b);
  endpoint ← ok_or (db_endpoint b) (LlmError.Configuration "provider definition requires an endpoint");
  auth_scheme ← ok_or (db_auth_scheme b) (LlmError.Configuration "provider definition requires an auth scheme");
  capabilities ← ok_or (db_capabilities b) (LlmError.Configuration "provider definition requires capabilities");
  _ ← Contract.validate_capabilities capabilities;
  catalog ← match db_catalog b, db_allow_unregistered_models b with
            | Some catalog, false => Ok catalog
            | None, true => Ok ∅
            | _, _ => configuration "provider definition requires a catalog or explicit unregistered-model policy"
            end;
  _ ← validate_catalog catalog (db_provider_id b) (db_product_id b) (vb_id protocol);
  _ ← validate_model_capabilities (db_model_capabilities b);
  let messages := bool_decide (vb_dialect protocol = ProtocolDialect.AnthropicMessages) in
  _ ← configuration_if (messages && negb (bool_decide (db_model_compat b = ∅)))
        "Anthropic Messages definitions cannot carry OpenAI compatibility policy";
  _ ← match vb_contract protocol with
      | ProtocolContract.OpenAiChat contract => validate_against (occ_compat contract) capabilities
      | _ => Ok tt
      end;
  contracts ← fold_ok (add_model_contract b protocol capabilities catalog) (sorted_entries (db_model_compat b)) ∅;
  _ ← validate_header_owners auth_scheme (db_provider_headers b) (db_model_headers b);
  _ ← configuration_if
        (messages && negb (existsb (fun o => str_eqb (op_name o) "anthropic-version") (db_provider_headers b)))
        "Anthropic Messages definition requires a protected anthropic-version header";
  resolved ← resolve_definition_endpoint endpoint catalog;
  binding ← (if db_bind_to_endpoint_origin b then exact_https_origin resolved
             else ok_or (db_credential_binding b)
                    (LlmError.Configuration "provider definition requires a credential binding"));
  _ ← binding_validate binding resolved;
  Ok (mk_definition (db_provider_id b) (db_product_id b) protocol endpoint binding auth_scheme
        (db_provider_headers b) (db_model_headers b) (db_dynamic_header_policy b) capabilities
        (db_model_capabilities b) catalog contracts (db_transport b) (db_rate_limit b) (db_idempotency b)).

(** ** Compilation *)
Definition compile_profile (d : ProviderDefinition) (deployment : ResolvedProviderDeployment)
  : result LlmError ProviderProfile :=
  profile_from_parts
    (mk_profile
       (mk_runtime (pd_provider_id d) (pd_product_id d) (pd_protocol d) (pd_capabilities d)
          (pd_model_capabilities d) (pd_catalog d) (pd_model_protocol_contracts d)
          (rd_resource_limits deployment) (rd_sse deployment) (rd_max_http_error_body_bytes deployment))
       (pd_endpoint d) (pd_credential_binding d) (rd_auth deployment) (rd_client_identity deployment)
       (pd_provider_headers d) (pd_model_headers d) (pd_dynamic_header_policy d) (pd_transport d)
       (pd_rate_limit d) (pd_idempotency d) false).
Definition compile_resolved (d : ProviderDefinition) (deployment : ResolvedProviderDeployment)
  : result LlmError ProviderProfile :=
  _ ← validate_deployment_limits deployment;
  _ ← configuration_if (negb (bool_decide (ap_scheme_kind (rd_auth deployment) = scheme_kind (pd_auth_scheme d))))
        "deployment authentication scheme does not match provider definition";
  _ ← configuration_if
        (negb (bool_decide (header_set (ap_protected_headers (rd_auth deployment))
                            = header_set (scheme_protected_headers (pd_auth_scheme d)))))
        "deployment authentication headers do not match provider definition";
  match ap_credential_binding (rd_auth deployment) with
  | None =>
      _ ← configuration_if (match pd_auth_scheme d with AsNone => false | _ => true end)
            "credential-bearing deployment must expose its destination binding";
      compile_profile d deployment
  | Some binding =>
      _ ← configuration_if (negb (bool_decide (binding = pd_credential_binding d)))
            "deployment credential binding does not match provider definition";
      compile_profile d deployment
  end.
(** The authentication provider a deployment's credential gives. *)
Definition deployment_auth (d : ProviderDefinition) (credential : DeploymentCredential) (resolver : SecretResolver)
  : result LlmError AuthProvider :=
  match credential with
  | CredReference reference =>
      key ← map_err LlmError.ProviderConfig (resolver reference);
      match pd_auth_scheme d with
      | AsBearer => Ok (bearer_auth (mk_bearer_auth (mk_bearer_credential key (pd_credential_binding d))))
      | AsApiKeyHeader name =>
          auth ← api_key_header_auth_new name key (pd_credential_binding d); Ok (api_key_header_auth auth)
      | AsCustom _ _ => configuration "custom authentication requires a deployment auth provider"
      | AsNone => configuration "credential reference cannot be used with unauthenticated definition"
      end
  | CredAuthProvider auth => Ok auth
  | CredNone =>
      match pd_auth_scheme d with
      | AsNone => Ok no_auth
      | _ => configuration "credential-bearing definition requires deployment authentication"
      end
  end.
Definition compile (d : ProviderDefinition) (deployment : ProviderDeploymentConfig) (resolver : SecretResolver)
  : result LlmError ProviderProfile :=
  _ ← configuration_if (negb (str_eqb (dc_provider_id deployment) (pd_provider_id d)))
        "deployment provider identity does not match provider definition";
  auth ← deployment_auth d (dc_credential deployment) resolver;
  resolved ← rd_with_max_http_error_body_bytes (dc_max_http_error_body_bytes deployment)
    (rd_with_sse_config (dc_sse deployment)
       (rd_with_resource_limits (dc_resource_limits deployment)
          (resolved_deployment_new auth (dc_client_identity deployment))));
  compile_resolved d resolved.
(** [StaticProviderFactory::build_deployment]. *)
Definition factory_build (d : ProviderDefinition) (deployment : ProviderDeploymentConfig) (resolver : SecretResolver)
  : result LlmError Runtime :=
  profile ← compile d deployment resolver; runtime_build profile.
End Definitions.
