(* ===== verification/Profiles.v ===== *)
(** * The official profiles

    [src/src/provider/profiles/official_openai.rs] and [official_anthropic.rs]:
    the two built-in definitions and the profiles compiled from them. *)
From S2P Require Import Prelude Errors Usage Sse SseStream Domain Images Structured Collector Pipeline ChatWire Schema Options ToolCalls ChatMachine ChatSpec Messages Reliability RetryAfter Runner History Request Headers Serialize Contract Catalog ChatRequest MessagesRequest Plan Endpoint Response Auth Credentials Attempt Definitions.
Import CapabilityStatus.

Section Profiles.
Context {W H : Type} {WD : World W H}.
Context {U : Urls} {UP : UrlParts} {HV : HttpValues} {HT : HeaderText}.
#[local] Abbreviation AuthProvider := (AuthProvider (W := W)).
Definition valid_ {A} (r : result ValidationError A) : result LlmError A := map_err LlmError.Validation r.

(** ** OpenAI *)
Definition official_openai_builder (auth_scheme : AuthScheme) (dynamic_header_policy : option DynamicHeaderPolicy)
  : result LlmError DefinitionBuilder :=
  provider_id ← valid_ (ProviderId_new "official-openai");
  product_id ← valid_ (catalog_id "product_id" "chat-completions");
  endpoint ← base_and_path "https://api.openai.com/v1" "/chat/completions";
  Ok (with_capabilities official_openai
        (with_shared_dynamic_header_policy dynamic_header_policy
           (with_auth_scheme auth_scheme
              (with_credential_binding (binding_from OfficialOpenAi)
                 (with_endpoint endpoint (definition_openai_chat provider_id product_id)))))).
Record OfficialOpenAiProfile := mk_openai_profile {
  oo_auth : AuthProvider; oo_client_identity : ClientIdentity;
  oo_model_capabilities : gmap string ModelCapabilityProfile; oo_catalog : ModelCatalog;
  oo_provider_compat : CompatProfile; oo_model_compat : gmap string CompatProfile;
  oo_resource_limits : ResourceLimits; oo_sse : SseConfig; oo_max_http_error_body_bytes : Z;
  oo_dynamic_header_policy : option DynamicHeaderPolicy }.
Definition openai_profile_new (key : ApiKey) : OfficialOpenAiProfile :=
  mk_openai_profile (bearer_auth (mk_bearer_auth (mk_bearer_credential key (binding_from OfficialOpenAi))))
    identity_default ∅ ∅ compat_profile_default ∅ official sse_config_default (16 * 1024) None.
Definition openai_from_api_key (key : string) : result LlmError OfficialOpenAiProfile :=
  key ← api_key_new key; Ok (openai_profile_new key).
Definition openai_with_client_identity (identity : ClientIdentity) (p : OfficialOpenAiProfile) : OfficialOpenAiProfile :=
  mk_openai_profile (oo_auth p) (identity) (oo_model_capabilities p) (oo_catalog p) (oo_provider_compat p)
    (oo_model_compat p) (oo_resource_limits p) (oo_sse p) (oo_max_http_error_body_bytes p)
    (oo_dynamic_header_policy p).
Definition openai_with_dynamic_header_policy (policy : DynamicHeaderPolicy) (p : OfficialOpenAiProfile) : OfficialOpenAiProfile :=
  mk_openai_profile (oo_auth p) (oo_client_identity p) (oo_model_capabilities p) (oo_catalog p)
    (oo_provider_compat p) (oo_model_compat p) (oo_resource_limits p) (oo_sse p)
    (oo_max_http_error_body_bytes p) (Some policy).
Definition openai_with_model_capabilities (profile : ModelCapabilityProfile) (p : OfficialOpenAiProfile) : OfficialOpenAiProfile :=
  mk_openai_profile (oo_auth p) (oo_client_identity p)
    (<[mcp_model profile := profile]> (oo_model_capabilities p)) (oo_catalog p) (oo_provider_compat p)
    (oo_model_compat p) (oo_resource_limits p) (oo_sse p) (oo_max_http_error_body_bytes p)
    (oo_dynamic_header_policy p).
Definition openai_with_catalog (catalog : ModelCatalog) (p : OfficialOpenAiProfile) : OfficialOpenAiProfile :=
  mk_openai_profile (oo_auth p) (oo_client_identity p) (oo_model_capabilities p) (catalog)
    (oo_provider_compat p) (oo_model_compat p) (oo_resource_limits p) (oo_sse p)
    (oo_max_http_error_body_bytes p) (oo_dynamic_header_policy p).
Definition openai_with_resource_limits (limits : ResourceLimits) (p : OfficialOpenAiProfile) : OfficialOpenAiProfile :=
  mk_openai_profile (oo_auth p) (oo_client_identity p) (oo_model_capabilities p) (oo_catalog p)
    (oo_provider_compat p) (oo_model_compat p) (limits) (oo_sse p) (oo_max_http_error_body_bytes p)
    (oo_dynamic_header_policy p).
Definition openai_with_sse_config (config : SseConfig) (p : OfficialOpenAiProfile) : OfficialOpenAiProfile :=
  mk_openai_profile (oo_auth p) (oo_client_identity p) (oo_model_capabilities p) (oo_catalog p)
    (oo_provider_compat p) (oo_model_compat p) (oo_resource_limits p) (config) (oo_max_http_error_body_bytes p)
    (oo_dynamic_header_policy p).
Definition openai_with_auth_provider (auth : AuthProvider) (p : OfficialOpenAiProfile) : OfficialOpenAiProfile :=
  mk_openai_profile (auth) (oo_client_identity p) (oo_model_capabilities p) (oo_catalog p)
    (oo_provider_compat p) (oo_model_compat p) (oo_resource_limits p) (oo_sse p)
    (oo_max_http_error_body_bytes p) (oo_dynamic_header_policy p).
Definition openai_with_compat (compat : CompatProfile) (p : OfficialOpenAiProfile) : OfficialOpenAiProfile :=
  mk_openai_profile (oo_auth p) (oo_client_identity p) (oo_model_capabilities p) (oo_catalog p) (compat)
    (oo_model_compat p) (oo_resource_limits p) (oo_sse p) (oo_max_http_error_body_bytes p)
    (oo_dynamic_header_policy p).
Definition openai_with_model_compat (model : string) (compat : CompatProfile) (p : OfficialOpenAiProfile) : OfficialOpenAiProfile :=
  mk_openai_profile (oo_auth p) (oo_client_identity p) (oo_model_capabilities p) (oo_catalog p)
    (oo_provider_compat p) (<[model := compat]> (oo_model_compat p)) (oo_resource_limits p) (oo_sse p)
    (oo_max_http_error_body_bytes p) (oo_dynamic_header_policy p).
Definition openai_with_max_http_error_body_bytes (limit : Z) (p : OfficialOpenAiProfile) : result LlmError OfficialOpenAiProfile :=
  if limit =? 0 then configuration "HTTP error body limit must be positive"
  else Ok (mk_openai_profile (oo_auth p) (oo_client_identity p) (oo_model_capabilities p) (oo_catalog p)
    (oo_provider_compat p) (oo_model_compat p) (oo_resource_limits p) (oo_sse p) limit
    (oo_dynamic_header_policy p)).
Definition openai_definition : result LlmError ProviderDefinition :=
  b ← official_openai_builder AsBearer None; definition_build (with_catalog ∅ b).
(** The deployment an official profile compiles with. *)
Definition profile_deployment (auth : AuthProvider) (identity : ClientIdentity) (limits : ResourceLimits)
    (sse : SseConfig) (max_http_error_body_bytes : Z) : result LlmError ResolvedProviderDeployment :=
  rd_with_max_http_error_body_bytes max_http_error_body_bytes
    (rd_with_sse_config sse (rd_with_resource_limits limits (resolved_deployment_new auth identity))).
Definition openai_profile (p : OfficialOpenAiProfile) : result LlmError ProviderProfile :=
  auth_scheme ← from_auth_provider (oo_auth p);
  b ← official_openai_builder auth_scheme (oo_dynamic_header_policy p);
  let b := with_openai_chat_compat (oo_provider_compat p) (with_catalog (oo_catalog p) b) in
  let b := foldl (fun b e => with_model_capabilities e.2 b) b (sorted_entries (oo_model_capabilities p)) in
  let b := foldl (fun b e => with_model_openai_chat_compat e.1 e.2 b) b (sorted_entries (oo_model_compat p)) in
  deployment ← profile_deployment (oo_auth p) (oo_client_identity p) (oo_resource_limits p) (oo_sse p)
                 (oo_max_http_error_body_bytes p);
  d ← definition_build b; compile_resolved d deployment.
Definition openai_build (p : OfficialOpenAiProfile) : result LlmError Runtime :=
  profile ← openai_profile p; runtime_build profile.

(** ** Anthropic *)
Definition OFFICIAL_ANTHROPIC_API_VERSION : string := "2023-06-01".
Definition official_anthropic_builder (auth_scheme : AuthScheme) (dynamic_header_policy : option DynamicHeaderPolicy)
  : result LlmError DefinitionBuilder :=
  rate_limit ← valid_ (with_header (mk_rate_limit_spec "anthropic-ratelimit-requests-remaining" RemainingRequests)
                         standard_only);
  rate_limit ← valid_ (with_header (mk_rate_limit_spec "anthropic-ratelimit-tokens-remaining"
                                      (RemainingUnits Tokens)) rate_limit);
  provider_id ← valid_ (ProviderId_new "official-anthropic");
  product_id ← valid_ (catalog_id "product_id" "messages");
  endpoint ← base_and_path "https://api.anthropic.com/v1" "/messages";
  Ok (with_rate_limit_policy rate_limit
        (with_capabilities official_anthropic
           (with_shared_dynamic_header_policy dynamic_header_policy
              (with_provider_headers
                 [op_set "anthropic-version" (bytes_of OFFICIAL_ANTHROPIC_API_VERSION);
                  HeaderOperation.Remove "anthropic-beta"]
                 (with_auth_scheme auth_scheme
                    (with_credential_binding (binding_from OfficialAnthropic)
                       (with_endpoint endpoint (definition_anthropic_messages provider_id product_id)))))))).
Definition anthropic_catalog_capabilities : CatalogCapabilities :=
  mk_catalog_capabilities Supported Supported Supported Supported Supported Supported Unsupported Unsupported
    Supported EffortUnsupported Supported Supported.
Definition anthropic_entry (provider_id product_id protocol_id : string) (source : CatalogSource) (model : string)
  : result LlmError ModelEntry :=
  domain ← valid_ (ModelId_new model);
  provider_model ← valid_ (provider_model_id_new model);
  wire ← valid_ (catalog_id "wire_model_value" model);
  Ok (mk_model_entry (provider_id, product_id, domain) provider_model None wire model protocol_id
        anthropic_catalog_capabilities model_limits_default (Some 4096) None source Supported ∅).
Definition anthropic_catalog : result LlmError ModelCatalog :=
  provider_id ← valid_ (ProviderId_new "official-anthropic");
  product_id ← valid_ (catalog_id "product_id" "messages");
  protocol_id ← valid_ (ProtocolId_new "anthropic-messages");
  id ← valid_ (catalog_id "catalog_source_id" "anthropic-models-ledger");
  source ← catalog_source_new id "2026-07-25" (Some "2026-08-25");
  sonnet ← anthropic_entry provider_id product_id protocol_id source "claude-sonnet-5";
  opus ← anthropic_entry provider_id product_id protocol_id source "claude-opus-5";
  from_entries [sonnet; opus].
Definition MAX_ANTHROPIC_BODY : Z := 32 * 1024 * 1024.
Definition with_max_request_body_bytes (n : Z) (l : ResourceLimits) : ResourceLimits :=
  mk_resource_limits n (max_messages l) (max_total_text_bytes l) (max_tools l) (max_tool_description_bytes l)
    (max_schema_bytes l) (max_schema_depth l) (max_tool_calls l) (max_tool_arguments_bytes l)
    (max_all_tool_arguments_bytes l) (max_json_array_items l) (max_images l) (max_inline_image_bytes l)
    (max_image_url_bytes l) (max_structured_output_bytes l).
Record OfficialAnthropicProfile := mk_anthropic_profile {
  oa_auth : AuthProvider; oa_client_identity : ClientIdentity;
  oa_model_capabilities : gmap string ModelCapabilityProfile; oa_catalog : ModelCatalog;
  oa_resource_limits : ResourceLimits; oa_sse : SseConfig; oa_max_http_error_body_bytes : Z;
  oa_dynamic_header_policy : option DynamicHeaderPolicy }.
Definition anthropic_profile_new (key : ApiKey) : result LlmError OfficialAnthropicProfile :=
  auth ← api_key_header_auth_new "x-api-key" key (binding_from OfficialAnthropic);
  catalog ← anthropic_catalog;
  limits ← valid_ (builder_build (with_max_request_body_bytes MAX_ANTHROPIC_BODY official));
  Ok (mk_anthropic_profile (api_key_header_auth auth) identity_default ∅ catalog limits sse_config_default
        (16 * 1024) None).
Definition anthropic_from_api_key (key : string) : result LlmError OfficialAnthropicProfile :=
  key ← api_key_new key; anthropic_profile_new key.
Definition anthropic_with_client_identity (identity : ClientIdentity) (p : OfficialAnthropicProfile) : OfficialAnthropicProfile :=
  mk_anthropic_profile (oa_auth p) (identity) (oa_model_capabilities p) (oa_catalog p) (oa_resource_limits p)
    (oa_sse p) (oa_max_http_error_body_bytes p) (oa_dynamic_header_policy p).
Definition anthropic_with_dynamic_header_policy (policy : DynamicHeaderPolicy) (p : OfficialAnthropicProfile) : OfficialAnthropicProfile :=
  mk_anthropic_profile (oa_auth p) (oa_client_identity p) (oa_model_capabilities p) (oa_catalog p)
    (oa_resource_limits p) (oa_sse p) (oa_max_http_error_body_bytes p) (Some policy).
Definition anthropic_with_model_capabilities (profile : ModelCapabilityProfile) (p : OfficialAnthropicProfile) : OfficialAnthropicProfile :=
  mk_anthropic_profile (oa_auth p) (oa_client_identity p)
    (<[mcp_model profile := profile]> (oa_model_capabilities p)) (oa_catalog p) (oa_resource_limits p)
    (oa_sse p) (oa_max_http_error_body_bytes p) (oa_dynamic_header_policy p).
Definition anthropic_with_catalog (catalog : ModelCatalog) (p : OfficialAnthropicProfile) : OfficialAnthropicProfile :=
  mk_anthropic_profile (oa_auth p) (oa_client_identity p) (oa_model_capabilities p) (catalog)
    (oa_resource_limits p) (oa_sse p) (oa_max_http_error_body_bytes p) (oa_dynamic_header_policy p).
Definition anthropic_with_resource_limits (limits : ResourceLimits) (p : OfficialAnthropicProfile) : OfficialAnthropicProfile :=
  mk_anthropic_profile (oa_auth p) (oa_client_identity p) (oa_model_capabilities p) (oa_catalog p) (limits)
    (oa_sse p) (oa_max_http_error_body_bytes p) (oa_dynamic_header_policy p).
Definition anthropic_with_sse_config (config : SseConfig) (p : OfficialAnthropicProfile) : OfficialAnthropicProfile :=
  mk_anthropic_profile (oa_auth p) (oa_client_identity p) (oa_model_capabilities p) (oa_catalog p)
    (oa_resource_limits p) (config) (oa_max_http_error_body_bytes p) (oa_dynamic_header_policy p).
Definition anthropic_with_max_http_error_body_bytes (limit : Z) (p : OfficialAnthropicProfile) : result LlmError OfficialAnthropicProfile :=
  if limit =? 0 then configuration "HTTP error body limit must be positive"
  else Ok (mk_anthropic_profile (oa_auth p) (oa_client_identity p) (oa_model_capabilities p) (oa_catalog p)
    (oa_resource_limits p) (oa_sse p) limit (oa_dynamic_header_policy p)).
Definition anthropic_definition : result LlmError ProviderDefinition :=
  scheme ← scheme_api_key_header "x-api-key";
  b ← official_anthropic_builder scheme None;
  catalog ← anthropic_catalog;
  definition_build (with_catalog catalog b).
Definition anthropic_profile (p : OfficialAnthropicProfile) : result LlmError ProviderProfile :=
  let limits := with_max_request_body_bytes
                  (Z.min (max_request_body_bytes (oa_resource_limits p)) MAX_ANTHROPIC_BODY) (oa_resource_limits p) in
  auth_scheme ← from_auth_provider (oa_auth p);
  b ← official_anthropic_builder auth_scheme (oa_dynamic_header_policy p);
  let b := with_catalog (oa_catalog p) b in
  let b := foldl (fun b e => with_model_capabilities e.2 b) b (sorted_entries (oa_model_capabilities p)) in
  deployment ← profile_deployment (oa_auth p) (oa_client_identity p) limits (oa_sse p)
                 (oa_max_http_error_body_bytes p);
  d ← definition_build b; compile_resolved d deployment.
Definition anthropic_build (p : OfficialAnthropicProfile) : result LlmError Runtime :=
  profile ← anthropic_profile p; runtime_build profile.
End Profiles.
