(* ===== verification/DefinitionsSpec.v ===== *)
(** * What a provider definition guarantees

    The checks of the builder as facts of every definition, the profile and the
    runtime compiled from one, and where the builder and the runtime disagree. *)
From S2P Require Import Prelude Errors Usage Sse SseStream Domain Images Structured Collector Pipeline ChatWire Schema SchemaCompile Options ToolCalls ChatMachine ChatSpec Messages Reliability RetryAfter Runner History Request RequestSpec Headers HeadersSpec Serialize Contract Catalog CatalogSpec ChatRequest MessagesRequest Plan PlanSpec Endpoint EndpointSpec Response Auth Credentials Attempt AttemptSpec Definitions Profiles.

(** ** Header owners *)

(** Headers no provider or model operation may touch. *)
Definition foreign_headers : list string :=
  ["authorization"; "proxy-authorization"; "content-type"; "accept"; "user-agent"; "host"; "content-length";
   "transfer-encoding"; "connection"; "cookie"; "set-cookie"].
Definition provider_may (scheme : AuthScheme) (o : HeaderOperation.t) : Prop :=
  op_name o ∉ foreign_headers /\ op_name o ∉ scheme_protected_headers scheme.
Definition model_may (scheme : AuthScheme) (provider : list string) (o : HeaderOperation.t) : Prop :=
  op_name o ∉ foreign_headers /\ op_name o ∉ scheme_protected_headers scheme /\ op_name o ∉ provider /\
  ordinary_header (op_name o) = true /\ op_sensitive o = false.
Lemma not_foreign name : name ∉ foreign_headers <->
  contains ["authorization"; "proxy-authorization"] name = false /\
  contains ["content-type"; "accept"] name = false /\ str_eqb name "user-agent" = false /\
  contains ["host"; "content-length"; "transfer-encoding"; "connection"; "cookie"; "set-cookie"] name = false.
Proof.
  unfold contains, str_eqb, foreign_headers. rewrite !bool_decide_eq_false, !elem_of_cons. set_solver.
Qed.
Lemma ownable policy s name : (s = HeaderSource.Provider \/ s = HeaderSource.Model) ->
  allows policy s name = true <->
  name ∉ foreign_headers /\ name ∉ hpo_auth policy /\
  if bool_decide (name ∈ hpo_provider policy) then s = HeaderSource.Provider else ordinary_header name = true.
Proof.
  intros Hs. rewrite not_foreign. unfold allows, is_auth_header, is_provider_header.
  destruct (contains ["authorization"; _] name); [destruct Hs as [-> | ->]; naive_solver|].
  destruct (contains ["content-type"; _] name); [destruct Hs as [-> | ->]; naive_solver|].
  destruct (str_eqb name "user-agent"); [destruct Hs as [-> | ->]; naive_solver|].
  destruct (contains _ name); [naive_solver|].
  destruct (decide (name ∈ hpo_auth policy)) as [Ha|Ha];
    [rewrite (bool_decide_eq_true_2 _ Ha); destruct Hs as [-> | ->]; naive_solver|rewrite (bool_decide_eq_false_2 _ Ha)].
  case_bool_decide; destruct Hs as [-> | ->]; naive_solver.
Qed.
Lemma permitted_provider scheme ph o : o ∈ ph ->
  permitted (with_registered_headers (scheme_protected_headers scheme) (map op_name ph)) (HeaderSource.Provider, o)
  <-> provider_may scheme o.
Proof.
  intros Ho. unfold permitted, provider_may, validate_operation. cbn [fst snd].
  pose proof (ownable (with_registered_headers (scheme_protected_headers scheme) (map op_name ph))
                HeaderSource.Provider (op_name o) (or_introl eq_refl)) as Ha.
  assert (op_name o ∈ hpo_provider (with_registered_headers (scheme_protected_headers scheme) (map op_name ph))) as Hin
    by (simpl; apply elem_of_list_to_set, list_elem_of_fmap; by exists o).
  unfold is_provider_header. rewrite (bool_decide_eq_true_2 _ Hin) in *. simpl hpo_auth in Ha.
  rewrite not_elem_of_list_to_set in Ha.
  destruct (allows _ _ _); simpl; [rewrite andb_false_r|]; naive_solver.
Qed.
Lemma permitted_model scheme names o :
  permitted (with_registered_headers (scheme_protected_headers scheme) names) (HeaderSource.Model, o)
  <-> model_may scheme names o.
Proof.
  unfold permitted, model_may, validate_operation. cbn [fst snd].
  pose proof (ownable (with_registered_headers (scheme_protected_headers scheme) names)
                HeaderSource.Model (op_name o) (or_intror eq_refl)) as Ha.
  simpl hpo_auth in Ha. simpl hpo_provider in Ha. rewrite not_elem_of_list_to_set in Ha.
  assert (bool_decide (op_name o ∈ (list_to_set names : gset string)) = true <-> op_name o ∈ names) as Hn
    by (by rewrite bool_decide_eq_true, elem_of_list_to_set).
  destruct (bool_decide _); destruct (allows _ _ _), (op_sensitive o); simpl; naive_solver.
Qed.
Lemma header_owners_exact scheme ph mh :
  validate_header_owners scheme ph mh = Ok tt <->
  Forall (provider_may scheme) ph /\ Forall (model_may scheme (map op_name ph)) mh.
Proof.
  unfold validate_header_owners. rewrite resolve_layers_flat.
  set (policy := with_registered_headers _ _).
  set (ops := sorted_ops _).
  assert (ops = map (pair HeaderSource.Protocol) standard_json_sse_header_operations
                ++ map (pair HeaderSource.Provider) ph ++ map (pair HeaderSource.Model) mh) as Hops
    by (subst ops; unfold sorted_ops, sort_layers, layer_ops; simpl; by rewrite !app_nil_r).
  destruct (fold_ops policy ops) as [Hok _].
  assert ((_ ← fold_ok (apply_op policy) ops (mk_resolved_headers ∅ []); Ok tt) = Ok tt <->
          Forall (permitted policy) ops) as -> by (rewrite <- Hok; destruct (fold_ok _ _ _); simpl; naive_solver).
  rewrite Hops, !Forall_app. rewrite !Forall_map. split.
  - intros (_ & Hp & Hm). split; [|eapply Forall_impl; [exact Hm|]; intros o; apply permitted_model].
    rewrite Forall_forall in *. intros o Ho. by apply (permitted_provider scheme ph), Hp.
  - intros [Hp Hm]. split_and!; [by repeat constructor| |eapply Forall_impl; [exact Hm|]; intros o; apply permitted_model].
    rewrite Forall_forall in *. intros o Ho. by apply permitted_provider, Hp.
Qed.

(** ** Definitions *)
Section Built.
Context {W H : Type} {WD : World W H} {CW : CredentialWorld W}.
Context {U : Urls} {UP : UrlParts} {UL : UrlLaws} {HV : HttpValues} {HT : HeaderText}.
#[local] Abbreviation DeploymentConfig := (ProviderDeploymentConfig (W := W)).
#[local] Abbreviation Deployment := (ResolvedProviderDeployment (W := W)).

Lemma definition_endpoint_ok endpoint catalog ep : resolve_definition_endpoint endpoint catalog = Ok ep ->
  admitted public_https (ep_url ep) /\ same_authority (ep_url ep) (destination endpoint) /\
  origin_from_url (destination endpoint) = Ok (ep_origin ep).
Proof.
  intros Hr. assert (exists v, endpoint_resolve endpoint Production v = Ok ep) as [v Hv].
  { unfold resolve_definition_endpoint in Hr. destruct (requires_mapping endpoint); [|by exists None].
    destruct (entries catalog) as [|e es]; [done|]. by eexists. }
  apply endpoint_resolve_ok in Hv as (Ha & Hs & Ho). split_and!; [done..|]. by rewrite <- (same_origin _ _ Hs).
Qed.
(** What every definition has been checked for. *)
Record checked (d : ProviderDefinition) : Prop := {
  ck_bound : bound (pd_protocol d);
  ck_streaming : pc_streaming (pd_capabilities d) = CapabilityStatus.Supported /\
    pc_streaming_usage (pd_capabilities d) = CapabilityStatus.Supported;
  ck_catalog : Forall (fun e => entry_matches (pd_provider_id d) (pd_product_id d) (vb_id (pd_protocol d)) e = true)
    (entries (pd_catalog d));
  ck_headers : Forall (provider_may (pd_auth_scheme d)) (pd_provider_headers d) /\
    Forall (model_may (pd_auth_scheme d) (map op_name (pd_provider_headers d))) (pd_model_headers d);
  (** The operation may be a [Remove]. *)
  ck_version : vb_dialect (pd_protocol d) = ProtocolDialect.AnthropicMessages ->
    exists o, o ∈ pd_provider_headers d /\ op_name o = "anthropic-version";
  ck_contracts : map_Forall (fun _ c => validate_contract (pd_protocol d) c = Ok tt) (pd_model_protocol_contracts d);
  ck_endpoint : exists ep, resolve_definition_endpoint (pd_endpoint d) (pd_catalog d) = Ok ep /\
    admitted public_https (ep_url ep) /\ same_authority (ep_url ep) (destination (pd_endpoint d)) /\
    binding_validate (pd_credential_binding d) ep = Ok tt }.
Lemma contracts_checked b protocol capabilities catalog l m m' :
  fold_ok (add_model_contract b protocol capabilities catalog) l m = Ok m' ->
  map_Forall (fun _ c => validate_contract protocol c = Ok tt) m ->
  map_Forall (fun _ c => validate_contract protocol c = Ok tt) m'.
Proof.
  revert m. induction l as [|e l IH]; intros m; simpl; [by intros [= <-]|].
  destruct (add_model_contract _ _ _ _ e m) as [m1|] eqn:Ea; [simpl|done]. intros Hf Hm. eapply IH; [exact Hf|].
  unfold add_model_contract in Ea. rewrite !bind_unit_ok in Ea. destruct Ea as (_ & Hv & [= <-]).
  by apply map_Forall_insert_2.
Qed.
Lemma supported_ok c : Contract.validate_capabilities c = Ok tt ->
  pc_streaming c = CapabilityStatus.Supported /\ pc_streaming_usage c = CapabilityStatus.Supported.
Proof.
  unfold Contract.validate_capabilities. rewrite if_then_ok, configuration_if_ok, !negb_false_iff.
  unfold is_supported. destruct (pc_streaming c), (pc_streaming_usage c); naive_solver.
Qed.
Lemma binding_new_bound id dialect contract p : binding_new id dialect contract = Ok p -> bound p.
Proof.
  intros Hb. unfold bound. assert (p = mk_binding id (vb_kind p) dialect contract) as ->; [|simpl; rewrite Hb].
  - revert Hb. unfold binding_new. destruct dialect, contract; try done; destruct (str_eqb id _); try done; by intros [= <-].
  - f_equal. revert Hb. unfold binding_new. destruct dialect, contract; try done; destruct (str_eqb id _); try done; by intros [= <-].
Qed.
Lemma definition_checked b d : definition_build b = Ok d ->
  checked d /\ pd_provider_id d = db_provider_id b /\ pd_product_id d = db_product_id b /\
  db_endpoint b = Some (pd_endpoint d) /\ db_auth_scheme b = Some (pd_auth_scheme d) /\
  (db_bind_to_endpoint_origin b = false -> db_credential_binding b = Some (pd_credential_binding d)) /\
  pd_provider_headers d = db_provider_headers b.
Proof.
  unfold definition_build. rewrite bind_ok. intros (protocol & Hp & Hd).
  rewrite bind_ok in Hd. destruct Hd as (endpoint & He%ok_or_ok & Hd).
  rewrite bind_ok in Hd. destruct Hd as (scheme & Hs%ok_or_ok & Hd).
  rewrite bind_ok in Hd. destruct Hd as (capabilities & _ & Hd).
  rewrite bind_unit_ok in Hd. destruct Hd as (Hc%supported_ok & Hd).
  rewrite bind_ok in Hd. destruct Hd as (catalog & _ & Hd).
  rewrite !bind_unit_ok in Hd. destruct Hd as (Hcat & _ & _ & _ & Hd).
  rewrite bind_ok in Hd. destruct Hd as (contracts & Hcon & Hd).
  rewrite bind_unit_ok, header_owners_exact, if_then_ok, bind_ok in Hd. destruct Hd as (Hh & Hv & ep & Hep & Hd).
  rewrite bind_ok in Hd. destruct Hd as (binding & Hb & Hd). rewrite bind_unit_ok in Hd. destruct Hd as (Hbv & [= <-]).
  split_and!; [|done..| |done].
  - destruct (definition_endpoint_ok _ _ _ Hep) as (Ha & Hsame & _). split; cbn; try done.
    + by eapply binding_new_bound.
    + apply configuration_if_ok, not_true_iff_false in Hcat. rewrite existsb_exists in Hcat. apply Forall_forall.
      intros e Hin%list_elem_of_In. apply not_false_iff_true. intros Hm. apply Hcat. exists e. by rewrite Hm.
    + intros Hdia. rewrite (bool_decide_eq_true_2 _ Hdia) in Hv. simpl in Hv. apply negb_false_iff, existsb_exists in Hv.
      destruct Hv as (o & Hin & Hn%str_eqb_spec). exists o. by rewrite list_elem_of_In.
    + eapply contracts_checked; [exact Hcon|]. apply map_Forall_empty.
    + by exists ep.
  - intros Hno. cbn. rewrite Hno in Hb. by apply ok_or_ok in Hb.
Qed.

(** ** Compilation *)
Definition limit_values (l : ResourceLimits) : list Z := (limit_fields l).*2.
Lemma limits_within_spec l m : limits_within l m = true <-> Forall2 Z.le (limit_values l) (limit_values m).
Proof.
  destruct l, m. unfold limits_within, limit_values, limit_fields. simpl. rewrite !andb_true_iff, !Z.leb_le, !Forall2_cons.
  rewrite Forall2_nil. naive_solver.
Qed.
(** What a profile compiled from a definition has. *)
Record deployed (d : ProviderDefinition) (p : ProviderProfile (W := W)) : Prop := {
  dy_identity : rt_provider_id (pp_runtime p) = pd_provider_id d /\ rt_product_id (pp_runtime p) = pd_product_id d /\
    rt_protocol (pp_runtime p) = pd_protocol d;
  dy_endpoint : pp_endpoint p = pd_endpoint d /\ pp_credential_binding p = pd_credential_binding d /\
    pp_test_only p = false;
  dy_scheme : ap_scheme_kind (pp_auth p) = scheme_kind (pd_auth_scheme d) /\
    header_set (ap_protected_headers (pp_auth p)) = header_set (scheme_protected_headers (pd_auth_scheme d));
  dy_binding : ap_credential_binding (pp_auth p) = Some (pd_credential_binding d) \/
    ap_credential_binding (pp_auth p) = None /\ pd_auth_scheme d = AsNone;
  dy_limits : limits_wf (rt_resource_limits (pp_runtime p)) /\
    Forall2 Z.le (limit_values (rt_resource_limits (pp_runtime p))) (limit_values official);
  dy_sse : sse_within (rt_sse (pp_runtime p)) sse_config_default = true /\
    rt_max_http_error_body_bytes (pp_runtime p) <> 0 }.
Lemma compile_profile_ok d (dep : Deployment) p : compile_profile d dep = Ok p ->
  p = mk_profile
       (mk_runtime (pd_provider_id d) (pd_product_id d) (pd_protocol d) (pd_capabilities d)
          (pd_model_capabilities d) (pd_catalog d) (pd_model_protocol_contracts d)
          (rd_resource_limits dep) (rd_sse dep) (rd_max_http_error_body_bytes dep))
       (pd_endpoint d) (pd_credential_binding d) (rd_auth dep) (rd_client_identity dep)
       (pd_provider_headers d) (pd_model_headers d) (pd_dynamic_header_policy d) (pd_transport d)
       (pd_rate_limit d) (pd_idempotency d) false /\ rd_max_http_error_body_bytes dep <> 0.
Proof.
  unfold compile_profile, profile_from_parts. rewrite if_then_ok. cbn [pp_runtime rt_max_http_error_body_bytes].
  intros [Hz%Z.eqb_neq Hp]. rewrite !bind_unit_ok, bind_ok in Hp. destruct Hp as (_ & _ & _ & ep & _ & Hp).
  rewrite bind_unit_ok in Hp. destruct Hp as [_ [= <-]]. by split.
Qed.
Lemma compile_resolved_ok d (dep : Deployment) p : compile_resolved d dep = Ok p -> deployed d p /\ pp_auth p = rd_auth dep.
Proof.
  unfold compile_resolved, validate_deployment_limits. rewrite bind_unit_ok, bind_unit_ok, map_err_ok, if_then_ok, configuration_if_ok.
  rewrite !if_then_ok, !negb_false_iff, !bool_decide_eq_true, limits_within_spec.
  intros ((Hl%validate_limits_wf & Hlw & Hs) & Hk & Hh & Hb).
  assert (compile_profile d dep = Ok p /\ (ap_credential_binding (rd_auth dep) = Some (pd_credential_binding d) \/
            ap_credential_binding (rd_auth dep) = None /\ pd_auth_scheme d = AsNone)) as [Hc Hbind].
  { destruct (ap_credential_binding (rd_auth dep)) as [binding|]; rewrite if_then_ok in Hb; destruct Hb as [Hb Hc];
      (split; [done|]); [left|right].
    - apply negb_false_iff, bool_decide_eq_true in Hb. by subst.
    - by destruct (pd_auth_scheme d). }
  apply compile_profile_ok in Hc as [-> Hz]. split; [|done]. by split.
Qed.
(** The provider a deployment's credential becomes. *)
Definition credential_auth (d : ProviderDefinition) (dep : DeploymentConfig) (resolver : SecretResolver)
    (auth : AuthProvider (W := W)) : Prop :=
  match dc_credential dep with
  | CredReference r => exists key, resolver r = Ok key /\
      (auth = bearer_auth (mk_bearer_auth (mk_bearer_credential key (pd_credential_binding d))) \/
       exists name, pd_auth_scheme d = AsApiKeyHeader name /\
         auth = api_key_header_auth (mk_api_key_header_auth name key (pd_credential_binding d)))
  | CredAuthProvider a => auth = a
  | CredNone => auth = no_auth
  end.
Lemma deployment_auth_ok d dep resolver auth : deployment_auth d (dc_credential dep) resolver = Ok auth ->
  credential_auth d dep resolver auth.
Proof.
  unfold deployment_auth, credential_auth. destruct (dc_credential dep) as [r|a|].
  - rewrite bind_ok. setoid_rewrite map_err_ok. intros (key & Hk & Ha). exists key. split; [done|].
    destruct (pd_auth_scheme d) as [|name|kind names|]; try done; [left; by injection Ha as <-|right].
    exists name. split; [done|]. unfold api_key_header_auth_new in Ha. rewrite bind_ok in Ha.
    destruct Ha as (a & Ha & [= <-]). rewrite bind_unit_ok in Ha. by destruct Ha as [_ [= <-]].
  - by intros [= <-].
  - destruct (pd_auth_scheme d); try done. by intros [= <-].
Qed.
Lemma compile_ok d dep resolver p : compile d dep resolver = Ok p ->
  dc_provider_id dep = pd_provider_id d /\ deployed d p /\ credential_auth d dep resolver (pp_auth p).
Proof.
  unfold compile. rewrite if_then_ok, negb_false_iff, str_eqb_spec, bind_ok.
  intros (Hid & auth & Ha%deployment_auth_ok & Hc). split; [done|]. rewrite bind_ok in Hc. destruct Hc as (rd & Hr & Hc).
  apply compile_resolved_ok in Hc as [Hd Hauth]. split; [done|]. rewrite Hauth.
  unfold rd_with_max_http_error_body_bytes in Hr. destruct (_ =? 0); [done|]. by injection Hr as <-.
Qed.

(** C12. Every definition that builds is coherent: its protocol identity, dialect
    and contract belong together, streaming with usage is declared, the catalog
    is its own, provider operations touch no header of the authentication, the
    protocol or the transport, model operations only ordinary headers the
    provider does not own, an Anthropic definition has an operation on the
    version header (to set it or, as [anthropic_version_removed] shows, to remove
    it), and the endpoint is public HTTPS and matches the credential binding. *)
Theorem definition_coherent b d : definition_build b = Ok d ->
  checked d /\ pd_provider_id d = db_provider_id b /\ pd_product_id d = db_product_id b /\
  db_endpoint b = Some (pd_endpoint d) /\ db_auth_scheme b = Some (pd_auth_scheme d) /\
  (db_bind_to_endpoint_origin b = false -> db_credential_binding b = Some (pd_credential_binding d)) /\
  pd_provider_headers d = db_provider_headers b.
Proof. apply definition_checked. Qed.

Lemma runtime_keeps (p : ProviderProfile (W := W)) (rt : Runtime (W := W)) : runtime_build p = Ok rt ->
  ru_runtime rt = pp_runtime p.
Proof.
  unfold runtime_build. rewrite bind_unit_ok, bind_ok. intros (_ & e & _ & Hr).
  rewrite !bind_unit_ok in Hr. by destruct Hr as (_ & _ & [= <-]).
Qed.
Lemma factory_runtime b d (dep : DeploymentConfig) resolver (rt : Runtime (W := W)) :
  definition_build b = Ok d -> factory_build d dep resolver = Ok rt ->
  dc_provider_id dep = db_provider_id b /\
  (rt_provider_id (ru_runtime rt), rt_product_id (ru_runtime rt)) = (db_provider_id b, db_product_id b) /\
  bound (rt_protocol (ru_runtime rt)) /\
  credential_auth d dep resolver (ru_auth rt) /\
  ap_scheme_kind (ru_auth rt) = scheme_kind (pd_auth_scheme d) /\
  hpo_auth (ru_pipeline rt) = list_to_set (scheme_protected_headers (pd_auth_scheme d)) /\
  (forall binding, ap_credential_binding (ru_auth rt) = Some binding -> binding = pd_credential_binding d) /\
  (forall target ep, resolve_target_endpoint rt target = Ok ep ->
     admitted public_https (ep_url ep) /\ same_authority (ep_url ep) (destination (pd_endpoint d))) /\
  binding_validate (pd_credential_binding d) (ru_endpoint rt) = Ok tt /\
  limits_wf (rt_resource_limits (ru_runtime rt)) /\
  Forall2 Z.le (limit_values (rt_resource_limits (ru_runtime rt))) (limit_values official).
Proof.
  intros (Hck & Hpid & Hprod & _)%definition_checked Hf. unfold factory_build in Hf. rewrite bind_ok in Hf.
  destruct Hf as (p & (Hid & Hdep & Hcred)%compile_ok & Hrt).
  pose proof (runtime_keeps p rt Hrt) as Ert.
  apply runtime_build_ok in Hrt as (Hc & _ & Hcfg & Hmode & Hauth & Hpol & _).
  apply profile_credentials_ok in Hc as [Hb Hs]. destruct Hdep as [(Hi1 & Hi2 & Hi3) (He & Hbind & Ht) (Hk & Hh) _ (Hl & Hle) _].
  rewrite Ert, Hauth. rewrite Hbind in *. split_and!; try done.
  - congruence.
  - rewrite Hi1, Hi2. congruence.
  - rewrite Hi3. apply Hck.
  - rewrite Hpol. apply Hh.
  - intros target ep (v & Hr)%resolve_target_ok. rewrite Hcfg, Hmode, He in Hr. unfold profile_mode in Hr. rewrite Ht in Hr.
    by apply endpoint_resolve_ok in Hr as (Ha & Hsame & _).
Qed.

(** C34. A runtime made from a definition and a deployment is the definition's: it
    has its identity and protocol, the authentication has the declared shape and
    headers and is made of the resolved key or is the deployment's own, every
    endpoint a call resolves is a public HTTPS one at the declared destination,
    the credential's binding is the declared one, and every resource limit is
    positive and at most the SDK's. *)
Theorem deployment_runtime_safe b d (dep : DeploymentConfig) resolver (rt : Runtime (W := W)) :
  definition_build b = Ok d -> factory_build d dep resolver = Ok rt ->
  dc_provider_id dep = db_provider_id b /\
  (rt_provider_id (ru_runtime rt), rt_product_id (ru_runtime rt)) = (db_provider_id b, db_product_id b) /\
  bound (rt_protocol (ru_runtime rt)) /\
  credential_auth d dep resolver (ru_auth rt) /\
  ap_scheme_kind (ru_auth rt) = scheme_kind (pd_auth_scheme d) /\
  hpo_auth (ru_pipeline rt) = list_to_set (scheme_protected_headers (pd_auth_scheme d)) /\
  (forall binding, ap_credential_binding (ru_auth rt) = Some binding -> binding = pd_credential_binding d) /\
  (forall target ep, resolve_target_endpoint rt target = Ok ep ->
     admitted public_https (ep_url ep) /\ same_authority (ep_url ep) (destination (pd_endpoint d))) /\
  binding_validate (pd_credential_binding d) (ru_endpoint rt) = Ok tt /\
  limits_wf (rt_resource_limits (ru_runtime rt)) /\
  Forall2 Z.le (limit_values (rt_resource_limits (ru_runtime rt))) (limit_values official).
Proof. apply factory_runtime. Qed.

(** ** Capabilities *)

(** The builder and the runtime see the same capabilities of a model that has at
    most one of a catalog entry and a capability profile. *)
Lemma capabilities_agree b d (rt : ProviderRuntime) model :
  rt_provider_id rt = db_provider_id b -> rt_product_id rt = db_product_id b ->
  rt_capabilities rt = pd_capabilities d -> rt_model_capabilities rt = db_model_capabilities b ->
  rt_catalog rt = pd_catalog d ->
  (model_entry rt model = None \/ db_model_capabilities b !! model = None) ->
  definition_capabilities b (pd_capabilities d) (pd_catalog d) model = capabilities_for rt model.
Proof.
  intros H1 H2 H3 H4 H5 Hone. unfold definition_capabilities, capabilities_for, model_entry in *.
  rewrite <- H1, <- H2, <- H3, <- H4, <- H5 in *. destruct Hone as [-> | ->]; [done|]. done.
Qed.
End Built.

(** ** Examples *)
#[local] Existing Instances record_urls record_parts record_laws still_world still_credentials ascii_values ascii_text.
Definition blank_endpoint : Url := UrlRecord.mk EmptyString EmptyString None None None EmptyString [] None.
Definition blank_definition : ProviderDefinition :=
  mk_definition EmptyString EmptyString (chat_binding chat_contract_strict) (Absolute blank_endpoint)
    binding_official_openai AsNone [] [] None official_openai ∅ ∅ ∅ RedirectDisabled [] idempotency_unknown.
Definition openai_builder : DefinitionBuilder :=
  with_catalog ∅ (get_ok (definition_openai_chat EmptyString EmptyString) (official_openai_builder AsBearer None)).
Definition openai_defined : ProviderDefinition := get_ok blank_definition (definition_build openai_builder).
Definition openai_deployment : ProviderDeploymentConfig (W := nat) :=
  deployment_new "official-openai" (EnvironmentVariable "OPENAI_API_KEY").
Definition openai_secrets : SecretResolver :=
  environment_resolve (fun name => if str_eqb name "OPENAI_API_KEY" then Some "sk-1" else None).
Definition openai_runtime : Runtime (W := nat) :=
  get_ok example_runtime (factory_build openai_defined openai_deployment openai_secrets).
Example openai_defines : is_ok (definition_build openai_builder) = true.
Proof. vm_compute. reflexivity. Qed.
Example openai_deploys : is_ok (factory_build openai_defined openai_deployment openai_secrets) = true.
Proof. vm_compute. reflexivity. Qed.
Example official_definitions : is_ok openai_definition = true /\ is_ok anthropic_definition = true.
Proof. vm_compute. split; reflexivity. Qed.

(** A definition that removes the version header builds, although the protocol
    requires the provider to install it. *)
Definition versionless_builder : DefinitionBuilder :=
  with_provider_headers [HeaderOperation.Remove "anthropic-version"]
    (with_catalog ∅ (get_ok (definition_anthropic_messages EmptyString EmptyString)
                       (official_anthropic_builder (AsApiKeyHeader "x-api-key") None))).
Theorem anthropic_version_removed :
  is_ok (definition_build versionless_builder) = true /\
  db_dialect versionless_builder = ProtocolDialect.AnthropicMessages /\
  db_provider_headers versionless_builder = [HeaderOperation.Remove "anthropic-version"].
Proof. vm_compute. split_and!; reflexivity. Qed.

Lemma definition_coherent_witness : pd_provider_id openai_defined = "official-openai" /\ bound (pd_protocol openai_defined).
Proof.
  destruct (definition_coherent openai_builder openai_defined) as (Hc & Hp & _); [apply get_ok_eq; exact openai_defines|].
  split; [|exact (ck_bound _ Hc)]. refine (eq_trans Hp _). vm_compute. reflexivity.
Defined.
Lemma deployment_runtime_safe_witness :
  binding_validate (pd_credential_binding openai_defined) (ru_endpoint openai_runtime) = Ok tt.
Proof.
  destruct (deployment_runtime_safe openai_builder openai_defined openai_deployment openai_secrets openai_runtime)
    as (_ & _ & _ & _ & _ & _ & _ & _ & Hb & _);
    [apply get_ok_eq; exact openai_defines|apply get_ok_eq; exact openai_deploys|exact Hb].
Defined.

(** With both a catalog entry and a capability profile the order matters: the
    builder lets the catalog win, the runtime the profile. A definition whose
    model contract contradicts the profile builds and no deployment of it does;
    one whose contract agrees with the profile may not build. *)
Definition acme_builder (entry profile : CatalogCapabilities) : DefinitionBuilder :=
  with_model_openai_chat_compat "m" (occ_compat object_arguments)
    (with_model_capabilities (mk_model_profile "m" profile)
       (with_catalog {[ ("acme", "chat", "m") :=
            mk_model_entry ("acme", "chat", "m") "m" None "m" "M" "openai-chat-completions" entry
              model_limits_default None None (mk_catalog_source "s" "2026-01-01" None) CapabilityStatus.Supported ∅ ]}
          (with_capabilities official_openai
             (with_auth_scheme AsBearer
                (bind_credential_to_endpoint_origin
                   (with_endpoint (BaseAndPath example_openai_url "/chat/completions")
                      (definition_openai_chat "acme" "chat"))))))).
Definition acme_defined : ProviderDefinition :=
  get_ok blank_definition (definition_build (acme_builder anthropic_catalog_capabilities catalog_capabilities_default)).
Theorem capability_order_differs :
  is_ok (definition_build (acme_builder anthropic_catalog_capabilities catalog_capabilities_default)) = true /\
  match factory_build acme_defined (deployment_new (W := nat) "acme" (EnvironmentVariable "OPENAI_API_KEY"))
          openai_secrets with
  | Err (LlmError.Configuration message) => message
  | _ => EmptyString
  end = "tool argument compatibility requires explicit function tool support" /\
  is_ok (definition_build (acme_builder catalog_capabilities_default anthropic_catalog_capabilities)) = false.
Proof. split_and!; vm_compute; reflexivity. Qed.
