(* ===== verification/Registry.v ===== *)
(** * The provider registry: [src/src/provider/registry.rs]

    The map shared by the clones of a registry, with the operations on it. The
    state says whether the lock is poisoned; no operation here poisons it. *)
From S2P Require Import Prelude Errors Usage Sse SseStream Domain Images Structured Collector Pipeline ChatWire Schema Options ToolCalls ChatMachine ChatSpec Messages Reliability RetryAfter Runner History Request Headers Serialize Contract Catalog ChatRequest MessagesRequest Plan Endpoint Response Auth Credentials Attempt Definitions Profiles.

(** ** Keys and metadata *)
Abbreviation RegistrationKey := (string * option string)%type.
Definition option_cmp (a b : option string) : comparison :=
  match a, b with
  | None, None => Eq | None, Some _ => Lt | Some _, None => Gt
  | Some a, Some b => String.compare a b
  end.
Definition registration_le (a b : RegistrationKey) : Prop :=
  match String.compare a.1 b.1 with
  | Lt => True | Gt => False
  | Eq => match option_cmp a.2 b.2 with Gt => False | _ => True end
  end.
#[global] Instance registration_le_dec : RelDecision registration_le.
Proof. intros a b. unfold Decision, registration_le. repeat case_match; auto. Defined.

Record RegistrationMetadata := mk_registration_metadata {
  rm_provider_id : string; rm_product_id : option string; rm_protocol_id : option string; rm_version : string }.
Definition registration_key (m : RegistrationMetadata) : RegistrationKey := (rm_provider_id m, rm_product_id m).
Definition registry_error (reason : ProviderRegistryFailure) (provider_id : option string) (message : string)
  : ProviderRegistryError := mk_provider_registry_error reason provider_id message.
Definition state_unavailable : ProviderRegistryError :=
  registry_error StateUnavailable None "provider registry synchronization state is unavailable".

Definition is_ascii_lowercase (b : ascii) : bool := byte_in 97 122 b.
Definition provider_id_byte (b : ascii) : bool :=
  is_ascii_lowercase b || is_ascii_digit b || contains ["."; "_"; "/"; "-"] (String b EmptyString).
Definition option_all {A} (p : A -> bool) (o : option A) : bool := match o with Some a => p a | None => false end.
Definition normalize_provider_id (value : string) : result ProviderRegistryError string :=
  let normalized := to_ascii_lowercase (trim value) in
  if negb (str_is_empty normalized) && (str_len normalized <=? 128) && str_all provider_id_byte normalized
     && option_all is_ascii_alphanumeric (head (bytes_of normalized))
     && option_all is_ascii_alphanumeric (last (bytes_of normalized))
  then match ProviderId_new normalized with
       | Ok id => Ok id
       | Err _ => Err (registry_error InvalidProviderId None "provider ID failed domain validation")
       end
  else Err (registry_error InvalidProviderId None
              "provider ID must be bounded lowercase ASCII with controlled separators").
Definition version_token_byte (b : ascii) : bool :=
  is_ascii_alphanumeric b || contains ["."; "-"; "_"; "+"] (String b EmptyString).
Definition validate_version (version provider_id : string) : result ProviderRegistryError string :=
  if negb (str_is_empty version) && (str_len version <=? 64) && str_eqb (trim version) version
     && str_all version_token_byte version
  then Ok version
  else Err (registry_error InvalidRegistryVersion (Some provider_id)
              "registration version must be non-empty bounded ASCII").
Definition PROVIDER_CONFIG_SCHEMA_VERSION : string := "1.1".

Section Registries.
Context {W H : Type} {WD : World W H}.
Context {U : Urls} {UP : UrlParts} {HV : HttpValues} {HT : HeaderText}.
#[local] Abbreviation DeploymentConfig := (ProviderDeploymentConfig (W := W)).
#[local] Abbreviation Runtime_ := (Runtime (W := W)).

Record ProviderRegistration := mk_registration { rn_metadata : RegistrationMetadata; rn_definition : ProviderDefinition }.
Definition from_definition (d : ProviderDefinition) : result ProviderRegistryError ProviderRegistration :=
  provider_id ← normalize_provider_id (pd_provider_id d);
  version ← validate_version PROVIDER_CONFIG_SCHEMA_VERSION provider_id;
  Ok (mk_registration
        (mk_registration_metadata provider_id (Some (pd_product_id d)) (Some (vb_id (pd_protocol d))) version) d).

Record ProviderRegistry := mk_registry {
  rg_poisoned : bool; rg_registrations : gmap RegistrationKey ProviderRegistration }.
Definition registry_new : ProviderRegistry := mk_registry false ∅.
(** [read] and [write]. *)
Definition lock {A} (r : ProviderRegistry) (k : result ProviderRegistryError A) : result ProviderRegistryError A :=
  if rg_poisoned r then Err state_unavailable else k.
Definition set_registrations (m : gmap RegistrationKey ProviderRegistration) (r : ProviderRegistry) : ProviderRegistry :=
  mk_registry (rg_poisoned r) m.

Definition register (registration : ProviderRegistration) (r : ProviderRegistry)
  : ProviderRegistry * result ProviderRegistryError RegistrationMetadata :=
  let metadata := rn_metadata registration in
  let key := registration_key metadata in
  if rg_poisoned r then (r, Err state_unavailable)
  else match rg_registrations r !! key with
       | Some _ => (r, Err (registry_error DuplicateRegistration (Some (rm_provider_id metadata))
                              "provider ID is already registered; use explicit replace"))
       | None => (set_registrations (<[key := registration]> (rg_registrations r)) r, Ok metadata)
       end.
Definition replace (registration : ProviderRegistration) (r : ProviderRegistry)
  : ProviderRegistry * result ProviderRegistryError RegistrationMetadata :=
  let key := registration_key (rn_metadata registration) in
  if rg_poisoned r then (r, Err state_unavailable)
  else match rg_registrations r !! key with
       | None => (r, Err (registry_error RegistrationNotFound (Some (rm_provider_id (rn_metadata registration)))
                            "provider must be registered before it can be replaced"))
       | Some previous =>
           (set_registrations (<[key := registration]> (rg_registrations r)) r, Ok (rn_metadata previous))
       end.

(** The iteration of the map by its keys. *)
Definition registrations (r : ProviderRegistry) : list (RegistrationKey * ProviderRegistration) :=
  omap (fun k => pair k <$> rg_registrations r !! k)
    (merge_sort registration_le (elements (dom (rg_registrations r)))).
Definition of_provider (provider_id : string) (r : ProviderRegistry) : list (RegistrationKey * ProviderRegistration) :=
  List.filter (fun e => str_eqb e.1.1 provider_id) (registrations r).
Definition registry_get (provider_id : string) (r : ProviderRegistry)
  : result ProviderRegistryError (option RegistrationMetadata) :=
  lock r (Ok match rg_registrations r !! (provider_id, None) with
             | Some registration => Some (rn_metadata registration)
             | None =>
                 match of_provider provider_id r with
                 | [(_, registration)] => Some (rn_metadata registration)
                 | _ => None
                 end
             end).
Definition get_by_name (provider_id : string) (r : ProviderRegistry)
  : result ProviderRegistryError (option RegistrationMetadata) :=
  provider_id ← normalize_provider_id provider_id; registry_get provider_id r.
Definition get_product (provider_id product_id : string) (r : ProviderRegistry)
  : result ProviderRegistryError (option RegistrationMetadata) :=
  lock r (Ok (rn_metadata <$> rg_registrations r !! (provider_id, Some product_id))).
Definition registry_list (r : ProviderRegistry) : result ProviderRegistryError (list RegistrationMetadata) :=
  lock r (Ok (map (fun e => rn_metadata e.2) (registrations r))).
Definition remove_key (key : RegistrationKey) (r : ProviderRegistry)
  : ProviderRegistry * option RegistrationMetadata :=
  (set_registrations (delete key (rg_registrations r)) r, rn_metadata <$> rg_registrations r !! key).
Definition registry_remove (provider_id : string) (r : ProviderRegistry)
  : ProviderRegistry * result ProviderRegistryError (option RegistrationMetadata) :=
  if rg_poisoned r then (r, Err state_unavailable)
  else match of_provider provider_id r with
       | [(key, _)] => let '(r, metadata) := remove_key key r in (r, Ok metadata)
       | _ => (r, Ok None)
       end.
Definition remove_product (provider_id product_id : string) (r : ProviderRegistry)
  : ProviderRegistry * result ProviderRegistryError (option RegistrationMetadata) :=
  if rg_poisoned r then (r, Err state_unavailable)
  else let '(r, metadata) := remove_key (provider_id, Some product_id) r in (r, Ok metadata).

Definition mismatch {A} (provider_id message : string) : result LlmError A :=
  Err (LlmError.ProviderRegistry (registry_error FactoryProviderMismatch (Some provider_id) message)).
Definition not_registered {A} (provider_id message : string) : result LlmError A :=
  Err (LlmError.ProviderRegistry (registry_error RegistrationNotFound (Some provider_id) message)).
Definition runtime_ids (rt : Runtime_) : string * string * string :=
  (rt_provider_id (ru_runtime rt), rt_product_id (ru_runtime rt), vb_id (rt_protocol (ru_runtime rt))).
(** The registration of a provider's only product. *)
Definition select_registration (provider_id : string) (r : ProviderRegistry) : result LlmError ProviderRegistration :=
  _ ← map_err LlmError.ProviderRegistry (lock r (Ok tt));
  match List.filter (fun e => bool_decide (is_Some e.1.2)) (of_provider provider_id r) with
  | [] => not_registered provider_id "provider ID is not registered"
  | [(_, registration)] => Ok registration
  | _ => Err (LlmError.ProviderRegistry
                (registry_error AmbiguousProductSelection (Some provider_id)
                   "provider has multiple products; select one exact product"))
  end.
Definition registry_build_deployment (provider_id : string) (deployment : DeploymentConfig) (resolver : SecretResolver)
    (r : ProviderRegistry) : result LlmError Runtime_ :=
  if negb (str_eqb (dc_provider_id deployment) provider_id)
  then mismatch provider_id "deployment provider identity does not match registry selection"
  else
    registration ← select_registration provider_id r;
    let d := rn_definition registration in
    runtime ← factory_build d deployment resolver;
    if bool_decide (runtime_ids runtime = (pd_provider_id d, pd_product_id d, vb_id (pd_protocol d)))
    then Ok runtime
    else mismatch provider_id "definition compiler returned mismatched runtime identity".
Definition build_product_deployment (provider_id product_id : string) (deployment : DeploymentConfig)
    (resolver : SecretResolver) (r : ProviderRegistry) : result LlmError Runtime_ :=
  if negb (str_eqb (dc_provider_id deployment) provider_id)
  then mismatch provider_id "deployment provider identity does not match registry selection"
  else
    _ ← map_err LlmError.ProviderRegistry (lock r (Ok tt));
    match rg_registrations r !! (provider_id, Some product_id) with
    | None => not_registered provider_id "provider product is not registered"
    | Some registration =>
        let m := rn_metadata registration in
        runtime ← factory_build (rn_definition registration) deployment resolver;
        let '(provider, product, protocol) := runtime_ids runtime in
        if str_eqb provider (rm_provider_id m) && bool_decide (Some product = rm_product_id m)
           && bool_decide (Some protocol = rm_protocol_id m)
        then Ok runtime
        else mismatch provider_id "definition compiler returned mismatched runtime identity"
    end.

(** ** The official registries *)
Definition official_definition_unavailable : ProviderRegistryError :=
  registry_error InvalidProviderId None "built-in official definition failed to compile".
Definition register_official (d : result LlmError ProviderDefinition) (r : ProviderRegistry)
  : result ProviderRegistryError ProviderRegistry :=
  d ← map_err (fun _ => official_definition_unavailable) d;
  registration ← from_definition d;
  let '(r, registered) := register registration r in
  _ ← registered; Ok r.
Definition with_official_openai : result ProviderRegistryError ProviderRegistry :=
  register_official openai_definition registry_new.
Definition with_official_anthropic : result ProviderRegistryError ProviderRegistry :=
  register_official anthropic_definition registry_new.
Definition with_official_profiles : result ProviderRegistryError ProviderRegistry :=
  r ← with_official_openai; register_official anthropic_definition r.
End Registries.
