(* ===== verification/RegistrySpec.v ===== *)
(** * The registry as a map of products

    What the operations do to the map from provider and product to definition,
    the invariant of every reachable registry, and when a registry builds a
    runtime. *)
From S2P Require Import Prelude Errors Usage Sse SseStream Domain Images Structured Collector Pipeline ChatWire Schema SchemaCompile Options ToolCalls ChatMachine ChatSpec Messages Reliability RetryAfter Runner History Request RequestSpec Headers HeadersSpec Serialize Contract Catalog CatalogSpec ChatRequest MessagesRequest Plan PlanSpec Endpoint EndpointSpec Response Auth Credentials Attempt AttemptSpec Definitions Profiles DefinitionsSpec Registry.

Lemma filter_singleton {A} (f : A -> bool) l x : NoDup l ->
  List.filter f l = [x] <-> x ∈ l /\ f x = true /\ forall y, y ∈ l -> f y = true -> y = x.
Proof.
  intros Hn. assert (NoDup (List.filter f l)) as Hf.
  { induction Hn as [|a l Ha Hn IH]; simpl; [constructor|]. destruct (f a); [constructor|done]; [|done].
    rewrite list_elem_of_In, filter_In, <- list_elem_of_In. naive_solver. }
  assert (forall y, y ∈ List.filter f l <-> y ∈ l /\ f y = true) as He
    by (intros y; by rewrite list_elem_of_In, filter_In, <- list_elem_of_In).
  split.
  - intros E. rewrite E in He. destruct (proj1 (He x)) as [H1 H2]; [by left|]. split_and!; [done..|].
    intros y H3 H4. by apply list_elem_of_singleton, He.
  - intros (H1 & H2 & H3). destruct (List.filter f l) as [|a [|b rest]].
    + by destruct (not_elem_of_nil x); apply He.
    + destruct (proj1 (He a)) as [Ha Hfa]; [by left|]. by rewrite (H3 a Ha Hfa).
    + destruct (proj1 (He a)) as [Ha Hfa]; [by left|]. destruct (proj1 (He b)) as [Hb Hfb]; [by right; left|].
      rewrite (H3 a Ha Hfa), (H3 b Hb Hfb) in Hf. apply NoDup_cons in Hf as [Hf _]. destruct Hf. by left.
Qed.

Section Registry.
Context {W H : Type} {WD : World W H} {CW : CredentialWorld W}.
Context {U : Urls} {UP : UrlParts} {UL : UrlLaws} {HV : HttpValues} {HT : HeaderText}.
#[local] Abbreviation DeploymentConfig := (ProviderDeploymentConfig (W := W)).

Lemma elem_of_registrations r k reg : (k, reg) ∈ registrations r <-> rg_registrations r !! k = Some reg.
Proof.
  unfold registrations. rewrite list_elem_of_omap. setoid_rewrite merge_sort_Permutation.
  setoid_rewrite elem_of_elements. setoid_rewrite elem_of_dom. split.
  - intros (k' & _ & Hk). destruct (rg_registrations r !! k') eqn:E; [|done]. by injection Hk as <- <-.
  - intros Hk. exists k. rewrite Hk. by split.
Qed.
Lemma registration_keys r : (registrations r).*1 = merge_sort registration_le (elements (dom (rg_registrations r))).
Proof.
  unfold registrations. set (l := merge_sort _ _).
  assert (Forall (fun k => is_Some (rg_registrations r !! k)) l) as Hl.
  { subst l. rewrite merge_sort_Permutation, Forall_forall. intros k. by rewrite elem_of_elements, elem_of_dom. }
  induction Hl as [|k l' [v Hv] _ IH]; [done|]. simpl. rewrite Hv. simpl. by f_equal.
Qed.
Lemma registrations_nodup r : NoDup (registrations r).
Proof. apply (NoDup_fmap_1 fst). rewrite registration_keys, merge_sort_Permutation. apply NoDup_elements. Qed.

(** ** The invariant *)

(** Every registration is the one its definition gives, under its own key. *)
Definition registry_ok (r : ProviderRegistry) : Prop :=
  rg_poisoned r = false /\
  map_Forall (fun k reg => from_definition (rn_definition reg) = Ok reg /\ k = registration_key (rn_metadata reg))
    (rg_registrations r).
Inductive registry_step : ProviderRegistry -> ProviderRegistry -> Prop :=
| step_register d reg r : from_definition d = Ok reg -> registry_step r (register reg r).1
| step_replace d reg r : from_definition d = Ok reg -> registry_step r (replace reg r).1
| step_remove p r : registry_step r (registry_remove p r).1
| step_remove_product p q r : registry_step r (remove_product p q r).1.
Lemma from_definition_ok d reg : from_definition d = Ok reg ->
  rn_definition reg = d /\ normalize_provider_id (pd_provider_id d) = Ok (rm_provider_id (rn_metadata reg)) /\
  rm_product_id (rn_metadata reg) = Some (pd_product_id d) /\
  rm_protocol_id (rn_metadata reg) = Some (vb_id (pd_protocol d)).
Proof.
  unfold from_definition. rewrite bind_ok. intros (p & Hp & Hv). rewrite bind_ok in Hv. by destruct Hv as (v & _ & [= <-]).
Qed.
Lemma inserted_ok d reg r : from_definition d = Ok reg -> registry_ok r ->
  registry_ok (set_registrations (<[registration_key (rn_metadata reg) := reg]> (rg_registrations r)) r).
Proof.
  intros Hd [Hp Hm]. split; [done|]. apply map_Forall_insert_2; [|done]. split; [|done].
  destruct (from_definition_ok d reg Hd) as [-> _]. done.
Qed.
Lemma delete_ok k r : registry_ok r -> registry_ok (set_registrations (delete k (rg_registrations r)) r).
Proof. intros [Hp Hm]. split; [done|]. by apply map_Forall_delete. Qed.
Lemma step_ok r r' : registry_step r r' -> registry_ok r -> registry_ok r'.
Proof.
  intros Hs Hr. pose proof Hr as [Hp _]. destruct Hs as [d reg r Hd|d reg r Hd|p r|p q r].
  - unfold register. rewrite Hp. destruct (_ !! _); [done|]. by eapply inserted_ok.
  - unfold replace. rewrite Hp. destruct (_ !! _); [|done]. by eapply inserted_ok.
  - unfold registry_remove. rewrite Hp. destruct (of_provider p r) as [|[k reg] [|]]; try done. by apply delete_ok.
  - unfold remove_product. rewrite Hp. by apply delete_ok.
Qed.
Lemma reachable_ok r : rtc registry_step registry_new r -> registry_ok r.
Proof.
  assert (registry_ok registry_new) as H0 by (split; [done|apply map_Forall_empty]).
  intros Hr. induction Hr as [|a b c Hs _ IH]; [done|]. apply IH. by eapply step_ok.
Qed.

(** ** Products *)

(** [q] is the only product of [p], registered as [reg]. *)
Definition sole_product (r : ProviderRegistry) (p q : string) (reg : ProviderRegistration) : Prop :=
  rg_registrations r !! (p, Some q) = Some reg /\
  forall q', is_Some (rg_registrations r !! (p, Some q')) -> q' = q.
Lemma no_bare_key r p : registry_ok r -> rg_registrations r !! (p, None) = None.
Proof.
  intros [_ Hm]. destruct (rg_registrations r !! (p, None)) as [reg|] eqn:E; [|done].
  destruct (Hm _ _ E) as [Hd Hk]. apply from_definition_ok in Hd as (_ & _ & Hq & _).
  unfold registration_key in Hk. by rewrite Hq in Hk.
Qed.
Lemma of_provider_sole r p k reg : registry_ok r ->
  of_provider p r = [(k, reg)] <-> exists q, k = (p, Some q) /\ sole_product r p q reg.
Proof.
  intros Hr. unfold of_provider. rewrite filter_singleton by apply registrations_nodup. simpl.
  rewrite elem_of_registrations, str_eqb_spec. split.
  - intros (Hk & Hp & Hu). destruct k as [p' [q|]]; simpl in Hp; subst p'; [|by rewrite no_bare_key in Hk].
    exists q. split; [done|]. split; [done|]. intros q' [reg' Hq'].
    assert (((p, Some q'), reg') = ((p, Some q), reg)) as E; [|by injection E].
    apply Hu; [by apply elem_of_registrations|]. by apply str_eqb_spec.
  - intros (q & -> & Hk & Hu). split_and!; [done..|]. intros [[p' q'] reg'] Hy Hp. simpl in Hp.
    apply elem_of_registrations in Hy. apply str_eqb_spec in Hp as ->. destruct q' as [q'|]; [|by rewrite no_bare_key in Hy].
    assert (q' = q) as -> by (apply Hu; by eexists). congruence.
Qed.
Lemma products_filter r p : registry_ok r ->
  List.filter (fun e => bool_decide (is_Some e.1.2)) (of_provider p r) = of_provider p r.
Proof.
  intros Hr. assert (Forall (fun e => bool_decide (is_Some e.1.2) = true) (of_provider p r)) as Hf.
  { apply Forall_forall. intros [[p' q'] reg] Hin%list_elem_of_In%filter_In. destruct Hin as [Hin _].
    apply list_elem_of_In, elem_of_registrations in Hin. apply bool_decide_eq_true. destruct q'; [by eexists|].
    by rewrite no_bare_key in Hin. }
  induction Hf as [|e l He _ IH]; [done|]. simpl. by rewrite He, IH.
Qed.

(** In every reachable registry a provider name stands for its product exactly
    when it has one: looking it up answers that registration's metadata and
    removing it removes that product and no other; with no product or several,
    nothing is found and nothing is removed. *)
Theorem registry_names_exact r : rtc registry_step registry_new r -> forall p,
  (forall m, registry_get p r = Ok (Some m) <-> exists q reg, sole_product r p q reg /\ m = rn_metadata reg) /\
  (forall q reg, sole_product r p q reg ->
     registry_remove p r = (set_registrations (delete (p, Some q) (rg_registrations r)) r, Ok (Some (rn_metadata reg)))) /\
  ((forall q reg, ~ sole_product r p q reg) -> registry_get p r = Ok None /\ registry_remove p r = (r, Ok None)).
Proof.
  intros Hr%reachable_ok p. pose proof Hr as [Hp _]. pose proof (fun k reg => of_provider_sole r p k reg Hr) as Hs.
  unfold registry_get, registry_remove, lock. rewrite Hp, no_bare_key by done. split_and!.
  - intros m. split.
    + destruct (of_provider p r) as [|[k reg] [|]] eqn:E; try done. intros [= <-].
      destruct (proj1 (Hs k reg) eq_refl) as (q & _ & Hq). by exists q, reg.
    + intros (q & reg & Hq & ->). by rewrite (proj2 (Hs (p, Some q) reg) (ex_intro _ q (conj eq_refl Hq))).
  - intros q reg Hq. rewrite (proj2 (Hs (p, Some q) reg) (ex_intro _ q (conj eq_refl Hq))). unfold remove_key.
    destruct Hq as [-> _]. done.
  - intros Hnone. destruct (of_provider p r) as [|[k reg] [|]] eqn:E; try done.
    destruct (proj1 (Hs k reg) eq_refl) as (q & _ & Hq). by destruct (Hnone q reg).
Qed.

(** ** The abstract map *)
Abbreviation Products := (gmap (string * string) ProviderDefinition).
Definition represents (r : ProviderRegistry) (m : Products) : Prop :=
  registry_ok r /\ forall p q, rn_definition <$> rg_registrations r !! (p, Some q) = m !! (p, q).
(** The place of a definition in the map. *)
Definition placed (d : ProviderDefinition) (k : string * string) : Prop :=
  normalize_provider_id (pd_provider_id d) = Ok k.1 /\ k.2 = pd_product_id d.
Lemma represents_insert d reg r m k : from_definition d = Ok reg -> placed d k -> represents r m ->
  registration_key (rn_metadata reg) = (k.1, Some k.2) /\
  represents (set_registrations (<[registration_key (rn_metadata reg) := reg]> (rg_registrations r)) r) (<[k := d]> m).
Proof.
  intros Hd [Hk1 Hk2] [Hr Hm]. destruct k as [p q]. simpl in *.
  pose proof (from_definition_ok d reg Hd) as (Hdef & Hn & Hq & _). rewrite Hk1 in Hn. injection Hn as Hn.
  assert (registration_key (rn_metadata reg) = (p, Some q)) as Ek by (unfold registration_key; congruence).
  split; [done|]. split; [by eapply inserted_ok|]. intros p' q'. rewrite Ek. simpl.
  destruct (decide ((p', q') = (p, q))) as [E|E].
  - injection E as -> ->. rewrite !lookup_insert_eq. simpl. by f_equal.
  - rewrite !lookup_insert_ne by congruence. apply Hm.
Qed.
(** C35. The registry implements a map from normalized provider and product to
    definition: registering adds a new key and fails on a taken one, replacing
    overwrites a taken key and fails on a new one, each leaving the map as it was
    when it fails, and removing a product deletes its key. *)
Theorem registry_implements_map r m d reg k : represents r m -> from_definition d = Ok reg -> placed d k ->
  match m !! k with
  | None => (register reg r).2 = Ok (rn_metadata reg) /\ represents (register reg r).1 (<[k := d]> m) /\
            is_ok (replace reg r).2 = false /\ (replace reg r).1 = r
  | Some d' => is_ok (register reg r).2 = false /\ (register reg r).1 = r /\
            represents (replace reg r).1 (<[k := d]> m) /\
            exists old, from_definition d' = Ok old /\ (replace reg r).2 = Ok (rn_metadata old)
  end /\
  represents (remove_product k.1 k.2 r).1 (delete k m).
Proof.
  intros Hrep Hd Hk. pose proof Hrep as [Hr Hm]. pose proof Hr as [Hp Hall].
  destruct (represents_insert d reg r m k Hd Hk Hrep) as [Ek Hins]. split.
  - unfold register, replace. rewrite Hp. specialize (Hm k.1 k.2). destruct k as [p q]. simpl in *. rewrite Ek in *.
    rewrite <- Hm. destruct (rg_registrations r !! (p, Some q)) as [old|] eqn:E; simpl; [|by split_and!].
    split_and!; try done. exists old. destruct (Hall _ _ E) as [Ho _]. by split.
  - unfold remove_product. rewrite Hp. simpl. split; [by apply delete_ok|]. intros p q. simpl. destruct k as [p' q'].
    simpl. destruct (decide ((p, q) = (p', q'))) as [E|E].
    + injection E as -> ->. by rewrite !lookup_delete_eq.
    + rewrite !lookup_delete_ne by congruence. apply Hm.
Qed.

(** ** Runtimes *)
Lemma factory_ids d (dep : DeploymentConfig) resolver (rt : Runtime (W := W)) : factory_build d dep resolver = Ok rt ->
  dc_provider_id dep = pd_provider_id d /\
  runtime_ids rt = (pd_provider_id d, pd_product_id d, vb_id (pd_protocol d)).
Proof.
  unfold factory_build. rewrite bind_ok. intros (p & (Hid & Hd & _)%compile_ok & Hr). split; [done|].
  unfold runtime_ids. rewrite (runtime_keeps p rt Hr).
  destruct (dy_identity _ _ Hd) as (-> & -> & ->). done.
Qed.
(** A reachable registry builds a runtime for a provider exactly when the
    provider has one product, the deployment names it and the product's
    definition compiles and builds; the runtime then carries the definition's
    identity, so the final identity check never fails. *)
Theorem registry_build_exact r p (dep : DeploymentConfig) resolver rt : rtc registry_step registry_new r ->
  registry_build_deployment p dep resolver r = Ok rt <->
  exists q reg, sole_product r p q reg /\ dc_provider_id dep = p /\
    factory_build (rn_definition reg) dep resolver = Ok rt.
Proof.
  intros Hr%reachable_ok. pose proof Hr as [Hp _]. unfold registry_build_deployment, select_registration, lock.
  rewrite Hp, products_filter by done. simpl. destruct (str_eqb (dc_provider_id dep) p) eqn:Eid; simpl.
  2:{ split; [done|]. intros (_ & _ & _ & E & _). apply str_eqb_spec in E. congruence. }
  apply str_eqb_spec in Eid. split.
  - rewrite bind_ok. intros (reg & Hreg & Hb). rewrite bind_ok in Hb. destruct Hb as (rt' & Hf & Hb).
    case_bool_decide; [|done]. injection Hb as <-. destruct (of_provider p r) as [|[k reg'] [|]] eqn:E; try done.
    injection Hreg as <-. apply of_provider_sole in E as (q & _ & Hq); [|done]. by exists q, reg'.
  - intros (q & reg & Hq & _ & Hf). rewrite (proj2 (of_provider_sole r p (p, Some q) reg Hr) (ex_intro _ q (conj eq_refl Hq))).
    simpl. rewrite Hf. simpl. apply factory_ids in Hf as [_ Hids]. by rewrite Hids, bool_decide_eq_true_2.
Qed.

(** A definition whose provider name is not in normal form can be registered but
    neither way of building it ever succeeds: its key has the normal form, which
    the deployment must name, and the definition demands its own spelling. *)
Theorem unnormalized_never_builds r p q (dep : DeploymentConfig) resolver reg : registry_ok r ->
  rg_registrations r !! (p, Some q) = Some reg -> pd_provider_id (rn_definition reg) <> p ->
  is_ok (build_product_deployment p q dep resolver r) = false /\
  (sole_product r p q reg -> is_ok (registry_build_deployment p dep resolver r) = false).
Proof.
  intros Hr Hreg Hne. pose proof Hr as [Hp _].
  assert (dc_provider_id dep = p -> forall rt, factory_build (rn_definition reg) dep resolver <> Ok rt) as Hno.
  { intros E rt Hf. apply factory_ids in Hf as [Hid _]. congruence. }
  unfold build_product_deployment, registry_build_deployment, select_registration, lock. rewrite Hp, products_filter by done.
  destruct (str_eqb (dc_provider_id dep) p) eqn:Eid; simpl; [|done]. apply str_eqb_spec in Eid. rewrite Hreg. split.
  - destruct (factory_build _ dep resolver) as [rt|] eqn:E; [|done]. by destruct (Hno Eid rt).
  - intros Hs. rewrite (proj2 (of_provider_sole r p (p, Some q) reg Hr) (ex_intro _ q (conj eq_refl Hs))). simpl.
    destruct (factory_build _ dep resolver) as [rt|] eqn:E; [|done]. by destruct (Hno Eid rt).
Qed.
End Registry.

(** ** Examples *)
#[local] Existing Instances record_urls record_parts record_laws still_world still_credentials ascii_values ascii_text.
Definition blank_metadata : RegistrationMetadata := mk_registration_metadata EmptyString None None EmptyString.
Definition get_reg {A} (d : A) (r : result ProviderRegistryError A) : A := match r with Ok x => x | Err _ => d end.
Lemma get_reg_eq {A} (d : A) (r : result ProviderRegistryError A) : is_ok r = true -> r = Ok (get_reg d r).
Proof. by destruct r. Qed.
Definition openai_registration : ProviderRegistration :=
  get_reg (mk_registration blank_metadata blank_definition) (from_definition openai_defined).
Definition openai_registry : ProviderRegistry := (register openai_registration registry_new).1.
Example openai_registers : is_ok (from_definition openai_defined) = true /\
  registration_key (rn_metadata openai_registration) = ("official-openai", Some "chat-completions").
Proof. vm_compute. split; reflexivity. Qed.
Lemma openai_reachable : rtc registry_step registry_new openai_registry.
Proof.
  eapply rtc_l; [|apply rtc_refl]. apply (step_register openai_defined). apply get_reg_eq, openai_registers.
Qed.
Lemma openai_sole : sole_product openai_registry "official-openai" "chat-completions" openai_registration.
Proof.
  assert (rg_registrations openai_registry = {[registration_key (rn_metadata openai_registration) := openai_registration]}) as E
    by reflexivity.
  unfold sole_product. rewrite E, (proj2 openai_registers). split; [apply lookup_singleton_eq|].
  intros q [reg Hq]. apply lookup_singleton_Some in Hq as [Hq _]. by injection Hq as ->.
Qed.
Lemma registry_names_exact_witness :
  registry_get "official-openai" openai_registry = Ok (Some (rn_metadata openai_registration)).
Proof.
  apply (proj2 (proj1 (registry_names_exact openai_registry openai_reachable "official-openai") _)).
  exists "chat-completions", openai_registration. split; [exact openai_sole|reflexivity].
Defined.
Lemma registry_implements_map_witness :
  represents (register openai_registration registry_new).1
    (<[("official-openai", "chat-completions") := openai_defined]> ∅).
Proof.
  assert (represents registry_new ∅) as H0 by (split; [exact (reachable_ok _ (rtc_refl _ _))|reflexivity]).
  pose proof (registry_implements_map registry_new ∅ openai_defined openai_registration
                ("official-openai", "chat-completions") H0 (get_reg_eq _ _ (proj1 openai_registers))) as Hx.
  rewrite lookup_empty in Hx. apply Hx. split; vm_compute; reflexivity.
Defined.
Lemma registry_build_exact_witness :
  registry_build_deployment "official-openai" openai_deployment openai_secrets openai_registry = Ok openai_runtime.
Proof.
  apply (proj2 (registry_build_exact openai_registry "official-openai" openai_deployment openai_secrets openai_runtime
                  openai_reachable)).
  exists "chat-completions", openai_registration. split; [exact openai_sole|]. split; [reflexivity|].
  assert (rn_definition openai_registration = openai_defined) as ->
    by exact (proj1 (from_definition_ok _ _ (get_reg_eq _ _ (proj1 openai_registers)))).
  apply get_ok_eq. exact openai_deploys.
Defined.

(** Such a definition exists and registers. *)
Definition capital_builder : DefinitionBuilder :=
  with_catalog ∅ (with_capabilities official_openai (with_auth_scheme AsBearer
    (bind_credential_to_endpoint_origin (with_endpoint (BaseAndPath example_openai_url "/chat/completions")
       (definition_openai_chat "Acme" "chat"))))).
Definition capital_definition : ProviderDefinition := get_ok blank_definition (definition_build capital_builder).
Example capital_registers :
  ProviderId_new "Acme" = Ok "Acme" /\ is_ok (definition_build capital_builder) = true /\
  is_ok (from_definition capital_definition) = true /\
  rm_provider_id (rn_metadata (get_reg (mk_registration blank_metadata blank_definition) (from_definition capital_definition)))
  = "acme".
Proof. vm_compute. split_and!; reflexivity. Qed.
