(* ===== verification/Config.v ===== *)
(** * Layered provider configuration: the crate [philo-config]

    [src/crates/philo-config/src/schema.rs], [source.rs], [merge.rs] and
    [validate.rs]: versioned documents, sourced layers, their merge into a
    snapshot with the provenance of each field, and the two inputs a snapshot
    compiles to. *)
From S2P Require Import Prelude Errors Usage Sse SseStream Domain Images Structured Collector Pipeline ChatWire Schema Options ToolCalls ChatMachine ChatSpec Messages Reliability RetryAfter Runner History Request Headers Serialize Contract Catalog ChatRequest MessagesRequest Plan Endpoint Response Auth Credentials Attempt Definitions Profiles.

(** ** Documents: [schema.rs] *)
Record ConfigSchemaVersion := mk_version { ver_major : Z; ver_minor : Z }.
Definition VERSION_CURRENT : ConfigSchemaVersion := mk_version 1 1.
Definition version_validate (v : ConfigSchemaVersion) : result ProviderConfigError unit :=
  if ver_major v =? ver_major VERSION_CURRENT then Ok tt
  else Err (provider_config_error "schema_version.major" InvalidVersion
              "unsupported provider configuration major version").
(** The derived order. *)
Definition version_leb (a b : ConfigSchemaVersion) : bool :=
  (ver_major a <? ver_major b) || ((ver_major a =? ver_major b) && (ver_minor a <=? ver_minor b)).

Inductive ConfigValue (T : Type) := Unset | SetTo (value : T) | RemoveValue.
Arguments Unset {T}.
Arguments SetTo {T}.
Arguments RemoveValue {T}.
Definition is_unset {T} (v : ConfigValue T) : bool := match v with Unset => true | _ => false end.
Inductive EndpointSpec := SpecBaseAndPath (base_url endpoint_path : string) | SpecAbsolute (url : string).
Record ClientIdentityConfig := mk_identity_config { idc_product : string; idc_version : string }.
Inductive CredentialAudienceSpec := AudienceOpenAi | AudienceAnthropic.
#[global] Instance CredentialAudienceSpec_eq_dec : EqDecision CredentialAudienceSpec.
Proof. solve_decision. Defined.
(** The fields a document and a layer have in common. *)
Record Settings := mk_settings {
  se_provider_id : ConfigValue string; se_protocol_id : ConfigValue string; se_endpoint : ConfigValue EndpointSpec;
  se_credential_audience : ConfigValue CredentialAudienceSpec; se_credential : ConfigValue SecretReference;
  se_client_identity : ConfigValue ClientIdentityConfig; se_max_http_error_body_bytes : ConfigValue Z }.
Record ProviderConfigDocument := mk_document { doc_schema_version : ConfigSchemaVersion; doc_settings : Settings }.
Definition into_current (d : ProviderConfigDocument) : result ProviderConfigError ProviderConfigDocument :=
  _ ← version_validate (doc_schema_version d);
  Ok (if version_leb (doc_schema_version d) VERSION_CURRENT then mk_document VERSION_CURRENT (doc_settings d) else d).

(** [serde_json]: reading a document of the known schema, and pretty-printing. *)
Class DocumentSyntax := {
  document_from_str : string -> option ProviderConfigDocument;
  document_to_string_pretty : ProviderConfigDocument -> option string }.
Definition document_error {A} (message : string) : result ProviderConfigError A :=
  Err (provider_config_error "document" InvalidDocument message).
Definition document_from_json {DS : DocumentSyntax} (input : string) : result ProviderConfigError ProviderConfigDocument :=
  if 64 * 1024 <? str_len input then document_error "provider configuration document exceeds 64 KiB"
  else match document_from_str input with
       | None => document_error "provider configuration document is not valid for the known schema"
       | Some document => into_current document
       end.
Definition to_current_json {DS : DocumentSyntax} (d : ProviderConfigDocument) : result ProviderConfigError string :=
  current ← into_current d;
  match document_to_string_pretty (mk_document VERSION_CURRENT (doc_settings current)) with
  | Some text => Ok text
  | None => document_error "provider configuration document could not be serialized"
  end.

(** ** Sources: [source.rs] *)
Inductive ConfigSourceKind :=
| ProtocolDefault | BuiltInSource | UserConfig | EnvironmentSecretReference | ProgrammaticOverride | PerRequestSafeOverride.
Definition precedence (k : ConfigSourceKind) : Z :=
  match k with
  | ProtocolDefault => 0 | BuiltInSource => 1 | UserConfig => 2 | EnvironmentSecretReference => 3
  | ProgrammaticOverride => 4 | PerRequestSafeOverride => 5
  end.
Definition source_id_byte (b : ascii) : bool :=
  is_ascii_alphanumeric b || contains ["."; "_"; "/"; "-"] (String b EmptyString).
Definition source_id_new (value : string) : result ProviderConfigError string :=
  if str_is_empty value || has_boundary_whitespace value || (128 <? str_len value)
  then Err (provider_config_error "source.id" InvalidValue
              "source id must be non-empty, bounded, and have no boundary whitespace")
  else if negb (str_all source_id_byte value)
  then Err (provider_config_error "source.id" InvalidValue "source id contains an unsupported character")
  else Ok value.
Inductive ConfigSourceLocation :=
| LocBuiltIn | LocFile (label : string) | LocEnvironmentVariable (name : string) | LocProgrammatic (label : string) | LocPerRequest.
Definition location_validate (l : ConfigSourceLocation) : result ProviderConfigError unit :=
  match l with
  | LocBuiltIn | LocPerRequest => Ok tt
  | LocFile value | LocProgrammatic value | LocEnvironmentVariable value =>
      if str_is_empty value || has_boundary_whitespace value || (256 <? str_len value)
      then Err (provider_config_error "source.location" InvalidValue "source location must be non-empty and bounded")
      else Ok tt
  end.
Record ConfigSource := mk_source {
  cs_id : string; cs_kind : ConfigSourceKind; cs_location : ConfigSourceLocation }.
Definition source_new (id : string) (kind : ConfigSourceKind) (location : ConfigSourceLocation)
  : result ProviderConfigError ConfigSource :=
  id ← source_id_new id; _ ← location_validate location; Ok (mk_source id kind location).
Definition source_built_in (id : string) := source_new id BuiltInSource LocBuiltIn.
Definition source_user_config (id label : string) := source_new id UserConfig (LocFile label).
Definition source_environment_secret (id name : string) :=
  source_new id EnvironmentSecretReference (LocEnvironmentVariable name).
Definition source_programmatic (id : string) := source_new id ProgrammaticOverride (LocProgrammatic id).
Definition source_per_request (id : string) := source_new id PerRequestSafeOverride LocPerRequest.
Inductive FieldState := FieldSet | FieldRemoved.
Record FieldProvenance := mk_provenance { fp_source : ConfigSource; fp_state : FieldState }.

(** ** Merging: [merge.rs] *)
Record ResolvedField (T : Type) := mk_field { rf_value : option T; rf_provenance : option FieldProvenance }.
Arguments mk_field {T}.
Arguments rf_value {T}.
Arguments rf_provenance {T}.
Definition field_default {T} : ResolvedField T := mk_field None None.
Definition field_apply {T} (setting : ConfigValue T) (source : ConfigSource) (f : ResolvedField T) : ResolvedField T :=
  match setting with
  | Unset => f
  | SetTo value => mk_field (Some value) (Some (mk_provenance source FieldSet))
  | RemoveValue => mk_field None (Some (mk_provenance source FieldRemoved))
  end.
Definition field_source_id {T} (f : ResolvedField T) : option string := (fun p => cs_id (fp_source p)) <$> rf_provenance f.

Record ProviderConfigLayer := mk_config_layer {
  ly_version : ConfigSchemaVersion; ly_source : ConfigSource; ly_settings : Settings }.
Definition settings_unset : Settings := mk_settings Unset Unset Unset Unset Unset Unset Unset.
Definition config_layer_new (source : ConfigSource) : ProviderConfigLayer := mk_config_layer VERSION_CURRENT source settings_unset.
Definition layer_from_document (d : ProviderConfigDocument) (source : ConfigSource)
  : result ProviderConfigError ProviderConfigLayer :=
  d ← into_current d; Ok (mk_config_layer (doc_schema_version d) source (doc_settings d)).
Definition error_with_source (source : string) (e : ProviderConfigError) : ProviderConfigError :=
  mk_provider_config_error (pce_field e) (pce_reason e) (pce_message e) (Some source).
Definition layer_from_json {DS : DocumentSyntax} (input : string) (source : ConfigSource)
  : result ProviderConfigError ProviderConfigLayer :=
  d ← map_err (error_with_source (cs_id source)) (document_from_json input);
  layer_from_document d source.
Definition layer_with_version (version : ConfigSchemaVersion) (l : ProviderConfigLayer) : ProviderConfigLayer :=
  mk_config_layer version (ly_source l) (ly_settings l).
Definition layer_with_provider_id (value : ConfigValue string) (l : ProviderConfigLayer) : ProviderConfigLayer :=
  let s := ly_settings l in
  mk_config_layer (ly_version l) (ly_source l)
    (mk_settings value (se_protocol_id s) (se_endpoint s) (se_credential_audience s)
       (se_credential s) (se_client_identity s) (se_max_http_error_body_bytes s)).
Definition layer_with_protocol_id (value : ConfigValue string) (l : ProviderConfigLayer) : ProviderConfigLayer :=
  let s := ly_settings l in
  mk_config_layer (ly_version l) (ly_source l)
    (mk_settings (se_provider_id s) value (se_endpoint s) (se_credential_audience s)
       (se_credential s) (se_client_identity s) (se_max_http_error_body_bytes s)).
Definition layer_with_endpoint (value : ConfigValue EndpointSpec) (l : ProviderConfigLayer) : ProviderConfigLayer :=
  let s := ly_settings l in
  mk_config_layer (ly_version l) (ly_source l)
    (mk_settings (se_provider_id s) (se_protocol_id s) value (se_credential_audience s)
       (se_credential s) (se_client_identity s) (se_max_http_error_body_bytes s)).
Definition layer_with_credential_audience (value : ConfigValue CredentialAudienceSpec) (l : ProviderConfigLayer) : ProviderConfigLayer :=
  let s := ly_settings l in
  mk_config_layer (ly_version l) (ly_source l)
    (mk_settings (se_provider_id s) (se_protocol_id s) (se_endpoint s) value
       (se_credential s) (se_client_identity s) (se_max_http_error_body_bytes s)).
Definition layer_with_credential (value : ConfigValue SecretReference) (l : ProviderConfigLayer) : ProviderConfigLayer :=
  let s := ly_settings l in
  mk_config_layer (ly_version l) (ly_source l)
    (mk_settings (se_provider_id s) (se_protocol_id s) (se_endpoint s) (se_credential_audience s)
       value (se_client_identity s) (se_max_http_error_body_bytes s)).
Definition layer_with_client_identity (value : ConfigValue ClientIdentityConfig) (l : ProviderConfigLayer) : ProviderConfigLayer :=
  let s := ly_settings l in
  mk_config_layer (ly_version l) (ly_source l)
    (mk_settings (se_provider_id s) (se_protocol_id s) (se_endpoint s) (se_credential_audience s)
       (se_credential s) value (se_max_http_error_body_bytes s)).
Definition layer_with_max_http_error_body_bytes (value : ConfigValue Z) (l : ProviderConfigLayer) : ProviderConfigLayer :=
  let s := ly_settings l in
  mk_config_layer (ly_version l) (ly_source l)
    (mk_settings (se_provider_id s) (se_protocol_id s) (se_endpoint s) (se_credential_audience s)
       (se_credential s) (se_client_identity s) value).
Definition has_non_credential_change (s : Settings) : bool :=
  negb (is_unset (se_provider_id s)) || negb (is_unset (se_protocol_id s)) || negb (is_unset (se_endpoint s))
  || negb (is_unset (se_credential_audience s)) || negb (is_unset (se_client_identity s))
  || negb (is_unset (se_max_http_error_body_bytes s)).
Definition has_any_change (s : Settings) : bool := has_non_credential_change s || negb (is_unset (se_credential s)).
Definition validate_source_permissions (l : ProviderConfigLayer) : result ProviderConfigError unit :=
  let id := cs_id (ly_source l) in
  let forbidden field : result ProviderConfigError unit :=
    Err (error_with_source id (provider_config_error field ForbiddenOverride
           "configuration source is not allowed to modify this field")) in
  match cs_kind (ly_source l) with
  | EnvironmentSecretReference =>
      if has_non_credential_change (ly_settings l) then forbidden "layer"
      else match se_credential (ly_settings l), cs_location (ly_source l) with
           | SetTo reference, LocEnvironmentVariable name =>
               if str_eqb (secret_name reference) name then Ok tt
               else Err (error_with_source id (provider_config_error "credential" MergeConflict
                           "environment source and secret reference names do not match"))
           | _, _ => forbidden "credential"
           end
  | PerRequestSafeOverride => if has_any_change (ly_settings l) then forbidden "layer" else Ok tt
  | _ => Ok tt
  end.

Record ProviderConfigSnapshot := mk_snapshot {
  sn_version : ConfigSchemaVersion; sn_provider_id : ResolvedField string; sn_protocol_id : ResolvedField string;
  sn_endpoint : ResolvedField EndpointSpec; sn_credential_audience : ResolvedField CredentialAudienceSpec;
  sn_credential : ResolvedField SecretReference; sn_client_identity : ResolvedField ClientIdentityConfig;
  sn_max_http_error_body_bytes : ResolvedField Z }.
Definition snapshot_empty : ProviderConfigSnapshot :=
  mk_snapshot VERSION_CURRENT field_default field_default field_default field_default field_default field_default
    field_default.
(** One layer over a snapshot. *)
Definition apply_settings (s : Settings) (source : ConfigSource) (sn : ProviderConfigSnapshot) : ProviderConfigSnapshot :=
  mk_snapshot (sn_version sn) (field_apply (se_provider_id s) source (sn_provider_id sn))
    (field_apply (se_protocol_id s) source (sn_protocol_id sn)) (field_apply (se_endpoint s) source (sn_endpoint sn))
    (field_apply (se_credential_audience s) source (sn_credential_audience sn))
    (field_apply (se_credential s) source (sn_credential sn))
    (field_apply (se_client_identity s) source (sn_client_identity sn))
    (field_apply (se_max_http_error_body_bytes s) source (sn_max_http_error_body_bytes sn)).
Definition with_minor (minor : Z) (sn : ProviderConfigSnapshot) : ProviderConfigSnapshot :=
  mk_snapshot (mk_version (ver_major (sn_version sn)) (Z.max (ver_minor (sn_version sn)) minor))
    (sn_provider_id sn) (sn_protocol_id sn) (sn_endpoint sn) (sn_credential_audience sn) (sn_credential sn)
    (sn_client_identity sn) (sn_max_http_error_body_bytes sn).
Definition apply_layer (sn : ProviderConfigSnapshot) (l : ProviderConfigLayer) : ProviderConfigSnapshot :=
  apply_settings (ly_settings l) (ly_source l) (with_minor (ver_minor (ly_version l)) sn).
Inductive ProviderConfigField :=
| FieldProviderId | FieldProtocolId | FieldEndpoint | FieldCredentialAudience | FieldCredential | FieldClientIdentity
| FieldMaxHttpErrorBodyBytes.
Definition provenance (f : ProviderConfigField) (sn : ProviderConfigSnapshot) : option FieldProvenance :=
  match f with
  | FieldProviderId => rf_provenance (sn_provider_id sn)
  | FieldProtocolId => rf_provenance (sn_protocol_id sn)
  | FieldEndpoint => rf_provenance (sn_endpoint sn)
  | FieldCredentialAudience => rf_provenance (sn_credential_audience sn)
  | FieldCredential => rf_provenance (sn_credential sn)
  | FieldClientIdentity => rf_provenance (sn_client_identity sn)
  | FieldMaxHttpErrorBodyBytes => rf_provenance (sn_max_http_error_body_bytes sn)
  end.
Definition identity_config_default : ClientIdentityConfig := mk_identity_config "philo" "1.0.0-rc.1".
Definition snapshot_built_in (id provider_id protocol_id base_url endpoint_path : string)
    (audience : CredentialAudienceSpec) : result ProviderConfigError ProviderConfigSnapshot :=
  source ← source_built_in id;
  Ok (apply_settings
        (mk_settings (SetTo provider_id) (SetTo protocol_id) (SetTo (SpecBaseAndPath base_url endpoint_path))
           (SetTo audience) Unset (SetTo identity_config_default) (SetTo (16 * 1024))) source snapshot_empty).
Definition snapshot_official_openai : result ProviderConfigError ProviderConfigSnapshot :=
  snapshot_built_in "builtin/official-openai" "official-openai" "openai-chat-completions"
    "https://api.openai.com/v1" "/chat/completions" AudienceOpenAi.
Definition snapshot_official_anthropic : result ProviderConfigError ProviderConfigSnapshot :=
  snapshot_built_in "builtin/official-anthropic" "official-anthropic" "anthropic-messages"
    "https://api.anthropic.com/v1" "/messages" AudienceAnthropic.

Definition source_key (l : ProviderConfigLayer) : Z * string := (precedence (cs_kind (ly_source l)), cs_id (ly_source l)).
Fixpoint check_layers (layers : list ProviderConfigLayer) (keys : gset (Z * string)) : result ProviderConfigError unit :=
  match layers with
  | [] => Ok tt
  | l :: layers =>
      _ ← version_validate (ly_version l);
      _ ← validate_source_permissions l;
      if bool_decide (source_key l ∈ keys)
      then Err (error_with_source (cs_id (ly_source l))
                  (provider_config_error "source.id" MergeConflict
                     "configuration layers contain a duplicate source identity"))
      else check_layers layers ({[source_key l]} ∪ keys)
  end.
Definition layer_le (a b : ProviderConfigLayer) : Prop :=
  (source_key a).1 < (source_key b).1 \/ ((source_key a).1 = (source_key b).1 /\ String.le (source_key a).2 (source_key b).2).
#[global] Instance layer_le_dec : RelDecision layer_le.
Proof. intros a b. unfold layer_le. apply _. Defined.

(** ** Validation and compilation: [validate.rs] *)
Definition sourced (source : option string) (e : ProviderConfigError) : ProviderConfigError :=
  match source with Some source => error_with_source source e | None => e end.
Definition required {T} (f : ResolvedField T) (name : string) : result ProviderConfigError T :=
  ok_or (rf_value f) (sourced (field_source_id f)
    (provider_config_error name MissingRequiredField "required provider configuration field is absent")).
Definition invalid_field {T A} (f : ResolvedField T) (name message : string) : result ProviderConfigError A :=
  Err (sourced (field_source_id f) (provider_config_error name InvalidValue message)).
(** [map_err] that forgets the error. *)
Definition or_invalid {E A T} (r : result E A) (f : ResolvedField T) (name message : string)
  : result ProviderConfigError unit :=
  match r with Ok _ => Ok tt | Err _ => invalid_field f name message end.

Section Compile.
Context {W H : Type} {WD : World W H}.
Context {U : Urls} {UP : UrlParts} {HV : HttpValues} {HT : HeaderText} `{!EqDecision Url}.
#[local] Abbreviation DeploymentConfig := (ProviderDeploymentConfig (W := W)).

Definition compile_endpoint (spec : EndpointSpec) : result LlmError EndpointConfig :=
  match spec with
  | SpecBaseAndPath base_url endpoint_path =>
      if (2048 <? str_len base_url) || (1024 <? str_len endpoint_path)
      then configuration "endpoint configuration exceeds bounded lengths"
      else base_and_path base_url endpoint_path
  | SpecAbsolute url =>
      if 3072 <? str_len url then configuration "endpoint configuration exceeds bounded lengths" else absolute url
  end.
Definition validate_snapshot (sn : ProviderConfigSnapshot) : result ProviderConfigError unit :=
  _ ← version_validate (sn_version sn);
  _ ← required (sn_provider_id sn) "provider_id";
  _ ← required (sn_protocol_id sn) "protocol_id";
  _ ← required (sn_endpoint sn) "endpoint";
  _ ← required (sn_credential_audience sn) "credential_audience";
  _ ← required (sn_client_identity sn) "client_identity";
  provider_id ← required (sn_provider_id sn) "provider_id";
  _ ← or_invalid (ProviderId_new provider_id) (sn_provider_id sn) "provider_id" "provider identifier is invalid";
  protocol_id ← required (sn_protocol_id sn) "protocol_id";
  _ ← or_invalid (ProtocolId_new protocol_id) (sn_protocol_id sn) "protocol_id" "protocol identifier is invalid";
  limit ← required (sn_max_http_error_body_bytes sn) "max_http_error_body_bytes";
  _ ← (if (limit =? 0) || (1024 * 1024 <? limit)
       then invalid_field (sn_max_http_error_body_bytes sn) "max_http_error_body_bytes"
              "HTTP error body limit must be between 1 byte and 1 MiB"
       else Ok tt);
  _ ← match rf_value (sn_endpoint sn) with
      | Some endpoint => or_invalid (compile_endpoint endpoint) (sn_endpoint sn) "endpoint"
                           "endpoint configuration is invalid"
      | None => Ok tt
      end;
  _ ← match rf_value (sn_client_identity sn) with
      | Some identity => or_invalid (identity_new (idc_product identity) (idc_version identity))
                           (sn_client_identity sn) "client_identity" "client identity configuration is invalid"
      | None => Ok tt
      end;
  match rf_value (sn_credential sn) with
  | Some reference => map_err (sourced (field_source_id (sn_credential sn))) (validate_reference reference)
  | None => Ok tt
  end.
Definition merge_layers (layers : list ProviderConfigLayer) (sn : ProviderConfigSnapshot)
  : result ProviderConfigError ProviderConfigSnapshot :=
  _ ← check_layers layers ∅;
  let sn := foldl apply_layer sn (merge_sort layer_le layers) in
  _ ← validate_snapshot sn;
  Ok sn.

Definition config_err {A} (r : result ProviderConfigError A) : result LlmError A := map_err LlmError.ProviderConfig r.
Definition require_exact (f : ResolvedField string) (expected name : string) : result ProviderConfigError unit :=
  value ← required f name;
  if str_eqb value expected then Ok tt
  else Err (sourced (field_source_id f)
              (provider_config_error name ForbiddenOverride "built-in profile identity cannot be overridden")).
Definition require_audience (expected : CredentialAudienceSpec) (sn : ProviderConfigSnapshot) : result ProviderConfigError unit :=
  if bool_decide (rf_value (sn_credential_audience sn) = Some expected) then Ok tt
  else Err (sourced (field_source_id (sn_credential_audience sn))
              (provider_config_error "credential_audience" ForbiddenOverride
                 "official profile requires the official credential audience")).
(** [==] of two configurations, neither of which is a template. *)
Definition config_eqb (a b : EndpointConfig) : bool :=
  match a, b with
  | BaseAndPath u p, BaseAndPath v q => bool_decide (u = v) && str_eqb p q
  | Absolute u, Absolute v => bool_decide (u = v)
  | _, _ => false
  end.
Definition require_endpoint (expected : EndpointConfig) (sn : ProviderConfigSnapshot) : result LlmError unit :=
  spec ← config_err (required (sn_endpoint sn) "endpoint");
  actual ← compile_endpoint spec;
  if config_eqb actual expected then Ok tt
  else config_err (Err (sourced (field_source_id (sn_endpoint sn))
         (provider_config_error "endpoint" ForbiddenOverride "official profile endpoint cannot be overridden"))).
Definition deployment_for (provider_id : string) (sn : ProviderConfigSnapshot) : result LlmError DeploymentConfig :=
  reference ← config_err (required (sn_credential sn) "credential");
  identity ← config_err (required (sn_client_identity sn) "client_identity");
  identity ← identity_new (idc_product identity) (idc_version identity);
  limit ← config_err (required (sn_max_http_error_body_bytes sn) "max_http_error_body_bytes");
  dc_with_max_http_error_body_bytes limit (dc_with_client_identity identity (deployment_new provider_id reference)).
Definition official_openai_inputs (sn : ProviderConfigSnapshot) : result LlmError (ProviderDefinition * DeploymentConfig) :=
  _ ← config_err (validate_snapshot sn);
  _ ← config_err (require_exact (sn_provider_id sn) "official-openai" "provider_id");
  _ ← config_err (require_exact (sn_protocol_id sn) "openai-chat-completions" "protocol_id");
  _ ← config_err (require_audience AudienceOpenAi sn);
  expected ← base_and_path "https://api.openai.com/v1" "/chat/completions";
  _ ← require_endpoint expected sn;
  definition ← openai_definition;
  deployment ← deployment_for (pd_provider_id definition) sn;
  Ok (definition, deployment).
Definition build_official_openai_runtime (sn : ProviderConfigSnapshot) (resolver : SecretResolver)
  : result LlmError (Runtime (W := W)) :=
  '(definition, deployment) ← official_openai_inputs sn;
  profile ← compile definition deployment resolver; runtime_build profile.
Definition official_anthropic_inputs (sn : ProviderConfigSnapshot) : result LlmError (ProviderDefinition * DeploymentConfig) :=
  _ ← config_err (validate_snapshot sn);
  _ ← config_err (require_exact (sn_provider_id sn) "official-anthropic" "provider_id");
  _ ← config_err (require_exact (sn_protocol_id sn) "anthropic-messages" "protocol_id");
  _ ← config_err (require_audience AudienceAnthropic sn);
  expected ← base_and_path "https://api.anthropic.com/v1" "/messages";
  _ ← require_endpoint expected sn;
  definition ← anthropic_definition;
  deployment ← deployment_for (pd_provider_id definition) sn;
  Ok (definition, deployment).
Definition build_official_anthropic_runtime (sn : ProviderConfigSnapshot) (resolver : SecretResolver)
  : result LlmError (Runtime (W := W)) :=
  '(definition, deployment) ← official_anthropic_inputs sn;
  profile ← compile definition deployment resolver; runtime_build profile.
End Compile.
