(* ===== verification/ConfigSpec.v ===== *)
(** * Layered configuration: which layer decides, and what none can change *)
From S2P Require Import Prelude Errors Usage Sse SseStream Domain Images Structured Collector Pipeline ChatWire Schema SchemaCompile Options ToolCalls ChatMachine ChatSpec Messages Reliability RetryAfter Runner History Request RequestSpec Headers HeadersSpec Serialize Contract Catalog CatalogSpec ChatRequest MessagesRequest Plan PlanSpec Endpoint EndpointSpec Response Auth Credentials Attempt AttemptSpec Definitions Profiles DefinitionsSpec Config.

(** ** The order of layers *)
#[local] Instance layer_le_trans : Transitive layer_le.
Proof.
  intros a b c [Hab|[Eab Hab]] [Hbc|[Ebc Hbc]]; unfold layer_le; [left; lia..|]. right. split; [lia|]. by etrans.
Qed.
#[local] Instance layer_le_total : Total layer_le.
Proof.
  intros a b. unfold layer_le. destruct (Z.lt_total (source_key a).1 (source_key b).1) as [Hl|[He|Hg]]; [by left; left| |by right; left].
  destruct (total String.le (source_key a).2 (source_key b).2); [left|right]; right; by split.
Qed.
Lemma layer_le_key a b : layer_le a b -> layer_le b a -> source_key a = source_key b.
Proof.
  intros [Hab|[Eab Hab]] [Hba|[Eba Hba]]; try lia. apply injective_projections; [done|]. by apply (anti_symm String.le).
Qed.

(** What [check_layers] establishes. *)
Definition layer_allowed (l : ProviderConfigLayer) : Prop :=
  version_validate (ly_version l) = Ok tt /\ validate_source_permissions l = Ok tt.
Lemma check_layers_spec layers keys : check_layers layers keys = Ok tt <->
  Forall layer_allowed layers /\ NoDup (map source_key layers) /\ Forall (fun l => source_key l ∉ keys) layers.
Proof.
  revert keys. induction layers as [|l layers IH]; intros keys; simpl; [split; [repeat constructor|done]|].
  rewrite !then_ok, !Forall_cons, NoDup_cons. unfold layer_allowed at 1.
  case_bool_decide as Hk; [naive_solver|]. rewrite IH.
  assert (Forall (fun l' => source_key l' ∉ {[source_key l]} ∪ keys) layers <->
    source_key l ∉ map source_key layers /\ Forall (fun l' => source_key l' ∉ keys) layers) as ->; [|naive_solver].
  rewrite !Forall_forall. split.
  - intros Hf. split; [|intros x Hx Hin; apply (Hf x Hx); by apply elem_of_union_r].
    intros (x & E & Hx)%list_elem_of_fmap. apply (Hf x Hx), elem_of_union_l, elem_of_singleton. done.
  - intros [H1 H2] x Hx Hin. apply elem_of_union in Hin as [Hin%elem_of_singleton|Hin]; [|by apply (H2 x Hx)].
    apply H1, list_elem_of_fmap. by exists x.
Qed.
Lemma check_permutation layers layers' : layers ≡ₚ layers' -> check_layers layers ∅ = Ok tt -> check_layers layers' ∅ = Ok tt.
Proof.
  intros Hp. rewrite !check_layers_spec, !Forall_forall. intros (H1 & H2 & H3).
  assert (forall l, l ∈ layers' -> l ∈ layers) as Hin by (intros l; by rewrite Hp). split_and!; [by auto| |by auto].
  assert (map source_key layers ≡ₚ map source_key layers') as Hm by (by apply fmap_Permutation). by rewrite <- Hm.
Qed.
Lemma sorted_unique layers layers' : layers ≡ₚ layers' -> NoDup (map source_key layers) ->
  merge_sort layer_le layers = merge_sort layer_le layers'.
Proof.
  intros Hp Hn. apply (StronglySorted_unique_strong layer_le); [|apply StronglySorted_merge_sort; apply _..|by rewrite !merge_sort_Permutation].
  intros a b Ha Hb Hab Hba. pose proof (layer_le_key a b Hab Hba) as Hk.
  rewrite merge_sort_Permutation in Ha. rewrite merge_sort_Permutation, <- Hp in Hb.
  apply list_elem_of_lookup in Ha as [i Hi], Hb as [j Hj].
  assert (i = j) as <-; [|congruence]. eapply NoDup_lookup; [exact Hn| |]; rewrite list_lookup_fmap.
  - by rewrite Hi.
  - rewrite Hj. simpl. by rewrite Hk.
Qed.

(** ** Fields *)

(** A field of the configuration, with its setting in a layer and its place in a
    snapshot. *)
Inductive field : Type -> Type :=
| FProviderId : field string | FProtocolId : field string | FEndpoint : field EndpointSpec
| FAudience : field CredentialAudienceSpec | FCredential : field SecretReference
| FIdentity : field ClientIdentityConfig | FErrorLimit : field Z.
Definition setting {T} (f : field T) : Settings -> ConfigValue T :=
  match f with
  | FProviderId => se_provider_id | FProtocolId => se_protocol_id | FEndpoint => se_endpoint
  | FAudience => se_credential_audience | FCredential => se_credential | FIdentity => se_client_identity
  | FErrorLimit => se_max_http_error_body_bytes
  end.
Definition place {T} (f : field T) : ProviderConfigSnapshot -> ResolvedField T :=
  match f with
  | FProviderId => sn_provider_id | FProtocolId => sn_protocol_id | FEndpoint => sn_endpoint
  | FAudience => sn_credential_audience | FCredential => sn_credential | FIdentity => sn_client_identity
  | FErrorLimit => sn_max_http_error_body_bytes
  end.
Definition touches {T} (f : field T) (l : ProviderConfigLayer) : bool := negb (is_unset (setting f (ly_settings l))).
Lemma place_apply {T} (f : field T) sn l :
  place f (apply_layer sn l) = field_apply (setting f (ly_settings l)) (ly_source l) (place f sn).
Proof. by destruct f. Qed.
Lemma apply_touching {T} (v : ConfigValue T) src g g' : is_unset v = false -> field_apply v src g = field_apply v src g'.
Proof. by destruct v. Qed.
Lemma place_untouched {T} (f : field T) ls sn : Forall (fun l => touches f l = false) ls ->
  place f (foldl apply_layer sn ls) = place f sn.
Proof.
  intros Hf. revert sn. induction Hf as [|l ls Hl _ IH]; intros sn; simpl; [done|].
  rewrite IH, place_apply. unfold touches in Hl. by destruct (setting f (ly_settings l)).
Qed.
(** [l] decides the field: it touches it and no layer that does comes after it. *)
Definition decides {T} (f : field T) (layers : list ProviderConfigLayer) (l : ProviderConfigLayer) : Prop :=
  l ∈ layers /\ touches f l = true /\ forall l', l' ∈ layers -> touches f l' = true -> layer_le l' l.
Lemma place_decided {T} (f : field T) layers l sn : NoDup (map source_key layers) -> decides f layers l ->
  place f (foldl apply_layer sn (merge_sort layer_le layers)) = field_apply (setting f (ly_settings l)) (ly_source l) field_default.
Proof.
  intros Hn (Hin & Ht & Hmax). rewrite <- (merge_sort_Permutation layer_le layers) in Hin.
  apply list_elem_of_split in Hin as (before & after & E). rewrite E, foldl_app. simpl.
  rewrite place_untouched, place_apply.
  - apply apply_touching. unfold touches in Ht. by apply negb_true_iff in Ht.
  - apply Forall_forall. intros l' Hl'. apply not_true_iff_false. intros Ht'.
    pose proof (StronglySorted_merge_sort layer_le layers) as Hs. rewrite E, StronglySorted_app in Hs.
    destruct Hs as (_ & _ & Hs). apply StronglySorted_inv in Hs as [_ Hs]. rewrite Forall_forall in Hs.
    assert (layer_le l' l) as Hle.
    { apply Hmax; [|done]. rewrite <- (merge_sort_Permutation layer_le layers), E. set_solver. }
    pose proof (layer_le_key l l' (Hs l' Hl') Hle) as Hk.
    rewrite <- (merge_sort_Permutation layer_le layers), E, map_app in Hn. simpl in Hn.
    apply NoDup_app in Hn as (_ & _ & Hn). apply NoDup_cons in Hn as [Hn _]. apply Hn.
    apply list_elem_of_fmap. by exists l'.
Qed.

Section Merged.
Context {W H : Type} {WD : World W H} {CW : CredentialWorld W}.
Context {U : Urls} {UP : UrlParts} {UL : UrlLaws} {HV : HttpValues} {HT : HeaderText} `{!EqDecision Url}.
#[local] Abbreviation DeploymentConfig := (ProviderDeploymentConfig (W := W)).

Lemma merge_layers_ok layers sn r : merge_layers layers sn = Ok r <->
  check_layers layers ∅ = Ok tt /\ r = foldl apply_layer sn (merge_sort layer_le layers) /\ validate_snapshot r = Ok tt.
Proof. unfold merge_layers. rewrite !then_ok. naive_solver. Qed.
(** The order in which layers are given does not matter: any rearrangement of
    layers that merge gives the same snapshot. *)
Theorem merge_order_irrelevant layers layers' sn r :
  layers ≡ₚ layers' -> merge_layers layers sn = Ok r -> merge_layers layers' sn = Ok r.
Proof.
  rewrite !merge_layers_ok. intros Hp (Hc & -> & Hv). split; [by eapply check_permutation|]. split; [|done].
  f_equal. apply check_layers_spec in Hc as (_ & Hn & _). by apply sorted_unique.
Qed.
(** What a source may do. *)
Definition permitted_source (l : ProviderConfigLayer) : Prop :=
  match cs_kind (ly_source l) with
  | EnvironmentSecretReference => (forall T (f : field T), touches f l = true -> existT T f = existT _ FCredential) /\
      exists name, cs_location (ly_source l) = LocEnvironmentVariable name /\
        se_credential (ly_settings l) = SetTo (EnvironmentVariable name)
  | PerRequestSafeOverride => forall T (f : field T), touches f l = false
  | _ => True
  end.
Lemma is_unset_spec {T} (v : ConfigValue T) : is_unset v = true -> v = Unset.
Proof. by destruct v. Qed.
Lemma unchanged_fields s : has_non_credential_change s = false ->
  se_provider_id s = Unset /\ se_protocol_id s = Unset /\ se_endpoint s = Unset /\ se_credential_audience s = Unset /\
  se_client_identity s = Unset /\ se_max_http_error_body_bytes s = Unset.
Proof.
  unfold has_non_credential_change. rewrite !orb_false_iff, !negb_false_iff. intros [[[[[H1 H2] H3] H4] H5] H6].
  split_and!; by apply is_unset_spec.
Qed.
Lemma permissions_ok l : validate_source_permissions l = Ok tt -> permitted_source l.
Proof.
  unfold validate_source_permissions, permitted_source. destruct (cs_kind (ly_source l)); try done.
  - destruct (has_non_credential_change _) eqn:E; [done|].
    apply unchanged_fields in E as (H1 & H2 & H3 & H4 & H5 & H6).
    destruct (se_credential (ly_settings l)) as [|[name]|] eqn:Ec; try done.
    destruct (cs_location (ly_source l)) as [| |name'| |]; try done. simpl.
    destruct (str_eqb name name') eqn:En; [|done]. apply str_eqb_spec in En as ->. intros _. split; [|by exists name'].
    intros T f. unfold touches. destruct f; simpl; rewrite ?H1, ?H2, ?H3, ?H4, ?H5, ?H6; done.
  - destruct (has_any_change _) eqn:E; [done|]. unfold has_any_change in E. apply orb_false_iff in E as [E Ec].
    apply unchanged_fields in E as (H1 & H2 & H3 & H4 & H5 & H6). apply negb_false_iff in Ec. intros _ T f.
    unfold touches. destruct f; simpl; rewrite ?H1, ?H2, ?H3, ?H4, ?H5, ?H6; try done. by destruct (se_credential _).
Qed.
(** C36. After a merge every field is decided by one layer, the last in precedence
    and source identity of those that touch it, and records it as its provenance;
    a field no layer touches keeps its value and provenance. An environment
    source touches the credential alone, naming its own variable, and a request
    source touches nothing. *)
Theorem merge_decides layers sn r : merge_layers layers sn = Ok r ->
  (forall T (f : field T) l, decides f layers l ->
     place f r = field_apply (setting f (ly_settings l)) (ly_source l) field_default) /\
  (forall T (f : field T), (forall l, l ∈ layers -> touches f l = false) -> place f r = place f sn) /\
  Forall permitted_source layers.
Proof.
  intros (Hc & -> & _)%merge_layers_ok. apply check_layers_spec in Hc as (Hall & Hn & _). split_and!.
  - intros T f l Hd. by apply place_decided.
  - intros T f Hf. apply place_untouched. rewrite merge_sort_Permutation. by apply Forall_forall.
  - eapply Forall_impl; [exact Hall|]. intros l [_ Hp]. by apply permissions_ok.
Qed.

(** ** Inputs *)
Lemma required_ok {T} (f : ResolvedField T) name v : required f name = Ok v <-> rf_value f = Some v.
Proof. apply ok_or_ok. Qed.
Lemma require_exact_ok f expected name : require_exact f expected name = Ok tt -> rf_value f = Some expected.
Proof.
  unfold require_exact. rewrite bind_ok. intros (v & Hv%required_ok & He).
  destruct (str_eqb v expected) eqn:E; [|done]. by apply str_eqb_spec in E as ->.
Qed.
Lemma config_eqb_spec a b : config_eqb a b = true -> a = b.
Proof.
  destruct a, b; simpl; try done.
  - intros [->%bool_decide_eq_true ->%str_eqb_spec]%andb_true_iff. done.
  - by intros ->%bool_decide_eq_true.
Qed.
Lemma deployment_for_ok p sn (dep : DeploymentConfig) : deployment_for p sn = Ok dep ->
  dc_provider_id dep = p /\ dc_resource_limits dep = official /\ dc_sse dep = sse_config_default /\
  (exists r, rf_value (sn_credential sn) = Some r /\ dc_credential dep = CredReference r) /\
  rf_value (sn_max_http_error_body_bytes sn) = Some (dc_max_http_error_body_bytes dep).
Proof.
  unfold deployment_for, config_err. rewrite bind_ok. setoid_rewrite map_err_ok. setoid_rewrite required_ok.
  intros (r & Hr & Hd). rewrite bind_ok in Hd. destruct Hd as (i & _ & Hd). rewrite bind_ok in Hd.
  destruct Hd as (identity & _ & Hd). rewrite bind_ok in Hd. destruct Hd as (limit & Hl & Hd).
  rewrite map_err_ok, required_ok in Hl. unfold dc_with_max_http_error_body_bytes in Hd. destruct (limit =? 0); [done|].
  injection Hd as <-. cbn. split_and!; try done. by exists r.
Qed.
Lemma openai_inputs_ok sn d (dep : DeploymentConfig) : official_openai_inputs sn = Ok (d, dep) ->
  openai_definition = Ok d /\ deployment_for (pd_provider_id d) sn = Ok dep /\ validate_snapshot sn = Ok tt /\
  rf_value (sn_provider_id sn) = Some "official-openai" /\ rf_value (sn_credential_audience sn) = Some AudienceOpenAi /\
  exists spec endpoint, rf_value (sn_endpoint sn) = Some spec /\ compile_endpoint spec = Ok endpoint /\
    base_and_path "https://api.openai.com/v1" "/chat/completions" = Ok endpoint.
Proof.
  unfold official_openai_inputs, config_err. rewrite !then_ok, !map_err_ok. intros (Hv & Hp & _ & Ha & Hi).
  rewrite bind_ok in Hi. destruct Hi as (expected & He & Hi). rewrite then_ok in Hi. destruct Hi as (Hq & Hi).
  rewrite bind_ok in Hi. destruct Hi as (d' & Hd & Hi). rewrite bind_ok in Hi. destruct Hi as (dep' & Hdep & [= <- <-]).
  unfold require_audience in Ha. destruct (bool_decide _) eqn:Ea; [|done]. apply bool_decide_eq_true in Ea.
  unfold require_endpoint, config_err in Hq. rewrite bind_ok in Hq. destruct Hq as (spec & Hspec & Hq).
  rewrite map_err_ok, required_ok in Hspec. rewrite bind_ok in Hq. destruct Hq as (actual & Hact & Hq).
  destruct (config_eqb actual expected) eqn:Eq; [|done]. apply config_eqb_spec in Eq as ->.
  split_and!; try done; [by eapply require_exact_ok|]. by exists spec, expected.
Qed.
Lemma openai_definition_ids d : openai_definition = Ok d ->
  exists b, definition_build b = Ok d /\ pd_provider_id d = "official-openai" /\
    pd_credential_binding d = binding_official_openai.
Proof.
  unfold openai_definition. rewrite bind_ok. intros (b & Hb & Hd). exists (with_catalog ∅ b). split; [done|].
  apply definition_checked in Hd as (_ & Hp & _ & _ & _ & Hbind & _). rewrite Hp.
  unfold official_openai_builder in Hb. rewrite bind_ok in Hb. destruct Hb as (p & Hpid & Hb).
  rewrite bind_ok in Hb. destruct Hb as (q & _ & Hb). rewrite bind_ok in Hb. destruct Hb as (e & _ & [= <-]).
  injection Hpid as <-. split; [done|]. specialize (Hbind eq_refl). by injection Hbind as <-.
Qed.
(** No configuration moves an official credential: whatever layers were merged
    and whatever the resolver answers, a runtime built from a snapshot as the
    official OpenAI one has the official identity, resolves every call to a
    public HTTPS endpoint at the official definition's destination, carries a
    credential made from the snapshot's secret reference and bound to the
    official origin, and keeps the SDK's resource limits. *)
Theorem official_config_fixed sn resolver (rt : Runtime (W := W)) :
  build_official_openai_runtime sn resolver = Ok rt ->
  rt_provider_id (ru_runtime rt) = "official-openai" /\
  (forall binding, ap_credential_binding (ru_auth rt) = Some binding -> binding = binding_official_openai) /\
  binding_validate binding_official_openai (ru_endpoint rt) = Ok tt /\
  (exists d, openai_definition = Ok d /\ forall target ep, resolve_target_endpoint rt target = Ok ep ->
     admitted public_https (ep_url ep) /\ same_authority (ep_url ep) (destination (pd_endpoint d))) /\
  (exists r, rf_value (sn_credential sn) = Some r /\ is_ok (resolver r) = true) /\
  Forall2 Z.le (limit_values (rt_resource_limits (ru_runtime rt))) (limit_values official).
Proof.
  unfold build_official_openai_runtime. rewrite bind_ok. intros ([d dep] & Hi & Hc).
  apply openai_inputs_ok in Hi as (Hd & Hdep & _). destruct (openai_definition_ids d Hd) as (b & Hb & Hid & Hbind).
  assert (factory_build d dep resolver = Ok rt) as Hf by exact Hc.
  destruct (factory_runtime b d dep resolver rt Hb Hf) as (Hpid & Hids & _ & Hcred & _ & _ & Hbnd & Hep & Hval & _ & Hle).
  rewrite Hbind in *. apply deployment_for_ok in Hdep as (Hdid & _ & _ & (r & Hr & Hcr) & _).
  split_and!; try done; [injection Hids as -> _; congruence|by exists d|].
  exists r. split; [done|]. unfold credential_auth in Hcred. rewrite Hcr in Hcred. by destruct Hcred as (key & -> & _).
Qed.
End Merged.

(** ** Documents *)
Section Documents.
Context {DS : DocumentSyntax}.
(** The derived serializer and deserializer agree. *)
Hypothesis serde_round_trip : forall d text, document_to_string_pretty d = Some text -> document_from_str text = Some d.

(** What is written is read back: a document of a supported major version that
    serializes within 64 KiB parses to the same settings under the current
    version; only documents of the supported major version are written. *)
Theorem document_round_trip d text :
  to_current_json d = Ok text -> str_len text <= 64 * 1024 ->
  document_from_json text = Ok (mk_document VERSION_CURRENT (doc_settings d)) /\
  ver_major (doc_schema_version d) = 1.
Proof.
  unfold to_current_json. rewrite bind_ok. intros (c & Hc & Ht) Hlen.
  unfold into_current in Hc. rewrite then_ok in Hc. destruct Hc as [Hv [= Hc]].
  destruct (document_to_string_pretty _) as [t|] eqn:Ep; [|done]. injection Ht as ->.
  assert (doc_settings c = doc_settings d) as Es by (rewrite <- Hc; by destruct (version_leb _ _)).
  unfold document_from_json. replace (64 * 1024 <? str_len text) with false by (symmetry; by apply Z.ltb_ge).
  rewrite (serde_round_trip _ _ Ep), Es. split; [done|].
  unfold version_validate in Hv. destruct (ver_major (doc_schema_version d) =? 1) eqn:E; [lia|].
  change (ver_major VERSION_CURRENT) with 1 in Hv. by rewrite E in Hv.
Qed.
End Documents.

(** ** Examples *)
#[local] Existing Instances record_urls record_parts record_laws still_world still_credentials ascii_values ascii_text.
#[local] Instance host_eq_dec : EqDecision Host.
Proof. solve_decision. Defined.
#[local] Instance url_record_eq_dec : EqDecision Url.
Proof. change (EqDecision UrlRecord.t). solve_decision. Defined.
Definition config_get {A} (d : A) (r : result ProviderConfigError A) : A := match r with Ok x => x | Err _ => d end.
Lemma config_get_eq {A} (d : A) (r : result ProviderConfigError A) : is_ok r = true -> r = Ok (config_get d r).
Proof. by destruct r. Qed.
Definition blank_source : ConfigSource := mk_source EmptyString UserConfig LocBuiltIn.
Definition user_layer : ProviderConfigLayer :=
  layer_with_max_http_error_body_bytes (SetTo 2048)
    (layer_with_credential (SetTo (EnvironmentVariable "OTHER_KEY"))
       (config_layer_new (config_get blank_source (source_user_config "user" "config.json")))).
Definition secret_layer : ProviderConfigLayer :=
  layer_with_credential (SetTo (EnvironmentVariable "OPENAI_API_KEY"))
    (config_layer_new (config_get blank_source (source_environment_secret "env" "OPENAI_API_KEY"))).
Definition base_snapshot : ProviderConfigSnapshot := config_get snapshot_empty snapshot_official_openai.
Definition merged : result ProviderConfigError ProviderConfigSnapshot := merge_layers [secret_layer; user_layer] base_snapshot.
Definition merged_snapshot : ProviderConfigSnapshot := config_get snapshot_empty merged.
Example merges : is_ok merged = true /\ rf_value (sn_credential merged_snapshot) = Some (EnvironmentVariable "OPENAI_API_KEY") /\
  rf_value (sn_max_http_error_body_bytes merged_snapshot) = Some 2048.
Proof. vm_compute. split_and!; reflexivity. Qed.
Lemma merge_order_irrelevant_witness : merge_layers [user_layer; secret_layer] base_snapshot = Ok merged_snapshot.
Proof.
  apply (merge_order_irrelevant [secret_layer; user_layer]); [apply Permutation_swap|].
  apply config_get_eq. exact (proj1 merges).
Defined.
Lemma merge_decides_witness :
  sn_credential merged_snapshot
  = mk_field (Some (EnvironmentVariable "OPENAI_API_KEY")) (Some (mk_provenance (ly_source secret_layer) FieldSet)).
Proof.
  assert (merge_layers [secret_layer; user_layer] base_snapshot = Ok merged_snapshot) as Hm
    by (apply config_get_eq; exact (proj1 merges)).
  refine (proj1 (merge_decides [secret_layer; user_layer] base_snapshot merged_snapshot Hm) _ FCredential secret_layer _).
  split; [left|]. split; [reflexivity|]. intros l Hl _. apply elem_of_cons in Hl as [->|Hl].
  - right. split; [reflexivity|]. reflexivity.
  - apply list_elem_of_singleton in Hl as ->. left. reflexivity.
Defined.
Definition config_runtime : Runtime (W := nat) :=
  get_ok example_runtime (build_official_openai_runtime merged_snapshot openai_secrets).
Example config_builds : is_ok (build_official_openai_runtime (W := nat) merged_snapshot openai_secrets) = true.
Proof. vm_compute. reflexivity. Qed.
Lemma official_config_fixed_witness : binding_validate binding_official_openai (ru_endpoint config_runtime) = Ok tt.
Proof.
  destruct (official_config_fixed merged_snapshot openai_secrets config_runtime) as (_ & _ & Hb & _);
    [apply get_ok_eq; exact config_builds|exact Hb].
Defined.
