(* ===== verification/Presets.v ===== *)
(** * Third-party presets: the crate [philo-presets]

    [src/crates/philo-presets/src/common.rs], [deepseek.rs], [zai.rs] and
    [openrouter.rs]: the definitions of the reviewed OpenAI-compatible providers
    and the profiles compiled from them. *)
From S2P Require Import Prelude Errors Usage Sse SseStream Domain Images Structured Collector Pipeline ChatWire Schema Options ToolCalls ChatMachine ChatSpec Messages Reliability RetryAfter Runner History Request Headers Serialize Contract Catalog ChatRequest MessagesRequest Plan Endpoint Response Auth Credentials Attempt Definitions Profiles.

Section Presets.
Context {W H : Type} {WD : World W H}.
Context {U : Urls} {UP : UrlParts} {HV : HttpValues} {HT : HeaderText}.
(** [std::env::var], which the resolver handed to [compile] would read. *)
Context (env_var : string -> option string).
#[local] Abbreviation AuthProvider := (AuthProvider (W := W)).
#[local] Abbreviation DeploymentConfig := (ProviderDeploymentConfig (W := W)).

(** ** Shared parts: [common.rs] *)
Definition compatible_deployment (provider_id : string) (auth : AuthProvider) (identity : ClientIdentity) : DeploymentConfig :=
  dc_with_resource_limits official (dc_with_client_identity identity (deployment_with_auth_provider provider_id auth)).
Definition exact_model_catalog (provider_id product_id protocol_id model_id display_name source_id : string)
  : result LlmError ModelCatalog :=
  id ← valid_ (catalog_id "catalog_source_id" source_id);
  source ← catalog_source_new id "2026-07-23" (Some "2026-10-23");
  provider_model ← valid_ (provider_model_id_new model_id);
  wire ← valid_ (catalog_id "wire_model_value" model_id);
  from_entries [mk_model_entry (provider_id, product_id, model_id) provider_model None wire display_name protocol_id
                  catalog_capabilities_default model_limits_default None None source CapabilityStatus.Supported ∅].
Definition provider_contract : CompatProfile := compat_profile_default.
Definition PRESET_SOURCE : PolicySource := SrcProviderProfile.
Definition max_tokens_contract : CompatProfile := with_max_output_tokens MaxTokens PRESET_SOURCE provider_contract.

(** What the presets' [profile] functions do, from their constants. *)
Record Preset := mk_preset {
  pt_provider : string; pt_product : string; pt_model : string; pt_display_name : string; pt_source : string;
  pt_base_url : string; pt_audience : CredentialAudience }.
Definition preset_builder (c : Preset) (compat : CompatProfile) (headers : list HeaderOperation.t) (auth : AuthProvider)
    (dynamic_header_policy : option DynamicHeaderPolicy) : result LlmError DefinitionBuilder :=
  provider_id ← valid_ (ProviderId_new (pt_provider c));
  product_id ← valid_ (catalog_id "product_id" (pt_product c));
  protocol_id ← valid_ (ProtocolId_new "openai-chat-completions");
  model_id ← valid_ (ModelId_new (pt_model c));
  catalog ← exact_model_catalog provider_id product_id protocol_id model_id (pt_display_name c) (pt_source c);
  auth_scheme ← from_auth_provider auth;
  endpoint ← base_and_path (pt_base_url c) "/chat/completions";
  let b := with_openai_chat_compat compat
             (with_catalog catalog
                (with_capabilities conservative_chat_completions
                   (with_provider_headers headers
                      (with_auth_scheme auth_scheme
                         (with_credential_binding (binding_from (pt_audience c))
                            (with_endpoint endpoint (definition_openai_chat provider_id product_id))))))) in
  Ok match dynamic_header_policy with Some policy => with_dynamic_header_policy policy b | None => b end.
Definition preset_profile (c : Preset) (compat : CompatProfile) (headers : list HeaderOperation.t) (auth : AuthProvider)
    (identity : ClientIdentity) (dynamic_header_policy : option DynamicHeaderPolicy) : result LlmError ProviderProfile :=
  b ← preset_builder c compat headers auth dynamic_header_policy;
  definition ← definition_build b;
  compile definition (compatible_deployment (pt_provider c) auth identity) (environment_resolve env_var).
Definition preset_bearer (c : Preset) (key : ApiKey) : AuthProvider :=
  bearer_auth (mk_bearer_auth (mk_bearer_credential key (binding_from (pt_audience c)))).

(** ** DeepSeek *)
Definition deepseek : Preset :=
  mk_preset "deepseek" "deepseek-chat-openai" "deepseek-v4-flash" "DeepSeek V4 Flash"
    "deepseek-official-docs-reviewed-2026-07-23" "https://api.deepseek.com" DeepSeekApi.
Record DeepSeekProfile := mk_deepseek {
  ds_auth : AuthProvider; ds_client_identity : ClientIdentity; ds_dynamic_header_policy : option DynamicHeaderPolicy }.
Definition deepseek_new (key : ApiKey) : DeepSeekProfile := mk_deepseek (preset_bearer deepseek key) identity_default None.
Definition deepseek_from_api_key (key : string) : result LlmError DeepSeekProfile :=
  key ← api_key_new key; Ok (deepseek_new key).
Definition deepseek_with_client_identity (identity : ClientIdentity) (p : DeepSeekProfile) : DeepSeekProfile :=
  mk_deepseek (ds_auth p) identity (ds_dynamic_header_policy p).
Definition deepseek_with_auth_provider (auth : AuthProvider) (p : DeepSeekProfile) : DeepSeekProfile :=
  mk_deepseek auth (ds_client_identity p) (ds_dynamic_header_policy p).
Definition deepseek_with_dynamic_header_policy (policy : DynamicHeaderPolicy) (p : DeepSeekProfile) : DeepSeekProfile :=
  mk_deepseek (ds_auth p) (ds_client_identity p) (Some policy).
Definition deepseek_profile (p : DeepSeekProfile) : result LlmError ProviderProfile :=
  preset_profile deepseek max_tokens_contract [] (ds_auth p) (ds_client_identity p) (ds_dynamic_header_policy p).
Definition deepseek_build (p : DeepSeekProfile) : result LlmError Runtime :=
  profile ← deepseek_profile p; runtime_build profile.

(** ** Z.AI: the macro's two instances are the two constants *)
Definition language_operation (value : option (list ascii)) : list HeaderOperation.t :=
  match value with Some value => [op_set "accept-language" value] | None => [] end.
Definition language_byte (b : ascii) : bool := is_ascii_alphanumeric b || Ascii.eqb b "-".
Definition parse_language (value : string) : result LlmError (list ascii) :=
  if str_is_empty value || (35 <? str_len value) || negb (str_all language_byte value)
  then invalid "zai.accept_language" ValidationReason.InvalidIdentifier "Z.AI language must be one bounded language tag"
  else match header_value_from_str value with
       | Some v => Ok v
       | None => invalid "zai.accept_language" ValidationReason.InvalidHeader "Z.AI language cannot form a header"
       end.
Definition zai_standard : Preset :=
  mk_preset "zai" "zai-standard-api" "glm-4.7-flash" "Z.AI GLM-4.7-Flash"
    "zai-standard-official-docs-reviewed-2026-07-23" "https://api.z.ai/api/paas/v4" ZaiStandard.
Definition zai_coding : Preset :=
  mk_preset "zai" "zai-coding-plan" "glm-4.7-flash" "Z.AI GLM-4.7-Flash"
    "zai-coding-official-docs-reviewed-2026-07-23" "https://api.z.ai/api/coding/paas/v4" ZaiCoding.
Record ZaiProfile := mk_zai {
  za_auth : AuthProvider; za_client_identity : ClientIdentity; za_accept_language : option (list ascii);
  za_dynamic_header_policy : option DynamicHeaderPolicy }.
Definition zai_new (c : Preset) (key : ApiKey) : ZaiProfile := mk_zai (preset_bearer c key) identity_default None None.
Definition zai_from_api_key (c : Preset) (key : string) : result LlmError ZaiProfile :=
  key ← api_key_new key; Ok (zai_new c key).
Definition zai_with_client_identity (identity : ClientIdentity) (p : ZaiProfile) : ZaiProfile :=
  mk_zai (za_auth p) identity (za_accept_language p) (za_dynamic_header_policy p).
Definition zai_with_accept_language (value : string) (p : ZaiProfile) : result LlmError ZaiProfile :=
  v ← parse_language value; Ok (mk_zai (za_auth p) (za_client_identity p) (Some v) (za_dynamic_header_policy p)).
Definition zai_with_auth_provider (auth : AuthProvider) (p : ZaiProfile) : ZaiProfile :=
  mk_zai auth (za_client_identity p) (za_accept_language p) (za_dynamic_header_policy p).
Definition zai_with_dynamic_header_policy (policy : DynamicHeaderPolicy) (p : ZaiProfile) : ZaiProfile :=
  mk_zai (za_auth p) (za_client_identity p) (za_accept_language p) (Some policy).
Definition zai_profile (c : Preset) (p : ZaiProfile) : result LlmError ProviderProfile :=
  preset_profile c max_tokens_contract (language_operation (za_accept_language p)) (za_auth p) (za_client_identity p)
    (za_dynamic_header_policy p).
Definition zai_build (c : Preset) (p : ZaiProfile) : result LlmError Runtime :=
  profile ← zai_profile c p; runtime_build profile.

(** ** OpenRouter *)
Definition invalid_attribution {A} (field : string) : result LlmError A :=
  invalid field ValidationReason.InvalidIdentifier
    "OpenRouter attribution value is outside the safe structured subset".
Record OpenRouterAttribution := mk_attribution {
  at_site_origin : list ascii; at_title : list ascii; at_categories : option (list ascii) }.
Definition attribution_site_bad (url : Url) : bool :=
  negb (str_eqb (url_scheme url) "https") || negb (bool_decide (is_Some (url_host url)))
  || negb (str_is_empty (url_username url)) || bool_decide (is_Some (url_password url))
  || bool_decide (is_Some (url_query url)) || bool_decide (is_Some (url_fragment url))
  || negb (contains [EmptyString; "/"] (url_path url)).
Definition attribution_value (field text : string) : result LlmError (list ascii) :=
  match header_value_from_str text with Some v => Ok v | None => invalid_attribution field end.
Definition attribution_new (site_origin title : string) : result LlmError OpenRouterAttribution :=
  match url_parse site_origin with
  | None => invalid_attribution "openrouter_attribution.site"
  | Some url =>
      if attribution_site_bad url then invalid_attribution "openrouter_attribution.site"
      else if str_is_empty title || (128 <? str_len title) || negb (str_all (byte_in 0 127) title)
      then invalid_attribution "openrouter_attribution.title"
      else
        site ← attribution_value "openrouter_attribution.site" site_origin;
        title ← attribution_value "openrouter_attribution.title" title;
        Ok (mk_attribution site title None)
  end.
Definition category_byte (b : ascii) : bool := is_ascii_alphanumeric b || Ascii.eqb b "-" || Ascii.eqb b "_".
Definition category_bad (value : string) : bool :=
  str_is_empty value || (32 <? str_len value) || negb (str_all category_byte value).
Definition with_categories (categories : list string) (a : OpenRouterAttribution) : result LlmError OpenRouterAttribution :=
  if is_empty categories || (8 <? Z.of_nat (length categories)) || existsb category_bad categories
  then invalid_attribution "openrouter_attribution.categories"
  else
    v ← attribution_value "openrouter_attribution.categories" (join "," categories);
    Ok (mk_attribution (at_site_origin a) (at_title a) (Some v)).
Definition attribution_operations (a : OpenRouterAttribution) : list HeaderOperation.t :=
  [op_set "http-referer" (at_site_origin a); op_set "x-openrouter-title" (at_title a)]
  ++ match at_categories a with Some v => [op_set "x-openrouter-categories" v] | None => [] end.
Definition openrouter : Preset :=
  mk_preset "openrouter" "openrouter-chat" "nvidia/nemotron-3-ultra-550b-a55b:free"
    "OpenRouter NVIDIA Nemotron 3 Ultra 550B A55B (free)" "openrouter-official-docs-reviewed-2026-07-23"
    "https://openrouter.ai/api/v1" OpenRouterApi.
Definition openrouter_contract : CompatProfile :=
  with_usage OpenAiDropInconsistentReasoning PRESET_SOURCE
    (with_finish_reason AllowOneIdenticalDuplicate PRESET_SOURCE max_tokens_contract).
Record OpenRouterProfile := mk_openrouter {
  or_auth : AuthProvider; or_client_identity : ClientIdentity; or_attribution : option OpenRouterAttribution;
  or_dynamic_header_policy : option DynamicHeaderPolicy }.
Definition openrouter_new (key : ApiKey) : OpenRouterProfile :=
  mk_openrouter (preset_bearer openrouter key) identity_default None None.
Definition openrouter_from_api_key (key : string) : result LlmError OpenRouterProfile :=
  key ← api_key_new key; Ok (openrouter_new key).
Definition openrouter_with_client_identity (identity : ClientIdentity) (p : OpenRouterProfile) : OpenRouterProfile :=
  mk_openrouter (or_auth p) identity (or_attribution p) (or_dynamic_header_policy p).
Definition with_attribution (attribution : OpenRouterAttribution) (p : OpenRouterProfile) : OpenRouterProfile :=
  mk_openrouter (or_auth p) (or_client_identity p) (Some attribution) (or_dynamic_header_policy p).
Definition openrouter_with_auth_provider (auth : AuthProvider) (p : OpenRouterProfile) : OpenRouterProfile :=
  mk_openrouter auth (or_client_identity p) (or_attribution p) (or_dynamic_header_policy p).
Definition openrouter_with_dynamic_header_policy (policy : DynamicHeaderPolicy) (p : OpenRouterProfile) : OpenRouterProfile :=
  mk_openrouter (or_auth p) (or_client_identity p) (or_attribution p) (Some policy).
Definition openrouter_profile (p : OpenRouterProfile) : result LlmError ProviderProfile :=
  preset_profile openrouter openrouter_contract
    match or_attribution p with Some a => attribution_operations a | None => [] end
    (or_auth p) (or_client_identity p) (or_dynamic_header_policy p).
Definition openrouter_build (p : OpenRouterProfile) : result LlmError Runtime :=
  profile ← openrouter_profile p; runtime_build profile.
End Presets.
