(* ===== verification/PresetsSpec.v ===== *)
(** * Presets keep their credentials apart *)
From S2P Require Import Prelude Errors Usage Sse SseStream Domain Images Structured Collector Pipeline ChatWire Schema SchemaCompile Options ToolCalls ChatMachine ChatSpec Messages Reliability RetryAfter Runner History Request RequestSpec Headers HeadersSpec Serialize Contract Catalog CatalogSpec ChatRequest MessagesRequest Plan PlanSpec Endpoint EndpointSpec Response Auth Credentials Attempt AttemptSpec Definitions Profiles DefinitionsSpec Presets.

Section Bound.
Context {W H : Type} {WD : World W H} {CW : CredentialWorld W}.
Context {U : Urls} {UP : UrlParts} {UL : UrlLaws} {HV : HttpValues} {HT : HeaderText}.
Context (env_var : string -> option string).

Lemma preset_builder_ok c compat headers (auth : AuthProvider (W := W)) policy b :
  preset_builder c compat headers auth policy = Ok b ->
  db_provider_id b = pt_provider c /\ db_product_id b = pt_product c /\ db_provider_headers b = headers /\
  db_bind_to_endpoint_origin b = false /\ db_credential_binding b = Some (binding_from (pt_audience c)) /\
  exists base, url_parse (pt_base_url c) = Some base /\ db_endpoint b = Some (BaseAndPath base "/chat/completions").
Proof.
  assert (forall label id v, catalog_id label id = Ok v -> v = id) as Hc.
  { intros label id v. unfold catalog_id. destruct (str_is_empty id); [done|].
    destruct (has_boundary_whitespace id); [done|]. destruct (_ <? _); [done|]. by intros [= ->]. }
  assert (forall id v, ProviderId_new id = Ok v -> v = id) as Hp.
  { intros id v. unfold ProviderId_new, validated_id. destruct (str_is_empty id); [done|].
    destruct (has_boundary_whitespace id); [done|]. by intros [= ->]. }
  unfold preset_builder, valid_. rewrite bind_ok. setoid_rewrite map_err_ok. intros (p & ->%Hp & Hb).
  rewrite bind_ok in Hb. destruct Hb as (q & Hq & Hb). rewrite map_err_ok in Hq. apply Hc in Hq as ->.
  do 4 (rewrite bind_ok in Hb; destruct Hb as (? & _ & Hb)).
  rewrite bind_ok in Hb. destruct Hb as (endpoint & He & [= <-]). unfold base_and_path in He. rewrite bind_ok in He.
  destruct He as (base & Hbase%ok_or_ok & [= <-]). destruct policy; cbn; (split_and!; try done; by exists base).
Qed.
(** A preset's runtime is the preset's: its provider and product, every call at
    a public HTTPS endpoint under the authority of the preset's base URL, the
    preset's own headers only where a provider may set them, and a credential
    only when it is bound to the preset's audience. *)
Theorem preset_runtime_bound c compat headers (auth : AuthProvider (W := W)) identity policy p (rt : Runtime (W := W)) :
  preset_profile env_var c compat headers auth identity policy = Ok p -> runtime_build p = Ok rt ->
  (rt_provider_id (ru_runtime rt), rt_product_id (ru_runtime rt)) = (pt_provider c, pt_product c) /\
  ru_auth rt = auth /\
  (exists base, url_parse (pt_base_url c) = Some base /\ forall target ep, resolve_target_endpoint rt target = Ok ep ->
     admitted public_https (ep_url ep) /\ same_authority (ep_url ep) base) /\
  (exists scheme, from_auth_provider auth = Ok scheme /\ Forall (provider_may scheme) headers) /\
  (forall binding, ap_credential_binding auth = Some binding -> binding = binding_from (pt_audience c)) /\
  binding_validate (binding_from (pt_audience c)) (ru_endpoint rt) = Ok tt.
Proof.
  unfold preset_profile. rewrite bind_ok. intros (b & Hb & Hp) Hrt. rewrite bind_ok in Hp. destruct Hp as (d & Hd & Hp).
  assert (exists scheme, from_auth_provider auth = Ok scheme /\ db_auth_scheme b = Some scheme) as (scheme & Hsch & Hbs).
  { revert Hb. unfold preset_builder, valid_. do 5 (rewrite bind_ok; intros (? & _ & Hb); revert Hb).
    rewrite bind_ok. intros (scheme & Hs & Hb). rewrite bind_ok in Hb. destruct Hb as (e & _ & [= <-]).
    exists scheme. by destruct policy. }
  apply preset_builder_ok in Hb as (Hpid & Hq & Hh & Hno & Hbind & base & Hbase & Hep).
  set (dep := compatible_deployment (pt_provider c) auth identity) in *.
  assert (factory_build d dep (environment_resolve env_var) = Ok rt) as Hf by (unfold factory_build; by rewrite Hp).
  destruct (factory_runtime b d dep _ rt Hd Hf) as (_ & Hids & _ & Hcred & _ & _ & Hbnd & Hall & Hval & _).
  apply definition_checked in Hd as (Hck & _ & _ & He & Hs & Hcb & Hpro). specialize (Hcb Hno).
  rewrite Hbind in Hcb. injection Hcb as Hcb. rewrite <- Hcb in *. rewrite Hep in He. injection He as He.
  rewrite Hbs in Hs. injection Hs as Hs. assert (ru_auth rt = auth) as Ha by exact Hcred. rewrite Ha in *.
  split_and!; try done; [congruence| |].
  - exists base. split; [done|]. intros target ep Ht. specialize (Hall target ep Ht). by rewrite <- He in Hall.
  - exists scheme. split; [done|]. destruct (ck_headers d Hck) as [Hph _]. rewrite <- Hs in Hph.
    by rewrite Hpro, Hh in Hph.
Qed.
Lemma binding_from_inj a b : binding_from a = binding_from b -> a = b.
Proof. destruct a, b; try done; vm_compute; discriminate. Qed.
(** A credential bound for one preset is refused by every other: no profile of
    a preset compiles with an authentication whose binding is another
    audience's, two products of one host included. *)
Theorem presets_isolated c compat headers (auth : AuthProvider (W := W)) identity policy audience :
  ap_credential_binding auth = Some (binding_from audience) -> audience <> pt_audience c ->
  is_ok (preset_profile env_var c compat headers auth identity policy) = false.
Proof.
  intros Hb Hne. unfold preset_profile. destruct (preset_builder _ _ _ _ _) as [b|] eqn:Eb; [simpl|done].
  destruct (definition_build b) as [d|] eqn:Ed; [simpl|done].
  destruct (compile d _ _) as [p|] eqn:Ec; [|done]. exfalso. apply Hne.
  apply preset_builder_ok in Eb as (_ & _ & _ & Hno & Hbind & _).
  apply definition_checked in Ed as (_ & _ & _ & _ & _ & Hcb & _). specialize (Hcb Hno). rewrite Hbind in Hcb.
  injection Hcb as Hcb. apply compile_ok in Ec as (_ & Hd & Hcred). assert (pp_auth p = auth) as Ha by exact Hcred.
  destruct (dy_binding _ _ Hd) as [E|[E _]]; rewrite Ha, Hb in E; [|done]. injection E as E. apply binding_from_inj. congruence.
Qed.
End Bound.

(** ** Examples *)
#[local] Existing Instances record_urls record_parts record_laws still_world still_credentials ascii_values ascii_text.
Definition preset_key : ApiKey := mk_api_key "key".
Definition no_env (name : string) : option string := None.
Example presets_build :
  is_ok (deepseek_build (W := nat) no_env (deepseek_new preset_key)) = true /\
  is_ok (zai_build (W := nat) no_env zai_standard (zai_new zai_standard preset_key)) = true /\
  is_ok (zai_build (W := nat) no_env zai_coding (zai_new zai_coding preset_key)) = true /\
  is_ok (openrouter_build (W := nat) no_env (openrouter_new preset_key)) = true.
Proof. vm_compute. split_and!; reflexivity. Qed.
Definition deepseek_compiled : ProviderProfile (W := nat) :=
  get_ok example_profile (deepseek_profile no_env (deepseek_new preset_key)).
Definition deepseek_runtime : Runtime (W := nat) := get_ok example_runtime (runtime_build deepseek_compiled).
Example deepseek_compiles : is_ok (deepseek_profile (W := nat) no_env (deepseek_new preset_key)) = true /\
  is_ok (runtime_build deepseek_compiled) = true.
Proof. vm_compute. split; reflexivity. Qed.
Lemma preset_runtime_bound_witness :
  binding_validate (binding_from DeepSeekApi) (ru_endpoint deepseek_runtime) = Ok tt.
Proof.
  destruct (preset_runtime_bound no_env deepseek max_tokens_contract [] (preset_bearer deepseek preset_key)
              identity_default None deepseek_compiled deepseek_runtime) as (_ & _ & _ & _ & _ & Hv);
    [apply get_ok_eq; exact (proj1 deepseek_compiles)|apply get_ok_eq; exact (proj2 deepseek_compiles)|exact Hv].
Defined.
Lemma presets_isolated_witness :
  is_ok (zai_profile (W := nat) no_env zai_standard (zai_new zai_coding preset_key)) = false.
Proof. apply (presets_isolated no_env zai_standard _ _ _ _ _ ZaiCoding); [reflexivity|discriminate]. Defined.
