(* ===== verification/Builders.v ===== *)
(** * Builders

    The setters of options, limits and capability profiles, and what they can
    build: [domain/request.rs], [domain/limits.rs], [provider/capability.rs]. *)
From S2P Require Import Prelude Errors Domain Images Structured ChatWire Schema Options Reliability History Request Contract.

(** ** Generation options *)

Section Options.
(** [HeaderMap::insert] of the [http] crate. *)
Context (header_insert : string -> list ascii -> list (string * list ascii) -> list (string * list ascii)).

Definition with_temperature (value : f64) (o : GenerationOptions) : GenerationOptions :=
  mk_generation_options (Some value) (go_max_output_tokens o) (go_reasoning o) (go_response_format o) (go_tools o)
    (go_tool_choice o) (go_parallel_tool_calls o) (go_timeout o) (go_headers o) (go_metadata o)
    (go_protocol_options o).
Definition with_max_output_tokens (value : Z) (o : GenerationOptions) : GenerationOptions :=
  mk_generation_options (go_temperature o) (Some value) (go_reasoning o) (go_response_format o) (go_tools o)
    (go_tool_choice o) (go_parallel_tool_calls o) (go_timeout o) (go_headers o) (go_metadata o)
    (go_protocol_options o).
Definition with_reasoning (reasoning : ThinkingRequest) (o : GenerationOptions) : GenerationOptions :=
  mk_generation_options (go_temperature o) (go_max_output_tokens o) reasoning (go_response_format o) (go_tools o)
    (go_tool_choice o) (go_parallel_tool_calls o) (go_timeout o) (go_headers o) (go_metadata o)
    (go_protocol_options o).
Definition with_response_format (response_format : ResponseFormat) (o : GenerationOptions) : GenerationOptions :=
  mk_generation_options (go_temperature o) (go_max_output_tokens o) (go_reasoning o) response_format (go_tools o)
    (go_tool_choice o) (go_parallel_tool_calls o) (go_timeout o) (go_headers o) (go_metadata o)
    (go_protocol_options o).
Definition with_tools (tools : list ToolDefinition) (o : GenerationOptions) : GenerationOptions :=
  mk_generation_options (go_temperature o) (go_max_output_tokens o) (go_reasoning o) (go_response_format o) tools
    (go_tool_choice o) (go_parallel_tool_calls o) (go_timeout o) (go_headers o) (go_metadata o)
    (go_protocol_options o).
Definition with_tool_choice (choice : ToolChoice.t) (o : GenerationOptions) : GenerationOptions :=
  mk_generation_options (go_temperature o) (go_max_output_tokens o) (go_reasoning o) (go_response_format o)
    (go_tools o) (Some choice) (go_parallel_tool_calls o) (go_timeout o) (go_headers o) (go_metadata o)
    (go_protocol_options o).
Definition with_parallel_tool_calls (value : ParallelToolCalls) (o : GenerationOptions) : GenerationOptions :=
  mk_generation_options (go_temperature o) (go_max_output_tokens o) (go_reasoning o) (go_response_format o)
    (go_tools o) (go_tool_choice o) (Some value) (go_timeout o) (go_headers o) (go_metadata o)
    (go_protocol_options o).
Definition set_timeout (value : RequestTimeout) (o : GenerationOptions) : GenerationOptions :=
  mk_generation_options (go_temperature o) (go_max_output_tokens o) (go_reasoning o) (go_response_format o)
    (go_tools o) (go_tool_choice o) (go_parallel_tool_calls o) (Some value) (go_headers o) (go_metadata o)
    (go_protocol_options o).
Definition with_header (name : string) (value : list ascii) (o : GenerationOptions) : GenerationOptions :=
  mk_generation_options (go_temperature o) (go_max_output_tokens o) (go_reasoning o) (go_response_format o)
    (go_tools o) (go_tool_choice o) (go_parallel_tool_calls o) (go_timeout o) (header_insert name value
    (go_headers o)) (go_metadata o) (go_protocol_options o).
Definition with_metadata (metadata : gmap string string) (o : GenerationOptions) : GenerationOptions :=
  mk_generation_options (go_temperature o) (go_max_output_tokens o) (go_reasoning o) (go_response_format o)
    (go_tools o) (go_tool_choice o) (go_parallel_tool_calls o) (go_timeout o) (go_headers o) metadata
    (go_protocol_options o).
Definition with_protocol_options (options : ProtocolOptions) (o : GenerationOptions) : GenerationOptions :=
  mk_generation_options (go_temperature o) (go_max_output_tokens o) (go_reasoning o) (go_response_format o)
    (go_tools o) (go_tool_choice o) (go_parallel_tool_calls o) (go_timeout o) (go_headers o) (go_metadata o)
    (Some options).
Definition with_timeout (value : Z) (o : GenerationOptions) : result ValidationError GenerationOptions :=
  t ← timeout_after value; Ok (set_timeout t o).
Definition with_deadline (now value : Z) (o : GenerationOptions) : result ValidationError GenerationOptions :=
  t ← timeout_at now value; Ok (set_timeout t o).
Definition request_new (model : ModelRef) (messages : list Message) : GenerateRequest :=
  mk_generate_request model messages generation_options_default.
Definition with_options (options : GenerationOptions) (r : GenerateRequest) : GenerateRequest :=
  mk_generate_request (gr_model r) (gr_messages r) options.
End Options.

(** ** Resource limits *)
Definition with_max_request_body_bytes (value : Z) (l : ResourceLimits) : ResourceLimits :=
  mk_resource_limits value (max_messages l) (max_total_text_bytes l) (max_tools l) (max_tool_description_bytes l)
    (max_schema_bytes l) (max_schema_depth l) (max_tool_calls l) (max_tool_arguments_bytes l)
    (max_all_tool_arguments_bytes l) (max_json_array_items l) (max_images l) (max_inline_image_bytes l)
    (max_image_url_bytes l) (max_structured_output_bytes l).
Definition with_max_messages (value : Z) (l : ResourceLimits) : ResourceLimits :=
  mk_resource_limits (max_request_body_bytes l) value (max_total_text_bytes l) (max_tools l)
    (max_tool_description_bytes l) (max_schema_bytes l) (max_schema_depth l) (max_tool_calls l)
    (max_tool_arguments_bytes l) (max_all_tool_arguments_bytes l) (max_json_array_items l) (max_images l)
    (max_inline_image_bytes l) (max_image_url_bytes l) (max_structured_output_bytes l).
Definition with_max_total_text_bytes (value : Z) (l : ResourceLimits) : ResourceLimits :=
  mk_resource_limits (max_request_body_bytes l) (max_messages l) value (max_tools l)
    (max_tool_description_bytes l) (max_schema_bytes l) (max_schema_depth l) (max_tool_calls l)
    (max_tool_arguments_bytes l) (max_all_tool_arguments_bytes l) (max_json_array_items l) (max_images l)
    (max_inline_image_bytes l) (max_image_url_bytes l) (max_structured_output_bytes l).
Definition with_max_tools (value : Z) (l : ResourceLimits) : ResourceLimits :=
  mk_resource_limits (max_request_body_bytes l) (max_messages l) (max_total_text_bytes l) value
    (max_tool_description_bytes l) (max_schema_bytes l) (max_schema_depth l) (max_tool_calls l)
    (max_tool_arguments_bytes l) (max_all_tool_arguments_bytes l) (max_json_array_items l) (max_images l)
    (max_inline_image_bytes l) (max_image_url_bytes l) (max_structured_output_bytes l).
Definition with_max_tool_description_bytes (value : Z) (l : ResourceLimits) : ResourceLimits :=
  mk_resource_limits (max_request_body_bytes l) (max_messages l) (max_total_text_bytes l) (max_tools l) value
    (max_schema_bytes l) (max_schema_depth l) (max_tool_calls l) (max_tool_arguments_bytes l)
    (max_all_tool_arguments_bytes l) (max_json_array_items l) (max_images l) (max_inline_image_bytes l)
    (max_image_url_bytes l) (max_structured_output_bytes l).
Definition with_max_schema_bytes (value : Z) (l : ResourceLimits) : ResourceLimits :=
  mk_resource_limits (max_request_body_bytes l) (max_messages l) (max_total_text_bytes l) (max_tools l)
    (max_tool_description_bytes l) value (max_schema_depth l) (max_tool_calls l) (max_tool_arguments_bytes l)
    (max_all_tool_arguments_bytes l) (max_json_array_items l) (max_images l) (max_inline_image_bytes l)
    (max_image_url_bytes l) (max_structured_output_bytes l).
Definition with_max_schema_depth (value : Z) (l : ResourceLimits) : ResourceLimits :=
  mk_resource_limits (max_request_body_bytes l) (max_messages l) (max_total_text_bytes l) (max_tools l)
    (max_tool_description_bytes l) (max_schema_bytes l) value (max_tool_calls l) (max_tool_arguments_bytes l)
    (max_all_tool_arguments_bytes l) (max_json_array_items l) (max_images l) (max_inline_image_bytes l)
    (max_image_url_bytes l) (max_structured_output_bytes l).
Definition with_max_tool_calls (value : Z) (l : ResourceLimits) : ResourceLimits :=
  mk_resource_limits (max_request_body_bytes l) (max_messages l) (max_total_text_bytes l) (max_tools l)
    (max_tool_description_bytes l) (max_schema_bytes l) (max_schema_depth l) value (max_tool_arguments_bytes l)
    (max_all_tool_arguments_bytes l) (max_json_array_items l) (max_images l) (max_inline_image_bytes l)
    (max_image_url_bytes l) (max_structured_output_bytes l).
Definition with_max_tool_arguments_bytes (value : Z) (l : ResourceLimits) : ResourceLimits :=
  mk_resource_limits (max_request_body_bytes l) (max_messages l) (max_total_text_bytes l) (max_tools l)
    (max_tool_description_bytes l) (max_schema_bytes l) (max_schema_depth l) (max_tool_calls l) value
    (max_all_tool_arguments_bytes l) (max_json_array_items l) (max_images l) (max_inline_image_bytes l)
    (max_image_url_bytes l) (max_structured_output_bytes l).
Definition with_max_all_tool_arguments_bytes (value : Z) (l : ResourceLimits) : ResourceLimits :=
  mk_resource_limits (max_request_body_bytes l) (max_messages l) (max_total_text_bytes l) (max_tools l)
    (max_tool_description_bytes l) (max_schema_bytes l) (max_schema_depth l) (max_tool_calls l)
    (max_tool_arguments_bytes l) value (max_json_array_items l) (max_images l) (max_inline_image_bytes l)
    (max_image_url_bytes l) (max_structured_output_bytes l).
Definition with_max_json_array_items (value : Z) (l : ResourceLimits) : ResourceLimits :=
  mk_resource_limits (max_request_body_bytes l) (max_messages l) (max_total_text_bytes l) (max_tools l)
    (max_tool_description_bytes l) (max_schema_bytes l) (max_schema_depth l) (max_tool_calls l)
    (max_tool_arguments_bytes l) (max_all_tool_arguments_bytes l) value (max_images l) (max_inline_image_bytes l)
    (max_image_url_bytes l) (max_structured_output_bytes l).
Definition with_max_images (value : Z) (l : ResourceLimits) : ResourceLimits :=
  mk_resource_limits (max_request_body_bytes l) (max_messages l) (max_total_text_bytes l) (max_tools l)
    (max_tool_description_bytes l) (max_schema_bytes l) (max_schema_depth l) (max_tool_calls l)
    (max_tool_arguments_bytes l) (max_all_tool_arguments_bytes l) (max_json_array_items l) value
    (max_inline_image_bytes l) (max_image_url_bytes l) (max_structured_output_bytes l).
Definition with_max_inline_image_bytes (value : Z) (l : ResourceLimits) : ResourceLimits :=
  mk_resource_limits (max_request_body_bytes l) (max_messages l) (max_total_text_bytes l) (max_tools l)
    (max_tool_description_bytes l) (max_schema_bytes l) (max_schema_depth l) (max_tool_calls l)
    (max_tool_arguments_bytes l) (max_all_tool_arguments_bytes l) (max_json_array_items l) (max_images l) value
    (max_image_url_bytes l) (max_structured_output_bytes l).
Definition with_max_image_url_bytes (value : Z) (l : ResourceLimits) : ResourceLimits :=
  mk_resource_limits (max_request_body_bytes l) (max_messages l) (max_total_text_bytes l) (max_tools l)
    (max_tool_description_bytes l) (max_schema_bytes l) (max_schema_depth l) (max_tool_calls l)
    (max_tool_arguments_bytes l) (max_all_tool_arguments_bytes l) (max_json_array_items l) (max_images l)
    (max_inline_image_bytes l) value (max_structured_output_bytes l).
Definition with_max_structured_output_bytes (value : Z) (l : ResourceLimits) : ResourceLimits :=
  mk_resource_limits (max_request_body_bytes l) (max_messages l) (max_total_text_bytes l) (max_tools l)
    (max_tool_description_bytes l) (max_schema_bytes l) (max_schema_depth l) (max_tool_calls l)
    (max_tool_arguments_bytes l) (max_all_tool_arguments_bytes l) (max_json_array_items l) (max_images l)
    (max_inline_image_bytes l) (max_image_url_bytes l) value.

(** ** Capability profiles *)
Definition profile_with_function_tools (status : CapabilityStatus.t) (p : ModelCapabilityProfile) : ModelCapabilityProfile :=
  let c := mcp_capabilities p in mk_model_profile (mcp_model p)
    (mk_catalog_capabilities status (cc_tool_choice_required c) (cc_tool_choice_specific c)
       (cc_parallel_tool_calls c) (cc_strict_tools c) (cc_vision_input c) (cc_image_detail_original c)
       (cc_response_format_json_object c) (cc_response_format_json_schema c) (cc_reasoning_efforts c)
       (cc_adaptive_thinking c) (cc_adaptive_thinking_effort c)).
Definition profile_with_tool_choice_required (status : CapabilityStatus.t) (p : ModelCapabilityProfile) : ModelCapabilityProfile :=
  let c := mcp_capabilities p in mk_model_profile (mcp_model p)
    (mk_catalog_capabilities (cc_function_tools c) status (cc_tool_choice_specific c) (cc_parallel_tool_calls c)
       (cc_strict_tools c) (cc_vision_input c) (cc_image_detail_original c) (cc_response_format_json_object c)
       (cc_response_format_json_schema c) (cc_reasoning_efforts c) (cc_adaptive_thinking c)
       (cc_adaptive_thinking_effort c)).
Definition profile_with_tool_choice_specific (status : CapabilityStatus.t) (p : ModelCapabilityProfile) : ModelCapabilityProfile :=
  let c := mcp_capabilities p in mk_model_profile (mcp_model p)
    (mk_catalog_capabilities (cc_function_tools c) (cc_tool_choice_required c) status (cc_parallel_tool_calls c)
       (cc_strict_tools c) (cc_vision_input c) (cc_image_detail_original c) (cc_response_format_json_object c)
       (cc_response_format_json_schema c) (cc_reasoning_efforts c) (cc_adaptive_thinking c)
       (cc_adaptive_thinking_effort c)).
Definition profile_with_parallel_tool_calls (status : CapabilityStatus.t) (p : ModelCapabilityProfile) : ModelCapabilityProfile :=
  let c := mcp_capabilities p in mk_model_profile (mcp_model p)
    (mk_catalog_capabilities (cc_function_tools c) (cc_tool_choice_required c) (cc_tool_choice_specific c) status
       (cc_strict_tools c) (cc_vision_input c) (cc_image_detail_original c) (cc_response_format_json_object c)
       (cc_response_format_json_schema c) (cc_reasoning_efforts c) (cc_adaptive_thinking c)
       (cc_adaptive_thinking_effort c)).
Definition profile_with_strict_tools (status : CapabilityStatus.t) (p : ModelCapabilityProfile) : ModelCapabilityProfile :=
  let c := mcp_capabilities p in mk_model_profile (mcp_model p)
    (mk_catalog_capabilities (cc_function_tools c) (cc_tool_choice_required c) (cc_tool_choice_specific c)
       (cc_parallel_tool_calls c) status (cc_vision_input c) (cc_image_detail_original c)
       (cc_response_format_json_object c) (cc_response_format_json_schema c) (cc_reasoning_efforts c)
       (cc_adaptive_thinking c) (cc_adaptive_thinking_effort c)).
Definition profile_with_vision_input (status : CapabilityStatus.t) (p : ModelCapabilityProfile) : ModelCapabilityProfile :=
  let c := mcp_capabilities p in mk_model_profile (mcp_model p)
    (mk_catalog_capabilities (cc_function_tools c) (cc_tool_choice_required c) (cc_tool_choice_specific c)
       (cc_parallel_tool_calls c) (cc_strict_tools c) status (cc_image_detail_original c)
       (cc_response_format_json_object c) (cc_response_format_json_schema c) (cc_reasoning_efforts c)
       (cc_adaptive_thinking c) (cc_adaptive_thinking_effort c)).
Definition profile_with_image_detail_original (status : CapabilityStatus.t) (p : ModelCapabilityProfile) : ModelCapabilityProfile :=
  let c := mcp_capabilities p in mk_model_profile (mcp_model p)
    (mk_catalog_capabilities (cc_function_tools c) (cc_tool_choice_required c) (cc_tool_choice_specific c)
       (cc_parallel_tool_calls c) (cc_strict_tools c) (cc_vision_input c) status
       (cc_response_format_json_object c) (cc_response_format_json_schema c) (cc_reasoning_efforts c)
       (cc_adaptive_thinking c) (cc_adaptive_thinking_effort c)).
Definition profile_with_response_format_json_object (status : CapabilityStatus.t) (p : ModelCapabilityProfile) : ModelCapabilityProfile :=
  let c := mcp_capabilities p in mk_model_profile (mcp_model p)
    (mk_catalog_capabilities (cc_function_tools c) (cc_tool_choice_required c) (cc_tool_choice_specific c)
       (cc_parallel_tool_calls c) (cc_strict_tools c) (cc_vision_input c) (cc_image_detail_original c) status
       (cc_response_format_json_schema c) (cc_reasoning_efforts c) (cc_adaptive_thinking c)
       (cc_adaptive_thinking_effort c)).
Definition profile_with_response_format_json_schema (status : CapabilityStatus.t) (p : ModelCapabilityProfile) : ModelCapabilityProfile :=
  let c := mcp_capabilities p in mk_model_profile (mcp_model p)
    (mk_catalog_capabilities (cc_function_tools c) (cc_tool_choice_required c) (cc_tool_choice_specific c)
       (cc_parallel_tool_calls c) (cc_strict_tools c) (cc_vision_input c) (cc_image_detail_original c)
       (cc_response_format_json_object c) status (cc_reasoning_efforts c) (cc_adaptive_thinking c)
       (cc_adaptive_thinking_effort c)).
Definition profile_with_reasoning_efforts (status : ReasoningEffortSupport) (p : ModelCapabilityProfile) : ModelCapabilityProfile :=
  let c := mcp_capabilities p in mk_model_profile (mcp_model p)
    (mk_catalog_capabilities (cc_function_tools c) (cc_tool_choice_required c) (cc_tool_choice_specific c)
       (cc_parallel_tool_calls c) (cc_strict_tools c) (cc_vision_input c) (cc_image_detail_original c)
       (cc_response_format_json_object c) (cc_response_format_json_schema c) status (cc_adaptive_thinking c)
       (cc_adaptive_thinking_effort c)).
Definition profile_with_adaptive_thinking (status : CapabilityStatus.t) (p : ModelCapabilityProfile) : ModelCapabilityProfile :=
  let c := mcp_capabilities p in mk_model_profile (mcp_model p)
    (mk_catalog_capabilities (cc_function_tools c) (cc_tool_choice_required c) (cc_tool_choice_specific c)
       (cc_parallel_tool_calls c) (cc_strict_tools c) (cc_vision_input c) (cc_image_detail_original c)
       (cc_response_format_json_object c) (cc_response_format_json_schema c) (cc_reasoning_efforts c) status
       (cc_adaptive_thinking_effort c)).
Definition profile_with_adaptive_thinking_effort (status : CapabilityStatus.t) (p : ModelCapabilityProfile) : ModelCapabilityProfile :=
  let c := mcp_capabilities p in mk_model_profile (mcp_model p)
    (mk_catalog_capabilities (cc_function_tools c) (cc_tool_choice_required c) (cc_tool_choice_specific c)
       (cc_parallel_tool_calls c) (cc_strict_tools c) (cc_vision_input c) (cc_image_detail_original c)
       (cc_response_format_json_object c) (cc_response_format_json_schema c) (cc_reasoning_efforts c)
       (cc_adaptive_thinking c) status).

(** ** What the setters build *)
Inductive metadata_made : gmap string string -> Prop :=
| metadata_new : metadata_made ∅
| metadata_inserted k v m m' : metadata_made m -> metadata_insert k v m = Ok m' -> metadata_made m'.
Section Made.
Context (header_insert : string -> list ascii -> list (string * list ascii) -> list (string * list ascii)).
Inductive headers_made : list (string * list ascii) -> Prop :=
| headers_new : headers_made []
| headers_inserted n v l : headers_made l -> headers_made (header_insert n v l).
Inductive options_made : GenerationOptions -> Prop :=
| made_new : options_made generation_options_default
| made_temperature v o : options_made o -> options_made (with_temperature v o)
| made_max_output_tokens v o : options_made o -> options_made (with_max_output_tokens v o)
| made_reasoning v o : options_made o -> options_made (with_reasoning v o)
| made_response_format v o : options_made o -> options_made (with_response_format v o)
| made_tools v o : options_made o -> options_made (with_tools v o)
| made_tool_choice v o : options_made o -> options_made (with_tool_choice v o)
| made_parallel v o : options_made o -> options_made (with_parallel_tool_calls v o)
| made_timeout d o o' : options_made o -> with_timeout d o = Ok o' -> options_made o'
| made_deadline now d o o' : options_made o -> with_deadline now d o = Ok o' -> options_made o'
| made_header n v o : options_made o -> options_made (with_header header_insert n v o)
| made_metadata m o : options_made o -> metadata_made m -> options_made (with_metadata m o)
| made_protocol v o : options_made o -> options_made (with_protocol_options v o).
Definition options_wf (o : GenerationOptions) : Prop :=
  match go_timeout o with Some (TimeoutAfter d) => d <> 0 | _ => True end /\
  headers_made (go_headers o) /\
  map_Forall (fun k _ => str_is_empty k || has_boundary_whitespace k = false) (go_metadata o).

Lemma metadata_made_exact m :
  metadata_made m <-> map_Forall (fun k _ => str_is_empty k || has_boundary_whitespace k = false) m.
Proof.
  split.
  - induction 1 as [|k v m m' _ IH Hi]; [apply map_Forall_empty|]. unfold metadata_insert in Hi.
    destruct (_ || _) eqn:E; [done|]. injection Hi as <-. by apply map_Forall_insert_2.
  - induction m as [|k v m Hk IH] using map_ind; intros H; [constructor|].
    apply map_Forall_insert in H as [H0 H]; [|done]. apply (metadata_inserted k v m); [by apply IH|].
    unfold metadata_insert. by rewrite H0.
Qed.
Lemma options_headers t k f l c h p tm m po hs : headers_made hs ->
  options_made (mk_generation_options t k f l c h p tm [] m po) -> options_made (mk_generation_options t k f l c h p tm hs m po).
Proof. intros Hh Hm. induction Hh as [|n v hs _ IH]; [done|]. exact (made_header n v _ IH). Qed.

(** C39. The public setters build exactly the options whose relative timeout is not
    zero, whose headers come from insertions and whose metadata keys are non-empty
    and trimmed: no other options exist, and each of these can be built. *)
Theorem options_built_exactly o : options_made o <-> options_wf o.
Proof.
  split.
  - unfold options_wf. induction 1 as [|? ? ? IH|? ? ? IH|? ? ? IH|? ? ? IH|? ? ? IH|? ? ? IH|? ? ? IH|d o o' _ IH Hd|now d o o' _ IH Hd|n v o _ IH|m o _ IH Hm|? ? ? IH];
      try exact IH.
    + split_and!; [done|constructor|apply map_Forall_empty].
    + unfold with_timeout, timeout_after in Hd. destruct (d =? 0) eqn:E; [done|]. injection Hd as <-.
      apply Z.eqb_neq in E. by destruct IH.
    + unfold with_deadline, timeout_at in Hd. destruct (d <=? now); [done|]. injection Hd as <-. by destruct IH.
    + destruct IH as (Ht & Hh & Hm). split_and!; [done|by constructor|done].
    + apply metadata_made_exact in Hm. by destruct IH as (? & ? & _).
  - destruct o as [t k f l c h p tm hs m po]. unfold options_wf. cbn. intros (Ht & Hh & Hm%metadata_made_exact).
    apply options_headers; [done|]. pose proof made_new as H. apply (made_metadata m) in H; [|done].
    apply (made_reasoning f), (made_response_format l), (made_tools c) in H.
    destruct t as [t|]; [apply (made_temperature t) in H|];
      (destruct k as [k|]; [apply (made_max_output_tokens k) in H|]);
      (destruct h as [h|]; [apply (made_tool_choice h) in H|]);
      (destruct p as [p|]; [apply (made_parallel p) in H|]);
      (destruct po as [po|]; [apply (made_protocol po) in H|]);
      (destruct tm as [[d|d]|];
        [eapply made_timeout in H; [exact H|unfold with_timeout, timeout_after; rewrite (proj2 (Z.eqb_neq d 0) Ht); reflexivity]
        |eapply (made_deadline (d - 1) d) in H; [exact H|unfold with_deadline, timeout_at; rewrite (proj2 (Z.leb_gt d (d - 1))) by lia; reflexivity]
        |exact H]).
Qed.
End Made.

