(* ===== verification/Client.v ===== *)
(** * The client

    [src/src/client/lifecycle.rs]: the client and its controls with their
    setters, [complete], and one call as the whole: planner, protocol driver,
    executor, decoder and protocol machine as the world of the request runner. *)
From S2P Require Import Prelude Errors Usage Sse SseStream Domain Images Structured Collector Pipeline ChatWire Schema Options ToolCalls ChatMachine ChatSpec Messages Reliability RetryAfter Runner History Request Headers Serialize Contract Catalog ChatRequest MessagesRequest Plan Endpoint Response Auth Credentials Attempt.

(** ** Controls of one call *)
Definition control_new : RequestControl := mk_control None None None None false.
Definition control_with_timeout_policy (policy : TimeoutPolicy) (c : RequestControl) : RequestControl :=
  mk_control (Some policy) (ct_retry_policy c) (ct_retry_wait_policy c) (ct_idempotency_key c)
    (ct_generate_idempotency_key c).
Definition control_with_retry_policy (policy : RetryPolicy) (c : RequestControl) : RequestControl :=
  mk_control (ct_timeout_policy c) (Some policy) (ct_retry_wait_policy c) (ct_idempotency_key c)
    (ct_generate_idempotency_key c).
Definition control_with_retry_wait_policy (policy : RetryWaitPolicy) (c : RequestControl) : RequestControl :=
  mk_control (ct_timeout_policy c) (ct_retry_policy c) (Some policy) (ct_idempotency_key c)
    (ct_generate_idempotency_key c).
Definition with_idempotency_key (key : string) (c : RequestControl) : RequestControl :=
  mk_control (ct_timeout_policy c) (ct_retry_policy c) (ct_retry_wait_policy c) (Some key) false.
Definition with_generated_idempotency_key (c : RequestControl) : RequestControl :=
  mk_control (ct_timeout_policy c) (ct_retry_policy c) (ct_retry_wait_policy c) None true.

(** ** Completing a call *)
Definition am_with_model (model : ModelRef) (m : AssistantMessage) : AssistantMessage :=
  mk_assistant_message (am_content m) (am_text m) (am_usage m) (am_usage_details m) (am_structured_output m)
    (am_finish_reason m) (am_local_request_id m) (am_provider_request_id m) (am_generation_id m) (Some model).

Section Complete.
Context {W H : Type} {WD : World W H} {JS : JsonSyntax} {SE : SchemaEngine}.

(** The loop of [collect_assistant_message_for_format] over a client's stream,
    which is dropped when the loop ends. [None] is fuel exhausted. *)
Fixpoint collect_stream (fuel : nat) (rq : Runner.Request) (st : AssistantStream H) (s : RunState W) (c : Collector)
  : RunState W * option (result LlmError Collector) :=
  match fuel with
  | O => (s, None)
  | S fuel =>
      match poll_stream rq st s with
      | (s, _, None) => (s, None)
      | (s, st, Some None) => (drop_stream rq st s, Some (Ok c))
      | (s, st, Some (Some (Err e))) => (drop_stream rq st s, Some (Err e))
      | (s, st, Some (Some (Ok event))) =>
          match accept event c with
          | Ok c => collect_stream fuel rq st s c
          | Err e => (drop_stream rq st s, Some (Err e))
          end
      end
  end.
Definition finish_message (format : ResponseFormat) (c : Collector) : result LlmError AssistantMessage :=
  m ← finish c; v ← validate_structured_output m format; Ok (with_structured_output v m).
(** [complete_with_control]. *)
Definition complete_with_control (fuel : nat) (cl : LlmClient) (ct : RequestControl) (request : GenerateRequest) (w : W)
  : RunState W * option (result LlmError AssistantMessage) :=
  match stream_with_control (H := H) cl ct (go_timeout (gr_options request)) w with
  | (s, _, None) => (s, None)
  | (s, _, Some (Err e)) => (s, Some (Err e))
  | (s, rq, Some (Ok st)) =>
      match collect_stream fuel rq st s collector_default with
      | (s, None) => (s, None)
      | (s, Some r) =>
          (s, Some (c ← r; m ← finish_message (go_response_format (gr_options request)) c;
                    Ok (am_with_model (gr_model request) m)))
      end
  end.
End Complete.

(** ** Open responses *)
Section Events.
Context {JS : JsonSyntax} {JP : JsonPrinter} {SE : SchemaEngine} {CS : ChunkSyntax} {MS : MessagesSyntax}.

(** The polls of a body, each of which is ready. *)
Definition body_polls (body : ByteStream) : list upstream_poll :=
  map (fun r => match r with Ok bytes => UChunk bytes | Err e => UError e end) body.
(** A response stream that has been read for a while. *)
Inductive OpenEvents :=
| OpenChat (stream : SseMachineStream ChatStateMachine) (up : list upstream_poll)
| OpenMessages (stream : SseMachineStream MessagesStateMachine) (up : list upstream_poll).
Definition opened (e : EventStream) : OpenEvents :=
  match e with
  | ChatEvents stream body => OpenChat stream (body_polls body)
  | MessagesEvents stream body => OpenMessages stream (body_polls body)
  end.
(** [next]: the stream is polled again as long as it used up its budgets. *)
Fixpoint stream_next {T} {SM : SseEventMachine T} (fuel : nat) (s : SseMachineStream T) (up : list upstream_poll)
  : SseMachineStream T * list upstream_poll * option (option out_item) :=
  match fuel with
  | O => (s, up, None)
  | S fuel =>
      match stream_poll s up with
      | (s, up, Some (Ready it)) => (s, up, Some it)
      | (s, up, Some Pending) => stream_next fuel s up
      | (s, up, None) => (s, up, None)
      end
  end.
Definition events_next (e : OpenEvents) : option (OpenEvents * option out_item) :=
  match e with
  | OpenChat s up =>
      let '(s, up, r) := stream_next (S (sweight s up)) s up in (fun it => (OpenChat s up, it)) <$> r
  | OpenMessages s up =>
      let '(s, up, r) := stream_next (S (sweight s up)) s up in (fun it => (OpenMessages s up, it)) <$> r
  end.
End Events.

(** ** The client of a runtime *)
Section Client.
Context {W H : Type} {WD : World W H} {CW : CredentialWorld W} {HW : HeaderSourceWorld W}.
Context {U : Urls} {UP : UrlParts} {HV : HttpValues} {HT : HeaderText} {HH : HttpHeaders} {HF : HeaderFields}.
Context {ES : ErrorEnvelopeSyntax} {B : Base64} {JP : JsonPrinter} {JV : JsonValues} {JS : JsonSyntax}.
Context {CS : ChunkSyntax} {MS : MessagesSyntax}.
(** The transport, the wall clock, and the wait for the next item of a body. *)
Context (transport_execute : HttpRequest -> Future W (result LlmError HttpResponse)) (system_now : W -> Z).
Context (item_wait : Future W unit).

Record SdkClient := mk_sdk_client {
  sc_runtime : Runtime (W := W); sc_observed : bool; sc_timeout_policy : TimeoutPolicy;
  sc_retry_policy : RetryPolicy; sc_retry_wait_policy : RetryWaitPolicy }.
Definition client_new (runtime : Runtime (W := W)) : SdkClient :=
  mk_sdk_client runtime false timeout_policy_new retry_policy_new retry_wait_policy_new.
Definition with_observer (c : SdkClient) : SdkClient :=
  mk_sdk_client (sc_runtime c) true (sc_timeout_policy c) (sc_retry_policy c) (sc_retry_wait_policy c).
Definition client_with_timeout_policy (policy : TimeoutPolicy) (c : SdkClient) : SdkClient :=
  mk_sdk_client (sc_runtime c) (sc_observed c) policy (sc_retry_policy c) (sc_retry_wait_policy c).
Definition client_with_retry_policy (policy : RetryPolicy) (c : SdkClient) : SdkClient :=
  mk_sdk_client (sc_runtime c) (sc_observed c) (sc_timeout_policy c) policy (sc_retry_wait_policy c).
Definition client_with_retry_wait_policy (policy : RetryWaitPolicy) (c : SdkClient) : SdkClient :=
  mk_sdk_client (sc_runtime c) (sc_observed c) (sc_timeout_policy c) (sc_retry_policy c) policy.
(** What the runner needs to know of the client. *)
Definition runner_client (c : SdkClient) : LlmClient :=
  mk_client (sc_timeout_policy c) (sc_retry_policy c) (sc_retry_wait_policy c) (ru_idempotency (sc_runtime c))
    (sc_observed c).

(** The state of a call: the world around it, its plan and prepared request once
    they exist, and, for the statements, the HTTP requests its attempts have
    handed to the transport, the responses they opened and the transitions they
    reported. *)
Record CallState := mk_call_state {
  ca_world : W; ca_plan : option ResolvedCallPlan; ca_prepared : option PreparedCall;
  ca_sent : list HttpRequest; ca_opened : list EventStream; ca_trace : list AttemptEvent }.
Definition call_world_set (w : W) (s : CallState) : CallState :=
  mk_call_state w (ca_plan s) (ca_prepared s) (ca_sent s) (ca_opened s) (ca_trace s).
Definition call_start (w : W) : CallState := mk_call_state w None None [] [] [].
Definition on_world {T} (r : W * T) (s : CallState) : CallState * T := (call_world_set r.1 s, r.2).

Section Call.
Context (c : SdkClient) (request : GenerateRequest).

Definition call_plan (s : CallState) : CallState * result LlmError unit :=
  match plan (w_now (ca_world s)) (ru_runtime (sc_runtime c)) request with
  | Ok p => (mk_call_state (ca_world s) (Some p) (ca_prepared s) (ca_sent s) (ca_opened s) (ca_trace s), Ok tt)
  | Err e => (s, Err e)
  end.
(** The runner prepares after it has planned, and opens after it has prepared:
    the [None] branches are never taken. *)
Definition call_prepare (s : CallState) : CallState * result LlmError unit :=
  match ca_plan s with
  | None => (s, configuration "no plan")
  | Some p =>
      match dispatch_prepare (ta_protocol_kind (po_target (cpl_policy p))) p with
      | Ok call => (mk_call_state (ca_world s) (ca_plan s) (Some call) (ca_sent s) (ca_opened s) (ca_trace s), Ok tt)
      | Err e => (s, Err e)
      end
  end.
(** [RequestLifecycle]: of a request, only when it started and has to end. *)
Definition lifecycle_of (rq : Runner.Request) : Runner.Request :=
  mk_request (rq_started rq) (rq_deadline rq) timeout_policy_new retry_policy_new retry_wait_policy_new no_idempotency
    false EmptyString.
Definition attempt_context (rq : Runner.Request) (attempt : AttemptIdentity) : AttemptContext :=
  mk_attempt_context (rq_local_request_id rq) attempt (lifecycle_of rq) (rq_timeouts rq) (rq_observed rq)
    (rq_idempotency rq).
(** [AttemptExecutor::execute] and [ResponseSession::open]; the request is
    recorded as sent when it is complete. *)
Definition call_open (rq : Runner.Request) (attempt : AttemptIdentity) (s : CallState)
  : CallState * result LlmError OpenEvents :=
  match ca_prepared s with
  | None => (s, configuration "no prepared call")
  | Some call =>
      let context := attempt_context rq attempt in
      let sent := match prepare_attempt (sc_runtime c) call context (ca_world s) with
                  | (_, _, Ok http) => [http]
                  | (_, _, Err _) => []
                  end in
      let '(w, trace, r) :=
        open_response transport_execute system_now item_wait (sc_runtime c) call context (ca_world s) in
      (mk_call_state w (ca_plan s) (ca_prepared s) (ca_sent s ++ sent)
         (ca_opened s ++ match r with Ok events => [events] | Err _ => [] end) (ca_trace s ++ trace),
       events ← r; Ok (opened events))
  end.
(** The wait for the next item; a stream that is never ready is ended by the
    deadline that every wait for an item has. *)
Definition call_next (h : OpenEvents) (deadline : option Z) (s : CallState) : CallState * race (OpenEvents * option item) :=
  match item_wait deadline (ca_world s) with
  | (w, Output _) =>
      (call_world_set w s, match events_next h with Some (h, it) => Output (h, it) | None => DeadlineFirst end)
  | (w, CancelledFirst) => (call_world_set w s, CancelledFirst)
  | (w, DeadlineFirst) => (call_world_set w s, DeadlineFirst)
  end.
Definition call_world : World CallState OpenEvents := {|
  w_now s := w_now (ca_world s);
  w_cancelled s := w_cancelled (ca_world s);
  w_cancel s := call_world_set (w_cancel (ca_world s)) s;
  w_random s := on_world (w_random (ca_world s)) s;
  w_uuid s := on_world (w_uuid (ca_world s)) s;
  w_plan := call_plan;
  w_prepare := call_prepare;
  w_open := call_open;
  w_next := call_next;
  w_sleep delay deadline s := on_world (w_sleep delay deadline (ca_world s)) s |}.

(** [LlmClient::stream_with_control] and [LlmClient::complete_with_control] of
    one call. *)
Definition client_stream (ct : RequestControl) (w : W)
  : RunState CallState * Runner.Request * option (result LlmError (AssistantStream OpenEvents)) :=
  stream_with_control (WD := call_world) (runner_client c) ct (go_timeout (gr_options request)) (call_start w).
Definition client_complete (fuel : nat) (ct : RequestControl) (w : W)
  : RunState CallState * option (result LlmError AssistantMessage) :=
  complete_with_control (WD := call_world) fuel (runner_client c) ct request (call_start w).
End Call.
End Client.
Arguments SdkClient W {U}.
Arguments CallState W {U}.
