(* ===== verification/Observe.v ===== *)
(** * Observers

    [src/src/observability/]: the events an observer is given, the call of an
    observer that may panic, and the observer that writes [tracing] records. *)
From S2P Require Import Prelude Errors Usage Domain Images Structured Collector Reliability Runner Request Headers Contract Catalog Plan Endpoint Attempt Client.

(** One [LifecycleEventKind]: of the client, runner or stream, or of an attempt. *)
Inductive Transition := OfRequest (kind : LifecycleEventKind) | OfAttempt (event : AttemptEvent).
Record LifecycleIdentity := mk_lifecycle_identity {
  li_local_request_id : string; li_trace_id : option string; li_provider_id : string; li_model_id : string;
  li_protocol_id : string }.
Record LifecycleEvent := mk_lifecycle_event {
  le_identity : LifecycleIdentity; le_elapsed : Z; le_kind : Transition }.

(** An observer with its state: what [record] leaves, and whether it panicked. *)
Class LifecycleObserver (O : Type) := record : LifecycleEvent -> O -> O * bool.
Section Observer.
Context {O : Type} {LO : LifecycleObserver O}.
Definition record_safely (event : LifecycleEvent) (o : O) : O := (record event o).1.

Record Observation := mk_observation { ob_identity : LifecycleIdentity; ob_started : Z }.
(** [emit], of the client, the runner and the executor. *)
Definition emit_observed (observation : option Observation) (now : Z) (kind : Transition) (o : O) : O :=
  match observation with
  | Some ob => record_safely (mk_lifecycle_event (ob_identity ob) (Z.max (now - ob_started ob) 0) kind) o
  | None => o
  end.
(** The transitions of a call with the times they were reported at. *)
Definition report (observation : option Observation) (transitions : list (Z * Transition)) (o : O) : O :=
  foldl (fun o '(now, kind) => emit_observed observation now kind o) o transitions.
End Observer.
Definition observation {W} {U : Urls} (c : SdkClient W) (request : GenerateRequest) (trace_id : option string)
    (local_request_id : string) (now : Z) : option Observation :=
  if sc_observed c
  then Some (mk_observation
         (mk_lifecycle_identity local_request_id trace_id (rt_provider_id (ru_runtime (sc_runtime c)))
            (mr_model (gr_model request)) (vb_id (rt_protocol (ru_runtime (sc_runtime c))))) now)
  else None.

(** ** The tracing adapter *)
Definition event_name (kind : Transition) : string :=
  match kind with
  | OfRequest RequestStarted => "request.started"
  | OfRequest ValidationCompleted => "validation.completed"
  | OfRequest (IdempotencyPrepared _ _ _) => "idempotency.prepared"
  | OfRequest (AttemptStarted _) => "attempt.started"
  | OfAttempt (CredentialResolved _) => "credential.resolved"
  | OfAttempt EndpointResolved => "endpoint.resolved"
  | OfAttempt (HeadersResolved _) => "headers.resolved"
  | OfAttempt TransportStarted => "transport.started"
  | OfAttempt (StatusReceived _ _) => "status.received"
  | OfAttempt (RateLimitObserved _) => "rate_limit.observed"
  | OfRequest (AttemptFailed _ _) => "attempt.failed"
  | OfRequest (AttemptTimedOut _ _ _) => "attempt.timed_out"
  | OfRequest (RetryDecided _ _ _) => "retry.decided"
  | OfRequest (RetryScheduled _ _ _ _ _ _) => "retry.scheduled"
  | OfRequest (RetryExhausted _ _) => "retry.exhausted"
  | OfRequest (FirstSseEvent _ _) => "stream.first_event"
  | OfRequest FirstDomainEventDelivered => "stream.first_event_delivered"
  | OfRequest (FinishSeen _) => "stream.finish_seen"
  | OfRequest DoneSeen => "stream.done_seen"
  | OfRequest (RequestCompleted _ _) => "request.completed"
  | OfRequest (RequestFailed _ _) => "request.failed"
  | OfRequest (RequestCancelled _) => "request.cancelled"
  | OfRequest (RequestTimedOut _) => "request.timed_out"
  end.
Record TracingRecord := mk_tracing_record {
  tr_event : string; tr_elapsed_micros : Z; tr_local_request_id : string; tr_trace_id : string;
  tr_provider_id : string; tr_model_id : string; tr_protocol_id : string }.
Definition tracing_record (e : LifecycleEvent) : TracingRecord :=
  let i := le_identity e in
  mk_tracing_record (event_name (le_kind e)) (le_elapsed e / 1000) (li_local_request_id i)
    (default EmptyString (li_trace_id i)) (li_provider_id i) (li_model_id i) (li_protocol_id i).
(** [TracingObserver] over the records written so far. *)
Definition tracing_observer : LifecycleObserver (list TracingRecord) := fun e log => (log ++ [tracing_record e], false).

(** ** What observers see *)

(** Every reported transition reaches an observer, in order and once, whatever
    the observer panics on. *)
Lemma report_reaches {O} {LO : LifecycleObserver O} ob transitions (o : O) :
  report (Some ob) transitions o =
    foldl (fun o e => (record e o).1) o
      (map (fun '(now, kind) => mk_lifecycle_event (ob_identity ob) (Z.max (now - ob_started ob) 0) kind) transitions).
Proof. revert o. induction transitions as [|[now kind] l IH]; intros o; [done|]. apply IH. Qed.
Lemma tracing_report ob transitions log :
  report (LO := tracing_observer) (Some ob) transitions log =
    log ++ map (fun '(now, kind) =>
      tracing_record (mk_lifecycle_event (ob_identity ob) (Z.max (now - ob_started ob) 0) kind)) transitions.
Proof.
  revert log. induction transitions as [|[now kind] l IH]; intros log; [by rewrite app_nil_r|].
  change (report (LO := tracing_observer) (Some ob) ((now, kind) :: l) log) with
    (report (LO := tracing_observer) (Some ob) l
       (log ++ [tracing_record (mk_lifecycle_event (ob_identity ob) (Z.max (now - ob_started ob) 0) kind)])).
  by rewrite IH, <- app_assoc.
Qed.

(** Two transitions with the same name differ in their details only. *)
Definition transition_index (kind : Transition) : Z :=
  match kind with
  | OfRequest RequestStarted => 0 | OfRequest ValidationCompleted => 1
  | OfRequest (IdempotencyPrepared _ _ _) => 2 | OfRequest (AttemptStarted _) => 3
  | OfRequest (AttemptFailed _ _) => 4 | OfRequest (AttemptTimedOut _ _ _) => 5
  | OfRequest (RetryDecided _ _ _) => 6 | OfRequest (RetryScheduled _ _ _ _ _ _) => 7
  | OfRequest (RetryExhausted _ _) => 8 | OfRequest (FirstSseEvent _ _) => 9
  | OfRequest FirstDomainEventDelivered => 10 | OfRequest (FinishSeen _) => 11 | OfRequest DoneSeen => 12
  | OfRequest (RequestCompleted _ _) => 13 | OfRequest (RequestFailed _ _) => 14
  | OfRequest (RequestCancelled _) => 15 | OfRequest (RequestTimedOut _) => 16
  | OfAttempt EndpointResolved => 17 | OfAttempt (CredentialResolved _) => 18
  | OfAttempt (HeadersResolved _) => 19 | OfAttempt TransportStarted => 20
  | OfAttempt (StatusReceived _ _) => 21 | OfAttempt (RateLimitObserved _) => 22
  end.
Definition index_of_name (name : string) : Z :=
  default (-1) ((fun i => Z.of_nat i.1) <$> list_find (fun n => n = name)
    ["request.started"; "validation.completed"; "idempotency.prepared"; "attempt.started"; "attempt.failed";
     "attempt.timed_out"; "retry.decided"; "retry.scheduled"; "retry.exhausted"; "stream.first_event";
     "stream.first_event_delivered"; "stream.finish_seen"; "stream.done_seen"; "request.completed"; "request.failed";
     "request.cancelled"; "request.timed_out"; "endpoint.resolved"; "credential.resolved"; "headers.resolved";
     "transport.started"; "status.received"; "rate_limit.observed"]).
Lemma event_name_index kind : index_of_name (event_name kind) = transition_index kind.
Proof. destruct kind as [[]|[]]; vm_compute; reflexivity. Qed.
Lemma event_names_distinct k k' : event_name k = event_name k' -> transition_index k = transition_index k'.
Proof. intros E. by rewrite <- !event_name_index, E. Qed.
