(* ===== verification/Inert.v ===== *)
(** * Observation changes nothing

    Two runs of a request that differ only in whether it is observed, in worlds
    that cannot be told apart: they take the same steps and give the same
    answers; only the reported transitions differ. *)
From S2P Require Import Prelude Errors Usage Sse SseStream Domain Images Structured Collector Pipeline ChatWire Schema Options ToolCalls ChatMachine ChatSpec Messages Reliability RetryAfter Runner RunnerSpec RunnerTrace History Request Headers Serialize Contract Catalog ChatRequest MessagesRequest Plan Endpoint Response Auth Credentials Attempt Client.

Definition observed_as (o : bool) (rq : Runner.Request) : Runner.Request :=
  mk_request (rq_started rq) (rq_deadline rq) (rq_timeouts rq) (rq_retries rq) (rq_retry_wait rq) (rq_idempotency rq) o
    (rq_local_request_id rq).
Definition client_observed_as (o : bool) (cl : LlmClient) : LlmClient :=
  mk_client (cl_timeout_policy cl) (cl_retry_policy cl) (cl_retry_wait_policy cl) (cl_idempotency_policy cl) o.

Section Inert.
Context {W H : Type} {WD : World W H} (Q : W -> W -> Prop).

(** The same answer, and worlds that are still alike. *)
Definition agree {T} (x y : W * T) : Prop := Q x.1 y.1 /\ x.2 = y.2.
Class Oblivious : Prop := {
  ob_now w w' : Q w w' -> w_now w = w_now w';
  ob_cancelled w w' : Q w w' -> w_cancelled w = w_cancelled w';
  ob_cancel w w' : Q w w' -> Q (w_cancel w) (w_cancel w');
  ob_random w w' : Q w w' -> agree (w_random w) (w_random w');
  ob_uuid w w' : Q w w' -> agree (w_uuid w) (w_uuid w');
  ob_plan w w' : Q w w' -> agree (w_plan w) (w_plan w');
  ob_prepare w w' : Q w w' -> agree (w_prepare w) (w_prepare w');
  ob_open rq o a w w' : Q w w' -> agree (w_open rq a w) (w_open (observed_as o rq) a w');
  ob_next h d w w' : Q w w' -> agree (w_next h d w) (w_next h d w');
  ob_sleep delay d w w' : Q w w' -> agree (w_sleep delay d w) (w_sleep delay d w') }.
Context {OB : Oblivious}.

(** States that differ in what was reported at most. *)
Record alike (s s' : RunState W) : Prop := {
  al_world : Q (rs_world s) (rs_world s');
  al_exec : rs_exec s = rs_exec s';
  al_waited : rs_total_waited s = rs_total_waited s';
  al_opened : rs_opened s = rs_opened s' }.
Definition agrees {T} (x y : RunState W * T) : Prop := alike x.1 y.1 /\ x.2 = y.2.

Section Run.
Context (rq : Runner.Request) (o : bool).
#[local] Abbreviation rq' := (observed_as o rq).

Lemma alike_world w w' s s' : Q w w' -> alike s s' -> alike (set_world w s) (set_world w' s').
Proof. intros Hq []. by split. Qed.
Lemma alike_exec x s s' : alike s s' -> alike (set_exec x s) (set_exec x s').
Proof. intros []. by split. Qed.
Lemma alike_emit k k' s s' : alike s s' -> alike (emit rq k s) (emit rq' k' s').
Proof. intros []. unfold emit. by destruct (rq_observed rq), (rq_observed rq'). Qed.

Lemma preflight_agrees w w' : Q w w' -> lifecycle_preflight rq w = lifecycle_preflight rq' w'.
Proof. intros Hq. unfold lifecycle_preflight, elapsed. by rewrite (ob_now _ _ Hq), (ob_cancelled _ _ Hq). Qed.
Lemma await_agrees {T} stage limit n d (f : option Z -> W -> W * race T) w w' :
  (forall d w w', Q w w' -> agree (f d w) (f d w')) -> Q w w' ->
  agree (await_with_stage rq stage limit n d f w) (await_with_stage rq' stage limit n d f w').
Proof.
  intros Hf Hq. unfold await_with_stage, elapsed. rewrite (preflight_agrees _ _ Hq), (ob_now _ _ Hq).
  destruct (lifecycle_preflight rq' w'); [|done].
  change (effective_deadline rq') with (effective_deadline rq). destruct (effective_deadline rq _) as [dl over].
  destruct (Hf dl w w' Hq) as [H1 H2]. destruct (f dl w) as [w1 r1], (f dl w') as [w2 r2]. cbn in H1, H2. subst r2.
  destruct r1; split; try done. cbn. by rewrite (ob_now _ _ H1).
Qed.
Lemma await_stream_agrees {T} stage limit n d (f : option Z -> W -> W * race T) w w' :
  (forall d w w', Q w w' -> agree (f d w) (f d w')) -> Q w w' ->
  agree (await_stream_with_stage rq stage limit n d f w) (await_stream_with_stage rq' stage limit n d f w').
Proof.
  intros Hf Hq. unfold await_stream_with_stage, elapsed. rewrite (ob_now _ _ Hq). cbn [rq_deadline observed_as].
  destruct (is_some_and _ _); [done|].
  change (effective_deadline rq') with (effective_deadline rq). destruct (effective_deadline rq _) as [dl over].
  destruct (Hf dl w w' Hq) as [H1 H2]. destruct (f dl w) as [w1 r1], (f dl w') as [w2 r2]. cbn in H1, H2. subst r2.
  destruct r1; split; try done. cbn. by rewrite (ob_now _ _ H1).
Qed.

Lemma retry_agrees error attempt s s' : alike s s' ->
  agrees (retry_after_failure rq error attempt s) (retry_after_failure rq' error attempt s').
Proof.
  intros Hs. unfold retry_after_failure. cbv zeta.
  set (a2 := match error with LlmError.Timeout _ => emit rq _ _ | _ => _ end).
  set (b2 := match error with LlmError.Timeout _ => emit rq' _ _ | _ => _ end).
  assert (alike a2 b2) as H2 by (subst a2 b2; destruct error; repeat apply alike_emit; done). clearbody a2 b2. clear s s' Hs.
  assert (forall r r', agrees (emit_retry_stopped rq attempt r a2, @Ok LlmError (option Z) None)
                         (emit_retry_stopped rq' attempt r' b2, Ok None)) as Hstop
    by (intros; split; [|done]; by do 2 apply alike_emit).
  destruct (u32_checked_add _ _) as [next|]; [|apply Hstop].
  unfold remaining, delivery_state. cbn [rq_deadline rq_retries rq_retry_wait rq_idempotency observed_as].
  rewrite (al_exec _ _ H2), (ob_now _ _ (al_world _ _ H2)). destruct (decide_retry _ _ _ _ _ _) as [|reason]; [apply Hstop|].
  set (a3 := emit rq _ a2). set (b3 := emit rq' _ b2). assert (alike a3 b3) as H3 by (by apply alike_emit). clearbody a3 b3.
  destruct (ob_random _ _ (al_world _ _ H3)) as [Hw Hr].
  destruct (w_random (rs_world a3)) as [w1 sample], (w_random (rs_world b3)) as [w2 sample']. cbn in Hw, Hr. subst sample'.
  cbn [rs_total_waited rs_world set_world]. rewrite (al_waited _ _ H3), (ob_now _ _ Hw).
  destruct (calculate_retry_wait _ _ _ _ _ _ _) as [wait|].
  2:{ split; [|done]. by apply alike_emit, alike_world. }
  set (a4 := emit rq _ (set_world w1 a3)). set (b4 := emit rq' _ (set_world w2 b3)).
  assert (alike a4 b4) as H4 by (by apply alike_emit, alike_world). clearbody a4 b4. unfold wait_for_retry, await_with_lifecycle.
  destruct (await_agrees TimeoutStage.Overall None None false (w_sleep (wp_effective_delay wait)) _ _
    (fun d w w' => ob_sleep _ d w w') (al_world _ _ H4)) as [Hw4 Hr4].
  destruct (await_with_stage rq _ _ _ _ _ _) as [w3 r3], (await_with_stage rq' _ _ _ _ _ _) as [w4 r4]. cbn in Hw4, Hr4. subst r4.
  destruct H4. destruct r3; split; try done; split; cbn; congruence.
Qed.
Lemma open_attempt_agrees n s s' : alike s s' -> agrees (open_attempt rq n s).1 (open_attempt rq' n s').1 /\
  (open_attempt rq n s).2 = (open_attempt rq' n s').2.
Proof.
  intros Hs. unfold open_attempt. destruct (ob_uuid _ _ (al_world _ _ Hs)) as [Hw He].
  destruct (w_uuid (rs_world s)) as [w1 id], (w_uuid (rs_world s')) as [w2 id']. cbn in Hw, He. subst id'. cbv zeta.
  set (a1 := emit rq _ _). set (b1 := emit rq' _ _).
  assert (alike a1 b1) as H1.
  { apply alike_emit. rewrite <- (al_exec _ _ Hs : rs_exec (set_world w1 s) = rs_exec (set_world w2 s')).
    by apply alike_exec, alike_world. }
  clearbody a1 b1. destruct (ob_open rq o (mk_attempt id n) _ _ (al_world _ _ H1)) as [Hw1 Hr1].
  destruct (w_open rq _ _) as [w3 r3], (w_open rq' _ _) as [w4 r4]. cbn in Hw1, Hr1. subst r4.
  split; [|done]. split; [|done]. destruct H1. split; cbn; congruence.
Qed.
Lemma open_from_agrees fuel : forall n s s', alike s s' -> agrees (open_from rq fuel n s) (open_from rq' fuel n s').
Proof.
  induction fuel as [|fuel IH]; intros n s s' Hs; [done|]. cbn [open_from].
  destruct (open_attempt_agrees n s s' Hs) as [[H1 Ha] Hr].
  destruct (open_attempt rq n s) as [[a1 attempt] r], (open_attempt rq' n s') as [[b1 attempt'] r'].
  cbn in H1, Ha, Hr. subst attempt' r'. destruct r as [h|e]; [done|]. destruct (retry_agrees e attempt a1 b1 H1) as [H2 Hr2].
  destruct (retry_after_failure rq e attempt a1) as [a2 r2], (retry_after_failure rq' e attempt b1) as [b2 r2'].
  cbn in H2, Hr2. subst r2'. destruct r2 as [[next|]|]; [by apply IH|done..].
Qed.
Lemma start_agrees s s' : alike s s' -> agrees (start rq s) (start rq' s').
Proof.
  intros Hs. unfold start. rewrite (preflight_agrees _ _ (al_world _ _ Hs)). destruct (lifecycle_preflight _ _); [|done].
  set (a1 := emit rq _ s). set (b1 := emit rq' _ s'). assert (alike a1 b1) as H1 by by apply alike_emit. clearbody a1 b1.
  destruct (open_from_agrees RUN_FUEL 1 _ _ H1) as [H2 Hr].
  destruct (open_from rq _ _ _) as [s1 r], (open_from rq' _ _ _) as [s2 r']. cbn in H2, Hr. subst r'. by destruct r as [[[? ?]|]|].
Qed.
Lemma poll_active_agrees fuel : forall st s s', alike s s' ->
  agrees (poll_active rq fuel st s) (poll_active rq' fuel st s').
Proof.
  induction fuel as [|fuel IH]; intros st s s' Hs; cbn [poll_active].
  { destruct (ac_terminal st); by split. }
  destruct (ac_terminal st); [by split|].
  cbn [rq_timeouts observed_as]. rewrite (al_exec _ _ Hs).
  match goal with |- context [await_stream_with_stage rq ?x1 ?x2 ?x3 ?x4 ?x5 _] =>
    destruct (await_stream_agrees x1 x2 x3 x4 x5 _ _ (fun d w w' => ob_next _ d w w') (al_world _ _ Hs)) as [Hw Hr] end.
  destruct (await_stream_with_stage rq _ _ _ _ _ _) as [w1 r1], (await_stream_with_stage rq' _ _ _ _ _ _) as [w2 r2].
  cbn in Hw, Hr. subst r2. pose proof (alike_world _ _ _ _ Hw Hs) as H1.
  assert (forall error, agrees
    match retry_after_failure rq error (ac_attempt st) (set_world w1 s) with
    | (s, Err wait_error) => (s, Some (Some (Err wait_error, close st)))
    | (s, Ok None) => (s, Some (Some (Err error, close st)))
    | (s, Ok (Some next)) =>
        match open_from rq RUN_FUEL next s with
        | (s, Some (Ok (attempt, active))) => poll_active rq fuel (mk_active attempt active false false) s
        | (s, Some (Err error)) => (s, Some (Some (Err error, close st)))
        | (s, None) => (s, None)
        end
    end
    match retry_after_failure rq' error (ac_attempt st) (set_world w2 s') with
    | (s, Err wait_error) => (s, Some (Some (Err wait_error, close st)))
    | (s, Ok None) => (s, Some (Some (Err error, close st)))
    | (s, Ok (Some next)) =>
        match open_from rq' RUN_FUEL next s with
        | (s, Some (Ok (attempt, active))) => poll_active rq' fuel (mk_active attempt active false false) s
        | (s, Some (Err error)) => (s, Some (Some (Err error, close st)))
        | (s, None) => (s, None)
        end
    end) as Hretry.
  { intros error. destruct (retry_agrees error (ac_attempt st) _ _ H1) as [H2 Hr2].
    destruct (retry_after_failure rq _ _ _) as [a2 r2], (retry_after_failure rq' _ _ _) as [b2 r2'].
    cbn in H2, Hr2. subst r2'. destruct r2 as [[next|]|]; [|done..]. destruct (open_from_agrees RUN_FUEL next _ _ H2) as [H3 Hr3].
    destruct (open_from rq _ _ _) as [a3 r3], (open_from rq' _ _ _) as [b3 r3']. cbn in H3, Hr3. subst r3'.
    destruct r3 as [[[attempt h]|]|]; [by apply IH|done..]. }
  destruct r1 as [[active [[event|error]|]]|error]; [done|apply Hretry..].
Qed.

(** ** The public stream *)
Lemma alike_finish s s' : alike s s' -> alike (finish_exec s) (finish_exec s').
Proof. intros Hs. unfold finish_exec. rewrite (al_exec _ _ Hs). by apply alike_exec. Qed.
Definition stream_agrees {T} (x y : RunState W * AssistantStream H * T) : Prop :=
  alike x.1.1 y.1.1 /\ x.1.2 = y.1.2 /\ x.2 = y.2.
Lemma map_agrees {T U} (g : T -> U) (x y : RunState W * AssistantStream H * T) : stream_agrees x y ->
  stream_agrees (let '(s, st, it) := x in (s, st, g it)) (let '(s, st, it) := y in (s, st, g it)).
Proof. destruct x as [[? ?] ?], y as [[? ?] ?]. intros (? & ? & ?). cbn in *. by subst. Qed.
Lemma poll_fail_agrees e st s s' : alike s s' -> stream_agrees (poll_fail rq e st s) (poll_fail rq' e st s').
Proof. intros Hs. split; [|done]. by apply alike_emit, alike_finish. Qed.
Lemma deliver_agrees event inner st s s' : alike s s' ->
  stream_agrees (deliver rq event inner st s) (deliver rq' event inner st s').
Proof.
  intros Hs. unfold deliver. cbv zeta.
  set (a1 := observe_first rq _ _ _). set (b1 := observe_first rq' _ _ _).
  assert (alike a1 b1) as H1.
  { subst a1 b1. rewrite (al_exec _ _ Hs). unfold observe_first.
    destruct (as_first_event_seen st), event; repeat apply alike_emit; by apply alike_exec. }
  clearbody a1 b1. destruct event; split; try done. by apply alike_finish; repeat apply alike_emit.
Qed.
Lemma poll_stream_agrees st s s' : alike s s' -> stream_agrees (poll_stream rq st s) (poll_stream rq' st s').
Proof.
  intros Hs. unfold poll_stream. destruct (as_terminal st); [done|].
  destruct (poll_active_agrees RUN_FUEL (as_inner st) s s' Hs) as [H1 Hr].
  destruct (poll_active rq _ _ _) as [a1 r], (poll_active rq' _ _ _) as [b1 r']. cbn in H1, Hr. subst r'.
  destruct r as [[[[event|error] inner]|]|]; [| | |done].
  - by apply (map_agrees (fun it => Some (Some it))), deliver_agrees.
  - by apply (map_agrees (fun it => Some (Some it))), poll_fail_agrees.
  - by apply (map_agrees (fun it => Some (Some it))), poll_fail_agrees.
Qed.
Lemma drop_stream_agrees st s s' : alike s s' -> alike (drop_stream rq st s) (drop_stream rq' st s').
Proof.
  intros Hs. unfold drop_stream. destruct (as_terminal st); [done|]. rewrite (al_exec _ _ Hs).
  destruct (mark_terminal (rs_exec s')) as [exec []]; [|by apply alike_exec].
  apply alike_emit, alike_world; [apply ob_cancel, (al_world _ _ Hs)|by apply alike_exec].
Qed.
Lemma collect_stream_agrees {JS : JsonSyntax} {SE : SchemaEngine} fuel : forall st s s' c, alike s s' ->
  agrees (collect_stream fuel rq st s c) (collect_stream fuel rq' st s' c).
Proof.
  induction fuel as [|fuel IH]; intros st s s' c Hs; [done|]. cbn [collect_stream].
  destruct (poll_stream_agrees st s s' Hs) as (H1 & He & Hr).
  destruct (poll_stream rq st s) as [[a1 st1] r], (poll_stream rq' st s') as [[b1 st1'] r']. cbn in H1, He, Hr. subst st1' r'.
  destruct r as [[[event|error]|]|]; [|split; [by apply drop_stream_agrees|done]..|done].
  destruct (accept event c) as [c'|e]; [by apply IH|]. split; [by apply drop_stream_agrees|done].
Qed.
End Run.

(** ** The client *)
Context (cl : LlmClient) (o : bool).
#[local] Abbreviation cl' := (client_observed_as o cl).

Lemma tightened_observed ct id started deadline idem :
  tightened cl' ct id started deadline idem = observed_as o (tightened cl ct id started deadline idem).
Proof. done. Qed.
Definition call_agrees {T} (x y : RunState W * Runner.Request * T) : Prop :=
  alike x.1.1 y.1.1 /\ observed_as o x.1.2 = y.1.2 /\ x.2 = y.2.
Lemma start_stream_agrees ct id timeout s s' : alike s s' ->
  call_agrees (start_stream cl ct id timeout s) (start_stream cl' ct id timeout s').
Proof.
  intros Hs. unfold start_stream. cbv zeta. unfold request_deadline. rewrite (ob_now _ _ (al_world _ _ Hs)).
  set (dl := match timeout with None => _ | Some _ => _ end). destruct dl as [deadline|e]; [|done].
  rewrite !tightened_observed. rewrite (preflight_agrees _ o _ _ (al_world _ _ Hs)).
  destruct (lifecycle_preflight _ _); [|done].
  destruct (ob_plan _ _ (al_world _ _ Hs)) as [Hw Hr].
  destruct (w_plan (rs_world s)) as [w1 r1], (w_plan (rs_world s')) as [w2 r2]. cbn in Hw, Hr. subst r2.
  destruct r1 as [[]|e]; [|split; [by apply alike_world|done]].
  set (a1 := emit (tightened cl ct id _ _ _) ValidationCompleted _). set (b1 := emit (observed_as o _) ValidationCompleted _).
  assert (alike a1 b1) as H1 by (by apply alike_emit, alike_world). clearbody a1 b1.
  destruct (ob_prepare _ _ (al_world _ _ H1)) as [Hw1 Hr1].
  destruct (w_prepare (rs_world a1)) as [w3 r3], (w_prepare (rs_world b1)) as [w4 r4]. cbn in Hw1, Hr1. subst r4.
  destruct r3 as [[]|e]; [|split; [by apply alike_world|done]].
  change (generates_key cl') with (generates_key cl). change (cl_idempotency_policy cl') with (cl_idempotency_policy cl).
  cbn [rq_retries observed_as rs_world set_world].
  match goal with |- context [generates_key cl ct ?au] =>
    assert (agree (if generates_key cl ct au then w_uuid w3 else (w3, EmptyString))
                  (if generates_key cl ct au then w_uuid w4 else (w4, EmptyString))) as [Hw5 Hf]
      by (destruct (generates_key cl ct au); [by apply ob_uuid|by split]) end.
  destruct (if generates_key cl ct _ then w_uuid w3 else _) as [w5 fresh].
  destruct (if generates_key cl ct _ then w_uuid w4 else _) as [w6 fresh']. cbn in Hw5, Hf. subst fresh'.
  pose proof (alike_world _ _ _ _ Hw5 (alike_world _ _ _ _ Hw1 H1)) as H2.
  destruct (resolve_idempotency _ _ _ _ _) as [idem|e]; [|done].
  rewrite !tightened_observed. destruct (start_agrees (tightened cl ct id (w_now (rs_world s')) deadline idem) o _ _ H2) as [H3 Hr3].
  destruct (start (tightened _ _ _ _ _ _) _) as [a3 r], (start (observed_as _ _) _) as [b3 r']. cbn in H3, Hr3. by subst r'.
Qed.
Lemma stream_with_control_agrees ct timeout w w' : Q w w' ->
  call_agrees (stream_with_control cl ct timeout w) (stream_with_control cl' ct timeout w').
Proof.
  intros Hq. unfold stream_with_control. destruct (ob_uuid _ _ Hq) as [Hw Hi].
  destruct (w_uuid w) as [w1 id], (w_uuid w') as [w2 id']. cbn in Hw, Hi. subst id'. cbv zeta. rewrite tightened_observed.
  destruct (LocalRequestId_new id); [|done].
  set (a1 := emit (tightened cl ct id _ _ _) RequestStarted _). set (b1 := emit (observed_as o _) RequestStarted _).
  assert (alike a1 b1) as H1 by (by apply alike_emit). clearbody a1 b1.
  destruct (start_stream_agrees ct id timeout _ _ H1) as (H2 & Hrq & Hr).
  destruct (start_stream cl ct id timeout a1) as [[a2 rq] r], (start_stream cl' ct id timeout b1) as [[b2 rq'] r'].
  cbn in H2, Hrq, Hr. subst rq' r'. destruct r as [[inner|e]|]; [done| |done].
  split; [|done]. by apply alike_emit, alike_finish.
Qed.
Lemma complete_agrees {JS : JsonSyntax} {SE : SchemaEngine} fuel ct request w w' : Q w w' ->
  agrees (complete_with_control fuel cl ct request w) (complete_with_control fuel cl' ct request w').
Proof.
  intros Hq. unfold complete_with_control.
  destruct (stream_with_control_agrees ct (go_timeout (gr_options request)) _ _ Hq) as (H1 & Hrq & Hr).
  destruct (stream_with_control cl _ _ _) as [[a1 rq] r], (stream_with_control cl' _ _ _) as [[b1 rq'] r'].
  cbn in H1, Hrq, Hr. subst rq' r'. destruct r as [[st|e]|]; [|done..].
  destruct (collect_stream_agrees rq o fuel st _ _ collector_default H1) as [H2 Hr].
  destruct (collect_stream fuel rq _ _ _) as [a2 r], (collect_stream fuel (observed_as o rq) _ _ _) as [b2 r'].
  cbn in H2, Hr. subst r'. by destruct r.
Qed.
End Inert.

(** ** The world of a call *)
Definition context_observed_as (o : bool) (c : AttemptContext) : AttemptContext :=
  mk_attempt_context (atc_local_request_id c) (atc_attempt c) (atc_lifecycle c) (atc_timeouts c) o (atc_idempotency c).
Definition sdk_observed_as {W} {U : Urls} (o : bool) (c : SdkClient W) : SdkClient W :=
  mk_sdk_client (sc_runtime c) o (sc_timeout_policy c) (sc_retry_policy c) (sc_retry_wait_policy c).

Section Call.
Context {W H : Type} {WD : World W H} {CW : CredentialWorld W} {HW : HeaderSourceWorld W}.
Context {U : Urls} {UP : UrlParts} {HV : HttpValues} {HT : HeaderText} {HH : HttpHeaders} {HF : HeaderFields}.
Context {ES : ErrorEnvelopeSyntax} {B : Base64} {JP : JsonPrinter} {JV : JsonValues} {JS : JsonSyntax}.
Context {CS : ChunkSyntax} {MS : MessagesSyntax}.
Context (transport_execute : HttpRequest -> Future W (result LlmError HttpResponse)) (system_now : W -> Z).
Context (item_wait : Future W unit).

(** The same but for the reported transitions. *)
Definition untraced {A B T} (x y : A * B * T) : Prop := x.1.1 = y.1.1 /\ x.2 = y.2.
Lemma await_body_untraced c o body limit : forall bytes w,
  await_past_limit item_wait c body bytes w = await_past_limit item_wait (context_observed_as o c) body bytes w /\
  await_body item_wait c body limit bytes w = await_body item_wait (context_observed_as o c) body limit bytes w.
Proof.
  induction body as [|[chunk|e] body IH]; intros bytes w; try done. cbn [await_past_limit await_body]. unfold await_item.
  cbn [atc_lifecycle context_observed_as]. destruct (await_with_lifecycle _ _ _) as [w1 [[]|e]]; [|done]. split.
  - destruct chunk; [apply IH|done].
  - destruct (_ <? _); [done|]. destruct (_ =? _); apply IH.
Qed.
Lemma receive_untraced (rt : Runtime (W := W)) plan c o resp now l l' w :
  untraced (receive item_wait rt plan c resp now l w) (receive item_wait rt plan (context_observed_as o c) resp now l' w).
Proof.
  unfold receive. destruct (validate_response_header_limits _); [|done]. destruct (observed_rate_limit _ _ _ _) as [obs rep].
  destruct (is_success _); [done|]. rewrite (proj2 (await_body_untraced c o _ _ _ _)). by destruct (await_body _ _ _ _ _ _).
Qed.
Lemma prepare_untraced (rt : Runtime (W := W)) call c o w :
  untraced (prepare_attempt rt call c w) (prepare_attempt rt call (context_observed_as o c) w).
Proof.
  unfold prepare_attempt. cbn [atc_attempt atc_lifecycle atc_idempotency atc_timeouts atc_local_request_id context_observed_as].
  destruct (_ =? 0); [done|]. destruct (lifecycle_preflight _ _); [|done].
  destruct (resolve_target_endpoint _ _) as [ep|]; [|done]. cbv zeta. destruct (idempotency_operation _); [|done].
  unfold await_stage. cbn [atc_attempt atc_lifecycle context_observed_as].
  destruct (await_with_stage _ _ _ _ _ _ _) as [w1 [[]|]]; done.
Qed.
Lemma open_response_untraced (rt : Runtime (W := W)) call c o w :
  untraced (open_response transport_execute system_now item_wait rt call c w)
    (open_response transport_execute system_now item_wait rt call (context_observed_as o c) w).
Proof.
  unfold open_response, execute. destruct (prepare_untraced rt call c o w) as [H1 H2].
  destruct (prepare_attempt rt call c w) as [[w1 t1] r1], (prepare_attempt rt call _ w) as [[w2 t2] r2].
  cbn in H1, H2. subst w2 r2. destruct r1 as [http|]; [|done].
  unfold await_stage. cbn [atc_attempt atc_lifecycle atc_timeouts context_observed_as].
  destruct (await_with_stage _ _ _ _ _ _ _) as [w3 [[resp|]|]]; try done.
  destruct (receive_untraced rt (prc_response call) c o resp (system_now w3) t1 t2 w3) as [Hw Hr].
  destruct (receive _ rt _ c _ _ _ _) as [[w4 l] r], (receive _ rt _ (context_observed_as o c) _ _ _ _) as [[w5 l'] r'].
  cbn in Hw, Hr. by subst.
Qed.

(** Calls that differ in what was reported at most. *)
Record same_call (s s' : CallState W) : Prop := {
  sm_world : ca_world s = ca_world s';
  sm_plan : ca_plan s = ca_plan s';
  sm_prepared : ca_prepared s = ca_prepared s';
  sm_sent : ca_sent s = ca_sent s';
  sm_opened : ca_opened s = ca_opened s' }.
Lemma on_world_agrees {T} (r : W * T) s s' : same_call s s' -> agree same_call (on_world r s) (on_world r s').
Proof. intros []. by split. Qed.

Context (c : SdkClient W) (request : GenerateRequest).
#[local] Instance inert_world : World (CallState W) OpenEvents :=
  call_world transport_execute system_now item_wait c request.
#[local] Instance call_oblivious : Oblivious same_call.
Proof.
  split; cbn; try (intros * Hs; rewrite ?(sm_world _ _ Hs); first [by apply on_world_agrees|by destruct Hs]).
  - intros w w' Hs. unfold call_plan. rewrite (sm_world _ _ Hs). destruct (plan _ _ _); [|done]. by destruct Hs.
  - intros w w' Hs. unfold call_prepare. rewrite (sm_plan _ _ Hs). destruct (ca_plan w') as [p|]; [|done].
    destruct (dispatch_prepare _ p); [|done]. by destruct Hs.
  - intros rq o a w w' Hs. unfold call_open. rewrite (sm_prepared _ _ Hs), (sm_world _ _ Hs).
    destruct (ca_prepared w') as [call|]; [|done].
    change (attempt_context (observed_as o rq) a) with (context_observed_as o (attempt_context rq a)).
    destruct (prepare_untraced (sc_runtime c) call (attempt_context rq a) o (ca_world w')) as [_ Hp].
    destruct (open_response_untraced (sc_runtime c) call (attempt_context rq a) o (ca_world w')) as [Hw Hr].
    destruct (prepare_attempt _ _ _ _) as [[w1 t1] r1], (prepare_attempt _ _ (context_observed_as _ _) _) as [[w2 t2] r2].
    destruct (open_response _ _ _ _ _ _ _) as [[w3 t3] r3], (open_response _ _ _ _ _ (context_observed_as _ _) _) as [[w4 t4] r4].
    cbn in Hp, Hw, Hr. subst. split; [|done]. destruct Hs. split; cbn; congruence.
  - intros h d w w' Hs. unfold call_next. rewrite (sm_world _ _ Hs).
    destruct (item_wait d (ca_world w')) as [w1 [[]| |]]; (split; [by destruct Hs|done]).
Qed.

(** C20. Observing a call changes nothing about it: with or without an observer,
    in the same world, the call gives the same answer, has left the world in the
    same state, has planned and prepared the same call, sent the same requests in
    the same attempts and opened the same responses. *)
Theorem observation_inert (o : bool) fuel ct w :
  let '(s, r) := client_complete transport_execute system_now item_wait c request fuel ct w in
  let '(s', r') :=
    client_complete transport_execute system_now item_wait (sdk_observed_as o c) request fuel ct w in
  r = r' /\ same_call (rs_world s) (rs_world s') /\ rs_opened s = rs_opened s' /\ rs_total_waited s = rs_total_waited s'.
Proof.
  unfold client_complete. change (runner_client (sdk_observed_as o c)) with (client_observed_as o (runner_client c)).
  change (call_world _ _ _ (sdk_observed_as o c) request) with inert_world. fold inert_world.
  destruct (complete_agrees same_call (runner_client c) o fuel ct request (call_start w) (call_start w) ltac:(done)) as [Hs Hr].
  destruct (complete_with_control fuel _ ct request _) as [s r], (complete_with_control fuel (client_observed_as _ _) ct request _) as [s' r'].
  by destruct Hs.
Qed.
End Call.
