(* ===== verification/ClientSpec.v ===== *)
(** * Theorems about whole calls

    The components in one piece: what a call sends, that it ends, and where the
    message it returns comes from. *)
From S2P Require Import Prelude Errors Usage Sse SseStream Domain Images Structured Collector CollectorSpec Pipeline ChatWire Schema SchemaSpec Options ToolCalls ChatMachine ChatSpec Messages MessagesSpec Reliability RetryAfter Runner RunnerSpec RunnerTrace History Request RequestSpec Headers HeadersSpec Serialize Contract Catalog ChatRequest MessagesRequest Plan PlanSpec Endpoint EndpointSpec Response Auth Credentials Attempt AttemptSpec Client.

(** ** Reading a stream *)
Section Next.
Context {T : Type} {SM : SseEventMachine T}.

Lemma stream_poll_post (s : SseMachineStream T) up : stream_wf s ->
  match stream_poll s up with
  | (s', up', Some (Ready (Some it))) => sden s up = it :: sden s' up' /\ stream_wf s'
  | (_, _, Some (Ready None)) => sden s up = []
  | (s', up', Some Pending) => sden s up = sden s' up' /\ (sweight s' up' < sweight s up)%nat /\ stream_wf s'
  | (_, _, None) => False
  end.
Proof.
  intros Hwf. destruct (s_pending s) as [|it rest] eqn:Hp.
  - unfold stream_poll, pop_front. rewrite Hp. destruct (s_terminal s) eqn:Ht; [by rewrite sden_terminal|].
    pose proof (stream_loop_post (S (Z.to_nat (s_max_events_per_poll s))) 0 s up Hwf Ht Hp
      ltac:(destruct Hwf; lia) ltac:(destruct Hwf; lia)) as Hpost. unfold stream_post in Hpost.
    destruct (stream_loop _ _ _ _) as [[s' up'] [[[it|]|]|]]; [..|done]; naive_solver.
  - unfold stream_poll, pop_front. rewrite Hp. split; [|done]. unfold sden. by rewrite Hp.
Qed.
Lemma stream_next_post fuel : forall (s : SseMachineStream T) up, stream_wf s -> (sweight s up < fuel)%nat ->
  exists s' up' it, stream_next fuel s up = (s', up', Some it) /\ it = head (sden s up) /\
    (is_Some it -> sden s' up' = tail (sden s up) /\ stream_wf s').
Proof.
  induction fuel as [|fuel IH]; intros s up Hwf Hf; [lia|]. cbn [stream_next]. pose proof (stream_poll_post s up Hwf) as Hp.
  destruct (stream_poll s up) as [[s' up'] [[[it|]|]|]]; [| | |done].
  - destruct Hp as [-> Hwf']. eexists _, _, _. split; [reflexivity|]. by split.
  - rewrite Hp. eexists _, _, _. split; [reflexivity|]. split; [done|]. by intros [? [=]].
  - destruct Hp as (-> & Hw & Hwf'). apply IH; [done|lia].
Qed.
Lemma sden_new cfg (m : T) up : sden (stream_new cfg m) up = machine_items m (decode_stream (with_config cfg) up).
Proof. unfold sden. cbn [s_pending stream_new s_terminal s_machine s_source app]. by rewrite den_all_live, den_nil. Qed.
Lemma stream_new_wf cfg (m : T) : config_wf cfg -> stream_wf (stream_new cfg m).
Proof. intros Hwf. split; [apply Hwf|]. intros _. by split. Qed.
End Next.

(** ** Completing a call, in any world *)
Section Complete.
Context {W H : Type} {WD : World W H} {JS : JsonSyntax} {SE : SchemaEngine}.
Context {I : W -> list Z -> Prop} {L : W -> H -> Prop} {K : Kept I L}.

Lemma accept_items_map evs c : accept_items (map Ok evs) c = accept_all evs c.
Proof. revert c. induction evs as [|e evs IH]; intros c; [done|]. cbn. destruct (accept e c); cbn; [apply IH|done]. Qed.

Lemma collect_stream_mono fuel : forall fuel' rq st s c s' r, (fuel <= fuel')%nat ->
  collect_stream (H := H) fuel rq st s c = (s', Some r) -> collect_stream fuel' rq st s c = (s', Some r).
Proof.
  induction fuel as [|fuel IH]; intros fuel' rq st s c s' r Hle Hc; [done|]. destruct fuel' as [|fuel']; [lia|].
  cbn [collect_stream] in *. destruct (poll_stream rq st s) as [[s1 st1] [[[ev|e]|]|]]; try done.
  destruct (accept ev c); [|done]. apply IH; [lia|done].
Qed.
Lemma complete_mono fuel fuel' cl ct request w s r : (fuel <= fuel')%nat ->
  complete_with_control (H := H) fuel cl ct request w = (s, Some r) ->
  complete_with_control (H := H) fuel' cl ct request w = (s, Some r).
Proof.
  intros Hle. unfold complete_with_control. destruct (stream_with_control _ _ _ _) as [[s0 rq] [[st|e]|]]; [|done..].
  destruct (collect_stream fuel rq st s0 _) as [s1 [r1|]] eqn:E; [|done]. by rewrite (collect_stream_mono _ _ _ _ _ _ _ _ Hle E).
Qed.

(** A stream that has ended gives nothing more. *)
Lemma collect_ended fuel rq (st : AssistantStream H) s c : as_terminal st = true ->
  collect_stream (S fuel) rq st s c = (s, Some (Ok c)).
Proof. intros Ht. cbn [collect_stream]. unfold poll_stream. rewrite Ht. unfold drop_stream. by rewrite Ht. Qed.

Definition within_hard_limit (rq : Runner.Request) : Prop :=
  1 <= rp_max_attempts (rq_retries rq) <= MAX_ATTEMPTS_HARD_LIMIT.

(** What the loop accepts comes from one opened response. *)
Lemma collect_stream_reads fuel : forall rq k st s c evs, within_hard_limit rq ->
  stream_ok rq k st s -> as_terminal st = false -> follows I L (as_inner st) evs s ->
  let '(s', r) := collect_stream fuel rq st s c in
  holds I s' /\ forall c', r = Some (Ok c') ->
    exists more h h', accept_all more c = Ok c' /\ opens L s' h /\ reads h (evs ++ more) h'.
Proof.
  induction fuel as [|fuel IH]; intros rq k st s c evs Hmax Hok Ht Hf; [split; [apply Hf|done]|].
  cbn [collect_stream]. pose proof (poll_stream_follows I L rq k st s evs Hmax Hok Ht Hf) as Hp.
  destruct (poll_stream rq st s) as [[s1 st1] out]. destruct Hp as (H1 & (k1 & Hok1) & Hout).
  destruct Hout as [(e & -> & Hte)|(ev & -> & Hte & Hf1 & _)]; [split; [by apply (drop_keeps I L)|done]|].
  destruct (accept ev c) as [c1|e] eqn:Ea; [|split; [by apply (drop_keeps I L)|done]].
  destruct (is_done ev).
  - destruct fuel as [|fuel]; [done|]. rewrite collect_ended by done. split; [done|]. intros c' [= <-].
    destruct Hf1 as (_ & (h & Hh & Hr) & _). exists [ev], h, (ac_active (as_inner st1)). split_and!; [|done..].
    cbn. by rewrite Ea.
  - specialize (IH rq k1 st1 s1 c1 (evs ++ [ev]) Hmax Hok1 Hte Hf1).
    destruct (collect_stream fuel rq st1 s1 c1) as [s2 r]. destruct IH as [H2 IH]. split; [done|].
    intros c' Hc. destruct (IH c' Hc) as (more & h & h' & Ha & Hh & Hr). exists (ev :: more), h, h'.
    rewrite <- app_assoc in Hr. split_and!; [|done..]. cbn. by rewrite Ea.
Qed.

(** The loop ends: every event but the first takes an item off the response. *)
Context {good : H -> Prop} {items : H -> list item} {IT : Itemised good items}.
Context (opens_good : forall w h, L w h -> good h).

Lemma collect_step rq k st s c evs : within_hard_limit rq ->
  stream_ok rq k st s -> as_terminal st = false -> follows I L (as_inner st) evs s ->
  (exists s' r, forall fuel, collect_stream (S (S fuel)) rq st s c = (s', Some r)) \/
  exists k1 st1 s1 c1 ev, (forall fuel, collect_stream (S fuel) rq st s c = collect_stream fuel rq st1 s1 c1) /\
    stream_ok rq k1 st1 s1 /\ as_terminal st1 = false /\ follows I L (as_inner st1) (evs ++ [ev]) s1 /\
    (evs <> [] -> (length (items (ac_active (as_inner st1))) < length (items (ac_active (as_inner st))))%nat).
Proof.
  intros Hmax Hok Ht Hf. pose proof (poll_stream_follows I L rq k st s evs Hmax Hok Ht Hf) as Hp.
  destruct (poll_stream rq st s) as [[s1 st1] out] eqn:Epoll. destruct Hp as (H1 & (k1 & Hok1) & Hout).
  destruct Hout as [(e & -> & Hte)|(ev & -> & Hte & Hf1 & Hnext)];
    [left; eexists _, _; intros fuel; cbn [collect_stream]; by rewrite Epoll|].
  destruct (accept ev c) as [c1|e] eqn:Ea; [|left; eexists _, _; intros fuel; cbn [collect_stream]; by rewrite Epoll, Ea].
  destruct (is_done ev).
  { left. exists s1, (Ok c1). intros fuel. remember (S fuel) as f eqn:Ef. cbn [collect_stream]. rewrite Epoll, Ea. subst f.
    by rewrite collect_ended. }
  assert (forall fuel, collect_stream (S fuel) rq st s c = collect_stream fuel rq st1 s1 c1) as Hstep
    by (intros fuel; cbn [collect_stream]; by rewrite Epoll, Ea).
  right. exists k1, st1, s1, c1, ev. split_and!; [done..|]. intros (d & w & w' & Hw)%Hnext.
  destruct Hf as (_ & (h & Hh & Hr) & _). apply (reads_items (items := items)) in Hr as [Hg _]; [|by eapply opens_good].
  apply (next_item (items := items)) in Hw as [_ E]; [|done]. rewrite E. cbn. lia.
Qed.
Lemma collect_stream_ends n : forall rq k st s c evs, within_hard_limit rq ->
  stream_ok rq k st s -> as_terminal st = false -> follows I L (as_inner st) evs s -> evs <> [] ->
  (length (items (ac_active (as_inner st))) < n)%nat -> exists s' r, collect_stream (S n) rq st s c = (s', Some r).
Proof.
  induction n as [|n IH]; intros rq k st s c evs Hmax Hok Ht Hf Hne Hn; [lia|].
  destruct (collect_step rq k st s c evs Hmax Hok Ht Hf) as [(s' & r & E)|(k1 & st1 & s1 & c1 & ev & -> & Hok1 & Ht1 & Hf1 & Hlt)]; [eauto|].
  apply (IH rq k1 st1 s1 c1 (evs ++ [ev])); try done; [by destruct evs|]. specialize (Hlt Hne). lia.
Qed.

(** Without a deadline, and when the items of a response come as they are asked
    for, the loop accepts them up to [Done]. *)
Lemma collect_stream_delivers rq evs : forall st s c fr rest,
  rq_deadline rq = None ->
  (forall h d w x l, good h -> items h = x :: l -> exists w' h', w_next h d w = (w', Output (h', Some x))) ->
  as_terminal st = false -> ac_terminal (as_inner st) = false -> good (ac_active (as_inner st)) ->
  Forall (fun ev => is_done ev = false) evs ->
  items (ac_active (as_inner st)) = map Ok (evs ++ [AssistantEvent.Done fr]) ++ rest ->
  exists s', collect_stream (S (S (length evs))) rq st s c = (s', Some (accept_all (evs ++ [AssistantEvent.Done fr]) c)).
Proof.
  intros st s c fr rest Hd Hready. revert st s c.
  assert (forall st s ev l, as_terminal st = false -> ac_terminal (as_inner st) = false -> good (ac_active (as_inner st)) ->
    items (ac_active (as_inner st)) = Ok ev :: l -> exists s1 st1, poll_stream rq st s = (s1, st1, Some (Some (Ok ev))) /\
      as_terminal st1 = is_done ev /\ ac_terminal (as_inner st1) = false /\ good (ac_active (as_inner st1)) /\
      items (ac_active (as_inner st1)) = l) as Hpoll.
  { intros st s ev l Ht Hat Hg Hi. unfold poll_stream. rewrite Ht. change RUN_FUEL with (S (Nat.pred RUN_FUEL)).
    cbn [poll_active]. rewrite Hat. unfold await_stream_with_stage. rewrite Hd. cbn [is_some_and].
    match goal with |- context [effective_deadline rq ?x] => destruct (effective_deadline rq x) as [dl over] end.
    destruct (Hready _ dl (rs_world s) _ _ Hg Hi) as (w' & h' & En). rewrite En.
    pose proof (next_item (good := good) (items := items) _ _ _ _ _ _ Hg En) as [Hg' Ei]. rewrite Hi in Ei. injection Ei as ->.
    match goal with |- context [deliver rq ev ?i ?a ?b] =>
      pose proof (deliver_same rq ev i a b) as Hsame; destruct (deliver rq ev i a b) as [[s2 st2] it] eqn:Edel end.
    destruct Hsame as (_ & _ & Hin). exists s2, st2.
    assert (it = Ok ev /\ as_terminal st2 = is_done ev) as [-> Ht2]
      by (unfold deliver in Edel; destruct ev; injection Edel as _ <- <-; by rewrite ?Ht).
    by rewrite Hin. }
  induction evs as [|ev evs IH]; intros st s c Ht Hat Hg Hnd Hi.
  - destruct (Hpoll st s _ _ Ht Hat Hg Hi) as (s1 & st1 & E & Ht1 & _). cbn [length app accept_all collect_stream].
    rewrite E. destruct (accept _ c) as [c1|e]; [|by eexists]. cbn in Ht1 |- *.
    unfold poll_stream. rewrite Ht1. by eexists.
  - destruct (Hpoll st s _ _ Ht Hat Hg Hi) as (s1 & st1 & E & Ht1 & Hat1 & Hg1 & Hi1).
    apply Forall_cons_1 in Hnd as [Hev Hnd]. rewrite Hev in Ht1. remember (S (length evs)) as f eqn:Ef.
    cbn [length app accept_all]. rewrite <- Ef. cbn [collect_stream]. rewrite E.
    destruct (accept ev c) as [c1|e]; [|by eexists]. subst f. by apply IH.
Qed.

(** A message is collected from events read off one response. *)
Lemma complete_reads fuel cl ct request w s m : policies_wf cl ct -> I w [] ->
  complete_with_control (H := H) fuel cl ct request w = (s, Some (Ok m)) ->
  holds I s /\ exists evs h h' m0, opens L s h /\ reads h evs h' /\
    collect_assistant_message_for_format (map Ok evs) (go_response_format (gr_options request)) = Ok m0 /\
    m = am_with_model (gr_model request) m0.
Proof.
  intros Hwf Hw. unfold complete_with_control.
  pose proof (stream_with_control_spec cl ct (go_timeout (gr_options request)) w Hwf) as Hs.
  pose proof (stream_with_control_follows I L cl ct (go_timeout (gr_options request)) w Hw) as Hf.
  destruct (stream_with_control _ _ _ _) as [[s0 rq] r]. destruct Hf as [_ Hf]. destruct Hs as ((id & t & d & i & ->) & k & _ & Hr).
  destruct Hr as [[e ->]|(st & -> & Hok & Ht)]; [done|]. specialize (Hf st eq_refl).
  pose proof (collect_stream_reads fuel (tightened cl ct id t d i) k st s0 collector_default []
    (proj1 (tightened_wf cl ct id t d i Hwf)) Hok Ht Hf) as Hc.
  destruct (collect_stream _ _ _ _ _) as [s1 [r|]]; [|done]. intros [= <- Hm]. destruct Hc as [H1 Hc]. split; [done|].
  rewrite bind_ok in Hm. destruct Hm as (c & -> & Hm). rewrite bind_ok in Hm. destruct Hm as (m0 & Hm0 & [= <-]).
  destruct (Hc c eq_refl) as (more & h & h' & Ha & Hh & Hr). exists more, h, h', m0. split_and!; try done.
  unfold collect_assistant_message_for_format. rewrite accept_items_map, Ha. exact Hm0.
Qed.
End Complete.

(** A whole call ends after at most two polls more than a response it opened has
    items. *)
Section Ends.
Context {W H : Type} {WD : World W H} {JS : JsonSyntax} {SE : SchemaEngine}.
Context {I : W -> list Z -> Prop} {L : W -> H -> Prop} {K : Kept I L}.
Context {M : W -> W -> Prop} {G : Grows M} (grown : forall w w' h, M w w' -> L w h -> L w' h).
Context {good : H -> Prop} {items : H -> list item} {IT : Itemised good items}.
Context (opens_good : forall w h, L w h -> good h).

Lemma collect_grows fuel rq k st s c evs : within_hard_limit rq ->
  stream_ok rq k st s -> as_terminal st = false -> follows I L (as_inner st) evs s ->
  M (rs_world s) (rs_world (collect_stream fuel rq st s c).1).
Proof.
  intros Hmax Hok Ht (Hs & Hh & Hd). pose proof (grows_kept (K := K) (G := G) (rs_world s)) as Kg.
  pose proof (collect_stream_reads (K := Kg) fuel rq k st s c evs Hmax Hok Ht) as Hc.
  destruct (collect_stream fuel rq st s c) as [s' r]. destruct Hc as [[_ Hm] _]; [|done].
  split; [|by split]. split; [exact Hs|apply g_refl].
Qed.
Lemma complete_ends cl ct request w : policies_wf cl ct -> I w [] ->
  exists fuel s r,
    (forall fuel', (fuel <= fuel')%nat -> complete_with_control (H := H) fuel' cl ct request w = (s, Some r)) /\
    ((fuel <= 2)%nat \/ exists h, L (rs_world s) h /\ (fuel <= 2 + length (items h))%nat).
Proof.
  intros Hwf Hw. cut (exists fuel s r, complete_with_control (H := H) fuel cl ct request w = (s, Some r) /\
    ((fuel <= 2)%nat \/ exists h, L (rs_world s) h /\ (fuel <= 2 + length (items h))%nat)).
  { intros (fuel & s & r & E & Hb). exists fuel, s, r. split; [|done]. intros fuel' Hle. by eapply complete_mono. }
  unfold complete_with_control. pose proof (stream_with_control_spec cl ct (go_timeout (gr_options request)) w Hwf) as Hs.
  pose proof (stream_with_control_follows I L cl ct (go_timeout (gr_options request)) w Hw) as Hf.
  destruct (stream_with_control _ _ _ _) as [[s rq] r]. destruct Hf as [_ Hf]. destruct Hs as ((id & t & d & i & ->) & k & _ & Hr).
  destruct Hr as [[e ->]|(st & -> & Hok & Ht)]; [exists 0%nat; eexists _, _; split; [done|left; lia]|].
  pose proof (proj1 (tightened_wf cl ct id t d i Hwf)) as Hmax. specialize (Hf st eq_refl).
  set (rq := tightened cl ct id t d i) in *.
  cut (exists fuel s' r, collect_stream fuel rq st s collector_default = (s', Some r) /\
    ((fuel <= 2)%nat \/ exists h, L (rs_world s') h /\ (fuel <= 2 + length (items h))%nat)).
  { intros (fuel & s' & r & E & Hb). exists fuel. rewrite E. by eexists _, _. }
  destruct (collect_step opens_good rq k st s collector_default [] Hmax Hok Ht Hf) as [(s' & r & E)|Hstep].
  { exists 2%nat, s', r. split; [apply E|by left]. }
  destruct Hstep as (k1 & st1 & s1 & c1 & ev & E & Hok1 & Ht1 & Hf1 & _).
  destruct (collect_stream_ends opens_good (S (length (items (ac_active (as_inner st1))))) rq k1 st1 s1 c1 [ev] Hmax Hok1 Ht1 Hf1)
    as (s' & r & Er); [done|lia|].
  exists (S (S (S (length (items (ac_active (as_inner st1))))))), s', r. rewrite E. split; [done|]. right.
  pose proof (collect_grows (S (S (length (items (ac_active (as_inner st1)))))) rq k1 st1 s1 c1 [ev] Hmax Hok1 Ht1 Hf1) as Hg.
  rewrite Er in Hg. destruct Hf1 as (_ & (h & Hh & Hr) & _). exists h. split; [by eapply grown|].
  apply (reads_items (items := items)) in Hr as [_ ->]; [|by eapply opens_good]. simpl. lia.
Qed.
End Ends.

(** ** The world of a call *)
Section Call.
Context {W H : Type} {WD : World W H} {CW : CredentialWorld W} {HW : HeaderSourceWorld W}.
Context {U : Urls} {UP : UrlParts} {UL : UrlLaws} {HV : HttpValues} {HT : HeaderText} {HH : HttpHeaders} {HF : HeaderFields}.
Context {ES : ErrorEnvelopeSyntax} {B : Base64} {JP : JsonPrinter} {JV : JsonValues} {JS : JsonSyntax}.
Context {CS : ChunkSyntax} {MS : MessagesSyntax}.
Context (transport_execute : HttpRequest -> Future W (result LlmError HttpResponse)) (system_now : W -> Z).
Context (item_wait : Future W unit) (c : SdkClient W) (request : GenerateRequest).
#[local] Instance this_world : World (CallState W) OpenEvents :=
  call_world transport_execute system_now item_wait c request.

(** The items an open response still has. *)
Definition open_items (e : OpenEvents) : list item :=
  match e with OpenChat s up => sden s up | OpenMessages s up => sden s up end.
Definition open_wf (e : OpenEvents) : Prop :=
  match e with OpenChat s _ => stream_wf s | OpenMessages s _ => stream_wf s end.
Lemma events_next_post e : open_wf e -> exists e' it, events_next e = Some (e', it) /\ it = head (open_items e) /\
  (is_Some it -> open_items e' = tail (open_items e) /\ open_wf e').
Proof.
  destruct e as [s up|s up]; intros Hwf;
    destruct (stream_next_post (S (sweight s up)) s up Hwf ltac:(lia)) as (s' & up' & it & E & Hit & Hrest);
    cbn [events_next]; rewrite E; by eexists _, _.
Qed.
#[local] Instance open_itemised : Itemised open_wf open_items.
Proof.
  intros h d w w' h' it Hwf. cbn. unfold call_next. destruct (item_wait d (ca_world w)) as [w1 [[]| |]]; [|done..].
  destruct (events_next_post h Hwf) as (e' & it' & -> & -> & Hrest). intros [= _ <- E].
  destruct (open_items h) as [|x rest]; [done|]. injection E as ->. by destruct (Hrest ltac:(by eexists)) as [-> Hw].
Qed.

(** The invariant of a call: one request at most for each attempt, each made of
    the call prepared from the plan, and the responses opened are its
    protocol's. *)
Definition planned (p : ResolvedCallPlan) : Prop := exists now, plan now (ru_runtime (sc_runtime c)) request = Ok p.
Definition prepared (call : PreparedCall) : Prop :=
  exists p, planned p /\ dispatch_prepare (ta_protocol_kind (po_target (cpl_policy p))) p = Ok call.
Definition sent_by (call : PreparedCall) (http : HttpRequest) : Prop :=
  exists rq attempt w w' trace,
    prepare_attempt (sc_runtime c) call (attempt_context rq attempt) w = (w', trace, Ok http).
Definition opened_by (call : PreparedCall) (events : EventStream) : Prop :=
  exists meta body, response_open (mk_attempt_response (prc_response call) meta (Success body)) = Ok events.
Record call_inv (s : CallState W) (o : list Z) : Prop := {
  ci_count : (length (ca_sent s) <= length o)%nat;
  ci_answers : (length (ca_opened s) <= length o)%nat;
  ci_planned p : ca_plan s = Some p -> planned p;
  ci_prepared call : ca_prepared s = Some call -> prepared call;
  ci_sent : Forall (fun http => exists call, ca_prepared s = Some call /\ sent_by call http) (ca_sent s);
  ci_opened : Forall (fun events => exists call, ca_prepared s = Some call /\ opened_by call events) (ca_opened s) }.
Definition sse_wf : Prop := config_wf (rt_sse (ru_runtime (sc_runtime c))).
Definition remembered (s : CallState W) (h : OpenEvents) : Prop :=
  (exists events, events ∈ ca_opened s /\ h = opened events) /\ (sse_wf -> open_wf h).

Lemma planned_sse p : planned p -> trl_sse (rsl_transport (po_limits (cpl_policy p))) = rt_sse (ru_runtime (sc_runtime c)).
Proof.
  intros (now & [Hp _]%plan_inv). unfold plan_policy_for in Hp. do 4 (apply then_ok in Hp as [_ Hp]).
  apply bind_ok in Hp as (limits & Hlim & Hp). apply bind_ok in Hp as (pm & _ & Hp). apply bind_ok in Hp as (wm & _ & [= <-]).
  rewrite map_err_ok in Hlim. unfold compile_limits in Hlim. apply then_ok in Hlim as [_ Hlim]. case_match; [done|].
  by injection Hlim as <-.
Qed.
(** What a driver prepares. *)
Lemma prepared_call call : prepared call ->
  rp_protocol_headers (prc_request call) = standard_json_sse_header_operations /\
  match rpl_protocol (prc_response call) with
  | ProtocolResponsePlan.OpenAiChat _ _ _ _ sse | ProtocolResponsePlan.AnthropicMessages _ _ _ _ sse =>
      sse = rt_sse (ru_runtime (sc_runtime c))
  end.
Proof.
  intros (p & Hp%planned_sse & Hd). unfold dispatch_prepare in Hd. destruct (ta_protocol_kind _);
    unfold chat_prepare, messages_prepare in Hd; apply bind_ok in Hd as (contract & _ & Hd);
    apply bind_ok in Hd as (body & _ & [= <-]); done.
Qed.
Lemma opened_wf call events : prepared call -> opened_by call events -> sse_wf -> open_wf (opened events).
Proof.
  intros [_ Hsse]%prepared_call (meta & body & Ho) Hwf. unfold response_open in Ho. cbn in Ho.
  destruct (rpl_protocol (prc_response call)); subst; injection Ho as <-; by apply stream_new_wf.
Qed.

Lemma open_response_ok call context w w' trace events :
  open_response transport_execute system_now item_wait (sc_runtime c) call context w = (w', trace, Ok events) -> opened_by call events.
Proof.
  unfold open_response. destruct (execute _ _ _ _ _ _ _) as [[w1 t1] r] eqn:E. intros [= _ _ Hr].
  rewrite bind_ok in Hr. destruct Hr as (response & -> & Hr). apply execute_outcome in E as [Hplan Hout].
  destruct response as [plan meta outcome]. cbn in *. subst plan. destruct outcome as [body|body]; [by exists meta, body|].
  destruct (rpl_protocol (prc_response call)) eqn:Ep; unfold response_open in Hr; cbn in Hr; by rewrite Ep in Hr.
Qed.
Lemma call_open_inv rq attempt s o : call_inv s o ->
  let '(s', r) := call_open transport_execute system_now item_wait c rq attempt s in
  call_inv s' (o ++ [at_number attempt]) /\ forall h, r = Ok h -> remembered s' h.
Proof.
  intros [Hn Ha Hp Hc Hs Ho]. unfold call_open. destruct (ca_prepared s) as [call|] eqn:Ec.
  2:{ split; [|done]. split; rewrite ?length_app, ?Ec; try done; simpl; lia. }
  destruct (open_response _ _ _ _ _ _ _) as [[w trace] r] eqn:E. split.
  - split; cbn; rewrite ?length_app, ?Ec; try done.
    + destruct (prepare_attempt _ _ _ _) as [[? ?] [|]]; simpl; lia.
    + destruct r; simpl; lia.
    + apply Forall_app. split; [done|]. destruct (prepare_attempt _ _ _ _) as [[w1 t1] [http|]] eqn:Ep; [|done].
      apply Forall_singleton. exists call. split; [done|]. by exists rq, attempt, (ca_world s), w1, t1.
    + apply Forall_app. split; [done|]. destruct r as [events|]; [|done]. apply Forall_singleton. exists call.
      split; [done|]. by eapply open_response_ok.
  - intros h Hh. destruct r as [events|]; [|done]. injection Hh as <-.
    split; [exists events; split; [cbn; set_solver|done]|]. apply (opened_wf call); [by apply Hc|by eapply open_response_ok].
Qed.
#[local] Instance call_kept : Kept call_inv remembered.
Proof.
  split; cbn; try by (intros * Hs; destruct Hs).
  - intros h d w o Hw. unfold call_next. destruct (item_wait d (ca_world w)) as [w1 [| |]]; by destruct Hw.
  - intros s [Hn Ha Hp Hc Hs Ho]. unfold call_plan. destruct (plan _ _ _) as [p|] eqn:E; [|by split].
    split; cbn; try done. intros p' [= <-]. by eexists.
  - intros s Hi. unfold call_prepare. destruct (ca_plan s) as [p|] eqn:Ep; [|done].
    destruct (dispatch_prepare _ _) as [call|] eqn:E; [|done]. destruct Hi as [Hn Ha Hp Hc Hs Ho]. cbn in Hn, Ha.
    destruct (ca_sent s) as [|] eqn:Es; [|simpl in Hn; lia]. destruct (ca_opened s) as [|] eqn:Eo; [|simpl in Ha; lia].
    split; cbn; rewrite ?Es, ?Eo; try done; [intros p' [= <-]; auto|]. intros call' [= <-]. exists p. auto.
  - intros rq attempt s o Hs. pose proof (call_open_inv rq attempt s o Hs) as Ho.
    destruct (call_open _ _ _ _ _ _ _) as [s' r]. apply Ho.
  - intros rq attempt s o s' h Hs E. pose proof (call_open_inv rq attempt s o Hs) as Ho. rewrite E in Ho. by apply Ho.
  - intros h h' d s Hs. unfold call_next. by destruct (item_wait d (ca_world s)) as [w1 [| |]].
Qed.
(** The opened responses stay opened. *)
Definition grown (s s' : CallState W) : Prop := ca_opened s ⊆ ca_opened s'.
#[local] Instance call_grows : Grows grown.
Proof.
  unfold grown. split; cbn; try (intros; reflexivity).
  - intros w1 w2 w3. apply transitivity.
  - intros h d s. unfold call_next. by destruct (item_wait d (ca_world s)) as [w1 [| |]].
  - intros s. unfold call_plan. by destruct (plan _ _ _).
  - intros s. unfold call_prepare. destruct (ca_plan s); [|done]. by destruct (dispatch_prepare _ _).
  - intros rq a s. unfold call_open. destruct (ca_prepared s); [|done].
    destruct (open_response _ _ _ _ _ _ _) as [[w1 t1] r]. cbn. set_solver.
Qed.
Lemma call_start_inv w : call_inv (call_start w) [].
Proof. split; try done; constructor. Qed.

(** What the protocol's decoder and machine make of a body. *)
Definition response_items (plan : ResponsePlan) (meta : ResponseMeta) (body : ByteStream) : list item :=
  match rpl_protocol plan with
  | ProtocolResponsePlan.OpenAiChat model format contract limits sse =>
      machine_items
        (new_with_format (ChatMachine.mk_context (rm_local_request_id meta) (rm_provider_request_id meta) model)
           format limits (cp_response (occ_compat contract)))
        (decode_stream (with_config sse) (body_polls body))
  | ProtocolResponsePlan.AnthropicMessages source format contract limits sse =>
      machine_items
        (messages_new (Messages.mk_messages_context (rm_local_request_id meta) (rm_provider_request_id meta) source)
           format limits (amc_usage contract))
        (decode_stream (with_config sse) (body_polls body))
  end.
Lemma opened_items plan meta body events :
  response_open (mk_attempt_response plan meta (Success body)) = Ok events ->
  open_items (opened events) = response_items plan meta body.
Proof.
  unfold response_open, response_items. cbn. destruct (rpl_protocol plan); intros [= <-]; cbn; apply sden_new.
Qed.

(** Every state a call reaches. *)
Definition call_reaches (ct : RequestControl) (w : W) (s : RunState (CallState W)) : Prop :=
  let '(s0, rq, r) := client_stream transport_execute system_now item_wait c request ct w in
  s = s0 \/ exists st n, r = Some (Ok st) /\
    let '(s1, st1, _) := poll_times rq n st s0 in s = s1 \/ s = drop_stream rq st1 s1.
Lemma call_reaches_inv ct w s : policies_wf (runner_client c) ct -> call_reaches ct w s ->
  call_inv (rs_world s) (rs_opened s) /\ within_limits (runner_client c) ct s.
Proof.
  intros Hwf. unfold call_reaches, client_stream. set (timeout := go_timeout (gr_options request)).
  pose proof (stream_with_control_spec (runner_client c) ct timeout (call_start w) Hwf) as Hs.
  pose proof (stream_with_control_follows call_inv remembered (runner_client c) ct timeout (call_start w) (call_start_inv w)) as Hf.
  fold this_world. destruct (stream_with_control _ _ _ _) as [[s0 rq] r]. destruct Hf as [H0 Hf].
  destruct Hs as ((id & t & d & i & ->) & k & Hok0 & Hr). intros [->|(st & n & -> & Hn)].
  { split; [done|by eapply run_ok_within]. }
  destruct Hr as [(e & [=])|(st' & [= <-] & Hok & Ht)]. specialize (Hf st eq_refl).
  pose proof (proj1 (tightened_wf (runner_client c) ct id t d i Hwf)) as Hmax.
  pose proof (poll_times_keeps call_inv remembered _ n k st s0 [] Hmax Hok H0 (fun _ => Hf)) as Hp.
  destruct (poll_times _ n st s0) as [[s1 st1] outs]. destruct Hp as (H1 & k1 & Hok1).
  destruct Hn as [-> | ->]; [split; [done|by eapply run_ok_within, so_run]|].
  split; [by apply (drop_keeps call_inv remembered)|]. apply (run_ok_within _ _ id t d i k1).
  eapply (run_ok_same _ k1 s1); [..|by eapply so_run]; unfold drop_stream; destruct (as_terminal st1); try done;
    destruct (mark_terminal _) as [x []]; cbn; by rewrite ?emit_opened, ?emit_waited.
Qed.

(** The sent requests, each safe, of the one prepared call. *)
Lemma sent_requests_safe (p : ProviderProfile) ct w s :
  LawfulAuth (pp_auth p) -> pp_test_only p = false -> runtime_build p = Ok (sc_runtime c) ->
  policies_wf (runner_client c) ct -> call_reaches ct w s ->
  ca_sent (rs_world s) = [] \/ exists call, prepared call /\
    Forall (fun http => safe_request p http /\ hr_body http = rp_body (prc_request call)) (ca_sent (rs_world s)).
Proof.
  intros Hlaw Htest Hb Hwf Hr. apply call_reaches_inv in Hr as [[Hn _ _ Hc Hs _] _]; [|done].
  destruct (ca_prepared (rs_world s)) as [call|] eqn:Ec.
  - right. exists call. split; [by apply Hc|]. eapply Forall_impl; [exact Hs|]. intros http (call' & [= <-] & Hsent).
    destruct Hsent as (rq & attempt & w0 & w' & trace & Hp). split.
    + eapply prepared_request_safe; try done. by apply prepared_call, Hc.
    + by apply prepare_attempt_ok in Hp as (? & ? & ? & ? & ? & ? & ? & _ & _ & _ & _ & -> & _).
  - left. destruct (ca_sent (rs_world s)) as [|http sent]; [done|]. apply Forall_cons_1 in Hs as [(call & [=] & _) _].
Qed.
Lemma call_request_safe (p : ProviderProfile) ct w s http :
  LawfulAuth (pp_auth p) -> pp_test_only p = false -> runtime_build p = Ok (sc_runtime c) ->
  policies_wf (runner_client c) ct -> call_reaches ct w s -> http ∈ ca_sent (rs_world s) -> safe_request p http.
Proof.
  intros Hlaw Htest Hb Hwf Hr Hin.
  destruct (sent_requests_safe p ct w s) as [E|(call & _ & Hall)]; try done; [by rewrite E in Hin; apply not_elem_of_nil in Hin|].
  rewrite Forall_forall in Hall. by apply Hall.
Qed.

(** C1. Whatever happens during a call of a production client, and at every moment
    of it, the HTTP requests it has sent are at most as many as the client's and
    the call's attempt limits, and each is safe for the profile: it goes over
    HTTPS to a public host at the configured destination, with the protocol's
    headers, a credential only where it is bound, and the body of the one call
    prepared from the plan. *)
Theorem client_requests_safe (p : ProviderProfile) ct w s :
  LawfulAuth (pp_auth p) -> pp_test_only p = false -> runtime_build p = Ok (sc_runtime c) ->
  policies_wf (runner_client c) ct -> call_reaches ct w s ->
  let sent := ca_sent (rs_world s) in
  Z.of_nat (length sent) <= rp_max_attempts (sc_retry_policy c) /\
  (forall policy, ct_retry_policy ct = Some policy -> Z.of_nat (length sent) <= rp_max_attempts policy) /\
  (sent = [] \/ exists call, prepared call /\
     Forall (fun http => safe_request p http /\ hr_body http = rp_body (prc_request call)) sent).
Proof.
  intros Hlaw Htest Hb Hwf Hr. pose proof (sent_requests_safe p ct w s Hlaw Htest Hb Hwf Hr) as Hs.
  apply call_reaches_inv in Hr as [[Hn _ _ _ _ _] (k & Ho & Hk & Hl & _)]; [|done].
  rewrite Ho, length_seqZ in Hn. cbn. split; [cbn in Hk; lia|]. split; [intros policy E; specialize (Hl policy E); lia|done].
Qed.

(** C3. A call completes, after at most two polls more than one of the responses it
    opened has items: whatever the transport answers, the provider sends and the
    clock and cancellation do, [complete_with_control] gives one and the same
    answer from that amount of fuel on. Every body is a finite list of items here
    and every wait ends, for an item of a body too: an endless body, or one that
    stalls where nothing limits the wait for it
    ([error_body_wait_unlimited]), is not covered. *)
Theorem client_completes ct w : policies_wf (runner_client c) ct -> sse_wf ->
  exists fuel s r,
    (forall fuel', (fuel <= fuel')%nat ->
       client_complete transport_execute system_now item_wait c request fuel' ct w = (s, Some r)) /\
    ((fuel <= 2)%nat \/ exists events, events ∈ ca_opened (rs_world s) /\
       (fuel <= 2 + length (open_items (opened events)))%nat).
Proof.
  intros Hwf Hsse. unfold client_complete. fold this_world.
  destruct (complete_ends (I := call_inv) (L := remembered) (M := grown) (good := open_wf) (items := open_items)
    ltac:(intros s s' h Hg [(events & Hin & ->) Hwf']; split; [exists events; by split; [apply Hg|]|done])
    ltac:(intros w' h [_ Hh]; by apply Hh) (runner_client c) ct request (call_start w) Hwf (call_start_inv w))
    as (fuel & s & r & E & Hb).
  exists fuel, s, r. split; [exact E|]. destruct Hb as [Hb|(h & [(events & Hin & ->) _] & Hb)]; eauto.
Qed.

(** C4. A good answer is delivered: when a call without a deadline has opened a
    response whose items are events up to a first [Done], and the items of a body
    come when they are asked for, the call completes with what the collector makes
    of these events, be it the message or the reason it is refused. *)
Theorem client_delivers ct w s rq st evs fr rest : policies_wf (runner_client c) ct -> sse_wf ->
  (forall d w, exists w', item_wait d w = (w', Output tt)) ->
  client_stream transport_execute system_now item_wait c request ct w = (s, rq, Some (Ok st)) -> rq_deadline rq = None ->
  (forall events, events ∈ ca_opened (rs_world s) ->
     open_items (opened events) = map Ok (evs ++ [AssistantEvent.Done fr]) ++ rest) ->
  Forall (fun ev => is_done ev = false) evs ->
  exists fuel s', client_complete transport_execute system_now item_wait c request fuel ct w =
    (s', Some (m ← collect_assistant_message_for_format (map Ok (evs ++ [AssistantEvent.Done fr]))
                     (go_response_format (gr_options request));
               Ok (am_with_model (gr_model request) m))).
Proof.
  intros Hwf Hsse Hwait Hst Hd Hopened Hnd. unfold client_stream, client_complete, complete_with_control in *.
  pose proof (stream_with_control_spec (runner_client c) ct (go_timeout (gr_options request)) (call_start w) Hwf) as Hs.
  pose proof (stream_with_control_follows call_inv remembered (runner_client c) ct (go_timeout (gr_options request))
    (call_start w) (call_start_inv w)) as Hf.
  fold this_world in *. rewrite Hst in *. destruct Hs as (_ & k & _ & [(e & [=])|(st' & [= <-] & Hok & Ht)]).
  destruct Hf as [_ Hf]. destruct (Hf st eq_refl) as (_ & (h & [(events & Hin & ->) Hgood] & Hr) & _).
  specialize (Hgood Hsse). specialize (Hopened events Hin).
  assert (ac_active (as_inner st) = opened events) as Eh
    by (inversion Hr as [|evs0 ? ? ? ? ? ? ? ? En]; [done|]; destruct evs0; discriminate En).
  destruct (collect_stream_delivers (good := open_wf) (items := open_items) rq evs st s collector_default fr rest)
    as [s' E]; rewrite ?Eh; try done.
  - intros h d w0 x l Hh Hl. cbn. unfold call_next. destruct (Hwait d (ca_world w0)) as [w1 ->].
    destruct (events_next_post h Hh) as (e' & it & -> & -> & _). rewrite Hl. by eexists _, _.
  - apply (so_inner _ _ _ _ Hok Ht).
  - exists (S (S (length evs))), s'. rewrite E. do 3 f_equal. unfold collect_assistant_message_for_format.
    rewrite accept_items_map. by destruct (accept_all _ _).
Qed.

(** C2. A message comes from one answer: when a call completes with a message, the
    call was planned and prepared, one of the successful responses it opened has
    a body that the protocol's decoder and machine turn into a sequence of items
    that starts with certain events, and the message is what the collector makes
    of exactly these events, under the request's model. *)
Theorem client_message_exact ct w fuel s m : policies_wf (runner_client c) ct -> sse_wf ->
  client_complete transport_execute system_now item_wait c request fuel ct w = (s, Some (Ok m)) ->
  exists call meta body events evs rest m0,
    prepared call /\ events ∈ ca_opened (rs_world s) /\
    response_open (mk_attempt_response (prc_response call) meta (Success body)) = Ok events /\
    response_items (prc_response call) meta body = map Ok evs ++ rest /\
    collect_assistant_message_for_format (map Ok evs) (go_response_format (gr_options request)) = Ok m0 /\
    m = am_with_model (gr_model request) m0.
Proof.
  intros Hwf Hsse. unfold client_complete. fold this_world. intros Hm.
  apply (complete_reads (I := call_inv) (L := remembered)) in Hm as [Hi Hm]; [|done|apply call_start_inv].
  destruct Hm as (evs & h & h' & m0 & [(events & Hin & ->) Hgood] & Hr & Hc & ->). specialize (Hgood Hsse).
  destruct Hi as [_ _ _ Hprep _ Ho]. rewrite Forall_forall in Ho. destruct (Ho events Hin) as (call & Ec & meta & body & He).
  apply (reads_items (good := open_wf) (items := open_items)) in Hr as [_ E]; [|done].
  rewrite (opened_items _ _ _ _ He) in E. exists call, meta, body, events, evs, (open_items h'), m0.
  split; [by apply Hprep|done].
Qed.
End Call.

(** ** A concrete call

    The first attempt cannot connect; the second is answered with a stream of
    three events. *)
#[local] Existing Instances record_urls record_parts record_laws example_header_maps example_header_fields.
#[local] Existing Instances still_world still_credentials still_headers ascii_values ascii_text no_envelope.
#[local] Instance example_codec : Base64 := letter_codec.
#[local] Instance example_printer : JsonPrinter := empty_printer.
#[local] Instance example_values : JsonValues := plain_values.
#[local] Instance example_syntax : JsonSyntax := sample_syntax.
#[local] Instance example_chunks : ChunkSyntax := sample_chunks.
#[local] Instance example_labels : MessagesSyntax := label_syntax.

Definition example_body : string :=
  String.concat (String "010" (String "010" EmptyString)) ["data: text"; "data: stop+usage"; "data: [DONE]"; EmptyString].
Definition example_transport : HttpRequest -> Future nat (result LlmError HttpResponse) := fun _ _ w =>
  (S w, Output (if (w =? 0)%nat then Err connect_failure
                else Ok (mk_http_response 200 [("content-type", "text/event-stream")] [Ok (bytes_of example_body)]))).
Definition example_wait : Future nat unit := fun _ w => (w, Output tt).
Definition example_client : SdkClient nat :=
  client_with_retry_policy retry_policy_standard (with_observer (client_new example_runtime)).
Definition example_complete (fuel : nat) : RunState (CallState nat) * option (result LlmError AssistantMessage) :=
  client_complete example_transport (fun _ => 0) example_wait example_client hello fuel control_new 0%nat.

Example example_completes : is_some_and (fun r => is_ok r) (example_complete 20).2 = true.
Proof. vm_compute. reflexivity. Qed.
Lemma example_policies : policies_wf (runner_client example_client) control_new.
Proof. split; [exact standard_wf|]. split; [done|]. split; [exact waits_wf|done]. Qed.
Lemma example_sse : sse_wf example_client.
Proof. repeat split; vm_compute; discriminate. Qed.

Definition example_stream :=
  client_stream example_transport (fun _ => 0) example_wait example_client hello control_new 0%nat.
Lemma client_requests_safe_witness :
  length (ca_sent (rs_world example_stream.1.1)) = 2%nat /\
  Forall (fun http => safe_request example_profile http) (ca_sent (rs_world example_stream.1.1)).
Proof.
  assert (length (ca_sent (rs_world example_stream.1.1)) = 2%nat) as Hlen by (vm_compute; reflexivity).
  split; [exact Hlen|].
  destruct (client_requests_safe example_transport (fun _ => 0) example_wait example_client hello example_profile
              control_new 0%nat example_stream.1.1) as (_ & _ & [E|(call & _ & Hall)]).
  - apply bearer_lawful.
  - reflexivity.
  - apply get_ok_eq. exact example_built.
  - exact example_policies.
  - unfold call_reaches. fold example_stream. destruct example_stream as [[s rq] r]. left. reflexivity.
  - rewrite E in Hlen. discriminate Hlen.
  - eapply Forall_impl; [exact Hall|]. intros http [Hs _]. exact Hs.
Defined.
Lemma client_completes_witness : exists fuel s m,
  (forall fuel', (fuel <= fuel')%nat -> example_complete fuel' = (s, Some (Ok m))) /\
  ((fuel <= 2)%nat \/ exists events, events ∈ ca_opened (rs_world s) /\
     (fuel <= 2 + length (open_items (opened events)))%nat).
Proof.
  destruct (client_completes example_transport (fun _ => 0) example_wait example_client hello control_new 0%nat
              example_policies example_sse) as (fuel & s & r & E & Hb).
  pose proof example_completes as Hok. destruct (example_complete 20) as [s20 [r20|]] eqn:E20; [|discriminate Hok].
  pose proof (E (fuel + 20)%nat ltac:(lia)) as E1. unfold example_complete, client_complete in *.
  eapply (complete_mono 20 (fuel + 20)) in E20; [|lia].
  assert (Some r = Some r20) as Hr by (rewrite E20 in E1; congruence).
  injection Hr as ->. destruct r20 as [m|e]; [|discriminate Hok].
  exists fuel, s, m. split; [exact E|exact Hb].
Defined.
Lemma client_message_exact_witness : exists m evs m0,
  (example_complete 20).2 = Some (Ok m) /\ collect_assistant_message_for_format (map Ok evs) FText = Ok m0 /\
  m = am_with_model (gr_model hello) m0.
Proof.
  pose proof example_completes as Hok. destruct (example_complete 20) as [s [[m|e]|]] eqn:E; try discriminate Hok.
  destruct (client_message_exact example_transport (fun _ => 0) example_wait example_client hello control_new 0%nat 20 s m
              example_policies example_sse E) as (_ & _ & _ & _ & evs & _ & m0 & _ & _ & _ & _ & Hc & Hm).
  exists m, evs, m0. split; [reflexivity|]. split; [exact Hc|exact Hm].
Defined.
Definition example_events : list AssistantEvent.t :=
  [AssistantEvent.Start "id" None (Some "gen-1"); AssistantEvent.TextStart 0; AssistantEvent.TextDelta 0 "{}";
   AssistantEvent.TextEnd 0; AssistantEvent.Usage (mk_usage 7 3 10); AssistantEvent.DetailedUsage sample_usage].
Example example_opens :
  map (fun events => open_items (opened events)) (ca_opened (rs_world example_stream.1.1)) =
    [map Ok (example_events ++ [AssistantEvent.Done FinishReason.Stop]) ++ []] /\
  is_some_and (fun r => is_ok r) example_stream.2 = true /\ rq_deadline example_stream.1.2 = None.
Proof. vm_compute. split; [|split]; reflexivity. Qed.
Lemma client_delivers_witness : exists fuel s', example_complete fuel = (s',
  Some (m ← collect_assistant_message_for_format
              (map Ok (example_events ++ [AssistantEvent.Done FinishReason.Stop]))
              (go_response_format (gr_options hello));
        Ok (am_with_model (gr_model hello) m))).
Proof.
  destruct example_opens as (Hitems & Hok & Hdl). destruct example_stream as [[s rq] [[st|e]|]] eqn:E; try discriminate Hok.
  unfold example_complete. refine (client_delivers example_transport (fun _ => 0) example_wait example_client hello control_new 0%nat s rq st
           example_events FinishReason.Stop [] _ _ _ _ _ _ _).
  - exact example_policies.
  - exact example_sse.
  - intros d w. exists w. reflexivity.
  - exact E.
  - exact Hdl.
  - intros events Hin. apply list_elem_of_In, (in_map (fun events => open_items (opened events))) in Hin.
    change (ca_opened (rs_world (s, rq, Some (Ok st)).1.1)) with (ca_opened (rs_world s)) in Hitems.
    rewrite Hitems in Hin. destruct Hin as [Hin|[]]. symmetry. exact Hin.
  - repeat constructor.
Defined.
