(* ===== verification/NetworkCall.v ===== *)
(** * Calls over the network transport

    [ReqwestTransport::execute] of [src/src/transport/reqwest.rs] and the client
    constructors that build it, and where the bytes of a whole call can go. *)
From S2P Require Import Prelude Errors Usage Sse SseStream Domain Images Structured Collector Pipeline ChatWire Schema Options ToolCalls ChatMachine ChatSpec Messages Reliability RetryAfter Runner RunnerSpec History HistorySpec Request RequestSpec Headers Serialize Contract Catalog ChatRequest MessagesRequest Plan PlanSpec Endpoint EndpointSpec Response Network NetworkSpec Auth Credentials Attempt AttemptSpec Client ClientSpec.

(** ** Sending *)
Section Execute.
Context {W H : Type} {WD : World W H} {U : Urls} {UP : UrlParts} {HH : HttpHeaders}.
Context {Certificate Identity : Type}.
#[local] Abbreviation Config := (ClientConfig (Certificate := Certificate) (Identity := Identity)).
#[local] Abbreviation Transport := (ReqwestTransport (Certificate := Certificate) (Identity := Identity)).
(** What [reqwest] answers: a status, headers and the chunks of a body. *)
Record ReqwestResponse := mk_reqwest_response {
  rr_status : Z; rr_headers : HeaderMap; rr_chunks : list (result ReqwestError (list ascii)) }.
(** [send] of a built request, raced against the deadline of the caller and, as
    the outer race, against that of the request. *)
Context (reqwest_send : Config -> HttpRequest -> option Z -> option Z -> W ->
           W * race (race (result ReqwestError ReqwestResponse))).

(** The chunks of [reqwest_body_stream], when the waits for them are the
    consumer's: it ends at the first error. *)
Fixpoint reqwest_body (chunks : list (result ReqwestError (list ascii))) : ByteStream :=
  match chunks with
  | [] => []
  | Ok bytes :: chunks => Ok bytes :: reqwest_body chunks
  | Err error :: _ => [Err (map_body_error error)]
  end.
Definition reqwest_execute (t : Transport) (request : HttpRequest) : Future W (result LlmError HttpResponse) :=
  fun deadline w =>
  match await_with_lifecycle (hr_lifecycle request)
          (reqwest_send (client_for t (hr_redirect_policy request)) request deadline) w with
  | (w, Err e) => (w, Output (Err e))
  | (w, Ok CancelledFirst) => (w, CancelledFirst)
  | (w, Ok DeadlineFirst) => (w, DeadlineFirst)
  | (w, Ok (Output (Err error))) => (w, Output (Err (map_start_error error)))
  | (w, Ok (Output (Ok response))) =>
      (w, Output (Ok (mk_http_response (rr_status response) (rr_headers response) (reqwest_body (rr_chunks response)))))
  end.

(** The raced stream of a body whose chunks are there is this list. *)
Section Ready.
Context (lifecycle : Runner.Request) (chunks : W -> list (result ReqwestError (list ascii))) (pop : W -> W).
Context (Hpop : forall w, chunks (pop w) = tail (chunks w)) (Hlive : forall w, lifecycle_preflight lifecycle w = Ok tt).

Lemma reqwest_body_streams w n : (length (chunks w) < n)%nat -> exists w',
  body_items lifecycle (fun _ w => (pop w, Output (head (chunks w)))) n false w = (w', reqwest_body (chunks w), true).
Proof.
  revert w. induction n as [|n IH]; intros w Hn; [lia|]. cbn [body_items]. unfold body_step, await_with_lifecycle, await_with_stage.
  rewrite Hlive. destruct (effective_deadline _ _) as [dl over]. cbn. specialize (IH (pop w)). rewrite Hpop in IH.
  destruct (chunks w) as [|[bytes|error] rest]; simpl in *; [by eexists| |].
  - destruct IH as [w' ->]; [lia|]. by eexists.
  - destruct n as [|n]; [lia|]. cbn. by eexists.
Qed.
End Ready.
End Execute.

(** ** Clients over the network *)
Section Client.
Context {W : Type} {U : Urls} {UP : UrlParts} (env_var : string -> option string) (url_host_str : Url -> option string).
Context {Certificate Identity : Type}.
Context (from_pem_bundle : list ascii -> option (list Certificate)) (from_pem : list ascii -> option Identity).
Context (proxy_all : string -> bool).

(** A client and the transport it holds. *)
Definition with_reqwest_network_policy (runtime : Runtime (W := W)) (policy : NetworkPolicy)
  : result LlmError (SdkClient W * ReqwestTransport (Certificate := Certificate) (Identity := Identity)) :=
  t ← transport_with_policy env_var url_host_str from_pem_bundle from_pem proxy_all policy;
  Ok (client_new runtime, t).
Definition with_reqwest (runtime : Runtime (W := W))
  : result LlmError (SdkClient W * ReqwestTransport (Certificate := Certificate) (Identity := Identity)) :=
  with_reqwest_network_policy runtime network_secure_defaults.
End Client.

(** ** Where a call goes *)
Section Confined.
Context {W H : Type} {WD : World W H} {CW : CredentialWorld W} {HW : HeaderSourceWorld W}.
Context {U : Urls} {UP : UrlParts} {UL : UrlLaws} {HV : HttpValues} {HT : HeaderText} {HH : HttpHeaders} {HF : HeaderFields}.
Context {ES : ErrorEnvelopeSyntax} {B : Base64} {JP : JsonPrinter} {JV : JsonValues} {JS : JsonSyntax}.
Context {CS : ChunkSyntax} {MS : MessagesSyntax}.
Context (env_var : string -> option string) (url_host_str : Url -> option string).
Context {Certificate Identity : Type}.
Context (from_pem_bundle : list ascii -> option (list Certificate)) (from_pem : list ascii -> option Identity).
Context (proxy_all : string -> bool).
Context (reqwest_send : ClientConfig (Certificate := Certificate) (Identity := Identity) -> HttpRequest ->
           option Z -> option Z -> W -> W * race (race (result ReqwestError ReqwestResponse))).
Context (system_now : W -> Z) (item_wait : Future W unit) (t : ReqwestTransport (Certificate := Certificate) (Identity := Identity)).

(** The URLs [reqwest] contacts for a request: its own and, under the
    redirecting client, those of a chain the redirect policy follows. *)
Definition contacted (http : HttpRequest) (u : Url) : Prop :=
  exists rest, redirect_chain (ep_url (hr_endpoint http) :: rest) /\ u ∈ ep_url (hr_endpoint http) :: rest /\
    (cc_redirect (client_for t (hr_redirect_policy http)) = RedirectDisabled -> rest = []).

Lemma transport_clients policy redirect :
  transport_with_policy env_var url_host_str from_pem_bundle from_pem proxy_all policy = Ok t ->
  build_client env_var url_host_str from_pem_bundle from_pem proxy_all redirect policy = Ok (client_for t redirect).
Proof.
  unfold transport_with_policy. rewrite bind_ok. intros (d & Hd & Ht). rewrite bind_ok in Ht.
  destruct Ht as (s & Hs & [= <-]). by destruct redirect.
Qed.
Lemma origin_domain u w name host : origin_from_url u = origin_from_url w -> is_ok (origin_from_url w) = true ->
  url_host u = Some (HostDomain name) -> url_host w = Some (HostDomain host) ->
  to_ascii_lowercase name = to_ascii_lowercase host.
Proof.
  unfold origin_from_url. intros E Hok Hu Hw. rewrite Hu, Hw in E. rewrite Hw in Hok. cbn in E, Hok.
  destruct (url_port_or_known_default u), (url_port_or_known_default w); simpl in *; congruence.
Qed.
(** A contacted URL has the origin of the request's, and no user information. *)
Lemma contacted_home http u : url_username (ep_url (hr_endpoint http)) = EmptyString ->
  url_password (ep_url (hr_endpoint http)) = None -> contacted http u ->
  url_username u = EmptyString /\ url_password u = None /\
  (u = ep_url (hr_endpoint http) \/ is_ok (origin_from_url (ep_url (hr_endpoint http))) = true /\
     origin_from_url u = origin_from_url (ep_url (hr_endpoint http))).
Proof.
  intros Hu Hp (rest & Hc & Hin & _). apply elem_of_cons in Hin as [->|Hin]; [by split_and!; [..|left]|].
  apply redirect_chains_exact in Hc as [_ Hc]. rewrite Forall_forall in Hc.
  destruct (Hc u Hin) as (? & ? & _ & _ & o & Ho & Ho'). split_and!; [done..|]. right. by rewrite Ho, Ho'.
Qed.

(** C5. The bytes of a call stay with their destination: over a network transport
    without a proxy, every URL contacted for a request of a call of a production
    client, redirects included, has the scheme, host and port of the profile's
    endpoint and no user information, and when the profile names a host, the
    resolver answers for the URL's name, unless it is written with a root dot,
    with public addresses only. *)
Theorem network_call_confined (p : ProviderProfile) c request policy ct w s http u :
  LawfulAuth (pp_auth p) -> pp_test_only p = false -> runtime_build p = Ok (sc_runtime c) ->
  policies_wf (runner_client c) ct -> nw_proxy policy = ProxyDisabled ->
  transport_with_policy env_var url_host_str from_pem_bundle from_pem proxy_all policy = Ok t ->
  call_reaches (reqwest_execute reqwest_send t) system_now item_wait c request ct w s ->
  http ∈ ca_sent (rs_world s) -> contacted http u ->
  origin_from_url u = origin_from_url (destination (pp_endpoint p)) /\
  url_username u = EmptyString /\ url_password u = None /\
  forall host name lookup l,
    url_host (destination (pp_endpoint p)) = Some (HostDomain host) -> url_host u = Some (HostDomain name) ->
    ends_with "." name = false -> (forall host found, lookup host = Some found -> Forall ip_wf found) ->
    dns_resolve (cc_resolver (client_for t (hr_redirect_policy http))) lookup name = Some l ->
    l <> [] /\ Forall public_ip l.
Proof.
  intros Hlaw Htest Hb Hwf Hproxy Ht Hr Hin Hc.
  assert (safe_request p http) as [Hadm Ha _ _ _].
  { eapply call_request_safe; try done. }
  destruct Hadm as (Hu & Hp & _ & h & Hh & [_ Hpub] & _). apply contacted_home in Hc as (Hcu & Hcp & Ho); [|done..].
  split_and!; [rewrite <- (same_origin _ _ Ha); by destruct Ho as [->|[_ ->]]|done..|].
  intros host name lookup l Hd Hn Hdot Hw Hl. destruct Ha as (_ & Hah & _). rewrite Hh, Hd in Hah. injection Hah as ->.
  eapply resolver_public; try done; [by apply transport_clients|]. apply public_not_localhost; [|done].
  assert (to_ascii_lowercase name = to_ascii_lowercase host) as El.
  { destruct Ho as [->|[Hok Ho]]; [by rewrite Hh in Hn; injection Hn as ->|by eapply origin_domain]. }
  unfold public_host, public_domain, labels in *. by rewrite El.
Qed.
End Confined.

(** ** A concrete call over the network *)
#[local] Existing Instances record_urls record_parts record_laws example_header_maps example_header_fields.
#[local] Existing Instances still_world still_credentials still_headers ascii_values ascii_text no_envelope.
#[local] Existing Instances example_codec example_printer ClientSpec.example_values example_syntax example_chunks example_labels.

Definition network_send (c : ClientConfig (Certificate := list ascii) (Identity := list ascii)) (http : HttpRequest)
    (caller own : option Z) (w : nat) : nat * race (race (result ReqwestError ReqwestResponse)) :=
  (S w, Output (Output (Ok (mk_reqwest_response 200 [("content-type", "text/event-stream")] [Ok (bytes_of example_body)])))).
Definition network_transport : ReqwestTransport (Certificate := list ascii) (Identity := list ascii) :=
  mk_reqwest_transport NetworkSpec.example_client
    (mk_client_config (from_secs 10) RedirectSameOrigin (from_secs 90) 8 (from_mins 1)
      (resolver_for example_host_str example_policy None) false (Some (from_secs 30, from_secs 10)) None (Some Tls12) [] None)
    example_policy.
Example network_transport_built :
  transport_with_policy (fun _ => None) example_host_str (fun pem : list ascii => Some [pem])
    (fun pem : list ascii => Some pem) (fun _ => true) example_policy = Ok network_transport.
Proof. reflexivity. Qed.
Definition network_stream :=
  client_stream (reqwest_execute network_send network_transport) (fun _ => 0) example_wait ClientSpec.example_client hello
    control_new 0%nat.
Definition network_lookup (host : string) : option (list IpAddr) :=
  if str_eqb host "api.openai.com" then Some [V4 (ipv4 20 50 2 10)] else None.
Lemma network_lookup_wf host found : network_lookup host = Some found -> Forall ip_wf found.
Proof.
  unfold network_lookup. destruct (str_eqb _ _); [intros [= <-]|done]. repeat constructor; vm_compute; discriminate.
Qed.

Lemma network_call_confined_witness : exists http,
  http ∈ ca_sent (rs_world network_stream.1.1) /\
  origin_from_url (ep_url (hr_endpoint http)) = origin_from_url example_openai_url /\
  Forall public_ip [V4 (ipv4 20 50 2 10)].
Proof.
  assert (length (ca_sent (rs_world network_stream.1.1)) = 1%nat /\
          map (fun http => url_host (ep_url (hr_endpoint http))) (ca_sent (rs_world network_stream.1.1)) =
            [Some (HostDomain "api.openai.com")] /\
          map hr_redirect_policy (ca_sent (rs_world network_stream.1.1)) = [RedirectDisabled]) as (Hlen & Hhost & Hpol)
    by (vm_compute; split; [|split]; reflexivity).
  destruct (ca_sent (rs_world network_stream.1.1)) as [|http []] eqn:E; try discriminate Hlen.
  injection Hhost as Hhost. injection Hpol as Hpol.
  assert (http ∈ ca_sent (rs_world network_stream.1.1)) as Hin by (rewrite E; apply list_elem_of_here).
  destruct (network_call_confined (fun _ => None) example_host_str (fun pem : list ascii => Some [pem])
              (fun pem : list ascii => Some pem) (fun _ => true) network_send (fun _ => 0) example_wait network_transport
              example_profile ClientSpec.example_client hello example_policy control_new 0%nat network_stream.1.1 http
              (ep_url (hr_endpoint http))) as (Ho & _ & _ & Hl).
  - apply bearer_lawful.
  - reflexivity.
  - apply get_ok_eq. exact example_built.
  - exact example_policies.
  - reflexivity.
  - exact network_transport_built.
  - unfold call_reaches. fold network_stream. destruct network_stream as [[s rq] r]. left. reflexivity.
  - exact Hin.
  - exists []. split; [apply chain_start|]. split; [apply list_elem_of_here|reflexivity].
  - exists http. split; [left|]. split; [exact Ho|].
    refine (proj2 (Hl "api.openai.com" "api.openai.com" network_lookup [V4 (ipv4 20 50 2 10)] _ Hhost _ network_lookup_wf _)).
    + reflexivity.
    + reflexivity.
    + rewrite Hpol. vm_compute. reflexivity.
Defined.
